(* ===== verification/_CoqProject ===== *)
-Q . S2P
Prelude.v
PyStr.v
Json.v
PyTime.v
IPAddr.v
Numbers.v
IPKinds.v
Net.v
X509Lib.v
X509.v
Url.v
Leaf.v
Store.v
Settings.v
CaService.v
Grants.v
Identity.v
Certs.v
Crl.v
AuditLog.v
Nonces.v
AcmeNames.v
AcmeService.v
Base64.v
Csr.v
Jws.v
Targets.v
Eab.v
Finalize.v
Validators.v
Validation.v
AcmeApi.v
WebDeps.v
WebUi.v
TokensUi.v
RestApi.v
Tls.v
AcmeServer.v
Ledger.v
Secrets.v
KeyFile.v
BaseUrl.v
SettingsUi.v
Mcp.v
CaPages.v
CaUi.v
CertsUi.v
CaPreview.v
CrlUi.v
Csv.v
TransferUi.v
AcmeUi.v
AuditUi.v
Dashboard.v
Startup.v
JsBase64.v
