(* ===== verification/Prelude.v ===== *)
(** * cabin: a verification development

    cabin is an internal certificate authority: a Python service that keeps a
    hierarchy of CAs in a database, issues and revokes leaf certificates, and
    is reached through four front doors, a web UI, a REST API, an ACME server
    and an MCP server.  This development is a shallow embedding of that
    program.  Paths below are relative to [src/src/cabin].

    ** How the program is put together

    The domain layer works on one relational database.  [ca/x509.py] and
    [ca/leaf.py] build certificates and know no database; [ca/service.py] keeps
    the hierarchy, [ca/certs.py] the inventory of leaves, [ca/crl.py] the
    revocation lists, [issuer_grants.py] says who may use which issuer,
    [users.py], [sessions.py] and [api_tokens.py] who may sign in, [audit.py]
    what was done.  Every front door authenticates a caller, calls the same
    domain operations, writes an audit event and renders an answer.  Private
    keys lie in the database sealed under a master key ([secrets.py]).

    ** The monad and the database

    An operation that reads or writes is a [Tx DB A] of [Prelude.v]: a
    session (the work in progress and what is committed) to an outcome, [Ok] or
    [Raise] of an exception of the type [Exc], and the session it leaves.
    [request m db] runs it in a session of its own, as the code does for each
    request, and is what the theorems speak about; [wp] is its weakest
    precondition, with a rule per operation ([wp_issue_and_store],
    [wp_revoke], [wp_ui_guard], [wp_require_api_role], ...), so a handler's
    proof is the rules of what it calls.  [DB] ([Store.v]) is a record of finite
    maps, one per table.  Whatever an operation takes from its surroundings -
    each reading of the clock, each random draw, each answer of the network -
    is an argument, so the theorems hold for all of them.

    ** The files

    - Of the language and its library: [PyStr.v] (str, int to text, repr),
      [Json.v], [PyTime.v] (datetime and isoformat), [Numbers.v] (int of a
      text), [IPAddr.v] and [IPKinds.v] (ipaddress), [Url.v] and the first part
      of [BaseUrl.v] (urllib.parse), [Base64.v].
    - Interfaces to third-party code: [X509Lib.v] (cryptography's X.509),
      [Store.SecretStore] (sealing, discharged by [Secrets.v]), [Identity.Crypto]
      (argon2, SHA-256, random tokens), [Csr.DerLib], [Finalize.DerCerts],
      [Jws.Jose], [Secrets.Ciphers], [Tls.SSLLib], [CertsUi.P12Lib] (PKCS#12),
      and [Net.World] (DNS, HTTP, TLS and the clock of a validation).  Each has a concrete instance in
      which the witnesses evaluate.
    - The CA: [X509.v] (ca/x509.py), [Leaf.v] (ca/leaf.py), [Store.v] (the
      tables), [CaService.v] (ca/service.py), [Certs.v] (ca/certs.py), [Crl.v]
      (ca/revocation.py, ca/crl.py), [Grants.v] (issuer_grants.py).
    - Callers and settings: [Identity.v] (users.py, sessions.py,
      api_tokens.py), [AuditLog.v] (audit.py), [Settings.v] and [BaseUrl.v]
      (settings.py), [Secrets.v] and [KeyFile.v] (secrets.py), [Tls.v] (tls.py).
    - ACME: [Nonces.v], [AcmeNames.v] (errors.py and parsing), [AcmeService.v]
      (service.py), [Jws.v], [Csr.v], [Eab.v], [Finalize.v] (api_finalize.py),
      [Targets.v], [Validators.v] and [Validation.v] (validation/), [AcmeApi.v]
      (http.py, api_account.py, api_order.py), [AcmeServer.v] (api.py and the
      middleware), [Ledger.v] (the refinement of concurrent finalizations).
    - Front doors: [WebDeps.v] (the guards of web/deps.py, web/api_deps.py),
      [RestApi.v] (api/), [Mcp.v] (mcp/), and the pages: [WebUi.v] and
      [Dashboard.v] (web/ui.py), [TokensUi.v], [SettingsUi.v], [CaPages.v],
      [CaUi.v] and [CaPreview.v] (web/ca_ui.py and the imports of
      web/transfer_ui.py), [CertsUi.v] (web/certs_ui.py,
      web/certs_download_ui.py), [TransferUi.v] (the rest of transfer_ui.py,
      over the CSV files of [Csv.v]), [AcmeUi.v] (web/acme_ui.py), [AuditUi.v]
      (web/audit_ui.py), [CrlUi.v] (web/crl_ui.py, what anyone may fetch).
    - [Startup.v]: the configuration ([config.py], [cli.py]), the supervision of
      the listeners ([server.py]), the answers to refusals and the session's
      cookie ([app.py]).
    - [JsBase64.v]: one module of the vendored, minified Swagger UI bundle, the
      only JavaScript of the repository; the bundle is otherwise third-party
      code on one line and is not modelled.

    ** What the theorems show

    - Issuance: what a certificate issued or signed says and what it can never
      say ([Leaf]); DNS names and addresses pass an issuer's name constraints
      exactly as RFC 5280 has it ([Leaf.Rfc5280]), mail wherever it is not
      constrained; the hierarchy stays sound over every history of requests, an
      active issuer is never lost.
    - Revocation: every revocation is in its issuer's current list, always.
    - ACME: one certificate per order under every interleaving (and the
      refinement of an abstract ledger), no certificate and no valid challenge
      without proof, no account without its key and binding, no replay, a
      validation attempt cannot be aimed at a forbidden address and concludes.
    - Callers: the last superadmin is never lost, tables stay consistent,
      issuer selection is exactly what was granted, and each front door's
      handlers act exactly for whom and as far as they say, with one audit
      event per change.
    - Pages: a form does what it says on every branch, refusals included; a
      preview keeps its word, the certificate or root made afterwards is the
      one the panel described ([CertsUi], [CaPreview]); the dashboard, the
      hierarchy pages and the log leave nothing out; an exported inventory
      reads back from the file; a CA's private key leaves only to a superadmin,
      with one event; the public lists are complete, even while the key that
      signs them cannot be used.
    - Keys at rest: sealing inverts and authenticates; processes that start at
      once agree on one master key; starting terminates.
    - cabin's own certificate is replaced exactly when it should be, never
      downgraded, and the renewal loop comes to rest.
    - The process: what it runs with is sound, neither listener nor the
      renewal loop outlives another, and every refusal is explained.

    ** Fuel and bounds

    A walk to the parent takes as much fuel as there are rows, plus one, and a
    theorem of [CaService.v] says a sound table needs no more.  The HTTP-01
    fetch follows at most its hops, six requests.  Reading a body has fuel for
    64 KiB + 1 chunks, none of which is empty, and more fuel changes nothing
    ([Validators.chunk_fuel]): it is the size check that ends the loop, and the
    bound on chunks is proved from that check for any fuel.  The renewal loop runs over a list
    of ticks of any length.  [KeyFile.v] is a step relation with a measure.  No
    other recursion needs fuel.

    ** Not modelled, and why

    Text beyond the code points 0-255; ids outside 64 bits, except where a
    comment promises something about them; routing, form and JSON parsing, HTML
    templates and the text of a cookie (the frameworks'); what a disk keeps
    over a power failure; the locks of one process, where a lock only makes
    requests run one after the other, as they do here; the key's way into
    OpenSSL.  [json.loads], hashes, ciphers and OpenSSL are interfaces.  Dates
    a client writes are read by [fromisoformat], of which only the forms the
    program writes are modelled.  Of the start of the process argparse,
    uvicorn, the lifespan and the inclusion of routers are left out; so are the
    SQLAlchemy models' schema and the migrations, FastMCP's transport (its
    masking of unexpected errors, the typing of arguments), templates and
    static assets.  Dates as a page prints them, file names and the text of the
    links of a pager are not part of a page's value.
 *)

From stdpp Require Export base gmap strings list sorting option numbers fin_maps.
From Stdlib Require Export Ascii.
From Stdlib Require Export ZArith Lia.
#[export] Set Default Proof Using "Type".
#[export] Set Warnings "-clear-no-such-hyp".

Declare Scope cabin_scope.
Delimit Scope cabin_scope with cabin.
#[global] Open Scope Z_scope.
#[global] Open Scope stdpp_scope.

(** ** JSON values

    A number with a fraction or an exponent is known by its [repr]; an object
    is its members in order, each name once. *)
#[local] Set Warnings "-register-all".
Inductive json :=
  | JNull | JBool (b : bool) | JInt (n : Z) | JFloat (repr : string) | JStr (s : string)
  | JList (l : list json) | JObj (o : list (string * json)).
#[export] Instance json_eq_dec : EqDecision json.
Proof.
  refine (fix go (x y : json) {struct x} : Decision (x = y) :=
    match x, y with
    | JNull, JNull => left eq_refl
    | JBool b, JBool c => cast_if (decide (b = c))
    | JInt m, JInt n => cast_if (decide (m = n))
    | JFloat r, JFloat s => cast_if (decide (r = s))
    | JStr r, JStr s => cast_if (decide (r = s))
    | JList k, JList l => cast_if (@list_eq_dec _ go k l)
    | JObj k, JObj l => cast_if (@list_eq_dec _ (@prod_eq_dec _ _ _ go) k l)
    | _, _ => right _
    end); clear go; abstract congruence.
Defined.

(** ** Exceptions

    One constructor per exception class cabin raises or lets through.  The
    argument is the message, where the message is part of what the code
    computes; [AcmeError] carries the problem type, the HTTP status, the members
    the problem adds and the headers of its answer. *)
Inductive Exc :=
  | CANotConfiguredError (msg : string)
  | UnknownIssuerError (msg : string)
  | IssuerRetiredError (msg : string)
  | IssuerRequiredError (msg : string)
  | RetireError (msg : string)
  | RowRetiredError (msg : string)
  | CrossSignError (msg : string)
  | CAImportError (msg : string)
  | IssueError (msg : string)
  | NameConstraintError (msg : string)
  | IssuerForbiddenError (msg : string)
  | NoGrantedIssuerError (msg : string)
  | UserExistsError (msg : string)
  | InvalidCredentialsError (msg : string)
  | WeakPasswordError (msg : string)
  | LastSuperadminError (msg : string)
  | UserNotFoundError (msg : string)
  | TokenError (msg : string)
  | RevocationError (msg : string)
  | SecretsError (msg : string)
  | SettingError (msg : string)
  | AcmeError (kind : string) (detail : string) (status : Z) (extra : list (string * json)) (headers : list (string * string))
  | ExtensionNotFound (msg : string)
  | ValueError (msg : string)
  | TypeError (msg : string)
  | KeyError (msg : string)
  | RecursionError (msg : string)
  | DeserializationError (msg : string)  (* josepy *)
  | InvalidSignature (msg : string)
  | InvalidTag (msg : string)
  | AttributeError (msg : string)
  | OSError (msg : string)
  | HTTPException (status : Z) (detail : string) (headers : list (string * string))
  | AuthRedirect (location : string)
  | RequestValidationError (msg : string)  (* FastAPI: a 422 *)
  | ToolError (msg : string)  (* FastMCP: what the caller is told *)
  | ConfigError (msg : string)
  | SystemExit (msg : string)
  | OverflowError (msg : string)
  | AssertionError (msg : string)
  | IntegrityError (msg : string)
  | StaleDataError (msg : string)
  | InvalidRequestError (msg : string)
  (** Not an exception of the program: the model ran out of fuel. *)
  | OutOfFuel.

#[export] Instance Exc_eq_dec : EqDecision Exc.
Proof. solve_decision. Defined.

(** [str(exc)] *)
Definition exc_text (e : Exc) : string :=
  match e with
  | CANotConfiguredError m | UnknownIssuerError m | IssuerRetiredError m | IssuerRequiredError m
  | RetireError m | RowRetiredError m | CrossSignError m | CAImportError m | IssueError m
  | NameConstraintError m | IssuerForbiddenError m | NoGrantedIssuerError m | UserExistsError m
  | InvalidCredentialsError m | WeakPasswordError m | LastSuperadminError m | UserNotFoundError m
  | TokenError m | RevocationError m | SecretsError m | SettingError m | AcmeError _ m _ _ _ | ExtensionNotFound m
  | ValueError m | TypeError m | KeyError m | RecursionError m | DeserializationError m | InvalidSignature m | InvalidTag m | AttributeError m | OSError m | OverflowError m | AssertionError m
  | IntegrityError m | StaleDataError m | InvalidRequestError m | HTTPException _ m _ | AuthRedirect m | RequestValidationError m | ToolError m | ConfigError m | SystemExit m => m
  | OutOfFuel => ""
  end.

(** [NameConstraintError] is a subclass of [IssueError]
    ([cabin.ca.leaf]). *)
Definition is_issue_error (e : Exc) : bool :=
  match e with IssueError _ | NameConstraintError _ => true | _ => false end.

(** ** The result of a Python call: a value or an exception *)
Inductive Outcome (A : Type) :=
  | Ok (a : A)
  | Raise (e : Exc).
Arguments Ok {_} _.
Arguments Raise {_} _.

#[export] Instance Outcome_ret : MRet Outcome := λ A a, Ok a.
#[export] Instance Outcome_bind : MBind Outcome := λ A B f m,
  match m with Ok a => f a | Raise e => Raise e end.
#[export] Instance Outcome_throw : MThrow Exc Outcome := λ A e, Raise e.
#[export] Instance Outcome_eq_dec {A} `{EqDecision A} : EqDecision (Outcome A).
Proof. solve_decision. Defined.

Definition is_ok {A} (m : Outcome A) : bool :=
  match m with Ok _ => true | Raise _ => false end.

Definition raised {A} (m : Outcome A) : option Exc :=
  match m with Ok _ => None | Raise e => Some e end.
Lemma raised_Some {A} (m : Outcome A) e : raised m = Some e ↔ m = Raise e.
Proof. destruct m; naive_solver. Qed.

(** [if b: raise e] at the head of a block. *)
Definition raise_if {M : Type → Type} `{MRet M, MThrow Exc M} (b : bool) (e : Exc) : M unit :=
  if b then mthrow e else mret ().

(** [try: m except ValueError: h] on pure calls. *)
Definition catch_pure {A} (m : Outcome A) (sel : Exc → bool) (h : Exc → Outcome A) : Outcome A :=
  match m with
  | Ok a => Ok a
  | Raise e => if sel e then h e else Raise e
  end.

Definition of_option {A} (o : option A) (e : Exc) : Outcome A :=
  match o with Some a => Ok a | None => Raise e end.

Lemma Outcome_bind_ok {A B} (m : Outcome A) (f : A → Outcome B) (b : B) :
  m ≫= f = Ok b ↔ ∃ a, m = Ok a ∧ f a = Ok b.
Proof. destruct m; cbn; naive_solver. Qed.

Lemma raise_if_ok (b : bool) (e : Exc) (u : unit) :
  raise_if (M := Outcome) b e = Ok u ↔ b = false.
Proof. unfold raise_if, mthrow, Outcome_throw, mret, Outcome_ret. destruct b, u; naive_solver. Qed.

Lemma of_option_ok {A} (o : option A) e (a : A) : of_option o e = Ok a ↔ o = Some a.
Proof. destruct o; cbn; naive_solver. Qed.
Lemma of_option_raised {A} (o : option A) e e' : of_option o e = Raise e' ↔ o = None ∧ e' = e.
Proof. destruct o; cbn; naive_solver. Qed.

(** ** The ORM session

    A request owns one SQLAlchemy session: [work] is the view its queries
    see (pending inserts and updates are flushed before every query),
    [durable] what other requests see and what survives the end of the
    request.  [commit] publishes the view, [rollback] drops it; a session
    that is closed without a commit leaves [durable] as it was. *)
Record Session (S : Type) := mkSession { work : S; durable : S }.
Arguments mkSession {_} _ _.
Arguments work {_} _.
Arguments durable {_} _.

Definition fresh_session {S} (db : S) : Session S := mkSession db db.

Definition Tx (S A : Type) : Type := Session S → Outcome A * Session S.

#[export] Instance Tx_ret S : MRet (Tx S) := λ A a s, (Ok a, s).
#[export] Instance Tx_bind S : MBind (Tx S) := λ A B f m s,
  match m s with
  | (Ok a, s') => f a s'
  | (Raise e, s') => (Raise e, s')
  end.
#[export] Instance Tx_throw S : MThrow Exc (Tx S) := λ A e s, (Raise e, s).

Section Session.
Context {S : Type}.
Implicit Types (s : Session S).

(** [db.scalar(select ...)], [db.get]: a read of the session's view. *)
Definition query {A} (f : S → A) : Tx S A := λ s, (Ok (f (work s)), s).
(** [db.add], [db.delete], [db.execute(update ...)], attribute writes. *)
Definition modify (f : S → S) : Tx S unit := λ s, (Ok (), mkSession (f (work s)) (durable s)).
Definition commit : Tx S unit := λ s, (Ok (), mkSession (work s) (work s)).
Definition rollback : Tx S unit := λ s, (Ok (), mkSession (durable s) (durable s)).
Definition lift {A} (m : Outcome A) : Tx S A := λ s, (m, s).
(** [try: m except Exception: h; raise] *)
Definition on_error {A} (m : Tx S A) (h : Tx S unit) : Tx S A := λ s,
  match m s with
  | (Ok a, s') => (Ok a, s')
  | (Raise e, s') =>
      match h s' with
      | (Ok _, s'') => (Raise e, s'')
      | (Raise e', s'') => (Raise e', s'')
      end
  end.
(** [try: m except <sel>: h] *)
Definition catch {A} (m : Tx S A) (sel : Exc → bool) (h : Exc → Tx S A) : Tx S A := λ s,
  match m s with
  | (Ok a, s') => (Ok a, s')
  | (Raise e, s') => if sel e then h e s' else (Raise e, s')
  end.
(** The end of a request: [db.close()] in [web/deps.py:get_db]. *)
Definition close_session (s : Session S) : S := durable s.
(** One request against the database: open a session, run, close. *)
Definition request {A} (m : Tx S A) (db : S) : Outcome A * S :=
  let '(r, s) := m (fresh_session db) in (r, close_session s).

Lemma Tx_bind_eq {A B} (m : Tx S A) (f : A → Tx S B) s :
  (m ≫= f) s = match m s with (Ok a, s') => f a s' | (Raise e, s') => (Raise e, s') end.
Proof. reflexivity. Qed.

Lemma Tx_bind_ok {A B} (m : Tx S A) (f : A → Tx S B) s (b : B) s' :
  (m ≫= f) s = (Ok b, s') ↔ ∃ a s1, m s = (Ok a, s1) ∧ f a s1 = (Ok b, s').
Proof. rewrite Tx_bind_eq. destruct (m s) as [[a|e] s1]; naive_solver. Qed.

Lemma raise_if_tx_ok (b : bool) (e : Exc) s u s' :
  raise_if (M := Tx S) b e s = (Ok u, s') ↔ b = false ∧ s' = s.
Proof. unfold raise_if, mthrow, Tx_throw, mret, Tx_ret. destruct b, u; naive_solver. Qed.

Lemma lift_ok {A} (m : Outcome A) s (a : A) s' :
  lift m s = (Ok a, s') ↔ m = Ok a ∧ s' = s.
Proof. unfold lift. naive_solver. Qed.
Lemma query_ok {A} (f : S → A) s (a : A) s' :
  query f s = (Ok a, s') ↔ a = f (work s) ∧ s' = s.
Proof. unfold query. naive_solver. Qed.
Lemma modify_ok (f : S → S) s u s' :
  modify f s = (Ok u, s') ↔ s' = mkSession (f (work s)) (durable s).
Proof. unfold modify. destruct u. naive_solver. Qed.
Lemma commit_ok s u s' : commit s = (Ok u, s') ↔ s' = mkSession (work s) (work s).
Proof. unfold commit. destruct u. naive_solver. Qed.
Lemma Tx_ret_ok {A} (a b : A) s s' :
  mret (M := Tx S) a s = (Ok b, s') ↔ b = a ∧ s' = s.
Proof. unfold mret, Tx_ret. naive_solver. Qed.
Lemma Tx_throw_ok {A} (e : Exc) s (b : A) s' :
  mthrow (M := Tx S) e s = (Ok b, s') ↔ False.
Proof. unfold mthrow, Tx_throw. naive_solver. Qed.

(** *** Invariants through a transaction

    [keeps P m]: if both the view and the durable state satisfy [P], they
    still do after [m], whether [m] returned or raised. *)
Definition both (P : S → Prop) (s : Session S) : Prop := P (work s) ∧ P (durable s).
Definition keeps (P : S → Prop) {A} (m : Tx S A) : Prop :=
  ∀ s, both P s → both P (m s).2.

Lemma keeps_ret P {A} (a : A) : keeps P (mret a).
Proof. by intros s H. Qed.
Lemma keeps_throw P {A} (e : Exc) : keeps P (mthrow e : Tx S A).
Proof. by intros s H. Qed.
Lemma keeps_bind P {A B} (m : Tx S A) (f : A → Tx S B) :
  keeps P m → (∀ a, keeps P (f a)) → keeps P (m ≫= f).
Proof.
  intros Hm Hf s H. rewrite Tx_bind_eq. specialize (Hm s H).
  destruct (m s) as [[a|e] s1]; [|done]. by apply Hf.
Qed.
Lemma keeps_query P {A} (f : S → A) : keeps P (query f).
Proof. by intros s H. Qed.
Lemma keeps_lift P {A} (m : Outcome A) : keeps P (lift m).
Proof. by intros s H. Qed.
Lemma keeps_commit P : keeps P commit.
Proof. by intros s [H _]. Qed.
Lemma keeps_rollback P : keeps P rollback.
Proof. by intros s [_ H]. Qed.
Lemma keeps_modify P (f : S → S) : (∀ db, P db → P (f db)) → keeps P (modify f).
Proof. intros Hf s [H1 H2]. split; cbn; auto. Qed.
Lemma keeps_raise_if P b e : keeps P (raise_if b e).
Proof. destruct b; [apply keeps_throw|apply keeps_ret]. Qed.

(** A query may be used by the continuation, with the invariant at hand. *)
Lemma keeps_query_bind P {A B} (f : S → A) (k : A → Tx S B) :
  (∀ db, P db → keeps P (k (f db))) → keeps P (query f ≫= k).
Proof. intros Hk s H. apply Hk; [apply H|exact H]. Qed.
(** So may the result of a pure call. *)
Lemma keeps_lift_bind P {A B} (m : Outcome A) (k : A → Tx S B) :
  (∀ a, m = Ok a → keeps P (k a)) → keeps P (lift m ≫= k).
Proof. intros Hk s H. rewrite Tx_bind_eq. destruct m; cbn; [by apply Hk|done]. Qed.
Lemma keeps_raise_if_bind P {B} b e (k : unit → Tx S B) :
  (b = false → keeps P (k ())) → keeps P (raise_if b e ≫= k).
Proof. intros Hk s H. rewrite Tx_bind_eq. destruct b; cbn; [done|by apply Hk]. Qed.
Lemma keeps_on_error P {A} (m : Tx S A) h : keeps P m → keeps P h → keeps P (on_error m h).
Proof.
  intros Hm Hh s H. unfold on_error. specialize (Hm s H). destruct (m s) as [[a|e] s1]; [done|].
  specialize (Hh s1 Hm). by destruct (h s1) as [[]].
Qed.

(** *** Read-only transactions *)
Definition readonly {A} (m : Tx S A) : Prop := ∀ s, (m s).2 = s.
Lemma readonly_keeps P {A} (m : Tx S A) : readonly m → keeps P m.
Proof. intros Hr s H. by rewrite Hr. Qed.
Lemma readonly_bind {A B} (m : Tx S A) (f : A → Tx S B) :
  readonly m → (∀ a, readonly (f a)) → readonly (m ≫= f).
Proof.
  intros Hm Hf s. rewrite Tx_bind_eq. specialize (Hm s).
  destruct (m s) as [[a|e] s1]; cbn in *; subst; [apply Hf|done].
Qed.
Lemma readonly_ret {A} (a : A) : readonly (mret a).
Proof. done. Qed.
Lemma readonly_throw {A} (e : Exc) : readonly (mthrow e : Tx S A).
Proof. done. Qed.
Lemma readonly_query {A} (f : S → A) : readonly (query f).
Proof. done. Qed.
Lemma readonly_lift {A} (m : Outcome A) : readonly (lift m).
Proof. done. Qed.
Lemma readonly_raise_if b e : readonly (raise_if b e).
Proof. by destruct b. Qed.
End Session.

(** ** Weakest preconditions

    [wp m s Q]: running [m] from [s] ends in a result and a session that
    satisfy [Q].  One lemma per operation; [wp_run] applies them until the
    goal is about the end of each path. *)
Definition wp {S A} (m : Tx S A) (s : Session S) (Q : Outcome A → Session S → Prop) : Prop :=
  Q (m s).1 (m s).2.

Section wp.
Context {S : Type}.
Implicit Types (s : Session S).

Lemma wp_bind {A B} (m : Tx S A) (f : A → Tx S B) s Q :
  wp m s (λ r s', match r with Ok a => wp (f a) s' Q | Raise e => Q (Raise e) s' end) →
  wp (m ≫= f) s Q.
Proof. unfold wp. rewrite Tx_bind_eq. destruct (m s) as [[a|e] s']; done. Qed.
Lemma wp_ret {A} (a : A) s (Q : Outcome A → Session S → Prop) : Q (Ok a) s → wp (mret a) s Q.
Proof. done. Qed.
Lemma wp_throw {A} (e : Exc) s (Q : Outcome A → Session S → Prop) : Q (Raise e) s → wp (mthrow e) s Q.
Proof. done. Qed.
Lemma wp_query {A} (f : S → A) s (Q : Outcome A → Session S → Prop) : Q (Ok (f (work s))) s → wp (query f) s Q.
Proof. done. Qed.
Lemma wp_lift {A} (m : Outcome A) s (Q : Outcome A → Session S → Prop) :
  (∀ a, m = Ok a → Q (Ok a) s) → (∀ e, m = Raise e → Q (Raise e) s) → wp (lift m) s Q.
Proof. unfold wp, lift. cbn. destruct m; auto. Qed.
Lemma wp_modify (f : S → S) s (Q : Outcome unit → Session S → Prop) :
  Q (Ok ()) (mkSession (f (work s)) (durable s)) → wp (modify f) s Q.
Proof. done. Qed.
Lemma wp_commit s (Q : Outcome unit → Session S → Prop) :
  Q (Ok ()) (mkSession (work s) (work s)) → wp commit s Q.
Proof. done. Qed.
Lemma wp_rollback s (Q : Outcome unit → Session S → Prop) :
  Q (Ok ()) (mkSession (durable s) (durable s)) → wp rollback s Q.
Proof. done. Qed.
Lemma wp_raise_if (b : bool) (e : Exc) s (Q : Outcome unit → Session S → Prop) :
  (b = true → Q (Raise e) s) → (b = false → Q (Ok ()) s) → wp (raise_if b e) s Q.
Proof. unfold wp. destruct b; cbn; auto. Qed.
Lemma wp_on_error {A} (m : Tx S A) h s Q :
  wp m s (λ r s', match r with
    | Ok a => Q (Ok a) s'
    | Raise e => wp h s' (λ r' s'', match r' with Ok _ => Q (Raise e) s'' | Raise e' => Q (Raise e') s'' end)
    end) → wp (on_error m h) s Q.
Proof.
  unfold wp, on_error. destruct (m s) as [[a|e] s']; cbn; [done|].
  by destruct (h s') as [[] s''].
Qed.
Lemma wp_catch {A} (m : Tx S A) (sel : Exc → bool) (h : Exc → Tx S A) s (Q : Outcome A → Session S → Prop) :
  wp m s (λ r s', match r with
    | Ok a => Q (Ok a) s'
    | Raise e => if sel e then wp (h e) s' Q else Q (Raise e) s'
    end) → wp (catch m sel h) s Q.
Proof. unfold wp, catch. destruct (m s) as [[a|e] s']; cbn; [done|]. by destruct (sel e). Qed.
Lemma wp_of_run {A} (m : Tx S A) s r s' (Q : Outcome A → Session S → Prop) : wp m s Q → m s = (r, s') → Q r s'.
Proof. unfold wp. intros H Hm. by rewrite Hm in H. Qed.
Lemma wp_mono {A} (m : Tx S A) s (Q Q' : Outcome A → Session S → Prop) :
  wp m s Q → (∀ r s', Q r s' → Q' r s') → wp m s Q'.
Proof. unfold wp. auto. Qed.
Lemma wp_readonly {A} (m : Tx S A) s (Q : Outcome A → Session S → Prop) :
  readonly m → (∀ r, m s = (r, s) → Q r s) → wp m s Q.
Proof.
  unfold wp. intros Hr HQ. specialize (Hr s). destruct (m s) as [r s'] eqn:E. cbn in *. subst s'. by apply HQ.
Qed.
(** What a run does, from its weakest precondition. *)
Lemma wp_run_ok {A} (m : Tx S A) s Q r s' : wp m s Q → m s = (r, s') → Q r s'.
Proof. unfold wp. intros H Hr. by rewrite Hr in H. Qed.
Lemma request_wp {A} (m : Tx S A) (db : S) (Q : Outcome A → S → Prop) r db' :
  request m db = (r, db') → wp m (fresh_session db) (λ r s, Q r (durable s)) → Q r db'.
Proof. unfold wp, request. destruct (m (fresh_session db)) as [r0 s0]. by intros [= -> <-]. Qed.
(** A part of a request that ends with everything committed, or undone: what
    follows it starts as a request of its own would. *)
Definition settled {A} (m : Tx S A) : Prop := ∀ db, wp m (fresh_session db) (λ _ s, work s = durable s).
Lemma request_bind {A B} (m : Tx S A) (f : A → Tx S B) (db : S) : settled m →
  request (m ≫= f) db = match request m db with (Ok a, db') => request (f a) db' | (Raise e, db') => (Raise e, db') end.
Proof.
  intros Hm. specialize (Hm db). unfold wp, request in *. rewrite Tx_bind_eq.
  destruct (m (fresh_session db)) as [[a|e] [w d]]; cbn in *; [by subst w|done].
Qed.
Lemma request_assoc {A B C} (m : Tx S A) (f : A → Tx S B) (g : B → Tx S C) (db : S) :
  request ((m ≫= f) ≫= g) db = request (m ≫= λ a, f a ≫= g) db.
Proof. unfold request. rewrite !Tx_bind_eq. by destruct (m (fresh_session db)) as [[a|e] s]. Qed.
(** The head of a request that only reads or checks. *)
Lemma request_lift {A B} (m : Outcome A) (f : A → Tx S B) (db : S) :
  request (lift m ≫= f) db = match m with Ok a => request (f a) db | Raise e => (Raise e, db) end.
Proof. by destruct m. Qed.
Lemma request_query {A B} (q : S → A) (f : A → Tx S B) (db : S) : request (query q ≫= f) db = request (f (q db)) db.
Proof. done. Qed.
Lemma request_raise_if {B} (b : bool) (e : Exc) (f : unit → Tx S B) (db : S) :
  request (raise_if b e ≫= f) db = if b then (Raise e, db) else request (f ()) db.
Proof. by destruct b. Qed.
Lemma request_post {A} (m : Tx S A) (db : S) (Q : Outcome A * S → Prop) :
  wp m (fresh_session db) (λ r s, Q (r, durable s)) → Q (request m db).
Proof. unfold wp, request. by destruct (m (fresh_session db)) as [r s]. Qed.
(** A request leaves the same database when its result is dropped. *)
Lemma request_drop {A} (m : Tx S A) (db : S) :
  snd (request (m ≫= λ _, mret ()) db) = snd (request m db).
Proof. unfold request. rewrite Tx_bind_eq. by destruct (m (fresh_session db)) as [[] s]. Qed.
Lemma request_raised {A} (m : Tx S A) (db : S) e :
  raised (fst (request m db)) = Some e → request m db = (Raise e, snd (request m db)).
Proof. intros H%raised_Some. rewrite <- H. apply surjective_pairing. Qed.
Lemma request_returned (m : Tx S unit) (db : S) :
  is_ok (fst (request m db)) = true → request m db = (Ok (), snd (request m db)).
Proof. destruct (request m db) as [[[]|e] s]; done. Qed.
Lemma keeps_wp {A} (P : S → Prop) (m : Tx S A) :
  (∀ s, both P s → wp m s (λ _ s', both P s')) → keeps P m.
Proof. done. Qed.
Lemma wp_keeps {A} (P : S → Prop) (m : Tx S A) s (Q : Outcome A → Session S → Prop) :
  keeps P m → both P s → (∀ r s', m s = (r, s') → both P s' → Q r s') → wp m s Q.
Proof.
  unfold wp. intros Hk Hs HQ. specialize (Hk s Hs). apply HQ; [|exact Hk]. by destruct (m s).
Qed.
End wp.

Ltac wp_step :=
  lazymatch goal with
  | |- wp (_ ≫= _) _ _ => apply wp_bind
  | |- wp (mret _) _ _ => apply wp_ret
  | |- wp (mthrow _) _ _ => apply wp_throw
  | |- wp (query _) _ _ => apply wp_query
  | |- wp (lift _) _ _ => apply wp_lift; [intros ? ?|intros ? ?]
  | |- wp (modify _) _ _ => apply wp_modify
  | |- wp commit _ _ => apply wp_commit
  | |- wp rollback _ _ => apply wp_rollback
  | |- wp (raise_if _ _) _ _ => apply wp_raise_if; [intros ?|intros ?]
  | |- wp (on_error _ _) _ _ => apply wp_on_error
  | |- wp (let '(_, _) := ?x in _) _ _ => destruct x
  | |- wp (match ?x with _ => _ end) _ _ => let E := fresh "E" in destruct x eqn:E
  end; cbn beta iota.
Ltac wp_run := repeat (wp_step; cbn [work durable] in *).

(** [for x in l: body] *)
Fixpoint tx_for {S A} (f : A → Tx S unit) (l : list A) : Tx S unit :=
  match l with
  | [] => mret ()
  | x :: l => f x ≫= λ _, tx_for f l
  end.
(** [[f(x) for x in l]] *)
Fixpoint tx_map {S A B} (f : A → Tx S B) (l : list A) : Tx S (list B) :=
  match l with
  | [] => mret []
  | x :: l => y ← f x; ys ← tx_map f l; mret (y :: ys)
  end.
Lemma keeps_tx_for {S A} (P : S → Prop) (f : A → Tx S unit) l :
  (∀ x, x ∈ l → keeps P (f x)) → keeps P (tx_for f l).
Proof.
  induction l as [|x l IH]; intros Hf; cbn; [apply keeps_ret|].
  apply keeps_bind; [apply Hf; left|intros _; apply IH; intros; apply Hf; by right].
Qed.
Lemma readonly_tx_map {S A B} (f : A → Tx S B) l : (∀ x, readonly (f x)) → readonly (tx_map f l).
Proof.
  intros Hf. induction l as [|x l IH]; cbn; [apply readonly_ret|].
  apply readonly_bind; [apply Hf|intros y]. apply readonly_bind; [apply IH|intros ys; apply readonly_ret].
Qed.

(** [keeps_frame]: a transaction whose writes all leave a projection alone. *)
Ltac keeps_frame := repeat first
  [ apply keeps_bind; [|intros ?]
  | apply keeps_ret | apply keeps_throw | apply keeps_query | apply keeps_lift | apply keeps_commit
  | apply keeps_rollback | apply keeps_raise_if
  | apply keeps_modify; let d := fresh "d" in let Hd := fresh "Hd" in intros d Hd; first [exact Hd|by case_match]
  | apply keeps_tx_for; intros ? _
  | match goal with |- keeps _ (match ?x with _ => _ end) => destruct x end ].

Create HintDb tx discriminated.
#[export] Hint Resolve keeps_ret keeps_throw keeps_query keeps_lift keeps_commit keeps_rollback
  keeps_raise_if readonly_ret readonly_throw readonly_query readonly_lift readonly_raise_if : tx.
#[export] Hint Extern 2 (keeps _ (_ ≫= _)) => (apply keeps_bind; [|intros ?]) : tx.
#[export] Hint Extern 2 (readonly (_ ≫= _)) => (apply readonly_bind; [|intros ?]) : tx.
#[export] Hint Extern 5 (keeps _ _) => (apply readonly_keeps) : tx.

(** [by_decide]: evaluate a decidable closed goal. *)
Ltac by_decide := refine (bool_decide_unpack _ _); vm_compute; exact I.

(** [inv_tx]: split a successful run into the runs of its parts. *)
Ltac inv_tx_step :=
  match goal with
  | H : (_ ≫= _) _ = (Ok _, _) |- _ =>
      apply Tx_bind_ok in H; destruct H as (? & ? & ? & H)
  | H : (_ ≫= _) = Ok _ |- _ =>
      apply Outcome_bind_ok in H; destruct H as (? & ? & H)
  | H : raise_if _ _ _ = (Ok _, _) |- _ => apply raise_if_tx_ok in H; destruct H as [? ->]
  | H : raise_if _ _ = Ok _ |- _ => apply raise_if_ok in H
  | H : lift _ _ = (Ok _, _) |- _ => apply lift_ok in H; destruct H as [? ->]
  | H : query _ _ = (Ok _, _) |- _ => apply query_ok in H; destruct H as [-> ->]
  | H : modify _ _ = (Ok _, _) |- _ => apply modify_ok in H; subst
  | H : commit _ = (Ok _, _) |- _ => apply commit_ok in H; subst
  | H : mret _ _ = (Ok _, _) |- _ => apply Tx_ret_ok in H; destruct H as [? ?]; subst
  | H : mthrow _ _ = (Ok _, _) |- _ => apply Tx_throw_ok in H; destruct H
  | H : mthrow _ = Ok _ |- _ => discriminate H
  | H : mret _ = Ok _ |- _ => injection H as H; subst
  | H : of_option _ _ = Ok _ |- _ => apply of_option_ok in H
  | H : (let '(_, _) := ?x in _) = Ok _ |- _ => destruct x; cbn beta iota in H
  | H : (let '(_, _) := ?x in _) _ = (Ok _, _) |- _ => destruct x; cbn beta iota in H
  end.
Ltac inv_tx := repeat (inv_tx_step; cbn [work durable] in *).

(** [options]: what a row that must exist says of the lookup. *)
Ltac options := repeat match goal with
  | H : of_option _ _ = Ok _ |- _ => apply of_option_ok in H
  | H : of_option _ _ = Raise _ |- _ => apply of_option_raised in H as [H ->]
  end.

(** [run_tx]: evaluate the head of a transaction whose guards are known. *)
Ltac run_tx := repeat first
  [ rewrite Tx_bind_eq | progress cbn [query modify commit lift raise_if mret mthrow
      Tx_ret Tx_throw Outcome_ret Outcome_throw work durable fst snd] ].

(** ** Lists *)

(** [list(dict.fromkeys(l))]: first occurrences, order kept. *)
Fixpoint dedup {A} `{EqDecision A} (l : list A) : list A :=
  match l with
  | [] => []
  | x :: l => x :: filter (λ y, y ≠ x) (dedup l)
  end.

Section dedup.
Context {A} `{EqDecision A}.
Implicit Types (l : list A).

Lemma elem_of_dedup l x : x ∈ dedup l ↔ x ∈ l.
Proof.
  induction l as [|y l IH]; cbn; [done|].
  rewrite !elem_of_cons, list_elem_of_filter, IH. destruct (decide (x = y)); naive_solver.
Qed.
Lemma NoDup_dedup l : NoDup (dedup l).
Proof.
  induction l as [|y l IH]; cbn; constructor.
  - rewrite list_elem_of_filter. naive_solver.
  - by apply NoDup_filter.
Qed.
Lemma length_dedup l : (length (dedup l) ≤ length l)%nat.
Proof.
  induction l as [|y l IH]; cbn; [lia|].
  pose proof (length_filter (λ z, z ≠ y) (dedup l)). lia.
Qed.
Lemma dedup_nil_inv l : dedup l = [] → l = [].
Proof. by destruct l. Qed.
Lemma dedup_NoDup l : NoDup l → dedup l = l.
Proof.
  induction 1 as [|x l Hx Hl IH]; cbn; [done|]. rewrite IH. f_equal.
  assert (Hall : ∀ l', (∀ y, y ∈ l' → y ≠ x) → filter (λ y, y ≠ x) l' = l').
  { induction l' as [|y l' IH']; [done|]. intros Hne.
    rewrite filter_cons_True by (apply Hne; left). f_equal. apply IH'.
    intros z Hz. apply Hne. by right. }
  apply Hall. intros y Hy ->. done.
Qed.
End dedup.

(** [for x in l: body]: the first failure ends the loop. *)
Fixpoint for_each {A} (f : A → Outcome unit) (l : list A) : Outcome unit :=
  match l with
  | [] => Ok ()
  | x :: l => f x ≫= λ _, for_each f l
  end.

Lemma for_each_ok {A} (f : A → Outcome unit) l u :
  for_each f l = Ok u ↔ Forall (λ x, f x = Ok ()) l.
Proof.
  destruct u. induction l as [|x l IH]; cbn; [naive_solver constructor|].
  rewrite Outcome_bind_ok, Forall_cons, <- IH. split.
  - by intros ([] & ? & ?).
  - intros []. by exists ().
Qed.

(** [[f(x) for x in l]] with a fallible [f]. *)
Fixpoint map_each {A B} (f : A → Outcome B) (l : list A) : Outcome (list B) :=
  match l with
  | [] => Ok []
  | x :: l => y ← f x; ys ← map_each f l; mret (y :: ys)
  end.

Lemma map_each_ok {A B} (f : A → Outcome B) l ys :
  map_each f l = Ok ys ↔ Forall2 (λ x y, f x = Ok y) l ys.
Proof.
  revert ys. induction l as [|x l IH]; intros ys; cbn.
  - split; [by intros [= <-]|by intros ->%Forall2_nil_inv_l].
  - rewrite Outcome_bind_ok. split.
    + intros (y & Hy & H). apply Outcome_bind_ok in H as (ys' & Hys & [= <-]).
      constructor; [done|by apply IH].
    + intros (y & ys' & Hy & Hys & ->)%Forall2_cons_inv_l. exists y. split; [done|].
      apply Outcome_bind_ok. exists ys'. split; [by apply IH|done].
Qed.

(** Python's truth value of a list. *)
Definition nonempty {A} (l : list A) : bool := match l with [] => false | _ => true end.

Lemma nonempty_true {A} (l : list A) : nonempty l = true ↔ l ≠ [].
Proof. by destruct l. Qed.
Lemma nonempty_false {A} (l : list A) : nonempty l = false ↔ l = [].
Proof. by destruct l. Qed.

(** A Boolean test that holds of some element. *)
Lemma existsb_elem {A} (p : A → bool) l : existsb p l = true ↔ ∃ x, x ∈ l ∧ p x = true.
Proof. rewrite existsb_exists. by setoid_rewrite list_elem_of_In. Qed.
Lemma forallb_elem {A} (p : A → bool) l : forallb p l = true ↔ ∀ x, x ∈ l → p x = true.
Proof. rewrite forallb_forall. by setoid_rewrite list_elem_of_In. Qed.
