(* ===== verification/PyStr.v ===== *)
(** * Python strings

    The part of Python's [str] the program uses.  A [str] is a [string] whose
    characters are read as the code points 0-255 (Latin-1): on that range
    every function below is the one of the language, so a limit of the model
    is that longer code points are left out.

    The module also holds the decimal and hexadecimal forms of integers
    ([str(n)], [format(n, "x")], [int(s, 16)]) and [repr]. *)

From S2P Require Import Prelude.
From stdpp Require Export pretty.
From Stdlib Require Import HexadecimalString HexadecimalN DecimalString DecimalN.
#[local] Open Scope Z_scope.

Definition chars (s : string) : list ascii := String.list_ascii_of_string s.
Definition of_chars (l : list ascii) : string := String.string_of_list_ascii l.

Lemma of_chars_chars s : of_chars (chars s) = s.
Proof. apply String.string_of_list_ascii_of_string. Qed.
Lemma chars_of_chars l : chars (of_chars l) = l.
Proof. apply String.list_ascii_of_string_of_list_ascii. Qed.
Lemma chars_app s t : chars (s +:+ t) = chars s ++ chars t.
Proof. induction s as [|c s IH]; [done|]. change (c :: chars (s +:+ t) = c :: (chars s ++ chars t)). by f_equal. Qed.
#[export] Instance chars_inj : Inj (=) (=) chars.
Proof. intros s t H. rewrite <- (of_chars_chars s), <- (of_chars_chars t). by f_equal. Qed.
#[export] Instance of_chars_inj : Inj (=) (=) of_chars.
Proof. intros s t H. rewrite <- (chars_of_chars s), <- (chars_of_chars t). by f_equal. Qed.

Definition code (c : ascii) : N := N_of_ascii c.
Definition char_of (n : N) : ascii := ascii_of_N n.
(** [len(s)] *)
Definition py_len (s : string) : Z := Z.of_nat (length (chars s)).
(** [s[:n]] and [s[n:]] for a non-negative constant [n]. *)
Definition str_take (n : nat) (s : string) : string := of_chars (take n (chars s)).
Definition str_drop (n : nat) (s : string) : string := of_chars (drop n (chars s)).

(** ** Character classes *)
Definition in_range (lo hi : N) (c : ascii) : bool := (lo <=? code c)%N && (code c <=? hi)%N.
(** [str.isspace] on one character. *)
Definition is_space (c : ascii) : bool :=
  in_range 9 13 c || in_range 28 32 c || in_range 133 133 c || in_range 160 160 c.
Definition is_ascii_digit (c : ascii) : bool := in_range 48 57 c.
(** [str.isdigit]: the superscripts 2, 3 and 1 count, although [int]
    refuses them. *)
Definition is_digit (c : ascii) : bool :=
  is_ascii_digit c || in_range 178 179 c || in_range 185 185 c.
Definition is_upper (c : ascii) : bool :=
  in_range 65 90 c || (in_range 192 222 c && negb (in_range 215 215 c)).
Definition is_ascii_letter (c : ascii) : bool := in_range 65 90 c || in_range 97 122 c.
(** [str.isascii] *)
Definition isascii (s : string) : bool := forallb (in_range 0 127) (chars s).
(** [str.isdigit] on a string: non-empty, digits only. *)
Definition isdigit (s : string) : bool := nonempty (chars s) && forallb is_digit (chars s).
(** [any(c.isspace() for c in s)] *)
Definition has_space (s : string) : bool := existsb is_space (chars s).
(** [c in s] *)
Definition contains (c : ascii) (s : string) : bool := existsb (λ d, bool_decide (d = c)) (chars s).

(** ** Case, whitespace, affixes *)
Definition lower_char (c : ascii) : ascii :=
  if is_upper c then char_of (code c + 32) else c.
Definition lower (s : string) : string := of_chars (map lower_char (chars s)).

Fixpoint drop_while {A} (p : A → bool) (l : list A) : list A :=
  match l with
  | [] => []
  | c :: l' => if p c then drop_while p l' else l
  end.
Definition strip_chars (l : list ascii) : list ascii :=
  rev (drop_while is_space (rev (drop_while is_space l))).
(** [s.strip()] *)
Definition strip (s : string) : string := of_chars (strip_chars (chars s)).

Definition startswith (s p : string) : bool := bool_decide (chars p `prefix_of` chars s).
Definition endswith (s p : string) : bool := bool_decide (chars p `suffix_of` chars s).

(** ** Splitting *)
Fixpoint split_chars (sep : ascii) (l : list ascii) : list (list ascii) :=
  match l with
  | [] => [[]]
  | c :: l =>
      if bool_decide (c = sep) then [] :: split_chars sep l
      else match split_chars sep l with
           | [] => [[c]]
           | w :: ws => (c :: w) :: ws
           end
  end.
(** [s.split(sep)] for a one-character [sep]. *)
Definition split (sep : ascii) (s : string) : list string := map of_chars (split_chars sep (chars s)).

Fixpoint partition_chars (sep : ascii) (l : list ascii) : list ascii * bool * list ascii :=
  match l with
  | [] => ([], false, [])
  | c :: l =>
      if bool_decide (c = sep) then ([], true, l)
      else let '(a, found, b) := partition_chars sep l in (c :: a, found, b)
  end.
(** [s.partition(sep)] for a one-character [sep]; the Boolean is the truth
    value of the middle component. *)
Definition partition (sep : ascii) (s : string) : string * bool * string :=
  let '(a, found, b) := partition_chars sep (chars s) in (of_chars a, found, of_chars b).

Definition is_linebreak (c : ascii) : bool :=
  in_range 10 13 c || in_range 28 30 c || in_range 133 133 c.
Fixpoint splitlines_go (cur l : list ascii) : list (list ascii) :=
  match l with
  | [] => match cur with [] => [] | _ => [rev cur] end
  | c :: l' =>
      if is_linebreak c then
        rev cur ::
        match l' with
        | d :: l'' =>
            if (code c =? 13)%N && (code d =? 10)%N then splitlines_go [] l''
            else splitlines_go [] l'
        | [] => splitlines_go [] l'
        end
      else splitlines_go (c :: cur) l'
  end.
(** [s.splitlines()] *)
Definition splitlines (s : string) : list string := map of_chars (splitlines_go [] (chars s)).

(** [sep.join(l)] *)
Definition join (sep : string) (l : list string) : string := String.concat sep l.

(** ** Integers as text *)
(** [str(n)] *)
Definition str_of_Z (n : Z) : string := pretty n.
(** [format(n, "x")] for [0 <= n] *)
Definition hex_of_Z (n : Z) : string := HexadecimalString.NilZero.string_of_uint (N.to_hex_uint (Z.to_N n)).
(** [int(s, 16)] on the text [format(n, "x")] writes. *)
Definition int_hex (s : string) : Outcome Z :=
  match HexadecimalString.NilZero.uint_of_string s with
  | Some u => Ok (Z.of_N (N.of_hex_uint u))
  | None => Raise (ValueError "invalid literal for int() with base 16")
  end.

Lemma int_hex_of_Z n : 0 ≤ n → int_hex (hex_of_Z n) = Ok n.
Proof.
  intros Hn. unfold int_hex, hex_of_Z. rewrite HexadecimalString.NilZero.usu.
  - by rewrite HexadecimalN.Unsigned.of_to, Z2N.id.
  - intros He. destruct (Z.to_N n) as [|p]; [done|]. cbn in He.
    unfold Pos.to_hex_uint in He. by apply HexadecimalPos.Unsigned.to_uint_nonnil in He.
Qed.
Lemma hex_of_Z_inj n m : 0 ≤ n → 0 ≤ m → hex_of_Z n = hex_of_Z m → n = m.
Proof.
  intros Hn Hm He. apply (f_equal int_hex) in He.
  rewrite !int_hex_of_Z in He by done. congruence.
Qed.

(** ** [repr] *)
Definition hex_digit (n : N) : ascii := char_of (if (n <? 10)%N then 48 + n else 87 + n)%N.
Definition repr_char (quote c : ascii) : list ascii :=
  let n := code c in
  let bs := char_of 92 in
  if (n =? 92)%N || bool_decide (c = quote) then [bs; c]
  else if (n =? 9)%N then [bs; char_of 116]
  else if (n =? 10)%N then [bs; char_of 110]
  else if (n =? 13)%N then [bs; char_of 114]
  else if (n <? 32)%N || in_range 127 160 c || (n =? 173)%N then
    [bs; char_of 120; hex_digit (n / 16); hex_digit (n mod 16)]
  else [c].
(** [repr(s)], the [{s!r}] of the error messages. *)
Definition py_repr (s : string) : string :=
  let q := if contains (char_of 39) s && negb (contains (char_of 34) s)
           then char_of 34 else char_of 39 in
  of_chars (q :: concat (map (repr_char q) (chars s)) ++ [q]).

(** ** Lemmas *)
Lemma startswith_spec s p : startswith s p = true ↔ ∃ r, s = p +:+ r.
Proof.
  unfold startswith. rewrite bool_decide_eq_true. split.
  - intros [l Hl]. exists (of_chars l). apply chars_inj. by rewrite chars_app, chars_of_chars.
  - intros [r ->]. exists (chars r). apply chars_app.
Qed.
Lemma endswith_spec s p : endswith s p = true ↔ ∃ r, s = r +:+ p.
Proof.
  unfold endswith. rewrite bool_decide_eq_true. split.
  - intros [l Hl]. exists (of_chars l). apply chars_inj. by rewrite chars_app, chars_of_chars.
  - intros [r ->]. exists (chars r). apply chars_app.
Qed.

Lemma str_app_assoc s t u : (s +:+ t) +:+ u = s +:+ t +:+ u.
Proof. apply chars_inj. rewrite !chars_app. by rewrite (assoc (++)). Qed.

Lemma str_app_nil s : s +:+ "" = s.
Proof. apply chars_inj. rewrite chars_app. apply app_nil_r. Qed.

Lemma split_chars_nonnil sep l : split_chars sep l ≠ [].
Proof. destruct l as [|c l]; cbn; [done|]. case_bool_decide; [done|]. by destruct (split_chars sep l). Qed.

Lemma split_chars_no_sep sep l : Forall (λ w, sep ∉ w) (split_chars sep l).
Proof.
  induction l as [|c l IH]; cbn; [by repeat constructor; apply not_elem_of_nil|].
  case_bool_decide as Hc; [by constructor; [apply not_elem_of_nil|]|].
  destruct (split_chars sep l) as [|w ws].
  - repeat constructor. rewrite list_elem_of_singleton. congruence.
  - apply Forall_cons in IH as [Hw Hws]. constructor; [|done].
    rewrite not_elem_of_cons. auto.
Qed.

(** Splitting distributes over a separator. *)
Lemma split_chars_app sep l l' :
  split_chars sep (l ++ sep :: l') = split_chars sep l ++ split_chars sep l'.
Proof.
  induction l as [|c l IH]; cbn; [by rewrite bool_decide_eq_true_2|].
  case_bool_decide; [by rewrite IH|]. rewrite IH.
  destruct (split_chars sep l) as [|w ws] eqn:E; [|done].
  exfalso. by apply (split_chars_nonnil sep l).
Qed.

Lemma split_no_sep sep l : sep ∉ l → split_chars sep l = [l].
Proof.
  induction l as [|c l IH]; [done|]. rewrite not_elem_of_cons. intros [Hc Hl]. cbn.
  rewrite bool_decide_eq_false_2 by congruence. by rewrite IH.
Qed.

Lemma split_chars_inj sep l l' : split_chars sep l = split_chars sep l' → l = l'.
Proof.
  revert l'. induction l as [|c l IH]; intros [|d l']; cbn; [done| | |].
  - case_bool_decide; [|by destruct (split_chars sep l')].
    intros [= H']. by destruct (split_chars_nonnil sep l').
  - case_bool_decide; [|by destruct (split_chars sep l)].
    intros [= H']. by destruct (split_chars_nonnil sep l).
  - pose proof (split_chars_nonnil sep l). pose proof (split_chars_nonnil sep l').
    repeat case_bool_decide; subst.
    + intros [= H']. f_equal. by apply IH.
    + by destruct (split_chars sep l').
    + by destruct (split_chars sep l).
    + destruct (split_chars sep l) eqn:E, (split_chars sep l') eqn:E'; try done.
      intros [= -> -> ->]. f_equal. apply IH. congruence.
Qed.

Lemma lower_char_idemp c : lower_char (lower_char c) = lower_char c.
Proof. destruct c as [[] [] [] [] [] [] [] []]; vm_compute; reflexivity. Qed.
Lemma lower_idemp s : lower (lower s) = lower s.
Proof.
  unfold lower. rewrite chars_of_chars, map_map. f_equal. apply map_ext, lower_char_idemp.
Qed.
