(* ===== verification/Json.v ===== *)
(** * JSON values

    What [json.loads] returns and [json.dumps] takes, as the program handles
    it: [dict.get], membership, [repr], and comparison with a text. *)

From S2P Require Import Prelude PyStr.
#[local] Open Scope Z_scope.
#[local] Set Warnings "-register-all".

(** [o.get(k)], with [None] for a missing member. *)
Definition member (k : string) (o : list (string * json)) : json :=
  match List.find (λ '(k', _), bool_decide (k' = k)) o with Some (_, v) => v | None => JNull end.
(** [repr] *)
Fixpoint json_repr (j : json) : string :=
  match j with
  | JNull => "None"
  | JBool true => "True"
  | JBool false => "False"
  | JInt n => str_of_Z n
  | JFloat r => r
  | JStr s => py_repr s
  | JList l => "[" +:+ join ", " (map json_repr l) +:+ "]"
  | JObj o => "{" +:+ join ", " (map (λ '(k, v), py_repr k +:+ ": " +:+ json_repr v) o) +:+ "}"
  end.

Definition has (k : string) (o : list (string * json)) : bool := existsb (λ '(k', _), bool_decide (k' = k)) o.
#[export] Instance json_str_dec v s : Decision (v = JStr s).
Proof. destruct v as [| | | |t| |]; try (right; discriminate). destruct (decide (t = s)) as [->|Hne]; [by left|right; congruence]. Defined.
Definition quoted (s : string) : string := String (char_of 34) s +:+ String (char_of 34) EmptyString.

(** ** [json.dumps] *)
(** Everything but printable ASCII is escaped. *)
Definition dumps_char (c : ascii) : string :=
  let back := λ s, String (char_of 92) s in
  if (code c =? 34)%N then back (String (char_of 34) EmptyString)
  else if (code c =? 92)%N then back (String (char_of 92) EmptyString)
  else if (code c =? 10)%N then back "n" else if (code c =? 13)%N then back "r" else if (code c =? 9)%N then back "t"
  else if (code c =? 12)%N then back "f" else if (code c =? 8)%N then back "b"
  else if in_range 32 126 c then String c EmptyString
  else back ("u00" +:+ (if (code c <? 16)%N then "0" else "") +:+ hex_of_Z (Z.of_N (code c))).
Definition dumps_str (s : string) : string := quoted (fold_right (λ c t, dumps_char c +:+ t) "" (chars s)).
Fixpoint dumps (j : json) : string :=
  match j with
  | JNull => "null"
  | JBool b => if b then "true" else "false"
  | JInt n => str_of_Z n
  | JFloat r => r
  | JStr s => dumps_str s
  | JList l => "[" +:+ join ", " (map dumps l) +:+ "]"
  | JObj o => "{" +:+ join ", " (map (λ '(k, v), dumps_str k +:+ ": " +:+ dumps v) o) +:+ "}"
  end.
Example dumps_text : dumps (JObj [("a", JStr (String (char_of 233) (String (char_of 10) "x"))); ("b", JList [JInt (-3); JNull; JBool true])]) =
  "{" +:+ quoted "a" +:+ ": " +:+ quoted (String (char_of 92) "u00e9" +:+ String (char_of 92) "nx") +:+ ", " +:+ quoted "b" +:+ ": [-3, null, true]}".
Proof. vm_compute. reflexivity. Qed.
