(* ===== verification/PyTime.v ===== *)
(** * Instants and their ISO-8601 text

    An aware [datetime] is the number of microseconds since
    0001-01-01T00:00:00 UTC and a [timedelta] a number of microseconds.  The
    calendar is the one of CPython's [datetime] ([_ord2ymd]).  Every timestamp
    column of the schema holds the text of [isoformat]; the program compares
    these texts in SQL and relies on the order of the texts being the order of
    the instants, which [isoformat_compare] proves. *)

From S2P Require Import Prelude PyStr.
#[local] Open Scope Z_scope.

Definition microsecond : Z := 1.
Definition second : Z := 1000000.
Definition minute : Z := 60 * second.
Definition hour : Z := 60 * minute.
Definition day : Z := 24 * hour.
Definition days (n : Z) : Z := n * day.
Definition hours (n : Z) : Z := n * hour.
Definition minutes (n : Z) : Z := n * minute.
Definition seconds (n : Z) : Z := n * second.

(** [datetime.max] is the last microsecond of 9999-12-31. *)
Definition max_ordinal : Z := 3652059.
Definition in_datetime (t : Z) : Prop := 0 ≤ t < max_ordinal * day.
#[export] Instance in_datetime_dec t : Decision (in_datetime t).
Proof. unfold in_datetime. apply _. Defined.

(** [moment + timedelta(days=n)]: both the [timedelta] and the sum are
    range-checked. *)
Definition add_days (t n : Z) : Outcome Z :=
  if decide (Z.abs n ≤ 999999999) then
    if decide (in_datetime (t + days n)) then Ok (t + days n)
    else Raise (OverflowError "date value out of range")
  else Raise (OverflowError "days out of range for timedelta").

Lemma add_days_ok t n t' : add_days t n = Ok t' ↔
  t' = t + days n ∧ Z.abs n ≤ 999999999 ∧ in_datetime (t + days n).
Proof. unfold add_days. repeat case_decide; naive_solver. Qed.

(** [moment.replace(microsecond=0)] *)
Definition floor_second (t : Z) : Z := t - t mod second.

(** ** The calendar *)
Definition is_leap (y : Z) : bool :=
  (y mod 4 =? 0) && (negb (y mod 100 =? 0) || (y mod 400 =? 0)).
Definition days_before_year (y : Z) : Z :=
  let y := y - 1 in y * 365 + y / 4 - y / 100 + y / 400.
Definition days_in_month (leap : bool) (m : Z) : Z :=
  if (m =? 2) && leap then 29
  else nth (Z.to_nat m) [0; 31; 28; 31; 30; 31; 30; 31; 31; 30; 31; 30; 31] 0.
Definition days_before_month (leap : bool) (m : Z) : Z :=
  nth (Z.to_nat m) [0; 0; 31; 59; 90; 120; 151; 181; 212; 243; 273; 304; 334] 0
  + (if (2 <? m) && leap then 1 else 0).
(** [_ymd2ord], zero-based. *)
Definition days_of_ymd (y m d : Z) : Z :=
  days_before_year y + days_before_month (is_leap y) m + (d - 1).

Definition month_day (leap : bool) (n : Z) : Z * Z :=
  let month := Z.shiftr (n + 50) 5 in
  let preceding := days_before_month leap month in
  if n <? preceding then
    let month := month - 1 in
    (month, n - (preceding - days_in_month leap month) + 1)
  else (month, n - preceding + 1).

(** [_ord2ymd], on a zero-based day number. *)
Definition ymd_of_days (n : Z) : Z * Z * Z :=
  let n400 := n / 146097 in
  let n := n mod 146097 in
  let year := n400 * 400 + 1 in
  let n100 := n / 36524 in
  let n := n mod 36524 in
  let n4 := n / 1461 in
  let n := n mod 1461 in
  let n1 := n / 365 in
  let n := n mod 365 in
  let year := year + n100 * 100 + n4 * 4 + n1 in
  if (n1 =? 4) || (n100 =? 4) then (year - 1, 12, 31)
  else
    let leap := (n1 =? 3) && (negb (n4 =? 24) || (n100 =? 3)) in
    let '(m, d) := month_day leap n in (year, m, d).

Definition valid_md (leap : bool) (m d : Z) : Prop :=
  1 ≤ m ≤ 12 ∧ 1 ≤ d ≤ days_in_month leap m.

Lemma month_day_spec (leap : bool) (n : Z) :
  0 ≤ n < 365 + (if leap then 1 else 0) →
  let '(m, d) := month_day leap n in
  valid_md leap m d ∧ days_before_month leap m + (d - 1) = n.
Proof.
  intros Hn.
  set (ok := λ (leap : bool) (n : Z), let '(m, d) := month_day leap n in
    (1 <=? m) && (m <=? 12) && (1 <=? d) && (d <=? days_in_month leap m)
    && (days_before_month leap m + (d - 1) =? n)).
  assert (Hall : ∀ leap : bool, forallb (λ k, ok leap (Z.of_nat k)) (seq 0 (if leap then 366 else 365)%nat) = true)
    by (intros []; vm_compute; reflexivity).
  specialize (Hall leap). rewrite forallb_forall in Hall.
  specialize (Hall (Z.to_nat n)). rewrite Z2Nat.id in Hall by lia.
  assert (Hin : In (Z.to_nat n) (seq 0 (if leap then 366 else 365))).
  { apply in_seq. destruct leap; lia. }
  specialize (Hall Hin). unfold ok in Hall. destruct (month_day leap n) as [m d].
  unfold valid_md. repeat rewrite andb_true_iff in Hall. lia.
Qed.

(** Evaluate the month tables at constants. *)
Ltac calc_in f l m :=
  let r := eval vm_compute in (f l m) in
  lazymatch r with Z0 => idtac | Zpos _ => idtac end;
  change (f l m) with r in *.
Ltac calc_months := repeat match goal with
  | |- context [days_in_month ?l ?m] => calc_in days_in_month l m
  | _ : context [days_in_month ?l ?m] |- _ => calc_in days_in_month l m
  | |- context [days_before_month ?l ?m] => calc_in days_before_month l m
  | _ : context [days_before_month ?l ?m] |- _ => calc_in days_before_month l m
  end.

Lemma month_bounds (leap : bool) (m d : Z) : valid_md leap m d →
  0 ≤ days_before_month leap m + (d - 1) < 365 + (if leap then 1 else 0).
Proof.
  intros [Hm Hd].
  assert (m = 1 ∨ m = 2 ∨ m = 3 ∨ m = 4 ∨ m = 5 ∨ m = 6 ∨ m = 7 ∨ m = 8 ∨ m = 9 ∨ m = 10 ∨ m = 11 ∨ m = 12)
    as Hc by lia.
  repeat destruct Hc as [->|Hc]; try subst; destruct leap; calc_months; lia.
Qed.

Lemma days_before_month_next leap m m' : 1 ≤ m → m < m' → m' ≤ 12 →
  days_before_month leap m + days_in_month leap m ≤ days_before_month leap m'.
Proof.
  intros H1 H2 H3.
  assert (Hc : ∀ m, 1 ≤ m ≤ 12 → m = 1 ∨ m = 2 ∨ m = 3 ∨ m = 4 ∨ m = 5 ∨ m = 6 ∨ m = 7 ∨ m = 8
    ∨ m = 9 ∨ m = 10 ∨ m = 11 ∨ m = 12) by lia.
  pose proof (Hc m ltac:(lia)) as Hm. pose proof (Hc m' ltac:(lia)) as Hm'. clear Hc.
  repeat destruct Hm as [->|Hm]; try subst; repeat destruct Hm' as [->|Hm']; try subst;
    try lia; destruct leap; vm_compute; discriminate.
Qed.

Lemma days_before_year_succ y :
  days_before_year (y + 1) = days_before_year y + 365 + (if is_leap y then 1 else 0).
Proof.
  unfold days_before_year, is_leap.
  replace (y + 1 - 1) with y by lia.
  destruct (y mod 4 =? 0) eqn:E4, (y mod 100 =? 0) eqn:E100, (y mod 400 =? 0) eqn:E400;
    cbn; Z.to_euclidean_division_equations; lia.
Qed.
Lemma days_before_year_mono y y' : y ≤ y' → days_before_year y ≤ days_before_year y'.
Proof.
  intros H. unfold days_before_year. Z.to_euclidean_division_equations; lia.
Qed.

(** Date order is lexicographic. *)
Definition then_cmp (c1 c2 : comparison) : comparison := match c1 with Eq => c2 | c => c end.

Lemma days_of_ymd_bounds y m d : valid_md (is_leap y) m d →
  days_before_year y ≤ days_of_ymd y m d < days_before_year (y + 1).
Proof.
  intros H. pose proof (month_bounds _ _ _ H). rewrite days_before_year_succ.
  unfold days_of_ymd. lia.
Qed.

Lemma days_of_ymd_compare y m d y' m' d' :
  valid_md (is_leap y) m d → valid_md (is_leap y') m' d' →
  (days_of_ymd y m d ?= days_of_ymd y' m' d') =
  then_cmp (y ?= y') (then_cmp (m ?= m') (d ?= d')).
Proof.
  intros H H'. pose proof (days_of_ymd_bounds _ _ _ H). pose proof (days_of_ymd_bounds _ _ _ H').
  destruct (Z.compare_spec y y') as [<-|Hy|Hy]; cbn.
  - unfold days_of_ymd in *. destruct H as [Hm Hd], H' as [Hm' Hd'].
    destruct (Z.compare_spec m m') as [<-|Hlt|Hgt]; cbn.
    + destruct (Z.compare_spec d d'); [apply Z.compare_eq_iff|apply Z.compare_lt_iff|apply Z.compare_gt_iff]; lia.
    + pose proof (days_before_month_next (is_leap y) m m'). apply Z.compare_lt_iff. lia.
    + pose proof (days_before_month_next (is_leap y) m' m). apply Z.compare_gt_iff. lia.
  - pose proof (days_before_year_mono (y + 1) y'). apply Z.compare_lt_iff. lia.
  - pose proof (days_before_year_mono (y' + 1) y). apply Z.compare_gt_iff. lia.
Qed.

(** [_ord2ymd] inverts [_ymd2ord]. *)
Lemma ymd_of_days_spec n : 0 ≤ n →
  let '(y, m, d) := ymd_of_days n in
  1 ≤ y ∧ valid_md (is_leap y) m d ∧ days_of_ymd y m d = n.
Proof.
  intros Hn. unfold ymd_of_days.
  set (a := n / 146097). set (r := n mod 146097).
  set (b := r / 36524). set (r1 := r mod 36524).
  set (c := r1 / 1461). set (r2 := r1 mod 1461).
  set (e := r2 / 365). set (r3 := r2 mod 365).
  assert (Hn' : n = a * 146097 + r ∧ 0 ≤ r < 146097 ∧ 0 ≤ a)
    by (subst a r; Z.to_euclidean_division_equations; lia).
  assert (Hr : r = b * 36524 + r1 ∧ 0 ≤ r1 < 36524 ∧ 0 ≤ b)
    by (subst b r1; Z.to_euclidean_division_equations; lia).
  assert (Hr1 : r1 = c * 1461 + r2 ∧ 0 ≤ r2 < 1461 ∧ 0 ≤ c)
    by (subst c r2; Z.to_euclidean_division_equations; lia).
  assert (Hr2 : r2 = e * 365 + r3 ∧ 0 ≤ r3 < 365 ∧ 0 ≤ e)
    by (subst e r3; Z.to_euclidean_division_equations; lia).
  clearbody a b c e r r1 r2 r3.
  assert (b ≤ 4 ∧ c ≤ 24 ∧ e ≤ 4) by lia.
  assert (Hdby : days_before_year (a * 400 + 1 + b * 100 + c * 4 + e)
    = 146097 * a + 36524 * b + 1461 * c + 365 * e
      + (if b =? 4 then 1 else 0) + (if e =? 4 then 1 else 0) ∨ (b = 4 ∧ (c ≠ 0 ∨ e ≠ 0))).
  { unfold days_before_year. destruct (Z.eqb_spec b 4), (Z.eqb_spec e 4);
      Z.to_euclidean_division_equations; lia. }
  destruct ((e =? 4) || (b =? 4)) eqn:Elast.
  - assert (b = 4 ∧ r1 = 0 ∧ c = 0 ∧ e = 0 ∨ e = 4 ∧ r3 = 0 ∧ b < 4) as Hc by lia.
    assert (Hleap : is_leap (a * 400 + 1 + (b * 100 + c * 4 + e) - 1) = true).
    { unfold is_leap. Z.to_euclidean_division_equations; lia. }
    replace (a * 400 + 1 + b * 100 + c * 4 + e - 1) with (a * 400 + 1 + (b * 100 + c * 4 + e) - 1) by lia.
    rewrite Hleap. split; [lia|]. split; [unfold valid_md; calc_months; lia|].
    unfold days_of_ymd. rewrite Hleap. calc_months.
    pose proof (days_before_year_succ (a * 400 + 1 + (b * 100 + c * 4 + e) - 1)) as Hs.
    rewrite Hleap in Hs.
    replace (a * 400 + 1 + (b * 100 + c * 4 + e) - 1 + 1) with (a * 400 + 1 + b * 100 + c * 4 + e) in Hs by lia.
    destruct (Z.eqb_spec b 4), (Z.eqb_spec e 4); lia.
  - assert (b ≤ 3 ∧ e ≤ 3) by lia.
    set (leap := (e =? 3) && (negb (c =? 24) || (b =? 3))).
    assert (Hleap : is_leap (a * 400 + 1 + b * 100 + c * 4 + e) = leap).
    { subst leap. unfold is_leap. apply eq_true_iff_eq. Z.to_euclidean_division_equations; lia. }
    pose proof (month_day_spec leap r3) as Hmd.
    destruct (month_day leap r3) as [m d].
    destruct Hmd as [Hv Hd]; [destruct leap; lia|].
    rewrite Hleap. split; [lia|]. split; [done|].
    unfold days_of_ymd. rewrite Hleap, <- Z.add_assoc, Hd.
    destruct (Z.eqb_spec b 4), (Z.eqb_spec e 4); lia.
Qed.

(** ** [isoformat] *)
Definition digit (n : Z) : ascii := char_of (Z.to_N (48 + n)).
(** [f"{n:0{w}d}"] for [0 <= n < 10^w]. *)
Fixpoint digits (w : nat) (n : Z) : list ascii :=
  match w with
  | O => []
  | S w => digits w (n / 10) ++ [digit (n mod 10)]
  end.

Definition date_chars (n : Z) : list ascii :=
  let '(y, m, d) := ymd_of_days n in
  digits 4 y ++ "-"%char :: digits 2 m ++ "-"%char :: digits 2 d.
Definition clock_chars (r : Z) : list ascii :=
  digits 2 (r / hour) ++ ":"%char :: digits 2 (r mod hour / minute) ++ ":"%char ::
  digits 2 (r mod minute / second).
Definition fraction_chars (us : Z) : list ascii :=
  if us =? 0 then [] else "."%char :: digits 6 us.
(** [moment.isoformat()] for an aware UTC [moment]. *)
Definition isoformat (t : Z) : string :=
  of_chars (date_chars (t / day) ++ "T"%char :: clock_chars (t mod day) ++
            fraction_chars (t mod second) ++ chars "+00:00").
(** [moment.astimezone(UTC).replace(microsecond=0).isoformat()]: the [_iso]
    of [ca/certs.py], [acme/service.py], [acme/nonces.py], [acme/eab.py] and
    [audit.py]. *)
Definition iso (t : Z) : string := isoformat (floor_second t).

(** *** The order of the texts *)
Fixpoint cmp_chars (a b : list ascii) : comparison :=
  match a, b with
  | [], [] => Eq
  | [], _ => Lt
  | _, [] => Gt
  | c :: a, d :: b => then_cmp (Ascii.compare c d) (cmp_chars a b)
  end.

Lemma compare_chars s t : String.compare s t = cmp_chars (chars s) (chars t).
Proof.
  revert t. induction s as [|c s IH]; intros [|d t]; [done..|].
  cbn. rewrite IH. by destruct (Ascii.compare c d).
Qed.
Lemma cmp_chars_app a b u v : length a = length b →
  cmp_chars (a ++ u) (b ++ v) = then_cmp (cmp_chars a b) (cmp_chars u v).
Proof.
  revert b. induction a as [|c a IH]; intros [|d b] H; try done.
  cbn in *. rewrite IH by lia. by destruct (Ascii.compare c d).
Qed.
Lemma cmp_chars_refl a : cmp_chars a a = Eq.
Proof. induction a as [|c a IH]; [done|]. cbn. unfold Ascii.compare. by rewrite N.compare_refl. Qed.
Lemma cmp_chars_cons c a b : cmp_chars (c :: a) (c :: b) = cmp_chars a b.
Proof. cbn. unfold Ascii.compare. by rewrite N.compare_refl. Qed.
Lemma then_cmp_assoc a b c : then_cmp (then_cmp a b) c = then_cmp a (then_cmp b c).
Proof. by destruct a. Qed.

Lemma compare_digit a b : 0 ≤ a < 10 → 0 ≤ b < 10 → Ascii.compare (digit a) (digit b) = (a ?= b).
Proof.
  intros Ha Hb. unfold digit, char_of, Ascii.compare.
  rewrite !N_ascii_embedding by lia.
  destruct (Z.compare_spec a b); [subst; apply N.compare_refl|..].
  - apply N.compare_lt_iff. lia.
  - apply N.compare_gt_iff. lia.
Qed.
Lemma length_digits w n : length (digits w n) = w.
Proof. revert n. induction w as [|w IH]; intros n; cbn; [done|]. rewrite length_app, IH. cbn. lia. Qed.

(** Positional comparison. *)
Lemma compare_pos k a b x y : 0 ≤ x < k → 0 ≤ y < k →
  (a * k + x ?= b * k + y) = then_cmp (a ?= b) (x ?= y).
Proof.
  intros Hx Hy. destruct (Z.compare_spec a b) as [<-|H|H]; cbn.
  - destruct (Z.compare_spec x y); [apply Z.compare_eq_iff|apply Z.compare_lt_iff|apply Z.compare_gt_iff]; lia.
  - apply Z.compare_lt_iff. nia.
  - apply Z.compare_gt_iff. nia.
Qed.
Lemma compare_div_mod k n m : 0 < k → (n ?= m) = then_cmp (n / k ?= m / k) (n mod k ?= m mod k).
Proof.
  intros Hk. rewrite <- (compare_pos k); [|by apply Z.mod_pos_bound..].
  rewrite !(Z.mul_comm (_ / k)), <- !Z.div_mod by lia. done.
Qed.

Lemma compare_digits w n m : 0 ≤ n < 10 ^ Z.of_nat w → 0 ≤ m < 10 ^ Z.of_nat w →
  cmp_chars (digits w n) (digits w m) = (n ?= m).
Proof.
  revert n m. induction w as [|w IH]; intros n m Hn Hm.
  - cbn in *. assert (n = 0 ∧ m = 0) as [-> ->] by lia. done.
  - rewrite Nat2Z.inj_succ, Z.pow_succ_r in Hn, Hm by lia. cbn [digits].
    rewrite cmp_chars_app by by rewrite !length_digits.
    rewrite IH by (Z.to_euclidean_division_equations; lia).
    cbn [cmp_chars]. rewrite compare_digit by (Z.to_euclidean_division_equations; lia).
    rewrite (compare_div_mod 10 n m) by lia. destruct (n / 10 ?= m / 10); cbn; try done.
    by destruct (n mod 10 ?= m mod 10).
Qed.

(** A fixed-width field followed by the rest of the text. *)
Lemma compare_field w n m u v : 0 ≤ n < 10 ^ Z.of_nat w → 0 ≤ m < 10 ^ Z.of_nat w →
  cmp_chars (digits w n ++ u) (digits w m ++ v) = then_cmp (n ?= m) (cmp_chars u v).
Proof.
  intros. rewrite cmp_chars_app by by rewrite !length_digits. by rewrite compare_digits.
Qed.

Lemma days_upper n y m d : 0 ≤ n < max_ordinal → 1 ≤ y → valid_md (is_leap y) m d →
  days_of_ymd y m d = n → 1 ≤ y < 10000 ∧ 1 ≤ m ≤ 12 ∧ 1 ≤ d ≤ 31.
Proof.
  intros Hn Hy Hv Hd. pose proof (days_of_ymd_bounds _ _ _ Hv) as Hb.
  split; [|destruct Hv as [Hm Hdm]; split; [done|]].
  - split; [done|]. destruct (Z.lt_ge_cases y 10000) as [|Hge]; [done|].
    pose proof (days_before_year_mono 10000 y Hge) as Hmono.
    assert (days_before_year 10000 = 3652059) as H10 by reflexivity. unfold max_ordinal in Hn. lia.
  - assert (m = 1 ∨ m = 2 ∨ m = 3 ∨ m = 4 ∨ m = 5 ∨ m = 6 ∨ m = 7 ∨ m = 8 ∨ m = 9 ∨ m = 10 ∨ m = 11 ∨ m = 12)
      as Hc by lia.
    repeat destruct Hc as [->|Hc]; try subst m; destruct (is_leap y); calc_months; lia.
Qed.

Lemma length_date_chars n : length (date_chars n) = 10%nat.
Proof.
  unfold date_chars. destruct (ymd_of_days n) as [[y m] d].
  repeat (rewrite ?length_app, ?length_digits; cbn [length]). done.
Qed.
Lemma compare_date n m : 0 ≤ n < max_ordinal → 0 ≤ m < max_ordinal →
  cmp_chars (date_chars n) (date_chars m) = (n ?= m).
Proof.
  intros Hn Hm. unfold date_chars.
  pose proof (ymd_of_days_spec n (proj1 Hn)) as Sn. pose proof (ymd_of_days_spec m (proj1 Hm)) as Sm.
  destruct (ymd_of_days n) as [[y mo] d], (ymd_of_days m) as [[y' mo'] d'].
  destruct Sn as (Hy & Hv & Hd), Sm as (Hy' & Hv' & Hd').
  pose proof (days_upper _ _ _ _ Hn Hy Hv Hd) as (B1 & B2 & B3).
  pose proof (days_upper _ _ _ _ Hm Hy' Hv' Hd') as (B1' & B2' & B3').
  rewrite compare_field by (cbn; lia). rewrite cmp_chars_cons.
  rewrite compare_field by (cbn; lia). rewrite cmp_chars_cons.
  rewrite compare_digits by (cbn; lia).
  rewrite <- Hd, <- Hd'. by rewrite days_of_ymd_compare.
Qed.

Lemma length_clock_chars r : length (clock_chars r) = 8%nat.
Proof. unfold clock_chars. repeat (rewrite ?length_app, ?length_digits; cbn [length]). done. Qed.
Lemma compare_clock r q : 0 ≤ r < day → 0 ≤ q < day →
  then_cmp (cmp_chars (clock_chars r) (clock_chars q)) (r mod second ?= q mod second) = (r ?= q).
Proof.
  intros Hr Hq. unfold clock_chars, day, hour, minute, second in *.
  rewrite compare_field by (cbn; Z.to_euclidean_division_equations; lia). rewrite cmp_chars_cons.
  rewrite compare_field by (cbn; Z.to_euclidean_division_equations; lia). rewrite cmp_chars_cons.
  rewrite compare_digits by (cbn; Z.to_euclidean_division_equations; lia).
  rewrite (compare_div_mod (60 * (60 * 1000000)) r q) by lia.
  rewrite (compare_div_mod (60 * 1000000) (r mod (60 * (60 * 1000000))) (q mod (60 * (60 * 1000000)))) by lia.
  assert (Hmm : ∀ x, (x mod (60 * (60 * 1000000))) mod (60 * 1000000) = x mod (60 * 1000000)).
  { intros x. Z.to_euclidean_division_equations. lia. }
  rewrite !Hmm.
  rewrite (compare_div_mod 1000000 (r mod (60 * 1000000)) (q mod (60 * 1000000))) by lia.
  assert (Hms : ∀ x, (x mod (60 * 1000000)) mod 1000000 = x mod 1000000).
  { intros x. Z.to_euclidean_division_equations. lia. }
  rewrite !Hms. by rewrite !then_cmp_assoc.
Qed.

Lemma compare_fraction a b : 0 ≤ a < second → 0 ≤ b < second →
  cmp_chars (fraction_chars a ++ chars "+00:00") (fraction_chars b ++ chars "+00:00") = (a ?= b).
Proof.
  intros Ha Hb. unfold fraction_chars.
  destruct (Z.eqb_spec a 0) as [->|Ha0], (Z.eqb_spec b 0) as [->|Hb0].
  - apply cmp_chars_refl.
  - transitivity Lt; [reflexivity|symmetry; apply Z.compare_lt_iff; lia].
  - transitivity Gt; [reflexivity|symmetry; apply Z.compare_gt_iff; lia].
  - cbn [app]. rewrite cmp_chars_cons, compare_field by (unfold second in *; cbn; lia).
    rewrite cmp_chars_refl. by destruct (a ?= b).
Qed.

Lemma isoformat_cmp t u : in_datetime t → in_datetime u →
  String.compare (isoformat t) (isoformat u) = (t ?= u).
Proof.
  intros Ht Hu. unfold in_datetime in *. rewrite compare_chars. unfold isoformat. rewrite !chars_of_chars.
  rewrite cmp_chars_app by by rewrite !length_date_chars.
  rewrite cmp_chars_cons, cmp_chars_app by by rewrite !length_clock_chars.
  rewrite compare_date by (unfold day, hour, minute, second in *; Z.to_euclidean_division_equations; lia).
  rewrite compare_fraction by (apply Z.mod_pos_bound; done).
  assert (Hs : ∀ x, x mod second = (x mod day) mod second).
  { intros x. unfold day, hour, minute, second. Z.to_euclidean_division_equations; lia. }
  rewrite (Hs t), (Hs u), compare_clock by (apply Z.mod_pos_bound; done).
  symmetry. by apply compare_div_mod.
Qed.

(** [a <= b], [a < b] of two [str] (and of two SQLite [TEXT] values). *)
Definition str_leb (a b : string) : bool := match String.compare a b with Gt => false | _ => true end.
Definition str_ltb (a b : string) : bool := match String.compare a b with Lt => true | _ => false end.

Lemma in_datetime_floor t : in_datetime t → in_datetime (floor_second t).
Proof.
  unfold in_datetime, floor_second, max_ordinal, day, hour, minute, second. intros H.
  Z.to_euclidean_division_equations. lia.
Qed.
Lemma floor_second_le t : floor_second t ≤ t < floor_second t + second.
Proof. unfold floor_second, second. Z.to_euclidean_division_equations. lia. Qed.
Lemma floor_second_mono t u : t ≤ u → floor_second t ≤ floor_second u.
Proof. unfold floor_second, second. intros. Z.to_euclidean_division_equations. lia. Qed.
Lemma floor_second_idemp t : t mod second = 0 → floor_second t = t.
Proof. unfold floor_second. lia. Qed.
Lemma floor_second_mod t : floor_second t mod second = 0.
Proof. unfold floor_second, second. Z.to_euclidean_division_equations. lia. Qed.

Lemma isoformat_leb t u : in_datetime t → in_datetime u → str_leb (isoformat t) (isoformat u) = (t <=? u).
Proof. intros. unfold str_leb, Z.leb. by rewrite isoformat_cmp. Qed.
Lemma isoformat_ltb t u : in_datetime t → in_datetime u → str_ltb (isoformat t) (isoformat u) = (t <? u).
Proof. intros. unfold str_ltb, Z.ltb. by rewrite isoformat_cmp. Qed.
Lemma isoformat_inj t u : in_datetime t → in_datetime u → isoformat t = isoformat u → t = u.
Proof.
  intros Ht Hu He. apply Z.compare_eq_iff. rewrite <- isoformat_cmp, He by done.
  rewrite compare_chars. apply cmp_chars_refl.
Qed.

(** ** [fromisoformat]

    The reader of the layout [isoformat] writes; the other layouts CPython
    accepts never reach the program's columns. *)
Fixpoint read_digits (w : nat) (acc : Z) (l : list ascii) : option (Z * list ascii) :=
  match w with
  | O => Some (acc, l)
  | S w =>
      match l with
      | c :: l => if is_ascii_digit c then read_digits w (acc * 10 + (Z.of_N (code c) - 48)) l else None
      | [] => None
      end
  end.
Definition read_char (c : ascii) (l : list ascii) : option (list ascii) :=
  match l with d :: l => if bool_decide (d = c) then Some l else None | [] => None end.
Definition read_fraction (l : list ascii) : option (Z * list ascii) :=
  match l with
  | d :: l' => if bool_decide (d = "."%char) then read_digits 6 0 l' else Some (0, l)
  | [] => Some (0, l)
  end.
Definition read_iso (l : list ascii) : option Z :=
  '(y, l) ← read_digits 4 0 l; l ← read_char "-" l;
  '(m, l) ← read_digits 2 0 l; l ← read_char "-" l;
  '(d, l) ← read_digits 2 0 l; l ← read_char "T" l;
  '(h, l) ← read_digits 2 0 l; l ← read_char ":" l;
  '(mi, l) ← read_digits 2 0 l; l ← read_char ":" l;
  '(s, l) ← read_digits 2 0 l;
  '(us, l) ← read_fraction l;
  if bool_decide (l = chars "+00:00") &&
     ((1 <=? y) && (1 <=? m) && (m <=? 12) && (1 <=? d) && (d <=? days_in_month (is_leap y) m)
      && (h <? 24) && (mi <? 60) && (s <? 60))
  then Some (days (days_of_ymd y m d) + h * hour + mi * minute + s * second + us)
  else None.
Definition fromisoformat (s : string) : Outcome Z :=
  of_option (read_iso (chars s)) (ValueError ("Invalid isoformat string: " +:+ py_repr s)).

Lemma read_digit n acc w u : 0 ≤ n < 10 →
  read_digits (S w) acc (digit n :: u) = read_digits w (acc * 10 + n) u.
Proof.
  intros Hn. unfold digit, char_of. cbn. unfold is_ascii_digit, in_range, code.
  rewrite N_ascii_embedding by lia.
  replace ((48 <=? Z.to_N (48 + n))%N && (Z.to_N (48 + n) <=? 57)%N)
    with true by (symmetry; rewrite andb_true_iff, !N.leb_le; lia).
  f_equal. lia.
Qed.
Lemma read_digits_app w w' n acc u : 0 ≤ n < 10 ^ Z.of_nat w →
  read_digits (w + w') acc (digits w n ++ u) = read_digits w' (acc * 10 ^ Z.of_nat w + n) u.
Proof.
  revert n acc u w'. induction w as [|w IH]; intros n acc u w' Hn.
  - cbn in *. f_equal. lia.
  - rewrite Nat2Z.inj_succ, Z.pow_succ_r in * by lia. cbn [digits].
    rewrite <- (assoc (++)). replace (S w + w')%nat with (w + S w')%nat by lia.
    rewrite IH by (Z.to_euclidean_division_equations; lia). cbn [app].
    rewrite read_digit by (Z.to_euclidean_division_equations; lia).
    f_equal. pose proof (Z.div_mod n 10). lia.
Qed.
Lemma read_digits_digits w n u : 0 ≤ n < 10 ^ Z.of_nat w →
  read_digits w 0 (digits w n ++ u) = Some (n, u).
Proof. intros Hn. replace w with (w + 0)%nat at 1 by lia. by rewrite read_digits_app. Qed.
Lemma read_char_cons c u : read_char c (c :: u) = Some u.
Proof. cbn. by rewrite bool_decide_eq_true_2. Qed.
Lemma read_fraction_chars us : 0 ≤ us < second →
  read_fraction (fraction_chars us ++ chars "+00:00") = Some (us, chars "+00:00").
Proof.
  intros H. unfold fraction_chars. destruct (Z.eqb_spec us 0) as [->|]; [done|].
  change (read_digits 6 0 (digits 6 us ++ chars "+00:00") = Some (us, chars "+00:00")).
  by apply read_digits_digits.
Qed.

Lemma clock_sum r : 0 ≤ r < day →
  r / hour * hour + r mod hour / minute * minute + r mod minute / second * second + r mod second = r.
Proof. unfold day, hour, minute, second. intros. Z.to_euclidean_division_equations. lia. Qed.

Lemma clock_bounds r : 0 ≤ r < day →
  0 ≤ r / hour < 24 ∧ 0 ≤ r mod hour / minute < 60 ∧ 0 ≤ r mod minute / second < 60.
Proof.
  unfold day, hour, minute, second. intros.
  split; [|split]; Z.to_euclidean_division_equations; lia.
Qed.
Lemma mod_day_second t : t mod second = t mod day mod second.
Proof. unfold day, hour, minute, second. Z.to_euclidean_division_equations; lia. Qed.

Lemma read_iso_chars t : in_datetime t → read_iso (chars (isoformat t)) = Some t.
Proof.
  intros [H0 H1]. unfold isoformat. rewrite chars_of_chars. unfold date_chars, clock_chars.
  assert (Hd : 0 ≤ t / day < max_ordinal)
    by (unfold day, hour, minute, second in *; Z.to_euclidean_division_equations; lia).
  assert (Hr : 0 ≤ t mod day < day) by by apply Z.mod_pos_bound.
  pose proof (ymd_of_days_spec (t / day) (proj1 Hd)) as S.
  destruct (ymd_of_days (t / day)) as [[y m] d]. destruct S as (Hy & Hv & Hsum).
  pose proof (days_upper _ _ _ _ Hd Hy Hv Hsum) as (B1 & B2 & B3).
  pose proof (clock_bounds _ Hr) as Hh.
  unfold read_iso. repeat (rewrite <- ?(assoc (++)); cbn [app]).
  do 5 (rewrite read_digits_digits by (cbn; lia); cbn [mbind option_bind];
        rewrite read_char_cons; cbn [mbind option_bind]).
  rewrite read_digits_digits by (cbn; lia). cbn [mbind option_bind].
  rewrite read_fraction_chars by by apply Z.mod_pos_bound. cbn [mbind option_bind].
  rewrite bool_decide_eq_true_2 by done. destruct Hv as [Hm Hdm].
  match goal with |- (if ?b then _ else _) = _ => replace b with true by lia end.
  f_equal. rewrite Hsum. pose proof (clock_sum _ Hr) as Hc.
  rewrite (mod_day_second t). pose proof (Z.div_mod t day).
  assert (day ≠ 0) by done. unfold days. lia.
Qed.
Lemma fromisoformat_isoformat t : in_datetime t → fromisoformat (isoformat t) = Ok t.
Proof. intros H. unfold fromisoformat. by rewrite read_iso_chars. Qed.
