(* ===== verification/IPAddr.v ===== *)
(** * The [ipaddress] module

    The functions of Python's standard [ipaddress] module the program calls:
    [ip_address], [ip_network] (strict or not), [str] of both, and membership
    of an address in a network.  Written after CPython 3.13, the version
    [pyproject.toml] requires; error texts of the module are not modelled,
    only that it raises. *)

From S2P Require Import Prelude PyStr.
#[local] Open Scope Z_scope.

Inductive IP := V4 (n : Z) | V6 (n : Z).
#[export] Instance IP_eq_dec : EqDecision IP.
Proof. solve_decision. Defined.

(** An [IPv4Address] or [IPv6Address]; only the latter can have a scope. *)
Record IPAddress := mkIPAddress { ip_value : IP; scope_id : option string }.
#[export] Instance IPAddress_eq_dec : EqDecision IPAddress.
Proof. solve_decision. Defined.
(** The network address has no host bits; [prefixlen] is at most [max_prefixlen]. *)
Record IPNetwork := mkIPNetwork { network_address : IPAddress; prefixlen : Z }.
#[export] Instance IPNetwork_eq_dec : EqDecision IPNetwork.
Proof. solve_decision. Defined.

Definition ip_int (a : IP) : Z := match a with V4 n | V6 n => n end.
Definition ip_version (a : IP) : Z := match a with V4 _ => 4 | V6 _ => 6 end.
Definition max_prefixlen (a : IP) : Z := match a with V4 _ => 32 | V6 _ => 128 end.

(** ** Parsing *)
Definition dec_value (l : list ascii) : Z :=
  fold_left (λ acc c, acc * 10 + (Z.of_N (code c) - 48)) l 0.

(** [_BaseV4._parse_octet] *)
Definition parse_octet (l : list ascii) : option Z :=
  if negb (nonempty l) || negb (forallb is_ascii_digit l) then None
  else if (3 <? length l)%nat then None
  else match l with
       | "0"%char :: _ :: _ => None
       | _ => let n := dec_value l in if 255 <? n then None else Some n
       end.

(** [_BaseV4._ip_int_from_string] *)
Definition v4_of_chars (l : list ascii) : option Z :=
  match split_chars "." l with
  | [a; b; c; d] =>
      a ← parse_octet a; b ← parse_octet b; c ← parse_octet c; d ← parse_octet d;
      Some (((a * 256 + b) * 256 + c) * 256 + d)
  | _ => None
  end.

Definition hex_value (c : ascii) : option Z :=
  let n := Z.of_N (code c) in
  if in_range 48 57 c then Some (n - 48)
  else if in_range 65 70 c then Some (n - 55)
  else if in_range 97 102 c then Some (n - 87)
  else None.
Fixpoint hex_fold (acc : Z) (l : list ascii) : option Z :=
  match l with
  | [] => Some acc
  | c :: l => d ← hex_value c; hex_fold (acc * 16 + d) l
  end.
(** [_BaseV6._parse_hextet]; [int("", 16)] raises. *)
Definition parse_hextet (l : list ascii) : option Z :=
  if (4 <? length l)%nat || negb (nonempty l) then None else hex_fold 0 l.
Fixpoint parse_hextets (acc : Z) (l : list (list ascii)) : option Z :=
  match l with
  | [] => Some acc
  | w :: l => h ← parse_hextet w; parse_hextets (acc * 65536 + h) l
  end.

(** The position of the one empty part strictly inside the list. *)
Fixpoint inner_empties (i last : nat) (l : list (list ascii)) : list nat :=
  match l with
  | [] => []
  | w :: l =>
      let r := inner_empties (S i) last l in
      if (0 <? i)%nat && (i <? last)%nat && negb (nonempty w) then i :: r else r
  end.

(** [_BaseV6._ip_int_from_string] *)
Definition v6_of_parts (parts : list (list ascii)) : option Z :=
  let n := length parts in
  if (9 <? n)%nat then None else
  match inner_empties 0 (n - 1) parts with
  | [] =>
      if (n =? 8)%nat && nonempty (default [] (head parts)) && nonempty (default [] (last parts))
      then parse_hextets 0 parts else None
  | [i] =>
      let lead := negb (nonempty (default [] (head parts))) in
      let trail := negb (nonempty (default [] (last parts))) in
      let hi := if lead then (i - 1)%nat else i in
      let lo := if trail then (n - i - 2)%nat else (n - i - 1)%nat in
      if lead && (0 <? hi)%nat || trail && (0 <? lo)%nat then None
      else if (8 <=? hi + lo)%nat then None
      else
        h ← parse_hextets 0 (take hi parts);
        parse_hextets (Z.shiftl h (16 * Z.of_nat (8 - (hi + lo)))) (drop (n - lo) parts)
  | _ => None
  end.
Definition hex_chars (n : Z) : list ascii := chars (hex_of_Z n).
Definition v6_of_chars (l : list ascii) : option Z :=
  let parts := split_chars ":" l in
  if (length parts <? 3)%nat then None else
  let tail := default [] (last parts) in
  if existsb (λ c, bool_decide (c = "."%char)) tail then
    n ← v4_of_chars tail;
    v6_of_parts (removelast parts ++
      [hex_chars (Z.land (Z.shiftr n 16) 65535); hex_chars (Z.land n 65535)])
  else v6_of_parts parts.

(** [IPv6Address(s)]: an optional scope follows a percent sign. *)
Definition v6_of_text (l : list ascii) : option IPAddress :=
  let '(addr, sep, scope) := partition_chars "%" l in
  if existsb (λ c, bool_decide (c = "/"%char)) l then None else
  if sep && (negb (nonempty scope) || existsb (λ c, bool_decide (c = "%"%char)) scope) then None
  else n ← v6_of_chars addr;
       Some (mkIPAddress (V6 n) (if sep then Some (of_chars scope) else None)).

Definition invalid_address (s : string) : Exc :=
  ValueError (py_repr s +:+ " does not appear to be an IPv4 or IPv6 address").
Definition invalid_network (s : string) : Exc :=
  ValueError (py_repr s +:+ " does not appear to be an IPv4 or IPv6 network").

Definition address_of_chars (l : list ascii) : option IPAddress :=
  match v4_of_chars l with
  | Some n => Some (mkIPAddress (V4 n) None)
  | None => v6_of_text l
  end.
(** [ipaddress.ip_address(s)] *)
Definition ip_address (s : string) : Outcome IPAddress :=
  of_option (address_of_chars (chars s)) (invalid_address s).

(** ** Networks *)
(** [_ip_int_from_prefix] *)
Definition netmask (bits prefix : Z) : Z :=
  Z.lxor (2 ^ bits - 1) (Z.shiftr (2 ^ bits - 1) prefix).
Definition all_ones (bits : Z) : Z := 2 ^ bits - 1.

(** [_prefix_from_prefix_string] *)
Definition prefix_of_digits (bits : Z) (l : list ascii) : option Z :=
  if nonempty l && forallb is_ascii_digit l && (dec_value l <=? bits) then Some (dec_value l) else None.

(** [_prefix_from_ip_int]: the mask is ones followed by zeroes. *)
Definition prefix_of_mask (bits mask : Z) : option Z :=
  let fits p := mask =? netmask bits (Z.of_nat p) in
  match List.find fits (seq 0 (Z.to_nat bits + 1)) with
  | Some p => Some (Z.of_nat p)
  | None => None
  end.
(** [_BaseV4._make_netmask]: a length, a netmask or a hostmask. *)
Definition v4_prefix (l : list ascii) : option Z :=
  match prefix_of_digits 32 l with
  | Some p => Some p
  | None =>
      m ← v4_of_chars l;
      match prefix_of_mask 32 m with
      | Some p => Some p
      | None => prefix_of_mask 32 (Z.lxor m (all_ones 32))
      end
  end.

(** The three ways [IPv4Network(s)] and [IPv6Network(s)] end: a text they do
    not read, a [ValueError] for host bits, a network. *)
Inductive NetResult := NotANetwork | HostBits | ANetwork (n : IPNetwork).
Definition net_with (strict : bool) (a : IPAddress) (prefix : Z) : NetResult :=
  let n := ip_int (ip_value a) in
  let m := Z.land n (netmask (max_prefixlen (ip_value a)) prefix) in
  if m =? n then ANetwork (mkIPNetwork a prefix)
  else if strict then HostBits
  else ANetwork (mkIPNetwork
    (mkIPAddress (match ip_value a with V4 _ => V4 m | V6 _ => V6 m end) None) prefix).

Definition v4_network (strict : bool) (l : list ascii) : NetResult :=
  let r := match split_chars "/" l with
           | [a] => n ← v4_of_chars a; Some (n, 32)
           | [a; p] => n ← v4_of_chars a; p ← v4_prefix p; Some (n, p)
           | _ => None
           end in
  match r with
  | Some (n, p) => net_with strict (mkIPAddress (V4 n) None) p
  | None => NotANetwork
  end.
Definition v6_network (strict : bool) (l : list ascii) : NetResult :=
  let r := match split_chars "/" l with
           | [a] => a ← v6_of_text a; Some (a, 128)
           | [a; p] => a ← v6_of_text a; p ← prefix_of_digits 128 p; Some (a, p)
           | _ => None
           end in
  match r with
  | Some (a, p) => net_with strict a p
  | None => NotANetwork
  end.
(** [ipaddress.ip_network(s, strict)] *)
Definition ip_network (s : string) (strict : bool) : Outcome IPNetwork :=
  match v4_network strict (chars s) with
  | ANetwork n => Ok n
  | HostBits => Raise (ValueError (s +:+ " has host bits set"))
  | NotANetwork =>
      match v6_network strict (chars s) with
      | ANetwork n => Ok n
      | HostBits => Raise (ValueError (s +:+ " has host bits set"))
      | NotANetwork => Raise (invalid_network s)
      end
  end.

(** ** [address in network] *)
Definition in_network (a : IP) (n : IPNetwork) : bool :=
  let net := ip_value (network_address n) in
  (ip_version a =? ip_version net) &&
  (Z.land (ip_int a) (netmask (max_prefixlen net) (prefixlen n)) =? ip_int net).

(** ** [str] *)
Definition v4_text (n : Z) : string :=
  join "." (map (λ k, str_of_Z (Z.land (Z.shiftr n (8 * k)) 255)) [3; 2; 1; 0]).
Definition hextets (n : Z) : list Z :=
  map (λ k, Z.land (Z.shiftr n (16 * k)) 65535) [7; 6; 5; 4; 3; 2; 1; 0].

(** The longest run of zero hextets, the first one on a tie:
    [_compress_hextets] as a scan keeping the best and the current run. *)
Fixpoint best_run (i start len bstart blen : nat) (l : list Z) : nat * nat :=
  match l with
  | [] => (bstart, blen)
  | h :: l =>
      if h =? 0 then
        let start := if (len =? 0)%nat then i else start in
        let len := S len in
        if (blen <? len)%nat then best_run (S i) start len start len l
        else best_run (S i) start len bstart blen l
      else best_run (S i) 0 0 bstart blen l
  end.
Definition compress (hs : list Z) : list string :=
  let ws := map hex_of_Z hs in
  let '(st, len) := best_run 0 0 0 0 0 hs in
  if (1 <? len)%nat then
    let tail := drop (st + len) ws ++ (if (st + len =? length ws)%nat then [""] else []) in
    let body := take st ws ++ [""] ++ tail in
    if (st =? 0)%nat then "" :: body else body
  else ws.
Definition v6_text (n : Z) : string :=
  if Z.shiftr n 32 =? 65535 then
    join ":" (compress (hextets (Z.shiftr n 32))) +:+ ":" +:+ v4_text (Z.land n (2 ^ 32 - 1))
  else join ":" (compress (hextets n)).
Definition ip_text (a : IP) : string := match a with V4 n => v4_text n | V6 n => v6_text n end.
(** [str(address)] *)
Definition str_address (a : IPAddress) : string :=
  ip_text (ip_value a) +:+ match scope_id a with Some s => "%" +:+ s | None => "" end.
(** [str(network)] *)
Definition str_network (n : IPNetwork) : string :=
  str_address (network_address n) +:+ "/" +:+ str_of_Z (prefixlen n).

(** *** Values on the module's own documented inputs *)
Example parse_v4 : ip_address "192.168.1.20" = Ok (mkIPAddress (V4 3232235796) None).
Proof. vm_compute. reflexivity. Qed.
Example parse_v4_zero : is_ok (ip_address "192.168.01.20") = false.
Proof. vm_compute. reflexivity. Qed.
Example parse_v6 : ip_address "2001:db8::8a2e:370:7334"
  = Ok (mkIPAddress (V6 42540766411282592856904136881884656436) None).
Proof. vm_compute. reflexivity. Qed.
Example parse_v6_scope : ip_address "fe80::1%eth0"
  = Ok (mkIPAddress (V6 338288524927261089654018896841347694593) (Some "eth0")).
Proof. vm_compute. reflexivity. Qed.
Definition str_network_of (s : string) (strict : bool) : Outcome string :=
  n ← ip_network s strict; mret (str_network n).
Definition readback (s : string) : Outcome string := a ← ip_address s; mret (str_address a).
Example text_forms : map readback ["::FFFF:1.2.3.4"; "::"; "1:0:0:2:0:0:0:3"; "::1"; "fe80:0::"; "10.0.0.1"]
  = map Ok ["::ffff:1.2.3.4"; "::"; "1:0:0:2::3"; "::1"; "fe80::"; "10.0.0.1"].
Proof. vm_compute. reflexivity. Qed.
Example parse_net : str_network_of "10.0.0.0/255.0.0.0" true = Ok "10.0.0.0/8".
Proof. vm_compute. reflexivity. Qed.
Example parse_net_host_bits : str_network_of "10.1.2.3/8" true = Raise (ValueError "10.1.2.3/8 has host bits set").
Proof. vm_compute. reflexivity. Qed.
Example parse_net_loose : str_network_of "10.1.2.3/8" false = Ok "10.0.0.0/8".
Proof. vm_compute. reflexivity. Qed.

(** ** Membership is an interval

    For an address and a network of the right width, the mask test of
    [in_network] says that the address lies in the block of [2^(bits - prefix)]
    addresses that starts at the network address. *)
Definition well_sized (a : IP) : Prop := 0 ≤ ip_int a < 2 ^ max_prefixlen a.
Definition valid_network (n : IPNetwork) : Prop :=
  let net := ip_value (network_address n) in
  well_sized net ∧ 0 ≤ prefixlen n ≤ max_prefixlen net ∧
  (2 ^ (max_prefixlen net - prefixlen n) | ip_int net).

Lemma ones_testbit b i : 0 ≤ b → Z.testbit (2 ^ b - 1) i = (0 <=? i) && (i <? b).
Proof.
  intros Hb. replace (2 ^ b - 1) with (Z.ones b) by (rewrite Z.ones_equiv; lia).
  destruct (Z.leb_spec 0 i); cbn; [|by apply Z.testbit_neg_r].
  destruct (Z.ltb_spec i b); [apply Z.ones_spec_low; lia|apply Z.ones_spec_high; lia].
Qed.
Lemma land_netmask b p a : 0 ≤ p ≤ b → 0 ≤ a < 2 ^ b →
  Z.land a (netmask b p) = a - a mod 2 ^ (b - p).
Proof.
  intros Hp Ha.
  assert (Hm : a - a mod 2 ^ (b - p) = Z.shiftl (Z.shiftr a (b - p)) (b - p)).
  { rewrite Z.shiftl_mul_pow2, Z.shiftr_div_pow2 by lia.
    pose proof (Z.div_mod a (2 ^ (b - p))). lia. }
  rewrite Hm. apply Z.bits_inj'. intros i Hi. unfold netmask.
  rewrite Z.land_spec, Z.lxor_spec, Z.shiftr_spec, !ones_testbit by lia.
  rewrite Z.shiftl_spec by lia.
  destruct (Z.ltb_spec i (b - p)).
  - rewrite (Z.testbit_neg_r _ (i - (b - p))) by lia.
    replace ((0 <=? i) && (i <? b)) with true by lia.
    replace ((0 <=? i + p) && (i + p <? b)) with true by lia. by rewrite andb_false_r.
  - rewrite Z.shiftr_spec by lia. replace (i - (b - p) + (b - p)) with i by lia.
    replace ((0 <=? i + p) && (i + p <? b)) with false by lia.
    destruct (Z.ltb_spec i b).
    + replace (0 <=? i) with true by lia. apply andb_true_r.
    + rewrite <- (Z.mod_small a (2 ^ b)) by done. by rewrite Z.mod_pow2_bits_high by lia.
Qed.

Lemma and_iff_compat_l_weak (P Q R : Prop) : (P → (Q ↔ R)) → (P ∧ Q ↔ P ∧ R).
Proof. tauto. Qed.
Lemma in_network_block a n : well_sized a → valid_network n →
  in_network a n = true ↔
  ip_version a = ip_version (ip_value (network_address n)) ∧
  ip_int (ip_value (network_address n)) ≤ ip_int a <
    ip_int (ip_value (network_address n)) +
      2 ^ (max_prefixlen (ip_value (network_address n)) - prefixlen n).
Proof.
  intros Ha (Hn & Hp & Hd). unfold in_network. rewrite andb_true_iff, Z.eqb_eq.
  set (net := ip_value (network_address n)) in *. apply and_iff_compat_l_weak.
  intros Hv. assert (max_prefixlen a = max_prefixlen net) as Hmax by (by destruct a, net).
  unfold well_sized in *. rewrite Hmax in Ha. rewrite Z.eqb_eq, land_netmask by done.
  set (w := 2 ^ (max_prefixlen net - prefixlen n)) in *.
  assert (Hw : 0 < w) by (apply Z.pow_pos_nonneg; lia). destruct Hd as [k Hk].
  pose proof (Z.mod_pos_bound (ip_int a) w Hw). pose proof (Z.div_mod (ip_int a) w).
  split; intros He; [lia|]. rewrite Hk in *.
  assert (ip_int a / w = k) as Hdiv by (symmetry; apply Z.div_unique_pos with (ip_int a - k * w); lia). nia.
Qed.

(** ** What the parsers return has the right width *)
Lemma dec_value_nonneg l : forallb is_ascii_digit l = true → 0 ≤ dec_value l.
Proof.
  unfold dec_value. assert (H : ∀ l acc, 0 ≤ acc → forallb is_ascii_digit l = true →
    0 ≤ fold_left (λ acc c, acc * 10 + (Z.of_N (code c) - 48)) l acc).
  { clear l. induction l as [|c l IH]; intros acc Hacc Hd; cbn in *; [done|].
    apply andb_true_iff in Hd as [Hc Hl]. apply IH; [|done].
    unfold is_ascii_digit, in_range in Hc. apply andb_true_iff in Hc as [Hc _].
    apply N.leb_le in Hc. lia. }
  intros. by apply H.
Qed.
Lemma parse_octet_range l n : parse_octet l = Some n → 0 ≤ n < 256.
Proof.
  unfold parse_octet. destruct (nonempty l); [|done].
  destruct (forallb is_ascii_digit l) eqn:Hd; [|done]. cbn [negb orb].
  apply dec_value_nonneg in Hd. destruct (3 <? length l)%nat; [done|].
  assert (Hv : (let n := dec_value l in if 255 <? n then None else Some n) = Some n → 0 ≤ n < 256).
  { cbn. destruct (Z.ltb_spec 255 (dec_value l)); [done|]. intros [= <-]. lia. }
  destruct l as [|c l]; [done|]. intros H. apply Hv. revert H.
  destruct c as [[] [] [] [] [] [] [] []], l; done.
Qed.
Lemma v4_of_chars_range l n : v4_of_chars l = Some n → 0 ≤ n < 2 ^ 32.
Proof.
  unfold v4_of_chars. destruct (split_chars "." l) as [|a [|b [|c [|d []]]]]; try done.
  intros (a' & Ha & (b' & Hb & (c' & Hc & (d' & Hd & [= <-])%bind_Some)%bind_Some)%bind_Some)%bind_Some.
  apply parse_octet_range in Ha, Hb, Hc, Hd. lia.
Qed.

Lemma hex_value_range c d : hex_value c = Some d → 0 ≤ d < 16.
Proof.
  unfold hex_value, in_range. intros H. repeat case_match; simplify_eq;
    rewrite ?andb_true_iff, ?N.leb_le in *; lia.
Qed.
Lemma hex_fold_range acc l n k : hex_fold acc l = Some n → 0 ≤ acc < k → 0 ≤ n < k * 16 ^ Z.of_nat (length l).
Proof.
  revert acc k. induction l as [|c l IH]; intros acc k; cbn [hex_fold length]; [intros [= <-]; lia|].
  intros (d & Hd & H)%bind_Some Hacc. apply hex_value_range in Hd.
  specialize (IH (acc * 16 + d) (k * 16) H ltac:(lia)).
  rewrite Nat2Z.inj_succ, Z.pow_succ_r by lia. lia.
Qed.
Lemma parse_hextet_range l n : parse_hextet l = Some n → 0 ≤ n < 65536.
Proof.
  unfold parse_hextet. destruct (Nat.ltb_spec 4 (length l)); [done|]. cbn [orb].
  destruct (negb (nonempty l)); [done|]. intros Hf. apply (hex_fold_range 0 l n 1) in Hf; [|lia].
  assert (16 ^ Z.of_nat (length l) ≤ 16 ^ 4) by (apply Z.pow_le_mono_r; lia). lia.
Qed.
Lemma parse_hextets_range acc l n k : parse_hextets acc l = Some n → 0 ≤ acc < k →
  0 ≤ n < k * 65536 ^ Z.of_nat (length l).
Proof.
  revert acc k. induction l as [|w l IH]; intros acc k; cbn [parse_hextets length]; [intros [= <-]; lia|].
  intros (h & Hh & H)%bind_Some Hacc. apply parse_hextet_range in Hh.
  specialize (IH (acc * 65536 + h) (k * 65536) H ltac:(lia)).
  rewrite Nat2Z.inj_succ, Z.pow_succ_r by lia. lia.
Qed.
Lemma pow_hextets k : 65536 ^ Z.of_nat k = 2 ^ (16 * Z.of_nat k).
Proof. rewrite Z.pow_mul_r by lia. done. Qed.
Lemma v6_of_parts_range parts n : v6_of_parts parts = Some n → 0 ≤ n < 2 ^ 128.
Proof.
  unfold v6_of_parts. destruct (9 <? length parts)%nat; [done|].
  destruct (inner_empties 0 (length parts - 1) parts) as [|i []]; [| |done].
  - destruct (Nat.eqb_spec (length parts) 8) as [Hl|]; [|done].
    destruct (nonempty _); [|done]. cbn [andb]. destruct (nonempty _); [|done].
    intros H. apply (parse_hextets_range 0 parts n 1) in H; [|lia].
    rewrite Hl, pow_hextets in H. cbn in *. lia.
  - set (hi := if negb _ then _ else _). set (lo := if negb _ then _ else _).
    destruct (_ || _); [done|].
    destruct (Nat.leb_spec 8 (hi + lo)) as [|Hs]; [done|]. intros (h & Hh & H)%bind_Some.
    apply (parse_hextets_range 0 _ h 1) in Hh; [|lia]. rewrite pow_hextets in Hh.
    rewrite length_take in Hh.
    rewrite Z.shiftl_mul_pow2 in H by lia.
    apply (parse_hextets_range _ _ n (2 ^ (16 * Z.of_nat (8 - lo)))) in H.
    + rewrite pow_hextets, <- Z.pow_add_r in H by lia. rewrite length_drop in H.
      assert (2 ^ (16 * Z.of_nat (8 - lo) + 16 * Z.of_nat (length parts - (length parts - lo))) ≤ 2 ^ 128)
        by (apply Z.pow_le_mono_r; lia). lia.
    + assert (Hle : 2 ^ (16 * Z.of_nat (hi `min` length parts)) ≤ 2 ^ (16 * Z.of_nat hi))
        by (apply Z.pow_le_mono_r; lia).
      replace (16 * Z.of_nat (8 - lo)) with (16 * Z.of_nat hi + 16 * Z.of_nat (8 - (hi + lo))) by lia.
      rewrite Z.pow_add_r by lia. assert (0 < 2 ^ (16 * Z.of_nat (8 - (hi + lo)))) by (apply Z.pow_pos_nonneg; lia).
      nia.
Qed.
Lemma v6_of_chars_range l n : v6_of_chars l = Some n → 0 ≤ n < 2 ^ 128.
Proof.
  unfold v6_of_chars. destruct (_ <? _)%nat; [done|]. destruct (existsb _ _).
  - intros (m & _ & H)%bind_Some. by apply v6_of_parts_range in H.
  - apply v6_of_parts_range.
Qed.
Lemma v6_of_text_sized l a : v6_of_text l = Some a → well_sized (ip_value a) ∧ ip_version (ip_value a) = 6.
Proof.
  unfold v6_of_text. destruct (partition_chars "%" l) as [[addr sep] scope].
  destruct (existsb _ l); [done|]. destruct (sep && _); [done|].
  intros (n & Hn & [= <-])%bind_Some. split; [by apply v6_of_chars_range in Hn|done].
Qed.
Lemma address_of_chars_sized l a : address_of_chars l = Some a → well_sized (ip_value a).
Proof.
  unfold address_of_chars. destruct (v4_of_chars l) as [n|] eqn:Hn.
  - intros [= <-]. by apply v4_of_chars_range in Hn.
  - intros H. by apply v6_of_text_sized in H as [? _].
Qed.
Lemma ip_address_sized s a : ip_address s = Ok a → well_sized (ip_value a).
Proof. intros H%of_option_ok. by apply address_of_chars_sized in H. Qed.

Lemma prefix_of_digits_range b l p : prefix_of_digits b l = Some p → 0 ≤ p ≤ b.
Proof.
  unfold prefix_of_digits. destruct (nonempty l); [|done]. destruct (forallb is_ascii_digit l) eqn:Hd; [|done].
  apply dec_value_nonneg in Hd. cbn [andb]. destruct (Z.leb_spec (dec_value l) b); [|done].
  intros [= <-]. lia.
Qed.
Lemma prefix_of_mask_range b m p : 0 ≤ b → prefix_of_mask b m = Some p → 0 ≤ p ≤ b.
Proof.
  intros Hb. unfold prefix_of_mask. destruct (List.find _ _) as [k|] eqn:Hk; [|done].
  intros [= <-]. apply find_some in Hk as [Hin _]. apply in_seq in Hin. lia.
Qed.
Lemma v4_prefix_range l p : v4_prefix l = Some p → 0 ≤ p ≤ 32.
Proof.
  unfold v4_prefix. destruct (prefix_of_digits 32 l) as [q|] eqn:Hq.
  - intros [= <-]. by apply prefix_of_digits_range in Hq.
  - intros (m & _ & H)%bind_Some. destruct (prefix_of_mask 32 m) as [r|] eqn:Hr.
    + injection H as <-. by apply prefix_of_mask_range in Hr.
    + by apply prefix_of_mask_range in H.
Qed.

Lemma net_with_valid strict a p n : well_sized (ip_value a) → 0 ≤ p ≤ max_prefixlen (ip_value a) →
  net_with strict a p = ANetwork n → valid_network n.
Proof.
  intros Ha Hp. unfold net_with. set (b := max_prefixlen (ip_value a)) in *.
  assert (Hw : 0 < 2 ^ (b - p)) by (apply Z.pow_pos_nonneg; lia).
  unfold well_sized in Ha. fold b in Ha. rewrite land_netmask by done.
  pose proof (Z.mod_pos_bound (ip_int (ip_value a)) _ Hw) as Hm.
  pose proof (Z.div_mod (ip_int (ip_value a)) (2 ^ (b - p))) as Hdm.
  destruct (Z.eqb_spec (ip_int (ip_value a) - ip_int (ip_value a) mod 2 ^ (b - p)) (ip_int (ip_value a))) as [He|Hne].
  - intros [= <-]. unfold valid_network; cbn. split; [done|]. split; [done|]. fold b.
    apply Z.mod_divide; lia.
  - destruct strict; [done|]. intros [= <-]. unfold valid_network; cbn.
    destruct (ip_value a) as [v|v]; subst b; cbn in *; unfold well_sized; cbn;
      (split; [pose proof (Z.div_pos v _ (proj1 Ha) Hw); lia|]); split; try done;
      [exists (v / 2 ^ (32 - p))|exists (v / 2 ^ (128 - p))]; lia.
Qed.
Lemma ip_network_valid s strict n : ip_network s strict = Ok n → valid_network n.
Proof.
  unfold ip_network.
  assert (H4 : ∀ l n, v4_network strict l = ANetwork n → valid_network n).
  { clear. intros l n. unfold v4_network. case_match eqn:Hr; [|done]. destruct p as [v p].
    apply net_with_valid; cbn.
    - destruct (split_chars "/" l) as [|a [|q []]]; try done;
        apply bind_Some in Hr as (m & Hm & Hr); [|apply bind_Some in Hr as (q' & _ & Hr)];
        injection Hr as <- <-; by apply v4_of_chars_range in Hm.
    - destruct (split_chars "/" l) as [|a [|q []]]; try done;
        apply bind_Some in Hr as (m & Hm & Hr); [|apply bind_Some in Hr as (q' & Hq & Hr)];
        injection Hr as <- <-; [lia|by apply v4_prefix_range in Hq]. }
  assert (H6 : ∀ l n, v6_network strict l = ANetwork n → valid_network n).
  { clear. intros l n. unfold v6_network. case_match eqn:Hr; [|done]. destruct p as [a p].
    assert (well_sized (ip_value a) ∧ ip_version (ip_value a) = 6 ∧ 0 ≤ p ≤ 128) as (Hs & Hv & Hp).
    { destruct (split_chars "/" l) as [|x [|q []]]; try done;
        apply bind_Some in Hr as (m & Hm & Hr); [|apply bind_Some in Hr as (q' & Hq & Hr)];
        injection Hr as <- <-; apply v6_of_text_sized in Hm as [? ?];
        (split; [done|split; [done|]]); [lia|by apply prefix_of_digits_range in Hq]. }
    apply net_with_valid; [done|]. by destruct (ip_value a). }
  destruct (v4_network strict (chars s)) eqn:E4; [|done|intros [= <-]; by eapply H4].
  destruct (v6_network strict (chars s)) eqn:E6; [done|done|intros [= <-]; by eapply H6].
Qed.
