(* ===== verification/Numbers.v ===== *)
(** * [int] and [str] of integers

    [int(s)] as Python reads a text, and that it reads back what [str] wrote. *)

From S2P Require Import Prelude PyStr IPAddr.
#[local] Open Scope Z_scope.

(** [int(s)] for a text: surrounding blanks, a sign, digits that single
    underscores may group. *)
Definition py_int (s : string) : Outcome Z :=
  let l := strip_chars (chars s) in
  let '(sign, body) := match l with
    | c :: r => if bool_decide (c = "-"%char) then (-1, r) else if bool_decide (c = "+"%char) then (1, r) else (1, l)
    | [] => (1, []) end in
  let groups := split_chars "_" body in
  _ ← raise_if (negb (forallb (λ g, nonempty g && forallb is_ascii_digit g) groups))
        (ValueError ("invalid literal for int() with base 10: " +:+ py_repr s));
  _ ← raise_if (4300 <? Z.of_nat (length (concat groups))) (ValueError "Exceeds the limit (4300 digits) for integer string conversion");
  mret (sign * dec_value (concat groups)).
Example integers_read : map py_int [" 7 "; "-12"; "1_000"] = [Ok 7; Ok (-12); Ok 1000] ∧
  forallb (λ s, negb (is_ok (py_int s))) [""; "-"; "1__0"; "0x1"; "2.0"; "_1"] = true.
Proof. split; vm_compute; reflexivity. Qed.

(** ** Decimal digits *)
Lemma dec_value_snoc l c : dec_value (l ++ [c]) = dec_value l * 10 + (Z.of_N (code c) - 48).
Proof. unfold dec_value. by rewrite fold_left_app. Qed.
Lemma digit_char x : (x < 10)%N → is_ascii_digit (pretty_N_char x) = true ∧ Z.of_N (code (pretty_N_char x)) - 48 = Z.of_N x.
Proof.
  intros Hx. assert (x = 0 ∨ x = 1 ∨ x = 2 ∨ x = 3 ∨ x = 4 ∨ x = 5 ∨ x = 6 ∨ x = 7 ∨ x = 8 ∨ x = 9)%N as H by lia.
  destruct_or! H; subst x; split; vm_compute; reflexivity.
Qed.
(** The digits of a positive number: its value, and no more than it needs. *)
Lemma decimal_digits x s : (0 < x)%N → ∃ ds, chars (pretty_N_go x s) = ds ++ chars s ∧ forallb is_ascii_digit ds = true ∧
  dec_value ds = Z.of_N x ∧ ds ≠ [] ∧ 10 ^ (Z.of_nat (length ds) - 1) ≤ Z.of_N x.
Proof.
  revert s. induction (N.lt_wf_0 x) as [x _ IH]. intros s Hx. rewrite pretty_N_go_step by done.
  destruct (digit_char (x `mod` 10)) as [Hd Hv]; [by apply N.mod_lt|]. pose proof (N.div_mod x 10 ltac:(done)) as Hdm.
  destruct (decide (x < 10)%N) as [Hlt|Hge].
  - rewrite N.div_small, pretty_N_go_0 by done. rewrite N.mod_small in * by done. exists [pretty_N_char x].
    split_and!; [done|cbn; by rewrite Hd|unfold dec_value; cbn [fold_left]; lia|done|cbn; lia].
  - destruct (IH (x `div` 10)%N) with (String (pretty_N_char (x `mod` 10)) s) as (ds & H1 & H2 & H3 & H4 & H5);
      [by apply N.div_lt|apply N.div_str_pos; lia|].
    exists (ds ++ [pretty_N_char (x `mod` 10)]). split_and!.
    + rewrite H1, <- app_assoc. done.
    + by rewrite forallb_app, H2; cbn; rewrite Hd.
    + rewrite dec_value_snoc, H3. lia.
    + by destruct ds.
    + rewrite length_app. cbn [length]. replace (Z.of_nat (length ds + 1) - 1) with (Z.succ (Z.of_nat (length ds) - 1)) by lia.
      destruct ds as [|c ds]; [done|]. cbn [length] in *. rewrite Z.pow_succ_r by lia.
      apply (f_equal Z.of_N) in Hdm. rewrite N2Z.inj_add, N2Z.inj_mul in Hdm.
      generalize dependent (x `div` 10)%N. generalize dependent (x `mod` 10)%N. intros. lia.
Qed.
Lemma digit_plain c : is_ascii_digit c = true → is_space c = false ∧ c ≠ "-"%char ∧ c ≠ "+"%char ∧ c ≠ "_"%char.
Proof. destruct c as [[] [] [] [] [] [] [] []]; vm_compute; intros H; try discriminate H; by split_and!. Qed.
Lemma digits_strip l : forallb is_ascii_digit l = true → strip_chars l = l.
Proof.
  assert (H : ∀ l, forallb is_ascii_digit l = true → drop_while is_space l = l).
  { intros [|c k] Hl; [done|]. cbn in Hl. apply andb_true_iff in Hl as [Hc _]. cbn. by rewrite (proj1 (digit_plain c Hc)). }
  intros Hl. unfold strip_chars. rewrite (H l) by done.
  rewrite H; [by rewrite rev_involutive|].
  rewrite forallb_forall in *. intros c Hc. by apply Hl, in_rev.
Qed.
Lemma py_int_digits l : forallb is_ascii_digit l = true → l ≠ [] → Z.of_nat (length l) ≤ 4300 → py_int (of_chars l) = Ok (dec_value l).
Proof.
  intros Hd Hne Hlen. unfold py_int. rewrite chars_of_chars, digits_strip by done.
  assert (Hsplit : split_chars "_" l = [l]).
  { apply split_no_sep. intros Hin. rewrite forallb_forall in Hd. by destruct (digit_plain "_"%char (Hd _ (proj1 (list_elem_of_In _ _) Hin))) as (_ & _ & _ & H). }
  destruct l as [|c l]; [done|]. cbn [forallb] in Hd. pose proof Hd as Hd'. apply andb_true_iff in Hd' as [Hc _].
  destruct (digit_plain c Hc) as (_ & Hm & Hp & _). rewrite !bool_decide_eq_false_2 by done. rewrite Hsplit.
  cbn [forallb concat nonempty andb]. rewrite app_nil_r. cbn [forallb] in *. rewrite Hd. cbn [negb].
  rewrite (proj2 (Z.ltb_ge _ _)) by done. change (Ok (1 * dec_value (c :: l)) = Ok (dec_value (c :: l))). by rewrite Z.mul_1_l.
Qed.
(** The texts of row ids read back. *)
Lemma py_int_str n : 0 ≤ n < 10 ^ 4299 → py_int (str_of_Z n) = Ok n ∧ str_of_Z n ≠ "".
Proof.
  intros [Hn Hmax]. destruct (decide (n = 0)) as [->|Hne]; [split; vm_compute; [reflexivity|discriminate]|].
  destruct n as [|n|n]; [done| |done]. clear Hne Hn. unfold str_of_Z, pretty, pretty_Z, pretty, pretty_positive, pretty, pretty_N.
  rewrite decide_False by done. destruct (decimal_digits (N.pos n) "") as (ds & H1 & H2 & H3 & H4 & H5); [done|].
  rewrite app_nil_r in H1. assert (Hs : pretty_N_go (N.pos n) "" = of_chars ds) by (by rewrite <- H1, of_chars_chars).
  rewrite Hs. split.
  - rewrite py_int_digits, H3; try done.
    assert (Hl : Z.of_nat (length ds) - 1 < 4299); [|lia].
    apply (Z.pow_lt_mono_r_iff 10); [done|done|]. cbn [Z.of_N] in H5. lia.
  - intros He. apply H4. by rewrite <- (chars_of_chars ds), He.
Qed.
