(* ===== verification/IPKinds.v ===== *)
(** * What kind of address: the classifying properties of [ipaddress]

    [is_loopback], [is_link_local], [is_multicast], [is_unspecified] and
    [is_private] with the network tables of the module, [ipv4_mapped] and
    [sixtofour].  An IPv6 address that maps an IPv4 one answers for it. *)

From S2P Require Import Prelude PyStr IPAddr.
#[local] Open Scope Z_scope.

(** [IPv4Network(s)], [IPv6Network(s)] for the constants of the module. *)
Definition net_of (s : string) : IPNetwork :=
  match ip_network s true with Ok n => n | Raise _ => mkIPNetwork (mkIPAddress (V4 0) None) 32 end.
Definition v4_loopback : IPNetwork := Eval vm_compute in net_of "127.0.0.0/8".
Definition v4_link_local : IPNetwork := Eval vm_compute in net_of "169.254.0.0/16".
Definition v4_multicast : IPNetwork := Eval vm_compute in net_of "224.0.0.0/4".
Definition v6_link_local : IPNetwork := Eval vm_compute in net_of "fe80::/10".
Definition v6_multicast : IPNetwork := Eval vm_compute in net_of "ff00::/8".
Definition v4_private : list IPNetwork := Eval vm_compute in map net_of
  ["0.0.0.0/8"; "10.0.0.0/8"; "127.0.0.0/8"; "169.254.0.0/16"; "172.16.0.0/12"; "192.0.0.0/24"; "192.0.0.170/31";
   "192.0.2.0/24"; "192.168.0.0/16"; "198.18.0.0/15"; "198.51.100.0/24"; "203.0.113.0/24"; "240.0.0.0/4"; "255.255.255.255/32"].
Definition v4_private_exceptions : list IPNetwork := Eval vm_compute in map net_of ["192.0.0.9/32"; "192.0.0.10/32"].
Definition v6_private : list IPNetwork := Eval vm_compute in map net_of
  ["::1/128"; "::/128"; "::ffff:0:0/96"; "64:ff9b:1::/48"; "100::/64"; "2001::/23"; "2001:db8::/32"; "2002::/16"; "3fff::/20";
   "fc00::/7"; "fe80::/10"].
Definition v6_private_exceptions : list IPNetwork := Eval vm_compute in map net_of
  ["2001:1::1/128"; "2001:1::2/128"; "2001:3::/32"; "2001:4:112::/48"; "2001:20::/28"; "2001:30::/28"].

Definition low32 (n : Z) : Z := Z.land n (2 ^ 32 - 1).
(** [ipv4_mapped], [sixtofour] *)
Definition ipv4_mapped (n : Z) : option Z := if Z.shiftr n 32 =? 65535 then Some (low32 n) else None.
Definition sixtofour (n : Z) : option Z := if Z.shiftr n 112 =? 8194 then Some (low32 (Z.shiftr n 80)) else None.

Definition through_mapped (a : IP) (v4 : Z → bool) (v6 : Z → bool) : bool :=
  match a with
  | V4 n => v4 n
  | V6 n => match ipv4_mapped n with Some m => v4 m | None => v6 n end
  end.
Definition is_loopback (a : IP) : bool := through_mapped a (λ n, in_network (V4 n) v4_loopback) (λ n, n =? 1).
Definition is_link_local (a : IP) : bool :=
  through_mapped a (λ n, in_network (V4 n) v4_link_local) (λ n, in_network (V6 n) v6_link_local).
Definition is_multicast (a : IP) : bool :=
  through_mapped a (λ n, in_network (V4 n) v4_multicast) (λ n, in_network (V6 n) v6_multicast).
Definition is_unspecified (a : IP) : bool := through_mapped a (λ n, n =? 0) (λ n, n =? 0).
Definition in_any (a : IP) (l : list IPNetwork) : bool := existsb (in_network a) l.
Definition is_private (a : IP) : bool :=
  through_mapped a (λ n, in_any (V4 n) v4_private && negb (in_any (V4 n) v4_private_exceptions))
    (λ n, in_any (V6 n) v6_private && negb (in_any (V6 n) v6_private_exceptions)).

(** ** The classes as intervals *)
Lemma constants_valid : Forall valid_network [v4_loopback; v4_link_local; v4_multicast; v6_link_local; v6_multicast].
Proof.
  repeat constructor; cbn; try lia;
    match goal with |- (?d | ?n) => exists (n / d); vm_compute; reflexivity end.
Qed.
Lemma v4_block n p b : valid_network (mkIPNetwork (mkIPAddress (V4 b) None) p) → 0 ≤ n < 2 ^ 32 →
  in_network (V4 n) (mkIPNetwork (mkIPAddress (V4 b) None) p) = true ↔ b ≤ n < b + 2 ^ (32 - p).
Proof. intros Hv Hn. rewrite in_network_block by done. cbn. naive_solver. Qed.
Lemma v6_block n p b : valid_network (mkIPNetwork (mkIPAddress (V6 b) None) p) → 0 ≤ n < 2 ^ 128 →
  in_network (V6 n) (mkIPNetwork (mkIPAddress (V6 b) None) p) = true ↔ b ≤ n < b + 2 ^ (128 - p).
Proof. intros Hv Hn. rewrite in_network_block by done. cbn. naive_solver. Qed.

Lemma low32_mod n : low32 n = n mod 2 ^ 32.
Proof. unfold low32. rewrite <- Z.land_ones by lia. by rewrite Z.ones_equiv. Qed.
Lemma low32_range n : 0 ≤ low32 n < 2 ^ 32.
Proof. rewrite low32_mod. apply Z.mod_pos_bound. lia. Qed.
Lemma ipv4_mapped_iff n m : 0 ≤ n → ipv4_mapped n = Some m ↔ 0 ≤ m < 2 ^ 32 ∧ n = 65535 * 2 ^ 32 + m.
Proof.
  intros Hn. unfold ipv4_mapped. rewrite low32_mod, Z.shiftr_div_pow2 by lia.
  pose proof (Z.div_mod n (2 ^ 32)). pose proof (Z.mod_pos_bound n (2 ^ 32)).
  destruct (Z.eqb_spec (n / 2 ^ 32) 65535).
  - split; [intros [= <-]; lia|]. intros [Hm ->]. f_equal. rewrite Z.add_comm, Z.mod_add by lia. by apply Z.mod_small.
  - split; [done|]. intros [Hm Heq]. destruct n0. symmetry. apply Z.div_unique_pos with m; lia.
Qed.
Lemma sixtofour_iff n m : 0 ≤ n → sixtofour n = Some m ↔
  0 ≤ m < 2 ^ 32 ∧ ∃ r, 0 ≤ r < 2 ^ 80 ∧ n = 8194 * 2 ^ 112 + m * 2 ^ 80 + r.
Proof.
  intros Hn. unfold sixtofour. rewrite low32_mod, !Z.shiftr_div_pow2 by lia.
  replace (2 ^ 112) with (2 ^ 80 * 2 ^ 32) by lia. rewrite <- Zdiv.Zdiv_Zdiv by lia. set (k := n / 2 ^ 80).
  pose proof (Z.div_mod n (2 ^ 80) ltac:(lia)) as H. pose proof (Z.mod_pos_bound n (2 ^ 80)).
  pose proof (Z.div_mod k (2 ^ 32) ltac:(lia)) as H1. pose proof (Z.mod_pos_bound k (2 ^ 32)). fold k in H.
  destruct (Z.eqb_spec (k / 2 ^ 32) 8194) as [He|Hne].
  - split.
    + intros [= <-]. split; [lia|]. exists (n mod 2 ^ 80). split; [lia|]. rewrite He in H1. rewrite H, H1 at 1. ring.
    + intros [Hm (r & Hr & Heq)]. f_equal.
      assert (Hk : k = 8194 * 2 ^ 32 + m) by (symmetry; apply Z.div_unique_pos with r; lia).
      rewrite Hk, Z.add_comm, Z.mod_add by lia. by apply Z.mod_small.
  - split; [done|]. intros [Hm (r & Hr & Heq)]. destruct Hne.
    assert (Hk : k = 8194 * 2 ^ 32 + m) by (symmetry; apply Z.div_unique_pos with r; lia).
    symmetry. apply Z.div_unique_pos with m; lia.
Qed.
