(* ===== verification/Net.v ===== *)
(** * The network, as one validation attempt sees it

    What a name resolves to, what a server answers and what the clock shows
    are not the program's to know: they are a [World], any functions of what
    has happened so far.  A computation of [Net] asks the world and keeps the
    history of what it asked and was told, newest first; the theorems about
    the validators are about every world, and about the history they leave.

    [World] stands for [socket.getaddrinfo], [time.monotonic], the httpx2
    client, dnspython and the [ssl] module.  Times are in nanoseconds. *)

From S2P Require Import Prelude PyStr.
#[local] Open Scope Z_scope.

(** [targets.Endpoint]: where the socket goes, and the name it is opened for. *)
Record Endpoint := mkEndpoint { host : string; address : string; ep_port : Z }.

(** ** What can be asked, and the answers *)
Record HttpRequest := mkHttpRequest {
  req_endpoint : Endpoint; req_url : string; req_host : string; req_sni : option string; req_timeout : Z }.
Inductive HttpAnswer :=
  | HttpStatus (status : Z) (loc : string)  (* the head of a response; no Location is the empty one *)
  | HttpTimeout                             (* [httpx2.TimeoutException] *)
  | HttpFailed (cls : string)               (* another [httpx2.HTTPError], by its class *)
  | HttpRaised (e : Exc).                   (* anything else *)
(** [iter_bytes] yields non-empty chunks. *)
Inductive BodyAnswer :=
  | Chunk (c : ascii) (s : string) | EndOfBody | BodyTimeout | BodyFailed (cls : string) | BodyRaised (e : Exc).
Inductive TxtAnswer :=
  | TxtRecords (records : list string) | NXDOMAIN | NoAnswer | DnsTimeout | DnsFailed (cls : string) | DnsRaised (e : Exc).
(** An [OSError] that is neither of the two others is known by its class. *)
Inductive SocketAnswer (A : Type) :=
  | SocketOk (a : A) | SSLFailed (cls : string) | SocketTimeout | OSFailed (cls : string) | SocketRaised (e : Exc).
Arguments SocketOk {_} _.
Arguments SSLFailed {_} _.
Arguments SocketTimeout {_}.
Arguments OSFailed {_} _.
Arguments SocketRaised {_} _.
(** The negotiated protocol and the peer's certificate. *)
Record Handshake := mkHandshake { selected_alpn : option string; peer_der : option string }.

Inductive Event :=
  | EClock (t : Z)
  | ELookup (name : string) (answer : Outcome (option (list string)))
  | EGet (r : HttpRequest) (answer : HttpAnswer)
  | EBody (answer : BodyAnswer)
  | ETxt (name : string) (resolvers : list string) (timeout : Z) (answer : TxtAnswer)
  | EConnect (e : Endpoint) (timeout : Z) (answer : SocketAnswer unit)
  | EHandshake (sni : option string) (timeout : Z) (answer : SocketAnswer Handshake).
Definition History : Type := list Event.

(** [w_lookup]: [None] for [socket.gaierror]. *)
Class World := {
  w_monotonic : History → Z;
  w_lookup : History → string → Outcome (option (list string));
  w_get : History → HttpRequest → HttpAnswer;
  w_body : History → BodyAnswer;
  w_txt : History → string → list string → Z → TxtAnswer;
  w_connect : History → Endpoint → Z → SocketAnswer unit;
  w_handshake : History → option string → Z → SocketAnswer Handshake;
  (** [str(httpx2.URL(url).join(location))] *)
  url_join : string → string → Outcome string }.

(** ** Computations *)
Definition Net (A : Type) : Type := History → Outcome A * History.
#[export] Instance Net_ret : MRet Net := λ A a h, (Ok a, h).
#[export] Instance Net_bind : MBind Net := λ A B f m h,
  match m h with (Ok a, h) => f a h | (Raise e, h) => (Raise e, h) end.
#[export] Instance Net_throw : MThrow Exc Net := λ A e h, (Raise e, h).
Definition pure {A} (m : Outcome A) : Net A := λ h, (m, h).
Definition ask {A} (answer : History → A) (event : A → Event) : Net A :=
  λ h, let a := answer h in (Ok a, event a :: h).

Section net.
Context {W : World}.
Definition monotonic : Net Z := ask w_monotonic EClock.
Definition getaddrinfo (name : string) : Net (option (list string)) :=
  a ← ask (λ h, w_lookup h name) (ELookup name); pure a.
Definition http_get (r : HttpRequest) : Net HttpAnswer := ask (λ h, w_get h r) (EGet r).
Definition next_chunk : Net BodyAnswer := ask w_body EBody.
Definition txt_query (name : string) (resolvers : list string) (timeout : Z) : Net TxtAnswer :=
  ask (λ h, w_txt h name resolvers timeout) (ETxt name resolvers timeout).
Definition tcp_connect (e : Endpoint) (timeout : Z) : Net (SocketAnswer unit) :=
  ask (λ h, w_connect h e timeout) (EConnect e timeout).
Definition tls_handshake (sni : option string) (timeout : Z) : Net (SocketAnswer Handshake) :=
  ask (λ h, w_handshake h sni timeout) (EHandshake sni timeout).
End net.

(** ** Reasoning about a run *)
Definition run_net {A} (m : Net A) : Outcome A * History := m [].
Definition net_wp {A} (m : Net A) (h : History) (Q : Outcome A → History → Prop) : Prop := let '(r, h') := m h in Q r h'.
Lemma net_wp_run {A} (m : Net A) h r h' (Q : Outcome A → History → Prop) : m h = (r, h') → net_wp m h Q → Q r h'.
Proof. unfold net_wp. by intros ->. Qed.
Lemma run_net_wp {A} (m : Net A) h (Q : Outcome A → History → Prop) : (∀ r h', m h = (r, h') → Q r h') → net_wp m h Q.
Proof. unfold net_wp. destruct (m h). auto. Qed.
Lemma net_wp_bind {A B} (m : Net A) (f : A → Net B) h Q :
  net_wp m h (λ r h', match r with Ok a => net_wp (f a) h' Q | Raise e => Q (Raise e) h' end) → net_wp (m ≫= f) h Q.
Proof. unfold net_wp, mbind, Net_bind. by destruct (m h) as [[a|e] h']. Qed.
Lemma net_wp_mono {A} (m : Net A) h (Q Q' : Outcome A → History → Prop) :
  net_wp m h Q → (∀ r h', Q r h' → Q' r h') → net_wp m h Q'.
Proof. unfold net_wp. destruct (m h). auto. Qed.
Lemma net_wp_ret {A} (a : A) h (Q : Outcome A → History → Prop) : Q (Ok a) h → net_wp (mret a) h Q.
Proof. done. Qed.
Lemma net_wp_throw {A} (e : Exc) h (Q : Outcome A → History → Prop) : Q (Raise e) h → net_wp (mthrow e) h Q.
Proof. done. Qed.
Lemma net_wp_pure {A} (m : Outcome A) h (Q : Outcome A → History → Prop) :
  (∀ a, m = Ok a → Q (Ok a) h) → (∀ e, m = Raise e → Q (Raise e) h) → net_wp (pure m) h Q.
Proof. unfold net_wp, pure. destruct m; auto. Qed.
Lemma net_wp_ask {A} (answer : History → A) event h (Q : Outcome A → History → Prop) :
  (∀ a, answer h = a → Q (Ok a) (event a :: h)) → net_wp (ask answer event) h Q.
Proof. intros H. by apply H. Qed.
Lemma net_wp_raise_if (b : bool) (e : Exc) h (Q : Outcome unit → History → Prop) :
  (b = true → Q (Raise e) h) → (b = false → Q (Ok ()) h) → net_wp (raise_if b e) h Q.
Proof. unfold net_wp. destruct b; cbn; auto. Qed.

(** A run that only ever does what [P] allows, and returns what [R] says. *)
Definition only {A} (P : Event → Prop) (m : Net A) (R : A → Prop) : Prop :=
  ∀ h, Forall P h → Forall P (m h).2 ∧ ∀ a, (m h).1 = Ok a → R a.
Lemma only_bind {A B} P (m : Net A) (f : A → Net B) (R : A → Prop) (R' : B → Prop) :
  only P m R → (∀ a, R a → only P (f a) R') → only P (m ≫= f) R'.
Proof.
  intros Hm Hf h Hh. destruct (Hm h Hh) as [Hh' Hr]. unfold mbind, Net_bind.
  destruct (m h) as [[a|e] h']; [by apply Hf; [apply Hr|]|done].
Qed.
Lemma only_mono {A} P (m : Net A) (R R' : A → Prop) : (∀ a, R a → R' a) → only P m R → only P m R'.
Proof. intros HR Hm h Hh. destruct (Hm h Hh). split; [done|]. intros a Ha. by apply HR; auto. Qed.
Lemma only_ret {A} P (a : A) (R : A → Prop) : R a → only P (mret a) R.
Proof. intros HR h Hh. split; [done|]. by intros b [= <-]. Qed.
Lemma only_throw {A} P (e : Exc) (R : A → Prop) : only P (mthrow e) R.
Proof. by intros h. Qed.
Lemma only_pure {A} P (m : Outcome A) : only P (pure m) (λ a, m = Ok a).
Proof. by intros h. Qed.
Lemma only_raise_if P (b : bool) (e : Exc) : only P (raise_if b e : Net unit) (λ _, b = false).
Proof. destruct b; [apply only_throw|by apply only_ret]. Qed.
Lemma only_ask {A} (P : Event → Prop) (answer : History → A) event : (∀ a, P (event a)) → only P (ask answer event) (λ _, True).
Proof. intros HP h Hh. split; [by constructor|done]. Qed.

Create HintDb net.
#[export] Hint Resolve only_ret only_throw only_pure only_raise_if : net.

(** How often a run does something. *)
Definition times (p : Event → bool) (h : History) : nat := length (List.filter p h).
Definition at_most {A} (p : Event → bool) (n : nat) (m : Net A) : Prop := ∀ h, (times p (m h).2 ≤ times p h + n)%nat.
Lemma at_most_bind {A B} p n k (m : Net A) (f : A → Net B) :
  at_most p n m → (∀ a, at_most p k (f a)) → at_most p (n + k) (m ≫= f).
Proof.
  intros Hm Hf h. specialize (Hm h). unfold mbind, Net_bind.
  destruct (m h) as [[a|e] h']; [specialize (Hf a h')|]; cbn [snd] in *; lia.
Qed.
Lemma at_most_ret {A} p (a : A) : at_most p 0 (mret a).
Proof. intros h. change (times p h ≤ times p h + 0)%nat. lia. Qed.
Lemma at_most_throw {A} p (e : Exc) : at_most p 0 (mthrow e : Net A).
Proof. intros h. change (times p h ≤ times p h + 0)%nat. lia. Qed.
Lemma at_most_pure {A} p (m : Outcome A) : at_most p 0 (pure m).
Proof. intros h. change (times p h ≤ times p h + 0)%nat. lia. Qed.
Lemma at_most_raise_if p (b : bool) (e : Exc) : at_most p 0 (raise_if b e : Net unit).
Proof. destruct b; [apply at_most_throw|apply at_most_ret]. Qed.
Lemma at_most_ask0 {A} p (answer : History → A) event : (∀ a, p (event a) = false) → at_most p 0 (ask answer event).
Proof. intros Hp h. unfold times, ask. cbn [snd List.filter]. rewrite Hp. lia. Qed.
Lemma at_most_ask1 {A} p (answer : History → A) event : at_most p 1 (ask answer event).
Proof. intros h. unfold times, ask. cbn [snd List.filter]. destruct (p _); cbn [length]; lia. Qed.
Lemma at_most_weaken {A} p n k (m : Net A) : (n ≤ k)%nat → at_most p n m → at_most p k m.
Proof. intros Hn Hm h. specialize (Hm h). lia. Qed.
#[export] Hint Resolve at_most_ret at_most_throw at_most_pure at_most_raise_if : net.

(** A run after which [I] holds of the history if it held before. *)
Definition maintains {A} (I : History → Prop) (m : Net A) : Prop := ∀ h, I h → I (m h).2.
Lemma maintains_bind {A B} I (m : Net A) (f : A → Net B) : maintains I m → (∀ a, maintains I (f a)) → maintains I (m ≫= f).
Proof.
  intros Hm Hf h Hh. specialize (Hm h Hh). unfold mbind, Net_bind. destruct (m h) as [[a|e] h1]; [|done]. by apply Hf.
Qed.
Lemma maintains_ret {A} I (a : A) : maintains I (mret a).
Proof. by intros h. Qed.
Lemma maintains_throw {A} I (e : Exc) : maintains I (mthrow e : Net A).
Proof. by intros h. Qed.
Lemma maintains_pure {A} I (m : Outcome A) : maintains I (pure m).
Proof. by intros h. Qed.
Lemma maintains_raise_if I (b : bool) (e : Exc) : maintains I (raise_if b e : Net unit).
Proof. by destruct b; intros h. Qed.
Lemma maintains_ask {A} (I : History → Prop) (answer : History → A) event : (∀ a h, I h → I (event a :: h)) → maintains I (ask answer event).
Proof. intros HI h. apply HI. Qed.
Ltac net_maintains := repeat first
  [ assumption | solve [auto 2 with net nocore] | apply maintains_ret | apply maintains_throw | apply maintains_pure | apply maintains_raise_if
  | apply maintains_ask; intros ? ? ?; assumption
  | apply maintains_bind; [|intros ?]
  | match goal with |- maintains _ (match ?x with _ => _ end) => destruct x end ].

(** A run only adds to the history. *)
Definition grows {A} (m : Net A) : Prop := ∀ h, h `suffix_of` (m h).2.
Lemma grows_bind {A B} (m : Net A) (f : A → Net B) : grows m → (∀ a, grows (f a)) → grows (m ≫= f).
Proof.
  intros Hm Hf h. specialize (Hm h). unfold mbind, Net_bind. destruct (m h) as [[a|e] h1]; [|done].
  etransitivity; [exact Hm|apply Hf].
Qed.
Lemma grows_ret {A} (a : A) : grows (mret a).
Proof. intros h. apply (reflexivity (R := suffix) h). Qed.
Lemma grows_throw {A} (e : Exc) : grows (mthrow e : Net A).
Proof. intros h. apply (reflexivity (R := suffix) h). Qed.
Lemma grows_pure {A} (m : Outcome A) : grows (pure m).
Proof. intros h. apply (reflexivity (R := suffix) h). Qed.
Lemma grows_raise_if (b : bool) (e : Exc) : grows (raise_if b e : Net unit).
Proof. destruct b; [apply grows_throw|apply grows_ret]. Qed.
Lemma grows_ask {A} (answer : History → A) event : grows (ask answer event).
Proof. intros h. by exists [event (answer h)]. Qed.
Ltac net_grows := repeat first
  [ assumption | solve [auto 2 with net nocore] | apply grows_ret | apply grows_throw | apply grows_pure | apply grows_raise_if | apply grows_ask
  | apply grows_bind; [|intros ?]
  | match goal with |- grows (match ?x with _ => _ end) => destruct x end ].
