(* ===== verification/X509Lib.v ===== *)
(** * The X.509 library as the program uses it

    cabin builds, signs, parses and verifies certificates with the
    [cryptography] package.  Its code is not part of the repository, so it is
    an interface here: the class [X509Lib], with the laws the program relies
    on, all of them documented behaviour of the package.  What a certificate
    says is concrete data (a [TBS]); what remains abstract is keys,
    signatures, the PEM encoding and the argument checks of the package's
    constructors.

    [Toy] is an instance in which a signature is a copy of the signer's key;
    the concrete checks of the later files evaluate in it. *)

From S2P Require Import Prelude PyStr PyTime IPAddr.
#[local] Open Scope Z_scope.

(** ** Names *)
Inductive AttrValue := AText (s : string) | ABytes (s : string).
#[export] Instance AttrValue_eq_dec : EqDecision AttrValue.
Proof. solve_decision. Defined.
(** [attr_tag] is the ASN.1 string type: part of the DER form, invisible to
    Python's [==]. *)
Record NameAttribute := mkNameAttribute { attr_oid : string; attr_tag : Z; attr_value : AttrValue }.
#[export] Instance NameAttribute_eq_dec : EqDecision NameAttribute.
Proof. solve_decision. Defined.
(** A list of relative distinguished names, each a set of attributes in DER
    order: Leibniz equality is equality of the encodings
    ([name.public_bytes()]). *)
Definition Name := list (list NameAttribute).

Definition COMMON_NAME : string := "2.5.4.3".
Definition utf8_string_tag : Z := 12.
Definition cn_attribute (cn : string) : NameAttribute :=
  mkNameAttribute COMMON_NAME utf8_string_tag (AText cn).
(** [name.get_attributes_for_oid(oid)] *)
Definition attributes_for (oid : string) (n : Name) : list AttrValue :=
  map attr_value (filter (λ a, attr_oid a = oid) (concat n)).
(** Python's [==] on names: the tags do not count, nor the order inside a
    relative name. *)
Definition attr_py_eq (a b : NameAttribute) : bool :=
  bool_decide (attr_oid a = attr_oid b) && bool_decide (attr_value a = attr_value b).
Definition rdn_py_eq (r r' : list NameAttribute) : bool :=
  forallb (λ a, existsb (attr_py_eq a) r') r && forallb (λ a, existsb (attr_py_eq a) r) r'.
Fixpoint name_py_eq (n n' : Name) : bool :=
  match n, n' with
  | [], [] => true
  | r :: n, r' :: n' => rdn_py_eq r r' && name_py_eq n n'
  | _, _ => false
  end.

(** ** Extensions *)
Inductive GeneralName :=
  | DNSName (value : string)
  | IPAddressName (value : IP)
  | IPNetworkName (value : IPNetwork)
  | RFC822Name (value : string)
  | OtherName (type : string) (der : string).
#[export] Instance GeneralName_eq_dec : EqDecision GeneralName.
Proof. solve_decision. Defined.

Record KeyUsage := mkKeyUsage {
  digital_signature : bool; content_commitment : bool; key_encipherment : bool;
  data_encipherment : bool; key_agreement : bool; key_cert_sign : bool; crl_sign : bool;
  encipher_only : bool; decipher_only : bool }.
#[export] Instance KeyUsage_eq_dec : EqDecision KeyUsage.
Proof. solve_decision. Defined.

Inductive ExtValue :=
  | BasicConstraints (ca : bool) (path_length : option Z)
  | KeyUsageExt (usage : KeyUsage)
  | ExtendedKeyUsage (usages : list string)
  | SubjectKeyIdentifier (digest : string)
  | AuthorityKeyIdentifier (key_identifier : option string)
  | SubjectAlternativeName (names : list GeneralName)
  | NameConstraints (permitted excluded : option (list GeneralName))
  | CRLDistributionPoints (full_names : list string)
  | AuthorityInformationAccess (ca_issuers : list string)
  | OtherExtension (oid : string) (der : string).
#[export] Instance ExtValue_eq_dec : EqDecision ExtValue.
Proof. solve_decision. Defined.
Record Extension := mkExtension { ext_value : ExtValue; critical : bool }.
#[export] Instance Extension_eq_dec : EqDecision Extension.
Proof. solve_decision. Defined.

(** ** Keys and certificates *)
Inductive KeyAlg := RSA (bits : Z) | EC (curve : string) | Ed25519 | OtherKey (type_name : string).
#[export] Instance KeyAlg_eq_dec : EqDecision KeyAlg.
Proof. solve_decision. Defined.
Inductive Hash := SHA256 | SHA384.
#[export] Instance Hash_eq_dec : EqDecision Hash.
Proof. solve_decision. Defined.

(** What a certificate states.  [extensions] raises for a certificate whose
    extension block does not parse. *)
Record TBS (PubKey : Type) := mkTBS {
  subject : Name; issuer : Name; subject_key : PubKey; serial_number : Z;
  not_before : Z; not_after : Z; extensions : Outcome (list Extension) }.
Arguments mkTBS {_} _ _ _ _ _ _ _.
Arguments subject {_} _.
Arguments issuer {_} _.
Arguments subject_key {_} _.
Arguments serial_number {_} _.
Arguments not_before {_} _.
Arguments not_after {_} _.
Arguments extensions {_} _.
#[export] Instance TBS_eq_dec {PubKey} `{EqDecision PubKey} : EqDecision (TBS PubKey).
Proof. solve_decision. Defined.

(** X.509 times have a resolution of one second: the encoder drops the
    microseconds. *)
Definition der_times {PubKey} (t : TBS PubKey) : TBS PubKey :=
  mkTBS (subject t) (issuer t) (subject_key t) (serial_number t)
    (floor_second (not_before t)) (floor_second (not_after t)) (extensions t).

Record CsrInfo (PubKey : Type) := mkCsr {
  csr_subject : Name; csr_key : PubKey; csr_extensions : Outcome (list Extension);
  is_signature_valid : bool }.
Arguments mkCsr {_} _ _ _ _.
Arguments csr_subject {_} _.
Arguments csr_key {_} _.
Arguments csr_extensions {_} _.
Arguments is_signature_valid {_} _.

(** What a certificate revocation list states: entries are serial number,
    date and reason code, in order. *)
Record CrlEntry := mkCrlEntry { entry_serial : Z; entry_date : Z; entry_reason : option string }.
#[export] Instance CrlEntry_eq_dec : EqDecision CrlEntry.
Proof. solve_decision. Defined.
Record CrlInfo := mkCrlInfo {
  crl_issuer : Name; last_update : Z; next_update : Z; crl_number_ext : Z;
  crl_aki : ExtValue; crl_entries : list CrlEntry }.
#[export] Instance CrlInfo_eq_dec : EqDecision CrlInfo.
Proof. solve_decision. Defined.
Definition der_crl_times (c : CrlInfo) : CrlInfo :=
  mkCrlInfo (crl_issuer c) (floor_second (last_update c)) (floor_second (next_update c))
    (crl_number_ext c) (crl_aki c)
    (map (λ e, mkCrlEntry (entry_serial e) (floor_second (entry_date e)) (entry_reason e)) (crl_entries c)).

Class X509Lib := {
  PrivKey : Type;
  PubKey : Type;  (* a SubjectPublicKeyInfo: equality is equality of the DER *)
  Cert : Type;
  Pem : Type;     (* PEM text *)
  PubKey_eq_dec :: EqDecision PubKey;
  Pem_eq_dec :: EqDecision Pem;
  public_key : PrivKey → PubKey;
  key_alg : PubKey → KeyAlg;
  (** Key generation from a random seed. *)
  new_key : KeyAlg → Z → PrivKey;
  (** RFC 5280 "method 1": the SHA-1 of the key bits. *)
  ski_of_public_key : PubKey → string;
  tbs : Cert → TBS PubKey;
  sign_tbs : TBS PubKey → PrivKey → option Hash → Outcome Cert;
  verify_directly_issued_by : Cert → Cert → Outcome unit;
  cert_pem : Cert → Pem;
  load_cert : Pem → Outcome Cert;
  private_pem : PrivKey → Pem;
  load_private_key : Pem → option string → Outcome PrivKey;
  load_csr : Pem → Outcome (CsrInfo PubKey);
  Crl : Type;     (* the DER bytes of a signed list *)
  crl_info : Crl → CrlInfo;
  sign_crl : CrlInfo → PrivKey → option Hash → Outcome Crl;
  fingerprint : Cert → list Z;
  rfc4514_string : Name → string;
  (** [value.decode("utf-8", errors="replace")] of a non-text attribute. *)
  decode_replace : string → string;
  (** What the constructors [x509.NameAttribute(COMMON_NAME, _)],
      [x509.DNSName], [x509.RFC822Name] and [x509.UniformResourceIdentifier]
      accept; they raise [ValueError] for the rest. *)
  check_common_name : string → Outcome unit;
  check_dns_name : string → Outcome unit;
  check_rfc822_name : string → Outcome unit;
  check_uri : string → Outcome unit;

  new_key_alg : ∀ a s, key_alg (public_key (new_key a s)) = a;
  sign_tbs_tbs : ∀ t k h c, sign_tbs t k h = Ok c → tbs c = der_times t;
  (** The dates of a certificate are [datetime] values. *)
  sign_tbs_dates : ∀ t k h c, sign_tbs t k h = Ok c → in_datetime (not_before t) ∧ in_datetime (not_after t);
  sign_crl_info : ∀ t k h c, sign_crl t k h = Ok c → crl_info c = der_crl_times t;
  load_cert_pem : ∀ c, load_cert (cert_pem c) = Ok c;
  load_private_pem : ∀ k, load_private_key (private_pem k) None = Ok k;
  (** [verify_directly_issued_by] first compares the names. *)
  verify_names : ∀ c i, verify_directly_issued_by c i = Ok () → issuer (tbs c) = subject (tbs i);
  (** A certificate that names the issuer and is signed with its key passes. *)
  sign_tbs_verifies : ∀ t k h c i, sign_tbs t k h = Ok c → issuer t = subject (tbs i) → public_key k = subject_key (tbs i) →
    verify_directly_issued_by c i = Ok ();
}.

Section lib.
Context {X : X509Lib}.

Definition cert_subject (c : Cert) : Name := subject (tbs c).
Definition cert_key (c : Cert) : PubKey := subject_key (tbs c).
(** [cert.not_valid_before_utc] and [cert.not_valid_after_utc] *)
Definition not_valid_before (c : Cert) : Z := not_before (tbs c).
Definition not_valid_after (c : Cert) : Z := not_after (tbs c).

(** [extensions.get_extension_for_class(cls)]: [sel] recognises the class. *)
Definition find_extension {A} (sel : ExtValue → option A) (exts : list Extension) : option (A * bool) :=
  head (omap (λ e, a ← sel (ext_value e); Some (a, critical e)) exts).
Definition extension_of {A} (sel : ExtValue → option A) (c : Cert) : Outcome (A * bool) :=
  exts ← extensions (tbs c);
  of_option (find_extension sel exts) (ExtensionNotFound "No such extension").

Definition sel_bc (e : ExtValue) : option (bool * option Z) :=
  match e with BasicConstraints ca pl => Some (ca, pl) | _ => None end.
Definition sel_ku (e : ExtValue) : option KeyUsage :=
  match e with KeyUsageExt u => Some u | _ => None end.
Definition sel_ski (e : ExtValue) : option string :=
  match e with SubjectKeyIdentifier d => Some d | _ => None end.
Definition sel_aki (e : ExtValue) : option (option string) :=
  match e with AuthorityKeyIdentifier k => Some k | _ => None end.
Definition sel_san (e : ExtValue) : option (list GeneralName) :=
  match e with SubjectAlternativeName l => Some l | _ => None end.
Definition sel_eku (e : ExtValue) : option (list string) :=
  match e with ExtendedKeyUsage l => Some l | _ => None end.
Definition sel_nc (e : ExtValue) : option (option (list GeneralName) * option (list GeneralName)) :=
  match e with NameConstraints p x => Some (p, x) | _ => None end.

(** [except x509.ExtensionNotFound] *)
Definition is_not_found (e : Exc) : bool := match e with ExtensionNotFound _ => true | _ => false end.
(** [try: ext = get(...) except ExtensionNotFound: ext = None] *)
Definition optional {A} (m : Outcome A) : Outcome (option A) :=
  catch_pure (a ← m; mret (Some a)) is_not_found (λ _, Ok None).
(** [try: ext = get(...) except ExtensionNotFound: raise e] *)
Definition or_raise {A} (m : Outcome A) (e : Exc) : Outcome A :=
  catch_pure m is_not_found (λ _, Raise e).

(** [except (ValueError, TypeError, InvalidSignature)] *)
Definition is_value_error (e : Exc) : bool := match e with ValueError _ => true | _ => false end.
Definition is_key_error (e : Exc) : bool :=
  match e with ValueError _ | TypeError _ => true | _ => false end.
Definition is_verify_error (e : Exc) : bool :=
  match e with ValueError _ | TypeError _ | InvalidSignature _ => true | _ => false end.

Lemma optional_ok {A} (m : Outcome A) o :
  optional m = Ok o ↔ (∃ a, m = Ok a ∧ o = Some a) ∨ (∃ s, m = Raise (ExtensionNotFound s) ∧ o = None).
Proof. unfold optional. destruct m as [a|e]; cbn; [naive_solver|]. destruct e; cbn; naive_solver. Qed.
Lemma or_raise_ok {A} (m : Outcome A) e a : or_raise m e = Ok a ↔ m = Ok a.
Proof. unfold or_raise. destruct m as [|x]; cbn; [done|]. destruct (is_not_found x); naive_solver. Qed.
Lemma catch_pure_ok {A} (m : Outcome A) sel (f : Exc → Exc) a :
  catch_pure m sel (λ e, Raise (f e)) = Ok a ↔ m = Ok a.
Proof. destruct m as [|x]; cbn; [done|]. destruct (sel x); naive_solver. Qed.

Lemma extension_of_ok {A} (sel : ExtValue → option A) c r :
  extension_of sel c = Ok r ↔ ∃ exts, extensions (tbs c) = Ok exts ∧ find_extension sel exts = Some r.
Proof. unfold extension_of. rewrite Outcome_bind_ok. by setoid_rewrite of_option_ok. Qed.
End lib.

(** [inv_x509]: [inv_tx], through the exception handlers. *)
Ltac inv_x509 := repeat first
  [ progress inv_tx
  | match goal with
    | H : or_raise _ _ = Ok _ |- _ => apply or_raise_ok in H
    | H : catch_pure _ _ (λ _, Raise _) = Ok _ |- _ => apply catch_pure_ok in H
    | H : negb _ = false |- _ => apply negb_false_iff in H
    | H : bool_decide (_ ≠ _) = false |- _ => apply bool_decide_eq_false, dec_stable in H
    | H : () = () |- _ => clear H
    | u : unit |- _ => destruct u
    end ].

(** ** An instance for the concrete checks *)
Module Toy.
Definition Key : Type := KeyAlg * Z.
Record SignedCert := mkSigned { content : TBS Key; signer : Key }.
Inductive Text :=
  | CertText (c : SignedCert)
  | KeyText (k : Key) (pass : option string)
  | CsrText (c : CsrInfo Key)
  | Junk (s : string).
#[export] Instance SignedCert_eq_dec : EqDecision SignedCert.
Proof. solve_decision. Defined.
#[export] Instance CsrInfo_eq_dec : EqDecision (CsrInfo Key).
Proof. solve_decision. Defined.
#[export] Instance Text_eq_dec : EqDecision Text.
Proof. solve_decision. Defined.

Definition verify (c i : SignedCert) : Outcome unit :=
  if decide (issuer (content c) = subject (content i)) then
    if decide (signer c = subject_key (content i)) then Ok ()
    else Raise (InvalidSignature "")
  else Raise (ValueError "Issuer certificate subject does not match certificate issuer.").
Definition sign (t : TBS Key) (k : Key) (h : option Hash) : Outcome SignedCert :=
  if not_after t <? not_before t then
    Raise (ValueError "The not valid after date must be after the not valid before date.")
  else if bool_decide (in_datetime (not_before t) ∧ in_datetime (not_after t)) then Ok (mkSigned (der_times t) k)
  else Raise (OverflowError "date value out of range").
Definition ascii_only (s : string) : Outcome unit :=
  if isascii s then Ok () else Raise (ValueError "should be passed as an A-label string").
Definition toy_load_cert (p : Text) : Outcome SignedCert :=
  match p with CertText c => Ok c | _ => Raise (ValueError "Unable to load PEM file.") end.
Definition load_key (p : Text) (pass : option string) : Outcome Key :=
  match p with
  | KeyText k q => if decide (q = pass) then Ok k else Raise (ValueError "Incorrect password")
  | _ => Raise (ValueError "Could not deserialize key data.")
  end.
Definition toy_load_csr (p : Text) : Outcome (CsrInfo Key) :=
  match p with CsrText c => Ok c | _ => Raise (ValueError "Unable to load PEM file.") end.
Definition check_cn (s : string) : Outcome unit :=
  if (0 <? py_len s) && (py_len s <=? 64) then Ok ()
  else Raise (ValueError "Attribute's length must be >= 1 and <= 64").

#[refine] Definition lib : X509Lib := {|
  PrivKey := Key; PubKey := Key; Cert := SignedCert; Pem := Text;
  public_key := λ k, k;
  key_alg := fst;
  new_key := pair;
  ski_of_public_key := λ k, str_of_Z (snd k);
  tbs := content;
  sign_tbs := sign;
  verify_directly_issued_by := verify;
  cert_pem := CertText;
  load_cert := toy_load_cert;
  private_pem := λ k, KeyText k None;
  load_private_key := load_key;
  load_csr := toy_load_csr;
  Crl := CrlInfo * Key;
  crl_info := fst;
  sign_crl := λ t k _, Ok (der_crl_times t, k);
  fingerprint := λ c, [serial_number (content c)];
  rfc4514_string := λ _, "";
  decode_replace := λ s, s;
  check_common_name := check_cn;
  check_dns_name := ascii_only;
  check_rfc822_name := ascii_only;
  check_uri := ascii_only |}.
Proof.
  - done.
  - intros t k h c. unfold sign. repeat case_match; try done. by intros [= <-].
  - intros t k h c. unfold sign. case_match; [done|]. case_bool_decide as Hd; [|done]. by intros _.
  - by intros t k h c [= <-].
  - done.
  - intros k. unfold load_key. by rewrite decide_True.
  - intros c i. unfold verify. by repeat case_decide.
  - intros t k h c i. unfold sign, verify. repeat case_match; try done; intros [= <-] Hi Hk; cbn in *; by repeat case_decide.
Defined.

(** The value of a call known to succeed. *)
Definition got {A} (default : A) (m : Outcome A) : A := match m with Ok a => a | Raise _ => default end.
Definition no_key : Key := (Ed25519, 0).
Definition no_cert : SignedCert := mkSigned (mkTBS [] [] no_key 0 0 0 (Ok [])) no_key.
(** 2026-01-01T00:00:00Z *)
Definition t2026 : Z := days 739616.
Example t2026_text : isoformat t2026 = "2026-01-01T00:00:00+00:00".
Proof. vm_compute. reflexivity. Qed.
End Toy.
