(* ===== verification/X509.v ===== *)
(** * [cabin.ca.x509]: the CA hierarchy's certificates

    Creation of roots and intermediates, in-place renewal, cross-signing, and
    validation of imported CA and cross certificates.  The clock, the serial
    number and the key seed each function draws are its arguments [now],
    [serial] and [seed]. *)

From S2P Require Import Prelude PyStr PyTime IPAddr X509Lib.
#[local] Open Scope Z_scope.

(** [_BACKDATE] and [_DAYS_PER_YEAR] *)
Definition BACKDATE : Z := minutes 5.
Definition DAYS_PER_YEAR : Z := 365.
Definition KEY_TYPES : list string := ["ecdsa-p256"; "ecdsa-p384"; "rsa-4096"; "ed25519"].
Definition KEY_USAGE_ERROR : string :=
  "CA certificates must carry a KeyUsage extension with keyCertSign".

(** The two subtree lists of a [NameConstraints] value. *)
Abbreviation Subtrees := (option (list GeneralName) * option (list GeneralName))%type.

Section x509.
Context {X : X509Lib}.

Definition generate_key (key_type : string) (seed : Z) : Outcome PrivKey :=
  if decide (key_type = "ecdsa-p256") then Ok (new_key (EC "secp256r1") seed)
  else if decide (key_type = "ecdsa-p384") then Ok (new_key (EC "secp384r1") seed)
  else if decide (key_type = "rsa-4096") then Ok (new_key (RSA 4096) seed)
  else if decide (key_type = "ed25519") then Ok (new_key Ed25519 seed)
  else Raise (ValueError ("unsupported key type: " +:+ py_repr key_type)).

Definition signing_algorithm (key : PrivKey) : option Hash :=
  match key_alg (public_key key) with
  | Ed25519 => None
  | EC curve => if decide (curve = "secp384r1") then Some SHA384 else Some SHA256
  | _ => Some SHA256
  end.
(** [isinstance(key, SIGNING_KEY_TYPES)] *)
Definition is_signing_key (key : PrivKey) : bool :=
  match key_alg (public_key key) with OtherKey _ => false | _ => true end.

(** The AKI value for anything [issuer_cert] signs. *)
Definition authority_key_identifier (issuer_cert : Cert) (issuer_key : PrivKey) : Outcome ExtValue :=
  issuer_ski ← optional (extension_of sel_ski issuer_cert);
  mret (AuthorityKeyIdentifier (Some
    match issuer_ski with
    | None => ski_of_public_key (public_key issuer_key)
    | Some (d, _) => d
    end)).

Definition ca_key_usage : KeyUsage := mkKeyUsage false false false false false true true false false.

Definition name_constraints_or_none (cert : Cert) : Outcome (option (Subtrees * bool)) :=
  optional (extension_of sel_nc cert).

(** [x509.Name([x509.NameAttribute(NameOID.COMMON_NAME, cn)])] *)
Definition cn_name (cn : string) : Outcome Name :=
  check_common_name cn ≫= λ _, mret [[cn_attribute cn]].

(** [builder.sign(key, algorithm=signing_algorithm(key))] *)
Definition sign_with (t : TBS PubKey) (key : PrivKey) : Outcome Cert :=
  sign_tbs t key (signing_algorithm key).

Definition crit (v : ExtValue) : Extension := mkExtension v true.
Definition noncrit (v : ExtValue) : Extension := mkExtension v false.

Definition create_root (subject_cn key_type : string) (years path_length : Z)
    (now serial seed : Z) : Outcome (Cert * PrivKey) :=
  key ← generate_key key_type seed;
  name ← cn_name subject_cn;
  end_ ← add_days now (DAYS_PER_YEAR * years);
  let pub := public_key key in
  cert ← sign_with (mkTBS name name pub serial (now - BACKDATE) end_
    (Ok [crit (BasicConstraints true (Some path_length));
         crit (KeyUsageExt ca_key_usage);
         noncrit (SubjectKeyIdentifier (ski_of_public_key pub))])) key;
  mret (cert, key).

(** [if name_constraints is not None: builder.add_extension(...)] *)
Definition nc_extension (nc : option (Subtrees * bool)) : list Extension :=
  match nc with
  | None => []
  | Some ((permitted, excluded), c) => [mkExtension (NameConstraints permitted excluded) c]
  end.

Definition create_intermediate (root_cert : Cert) (root_key : PrivKey)
    (subject_cn key_type : string) (years : Z) (name_constraints : option Subtrees)
    (now serial seed : Z) : Outcome (Cert * PrivKey) :=
  key ← generate_key key_type seed;
  '(root_ski, _) ← extension_of sel_ski root_cert;
  end_ ← add_days now (DAYS_PER_YEAR * years);
  let not_after := Z.min end_ (not_valid_after root_cert) in
  name ← cn_name subject_cn;
  let pub := public_key key in
  cert ← sign_with (mkTBS name (cert_subject root_cert) pub serial (now - BACKDATE) not_after
    (Ok ([crit (BasicConstraints true (Some 0));
          crit (KeyUsageExt ca_key_usage);
          noncrit (SubjectKeyIdentifier (ski_of_public_key pub));
          noncrit (AuthorityKeyIdentifier (Some root_ski))]
         ++ nc_extension (option_map (λ v, (v, true)) name_constraints)))) root_key;
  mret (cert, key).

Definition renew_certificate (cert parent_cert : Cert) (parent_key : PrivKey) (years : Z)
    (now serial : Z) : Outcome Cert :=
  '(ski, _) ← extension_of sel_ski cert;
  '(ca, path_length, _) ← extension_of sel_bc cert;
  '(key_usage, _) ← extension_of sel_ku cert;
  old_aki ← optional (extension_of sel_aki cert);
  name_constraints ← optional (extension_of sel_nc cert);
  end_ ← add_days now (DAYS_PER_YEAR * years);
  aki ← match old_aki with
        | Some _ => v ← authority_key_identifier parent_cert parent_key; mret [noncrit v]
        | None => mret []
        end;
  sign_with (mkTBS (cert_subject cert) (cert_subject parent_cert) (cert_key cert) serial
    (now - BACKDATE) end_
    (Ok ([crit (BasicConstraints ca path_length);
          crit (KeyUsageExt key_usage);
          noncrit (SubjectKeyIdentifier ski)]
         ++ aki ++ nc_extension name_constraints))) parent_key.

(** The path length of a certificate's BasicConstraints. *)
Definition path_length_of (c : Cert) : Outcome (option Z) :=
  '(_, path_length, _) ← extension_of sel_bc c; mret path_length.

(** [length is not None and length < k] *)
Definition shorter_than (k : Z) (length : option Z) : option Z :=
  match length with Some n => if n <? k then Some n else None | None => None end.
Definition cross_path_length_error (subject_cert issuer_cert : Cert) : Outcome (option string) :=
  issuer_length ← path_length_of issuer_cert;
  match shorter_than 2 issuer_length with
  | Some n => mret (Some ("signing root's path_length is " +:+ str_of_Z n +:+
                          ", but cross-signing needs at least 2"))
  | None =>
      subject_length ← path_length_of subject_cert;
      match shorter_than 1 subject_length with
      | Some n => mret (Some ("root's path_length is " +:+ str_of_Z n +:+
                              ", but a cross certificate needs at least 1"))
      | None => mret None
      end
  end.

Definition cross_sign (subject_cert issuer_cert : Cert) (issuer_key : PrivKey) (years : Z)
    (now serial : Z) : Outcome Cert :=
  '(ski, _) ← or_raise (extension_of sel_ski subject_cert)
    (ValueError "subject certificate carries no SubjectKeyIdentifier");
  '(ca, path_length, _) ← extension_of sel_bc subject_cert;
  '(key_usage, _) ← extension_of sel_ku subject_cert;
  name_constraints ← name_constraints_or_none subject_cert;
  end_ ← add_days now (DAYS_PER_YEAR * years);
  let not_after := Z.min end_ (not_valid_after issuer_cert) in
  aki ← authority_key_identifier issuer_cert issuer_key;
  sign_with (mkTBS (cert_subject subject_cert) (cert_subject issuer_cert) (cert_key subject_cert)
    serial (now - BACKDATE) not_after
    (Ok ([crit (BasicConstraints ca path_length);
          crit (KeyUsageExt key_usage);
          noncrit (SubjectKeyIdentifier ski);
          noncrit aki] ++ nc_extension name_constraints))) issuer_key.

(** [try: m except <sel> as exc: raise CAImportError(f"{prefix}{exc}") from exc] *)
Definition reraise {A} (m : Outcome A) (sel : Exc → bool) (prefix : string) : Outcome A :=
  catch_pure m sel (λ e, Raise (CAImportError (prefix +:+ exc_text e))).

(** The checks [load_import] and [load_cross] share: [BasicConstraints],
    [KeyUsage] and the validity window of an imported certificate. *)
Definition require_ca (cert : Cert) : Outcome unit :=
  '(ca, _, _) ← or_raise (extension_of sel_bc cert)
    (CAImportError "certificate has no BasicConstraints extension");
  _ ← raise_if (negb ca) (CAImportError "certificate is not a CA certificate (BasicConstraints ca=False)");
  '(key_usage, _) ← or_raise (extension_of sel_ku cert) (CAImportError KEY_USAGE_ERROR);
  raise_if (negb (key_cert_sign key_usage)) (CAImportError KEY_USAGE_ERROR).
Definition require_current (cert : Cert) (now : Z) : Outcome unit :=
  _ ← raise_if (now <? not_valid_before cert) (CAImportError "certificate is not yet valid");
  raise_if (not_valid_after cert <? now) (CAImportError "certificate has expired").

Definition load_import (cert_pem key_pem : Pem) (key_passphrase : option string)
    (chain_pem : option Pem) (now : Z) : Outcome (Cert * PrivKey * option Cert) :=
  cert ← reraise (load_cert cert_pem) is_value_error "not a valid certificate PEM: ";
  let password := match key_passphrase with Some "" => None | p => p end in
  key ← reraise (load_private_key key_pem password) is_key_error "could not decrypt private key: ";
  _ ← raise_if (negb (is_signing_key key))
    (CAImportError ("unsupported private key type: " +:+
      match key_alg (public_key key) with OtherKey n => n | _ => "" end));
  _ ← raise_if (bool_decide (public_key key ≠ cert_key cert))
    (CAImportError "private key does not match the certificate's public key");
  _ ← require_ca cert;
  _ ← require_current cert now;
  match chain_pem with
  | None => mret (cert, key, None)
  | Some chain =>
      parent ← reraise (load_cert chain) is_value_error "not a valid parent certificate PEM: ";
      _ ← raise_if (name_py_eq (cert_subject parent) (cert_subject cert)
                    && bool_decide (cert_key parent = cert_key cert))
        (CAImportError "the parent certificate is the imported certificate itself");
      _ ← reraise (verify_directly_issued_by cert parent) is_verify_error
        "certificate does not chain to the given parent: ";
      mret (cert, key, Some parent)
  end.

(** [load_cross]'s comparison of the two NameConstraints extensions:
    value and criticality, or both absent. *)
Definition nc_mismatch (cross_nc subject_nc : option (Subtrees * bool)) : bool :=
  match cross_nc, subject_nc with
  | None, None => false
  | Some (v, c), Some (v', c') => negb (eqb c c') || bool_decide (v ≠ v')
  | _, _ => true
  end.

Definition load_cross (cross_pem : Pem) (subject_cert issuer_cert : Cert) (now : Z) : Outcome Cert :=
  cross ← reraise (load_cert cross_pem) is_value_error "not a valid certificate PEM: ";
  _ ← raise_if (bool_decide (cert_subject cross ≠ cert_subject subject_cert))
    (CAImportError "subject does not match the existing root's subject");
  _ ← raise_if (bool_decide (cert_key cross ≠ cert_key subject_cert))
    (CAImportError "public key does not match the existing root's public key");
  _ ← reraise (verify_directly_issued_by cross issuer_cert) is_verify_error
    "certificate was not signed by the given issuer: ";
  '(cross_ski, _) ← or_raise (extension_of sel_ski cross)
    (CAImportError "certificate has no SubjectKeyIdentifier extension");
  '(subject_ski, _) ← or_raise (extension_of sel_ski subject_cert)
    (CAImportError "the existing root has no SubjectKeyIdentifier extension to compare against");
  _ ← raise_if (bool_decide (cross_ski ≠ subject_ski))
    (CAImportError ("SubjectKeyIdentifier does not match the existing root's -- " +:+
      "no intermediate under it would chain through this certificate"));
  _ ← require_ca cross;
  _ ← require_current cross now;
  path_length_error ← cross_path_length_error subject_cert issuer_cert;
  _ ← match path_length_error with Some m => mthrow (CAImportError m) | None => mret () end;
  cross_nc ← name_constraints_or_none cross;
  subject_nc ← name_constraints_or_none subject_cert;
  _ ← raise_if (nc_mismatch cross_nc subject_nc)
    (CAImportError "NameConstraints does not match the existing root's");
  mret cross.

Definition key_type_label (k : PubKey) : string :=
  match key_alg k with
  | EC curve => "ECDSA " +:+ curve
  | RSA bits => "RSA " +:+ str_of_Z bits
  | Ed25519 => "Ed25519"
  | OtherKey n => n
  end.

(** [f"{b:02x}"] *)
Definition hex_byte (b : Z) : string :=
  of_chars [hex_digit (Z.to_N (b / 16)); hex_digit (Z.to_N (b mod 16))].
Record CertDescription := mkDescription {
  desc_subject : string; desc_issuer : string; desc_serial : string;
  desc_not_before : Z; desc_not_after : Z; desc_fingerprint : string; desc_key_type : string }.
Definition describe_certificate (cert : Cert) : CertDescription :=
  mkDescription (rfc4514_string (cert_subject cert)) (rfc4514_string (issuer (tbs cert)))
    (hex_of_Z (serial_number (tbs cert))) (not_valid_before cert) (not_valid_after cert)
    (join ":" (map hex_byte (fingerprint cert))) (key_type_label (cert_key cert)).
End x509.

(** ** Specifications *)
(** The certificate carries an extension of the class with this value. *)
Definition carries `{X : X509Lib} {A} (sel : ExtValue → option A) (c : Cert) (a : A) : Prop :=
  ∃ critical, extension_of sel c = Ok (a, critical).

(** RFC 5280 4.2.1.9: [path_length] is the number of CA certificates that may
    follow, in a path listed from the trust anchor down (the leaf left out). *)
Fixpoint path_ok (lengths : list (option Z)) : Prop :=
  match lengths with
  | [] => True
  | l :: rest =>
      match l with Some n => Z.of_nat (length rest) ≤ n | None => True end ∧ path_ok rest
  end.

(** What [require_ca] and [require_current] ask of a certificate. *)
Definition is_ca_cert `{X : X509Lib} (c : Cert) : Prop :=
  (∃ path_length, carries sel_bc c (true, path_length)) ∧
  ∃ usage, carries sel_ku c usage ∧ key_cert_sign usage = true.
Definition current_at `{X : X509Lib} (c : Cert) (now : Z) : Prop :=
  not_valid_before c ≤ now ≤ not_valid_after c.

Section lemmas.
Context {X : X509Lib}.

Lemma carries_ok {A} (sel : ExtValue → option A) c a k : extension_of sel c = Ok (a, k) → carries sel c a.
Proof. by exists k. Qed.

Lemma sign_with_ok t k c : sign_with t k = Ok c → tbs c = der_times t.
Proof. apply sign_tbs_tbs. Qed.

(** The dates of a certificate: whole seconds that Python can represent. *)
Definition dates_ok `{X : X509Lib} (c : Cert) : Prop :=
  in_datetime (not_valid_before c) ∧ in_datetime (not_valid_after c) ∧
  not_valid_before c mod second = 0 ∧ not_valid_after c mod second = 0.
Lemma sign_with_dates t k c : sign_with t k = Ok c → dates_ok c.
Proof.
  intros H. pose proof (sign_tbs_dates _ _ _ _ H) as [? ?]. apply sign_tbs_tbs in H.
  unfold dates_ok, not_valid_before, not_valid_after. rewrite H. cbn.
  split_and!; auto using in_datetime_floor, floor_second_mod.
Qed.
(** The extensions of a certificate just signed. *)
Lemma signed_extension {A} (sel : ExtValue → option A) c t exts :
  tbs c = der_times t → extensions t = Ok exts →
  extension_of sel c = of_option (find_extension sel exts) (ExtensionNotFound "No such extension").
Proof. intros Hc He. unfold extension_of. by rewrite Hc; cbn; rewrite He. Qed.

Lemma generate_key_ok kt s k : generate_key kt s = Ok k → is_signing_key k = true.
Proof.
  unfold generate_key, is_signing_key. intros H.
  repeat case_decide; simplify_eq; by rewrite new_key_alg.
Qed.
Lemma cn_name_ok cn n : cn_name cn = Ok n → n = [[cn_attribute cn]].
Proof. unfold cn_name. intros H. by inv_tx. Qed.

Lemma find_extension_app {A} (sel : ExtValue → option A) l l' :
  find_extension sel (l ++ l') =
  match find_extension sel l with Some r => Some r | None => find_extension sel l' end.
Proof.
  unfold find_extension. rewrite omap_app. by destruct (omap _ l).
Qed.
Lemma find_nc_extension nc : find_extension sel_nc (nc_extension nc) = nc.
Proof. by destruct nc as [[[] ]|]. Qed.
Lemma find_not_nc {A} (sel : ExtValue → option A) nc :
  (∀ p x, sel (NameConstraints p x) = None) → find_extension sel (nc_extension nc) = None.
Proof. intros H. destruct nc as [[[] ]|]; [|done]. unfold find_extension. cbn. by rewrite H. Qed.

Lemma authority_key_identifier_spec c k v : authority_key_identifier c k = Ok v →
  ∃ d, v = AuthorityKeyIdentifier (Some d) ∧
    (carries sel_ski c d ∨ (∃ s, extension_of sel_ski c = Raise (ExtensionNotFound s)) ∧
                           d = ski_of_public_key (public_key k)).
Proof.
  unfold authority_key_identifier. intros H. inv_tx. apply optional_ok in H0.
  destruct H0 as [([d cr] & He & ->)|(s & He & ->)]; eexists; split; try done.
  - left. by exists cr.
  - right. split; [by exists s|done].
Qed.

Lemma require_ca_ok c u : require_ca c = Ok u ↔ is_ca_cert c.
Proof.
  unfold require_ca, is_ca_cert, carries. destruct u. split.
  - intros H. inv_x509. subst. naive_solver.
  - intros ((pl & k & Hbc) & usage & (k' & Hku) & Hs). rewrite Hbc. cbn. rewrite Hku. cbn.
    by rewrite Hs.
Qed.
Lemma require_current_ok c now u : require_current c now = Ok u ↔ current_at c now.
Proof.
  unfold require_current, current_at. destruct u. split.
  - intros H. inv_tx. lia.
  - intros [H1 H2]. replace (now <? not_valid_before c) with false by lia.
    by replace (not_valid_after c <? now) with false by lia.
Qed.
Lemma nc_mismatch_false a b : nc_mismatch a b = false ↔ a = b.
Proof.
  unfold nc_mismatch. destruct a as [[v c]|], b as [[v' c']|]; try (split; congruence).
  rewrite orb_false_iff, negb_false_iff, eqb_true_iff, bool_decide_eq_false.
  destruct (decide (v = v')); naive_solver.
Qed.
End lemmas.

(** The parts of a successful [create_intermediate]. *)
Lemma create_intermediate_tbs `{X : X509Lib} root_cert root_key cn kt years nc now serial seed cert key :
  create_intermediate root_cert root_key cn kt years nc now serial seed = Ok (cert, key) →
  ∃ root_ski k, extension_of sel_ski root_cert = Ok (root_ski, k) ∧ is_signing_key key = true ∧
  tbs cert = der_times (mkTBS [[cn_attribute cn]] (cert_subject root_cert) (public_key key) serial
    (now - BACKDATE) (Z.min (now + days (DAYS_PER_YEAR * years)) (not_valid_after root_cert))
    (Ok ([crit (BasicConstraints true (Some 0));
          crit (KeyUsageExt ca_key_usage);
          noncrit (SubjectKeyIdentifier (ski_of_public_key (public_key key)));
          noncrit (AuthorityKeyIdentifier (Some root_ski))]
         ++ nc_extension (option_map (λ v, (v, true)) nc)))).
Proof.
  unfold create_intermediate. intros H.
  apply Outcome_bind_ok in H as (key' & Hkey & H).
  apply Outcome_bind_ok in H as ([ski k1] & Hski & H).
  apply Outcome_bind_ok in H as (end_ & Hend & H).
  apply Outcome_bind_ok in H as (name & Hname & H).
  apply Outcome_bind_ok in H as (cert' & Hs & [= -> ->]).
  apply add_days_ok in Hend as (-> & _). apply cn_name_ok in Hname as ->.
  apply generate_key_ok in Hkey. exists ski, k1. by split_and!; [..|apply sign_with_ok in Hs].
Qed.
Lemma create_intermediate_nc `{X : X509Lib} root_cert root_key cn kt years nc now serial seed cert key :
  create_intermediate root_cert root_key cn kt years nc now serial seed = Ok (cert, key) →
  name_constraints_or_none cert = Ok (option_map (λ v, (v, true)) nc).
Proof.
  intros (ski & k & _ & _ & Ht)%create_intermediate_tbs. unfold name_constraints_or_none.
  erewrite signed_extension; [|exact Ht|done]. rewrite find_extension_app, find_nc_extension.
  by destruct nc.
Qed.

Lemma create_root_identity `{X : X509Lib} cn kt years pl now serial seed cert key :
  create_root cn kt years pl now serial seed = Ok (cert, key) →
  is_signing_key key = true ∧ cert_key cert = public_key key ∧ cert_subject cert = [[cn_attribute cn]].
Proof.
  unfold create_root. intros H.
  apply Outcome_bind_ok in H as (key' & Hkey%generate_key_ok & H).
  apply Outcome_bind_ok in H as (name & ->%cn_name_ok & H).
  apply Outcome_bind_ok in H as (end_ & _ & H).
  apply Outcome_bind_ok in H as (cert' & Ht%sign_with_ok & [= -> ->]).
  unfold cert_key, cert_subject. by rewrite Ht.
Qed.
Lemma renew_certificate_identity `{X : X509Lib} cert parent key years now serial cert' :
  renew_certificate cert parent key years now serial = Ok cert' →
  cert_subject cert' = cert_subject cert ∧ cert_key cert' = cert_key cert ∧
  not_valid_after cert' = floor_second (now + days (DAYS_PER_YEAR * years)).
Proof.
  unfold renew_certificate. intros H.
  repeat match goal with
  | H : (_ ≫= _) = Ok _ |- _ => apply Outcome_bind_ok in H as (? & ? & H)
  | H : (let '(_, _) := ?x in _) = Ok _ |- _ => destruct x
  | H : add_days _ _ = Ok _ |- _ => apply add_days_ok in H as (-> & _)
  end.
  apply sign_with_ok in H. unfold cert_subject, cert_key, not_valid_after. by rewrite H.
Qed.
Lemma cross_sign_identity `{X : X509Lib} subject_cert issuer_cert issuer_key years now serial cross :
  cross_sign subject_cert issuer_cert issuer_key years now serial = Ok cross →
  cert_subject cross = cert_subject subject_cert ∧ cert_key cross = cert_key subject_cert.
Proof.
  unfold cross_sign. intros H.
  repeat match goal with
  | H : (_ ≫= _) = Ok _ |- _ => apply Outcome_bind_ok in H as (? & ? & H)
  | H : (let '(_, _) := ?x in _) = Ok _ |- _ => destruct x
  end.
  apply sign_with_ok in H. unfold cert_subject, cert_key. by rewrite H.
Qed.
Lemma cross_sign_issuer `{X : X509Lib} subject_cert issuer_cert issuer_key years now serial cross :
  cross_sign subject_cert issuer_cert issuer_key years now serial = Ok cross →
  issuer (tbs cross) = cert_subject issuer_cert.
Proof.
  unfold cross_sign. intros H.
  repeat match goal with
  | H : (_ ≫= _) = Ok _ |- _ => apply Outcome_bind_ok in H as (? & ? & H)
  | H : (let '(_, _) := ?x in _) = Ok _ |- _ => destruct x
  end.
  apply sign_with_ok in H. by rewrite H.
Qed.
Lemma load_import_parts `{X : X509Lib} cpem kpem pass chain now cert key parent :
  load_import cpem kpem pass chain now = Ok (cert, key, parent) →
  is_signing_key key = true ∧ public_key key = cert_key cert.
Proof.
  unfold load_import, reraise. intros H. inv_x509. destruct chain; inv_x509; done.
Qed.

(** [inv_import]: the conditions under which a validation function returned. *)
Ltac inv_import := repeat first
  [ progress inv_x509
  | match goal with
    | H : require_ca _ = Ok _ |- _ => apply require_ca_ok in H
    | H : require_current _ _ = Ok _ |- _ => apply require_current_ok in H
    | H : nc_mismatch _ _ = false |- _ => apply nc_mismatch_false in H; subst
    | H : match ?o with Some _ => mthrow _ | None => mret _ end = Ok _ |- _ => destruct o
    end ].

(** ** Correctness *)
Section theorems.
Context {X : X509Lib}.

(** Renewing a CA certificate in place keeps its identity.  Subject,
    public key, SubjectKeyIdentifier, BasicConstraints, KeyUsage and
    NameConstraints (value and criticality) are those of the old
    certificate, so every authority key identifier computed from the old
    certificate is the one computed from the new; the new issuer is the
    parent, and the new expiry is exactly the requested number of years
    away, to the second. *)
Theorem renew_certificate_keeps_identity cert parent key years now serial cert' :
  renew_certificate cert parent key years now serial = Ok cert' →
  cert_subject cert' = cert_subject cert ∧
  cert_key cert' = cert_key cert ∧
  issuer (tbs cert') = cert_subject parent ∧
  serial_number (tbs cert') = serial ∧
  (∀ d, carries sel_ski cert d ↔ carries sel_ski cert' d) ∧
  (∀ bc, carries sel_bc cert bc ↔ carries sel_bc cert' bc) ∧
  (∀ ku, carries sel_ku cert ku ↔ carries sel_ku cert' ku) ∧
  name_constraints_or_none cert' = name_constraints_or_none cert ∧
  ((∃ k, carries sel_aki cert' k) ↔ (∃ k, carries sel_aki cert k)) ∧
  (∀ k, authority_key_identifier cert' k = authority_key_identifier cert k) ∧
  not_valid_after cert' = floor_second (now + days (365 * years)).
Proof.
  unfold renew_certificate. intros H.
  apply Outcome_bind_ok in H as ([ski k1] & Hski & H).
  apply Outcome_bind_ok in H as ([[ca pl] k2] & Hbc & H).
  apply Outcome_bind_ok in H as ([ku k3] & Hku & H).
  apply Outcome_bind_ok in H as (aki0 & Haki0 & H).
  apply Outcome_bind_ok in H as (nc & Hnc & H).
  apply Outcome_bind_ok in H as (end_ & Hend & H).
  apply Outcome_bind_ok in H as (aki & Haki & Hs).
  apply add_days_ok in Hend as (-> & _).
  pose proof (sign_with_ok _ _ _ Hs) as Ht. clear Hs.
  assert (Haki' : (aki0 = None ∧ aki = []) ∨ ∃ k v, aki0 = Some k ∧ aki = [noncrit (AuthorityKeyIdentifier v)]).
  { destruct aki0; [|left; by injection Haki as <-]. inv_tx.
    apply authority_key_identifier_spec in H as (d & -> & _). right. by eexists _, _. }
  assert (Hext : ∀ A (sel : ExtValue → option A), extension_of sel cert' = _)
    by (intros; eapply signed_extension; [exact Ht|done]).
  assert (Hski' : extension_of sel_ski cert' = Ok (ski, false)) by by rewrite Hext.
  assert (Hbc' : extension_of sel_bc cert' = Ok (ca, pl, true)) by by rewrite Hext.
  assert (Hku' : extension_of sel_ku cert' = Ok (ku, true)) by by rewrite Hext.
  assert (Hnc' : extension_of sel_nc cert' = of_option nc (ExtensionNotFound "No such extension")).
  { rewrite Hext. f_equal. rewrite !find_extension_app. cbn.
    rewrite find_nc_extension. by destruct Haki' as [[_ ->]|(? & ? & _ & ->)]. }
  assert (Hakid : extension_of sel_aki cert' = match aki with [] => Raise (ExtensionNotFound "No such extension")
    | e :: _ => of_option (find_extension sel_aki [e]) (ExtensionNotFound "No such extension") end).
  { rewrite Hext. rewrite !find_extension_app. cbn.
    destruct Haki' as [[_ ->]|(? & ? & _ & ->)]; cbn; [|done].
    by rewrite find_not_nc. }
  unfold carries, cert_subject, cert_key, not_valid_after, name_constraints_or_none, authority_key_identifier.
  rewrite Hski, Hbc, Hku, Hski', Hbc', Hku', Hnc', Hnc, Ht. cbn.
  split_and!; try done; try naive_solver.
  - by destruct nc.
  - rewrite Hakid. apply optional_ok in Haki0. destruct Haki' as [[-> ->]|(? & ? & -> & ->)]; cbn.
    + destruct Haki0 as [(? & ? & ?)|(s & Hs & _)]; [done|]. rewrite Hs. naive_solver.
    + destruct Haki0 as [([k c] & Hk & _)|(s & ? & ?)]; [|done]. rewrite Hk. naive_solver.
Qed.

(** An intermediate never outlives its root and cannot sign another
    CA.  Its path length is zero, its authority key identifier is the
    root's subject key identifier, and its name constraints are exactly
    those asked for, marked critical (none at all when none were asked
    for). *)
Theorem create_intermediate_bounded root_cert root_key cn kt years nc now serial seed cert key :
  create_intermediate root_cert root_key cn kt years nc now serial seed = Ok (cert, key) →
  not_valid_after cert ≤ not_valid_after root_cert ∧
  not_valid_after cert ≤ now + days (365 * years) ∧
  issuer (tbs cert) = cert_subject root_cert ∧
  cert_subject cert = [[cn_attribute cn]] ∧
  cert_key cert = public_key key ∧
  is_signing_key key = true ∧
  carries sel_bc cert (true, Some 0) ∧
  carries sel_ku cert ca_key_usage ∧
  (∀ d, carries sel_ski root_cert d ↔ carries sel_aki cert (Some d)) ∧
  name_constraints_or_none cert = Ok (option_map (λ v, (v, true)) nc).
Proof.
  intros H. pose proof (create_intermediate_nc _ _ _ _ _ _ _ _ _ _ _ H) as Hnc.
  apply create_intermediate_tbs in H as (ski & k1 & Hski & Hkey & Ht).
  assert (Hext : ∀ A (sel : ExtValue → option A), extension_of sel cert = _)
    by (intros; eapply signed_extension; [exact Ht|done]).
  unfold carries, name_constraints_or_none, not_valid_after, cert_subject, cert_key.
  rewrite !Hext, Hski, Ht, !find_extension_app, find_nc_extension. cbn.
  unfold not_valid_after, DAYS_PER_YEAR.
  pose proof (floor_second_le (Z.min (now + days (365 * years)) (not_after (tbs root_cert)))).
  split_and!; try done; try lia; try (by eexists).
  - naive_solver.
  - by destruct nc.
Qed.

(** [cross_path_length_error] is RFC 5280's path-length rule for the
    path a cross certificate makes possible: signing root, cross
    certificate (which copies the subject root's BasicConstraints), an
    intermediate of path length zero, leaf.  It reports no error exactly
    when every certificate on that path admits the number of CA
    certificates below it. *)
Theorem cross_path_length_error_iff subject_cert issuer_cert ls li :
  path_length_of subject_cert = Ok ls → path_length_of issuer_cert = Ok li →
  (cross_path_length_error subject_cert issuer_cert = Ok None ↔ path_ok [li; ls; Some 0]).
Proof.
  intros Hs Hi. unfold cross_path_length_error. rewrite Hi. cbn -[str_of_Z].
  assert (Hr : ∀ k l, shorter_than k l = None ↔ match l with Some n => k ≤ n | None => True end).
  { intros k [n|]; cbn; [|done]. destruct (Z.ltb_spec n k); split; (done || lia). }
  destruct (shorter_than 2 li) eqn:E2.
  - split; [done|]. intros [H _]. by rewrite (proj2 (Hr 2 li) H) in E2.
  - apply Hr in E2. rewrite Hs. cbn -[str_of_Z].
    destruct (shorter_than 1 ls) eqn:E1.
    + split; [done|]. intros (_ & H & _). by rewrite (proj2 (Hr 1 ls) H) in E1.
    + apply Hr in E1. split; [|done]. intros _. by split_and!.
Qed.

(** A cross certificate is a second certificate for the subject root's
    CA.  Subject, key, SubjectKeyIdentifier, BasicConstraints, KeyUsage and
    NameConstraints are copied, an authority key identifier naming the
    signing root is always present, and it does not outlive the signing
    root. *)
Theorem cross_sign_copies_ca subject_cert issuer_cert issuer_key years now serial cross :
  cross_sign subject_cert issuer_cert issuer_key years now serial = Ok cross →
  cert_subject cross = cert_subject subject_cert ∧
  cert_key cross = cert_key subject_cert ∧
  issuer (tbs cross) = cert_subject issuer_cert ∧
  (∀ d, carries sel_ski subject_cert d ↔ carries sel_ski cross d) ∧
  (∀ bc, carries sel_bc subject_cert bc ↔ carries sel_bc cross bc) ∧
  (∀ ku, carries sel_ku subject_cert ku ↔ carries sel_ku cross ku) ∧
  name_constraints_or_none cross = name_constraints_or_none subject_cert ∧
  (∃ d, carries sel_aki cross (Some d) ∧
    authority_key_identifier issuer_cert issuer_key = Ok (AuthorityKeyIdentifier (Some d))) ∧
  not_valid_after cross ≤ not_valid_after issuer_cert.
Proof.
  unfold cross_sign. intros H.
  apply Outcome_bind_ok in H as ([ski k1] & Hski%or_raise_ok & H).
  apply Outcome_bind_ok in H as ([[ca pl] k2] & Hbc & H).
  apply Outcome_bind_ok in H as ([ku k3] & Hku & H).
  apply Outcome_bind_ok in H as (nc & Hnc & H).
  apply Outcome_bind_ok in H as (end_ & _ & H).
  apply Outcome_bind_ok in H as (aki & Haki & Hs).
  pose proof (sign_with_ok _ _ _ Hs) as Ht.
  destruct (authority_key_identifier_spec _ _ _ Haki) as (d & -> & _).
  assert (Hext : ∀ A (sel : ExtValue → option A), extension_of sel cross = _)
    by (intros; eapply signed_extension; [exact Ht|done]).
  unfold carries, not_valid_after, cert_subject, cert_key. rewrite Hnc.
  unfold name_constraints_or_none.
  rewrite !Hext, Hski, Hbc, Hku, Haki, Ht, !find_extension_app, find_nc_extension. cbn.
  unfold not_valid_after, DAYS_PER_YEAR.
  pose proof (floor_second_le (Z.min end_ (not_after (tbs issuer_cert)))).
  split_and!; try done; try lia; try naive_solver.
  by destruct nc.
Qed.

(** [load_import] accepts exactly the CA certificates it should.  It
    returns a certificate, key and parent if and only if they are what the
    PEM texts hold, the key can sign and is the certificate's own, the
    certificate is a CA certificate with keyCertSign inside its validity,
    and a given parent is another certificate that issued it. *)
Theorem load_import_iff cpem kpem pass chain now cert key parent :
  load_import cpem kpem pass chain now = Ok (cert, key, parent) ↔
  load_cert cpem = Ok cert ∧
  load_private_key kpem (match pass with Some "" => None | p => p end) = Ok key ∧
  is_signing_key key = true ∧
  public_key key = cert_key cert ∧
  is_ca_cert cert ∧
  current_at cert now ∧
  match chain with
  | None => parent = None
  | Some pem => ∃ p, parent = Some p ∧ load_cert pem = Ok p ∧
      (name_py_eq (cert_subject p) (cert_subject cert) = true → cert_key p ≠ cert_key cert) ∧
      verify_directly_issued_by cert p = Ok ()
  end.
Proof.
  unfold load_import, reraise. split.
  - intros H. inv_import. destruct chain as [pem|]; inv_import; [|by split_and!].
    split_and!; try done. eexists. split_and!; try done. intros He.
    match goal with H : _ && _ = false |- _ => rewrite He in H; by apply bool_decide_eq_false in H end.
  - intros (Hc & Hk & Hsig & Hpub & Hca & Hcur & Hchain).
    apply (require_ca_ok _ ()) in Hca. apply (require_current_ok _ _ ()) in Hcur.
    rewrite Hc. cbn. rewrite Hk. cbn. rewrite Hsig. cbn.
    rewrite bool_decide_eq_false_2 by (intros H; by apply H). cbn. rewrite Hca. cbn. rewrite Hcur. cbn.
    destruct chain as [pem|]; [|by subst].
    destruct Hchain as (p & -> & Hp & Hself & Hv). rewrite Hp. cbn.
    replace (name_py_eq (cert_subject p) (cert_subject cert) && bool_decide (cert_key p = cert_key cert))
      with false.
    { cbn. by rewrite Hv. }
    symmetry. rewrite andb_false_iff, bool_decide_eq_false.
    destruct (name_py_eq _ _); [right; by apply Hself|by left].
Qed.

(** [load_cross] accepts exactly the certificates that are another
    certificate for the subject root's CA, signed by the given issuer: same
    subject and key, same SubjectKeyIdentifier, same NameConstraints, a
    current CA certificate, on a path the path lengths allow. *)
Theorem load_cross_iff pem subject_cert issuer_cert now cross :
  load_cross pem subject_cert issuer_cert now = Ok cross ↔
  load_cert pem = Ok cross ∧
  cert_subject cross = cert_subject subject_cert ∧
  cert_key cross = cert_key subject_cert ∧
  verify_directly_issued_by cross issuer_cert = Ok () ∧
  (∃ d, carries sel_ski cross d ∧ carries sel_ski subject_cert d) ∧
  is_ca_cert cross ∧
  current_at cross now ∧
  cross_path_length_error subject_cert issuer_cert = Ok None ∧
  ∃ nc, name_constraints_or_none cross = Ok nc ∧ name_constraints_or_none subject_cert = Ok nc.
Proof.
  unfold load_cross, reraise. split.
  - intros H. inv_import. subst.
    split_and!; try done; [eexists; split; by eexists|by eexists].
  - intros (Hc & Hsub & Hkey & Hv & (d & [k1 H1] & [k2 H2]) & Hca & Hcur & Hp & nc & Hnc & Hnc').
    apply (require_ca_ok _ ()) in Hca. apply (require_current_ok _ _ ()) in Hcur.
    rewrite Hc. cbn. rewrite bool_decide_eq_false_2 by (intros H; by apply H). cbn.
    rewrite bool_decide_eq_false_2 by (intros H; by apply H). cbn.
    rewrite Hv. cbn. rewrite H1, H2. cbn. rewrite bool_decide_eq_false_2 by (intros H; by apply H). cbn.
    rewrite Hca. cbn. rewrite Hcur. cbn. rewrite Hp. cbn. rewrite Hnc, Hnc'. cbn.
    by rewrite (proj2 (nc_mismatch_false nc nc) eq_refl).
Qed.

(** A root cabin creates is a CA certificate its own import validation
    accepts, with its key, at every instant of its validity. *)
Theorem create_root_reimports cn kt years pl now serial seed cert key now' :
  create_root cn kt years pl now serial seed = Ok (cert, key) → current_at cert now' →
  load_import (cert_pem cert) (private_pem key) None None now' = Ok (cert, key, None).
Proof.
  unfold create_root. intros H Hcur.
  apply Outcome_bind_ok in H as (key' & Hkey & H).
  apply Outcome_bind_ok in H as (name & Hname & H).
  apply Outcome_bind_ok in H as (end_ & Hend & H).
  apply Outcome_bind_ok in H as (cert' & Hs & [= -> ->]).
  pose proof (sign_with_ok _ _ _ Hs) as Ht. apply generate_key_ok in Hkey.
  assert (Hext : ∀ A (sel : ExtValue → option A), extension_of sel cert = _)
    by (intros; eapply signed_extension; [exact Ht|done]).
  unfold load_import, reraise. rewrite load_cert_pem. cbn. rewrite load_private_pem. cbn.
  rewrite Hkey. cbn. unfold cert_key. rewrite Ht. cbn.
  rewrite bool_decide_eq_false_2 by (intros H; by apply H). cbn.
  rewrite (proj2 (require_ca_ok cert ())). 2:{ split; [eexists|exists ca_key_usage; split; [|done]];
    eexists; by rewrite Hext. }
  cbn. by rewrite (proj2 (require_current_ok cert now' ()) Hcur).
Qed.
End theorems.

(** ** The theorems at work on a small hierarchy *)
Module Examples.
#[local] Existing Instance Toy.lib.
Import Toy.
Definition root_and_key : SignedCert * Key :=
  got (no_cert, no_key) (create_root "Root" "ecdsa-p256" 20 2 t2026 1 100).
Definition root : SignedCert := fst root_and_key.
Definition root_key : Key := snd root_and_key.
Definition old_root_and_key : SignedCert * Key :=
  got (no_cert, no_key) (create_root "Old root" "ecdsa-p384" 5 2 t2026 2 101).
Definition old_root : SignedCert := fst old_root_and_key.
Definition old_root_key : Key := snd old_root_and_key.
Definition lan : Subtrees := (Some [DNSName "lan"], None).
Definition ca_and_key : SignedCert * Key :=
  got (no_cert, no_key) (create_intermediate root root_key "CA" "ed25519" 10 (Some lan) t2026 3 102).
Definition ca : SignedCert := fst ca_and_key.
Definition ca_key : Key := snd ca_and_key.
Definition renewed : SignedCert :=
  got no_cert (renew_certificate ca root root_key 10 (t2026 + days 400) 4).
Definition cross : SignedCert :=
  got no_cert (cross_sign root old_root old_root_key 10 t2026 5).

Lemma renew_certificate_keeps_identity_witness :
  renew_certificate ca root root_key 10 (t2026 + days 400) 4 = Ok renewed ∧
  cert_key renewed = cert_key ca.
Proof.
  split; [vm_compute; reflexivity|].
  refine (proj1 (proj2 (renew_certificate_keeps_identity ca root root_key 10 (t2026 + days 400) 4 renewed _))).
  vm_compute. reflexivity.
Defined.
Lemma create_intermediate_bounded_witness :
  create_intermediate root root_key "CA" "ed25519" 10 (Some lan) t2026 3 102 = Ok (ca, ca_key) ∧
  not_valid_after ca ≤ not_valid_after root.
Proof.
  split; [vm_compute; reflexivity|].
  refine (proj1 (create_intermediate_bounded root root_key "CA" "ed25519" 10 (Some lan) t2026 3 102 ca ca_key _)).
  vm_compute. reflexivity.
Defined.
Lemma cross_path_length_error_iff_witness :
  path_length_of root = Ok (Some 2) ∧ path_length_of ca = Ok (Some 0) ∧
  (cross_path_length_error ca root = Ok None ↔ path_ok [Some 2; Some 0; Some 0]).
Proof.
  split; [vm_compute; reflexivity|]. split; [vm_compute; reflexivity|].
  apply (cross_path_length_error_iff (X:=lib) ca root (Some 0) (Some 2)); vm_compute; reflexivity.
Defined.
Lemma cross_sign_copies_ca_witness :
  cross_sign root old_root old_root_key 10 t2026 5 = Ok cross ∧
  cert_subject cross = cert_subject root.
Proof.
  split; [vm_compute; reflexivity|].
  refine (proj1 (cross_sign_copies_ca root old_root old_root_key 10 t2026 5 cross _)).
  vm_compute. reflexivity.
Defined.
Lemma create_root_reimports_witness :
  current_at root (t2026 + days 30) ∧
  load_import (cert_pem root) (private_pem root_key) None None (t2026 + days 30) = Ok (root, root_key, None).
Proof.
  split; [split; vm_compute; discriminate|].
  apply (create_root_reimports (X:=lib) "Root" "ecdsa-p256" 20 2 t2026 1 100 root root_key (t2026 + days 30)).
  - vm_compute. reflexivity.
  - split; vm_compute; discriminate.
Defined.
End Examples.
