(* ===== verification/Url.v ===== *)
(** * [urllib.parse.urlsplit] and [urlunsplit]

    The two functions of the standard library with which the program takes
    URLs apart: its base URL, names that look like one, redirects.  [_checknetloc]'s NFKC test never raises on the code
    points of the model. *)

From S2P Require Import Prelude PyStr IPAddr.
#[local] Open Scope Z_scope.

Record SplitResult := mkSplit {
  scheme : string; netloc : string; path : string; query : string; fragment : string }.
#[export] Instance SplitResult_eq_dec : EqDecision SplitResult.
Proof. solve_decision. Defined.

(** [s.lstrip(_WHATWG_C0_CONTROL_OR_SPACE)], then tabs and newlines removed. *)
Definition is_c0_or_space (c : ascii) : bool := (code c <=? 32)%N.
Definition is_unsafe_byte (c : ascii) : bool := (code c =? 9)%N || (code c =? 10)%N || (code c =? 13)%N.
Definition clean_url (l : list ascii) : list ascii :=
  List.filter (λ c, negb (is_unsafe_byte c)) (drop_while is_c0_or_space l).

Definition is_scheme_char (c : ascii) : bool :=
  is_ascii_letter c || is_ascii_digit c || (code c =? 43)%N || (code c =? 45)%N || (code c =? 46)%N.
Definition split_scheme (l : list ascii) : list ascii * list ascii :=
  let '(before, found, after) := partition_chars ":" l in
  match before with
  | c :: _ => if found && is_ascii_letter c && forallb is_scheme_char before then (before, after) else ([], l)
  | [] => ([], l)
  end.

(** [_splitnetloc]: up to the first of [/?#]. *)
Definition is_netloc_end (c : ascii) : bool := (code c =? 47)%N || (code c =? 63)%N || (code c =? 35)%N.
Fixpoint split_netloc (l : list ascii) : list ascii * list ascii :=
  match l with
  | [] => ([], [])
  | c :: l' => if is_netloc_end c then ([], l)
               else let '(a, b) := split_netloc l' in (c :: a, b)
  end.

Definition has_char (c : ascii) (l : list ascii) : bool := existsb (λ d, bool_decide (d = c)) l.
(** [s.rpartition(c)[2]] *)
Definition after_last (c : ascii) (l : list ascii) : list ascii := default [] (last (split_chars c l)).

Definition bad_ipv6_url : Exc := ValueError "Invalid IPv6 URL".
(** [_check_bracketed_host] *)
Definition check_bracketed_host (host : list ascii) : Outcome unit :=
  match host with
  | "v"%char :: rest =>
      let '(hex, dot, tail) := partition_chars "." rest in
      raise_if (negb (dot && nonempty hex && nonempty tail
                      && forallb (λ c, bool_decide (is_Some (hex_value c))) hex))
        (ValueError "IPvFuture address is invalid")
  | _ =>
      ip ← ip_address (of_chars host);
      raise_if (ip_version (ip_value ip) =? 4) (ValueError "An IPv4 address cannot be in brackets")
  end.
(** [_check_bracketed_netloc] *)
Definition check_bracketed_netloc (netloc : list ascii) : Outcome unit :=
  let hostport := after_last "@" netloc in
  let '(before, open, bracketed) := partition_chars "[" hostport in
  if open then
    _ ← raise_if (nonempty before) bad_ipv6_url;
    let '(host, _, port) := partition_chars "]" bracketed in
    _ ← raise_if (match port with [] => false | c :: _ => negb (bool_decide (c = ":"%char)) end) bad_ipv6_url;
    check_bracketed_host host
  else
    let '(host, _, _) := partition_chars ":" hostport in check_bracketed_host host.
Definition check_netloc (netloc : list ascii) : Outcome unit :=
  let o := has_char "[" netloc in
  let c := has_char "]" netloc in
  _ ← raise_if (xorb o c) bad_ipv6_url;
  if o && c then check_bracketed_netloc netloc else mret ().

Definition urlsplit (url : string) : Outcome SplitResult :=
  let '(scheme, rest) := split_scheme (clean_url (chars url)) in
  '(netloc, rest) ← match rest with
    | "/"%char :: "/"%char :: r =>
        let '(n, r) := split_netloc r in check_netloc n ≫= λ _, mret (n, r)
    | _ => mret ([], rest)
    end;
  let '(rest, _, fragment) := partition_chars "#" rest in
  let '(path, _, query) := partition_chars "?" rest in
  mret (mkSplit (lower (of_chars scheme)) (of_chars netloc) (of_chars path)
         (of_chars query) (of_chars fragment)).

(** [urlunsplit(("http", netloc, path, "", ""))] *)
Definition urlunsplit_http (netloc path : string) : string :=
  let path_ :=
    if (0 <? py_len netloc) || negb (startswith path "//") then
      "//" +:+ netloc +:+
      (if (0 <? py_len path) && negb (startswith path "/") then "/" +:+ path else path)
    else path in
  "http:" +:+ path_.

(** ** [SplitResult.hostname] and [.port] *)
(** [_hostinfo] *)
Definition hostinfo (u : SplitResult) : list ascii * option (list ascii) :=
  let info := after_last "@" (chars (netloc u)) in
  let '(_, open, bracketed) := partition_chars "[" info in
  let '(h, port) :=
    if open then
      let '(h, _, rest) := partition_chars "]" bracketed in
      let '(_, _, port) := partition_chars ":" rest in (h, port)
    else let '(h, _, port) := partition_chars ":" info in (h, port) in
  (h, if nonempty port then Some port else None).
Definition url_hostname (u : SplitResult) : option string :=
  match fst (hostinfo u) with
  | [] => None
  | h =>
      let '(name, percent, zone) := partition_chars "%" h in
      Some (lower (of_chars name) +:+ (if percent then "%" else "") +:+ of_chars zone)
  end.
Definition url_port (u : SplitResult) : Outcome (option Z) :=
  match snd (hostinfo u) with
  | None => mret None
  | Some port =>
      _ ← raise_if (negb (forallb is_ascii_digit port)) (ValueError ("Port could not be cast to integer value as " +:+ py_repr (of_chars port)));
      _ ← raise_if (4300 <? Z.of_nat (length port)) (ValueError "Exceeds the limit (4300 digits) for integer string conversion");
      let n := dec_value port in
      _ ← raise_if (65535 <? n) (ValueError "Port out of range 0-65535");
      mret (Some n)
  end.
(** [urlunsplit((scheme, netloc, path, query, ""))] for a scheme and a netloc
    that are not empty. *)
Definition urlunsplit_full (scheme netloc path query : string) : string :=
  scheme +:+ ":" +:+ "//" +:+ netloc +:+ (if (0 <? py_len path) && negb (startswith path "/") then "/" +:+ path else path)
  +:+ (if decide (query = "") then "" else "?" +:+ query).

Definition host_and_port (url : string) : Outcome (option string * option Z) :=
  u ← urlsplit url; p ← url_port u; mret (url_hostname u, p).
Example hosts_and_ports : map host_and_port ["http://Nas.LAN/x"; "http://u:p@[FE80::1%Eth0]:8080/"; "https://a:/"; "http://:80/"] =
  map Ok [(Some "nas.lan", None); (Some "fe80::1%Eth0", Some 8080); (Some "a", None); (None, Some 80)].
Proof. vm_compute. reflexivity. Qed.
Example bad_ports : map (λ u, is_ok (host_and_port u)) ["http://a:65536/"; "http://a:+80/"; "http://a:8 0/"] = [false; false; false].
Proof. vm_compute. reflexivity. Qed.
