(* ===== verification/Leaf.v ===== *)
(** * [cabin.ca.leaf]: leaf issuance

    Subject alternative names, name constraints, validity clamping, and the
    two flows that issue a leaf: a key generated here, or a signed request.
    A SAN is the canonical text ([DNS:nas.lan]) the source passes around. *)

From S2P Require Import Prelude PyStr PyTime IPAddr Url X509Lib X509.
#[local] Open Scope Z_scope.

Definition public_http_origin (base_url : string) : Outcome string :=
  parts ← urlsplit base_url;
  let host := if endswith (netloc parts) ":443"
              then of_chars (take (length (chars (netloc parts)) - 4) (chars (netloc parts)))
              else netloc parts in
  mret (urlunsplit_http host (path parts)).

(** ** Limits *)
Definition MIN_DAYS : Z := 1.
Definition MAX_DAYS : Z := 3650.
Definition DEFAULT_DAYS : Z := 365.
Definition MAX_SANS : Z := 100.
Definition MAX_CN_LENGTH : Z := 64.
Definition MAX_HOSTNAME_LENGTH : Z := 253.
Definition MAX_NAME_CONSTRAINTS : Z := 50.

(** ** Profiles *)
Inductive Profile := server | client.
#[export] Instance Profile_eq_dec : EqDecision Profile.
Proof. solve_decision. Defined.
Definition SERVER_AUTH : string := "1.3.6.1.5.5.7.3.1".
Definition CLIENT_AUTH : string := "1.3.6.1.5.5.7.3.2".
Definition PROFILE_EKU (p : Profile) : string :=
  match p with server => SERVER_AUTH | client => CLIENT_AUTH end.
Definition profile_text (p : Profile) : string := match p with server => "server" | client => "client" end.
Definition parse_profile (value : string) : Outcome Profile :=
  if decide (value = "server") then Ok server
  else if decide (value = "client") then Ok client
  else Raise (IssueError ("unknown profile: " +:+ py_repr value)).

(** ** Hostnames: [_HOSTNAME_RE]

    [_LABEL] is one to 63 letters, digits and hyphens with no hyphen at
    either end; the whole pattern is an optional [*.] and dot-separated
    labels.  [$] also matches before one final newline. *)
Definition is_alnum (c : ascii) : bool := is_ascii_letter c || is_ascii_digit c.
Definition is_label (w : list ascii) : bool :=
  match w, last w with
  | first :: _, Some final =>
      is_alnum first && is_alnum final && (length w <=? 63)%nat
      && forallb (λ c, is_alnum c || bool_decide (c = "-"%char)) w
  | _, _ => false
  end.
Definition drop_final_newline (l : list ascii) : list ascii :=
  match last l with
  | Some c => if (code c =? 10)%N then removelast l else l
  | None => l
  end.
Definition drop_wildcard (l : list ascii) : list ascii :=
  match l with "*"%char :: "."%char :: l' => l' | _ => l end.
Definition matches_hostname_re (value : string) : bool :=
  forallb is_label (split_chars "." (drop_wildcard (drop_final_newline (chars value)))).
Definition is_hostname (value : string) : bool :=
  (py_len value <=? MAX_HOSTNAME_LENGTH) && matches_hostname_re value.
Definition is_ip (value : string) : bool := is_ok (ip_address value).

(** ** SAN entries *)
Definition SAN_PREFIXES : list string := ["dns"; "ip"; "email"].
Definition upper_kind (kind : string) : string :=
  if decide (kind = "dns") then "DNS" else if decide (kind = "ip") then "IP" else "EMAIL".
(** Which kind an entry is, and its value. *)
Definition san_kind (raw : string) : string * string :=
  let '(prefix, separator, rest) := partition ":" raw in
  if separator && bool_decide (lower (strip prefix) ∈ SAN_PREFIXES)
  then (lower (strip prefix), strip rest)
  else if is_ip raw then ("ip", raw)
  else if contains "@" raw then ("email", raw)
  else ("dns", raw).
Definition normalize_san (entry : string) : Outcome string :=
  let '(kind, value) := san_kind (strip entry) in
  _ ← raise_if (bool_decide (value = "")) (IssueError ("empty SAN entry: " +:+ py_repr entry));
  _ ← raise_if (bool_decide (kind = "ip") && negb (is_ip value))
        (IssueError ("not a valid IP address: " +:+ py_repr value));
  _ ← raise_if (bool_decide (kind = "dns") && negb (is_hostname value))
        (IssueError ("not a valid hostname: " +:+ py_repr value));
  _ ← raise_if (bool_decide (kind = "email") && (negb (contains "@" value) || has_space value))
        (IssueError ("not a valid email address: " +:+ py_repr value));
  mret (upper_kind kind +:+ ":" +:+ value).

(** The lines of a text that are not blank. *)
Definition nonblank_lines (text : string) : list string :=
  List.filter (λ l, negb (bool_decide (strip l = ""))) (splitlines text).
Definition parse_san_lines (text : string) : Outcome (list string) :=
  entries ← map_each normalize_san (nonblank_lines text);
  mret (dedup entries).

(** [san.partition(":")] *)
Definition san_parts (san : string) : string * string :=
  let '(kind, _, value) := partition ":" san in (kind, value).
Definition network_no_scope (n : IPNetwork) : IPNetwork :=
  mkIPNetwork (mkIPAddress (ip_value (network_address n)) None) (prefixlen n).

Definition san_string (name : GeneralName) : list string :=
  match name with
  | DNSName v => ["DNS:" +:+ v]
  | IPAddressName a => ["IP:" +:+ ip_text a]
  | IPNetworkName n => ["IP:" +:+ str_network n]
  | RFC822Name v => ["EMAIL:" +:+ v]
  | OtherName _ _ => []
  end.
Definition san_strings (names : list GeneralName) : list string := dedup (concat (map san_string names)).

Definition san_from_cn (subject_cn : string) : option string :=
  if is_ip subject_cn then Some ("IP:" +:+ subject_cn)
  else if is_hostname subject_cn then Some ("DNS:" +:+ subject_cn)
  else None.

Definition no_usable_san : Exc :=
  IssueError "no usable SAN: give at least one SAN, or use a hostname or IP as CN".
Definition too_many_sans : Exc :=
  IssueError ("too many SANs: at most " +:+ str_of_Z MAX_SANS +:+ " are allowed").
(** [list(explicit) or list(csr_sans)] *)
Definition py_or {A} (a b : list A) : list A := if nonempty a then a else b.
Definition resolve_sans (explicit csr_sans : list string) (subject_cn : option string) : Outcome (list string) :=
  chosen ← match py_or explicit csr_sans with
           | [] => fallback ← of_option (subject_cn ≫= san_from_cn) no_usable_san; mret [fallback]
           | l => mret l
           end;
  let resolved := dedup chosen in
  _ ← raise_if (MAX_SANS <? Z.of_nat (length resolved)) too_many_sans;
  mret resolved.

Definition is_control (c : ascii) : bool := (code c <? 32)%N || (code c =? 127)%N.
Definition validate_cn (subject_cn : string) : Outcome string :=
  let cn := strip subject_cn in
  _ ← raise_if (bool_decide (cn = "")) (IssueError "subject CN must not be empty");
  _ ← raise_if (MAX_CN_LENGTH <? py_len cn)
        (IssueError ("subject CN must be at most " +:+ str_of_Z MAX_CN_LENGTH +:+ " characters"));
  _ ← raise_if (existsb is_control (chars cn)) (IssueError "subject CN must not contain control characters");
  mret cn.
Definition validate_days (days : Z) : Outcome unit :=
  raise_if (negb ((MIN_DAYS <=? days) && (days <=? MAX_DAYS)))
    (IssueError ("days must be between " +:+ str_of_Z MIN_DAYS +:+ " and " +:+ str_of_Z MAX_DAYS)).

(** ** Name constraints *)
Record NameConstraintSpec := mkSpec {
  permitted_dns : list string; permitted_ip : list IPNetwork;
  excluded_dns : list string; excluded_ip : list IPNetwork }.
#[export] Instance NameConstraintSpec_eq_dec : EqDecision NameConstraintSpec.
Proof. solve_decision. Defined.
Definition is_empty (s : NameConstraintSpec) : bool :=
  negb (nonempty (permitted_dns s) || nonempty (permitted_ip s)
        || nonempty (excluded_dns s) || nonempty (excluded_ip s)).

Definition host_bits_error (entry : string) : Exc :=
  NameConstraintError (py_repr entry +:+ " has host bits set -- this would be silently widened to a " +:+
    "wider network than what was typed; use the network address instead").
Definition parse_ip_entry (entry : string) : Outcome (option IPNetwork) :=
  match ip_address entry with
  | Ok address =>
      net ← ip_network (entry +:+ "/" +:+ str_of_Z (max_prefixlen (ip_value address))) true;
      mret (Some net)
  | Raise _ =>
      if negb (contains "/" entry) then mret None
      else match ip_network entry true with
           | Ok n => mret (Some n)
           | Raise _ =>
               match ip_network entry false with
               | Ok _ => mthrow (host_bits_error entry)
               | Raise _ => mret None
               end
           end
  end.
Definition wildcard_error (entry : string) : Exc :=
  NameConstraintError (py_repr entry +:+ " is a wildcard, which is not a name-constraint entry -- a " +:+
    "subtree already means 'this name and everything below it'").
Definition parse_entry (entry : string) : Outcome (string + IPNetwork) :=
  _ ← raise_if (startswith entry "*.") (wildcard_error entry);
  network ← parse_ip_entry entry;
  match network with
  | Some n => mret (inr n)
  | None =>
      let dns_value := if startswith entry "." then str_drop 1 entry else entry in
      _ ← raise_if (bool_decide (dns_value = "") || negb (is_hostname dns_value))
            (NameConstraintError ("not a valid name-constraint entry: " +:+ py_repr entry));
      mret (inl (lower dns_value))
  end.
Definition parse_side (text : string) : Outcome (list string * list IPNetwork) :=
  parsed ← map_each (λ line, parse_entry (strip line)) (nonblank_lines text);
  let dns := omap (λ p, match p with inl d => Some d | inr _ => None end) parsed in
  let ips := omap (λ p, match p with inr n => Some n | inl _ => None end) parsed in
  let total := Z.of_nat (length dns) + Z.of_nat (length ips) in
  _ ← raise_if (MAX_NAME_CONSTRAINTS <? total)
        (NameConstraintError ("at most " +:+ str_of_Z MAX_NAME_CONSTRAINTS +:+
          " name-constraint entries are allowed on one side; found " +:+ str_of_Z total));
  mret (dns, ips).
Definition parse_name_constraints (permitted excluded : string) : Outcome NameConstraintSpec :=
  '(pd, pi) ← parse_side permitted;
  '(ed, ei) ← parse_side excluded;
  mret (mkSpec pd pi ed ei).

(** [_dns_within] *)
Definition dns_within (name constraint : string) : bool :=
  bool_decide (name = constraint) || endswith name ("." +:+ constraint).

Definition dns_subtrees (l : list GeneralName) : list string :=
  omap (λ g, match g with DNSName v => Some v | _ => None end) l.
Definition ip_subtrees (l : list GeneralName) : list IPNetwork :=
  omap (λ g, match g with IPNetworkName n => Some n | _ => None end) l.

Definition check_dns (name : string) (permitted excluded : list GeneralName) : Outcome unit :=
  let lname := lower name in
  _ ← match List.find (λ c, dns_within lname (lower c)) (dns_subtrees excluded) with
      | Some hit => mthrow (NameConstraintError (name +:+
          " is excluded by this CA's name constraints (excluded DNS: " +:+ hit +:+ ")"))
      | None => mret ()
      end;
  raise_if (nonempty (dns_subtrees permitted)
            && negb (existsb (λ c, dns_within lname (lower c)) (dns_subtrees permitted)))
    (NameConstraintError (name +:+ " is not permitted by this CA's name constraints (permitted DNS: " +:+
      join ", " (dns_subtrees permitted) +:+ ")")).
Definition check_ip (address : IPAddress) (permitted excluded : list GeneralName) : Outcome unit :=
  _ ← match List.find (in_network (ip_value address)) (ip_subtrees excluded) with
      | Some hit => mthrow (NameConstraintError (str_address address +:+
          " is excluded by this CA's name constraints (excluded IP: " +:+ str_network hit +:+ ")"))
      | None => mret ()
      end;
  raise_if (nonempty (ip_subtrees permitted)
            && negb (existsb (in_network (ip_value address)) (ip_subtrees permitted)))
    (NameConstraintError (str_address address +:+
      " is not permitted by this CA's name constraints (permitted IP: " +:+
      join ", " (map str_network (ip_subtrees permitted)) +:+ ")")).
Definition is_rfc822 (g : GeneralName) : bool := match g with RFC822Name _ => true | _ => false end.
Definition check_unevaluable (san value : string) (is_type : GeneralName → bool) (label : string)
    (permitted excluded : list GeneralName) : Outcome unit :=
  raise_if (existsb is_type (permitted ++ excluded))
    (NameConstraintError (san +:+ " cannot be evaluated against this CA's name constraints: cabin " +:+
      "does not implement " +:+ label +:+ " subtrees (value: " +:+ value +:+ ")")).

(** The names [check_name_constraints] looks at: the SANs, and the CN as a
    DNS name when there is no DNS SAN and it reads as a hostname. *)
Definition constrained_names (subject_cn : option string) (sans : list string) : list string :=
  if existsb (λ s, startswith s "DNS:") sans then sans
  else match subject_cn with
       | Some cn => if is_hostname cn then sans ++ ["DNS:" +:+ cn] else sans
       | None => sans
       end.
Definition check_name (permitted excluded : list GeneralName) (name : string) : Outcome unit :=
  let '(kind, value) := san_parts name in
  if decide (kind = "DNS") then check_dns value permitted excluded
  else if decide (kind = "IP") then
    address ← ip_address value; check_ip address permitted excluded
  else if decide (kind = "EMAIL") then
    check_unevaluable name value is_rfc822 "rfc822Name" permitted excluded
  else mret ().

(** ** Issuance *)
Section leaf.
Context {X : X509Lib}.

(** [spec] as an extension value; a side with no entry is [None]. *)
Definition some_if_nonempty {A} (l : list A) : option (list A) := if nonempty l then Some l else None.
Definition name_constraints_extension (spec : NameConstraintSpec) : Outcome (option Subtrees) :=
  if is_empty spec then mret None else
  _ ← for_each check_dns_name (permitted_dns spec);
  _ ← for_each check_dns_name (excluded_dns spec);
  let permitted := map DNSName (permitted_dns spec) ++
                   map (λ n, IPNetworkName (network_no_scope n)) (permitted_ip spec) in
  let excluded := map DNSName (excluded_dns spec) ++
                  map (λ n, IPNetworkName (network_no_scope n)) (excluded_ip spec) in
  mret (Some (some_if_nonempty permitted, some_if_nonempty excluded)).

Definition constraints_of (cert : Cert) : Outcome NameConstraintSpec :=
  nc ← optional (extension_of sel_nc cert);
  mret match nc with
       | None => mkSpec [] [] [] []
       | Some ((p, x), _) =>
           let permitted := default [] p in
           let excluded := default [] x in
           mkSpec (map lower (dns_subtrees permitted)) (ip_subtrees permitted)
                  (map lower (dns_subtrees excluded)) (ip_subtrees excluded)
       end.

Definition check_name_constraints (issuer_cert : Cert) (subject_cn : option string) (sans : list string)
  : Outcome unit :=
  nc ← optional (extension_of sel_nc issuer_cert);
  match nc with
  | None => mret ()
  | Some ((p, x), _) =>
      for_each (check_name (default [] p) (default [] x)) (constrained_names subject_cn sans)
  end.

Definition clamp_validity (issuer_cert : Cert) (days now : Z) : Outcome (Z * option Z) :=
  requested_not_after ← add_days now days;
  let not_after := Z.min requested_not_after (not_valid_after issuer_cert) in
  _ ← raise_if (not_after <=? now) (IssueError "the signing CA certificate has expired");
  mret (not_after, if not_after <? requested_not_after then Some requested_not_after else None).

Definition general_name (san : string) : Outcome GeneralName :=
  let '(kind, value) := san_parts san in
  if decide (kind = "DNS") then _ ← check_dns_name value; mret (DNSName value)
  else if decide (kind = "IP") then
    address ← ip_address value; mret (IPAddressName (ip_value address))
  else if decide (kind = "EMAIL") then _ ← check_rfc822_name value; mret (RFC822Name value)
  else mthrow (IssueError ("unsupported SAN entry: " +:+ py_repr san)).

Definition is_rsa (k : PubKey) : bool := match key_alg k with RSA _ => true | _ => false end.
Definition key_usage (profile : Profile) (k : PubKey) : KeyUsage :=
  mkKeyUsage true false (bool_decide (profile = server) && is_rsa k) false false false false false false.

(** [if url: builder.add_extension(...)]; the empty text counts as none. *)
Definition url_extension (mk : list string → ExtValue) (url : option string) : Outcome (list Extension) :=
  match url with
  | None | Some "" => mret []
  | Some u => _ ← check_uri u; mret [noncrit (mk [u])]
  end.

Definition build_leaf (issuer_cert : Cert) (issuer_key : PrivKey) (pub : PubKey)
    (subject_cn : option string) (sans : list string) (profile : Profile) (days : Z)
    (crl_url ca_issuers_url : option string) (now serial : Z) : Outcome (Cert * option Z) :=
  '(not_after, capped_from) ← clamp_validity issuer_cert days now;
  _ ← check_name_constraints issuer_cert subject_cn sans;
  subject ← match subject_cn with None => mret [] | Some cn => cn_name cn end;
  aki ← authority_key_identifier issuer_cert issuer_key;
  names ← map_each general_name sans;
  cdp ← url_extension CRLDistributionPoints crl_url;
  aia ← url_extension AuthorityInformationAccess ca_issuers_url;
  cert ← sign_with (mkTBS subject (cert_subject issuer_cert) pub serial (now - BACKDATE) not_after
    (Ok ([crit (BasicConstraints false None);
          crit (KeyUsageExt (key_usage profile pub));
          noncrit (ExtendedKeyUsage [PROFILE_EKU profile]);
          noncrit (SubjectKeyIdentifier (ski_of_public_key pub));
          noncrit aki;
          mkExtension (SubjectAlternativeName names) (negb (bool_decide (is_Some subject_cn)))]
         ++ cdp ++ aia))) issuer_key;
  mret (cert, capped_from).

Definition unsupported_key_type (key_type : string) : Exc :=
  IssueError ("unsupported key type: " +:+ py_repr key_type).

Definition issue_certificate (issuer_cert : Cert) (issuer_key : PrivKey) (profile : Profile)
    (subject_cn : string) (sans : list string) (days : Z) (key_type : string)
    (crl_url ca_issuers_url : option string) (now serial seed : Z)
  : Outcome (Cert * PrivKey * option Z) :=
  cn ← validate_cn subject_cn;
  _ ← validate_days days;
  _ ← raise_if (bool_decide (key_type ∉ KEY_TYPES)) (unsupported_key_type key_type);
  explicit ← map_each normalize_san sans;
  resolved ← resolve_sans explicit [] (Some cn);
  key ← generate_key key_type seed;
  '(cert, capped_from) ← build_leaf issuer_cert issuer_key (public_key key) (Some cn) resolved
    profile days crl_url ca_issuers_url now serial;
  mret (cert, key, capped_from).

Definition self_signed_server_certificate (subject_cn : string) (sans : list string)
    (key_type : string) (days now serial seed : Z) : Outcome (Cert * PrivKey) :=
  cn ← validate_cn subject_cn;
  explicit ← map_each normalize_san sans;
  resolved ← resolve_sans explicit [] (Some cn);
  key ← generate_key key_type seed;
  name ← cn_name cn;
  end_ ← add_days now days;
  names ← map_each general_name resolved;
  let pub := public_key key in
  cert ← sign_with (mkTBS name name pub serial (now - BACKDATE) end_
    (Ok [crit (BasicConstraints false None);
         crit (KeyUsageExt (key_usage server pub));
         noncrit (ExtendedKeyUsage [PROFILE_EKU server]);
         noncrit (SubjectKeyIdentifier (ski_of_public_key pub));
         noncrit (SubjectAlternativeName names)])) key;
  mret (cert, key).

(** The CSR's SANs under the policy of form input. *)
Definition csr_sans (csr : CsrInfo PubKey) : Outcome (list string) :=
  exts ← catch_pure (csr_extensions csr) is_value_error
    (λ e, Raise (IssueError ("could not parse the CSR's extensions: " +:+ exc_text e)));
  match find_extension sel_san exts with
  | None => mret []
  | Some (names, _) => map_each normalize_san (san_strings names)
  end.

(** The subject of the certificate: the CSR's common name, or the fallback. *)
Definition csr_cn (csr : CsrInfo PubKey) (fallback : option string) (allow_empty : bool)
  : Outcome (option string) :=
  match head (attributes_for COMMON_NAME (csr_subject csr)) with
  | Some (ABytes _) => mthrow (IssueError "the CSR's subject common name is not a text value")
  | Some (AText cn) => cn ← validate_cn cn; mret (Some cn)
  | None =>
      match fallback with
      | Some cn => cn ← validate_cn cn; mret (Some cn)
      | None => _ ← raise_if (negb allow_empty) (IssueError "the CSR has no subject common name"); mret None
      end
  end.

Definition sign_csr (issuer_cert : Cert) (issuer_key : PrivKey) (csr_pem : Pem) (profile : Profile)
    (days : Z) (sans_override : option (list string)) (crl_url ca_issuers_url : option string)
    (subject_cn_fallback : option string) (allow_empty_subject : bool) (now serial : Z)
  : Outcome (Cert * option Z) :=
  _ ← validate_days days;
  csr ← catch_pure (load_csr csr_pem) is_value_error
    (λ e, Raise (IssueError ("not a valid CSR PEM: " +:+ exc_text e)));
  _ ← raise_if (negb (is_signature_valid csr)) (IssueError "the CSR's signature is not valid");
  cn ← csr_cn csr subject_cn_fallback allow_empty_subject;
  explicit ← map_each normalize_san (default [] sans_override);
  from_csr ← csr_sans csr;
  resolved ← resolve_sans explicit from_csr cn;
  build_leaf issuer_cert issuer_key (csr_key csr) cn resolved profile days crl_url ca_issuers_url
    now serial.
End leaf.

(** ** Specifications *)

(** What [check_name_constraints] decides, form by form; how far that is RFC
    5280 is [check_name_constraints_iff].  A DNS name lies in a subtree when
    the labels of the constraint are the last labels of the name, letter case
    aside. *)
Definition in_dns_subtree (name constraint : string) : Prop :=
  split "." (lower constraint) `suffix_of` split "." (lower name).
(** A name is allowed when it is in no excluded subtree, and in some
    permitted one if there are permitted subtrees of its form.  A form cabin
    has no matcher for is allowed only when no subtree mentions it. *)
Definition dns_allowed (permitted excluded : list GeneralName) (name : string) : Prop :=
  (∀ c, DNSName c ∈ excluded → ¬ in_dns_subtree name c) ∧
  ((∃ c, DNSName c ∈ permitted) → ∃ c, DNSName c ∈ permitted ∧ in_dns_subtree name c).
Definition ip_allowed (permitted excluded : list GeneralName) (a : IP) : Prop :=
  (∀ n, IPNetworkName n ∈ excluded → in_network a n = false) ∧
  ((∃ n, IPNetworkName n ∈ permitted) → ∃ n, IPNetworkName n ∈ permitted ∧ in_network a n = true).
Definition email_allowed (permitted excluded : list GeneralName) : Prop :=
  ∀ v, RFC822Name v ∉ permitted ++ excluded.
Definition name_allowed (permitted excluded : list GeneralName) (name : string) : Prop :=
  let '(kind, value) := san_parts name in
  (kind = "DNS" → dns_allowed permitted excluded value) ∧
  (kind = "IP" → ∃ a, ip_address value = Ok a ∧ ip_allowed permitted excluded (ip_value a)) ∧
  (kind = "EMAIL" → email_allowed permitted excluded).

(** *** RFC 5280, 4.2.1.10 *)
Module Rfc5280.
(** The labels of a DNS name, in lower case; the empty name has none. *)
Definition labels (s : string) : list string := if decide (s = "") then [] else split "." (lower s).
(** "Any DNS name that can be constructed by simply adding zero or more
    labels to the left-hand side of the name satisfies the name constraint." *)
Definition dns_within (name constraint : string) : Prop := ∃ more, labels name = more ++ labels constraint.
(** The constraint is a mailbox, a host, or a domain, which begins with a dot
    and is every host below it; the case of a host does not matter. *)
Definition mail_within (mailbox constraint : string) : Prop :=
  ∃ local host, mailbox = local +:+ "@" +:+ host ∧ contains "@" host = false ∧
    ((∃ host', constraint = local +:+ "@" +:+ host' ∧ lower host' = lower host) ∨
     (contains "@" constraint = false ∧ startswith constraint "." = false ∧ lower constraint = lower host) ∨
     (contains "@" constraint = false ∧ startswith constraint "." = true ∧ ∃ below, lower host = below +:+ lower constraint)).
(** "Any name matching a restriction in the excludedSubtrees field is invalid
    regardless of information appearing in the permittedSubtrees", and a form
    with permitted subtrees needs one that matches. *)
Definition allowed_by {A} (within : A → Prop) (permitted excluded : list A) : Prop :=
  Forall (λ c, ¬ within c) excluded ∧ (permitted ≠ [] → Exists within permitted).
Definition mail_subtrees (l : list GeneralName) : list string := omap (λ g, match g with RFC822Name v => Some v | _ => None end) l.
Definition allowed (permitted excluded : list GeneralName) (name : string) : Prop :=
  let '(kind, value) := san_parts name in
  (kind = "DNS" → allowed_by (dns_within value) (dns_subtrees permitted) (dns_subtrees excluded)) ∧
  (kind = "IP" → ∃ a, ip_address value = Ok a ∧
     allowed_by (λ n, in_network (ip_value a) n = true) (ip_subtrees permitted) (ip_subtrees excluded)) ∧
  (kind = "EMAIL" → allowed_by (mail_within value) (mail_subtrees permitted) (mail_subtrees excluded)).
(** The dNSName constraints the RFC gives a meaning to, the empty one, which
    is every name, aside: sequences of labels. *)
Definition plain_dns (constraint : string) : Prop := "" ∉ split "." constraint.
End Rfc5280.

(** What every certificate [build_leaf] returns satisfies. *)
Record leaf_ok `{X : X509Lib} (issuer_cert : Cert) (issuer_key : PrivKey) (pub : PubKey)
    (cn : option string) (sans : list string) (profile : Profile) (cert : Cert) : Prop := {
  leaf_issuer : issuer (tbs cert) = cert_subject issuer_cert;
  leaf_subject : cert_subject cert = match cn with Some c => [[cn_attribute c]] | None => [] end;
  leaf_key : cert_key cert = pub;
  leaf_expiry : not_valid_after cert ≤ not_valid_after issuer_cert;
  leaf_not_ca : carries sel_bc cert (false, None);
  leaf_usage : ∃ u, carries sel_ku cert u ∧ key_cert_sign u = false ∧ crl_sign u = false;
  leaf_eku : carries sel_eku cert [PROFILE_EKU profile];
  leaf_aki : ∃ d, carries sel_aki cert (Some d) ∧
    authority_key_identifier issuer_cert issuer_key = Ok (AuthorityKeyIdentifier (Some d));
  leaf_sans : ∃ names, extension_of sel_san cert = Ok (names, negb (bool_decide (is_Some cn))) ∧
    Forall2 (λ s n, general_name s = Ok n) sans names;
  leaf_unconstrained : extension_of sel_nc cert = Raise (ExtensionNotFound "No such extension");
  leaf_constraints : ∀ p x c, extension_of sel_nc issuer_cert = Ok (p, x, c) →
    Forall (name_allowed (default [] p) (default [] x)) (constrained_names cn sans) }.

(** ** Strings *)
Lemma split_app_suffix sep c r : split sep (r +:+ String sep c) = split sep r ++ split sep c.
Proof.
  unfold split. rewrite chars_app. cbn. change (String.list_ascii_of_string c) with (chars c).
  by rewrite split_chars_app, map_app.
Qed.
Lemma split_inj sep s t : split sep s = split sep t → s = t.
Proof.
  unfold split. intros H. apply chars_inj, (split_chars_inj sep).
  by apply (inj (map of_chars)).
Qed.
(** A split text is put together again around any of its separators. *)
Lemma split_app_inv sep s l l' : l ≠ [] → l' ≠ [] → split_chars sep s = l ++ l' →
  ∃ a b, s = a ++ sep :: b ∧ split_chars sep a = l ∧ split_chars sep b = l'.
Proof.
  revert l. induction s as [|c s IH]; intros l Hl Hl' H; cbn in H.
  - destruct l as [|w [|]]; [done| |done]. by destruct l'.
  - case_bool_decide as Hc.
    + subst c. destruct l as [|w l]; [done|]. injection H as <- H. destruct l as [|w' l].
      * exists [], s. by split_and!.
      * destruct (IH (w' :: l) ltac:(done) Hl' H) as (a & b & -> & Ha & Hb).
        exists (sep :: a), b. cbn. rewrite bool_decide_eq_true_2 by done. by rewrite Ha.
    + destruct (split_chars sep s) as [|w ws] eqn:E; [by apply split_chars_nonnil in E|].
      destruct l as [|w' l]; [done|]. injection H as <- ->.
      destruct (IH (w :: l) ltac:(done) Hl' eq_refl) as (a & b & -> & Ha & Hb).
      exists (c :: a), b. cbn. by rewrite bool_decide_eq_false_2, Ha.
Qed.

Lemma dns_within_spec name constraint :
  dns_within name constraint = true ↔ split "." constraint `suffix_of` split "." name.
Proof.
  unfold dns_within. rewrite orb_true_iff, bool_decide_eq_true, endswith_spec. split.
  - intros [->|[r ->]]; [done|]. exists (split "." r). apply (split_app_suffix ".").
  - intros [p Hp]. destruct p as [|w p]; [left; by apply (split_inj ".")|right].
    unfold split in Hp. apply map_eq_app in Hp as (l1 & l2 & Hs & H1 & H2).
    apply (inj (map of_chars)) in H2 as ->.
    assert (Hl1 : l1 ≠ []) by (by intros ->).
    destruct (split_app_inv "." _ _ _ Hl1 (split_chars_nonnil _ _) Hs)
      as (a & b & Hn & _ & Hb).
    apply split_chars_inj in Hb as ->. exists (of_chars a). apply chars_inj.
    rewrite Hn, chars_app, chars_of_chars. done.
Qed.

Lemma elem_dns_subtrees l c : c ∈ dns_subtrees l ↔ DNSName c ∈ l.
Proof.
  unfold dns_subtrees. rewrite list_elem_of_omap. split.
  - intros (g & Hg & He). by destruct g; simplify_eq.
  - intros H. by exists (DNSName c).
Qed.
Lemma elem_ip_subtrees l n : n ∈ ip_subtrees l ↔ IPNetworkName n ∈ l.
Proof.
  unfold ip_subtrees. rewrite list_elem_of_omap. split.
  - intros (g & Hg & He). by destruct g; simplify_eq.
  - intros H. by exists (IPNetworkName n).
Qed.

(** A check of the form "in no excluded subtree, in some permitted one". *)
Lemma subtree_check {A} (hit : A → bool) (permitted excluded : list A) (ex : A → Exc) (e : Exc) u :
  (_ ← match List.find hit excluded with Some h => mthrow (ex h) | None => mret () end;
   raise_if (nonempty permitted && negb (existsb hit permitted)) e) = Ok u ↔
  (∀ c, c ∈ excluded → hit c = false) ∧
  ((∃ c, c ∈ permitted) → ∃ c, c ∈ permitted ∧ hit c = true).
Proof.
  destruct u. destruct (List.find hit excluded) as [h|] eqn:Hf; cbn.
  - apply find_some in Hf as [Hin Hh]. apply list_elem_of_In in Hin.
    split; [done|]. intros [H _]. by rewrite H in Hh.
  - pose proof (find_none _ _ Hf) as Hn. rewrite raise_if_ok, andb_false_iff, negb_false_iff, nonempty_false, existsb_elem.
    split.
    + intros H. split; [intros c Hc; apply Hn; by apply list_elem_of_In|].
      destruct H as [->|H]; [|done]. intros [c Hc]. by apply not_elem_of_nil in Hc.
    + intros [_ H]. destruct permitted as [|c l]; [by left|]. right. apply H. exists c. left.
Qed.

Lemma check_dns_ok name p x u : check_dns name p x = Ok u ↔ dns_allowed p x name.
Proof.
  unfold check_dns. rewrite subtree_check. unfold dns_allowed, in_dns_subtree.
  setoid_rewrite <- elem_dns_subtrees. setoid_rewrite <- dns_within_spec.
  by setoid_rewrite not_true_iff_false.
Qed.
Lemma check_ip_ok a p x u : check_ip a p x = Ok u ↔ ip_allowed p x (ip_value a).
Proof.
  unfold check_ip. rewrite subtree_check. unfold ip_allowed. by setoid_rewrite <- elem_ip_subtrees.
Qed.
Lemma check_email_ok name value p x u :
  check_unevaluable name value is_rfc822 "rfc822Name" p x = Ok u ↔ email_allowed p x.
Proof.
  unfold check_unevaluable, email_allowed. rewrite raise_if_ok. split.
  - intros H v Hv. assert (existsb is_rfc822 (p ++ x) = true); [|congruence].
    apply existsb_elem. by eexists.
  - intros H. apply not_true_iff_false. rewrite existsb_elem. intros ([] & Hin & Hr); try done.
    by eapply H.
Qed.
Lemma check_name_ok p x name u : check_name p x name = Ok u ↔ name_allowed p x name.
Proof.
  unfold check_name, name_allowed. destruct (san_parts name) as [kind value].
  destruct (decide (kind = "DNS")) as [->|Hd].
  { rewrite check_dns_ok. split; [by intros H; split_and!|intros [H _]; by apply H]. }
  destruct (decide (kind = "IP")) as [->|Hi].
  { rewrite Outcome_bind_ok. setoid_rewrite check_ip_ok.
    split; [by intros H; split_and!|intros (_ & H & _); by apply H]. }
  destruct (decide (kind = "EMAIL")) as [->|He].
  { rewrite check_email_ok. split; [by intros H; split_and!|intros (_ & _ & H); by apply H]. }
  destruct u. split; [by intros _; split_and!|done].
Qed.

(** ** Text: strip and the canonical SAN form *)
Lemma drop_while_idemp {A} (p : A → bool) l : drop_while p (drop_while p l) = drop_while p l.
Proof. induction l as [|c l IH]; cbn; [done|]. destruct (p c) eqn:E; [done|]. cbn. by rewrite E. Qed.
Lemma drop_while_suffix {A} (p : A → bool) l : drop_while p l `suffix_of` l.
Proof.
  induction l as [|c l IH]; cbn; [done|]. destruct (p c); [|done]. by apply suffix_cons_r.
Qed.
(** Nothing is dropped from a text that does not begin with such a character. *)
Lemma drop_while_head {A} (p : A → bool) l : drop_while p l = l ↔ match head l with Some c => p c = false | None => True end.
Proof.
  destruct l as [|c l]; cbn; [done|]. destruct (p c) eqn:E; [|done]. split; [|done].
  intros H. pose proof (drop_while_suffix p l) as [k Hk]. apply (f_equal length) in H, Hk.
  rewrite length_app in Hk. cbn in H. lia.
Qed.
Lemma strip_chars_idemp l : strip_chars (strip_chars l) = strip_chars l.
Proof.
  unfold strip_chars. set (m := drop_while is_space l).
  assert (Hm : drop_while is_space m = m) by apply drop_while_idemp.
  set (r := rev (drop_while is_space (rev m))).
  assert (Hr : drop_while is_space r = r).
  { apply drop_while_head. apply drop_while_head in Hm. subst r.
    pose proof (drop_while_suffix is_space (rev m)) as [k Hk].
    apply (f_equal (@rev _)) in Hk. rewrite rev_involutive, rev_app_distr in Hk. rewrite Hk in Hm.
    by destruct (rev (drop_while is_space (rev m))). }
  rewrite Hr. subst r. by rewrite rev_involutive, drop_while_idemp.
Qed.
Lemma strip_idemp s : strip (strip s) = strip s.
Proof. unfold strip. by rewrite chars_of_chars, strip_chars_idemp. Qed.

Definition no_space_at (o : option ascii) : Prop := match o with Some c => is_space c = false | None => True end.
Lemma suffix_same_length {A} (l k : list A) : l `suffix_of` k → length l = length k → l = k.
Proof.
  intros [p ->]. rewrite length_app. intros H. assert (p = []) as -> by (apply length_zero_iff_nil; lia). done.
Qed.
Lemma strip_chars_fixed l : strip_chars l = l ↔ no_space_at (head l) ∧ no_space_at (last l).
Proof.
  assert (Hd : ∀ l', drop_while is_space l' = l' ↔ no_space_at (head l')) by apply drop_while_head.
  assert (Hr : no_space_at (last l) ↔ drop_while is_space (rev l) = rev l)
    by (rewrite Hd, rev_alt; change (rev_append l []) with (reverse l); by rewrite head_reverse).
  rewrite Hr, <- Hd. unfold strip_chars. split.
  - intros H. assert (Hl : drop_while is_space l = l).
    { apply suffix_same_length; [apply drop_while_suffix|].
      pose proof (suffix_length _ _ (drop_while_suffix is_space l)).
      pose proof (suffix_length _ _ (drop_while_suffix is_space (rev (drop_while is_space l)))) as H2.
      apply (f_equal length) in H. rewrite length_rev in *. lia. }
    rewrite Hl in H. split; [done|]. apply (f_equal (@rev _)) in H. by rewrite rev_involutive in H.
  - intros [-> ->]. apply rev_involutive.
Qed.
Lemma strip_fixed s : strip s = s ↔ strip_chars (chars s) = chars s.
Proof.
  unfold strip. split.
  - intros H. apply (f_equal chars) in H. by rewrite chars_of_chars in H.
  - intros ->. apply of_chars_chars.
Qed.

Lemma partition_chars_app sep k l : sep ∉ k → partition_chars sep (k ++ sep :: l) = (k, true, l).
Proof.
  induction k as [|c k IH]; intros Hk; cbn; [by rewrite bool_decide_eq_true_2|].
  rewrite not_elem_of_cons in Hk. destruct Hk as [Hc Hk].
  rewrite bool_decide_eq_false_2 by congruence. by rewrite IH.
Qed.

(** The canonical form: a known kind, a colon, a value with no blanks around it. *)
Definition san_text (kind value : string) : string := upper_kind kind +:+ ":" +:+ value.
Definition valid_san_value (kind value : string) : Prop :=
  kind ∈ SAN_PREFIXES ∧ strip value = value ∧ value ≠ "" ∧
  (kind = "ip" → is_ip value = true) ∧ (kind = "dns" → is_hostname value = true) ∧
  (kind = "email" → contains "@" value = true ∧ has_space value = false).
Ltac san_cases Hk :=
  unfold SAN_PREFIXES in Hk; repeat (apply elem_of_cons in Hk as [->|Hk]);
  [..|by apply not_elem_of_nil in Hk].

Lemma partition_san kind value : kind ∈ SAN_PREFIXES →
  partition ":" (san_text kind value) = (upper_kind kind, true, value).
Proof.
  intros Hk. unfold partition, san_text. rewrite !chars_app.
  change (chars ":" ++ chars value) with (":"%char :: chars value).
  rewrite partition_chars_app; [by rewrite !of_chars_chars|].
  san_cases Hk; by_decide.
Qed.
Lemma san_parts_text kind value : kind ∈ SAN_PREFIXES → san_parts (san_text kind value) = (upper_kind kind, value).
Proof. intros Hk. unfold san_parts. by rewrite partition_san. Qed.
Lemma chars_nonnil s : s ≠ "" → chars s ≠ [].
Proof. by destruct s. Qed.
Lemma strip_san kind value : kind ∈ SAN_PREFIXES → value ≠ "" → strip value = value →
  strip (san_text kind value) = san_text kind value.
Proof.
  intros Hk Hv%chars_nonnil Hs. apply strip_fixed. apply strip_fixed, strip_chars_fixed in Hs as [_ Hl].
  apply strip_chars_fixed. unfold san_text. rewrite !chars_app. split.
  - by san_cases Hk.
  - rewrite !last_app. destruct (last (chars value)) eqn:E; [done|]. by apply last_None in E.
Qed.

Lemma san_kind_spec raw kind value : strip raw = raw → san_kind raw = (kind, value) →
  kind ∈ SAN_PREFIXES ∧ strip value = value.
Proof.
  intros Hraw. unfold san_kind. destruct (partition ":" raw) as [[p sep] rest].
  assert (Hin : "ip" ∈ SAN_PREFIXES ∧ "email" ∈ SAN_PREFIXES ∧ "dns" ∈ SAN_PREFIXES)
    by (split_and!; by_decide).
  destruct (sep && bool_decide _) eqn:Hp.
  - apply andb_true_iff in Hp as [_ Hp]. apply bool_decide_eq_true in Hp.
    intros [= <- <-]. split; [done|apply strip_idemp].
  - destruct (is_ip raw); [|destruct (contains "@" raw)]; intros [= <- <-]; naive_solver.
Qed.
Lemma san_kind_text kind value : kind ∈ SAN_PREFIXES → strip value = value →
  san_kind (san_text kind value) = (kind, value).
Proof.
  intros Hk Hv. unfold san_kind. rewrite partition_san by done. rewrite Hv.
  assert (Hl : lower (strip (upper_kind kind)) = kind) by (by clear Hv; san_cases Hk).
  rewrite Hl, bool_decide_eq_true_2 by done. done.
Qed.

Lemma guard_false (P : Prop) `{Decision P} (b : bool) : (P → b = false) → bool_decide P && b = false.
Proof. intros Hb. case_bool_decide; [by apply Hb|done]. Qed.
Lemma normalize_san_ok entry t : normalize_san entry = Ok t ↔
  ∃ kind value, san_kind (strip entry) = (kind, value) ∧ t = san_text kind value ∧ valid_san_value kind value.
Proof.
  unfold normalize_san. destruct (san_kind (strip entry)) as [kind value] eqn:Hk.
  pose proof (san_kind_spec _ _ _ (strip_idemp entry) Hk) as [Hin Hv].
  split.
  - intros H. inv_tx. exists kind, value. unfold valid_san_value.
    rewrite bool_decide_eq_false in *.
    repeat match goal with H : bool_decide (kind = ?k) && ?b = false |- _ =>
      assert (kind = k → b = false) by (intros Hkk; by rewrite bool_decide_eq_true_2 in H); clear H end.
    split_and!; try done; intros He.
    + by apply negb_false_iff; auto.
    + by apply negb_false_iff; auto.
    + match goal with H : kind = "email" → _ |- _ =>
        specialize (H He); by apply orb_false_iff in H as [?%negb_false_iff ?] end.
  - intros (k & v & [= <- <-] & -> & (_ & _ & Hne & Hip & Hdns & Hem)).
    rewrite (bool_decide_eq_false_2 (value = "")) by done.
    rewrite !guard_false; [done|..]; intros He;
      first [by rewrite Hip|by rewrite Hdns|by destruct (Hem He) as [-> ->]].
Qed.

(** ** Correctness of the text functions *)

(** The label-boundary match of [_dns_within] is the RFC's notion of a
    DNS subtree: it holds exactly when the labels of the constraint are the
    last labels of the name, so [badexample.com] is not within
    [example.com]. *)
Theorem dns_within_iff_label_suffix name constraint :
  dns_within name constraint = true ↔ split "." constraint `suffix_of` split "." name.
Proof. apply dns_within_spec. Qed.

(** Normalising a SAN entry is idempotent; an entry in canonical form
    passes through unchanged, whatever spelling it came from. *)
Theorem normalize_san_idempotent entry san :
  normalize_san entry = Ok san → normalize_san san = Ok san.
Proof.
  intros (kind & value & _ & -> & Hv)%normalize_san_ok. apply normalize_san_ok.
  exists kind, value. destruct Hv as (Hk & Hs & Hne & Hrest).
  rewrite strip_san, san_kind_text by done. by split_and!.
Qed.

Lemma resolve_sans_spec explicit csr cn sans : resolve_sans explicit csr cn = Ok sans ↔
  Z.of_nat (length sans) ≤ MAX_SANS ∧
  ((py_or explicit csr ≠ [] ∧ sans = dedup (py_or explicit csr)) ∨
   (explicit = [] ∧ csr = [] ∧ ∃ c san, cn = Some c ∧ san_from_cn c = Some san ∧ sans = [san])).
Proof.
  unfold resolve_sans. split.
  - intros H. inv_tx. split; [lia|]. destruct (py_or explicit csr) as [|s l] eqn:E; inv_tx; [right|by left].
    unfold py_or in E. destruct explicit; [|done]. cbn in E. apply bind_Some in H as (c & -> & Hc).
    naive_solver.
  - intros [Hlen [[Hne ->]|(-> & -> & c & san & -> & Hc & ->)]].
    + destruct (py_or explicit csr) as [|s l]; [done|]. cbn [mbind Outcome_bind mret Outcome_ret].
      by replace (MAX_SANS <? _) with false by lia.
    + cbn [py_or nonempty]. cbn [mbind option_bind]. by rewrite Hc.
Qed.

(** The SAN list a certificate is issued for is never empty, has no
    repeated entry and at most [MAX_SANS] entries, and comes from the first
    source that has any: the explicit list, else the CSR's, else the common
    name. *)
Theorem resolve_sans_ladder explicit csr cn sans :
  resolve_sans explicit csr cn = Ok sans →
  sans ≠ [] ∧ NoDup sans ∧ Z.of_nat (length sans) ≤ MAX_SANS ∧
  (∀ s, s ∈ sans ↔
    (explicit ≠ [] ∧ s ∈ explicit) ∨
    (explicit = [] ∧ csr ≠ [] ∧ s ∈ csr) ∨
    (explicit = [] ∧ csr = [] ∧ cn ≫= san_from_cn = Some s)).
Proof.
  intros [Hlen H]%resolve_sans_spec. destruct H as [[Hne ->]|(-> & -> & c & san & -> & Hc & ->)].
  - split_and!; [by intros ?%dedup_nil_inv|apply NoDup_dedup|done|].
    intros s. rewrite elem_of_dedup. unfold py_or in *. destruct explicit as [|e l]; cbn in *; naive_solver.
  - split_and!; [done|apply NoDup_singleton|done|].
    intros s. rewrite list_elem_of_singleton. cbn. rewrite Hc. naive_solver.
Qed.

(** *** Name-constraint entries *)

(** *** Name-constraint entries *)
Lemma parse_ip_entry_valid entry n : parse_ip_entry entry = Ok (Some n) → valid_network n.
Proof.
  unfold parse_ip_entry. destruct (ip_address entry) as [a|e].
  - intros H. inv_tx. by eapply ip_network_valid.
  - destruct (negb _); [done|]. destruct (ip_network entry true) as [m|] eqn:E.
    + intros [= <-]. by eapply ip_network_valid.
    + by destruct (ip_network entry false).
Qed.
Definition normal_dns (d : string) : Prop := lower d = d ∧ ∃ v, is_hostname v = true ∧ d = lower v.
Lemma parse_entry_normal entry r : parse_entry entry = Ok r →
  match r with inl d => normal_dns d | inr n => valid_network n end.
Proof.
  unfold parse_entry. intros H. apply Outcome_bind_ok in H as (u & _ & H).
  apply Outcome_bind_ok in H as ([n|] & Hn & H).
  - injection H as <-. by apply parse_ip_entry_valid in Hn.
  - apply Outcome_bind_ok in H as (u' & Hd & [= <-]). apply raise_if_ok, orb_false_iff in Hd as [_ Hd].
    apply negb_false_iff in Hd. split; [apply lower_idemp|]. by eexists.
Qed.
Definition normal_side (dns : list string) (ips : list IPNetwork) : Prop :=
  Forall normal_dns dns ∧ Forall valid_network ips ∧
  Z.of_nat (length dns) + Z.of_nat (length ips) ≤ MAX_NAME_CONSTRAINTS.
Lemma parse_side_normal text dns ips : parse_side text = Ok (dns, ips) → normal_side dns ips.
Proof.
  unfold parse_side. intros H. apply Outcome_bind_ok in H as (parsed & Hp & H).
  apply Outcome_bind_ok in H as (u & Hn & [= <- <-]). apply raise_if_ok in Hn.
  apply map_each_ok in Hp.
  assert (Hall : Forall (λ r : string + IPNetwork,
    match r with inl d => normal_dns d | inr n => valid_network n end) parsed).
  { eapply Forall2_Forall_r; [exact Hp|]. apply Forall_forall. intros line _ r. apply parse_entry_normal. }
  rewrite Forall_forall in Hall.
  split_and!; [..|lia]; apply Forall_forall; intros y (r & Hr & Hy)%list_elem_of_omap;
    specialize (Hall r Hr); by destruct r; simplify_eq.
Qed.
Lemma parse_name_constraints_normal p x spec : parse_name_constraints p x = Ok spec →
  normal_side (permitted_dns spec) (permitted_ip spec) ∧ normal_side (excluded_dns spec) (excluded_ip spec).
Proof.
  unfold parse_name_constraints. intros H.
  apply Outcome_bind_ok in H as ([pd pi] & Hp & H). apply Outcome_bind_ok in H as ([ed ei] & He & [= <-]).
  split; by eapply parse_side_normal.
Qed.

(** The scope of an IPv6 network is not part of its encoding. *)
Definition spec_no_scope (s : NameConstraintSpec) : NameConstraintSpec :=
  mkSpec (permitted_dns s) (map network_no_scope (permitted_ip s))
         (excluded_dns s) (map network_no_scope (excluded_ip s)).

Section leaf_theorems.
Context {X : X509Lib}.

Lemma dns_subtrees_app l l' : dns_subtrees (l ++ l') = dns_subtrees l ++ dns_subtrees l'.
Proof. apply omap_app. Qed.
Lemma ip_subtrees_app l l' : ip_subtrees (l ++ l') = ip_subtrees l ++ ip_subtrees l'.
Proof. apply omap_app. Qed.
Lemma subtrees_of_side dns ips :
  let l := map DNSName dns ++ map (λ n, IPNetworkName (network_no_scope n)) ips in
  dns_subtrees l = dns ∧ ip_subtrees l = map network_no_scope ips.
Proof.
  cbn. rewrite dns_subtrees_app, ip_subtrees_app.
  assert (H1 : dns_subtrees (map DNSName dns) = dns) by (induction dns; cbn; by f_equal).
  assert (H2 : ip_subtrees (map DNSName dns) = []) by (clear; induction dns as [|d dns IH]; [done|exact IH]).
  assert (H3 : dns_subtrees (map (λ n, IPNetworkName (network_no_scope n)) ips) = [])
    by (clear; induction ips as [|n ips IH]; [done|exact IH]).
  assert (H4 : ip_subtrees (map (λ n, IPNetworkName (network_no_scope n)) ips) = map network_no_scope ips)
    by (clear; induction ips; cbn; by f_equal).
  by rewrite H1, H2, H3, H4, app_nil_r.
Qed.
Lemma default_some_if_nonempty {A} (l : list A) : default [] (some_if_nonempty l) = l.
Proof. by destruct l. Qed.
Lemma map_lower_normal l : Forall normal_dns l → map lower l = l.
Proof. induction 1 as [|d l [Hd _] _ IH]; cbn; [done|]. by rewrite Hd, IH. Qed.

(** What the operator typed is what the certificate says.  The name
    constraints of an intermediate, read back from its certificate, are the
    ones parsed from the form: at most [MAX_NAME_CONSTRAINTS] a side, DNS
    suffixes that are hostnames in lower case, networks without host bits. *)
Theorem name_constraints_roundtrip p x spec ext root_cert root_key cn kt years now serial seed cert key :
  parse_name_constraints p x = Ok spec →
  name_constraints_extension spec = Ok ext →
  create_intermediate root_cert root_key cn kt years ext now serial seed = Ok (cert, key) →
  constraints_of cert = Ok (spec_no_scope spec) ∧
  normal_side (permitted_dns spec) (permitted_ip spec) ∧
  normal_side (excluded_dns spec) (excluded_ip spec).
Proof.
  intros Hparse Hext Hcert. pose proof (parse_name_constraints_normal _ _ _ Hparse) as [Hp Hx].
  split; [|done]. apply create_intermediate_nc in Hcert. unfold constraints_of.
  unfold name_constraints_or_none in Hcert. rewrite Hcert. cbn [mbind Outcome_bind mret Outcome_ret].
  unfold name_constraints_extension in Hext. destruct (is_empty spec) eqn:He.
  - injection Hext as <-. cbn. unfold is_empty in He. apply negb_true_iff in He.
    rewrite !orb_false_iff, !nonempty_false in He. destruct He as [[[H1 H2] H3] H4].
    unfold spec_no_scope. by rewrite H1, H2, H3, H4.
  - inv_tx. cbn [option_map]. rewrite !default_some_if_nonempty.
    destruct (subtrees_of_side (permitted_dns spec) (permitted_ip spec)) as [-> ->].
    destruct (subtrees_of_side (excluded_dns spec) (excluded_ip spec)) as [-> ->].
    rewrite !map_lower_normal by apply Hp || apply Hx. done.
Qed.

(** ** Correctness of the issuing functions *)
Lemma check_name_constraints_ok issuer_cert cn sans u :
  check_name_constraints issuer_cert cn sans = Ok u ↔
  ∃ nc, optional (extension_of sel_nc issuer_cert) = Ok nc ∧
    match nc with
    | None => True
    | Some (p, x, _) => Forall (name_allowed (default [] p) (default [] x)) (constrained_names cn sans)
    end.
Proof.
  unfold check_name_constraints. destruct u. rewrite Outcome_bind_ok.
  apply exist_proper. intros [[[p x] c]|]; apply and_iff_compat_l; [|done].
  rewrite for_each_ok. apply Forall_proper; [|done]. intros s. apply check_name_ok.
Qed.

Lemma not_nil_elem {A} (l : list A) : l ≠ [] ↔ ∃ c, c ∈ l.
Proof. destruct l as [|c l]; split; [done|by intros (c & ?%elem_of_nil)|intros _; exists c; left|done]. Qed.
(** The two readings of a subtree agree where there are labels. *)
Lemma rfc_dns_within name c : Rfc5280.plain_dns c → Rfc5280.dns_within name c ↔ in_dns_subtree name c.
Proof.
  intros Hc. assert (Hne : c ≠ "") by (intros ->; apply Hc; left).
  unfold Rfc5280.dns_within, Rfc5280.labels, in_dns_subtree. rewrite (decide_False (P := c = "")) by done.
  destruct (decide (name = "")) as [->|Hn]; [|done].
  assert (Hl : lower c ≠ "").
  { intros Hl. apply Hne. by destruct c. }
  assert (Hsplit : ∀ s, split "." s ≠ []).
  { intros s Hs. by apply map_eq_nil, split_chars_nonnil in Hs. }
  split; intros [more H].
  - exfalso. symmetry in H. apply app_nil in H as [_ H]. by apply (Hsplit (lower c)).
  - exfalso. apply Hl. change (split "." (lower "")) with [""] in H. destruct more as [|m more]; cbn in H.
    + symmetry in H. by apply (split_inj "." (lower c) "").
    + injection H as _ H. symmetry in H. apply app_nil in H as [_ H]. by apply Hsplit in H.
Qed.
Lemma rfc_dns_allowed p x name : Forall Rfc5280.plain_dns (dns_subtrees p ++ dns_subtrees x) →
  Rfc5280.allowed_by (Rfc5280.dns_within name) (dns_subtrees p) (dns_subtrees x) ↔ dns_allowed p x name.
Proof.
  intros Hplain. rewrite Forall_forall in Hplain. unfold Rfc5280.allowed_by, dns_allowed. rewrite Forall_forall, Exists_exists.
  assert (Hw : ∀ c, c ∈ dns_subtrees p ++ dns_subtrees x → Rfc5280.dns_within name c ↔ in_dns_subtree name c)
    by (intros c Hc; by apply rfc_dns_within, Hplain).
  setoid_rewrite elem_of_app in Hw. setoid_rewrite <- elem_dns_subtrees. f_equiv.
  - split; intros H c Hc; [rewrite <- Hw by auto|rewrite Hw by auto]; auto.
  - rewrite not_nil_elem. split; intros H Hp; destruct (H Hp) as (c & Hc & Hin); exists c; (split; [done|]); by apply Hw; auto.
Qed.
Lemma rfc_ip_allowed p x a : Rfc5280.allowed_by (λ n, in_network a n = true) (ip_subtrees p) (ip_subtrees x) ↔ ip_allowed p x a.
Proof.
  unfold Rfc5280.allowed_by, ip_allowed. rewrite Forall_forall, Exists_exists. setoid_rewrite <- elem_ip_subtrees.
  setoid_rewrite not_true_iff_false. by rewrite not_nil_elem.
Qed.
Lemma elem_mail_subtrees l v : v ∈ Rfc5280.mail_subtrees l ↔ RFC822Name v ∈ l.
Proof.
  unfold Rfc5280.mail_subtrees. rewrite list_elem_of_omap. split.
  - intros (g & Hg & He). by destruct g; simplify_eq.
  - intros H. by exists (RFC822Name v).
Qed.
Definition is_mail (name : string) : bool := bool_decide ((san_parts name).1 = "EMAIL").
Lemma rfc_name_allowed p x name : Forall Rfc5280.plain_dns (dns_subtrees p ++ dns_subtrees x) →
  name_allowed p x name ↔
  Rfc5280.allowed p x name ∧ (is_mail name = true → Rfc5280.mail_subtrees (p ++ x) = []).
Proof.
  intros Hplain. unfold name_allowed, Rfc5280.allowed, is_mail. rewrite bool_decide_eq_true.
  destruct (san_parts name) as [kind value]. cbn [fst]. rewrite rfc_dns_allowed by done. setoid_rewrite rfc_ip_allowed.
  assert (Hnil : email_allowed p x ↔ Rfc5280.mail_subtrees (p ++ x) = []).
  { unfold email_allowed. setoid_rewrite <- elem_mail_subtrees. split; [apply elem_of_nil_inv|by intros -> v ?%elem_of_nil]. }
  rewrite Hnil. unfold Rfc5280.mail_subtrees. rewrite omap_app, app_nil. unfold Rfc5280.allowed_by. split.
  - intros (H1 & H2 & H3). split_and!; [done|done| |done]. intros Hk. destruct (H3 Hk) as [-> ->]. by split.
  - intros ((H1 & H2 & _) & H3). by split_and!.
Qed.

(** C16: [check_name_constraints] accepts a DNS name or an address exactly
    when RFC 5280 allows it.  For an issuer whose dNSName subtrees are made
    of labels (none empty, none with a leading dot) the check returns normally
    if and only if every SAN, and a hostname-like common name when no SAN is a
    DNS name, is in no excluded subtree of its form, and in a permitted one
    where its form has any, as 4.2.1.10 defines it for DNS names, addresses
    and mailboxes; and, where the issuer has a subtree for mail, which cabin
    does not evaluate, none of them is a mailbox.  An issuer without the
    extension allows everything.  Subtrees of other forms, those for the
    directory name of the subject included, are not looked at. *)
Theorem check_name_constraints_iff issuer_cert cn sans nc :
  optional (extension_of sel_nc issuer_cert) = Ok nc →
  (∀ p x c, nc = Some (p, x, c) → Forall Rfc5280.plain_dns (dns_subtrees (default [] p) ++ dns_subtrees (default [] x))) →
  (check_name_constraints issuer_cert cn sans = Ok () ↔
   match nc with
   | None => True
   | Some (p, x, _) =>
       Forall (Rfc5280.allowed (default [] p) (default [] x)) (constrained_names cn sans) ∧
       (Rfc5280.mail_subtrees (default [] p ++ default [] x) ≠ [] → Forall (λ name, is_mail name = false) (constrained_names cn sans))
   end).
Proof.
  intros Hnc Hplain. rewrite check_name_constraints_ok.
  transitivity (match nc with None => True | Some (p, x, _) => Forall (name_allowed (default [] p) (default [] x)) (constrained_names cn sans) end).
  { split; [|by exists nc]. intros (nc' & Hnc' & H). by rewrite Hnc in Hnc'; simplify_eq. }
  destruct nc as [[[p x] c]|]; [|done]. specialize (Hplain p x c eq_refl). rewrite !Forall_forall. split.
  - intros H. split; [intros s Hs; by apply (rfc_name_allowed _ _ _ Hplain), H|]. intros Hmail s Hs. apply not_true_iff_false. intros Hm.
    apply Hmail. by apply (proj1 (rfc_name_allowed _ _ s Hplain) (H s Hs)).
  - intros [H Hmail] s Hs. apply (rfc_name_allowed _ _ _ Hplain). split; [by apply H|]. intros Hm. apply dec_stable. intros Hne.
    specialize (Hmail Hne s Hs). congruence.
Qed.

Lemma clamp_validity_ok issuer_cert n now end_ capped :
  clamp_validity issuer_cert n now = Ok (end_, capped) ↔
  Z.abs n ≤ 999999999 ∧ in_datetime (now + days n) ∧
  end_ = Z.min (now + days n) (not_valid_after issuer_cert) ∧ now < end_ ∧
  capped = if end_ <? now + days n then Some (now + days n) else None.
Proof.
  unfold clamp_validity. split.
  - intros H. apply Outcome_bind_ok in H as (req & (-> & Hn & Hd)%add_days_ok & H).
    apply Outcome_bind_ok in H as (u & Hexp%raise_if_ok & [= <- <-]). split_and!; [done..|lia|done].
  - intros (Hn & Hd & -> & Hlt & ->). rewrite (proj2 (add_days_ok now n _)) by done.
    cbn [mbind Outcome_bind]. by replace (_ <=? now) with false by lia.
Qed.

(** The validity clamp grants the requested validity or, if that is
    shorter, what is left of the issuer's; it reports the requested expiry
    exactly when it cut it, and refuses exactly when nothing is left.  [n]
    days from [now] is assumed to be a date. *)
Theorem clamp_validity_exact issuer_cert n now :
  0 ≤ n ≤ MAX_DAYS → in_datetime (now + days n) →
  clamp_validity issuer_cert n now =
    let requested := now + days n in
    let limit := not_valid_after issuer_cert in
    if Z.min requested limit <=? now then Raise (IssueError "the signing CA certificate has expired")
    else if requested <=? limit then Ok (requested, None) else Ok (limit, Some requested).
Proof.
  intros Hn Hd. unfold clamp_validity. unfold MAX_DAYS in Hn.
  rewrite (proj2 (add_days_ok now n _)) by (split_and!; [done|lia|done]). cbn [mbind Outcome_bind].
  destruct (Z.leb_spec (Z.min (now + days n) (not_valid_after issuer_cert)) now); [done|].
  cbn. destruct (Z.leb_spec (now + days n) (not_valid_after issuer_cert)).
  - rewrite Z.min_l by lia. by rewrite Z.ltb_irrefl.
  - rewrite Z.min_r by lia. by replace (_ <? _) with true by lia.
Qed.

Lemma url_extension_ok mk url exts : url_extension mk url = Ok exts →
  exts = [] ∨ ∃ u, exts = [noncrit (mk [u])].
Proof.
  destruct url as [[|c s]|]; cbn [url_extension]; [intros [= <-]; by left| |intros [= <-]; by left].
  intros H. inv_tx. right. by eexists.
Qed.

Lemma build_leaf_sound issuer_cert issuer_key pub cn sans profile n crl aia now serial cert capped :
  build_leaf issuer_cert issuer_key pub cn sans profile n crl aia now serial = Ok (cert, capped) →
  leaf_ok issuer_cert issuer_key pub cn sans profile cert ∧
  serial_number (tbs cert) = serial ∧
  ∃ end_, clamp_validity issuer_cert n now = Ok (end_, capped) ∧ not_valid_after cert = floor_second end_.
Proof.
  unfold build_leaf. intros H.
  apply Outcome_bind_ok in H as ([end_ capped'] & Hclamp & H).
  apply Outcome_bind_ok in H as (u & Hnc & H).
  apply Outcome_bind_ok in H as (sub & Hsub & H).
  apply Outcome_bind_ok in H as (aki & Haki & H).
  apply Outcome_bind_ok in H as (names & Hnames%map_each_ok & H).
  apply Outcome_bind_ok in H as (cdp & Hcdp%url_extension_ok & H).
  apply Outcome_bind_ok in H as (aia' & Haia%url_extension_ok & H).
  apply Outcome_bind_ok in H as (cert' & Ht%sign_with_ok & [= -> ->]).
  destruct (authority_key_identifier_spec _ _ _ Haki) as (d & -> & _).
  apply check_name_constraints_ok in Hnc as (nc & Hnc & Hall).
  assert (Hend : end_ ≤ not_valid_after issuer_cert) by (apply clamp_validity_ok in Hclamp; lia).
  assert (Hsub' : sub = match cn with Some c => [[cn_attribute c]] | None => [] end).
  { destruct cn; [by apply cn_name_ok in Hsub|by injection Hsub as <-]. }
  assert (Hext : ∀ A (sel : ExtValue → option A), extension_of sel cert = _)
    by (intros; eapply signed_extension; [exact Ht|done]).
  pose proof (floor_second_le end_).
  split_and!; [constructor|by rewrite Ht|exists end_; unfold not_valid_after; by rewrite Ht];
    unfold cert_subject, cert_key, not_valid_after, carries in *; rewrite ?Ht, ?Hext; cbn; try done; try lia.
  - by eexists.
  - eexists. split_and!; [by eexists|done..].
  - by eexists.
  - exists d. split; [by eexists|done].
  - by eexists.
  - by destruct Hcdp as [->|[? ->]], Haia as [->|[? ->]].
  - intros p x c Hc. apply optional_ok in Hnc as [([[p' x'] c'] & Hnc & ->)|(s & Hnc & ->)];
      rewrite Hc in Hnc; by simplify_eq.
Qed.

Lemma build_leaf_dates issuer_cert issuer_key pub cn sans profile n crl aia now serial cert capped :
  build_leaf issuer_cert issuer_key pub cn sans profile n crl aia now serial = Ok (cert, capped) → dates_ok cert.
Proof. unfold build_leaf. intros H. inv_x509. by eapply sign_with_dates. Qed.
(** The validity a leaf gets, and what is reported of the one asked for. *)
Definition clamped (issuer_cert : Cert) (n now : Z) (cert : Cert) (capped : option Z) : Prop :=
  not_valid_after cert = floor_second (Z.min (now + days n) (not_valid_after issuer_cert)) ∧
  capped = if not_valid_after issuer_cert <? now + days n then Some (now + days n) else None.
Lemma build_leaf_clamped issuer_cert issuer_key pub cn sans profile n crl aia now serial cert capped :
  build_leaf issuer_cert issuer_key pub cn sans profile n crl aia now serial = Ok (cert, capped) → clamped issuer_cert n now cert capped.
Proof.
  intros (_ & _ & end_ & (_ & _ & -> & _ & ->)%clamp_validity_ok & Hna)%build_leaf_sound. split; [done|].
  destruct (Z.ltb_spec (Z.min (now + days n) (not_valid_after issuer_cert)) (now + days n)),
    (Z.ltb_spec (not_valid_after issuer_cert) (now + days n)); try done; lia.
Qed.
Lemma issue_certificate_clamped issuer_cert issuer_key profile cn0 sans n kt crl aia now serial seed cert key capped :
  issue_certificate issuer_cert issuer_key profile cn0 sans n kt crl aia now serial seed = Ok (cert, key, capped) →
  clamped issuer_cert n now cert capped.
Proof. unfold issue_certificate. intros H. inv_x509. by eapply build_leaf_clamped. Qed.
(** What the two ways of issuing have in common. *)
Lemma issue_certificate_leaf issuer_cert issuer_key profile cn0 sans n kt crl aia now serial seed cert key capped :
  issue_certificate issuer_cert issuer_key profile cn0 sans n kt crl aia now serial seed = Ok (cert, key, capped) →
  serial_number (tbs cert) = serial ∧ dates_ok cert ∧
  ∃ cn resolved, leaf_ok issuer_cert issuer_key (public_key key) (Some cn) resolved profile cert.
Proof.
  unfold issue_certificate. intros H. inv_x509.
  match goal with H : build_leaf _ _ _ _ _ _ _ _ _ _ _ = Ok _ |- _ =>
    pose proof (build_leaf_dates _ _ _ _ _ _ _ _ _ _ _ _ _ H); apply build_leaf_sound in H as (? & ? & _) end.
  split_and!; eauto.
Qed.
(** The names a request is certified for, when the caller names them. *)
Definition names_resolved (override : option (list string)) (resolved : list string) : Prop :=
  ∃ explicit, Forall2 (λ s t, normalize_san s = Ok t) (default [] override) explicit ∧
    (default [] override ≠ [] → resolved = dedup explicit).
Lemma resolved_explicit override explicit csr cn resolved :
  Forall2 (λ s t, normalize_san s = Ok t) (default [] override) explicit → resolve_sans explicit csr cn = Ok resolved →
  names_resolved override resolved.
Proof.
  intros Hf [_ Hr]%resolve_sans_spec. exists explicit. split; [done|]. intros Hne.
  assert (Hex : explicit ≠ []) by (intros ->; by apply Forall2_nil_inv_r in Hf).
  destruct Hr as [[_ ->]|(-> & _)]; [|done]. unfold py_or. by destruct explicit.
Qed.
Lemma sign_csr_leaf issuer_cert issuer_key pem profile n override crl aia fallback allow_empty now serial cert capped :
  sign_csr issuer_cert issuer_key pem profile n override crl aia fallback allow_empty now serial = Ok (cert, capped) →
  serial_number (tbs cert) = serial ∧ dates_ok cert ∧
  ∃ csr cn resolved, load_csr pem = Ok csr ∧ names_resolved override resolved ∧
    leaf_ok issuer_cert issuer_key (csr_key csr) cn resolved profile cert ∧ clamped issuer_cert n now cert capped.
Proof.
  unfold sign_csr. intros H. inv_x509.
  match goal with H : build_leaf _ _ _ _ _ _ _ _ _ _ _ = Ok _ |- _ =>
    pose proof (build_leaf_dates _ _ _ _ _ _ _ _ _ _ _ _ _ H); pose proof (build_leaf_clamped _ _ _ _ _ _ _ _ _ _ _ _ _ H);
    apply build_leaf_sound in H as (? & ? & _) end.
  match goal with H : map_each normalize_san _ = Ok _ |- _ => apply map_each_ok in H end.
  split_and!; eauto 10 using resolved_explicit.
Qed.

Lemma validate_days_ok n u : validate_days n = Ok u ↔ MIN_DAYS ≤ n ≤ MAX_DAYS.
Proof. unfold validate_days. destruct u. rewrite raise_if_ok, negb_false_iff, andb_true_iff. lia. Qed.

(** C5: a certificate issued with a generated key is a leaf of its issuer and
    nothing more.  It carries the issuer's name and key identifier, ends no
    later than the issuer, is not a CA certificate and cannot sign
    certificates or CRLs, is bound to the profile's one extended key usage,
    lists exactly the normalised requested names (or the common name), and
    every name satisfies the issuer's name constraints; the returned key is
    the certified one, and the reported cap is the clamp's. *)
Theorem issue_certificate_sound issuer_cert issuer_key profile subject_cn sans n kt crl aia
    now serial seed cert key capped :
  issue_certificate issuer_cert issuer_key profile subject_cn sans n kt crl aia now serial seed
    = Ok (cert, key, capped) →
  MIN_DAYS ≤ n ≤ MAX_DAYS ∧ is_signing_key key = true ∧
  ∃ cn explicit resolved end_,
    validate_cn subject_cn = Ok cn ∧
    Forall2 (λ s t, normalize_san s = Ok t) sans explicit ∧
    resolve_sans explicit [] (Some cn) = Ok resolved ∧
    leaf_ok issuer_cert issuer_key (public_key key) (Some cn) resolved profile cert ∧
    clamp_validity issuer_cert n now = Ok (end_, capped) ∧
    not_valid_after cert = floor_second end_.
Proof.
  unfold issue_certificate. intros H.
  apply Outcome_bind_ok in H as (cn & Hcn & H).
  apply Outcome_bind_ok in H as (u & Hdays%validate_days_ok & H).
  apply Outcome_bind_ok in H as (u' & _ & H).
  apply Outcome_bind_ok in H as (explicit & Hex%map_each_ok & H).
  apply Outcome_bind_ok in H as (resolved & Hres & H).
  apply Outcome_bind_ok in H as (key' & Hkey%generate_key_ok & H).
  apply Outcome_bind_ok in H as ([cert' capped'] & Hleaf & [= -> -> ->]).
  apply build_leaf_sound in Hleaf as (Hok & _ & end_ & Hclamp & Hend).
  split_and!; try done; try lia. by exists cn, explicit, resolved, end_.
Qed.

(** C6: a signed request gives a leaf for the request's own key with the same
    guarantees, only from a CSR whose signature is valid; when the caller
    names the SANs, exactly those are certified, and otherwise the CSR's, each
    through the policy of form input. *)
Theorem sign_csr_sound issuer_cert issuer_key pem profile n override crl aia fallback allow_empty
    now serial cert capped :
  sign_csr issuer_cert issuer_key pem profile n override crl aia fallback allow_empty now serial
    = Ok (cert, capped) →
  MIN_DAYS ≤ n ≤ MAX_DAYS ∧
  ∃ csr cn explicit from_csr resolved,
    load_csr pem = Ok csr ∧ is_signature_valid csr = true ∧
    csr_cn csr fallback allow_empty = Ok cn ∧
    Forall2 (λ s t, normalize_san s = Ok t) (default [] override) explicit ∧
    csr_sans csr = Ok from_csr ∧
    resolve_sans explicit from_csr cn = Ok resolved ∧
    leaf_ok issuer_cert issuer_key (csr_key csr) cn resolved profile cert.
Proof.
  unfold sign_csr. intros H.
  apply Outcome_bind_ok in H as (u & Hdays%validate_days_ok & H).
  apply Outcome_bind_ok in H as (csr & Hcsr%catch_pure_ok & H).
  apply Outcome_bind_ok in H as (u' & Hsig%raise_if_ok%negb_false_iff & H).
  apply Outcome_bind_ok in H as (cn & Hcn & H).
  apply Outcome_bind_ok in H as (explicit & Hex%map_each_ok & H).
  apply Outcome_bind_ok in H as (from_csr & Hfrom & H).
  apply Outcome_bind_ok in H as (resolved & Hres & H).
  apply build_leaf_sound in H as (Hok & _).
  split; [lia|]. by exists csr, cn, explicit, from_csr, resolved.
Qed.

(** A CSR contributes its key, its first common name and its SANs, and
    nothing else.  Two well-signed requests that agree on these three get the
    same answer, whatever other extensions or subject attributes they carry,
    so no request can talk cabin into another kind of certificate. *)
Theorem sign_csr_ignores_other_extensions issuer_cert issuer_key pem pem' csr csr' profile n override
    crl aia fallback allow_empty now serial :
  load_csr pem = Ok csr → load_csr pem' = Ok csr' →
  is_signature_valid csr = is_signature_valid csr' →
  csr_key csr = csr_key csr' →
  head (attributes_for COMMON_NAME (csr_subject csr)) = head (attributes_for COMMON_NAME (csr_subject csr')) →
  csr_sans csr = csr_sans csr' →
  sign_csr issuer_cert issuer_key pem profile n override crl aia fallback allow_empty now serial =
  sign_csr issuer_cert issuer_key pem' profile n override crl aia fallback allow_empty now serial.
Proof.
  intros H H' Hsig Hkey Hcn Hsans. unfold sign_csr. rewrite H, H'. cbn [catch_pure].
  destruct (validate_days n) as [[]|]; [|done]. cbn [mbind Outcome_bind]. rewrite Hsig, Hkey.
  unfold csr_cn. by rewrite Hcn, Hsans.
Qed.
End leaf_theorems.

(** ** The theorems at work *)
Module LeafExamples.
#[local] Existing Instance Toy.lib.
Import Toy X509.Examples.
Definition leaf : SignedCert * Key * option Z :=
  got (no_cert, no_key, None)
    (issue_certificate ca ca_key server "nas.lan" ["nas.lan"; "dns:NAS.lan"] 90 "ed25519"
       (Some "http://ca/crl/1") None t2026 7 103).
Definition lan_csr : CsrInfo Key :=
  mkCsr [[cn_attribute "nas.lan"]] (EC "secp256r1", 55)
    (Ok [mkExtension (SubjectAlternativeName [DNSName "nas.lan"]) false]) true.
(** The same request, asking to be a CA. *)
Definition greedy_csr : CsrInfo Key :=
  mkCsr [[cn_attribute "nas.lan"]] (EC "secp256r1", 55)
    (Ok [mkExtension (BasicConstraints true None) true;
         mkExtension (SubjectAlternativeName [DNSName "nas.lan"]) false]) true.

Lemma normalize_san_idempotent_witness :
  normalize_san " dns: NAS.lan " = Ok "DNS:NAS.lan" ∧ normalize_san "DNS:NAS.lan" = Ok "DNS:NAS.lan".
Proof.
  split; [vm_compute; reflexivity|].
  apply (normalize_san_idempotent " dns: NAS.lan "). vm_compute. reflexivity.
Defined.
Lemma resolve_sans_ladder_witness :
  resolve_sans [] [] (Some "10.0.0.1") = Ok ["IP:10.0.0.1"] ∧ NoDup ["IP:10.0.0.1"].
Proof.
  split; [vm_compute; reflexivity|].
  refine (proj1 (proj2 (resolve_sans_ladder [] [] (Some "10.0.0.1") ["IP:10.0.0.1"] _))).
  vm_compute. reflexivity.
Defined.
Lemma check_name_constraints_iff_witness :
  optional (extension_of sel_nc ca) = Ok (Some (lan, true)) ∧
  (check_name_constraints ca None ["DNS:nas.lan"] = Ok () ↔
   Forall (Rfc5280.allowed [DNSName "lan"] []) ["DNS:nas.lan"] ∧
   (Rfc5280.mail_subtrees [DNSName "lan"] ≠ [] → Forall (λ name, is_mail name = false) ["DNS:nas.lan"])).
Proof.
  split; [vm_compute; reflexivity|].
  apply (check_name_constraints_iff (X:=lib) ca None ["DNS:nas.lan"] (Some (lan, true))).
  - vm_compute. reflexivity.
  - intros p x c [= <- <- _]. by_decide.
Defined.
(** To RFC 5280 an empty dNSName subtree is every name; excluding it excludes
    nothing here. *)
Example empty_subtree_excludes_nothing :
  map (λ name, check_dns name [] [DNSName ""]) ["nas.lan"; "www.example.com"; "localhost"] = [Ok (); Ok (); Ok ()] ∧
  ∀ name, Rfc5280.dns_within name "".
Proof. split; [vm_compute; reflexivity|]. intros name. exists (Rfc5280.labels name). by rewrite app_nil_r. Qed.
Lemma clamp_validity_exact_witness :
  in_datetime (t2026 + days 90) ∧
  clamp_validity ca 90 t2026 = Ok (t2026 + days 90, None).
Proof.
  split; [split; vm_compute; first [discriminate|reflexivity]|].
  refine (eq_trans (clamp_validity_exact (X:=lib) ca 90 t2026 _ _) _).
  - split; vm_compute; discriminate.
  - split; vm_compute; first [discriminate|reflexivity].
  - vm_compute. reflexivity.
Defined.
Lemma name_constraints_roundtrip_witness :
  constraints_of ca = Ok (mkSpec ["lan"] [] [] []).
Proof.
  refine (proj1 (name_constraints_roundtrip (X:=lib) ".LAN" "" (mkSpec ["lan"] [] [] []) (Some lan)
    root root_key "CA" "ed25519" 10 t2026 3 102 ca ca_key _ _ _)); vm_compute; reflexivity.
Defined.
Lemma issue_certificate_sound_witness : is_signing_key (snd (fst leaf)) = true.
Proof.
  refine (proj1 (proj2 (issue_certificate_sound (X:=lib) ca ca_key server "nas.lan" ["nas.lan"; "dns:NAS.lan"]
    90 "ed25519" (Some "http://ca/crl/1") None t2026 7 103 (fst (fst leaf)) (snd (fst leaf)) (snd leaf) _))).
  vm_compute. reflexivity.
Defined.
Lemma sign_csr_sound_witness :
  is_ok (sign_csr ca ca_key (CsrText lan_csr) server 90 None None None None false t2026 8) = true ∧
  MIN_DAYS ≤ 90 ≤ MAX_DAYS.
Proof.
  split; [vm_compute; reflexivity|].
  refine (proj1 (sign_csr_sound (X:=lib) ca ca_key (CsrText lan_csr) server 90 None None None None false t2026 8
    (fst (got (no_cert, None) (sign_csr ca ca_key (CsrText lan_csr) server 90 None None None None false t2026 8)))
    None _)).
  vm_compute. reflexivity.
Defined.
Lemma sign_csr_ignores_other_extensions_witness :
  sign_csr ca ca_key (CsrText lan_csr) server 90 None None None None false t2026 8 =
  sign_csr ca ca_key (CsrText greedy_csr) server 90 None None None None false t2026 8.
Proof.
  apply (sign_csr_ignores_other_extensions (X:=lib) ca ca_key (CsrText lan_csr) (CsrText greedy_csr) lan_csr greedy_csr);
    vm_compute; reflexivity.
Defined.

(** Two spellings of one address are two SAN entries of one certificate: the
    de-duplication of [resolve_sans] compares texts, and [normalize_san]
    keeps the spelling. *)
Definition twice : Outcome (SignedCert * Key * option Z) :=
  issue_certificate root root_key server "nas" ["::1"; "0:0::1"] 90 "ed25519" None None t2026 9 104.
Example same_address_twice :
  (x ← twice; extension_of sel_san (fst (fst x))) =
  Ok ([IPAddressName (V6 1); IPAddressName (V6 1)], false).
Proof. vm_compute. reflexivity. Qed.
(** An e-mail SAN outside ASCII passes the policy and is then refused by the
    package's constructor, with a [ValueError] and not an [IssueError]. *)
Definition latin_email : string := of_chars [char_of 246; "@"%char; "x"%char].
Example latin_email_escapes :
  is_ok (normalize_san latin_email) = true ∧
  issue_certificate root root_key server "nas" [latin_email] 90 "ed25519" None None t2026 9 104 =
  Raise (ValueError "should be passed as an A-label string").
Proof. split; vm_compute; reflexivity. Qed.
End LeafExamples.
