(* ===== verification/Store.v ===== *)
(** * The database

    The tables of [cabin.store] as finite maps keyed by primary key, with the
    row types of the ORM models ([ca/service.py], [ca/certs.py], [ca/crl.py],
    [users.py], [sessions.py], [api_tokens.py], [issuer_grants.py],
    [settings.py], [acme/models.py], [acme/eab.py]).  A column no modelled
    operation reads is left out.  Timestamp columns of type text hold the text
    of [isoformat]; the [DateTime] columns hold an instant.  JSON columns hold
    the data they encode.

    Keys sealed at rest go through the interface [SecretStore]. *)

From S2P Require Import Prelude PyStr Json PyTime X509Lib.
#[local] Open Scope Z_scope.

(** ** The secrets layer as its clients use it *)
Inductive Plain {P : Type} := PlainPem (p : P) | PlainBytes (b : string).
Arguments Plain : clear implicits.
Class SecretStore {X : X509Lib} := {
  Sealed : Type;
  seal : Z → Plain Pem → Sealed;  (* under a random nonce *)
  unseal : Sealed → Outcome (Plain Pem);
  unseal_seal : ∀ n p, unseal (seal n p) = Ok p;
}.

(** ** Enumerations *)
Inductive CAKind := Root | Intermediate | Cross.
#[export] Instance CAKind_eq_dec : EqDecision CAKind.
Proof. solve_decision. Defined.
Inductive CAStatus := Active | Retired.
#[export] Instance CAStatus_eq_dec : EqDecision CAStatus.
Proof. solve_decision. Defined.
Inductive Role := superadmin | admin | viewer.
#[export] Instance Role_eq_dec : EqDecision Role.
Proof. solve_decision. Defined.
Inductive RevocationReason :=
  | unspecified | key_compromise | affiliation_changed | superseded | cessation_of_operation.
#[export] Instance RevocationReason_eq_dec : EqDecision RevocationReason.
Proof. solve_decision. Defined.
Inductive CertSource := ui | api | acme | mcp | system.
#[export] Instance CertSource_eq_dec : EqDecision CertSource.
Proof. solve_decision. Defined.
Inductive AccountStatus := acc_valid | acc_deactivated | acc_revoked.
#[export] Instance AccountStatus_eq_dec : EqDecision AccountStatus.
Proof. solve_decision. Defined.
Inductive OrderStatus := ord_pending | ord_ready | ord_processing | ord_valid | ord_invalid.
#[export] Instance OrderStatus_eq_dec : EqDecision OrderStatus.
Proof. solve_decision. Defined.
Inductive AuthorizationStatus := authz_pending | authz_valid | authz_invalid | authz_expired.
#[export] Instance AuthorizationStatus_eq_dec : EqDecision AuthorizationStatus.
Proof. solve_decision. Defined.
Inductive ChallengeStatus := chall_pending | chall_processing | chall_valid | chall_invalid.
#[export] Instance ChallengeStatus_eq_dec : EqDecision ChallengeStatus.
Proof. solve_decision. Defined.

(** [cabin.audit] *)
Inductive ActorKind := k_user | k_token | k_system | k_acme.
#[export] Instance ActorKind_eq_dec : EqDecision ActorKind.
Proof. solve_decision. Defined.
Inductive AuditAction :=
  | a_login_success | a_login_failed | a_logout | a_user_created | a_user_role_changed
  | a_user_password_reset | a_user_deleted | a_ca_created | a_ca_imported | a_ca_renewed | a_ca_retired
  | a_ca_cross_signed | a_ca_cross_imported | a_ca_key_exported | a_settings_changed | a_cert_issued
  | a_cert_signed | a_cert_revoked | a_token_created | a_token_revoked | a_user_issuers_changed
  | a_token_issuers_changed | a_acme_account_created | a_acme_account_deactivated | a_acme_order_created
  | a_acme_challenge_validated | a_acme_challenge_failed | a_acme_certificate_issued
  | a_acme_certificate_revoked | a_acme_eab_key_created | a_acme_eab_key_revoked | a_tls_certificate_issued
  | a_tls_certificate_failed.
#[export] Instance AuditAction_eq_dec : EqDecision AuditAction.
Proof. solve_decision. Defined.

(** ** Rows *)
Section rows.
Context {X : X509Lib} {SS : SecretStore}.

(** [created_at] of a CA row is a column default that nothing reads. *)
Record CARow := mkCA {
  ca_id : Z; ca_kind : CAKind; ca_name : string; parent_id : option Z; cross_of_id : option Z;
  ca_status : CAStatus; ca_cert : Pem; ca_key : option Sealed }.

Record CertRow := mkCert {
  crt_id : Z; crt_issuer : Z; serial_hex : string; subject_cn : string; crt_sans : list string;
  crt_profile : string; crt_not_before : string; crt_not_after : string; crt_pem : Pem;
  crt_key : option Sealed; created_at : Z; revoked_at : option string;
  revocation_reason : option RevocationReason; crt_source : CertSource }.

Record CrlRow := mkCrlRow { crl_issuer_id : Z; crl_number : Z; generated_at : Z; crl_der : Crl }.

Record UserRow := mkUser {
  user_id : Z; username : string; password_hash : string; user_role : Role; user_created : Z }.
Record SessionRow := mkSessionRow {
  session_hash : string; session_user : Z; csrf_token : string; session_created : Z; session_expires : Z;
  flash : option string }.
Record TokenRow := mkToken {
  token_id : Z; label : string; token_hash : string; token_role : Role; token_created : Z;
  last_used_at : option Z; token_expires : option Z; token_revoked : option Z }.

Record AccountRow := mkAccount {
  acc_id : string; kid_hash : string; jwk_json : gmap string string; jwk_thumbprint : string;
  acc_status : AccountStatus; contacts : option (list string); tos_agreed_at : option string;
  acc_created : string; acc_issuer : Z }.
Record OrderRow := mkOrder {
  ord_id : string; ord_account : string; ord_status : OrderStatus;
  ord_identifiers : list (string * string); ord_not_before : option string;
  ord_not_after : option string; ord_expires : string; certificate_id : option Z;
  ord_error : option string; ord_created : string }.
Record AuthzRow := mkAuthz {
  authz_id : string; authz_order : string; identifier_type : string; identifier_value : string;
  authz_status : AuthorizationStatus; authz_expires : string; authz_wildcard : bool }.
Record ChallengeRow := mkChallenge {
  chall_id : string; chall_authz : string; chall_type : string; chall_token : string;
  chall_status : ChallengeStatus; validated_at : option string; chall_error : option string }.

(** [hmac_sealed] is the sealed MAC key. *)
Record EabRow := mkEab {
  eab_id : string; hmac_sealed : Sealed; eab_label : string; eab_created : string;
  bound_account_id : option string; bound_at : option string; eab_revoked_at : option string; eab_issuer : Z }.
(** [detail_json] holds a dict written with sorted keys. *)
Record AuditRow := mkAudit {
  aud_id : Z; occurred_at : string; actor_kind : ActorKind; actor_id : option Z; actor_label : string;
  aud_action : AuditAction; target_type : option string; target_id : option string; aud_summary : string;
  aud_detail : option (gmap string json); aud_ip : option string }.

(** The tables.  The two grant tables have no column besides their key. *)
Record DB := mkDB {
  cas : gmap Z CARow;
  certs : gmap Z CertRow;
  crls : gmap Z CrlRow;
  users : gmap Z UserRow;
  sessions : gmap string SessionRow;
  tokens : gmap Z TokenRow;
  user_issuers : gset (Z * Z);
  token_issuers : gset (Z * Z);
  settings : gmap string string;
  accounts : gmap string AccountRow;
  nonces : gmap string string;
  orders : gmap string OrderRow;
  authzs : gmap string AuthzRow;
  challenges : gmap string ChallengeRow;
  eab_keys : gmap string EabRow;
  audit_events : gmap Z AuditRow }.
Definition empty_db : DB := mkDB ∅ ∅ ∅ ∅ ∅ ∅ ∅ ∅ ∅ ∅ ∅ ∅ ∅ ∅ ∅ ∅.

(** Writes to one table leave the others alone. *)
Definition on_cas f db := mkDB (f (cas db)) (certs db) (crls db) (users db) (sessions db) (tokens db)
  (user_issuers db) (token_issuers db) (settings db) (accounts db) (nonces db) (orders db) (authzs db) (challenges db)
  (eab_keys db) (audit_events db).
Definition on_certs f db := mkDB (cas db) (f (certs db)) (crls db) (users db) (sessions db) (tokens db)
  (user_issuers db) (token_issuers db) (settings db) (accounts db) (nonces db) (orders db) (authzs db) (challenges db)
  (eab_keys db) (audit_events db).
Definition on_crls f db := mkDB (cas db) (certs db) (f (crls db)) (users db) (sessions db) (tokens db)
  (user_issuers db) (token_issuers db) (settings db) (accounts db) (nonces db) (orders db) (authzs db) (challenges db)
  (eab_keys db) (audit_events db).
Definition on_users f db := mkDB (cas db) (certs db) (crls db) (f (users db)) (sessions db) (tokens db)
  (user_issuers db) (token_issuers db) (settings db) (accounts db) (nonces db) (orders db) (authzs db) (challenges db)
  (eab_keys db) (audit_events db).
Definition on_sessions f db := mkDB (cas db) (certs db) (crls db) (users db) (f (sessions db)) (tokens db)
  (user_issuers db) (token_issuers db) (settings db) (accounts db) (nonces db) (orders db) (authzs db) (challenges db)
  (eab_keys db) (audit_events db).
Definition on_tokens f db := mkDB (cas db) (certs db) (crls db) (users db) (sessions db) (f (tokens db))
  (user_issuers db) (token_issuers db) (settings db) (accounts db) (nonces db) (orders db) (authzs db) (challenges db)
  (eab_keys db) (audit_events db).
Definition on_user_issuers f db := mkDB (cas db) (certs db) (crls db) (users db) (sessions db) (tokens db)
  (f (user_issuers db)) (token_issuers db) (settings db) (accounts db) (nonces db) (orders db) (authzs db) (challenges db)
  (eab_keys db) (audit_events db).
Definition on_token_issuers f db := mkDB (cas db) (certs db) (crls db) (users db) (sessions db) (tokens db)
  (user_issuers db) (f (token_issuers db)) (settings db) (accounts db) (nonces db) (orders db) (authzs db) (challenges db)
  (eab_keys db) (audit_events db).
Definition on_settings f db := mkDB (cas db) (certs db) (crls db) (users db) (sessions db) (tokens db)
  (user_issuers db) (token_issuers db) (f (settings db)) (accounts db) (nonces db) (orders db) (authzs db) (challenges db)
  (eab_keys db) (audit_events db).
Definition on_accounts f db := mkDB (cas db) (certs db) (crls db) (users db) (sessions db) (tokens db)
  (user_issuers db) (token_issuers db) (settings db) (f (accounts db)) (nonces db) (orders db) (authzs db) (challenges db)
  (eab_keys db) (audit_events db).
Definition on_nonces f db := mkDB (cas db) (certs db) (crls db) (users db) (sessions db) (tokens db)
  (user_issuers db) (token_issuers db) (settings db) (accounts db) (f (nonces db)) (orders db) (authzs db) (challenges db)
  (eab_keys db) (audit_events db).
Definition on_orders f db := mkDB (cas db) (certs db) (crls db) (users db) (sessions db) (tokens db)
  (user_issuers db) (token_issuers db) (settings db) (accounts db) (nonces db) (f (orders db)) (authzs db) (challenges db)
  (eab_keys db) (audit_events db).
Definition on_authzs f db := mkDB (cas db) (certs db) (crls db) (users db) (sessions db) (tokens db)
  (user_issuers db) (token_issuers db) (settings db) (accounts db) (nonces db) (orders db) (f (authzs db)) (challenges db)
  (eab_keys db) (audit_events db).
Definition on_challenges f db := mkDB (cas db) (certs db) (crls db) (users db) (sessions db) (tokens db)
  (user_issuers db) (token_issuers db) (settings db) (accounts db) (nonces db) (orders db) (authzs db) (f (challenges db))
  (eab_keys db) (audit_events db).
Definition on_eab_keys f db := mkDB (cas db) (certs db) (crls db) (users db) (sessions db) (tokens db)
  (user_issuers db) (token_issuers db) (settings db) (accounts db) (nonces db) (orders db) (authzs db) (challenges db)
  (f (eab_keys db)) (audit_events db).
Definition on_audit f db := mkDB (cas db) (certs db) (crls db) (users db) (sessions db) (tokens db)
  (user_issuers db) (token_issuers db) (settings db) (accounts db) (nonces db) (orders db) (authzs db) (challenges db)
  (eab_keys db) (f (audit_events db)).
End rows.

(** ** Queries *)

(** The id SQLite gives a new row of an [INTEGER PRIMARY KEY] table. *)
Definition next_id {A} (m : gmap Z A) : Z := map_fold (λ k _ n, Z.max (k + 1) n) 1 m.

Lemma next_id_bound {A} (m : gmap Z A) : 1 ≤ next_id m ∧ ∀ k, is_Some (m !! k) → k < next_id m.
Proof.
  unfold next_id. induction m as [|i x m Hi IH] using map_ind.
  - rewrite map_fold_empty. split; [lia|]. intros k. rewrite lookup_empty. by intros [].
  - rewrite map_fold_insert_L by (lia || done). destruct IH as [IH1 IH2]. split; [lia|].
    intros k. destruct (decide (i = k)) as [->|Hne]; [lia|].
    rewrite lookup_insert_ne by done. intros ?%IH2. lia.
Qed.
Lemma next_id_fresh {A} (m : gmap Z A) : m !! next_id m = None.
Proof.
  destruct (m !! next_id m) eqn:E; [|done]. destruct (next_id_bound m) as [_ H].
  specialize (H (next_id m) ltac:(by eexists)). lia.
Qed.
Lemma next_id_pos {A} (m : gmap Z A) : 1 ≤ next_id m.
Proof. apply next_id_bound. Qed.

(** The rows of a table that satisfy a test, in the order of their keys:
    [select(T).where(...).order_by(T.id)]. *)
Class KeyOrder (K : Type) := {
  key_le : relation K;
  key_le_dec :: RelDecision key_le;
  key_le_trans :: Transitive key_le;
  key_le_total :: Total key_le }.
#[export] Instance Z_key_order : KeyOrder Z := {| key_le := Z.le |}.
Lemma cmp_chars_trans a b c : cmp_chars a b ≠ Gt → cmp_chars b c ≠ Gt → cmp_chars a c ≠ Gt.
Proof.
  revert b c. induction a as [|x a IH]; intros [|y b] [|z c]; cbn; try done.
  unfold Ascii.compare.
  destruct (N.compare_spec (N_of_ascii x) (N_of_ascii y)) as [Hxy|Hxy|Hxy]; cbn; [|intros _|done].
  - rewrite Hxy. destruct (N_of_ascii y ?= N_of_ascii z)%N; cbn; [apply IH|done|done].
  - destruct (N.compare_spec (N_of_ascii y) (N_of_ascii z)) as [Hyz|Hyz|Hyz]; cbn; [|intros _|done].
    + rewrite <- Hyz. by rewrite (proj2 (N.compare_lt_iff _ _) Hxy).
    + by rewrite (proj2 (N.compare_lt_iff _ _) (N.lt_trans _ _ _ Hxy Hyz)).
Qed.
Lemma str_leb_true a b : str_leb a b = true ↔ cmp_chars (chars a) (chars b) ≠ Gt.
Proof. unfold str_leb. rewrite compare_chars. by destruct (cmp_chars _ _). Qed.
Definition str_le (a b : string) : Prop := str_leb a b = true.
#[export] Instance str_le_trans : Transitive str_le.
Proof. intros a b c. unfold str_le. rewrite !str_leb_true. apply cmp_chars_trans. Qed.
#[export] Instance str_le_total : Total str_le.
Proof.
  intros a b. unfold str_le, str_leb. rewrite (String.compare_antisym b a).
  destruct (String.compare a b); cbn; auto.
Qed.
#[export] Instance str_le_dec : RelDecision str_le.
Proof. intros a b. unfold str_le. apply _. Defined.
#[export] Instance string_key_order : KeyOrder string := {| key_le := str_le |}.

Lemma NoDup_map_filter {A B} (f : A → B) (p : A → bool) l : NoDup (map f l) → NoDup (map f (List.filter p l)).
Proof.
  induction l as [|x l IH]; cbn; [done|]. intros Hnd. inversion Hnd as [|? ? Hx Hl]; subst.
  destruct (p x); cbn; [constructor|]; auto. contradict Hx.
  apply list_elem_of_In, in_map_iff in Hx as (y & <- & [Hy _]%filter_In). by apply list_elem_of_In, in_map.
Qed.

Section rows_where.
Context {K A : Type} `{Countable K} `{!KeyOrder K}.
Implicit Types (m : gmap K A) (p : A → bool).

Definition key_row_le : relation (K * A) := λ a b, key_le (fst a) (fst b).
#[export] Instance key_row_le_dec : RelDecision key_row_le.
Proof. intros a b. unfold key_row_le. apply _. Defined.

Definition rows_where m p : list A :=
  List.filter p (map snd (merge_sort key_row_le (map_to_list m))).

Lemma elem_of_rows_where m p a : a ∈ rows_where m p ↔ p a = true ∧ ∃ k, m !! k = Some a.
Proof.
  unfold rows_where. rewrite list_elem_of_In, filter_In, <- list_elem_of_In.
  change (@map) with (fun A B => @fmap list _ A B). rewrite list_elem_of_fmap. split.
  - intros [([k a'] & -> & Hin) Hp]. split; [done|]. exists k.
    rewrite merge_sort_Permutation in Hin. by apply elem_of_map_to_list in Hin.
  - intros [Hp [k Hk]]. split; [|done]. exists (k, a). split; [done|].
    rewrite merge_sort_Permutation. by apply elem_of_map_to_list.
Qed.
Lemma rows_where_nil m p : rows_where m p = [] ↔ ∀ k a, m !! k = Some a → p a = false.
Proof.
  split.
  - intros Hn k a Hk. apply not_true_iff_false. intros Hp.
    assert (Hin : a ∈ rows_where m p) by (apply elem_of_rows_where; split; [done|by exists k]).
    rewrite Hn in Hin. by apply not_elem_of_nil in Hin.
  - intros H0. destruct (rows_where m p) as [|a l] eqn:E; [done|].
    assert (Hin : a ∈ rows_where m p) by (rewrite E; left).
    apply elem_of_rows_where in Hin as [Hp [k Hk]]. by rewrite (H0 k a Hk) in Hp.
Qed.
Lemma rows_where_sorted m : StronglySorted key_row_le (merge_sort key_row_le (map_to_list m)).
Proof. apply StronglySorted_merge_sort; [intros [] [] []; apply key_le_trans|intros [] []; apply key_le_total]. Qed.
Lemma rows_where_ordered m p (kf : A → K) : (∀ k a, m !! k = Some a → kf a = k) →
  StronglySorted (λ a b, key_le (kf a) (kf b)) (rows_where m p).
Proof.
  intros Hkf. unfold rows_where.
  assert (Hin : ∀ x, x ∈ merge_sort key_row_le (map_to_list m) → kf (snd x) = fst x).
  { intros [k a]. rewrite merge_sort_Permutation, elem_of_map_to_list. apply Hkf. }
  pose proof (rows_where_sorted m) as Hs. induction Hs as [|x l Hs IH Hx]; cbn; [constructor|].
  assert (Htl : StronglySorted (λ a b, key_le (kf a) (kf b)) (List.filter p (map snd l))).
  { apply IH. intros; apply Hin; by right. }
  destruct (p (snd x)); [|done]. constructor; [done|]. apply Forall_forall. intros b Hb.
  apply list_elem_of_In, filter_In in Hb as [(y & <- & Hy)%in_map_iff _]. apply list_elem_of_In in Hy.
  rewrite !Hin; [|by right|left]. by rewrite Forall_forall in Hx; apply Hx.
Qed.
Lemma rows_where_NoDup m p (kf : A → K) : (∀ k a, m !! k = Some a → kf a = k) →
  NoDup (map kf (rows_where m p)).
Proof.
  intros Hkf. unfold rows_where.
  assert (Hin : ∀ x, x ∈ merge_sort key_row_le (map_to_list m) → kf (snd x) = fst x).
  { intros [k a]. rewrite merge_sort_Permutation, elem_of_map_to_list. apply Hkf. }
  assert (Hnd : NoDup (map fst (merge_sort key_row_le (map_to_list m)))).
  { change (@map) with (fun A B => @fmap list _ A B). rewrite merge_sort_Permutation. apply NoDup_fst_map_to_list. }
  apply NoDup_map_filter. rewrite map_map.
  replace (map (λ x, kf x.2) _) with (map fst (merge_sort key_row_le (map_to_list m))); [done|].
  apply map_ext_in. intros x Hx%list_elem_of_In. symmetry. by apply Hin.
Qed.
Lemma rows_where_andb m p q : rows_where m (λ a, p a && q a) = List.filter q (rows_where m p).
Proof.
  unfold rows_where. induction (map snd _) as [|a l IH]; cbn; [done|].
  destruct (p a); cbn; [|done]. by rewrite IH.
Qed.
Lemma rows_where_ext m p q : (∀ k a, m !! k = Some a → p a = q a) → rows_where m p = rows_where m q.
Proof.
  intros Hpq. apply filter_ext_in. intros a Ha. apply list_elem_of_In in Ha.
  assert (Hin : a ∈ rows_where m (λ _, true)).
  { unfold rows_where. apply list_elem_of_In, filter_In. split; [by apply list_elem_of_In|done]. }
  apply elem_of_rows_where in Hin as [_ [k Hk]]. eauto.
Qed.
End rows_where.

(** [db.scalar(select(T).where(...))]: the first match. *)
Definition first_where {K A} `{Countable K, !KeyOrder K} (m : gmap K A) (p : A → bool) : option A :=
  head (rows_where m p).
Lemma first_where_some {K A} `{Countable K, !KeyOrder K} (m : gmap K A) (p : A → bool) a :
  first_where m p = Some a → p a = true ∧ ∃ k, m !! k = Some a.
Proof.
  unfold first_where. intros Hh. apply elem_of_rows_where. by apply head_Some_elem_of.
Qed.
Lemma first_where_none {K A} `{Countable K, !KeyOrder K} (m : gmap K A) (p : A → bool) :
  first_where m p = None ↔ ∀ k a, m !! k = Some a → p a = false.
Proof. unfold first_where. rewrite <- rows_where_nil. by destruct (rows_where m p). Qed.

(** [update(T).where(T.id == k, p).values(...)]: the row count and the table. *)
Definition update_where {K A} `{Countable K} (m : gmap K A) (k : K) (p : A → bool) (f : A → A) : bool * gmap K A :=
  match m !! k with
  | Some a => if p a then (true, <[k := f a]> m) else (false, m)
  | None => (false, m)
  end.
(** [delete(T).where(p)] *)
Definition delete_where {K A} `{Countable K} (m : gmap K A) (p : A → bool) : gmap K A :=
  filter (λ '(_, a), p a = false) m.
Lemma lookup_delete_where {K A} `{Countable K} (m : gmap K A) p k a :
  delete_where m p !! k = Some a ↔ m !! k = Some a ∧ p a = false.
Proof. unfold delete_where. by rewrite map_lookup_filter_Some. Qed.

(** ** Setters *)
Create HintDb store.
#[export] Hint Unfold on_cas on_certs on_crls on_users on_sessions on_tokens on_user_issuers
  on_token_issuers on_settings on_accounts on_nonces on_orders on_authzs on_challenges : store.

(** ** An instance of the secrets layer for the concrete checks *)
#[refine] Definition toy_secrets : SecretStore (X := Toy.lib) := {|
  Sealed := Z * Plain (@Pem Toy.lib);
  seal := λ n p, (n, p);
  unseal := λ s, Ok (snd s) |}.
Proof. done. Defined.
