(* ===== verification/Settings.v ===== *)
(** * [cabin.settings]: the key-value settings

    Reading and writing a setting, checkbox settings and the resolver list. *)

From S2P Require Import Prelude PyStr PyTime IPAddr X509Lib Store.
#[local] Open Scope Z_scope.

Definition BASE_URL : string := "base_url".
Definition ALLOW_PRIVATE_VALIDATION_TARGETS : string := "allow_private_validation_targets".
Definition DNS_RESOLVERS : string := "dns_resolvers".
Definition MAX_DNS_RESOLVERS : Z := 4.
Definition TRUE_VALUES : list string := ["1"; "true"; "yes"; "on"].

Section settings.
Context {X : X509Lib} {SS : SecretStore}.

Definition get_setting (key : string) (db : DB) : option string := settings db !! key.
Definition set_setting (key value : string) : Tx DB unit :=
  _ ← modify (on_settings (λ m, <[key := value]> m));
  commit.
Definition get_flag (key : string) (dflt : bool) (db : DB) : bool :=
  match get_setting key db with
  | None => dflt
  | Some raw => bool_decide (lower (strip raw) ∈ TRUE_VALUES)
  end.
End settings.

(** [validate_dns_resolvers]: blank entries are skipped, the others must be
    addresses. *)
Fixpoint resolver_addresses (entries : list string) : Outcome (list string) :=
  match entries with
  | [] => mret []
  | e :: rest =>
      let candidate := strip e in
      if decide (candidate = "") then resolver_addresses rest else
      a ← catch_pure (ip_address candidate) (λ e, match e with ValueError _ => true | _ => false end)
            (λ _, Raise (SettingError (str_take 200 ("a DNS resolver must be an IP address, not " +:+ py_repr candidate))));
      l ← resolver_addresses rest;
      mret (str_address a :: l)
  end.
Definition validate_dns_resolvers (raw : string) : Outcome string :=
  addresses ← resolver_addresses (split "," raw);
  _ ← raise_if (MAX_DNS_RESOLVERS <? Z.of_nat (length addresses))
        (SettingError ("at most " +:+ str_of_Z MAX_DNS_RESOLVERS +:+ " DNS resolvers can be configured"));
  mret (join "," addresses).
