(* ===== verification/CaService.v ===== *)
(** * [cabin.ca.service]: CA hierarchies in the database

    Lookup, chains and trust anchors, issuer selection, creation, import,
    cross-signing, retirement and in-place renewal, as transactions over
    [DB].  [Draw] holds what one call takes from its environment: the clock,
    the random serial number, the seed of a generated key and the nonce it is
    sealed under. *)

From S2P Require Import Prelude PyStr PyTime IPAddr X509Lib X509 Leaf Store.
#[local] Open Scope Z_scope.

Record Draw := mkDraw { d_now : Z; d_serial : Z; d_seed : Z; d_nonce : Z }.

Definition id_text (n : Z) : string := str_of_Z n.

(** ** Errors, with the messages of the source *)
Definition unknown_ca (n : Z) : Exc := UnknownIssuerError ("no CA certificate with id " +:+ id_text n).
Definition not_an_intermediate (n : Z) : Exc :=
  UnknownIssuerError ("CA certificate " +:+ id_text n +:+ " is not an intermediate").
Definition issuer_is_retired (n : Z) : Exc := IssuerRetiredError ("issuer " +:+ id_text n +:+ " is retired").
Definition issuer_id_required : Exc :=
  IssuerRequiredError "more than one active issuer exists; an issuer_id is required".
Definition not_a_root (n : Z) : Exc := ValueError ("CA certificate " +:+ id_text n +:+ " is not a root").
Definition root_key_missing (n : Z) : Exc :=
  CANotConfiguredError ("root " +:+ id_text n +:+ "'s private key is not available").
Definition key_missing (n : Z) : Exc :=
  CANotConfiguredError ("CA certificate " +:+ id_text n +:+ "'s private key is not available").

Section service.
Context {X : X509Lib} {SS : SecretStore}.

(** ** Lookup *)
Definition subject_name (cert : Cert) : string :=
  match head (attributes_for COMMON_NAME (cert_subject cert)) with
  | None => rfc4514_string (cert_subject cert)
  | Some (AText v) => v
  | Some (ABytes v) => decode_replace v
  end.

Definition unseal_signing_key (key_sealed : Sealed) : Outcome PrivKey :=
  plain ← unseal key_sealed;
  key ← match plain with
        | PlainPem p => load_private_key p None
        | PlainBytes _ => Raise (ValueError "Could not deserialize key data.")
        end;
  _ ← raise_if (negb (is_signing_key key))
        (CANotConfiguredError "stored key is not a supported signing key type");
  mret key.

Definition get_ca (issuer_id : Z) : Tx DB CARow :=
  row ← query (λ db, cas db !! issuer_id);
  match row with
  | None => mthrow (unknown_ca issuer_id)
  | Some r => mret r
  end.

Definition is_status (s : option CAStatus) (r : CARow) : bool :=
  match s with Some s => bool_decide (ca_status r = s) | None => true end.
Definition is_kind (k : option CAKind) (r : CARow) : bool :=
  match k with Some k => bool_decide (ca_kind r = k) | None => true end.
Definition list_cas (status : option CAStatus) (kind : option CAKind) (db : DB) : list CARow :=
  rows_where (cas db) (λ r, is_status status r && is_kind kind r).

(** ** Chains *)

(** [_parent_walk] over the table; [fuel] bounds the number of rows. *)
Fixpoint walk (fuel : nat) (m : gmap Z CARow) (n : Z) : Outcome (list CARow) :=
  match fuel with
  | O => Raise OutOfFuel
  | S fuel =>
      match m !! n with
      | None => Raise (unknown_ca n)
      | Some r =>
          match parent_id r with
          | None => mret [r]
          | Some p => rest ← walk fuel m p; mret (r :: rest)
          end
      end
  end.
(** A walk that visits more rows than the table has visits one twice. *)
Definition parent_walk (db : DB) (n : Z) : Outcome (list CARow) := walk (S (size (cas db))) (cas db) n.

Record Chain := mkChain { chain_rows : list CARow; via_cross_id : option Z }.
(** The id of the topmost row. *)
Definition anchor_id (c : Chain) : option Z := ca_id <$> last (chain_rows c).
Record ChainSet := mkChainSet { default_chain : Chain; alternates : list Chain }.
Definition all_chains (s : ChainSet) : list Chain := default_chain s :: alternates s.
Definition self_signed (s : ChainSet) : Outcome Chain :=
  of_option (List.find (λ c, bool_decide (via_cross_id c = None)) (all_chains s))
    (AssertionError "ChainSet built with no self-signed path").
Definition by_anchor (s : ChainSet) (n : Z) : option Chain :=
  List.find (λ c, bool_decide (anchor_id c = Some n)) (all_chains s).

Definition cert_valid_at (r : CARow) (now : Z) : Outcome bool :=
  cert ← load_cert (ca_cert r);
  mret ((not_valid_before cert <=? now) && (now <=? not_valid_after cert)).
(** [all(_cert_valid_at(row, now) for row in rows)]: stops at the first failure. *)
Fixpoint all_valid_at (rows : list CARow) (now : Z) : Outcome bool :=
  match rows with
  | [] => mret true
  | r :: rows => v ← cert_valid_at r now; if (v : bool) then all_valid_at rows now else mret false
  end.

Definition active_cross_rows (db : DB) (top : Z) : list CARow :=
  rows_where (cas db) (λ r, bool_decide (cross_of_id r = Some top) && bool_decide (ca_status r = Active)).
(** The path through one cross row, if every row it adds is valid now. *)
Definition alternate_via (db : DB) (base_rows : list CARow) (now : Z) (cross_row : CARow)
  : Outcome (option Chain) :=
  match parent_id cross_row with
  | None => Raise (AssertionError "")
  | Some signing =>
      signing_walk ← parent_walk db signing;
      ok ← all_valid_at (cross_row :: signing_walk) now;
      mret (if (ok : bool)
            then Some (mkChain (removelast base_rows ++ cross_row :: signing_walk) (Some (ca_id cross_row)))
            else None)
  end.
Definition chains_for (db : DB) (n now : Z) : Outcome ChainSet :=
  base_rows ← parent_walk db n;
  let base := mkChain base_rows None in
  match last base_rows with
  | None => mret (mkChainSet base [])
  | Some top =>
      surviving ← map_each (alternate_via db base_rows now) (active_cross_rows db (ca_id top));
      match omap id surviving with
      | [] => mret (mkChainSet base [])
      | c :: rest => mret (mkChainSet c (base :: rest))
      end
  end.
Definition chain_for (db : DB) (n now : Z) : Outcome (list CARow) :=
  s ← chains_for db n now; mret (chain_rows (default_chain s)).

(** ** Issuer selection *)
Definition is_active_issuer (r : CARow) : bool :=
  bool_decide (ca_kind r = Intermediate) && bool_decide (ca_status r = Active).
Definition active_issuers (db : DB) : list CARow := rows_where (cas db) is_active_issuer.
Definition no_active_issuer_message (db : DB) : string :=
  if negb (nonempty (list_cas None None db)) then "no CA hierarchy has been created or imported yet"
  else "this CA hierarchy has no active issuer yet; add an intermediate under its own page".
Definition resolve_issuer (issuer_id : option Z) : Tx DB CARow :=
  match issuer_id with
  | Some n =>
      row ← get_ca n;
      _ ← raise_if (bool_decide (ca_kind row ≠ Intermediate)) (not_an_intermediate n);
      _ ← raise_if (bool_decide (ca_status row ≠ Active)) (issuer_is_retired n);
      mret row
  | None =>
      issuers ← query active_issuers;
      match issuers with
      | [r] => mret r
      | _ :: _ :: _ => mthrow issuer_id_required
      | [] => m ← query no_active_issuer_message; mthrow (CANotConfiguredError m)
      end
  end.
Definition signing_credentials (issuer_id : Z) : Tx DB (Cert * PrivKey) :=
  row ← get_ca issuer_id;
  match ca_key row with
  | None => mthrow (key_missing issuer_id)
  | Some k =>
      key ← lift (unseal_signing_key k);
      cert ← lift (load_cert (ca_cert row));
      mret (cert, key)
  end.

(** ** Creation and import *)

(** [db.add(CACertificate(...)); db.flush()] *)
Definition add_ca (mk : Z → CARow) : Tx DB CARow :=
  n ← query (λ db, next_id (cas db));
  _ ← modify (on_cas (λ m, <[n := mk n]> m));
  mret (mk n).

Definition create_root (name key_type : string) (years path_length : Z) (d : Draw) : Tx DB CARow :=
  '(cert, key) ← lift (X509.create_root name key_type years path_length (d_now d) (d_serial d) (d_seed d));
  row ← add_ca (λ n, mkCA n Root name None None Active (cert_pem cert)
                        (Some (seal (d_nonce d) (PlainPem (private_pem key)))));
  _ ← commit;
  mret row.

Definition same_subject_error (name : string) (root_id : Z) : Exc :=
  ValueError ("name " +:+ py_repr name +:+ " is the same as root " +:+ id_text root_id +:+
    "'s own name; an intermediate cannot carry its parent root's exact subject, " +:+
    "because a certificate validator building a path cannot tell " +:+
    "the two apart by subject alone and may pick the wrong one -- " +:+
    "choose a name that differs from the root's").
Definition create_intermediate_under (root_id : Z) (name key_type : string) (years : Z)
    (constraints : option NameConstraintSpec) (d : Draw) : Tx DB CARow :=
  root ← get_ca root_id;
  _ ← raise_if (bool_decide (ca_kind root ≠ Root)) (not_a_root root_id);
  match ca_key root with
  | None => mthrow (root_key_missing root_id)
  | Some root_sealed =>
      root_cert ← lift (load_cert (ca_cert root));
      candidate_subject ← lift (cn_name name);
      _ ← raise_if (bool_decide (candidate_subject = cert_subject root_cert)) (same_subject_error name root_id);
      root_key ← lift (unseal_signing_key root_sealed);
      nc ← lift (name_constraints_extension (default (mkSpec [] [] [] []) constraints));
      '(cert, key) ← lift (create_intermediate root_cert root_key name key_type years nc
                             (d_now d) (d_serial d) (d_seed d));
      row ← add_ca (λ n, mkCA n Intermediate name (Some root_id) None Active (cert_pem cert)
                            (Some (seal (d_nonce d) (PlainPem (private_pem key)))));
      _ ← commit;
      mret row
  end.

Definition create_hierarchy (root_name intermediate_name key_type : string)
    (root_years intermediate_years path_length : Z) (constraints : option NameConstraintSpec)
    (d d' : Draw) : Tx DB (CARow * CARow) :=
  root_row ← create_root root_name key_type root_years path_length d;
  intermediate_row ← create_intermediate_under (ca_id root_row) intermediate_name key_type
                       intermediate_years constraints d';
  mret (root_row, intermediate_row).

Definition import_hierarchy (cert_text key_text : Pem) (key_passphrase : option string) (chain_text : Pem)
    (d : Draw) : Tx DB (CARow * CARow) :=
  '(cert, key, parent) ← lift (load_import cert_text key_text key_passphrase (Some chain_text) (d_now d));
  match parent with
  | None => mthrow (AssertionError "")
  | Some parent =>
      root_row ← add_ca (λ n, mkCA n Root (subject_name parent) None None Active (cert_pem parent) None);
      intermediate_row ← add_ca (λ n, mkCA n Intermediate (subject_name cert) (Some (ca_id root_row)) None
        Active (cert_pem cert) (Some (seal (d_nonce d) (PlainPem (private_pem key)))));
      _ ← commit;
      mret (root_row, intermediate_row)
  end.

(** ** Cross certificates *)
Definition same_ca (a b : Cert) : bool :=
  bool_decide (cert_subject a = cert_subject b) && bool_decide (cert_key a = cert_key b).

Definition self_cross_error (n : Z) : Exc :=
  ValueError ("CA certificate " +:+ id_text n +:+ " cannot cross-sign itself").
Definition cross_exists_error (n s : Z) : Exc :=
  CrossSignError ("an active cross certificate for CA " +:+ id_text n +:+ " signed by " +:+ id_text s +:+
    " already exists; renew it instead of cross-signing again").
Definition is_active_cross (subject signing : Z) (r : CARow) : bool :=
  bool_decide (cross_of_id r = Some subject) && bool_decide (parent_id r = Some signing)
  && bool_decide (ca_status r = Active).
Definition cross_sign_root (n signing_root_id years : Z) (d : Draw) : Tx DB CARow :=
  ca ← get_ca n;
  _ ← raise_if (bool_decide (ca_kind ca ≠ Root)) (not_a_root n);
  signing_root ← get_ca signing_root_id;
  _ ← raise_if (bool_decide (ca_kind signing_root ≠ Root)) (not_a_root signing_root_id);
  _ ← raise_if (bool_decide (signing_root_id = n)) (self_cross_error n);
  match ca_key signing_root with
  | None => mthrow (root_key_missing signing_root_id)
  | Some signing_sealed =>
      subject_cert ← lift (load_cert (ca_cert ca));
      issuer_cert ← lift (load_cert (ca_cert signing_root));
      path_length_error ← lift (cross_path_length_error subject_cert issuer_cert);
      _ ← match path_length_error with Some m => mthrow (CrossSignError m) | None => mret () end;
      existing ← query (λ db, first_where (cas db) (is_active_cross n signing_root_id));
      _ ← raise_if (bool_decide (is_Some existing)) (cross_exists_error n signing_root_id);
      issuer_key ← lift (unseal_signing_key signing_sealed);
      cross_cert ← lift (cross_sign subject_cert issuer_cert issuer_key years (d_now d) (d_serial d));
      row ← add_ca (λ i, mkCA i Cross (subject_name cross_cert) (Some signing_root_id) (Some n) Active
                           (cert_pem cross_cert) None);
      _ ← commit;
      mret row
  end.

(** The rows whose certificate is for the same CA as [c]. *)
Fixpoint rows_for_ca (rows : list CARow) (c : Cert) : Outcome (list CARow) :=
  match rows with
  | [] => mret []
  | r :: rows =>
      cert ← load_cert (ca_cert r);
      rest ← rows_for_ca rows c;
      mret (if same_ca cert c then r :: rest else rest)
  end.
Definition import_cross (cross_text issuer_text : Pem) (d : Draw) : Tx DB CARow :=
  cross_preview ← lift (reraise (load_cert cross_text) is_value_error "not a valid certificate PEM: ");
  issuer_cert ← lift (reraise (load_cert issuer_text) is_value_error "not a valid issuer certificate PEM: ");
  roots ← query (list_cas None (Some Root));
  subject_rows ← lift (rows_for_ca roots cross_preview);
  match subject_rows with
  | [] => mthrow (CAImportError
      "this certificate's subject and public key do not match any CA on this instance")
  | _ :: _ :: _ => mthrow (CAImportError
      "more than one CA on this instance matches this certificate's subject and public key")
  | [subject_row] =>
      subject_cert ← lift (load_cert (ca_cert subject_row));
      cross_cert ← lift (load_cross cross_text subject_cert issuer_cert (d_now d));
      signing_rows ← lift (rows_for_ca
        (List.filter (λ r, negb (bool_decide (ca_id r = ca_id subject_row))) roots) issuer_cert);
      signing_row ← match signing_rows with
        | r :: _ => mret r
        | [] => add_ca (λ n, mkCA n Root (subject_name issuer_cert) None None Active (cert_pem issuer_cert) None)
        end;
      row ← add_ca (λ n, mkCA n Cross (subject_name cross_cert) (Some (ca_id signing_row))
                           (Some (ca_id subject_row)) Active (cert_pem cross_cert) None);
      _ ← commit;
      mret row
  end.

(** ** Retirement *)
Definition retire_targets (n : Z) : Tx DB (list Z) :=
  row ← get_ca n;
  if decide (ca_kind row = Root) then
    children ← query (λ db, rows_where (cas db) (λ r, bool_decide (parent_id r = Some (ca_id row))));
    mret (ca_id row :: map ca_id children)
  else mret [ca_id row].

Definition with_status (s : CAStatus) (r : CARow) : CARow :=
  mkCA (ca_id r) (ca_kind r) (ca_name r) (parent_id r) (cross_of_id r) s (ca_cert r) (ca_key r).
Definition retire_refused (row : CARow) (n : Z) : Exc :=
  if decide (ca_kind row = Root)
  then RetireError ("retiring root " +:+ id_text n +:+ " would leave no active issuer")
  else RetireError ("cannot retire the last active issuer (" +:+ id_text n +:+ ")").
Definition retire (n : Z) : Tx DB unit :=
  row ← get_ca n;
  if decide (ca_status row = Retired) then mret () else
  targets ← retire_targets n;
  remaining ← query (λ db, List.filter (λ r, negb (bool_decide (ca_id r ∈ targets))) (active_issuers db));
  _ ← raise_if (negb (nonempty remaining)) (retire_refused row n);
  _ ← tx_for (λ t,
        r ← get_ca t;
        modify (on_cas (λ m, <[ca_id r := with_status Retired r]> m))) targets;
  commit.

(** ** Renewal *)
Definition years_until (deadline years clock : Z) : Z := Z.min years ((deadline - clock) / day / 365).
Definition with_cert (p : Pem) (r : CARow) : CARow :=
  mkCA (ca_id r) (ca_kind r) (ca_name r) (parent_id r) (cross_of_id r) (ca_status r) p (ca_key r).
(** [clock] is the reading in [_years_until], [d] what [renew_certificate]
    draws a moment later. *)
Definition renew_in_place (n years clock : Z) (d : Draw) : Tx DB CARow :=
  row ← get_ca n;
  _ ← raise_if (bool_decide (ca_status row = Retired))
        (RowRetiredError ("CA certificate " +:+ id_text n +:+ " is retired and cannot be renewed"));
  cert ← lift (load_cert (ca_cert row));
  '(parent_cert, parent_key, effective_years) ←
    (if decide (ca_kind row = Root) then
       match ca_key row with
       | None => mthrow (key_missing n)
       | Some k => key ← lift (unseal_signing_key k); mret (cert, key, years)
       end
     else
       parent ← match parent_id row with
                | Some p => r ← get_ca p; mret (Some r)
                | None => mret None
                end;
       match parent ≫= (λ p, k ← ca_key p; Some (p, k)) with
       | None => mthrow (CANotConfiguredError
           ("CA certificate " +:+ id_text n +:+ "'s parent has no private key available"))
       | Some (p, k) =>
           parent_cert ← lift (load_cert (ca_cert p));
           parent_key ← lift (unseal_signing_key k);
           mret (parent_cert, parent_key, years_until (not_valid_after parent_cert) years clock)
       end);
  renewed ← lift (renew_certificate cert parent_cert parent_key effective_years (d_now d) (d_serial d));
  _ ← modify (on_cas (λ m, <[ca_id row := with_cert (cert_pem renewed) row]> m));
  _ ← commit;
  mret (with_cert (cert_pem renewed) row).
End service.

(** ** The shape of the hierarchy table *)

(** What every row of [ca_certificates] satisfies.  References point at
    existing rows with a smaller id, and always at a root; a cross row names
    another root than the one that signed it and holds no key; the
    certificate parses, the name is the one the certificate carries, and a
    sealed key unseals to the certificate's own signing key. *)
Section invariant.
Context {X : X509Lib} {SS : SecretStore}.

Definition root_at (m : gmap Z CARow) (i : Z) : Prop := ∃ q, m !! i = Some q ∧ ca_kind q = Root.
Definition row_shape (m : gmap Z CARow) (i : Z) (r : CARow) : Prop :=
  match ca_kind r with
  | Root => parent_id r = None ∧ cross_of_id r = None
  | Intermediate => cross_of_id r = None ∧ ∃ p, parent_id r = Some p ∧ p < i ∧ root_at m p
  | Cross => ca_key r = None ∧ ∃ p c, parent_id r = Some p ∧ cross_of_id r = Some c ∧
               p ≠ c ∧ p < i ∧ c < i ∧ root_at m p ∧ root_at m c
  end.
Definition row_material (r : CARow) : Prop :=
  ∃ cert, load_cert (ca_cert r) = Ok cert ∧ ca_name r = subject_name cert ∧
    ∀ k, ca_key r = Some k → ∃ key, unseal_signing_key k = Ok key ∧ public_key key = cert_key cert.
Definition ca_row_ok (m : gmap Z CARow) (i : Z) (r : CARow) : Prop :=
  ca_id r = i ∧ row_shape m i r ∧ row_material r.
Definition hierarchy_ok (db : DB) : Prop := ∀ i r, cas db !! i = Some r → ca_row_ok (cas db) i r.

Lemma root_at_insert m i n r : root_at m i → m !! n = None → root_at (<[n := r]> m) i.
Proof.
  intros (q & Hq & Hk) Hn. exists q. split; [|done]. rewrite lookup_insert_ne; [done|]. congruence.
Qed.
Lemma root_at_replace m i n r r' : root_at m i → m !! n = Some r → ca_kind r' = ca_kind r →
  root_at (<[n := r']> m) i.
Proof.
  intros (q & Hq & Hk) Hn Hr. destruct (decide (n = i)) as [->|Hne].
  - exists r'. rewrite lookup_insert_eq. split; [done|]. congruence.
  - exists q. by rewrite lookup_insert_ne.
Qed.
Lemma row_shape_mono m m' i r : (∀ j, root_at m j → root_at m' j) → row_shape m i r → row_shape m' i r.
Proof. intros Hm. unfold row_shape. destruct (ca_kind r); naive_solver. Qed.

(** A new row at a fresh id, or an old row changed in status or certificate. *)
Lemma hierarchy_add db n r : hierarchy_ok db → cas db !! n = None →
  ca_id r = n → row_shape (cas db) n r → row_material r → hierarchy_ok (on_cas (λ m, <[n := r]> m) db).
Proof.
  intros Hdb Hn Hid Hs Hm i q. cbn. destruct (decide (n = i)) as [<-|Hne].
  - rewrite lookup_insert_eq. intros [= <-]. split_and!; [done| |done].
    eapply row_shape_mono; [|exact Hs]. intros; by apply root_at_insert.
  - rewrite lookup_insert_ne by done. intros (Hi & Hsh & Hma)%Hdb. split_and!; [done| |done].
    eapply row_shape_mono; [|exact Hsh]. intros; by apply root_at_insert.
Qed.
Lemma hierarchy_replace db n r r' : hierarchy_ok db → cas db !! n = Some r →
  ca_id r' = n → ca_kind r' = ca_kind r → parent_id r' = parent_id r → cross_of_id r' = cross_of_id r →
  ca_key r' = ca_key r → row_material r' → hierarchy_ok (on_cas (λ m, <[n := r']> m) db).
Proof.
  intros Hdb Hn Hid Hk Hp Hc Hkey Hm i q. cbn.
  destruct (Hdb n r Hn) as (_ & Hsn & _).
  destruct (decide (n = i)) as [<-|Hne].
  - rewrite lookup_insert_eq. intros [= <-]. split_and!; [done| |done].
    eapply (row_shape_mono (cas db)); [intros; by eapply root_at_replace|].
    unfold row_shape in *. by rewrite Hk, Hp, Hc, Hkey.
  - rewrite lookup_insert_ne by done. intros (Hi & Hsh & Hma)%Hdb. split_and!; [done| |done].
    eapply row_shape_mono; [|exact Hsh]. intros; by eapply root_at_replace.
Qed.

(** ** Weakest preconditions of the building blocks *)
Lemma wp_get_ca n s (Q : Outcome CARow → Session DB → Prop) :
  (∀ r, cas (work s) !! n = Some r → Q (Ok r) s) →
  (cas (work s) !! n = None → Q (Raise (unknown_ca n)) s) → wp (get_ca n) s Q.
Proof. intros H1 H2. unfold get_ca. wp_run; auto. Qed.
Lemma wp_add_ca mk s (Q : Outcome CARow → Session DB → Prop) :
  (∀ n, cas (work s) !! n = None → (∀ i, is_Some (cas (work s) !! i) → i < n) →
    Q (Ok (mk n)) (mkSession (on_cas (λ m, <[n := mk n]> m) (work s)) (durable s))) →
  wp (add_ca mk) s Q.
Proof. intros HQ. unfold add_ca. wp_run. apply HQ; [apply next_id_fresh|apply next_id_bound]. Qed.
End invariant.

Ltac wp_ca_step :=
  lazymatch goal with
  | |- wp (get_ca _) _ _ => apply wp_get_ca; [intros ? ?|intros ?]
  | |- wp (add_ca _) _ _ => apply wp_add_ca; intros ? ? ?
  | _ => wp_step
  end; cbn beta iota; cbn [work durable] in *.
Ltac wp_ca := repeat wp_ca_step.
(** Read the guards of the path taken. *)
Ltac guards := repeat match goal with
  | H : bool_decide (_ ≠ _) = false |- _ => apply bool_decide_eq_false, dec_stable in H
  | H : bool_decide (_ = _) = false |- _ => apply bool_decide_eq_false in H
  | H : bool_decide (is_Some _) = false |- _ => apply bool_decide_eq_false, eq_None_not_Some in H
  | H : bool_decide _ = true |- _ => apply bool_decide_eq_true in H
  end.

Section preservation.
Context {X : X509Lib} {SS : SecretStore}.

Lemma unseal_sealed nonce key : is_signing_key key = true →
  unseal_signing_key (seal nonce (PlainPem (private_pem key))) = Ok key.
Proof.
  intros Hk. unfold unseal_signing_key. rewrite unseal_seal. cbn. rewrite load_private_pem. cbn.
  by rewrite Hk.
Qed.
Lemma material_sealed n kind p c st cert nonce key :
  is_signing_key key = true → public_key key = cert_key cert →
  row_material (mkCA n kind (subject_name cert) p c st (cert_pem cert)
                  (Some (seal nonce (PlainPem (private_pem key))))).
Proof.
  intros Hk Hpub. exists cert. split; [apply load_cert_pem|]. split; [done|]. intros k [= <-].
  exists key. by rewrite unseal_sealed.
Qed.
Lemma material_keyless n kind p c st cert :
  row_material (mkCA n kind (subject_name cert) p c st (cert_pem cert) None).
Proof. exists cert. split; [apply load_cert_pem|]. done. Qed.
Lemma subject_name_cn cert cn : cert_subject cert = [[cn_attribute cn]] → subject_name cert = cn.
Proof. intros H. unfold subject_name. rewrite H. done. Qed.

Lemma hierarchy_root db n name cert key : hierarchy_ok db → cas db !! n = None →
  name = subject_name cert → row_material (mkCA n Root name None None Active (cert_pem cert) key) →
  hierarchy_ok (on_cas (λ m, <[n := mkCA n Root name None None Active (cert_pem cert) key]> m) db).
Proof. intros Hdb Hn Hname Hm. by apply hierarchy_add. Qed.
Lemma hierarchy_intermediate db n p name cert key : hierarchy_ok db → cas db !! n = None → p < n →
  root_at (cas db) p →
  row_material (mkCA n Intermediate name (Some p) None Active (cert_pem cert) key) →
  hierarchy_ok (on_cas (λ m, <[n := mkCA n Intermediate name (Some p) None Active (cert_pem cert) key]> m) db).
Proof. intros Hdb Hn Hlt Hp Hm. apply hierarchy_add; try done. split; [done|]. by exists p. Qed.
Lemma hierarchy_cross db n p c cert : hierarchy_ok db → cas db !! n = None → p < n → c < n → p ≠ c →
  root_at (cas db) p → root_at (cas db) c →
  hierarchy_ok (on_cas (λ m, <[n := mkCA n Cross (subject_name cert) (Some p) (Some c) Active (cert_pem cert) None]> m) db).
Proof.
  intros Hdb Hn Hp Hc Hne Hrp Hrc. apply hierarchy_add; try done; [|apply material_keyless].
  split; [done|]. exists p, c. by split_and!.
Qed.

(** The two halves of an operation's postcondition. *)
Ltac done_both := split; cbn [work durable] in *; naive_solver.

Lemma create_root_keeps name kt years pl d : keeps hierarchy_ok (create_root name kt years pl d).
Proof.
  apply keeps_wp. intros s [Hw Hd]. unfold create_root. wp_ca; try done_both.
  apply create_root_identity in H as (Hk & Hpub & Hsub).
  assert (Hok : hierarchy_ok (on_cas (λ m, <[n := mkCA n Root name None None Active (cert_pem c)
    (Some (seal (d_nonce d) (PlainPem (private_pem p))))]> m) (work s))); [|done].
  apply hierarchy_root; try done; [by rewrite (subject_name_cn _ _ Hsub)|].
  rewrite <- (subject_name_cn _ _ Hsub). by apply material_sealed.
Qed.

Lemma create_intermediate_under_keeps root_id name kt years nc d :
  keeps hierarchy_ok (create_intermediate_under root_id name kt years nc d).
Proof.
  apply keeps_wp. intros s [Hw Hd]. unfold create_intermediate_under. wp_ca; try done_both. guards.
  match goal with H : create_intermediate _ _ _ _ _ _ _ _ _ = Ok (?c, ?k) |- _ =>
    apply create_intermediate_tbs in H as (ski & cr & _ & Hk & Ht);
    assert (Hsub : cert_subject c = [[cn_attribute name]]) by (unfold cert_subject; by rewrite Ht);
    assert (Hpub : public_key k = cert_key c) by (unfold cert_key; by rewrite Ht) end.
  match goal with |- both _ (mkSession ?db _) => assert (Hok : hierarchy_ok db); [|done] end.
  apply hierarchy_intermediate; try done.
  - match goal with H : ∀ i, is_Some (_ !! i) → i < _ |- _ => apply H; by eexists end.
  - by eexists.
  - rewrite <- (subject_name_cn _ _ Hsub). by apply material_sealed.
Qed.
Lemma create_hierarchy_keeps rn iname kt ry iy pl nc d d' :
  keeps hierarchy_ok (create_hierarchy rn iname kt ry iy pl nc d d').
Proof.
  unfold create_hierarchy. apply keeps_bind; [apply create_root_keeps|intros r].
  apply keeps_bind; [apply create_intermediate_under_keeps|intros i]. apply keeps_ret.
Qed.
Lemma import_hierarchy_keeps ct kt pass chain d : keeps hierarchy_ok (import_hierarchy ct kt pass chain d).
Proof.
  apply keeps_wp. intros s [Hw Hd]. unfold import_hierarchy. wp_ca; try done_both.
  match goal with H : load_import _ _ _ _ _ = Ok _ |- _ => apply load_import_parts in H as [Hk Hpub] end.
  match goal with |- both _ (mkSession ?db _) => assert (Hok : hierarchy_ok db); [|done] end.
  match goal with Hi : ∀ i, is_Some (cas (on_cas _ _) !! i) → i < _ |- _ => rename Hi into Hlt end.
  apply hierarchy_intermediate; try done.
  - apply hierarchy_root; [done..|]. apply material_keyless.
  - apply Hlt. cbn. rewrite lookup_insert_eq. by eexists.
  - eexists. cbn. by rewrite lookup_insert_eq.
  - by apply material_sealed.
Qed.
Lemma cross_sign_root_keeps n signing years d : keeps hierarchy_ok (cross_sign_root n signing years d).
Proof.
  apply keeps_wp. intros s [Hw Hd]. unfold cross_sign_root. wp_ca; try done_both; guards.
  match goal with |- both _ (mkSession ?db _) => assert (Hok : hierarchy_ok db); [|done] end.
  match goal with Hi : ∀ i, is_Some (_ !! i) → i < _ |- _ => rename Hi into Hlt end.
  apply hierarchy_cross; try done; try (apply Hlt; by eexists); by eexists.
Qed.
Lemma rows_for_ca_sub rows c l r : rows_for_ca rows c = Ok l → r ∈ l →
  r ∈ rows ∧ ∃ cert, load_cert (ca_cert r) = Ok cert ∧ same_ca cert c = true.
Proof.
  revert l. induction rows as [|q rows IH]; intros l; cbn; [intros [= <-] Hr; by apply not_elem_of_nil in Hr|].
  intros (cert & Hc & H)%Outcome_bind_ok Hr. apply Outcome_bind_ok in H as (rest & Hrest & [= <-]).
  destruct (same_ca cert c) eqn:Hs.
  - apply elem_of_cons in Hr as [->|Hr]; [split; [left|by exists cert]|].
    destruct (IH rest Hrest Hr) as [? ?]. split; [by right|done].
  - destruct (IH rest Hrest Hr) as [? ?]. split; [by right|done].
Qed.
Lemma list_cas_root db r : hierarchy_ok db → r ∈ list_cas None (Some Root) db →
  cas db !! ca_id r = Some r ∧ ca_kind r = Root.
Proof.
  intros Hdb Hr. apply elem_of_rows_where in Hr as [Hk [i Hi]]. cbn in Hk. apply bool_decide_eq_true in Hk.
  destruct (Hdb i r Hi) as [-> _]. done.
Qed.
(** The last two writes of [import_cross]. *)
Lemma commit_cross db n p c cert : hierarchy_ok db → cas db !! n = None →
  (∀ i, is_Some (cas db !! i) → i < n) → p ≠ c → root_at (cas db) p → root_at (cas db) c →
  let db' := on_cas (λ m, <[n := mkCA n Cross (subject_name cert) (Some p) (Some c) Active (cert_pem cert) None]> m) db in
  both hierarchy_ok (mkSession db' db').
Proof.
  intros Hdb Hn Hlt Hne Hp Hc db'. assert (Hok : hierarchy_ok db'); [|done].
  apply hierarchy_cross; try done; apply Hlt; [by destruct Hp as (q & -> & _)|by destruct Hc as (q & -> & _)].
Qed.
Lemma import_cross_keeps ct it d : keeps hierarchy_ok (import_cross ct it d).
Proof.
  apply keeps_wp. intros s [Hw Hd]. unfold import_cross. wp_ca; try done_both;
  match goal with H : rows_for_ca (list_cas _ _ _) _ = Ok [?r] |- _ =>
    destruct (rows_for_ca_sub _ _ _ r H ltac:(left)) as [Hs _]; apply list_cas_root in Hs as [Hs Hks]; [|done]
  end.
  - match goal with Hn : cas (work s) !! ?k = None |- _ => assert (k ≠ ca_id c) by congruence end.
    apply commit_cross; try done; cbn.
    + apply hierarchy_root; [done..|apply material_keyless].
    + eexists. by rewrite lookup_insert_eq.
    + apply root_at_insert; [by eexists|done].
  - match goal with H : rows_for_ca (List.filter _ _) _ = Ok (?r :: _) |- _ =>
      destruct (rows_for_ca_sub _ _ _ r H ltac:(left)) as [Hr _]; rename r into sr end.
    apply list_elem_of_In, filter_In in Hr as [Hr Hne]. apply list_elem_of_In in Hr.
    apply list_cas_root in Hr as [Hr Hkr]; [|done]. apply negb_true_iff, bool_decide_eq_false in Hne.
    apply commit_cross; try done; by eexists.
Qed.

(** *** Retirement *)
Fixpoint retired_ids (l : list Z) (m : gmap Z CARow) : gmap Z CARow :=
  match l with
  | [] => m
  | t :: l => retired_ids l (match m !! t with Some r => <[t := with_status Retired r]> m | None => m end)
  end.
Definition if_retired (l : list Z) (i : Z) (r : CARow) : CARow :=
  if bool_decide (i ∈ l) then with_status Retired r else r.
Lemma lookup_retired_ids l m i : retired_ids l m !! i = if_retired l i <$> m !! i.
Proof.
  revert m. induction l as [|t l IH]; intros m; cbn [retired_ids].
  - destruct (m !! i); cbn; [|done]. unfold if_retired. by rewrite bool_decide_eq_false_2 by apply not_elem_of_nil.
  - rewrite IH. unfold if_retired. destruct (decide (t = i)) as [->|Hne].
    + rewrite (bool_decide_eq_true_2 (i ∈ i :: l)) by left.
      destruct (m !! i) as [r|] eqn:E; [rewrite lookup_insert_eq|by rewrite E]. cbn.
      by destruct (bool_decide (i ∈ l)).
    + assert (He : bool_decide (i ∈ t :: l) = bool_decide (i ∈ l)).
      { apply bool_decide_ext. rewrite elem_of_cons. naive_solver. }
      rewrite He. destruct (m !! t); [by rewrite lookup_insert_ne|done].
Qed.
Lemma hierarchy_retired l db : hierarchy_ok db → hierarchy_ok (on_cas (retired_ids l) db).
Proof.
  intros Hdb. revert db Hdb. induction l as [|t l IH]; intros db Hdb; [exact Hdb|].
  apply (IH (on_cas (λ m, match m !! t with Some r => <[t := with_status Retired r]> m | None => m end) db)).
  destruct (cas db !! t) as [r|] eqn:E.
  - assert (Hr : hierarchy_ok (on_cas (λ m, <[t := with_status Retired r]> m) db)).
    { pose proof (Hdb t r E) as (Hid & _ & Hm). by eapply hierarchy_replace. }
    revert Hr. unfold hierarchy_ok. cbn. by rewrite E.
  - revert Hdb. unfold hierarchy_ok. cbn. by rewrite E.
Qed.
(** The marking loop of [retire], when its targets exist. *)
Lemma wp_mark_retired l s (Q : Outcome unit → Session DB → Prop) :
  hierarchy_ok (work s) → (∀ t, t ∈ l → is_Some (cas (work s) !! t)) →
  Q (Ok ()) (mkSession (on_cas (retired_ids l) (work s)) (durable s)) →
  wp (tx_for (λ t, r ← get_ca t; modify (on_cas (λ m, <[ca_id r := with_status Retired r]> m))) l) s Q.
Proof.
  revert s. induction l as [|t l IH]; intros s Hs Hl HQ; cbn [tx_for].
  - wp_ca. by destruct s as [[]].
  - wp_ca.
    + match goal with H : cas (work s) !! t = Some ?r |- _ => rename H into Ht; rename r into q end.
      pose proof (Hs t q Ht) as (Hid & _ & Hm). rewrite Hid. apply IH; cbn [work durable].
      * by eapply hierarchy_replace.
      * intros i Hi. cbn. destruct (decide (t = i)) as [->|Hne]; [rewrite lookup_insert_eq; by eexists|].
        rewrite lookup_insert_ne by done. apply Hl. by right.
      * revert HQ. cbn [retired_ids]. unfold on_cas. cbn. by rewrite Ht.
    + destruct (Hl t ltac:(left)). congruence.
Qed.

(** The rows a retirement stands down: the row, and every row below a root. *)
Definition retired_set (db : DB) (row : CARow) : list Z :=
  if decide (ca_kind row = Root) then
    ca_id row :: map ca_id (rows_where (cas db) (λ r, bool_decide (parent_id r = Some (ca_id row))))
  else [ca_id row].
Lemma elem_retired_set db row i : hierarchy_ok db → i ∈ retired_set db row ↔
  i = ca_id row ∨ (ca_kind row = Root ∧ ∃ r, cas db !! i = Some r ∧ parent_id r = Some (ca_id row)).
Proof.
  intros Hdb. unfold retired_set. case_decide as Hk.
  - rewrite elem_of_cons. apply or_iff_compat_l. change (@map) with (fun A B => @fmap list _ A B).
    rewrite list_elem_of_fmap. split.
    + intros (r & -> & Hr). split; [done|]. apply elem_of_rows_where in Hr as [Hp%bool_decide_eq_true [j Hj]].
      exists r. destruct (Hdb j r Hj) as (-> & _). done.
    + intros (_ & r & Hr & Hp). exists r. destruct (Hdb i r Hr) as (-> & _). split; [done|].
      apply elem_of_rows_where. split; [by apply bool_decide_eq_true|by exists i].
  - rewrite list_elem_of_singleton. naive_solver.
Qed.
Lemma wp_retire_targets n s (Q : Outcome (list Z) → Session DB → Prop) :
  (∀ r, cas (work s) !! n = Some r → Q (Ok (retired_set (work s) r)) s) →
  (cas (work s) !! n = None → Q (Raise (unknown_ca n)) s) → wp (retire_targets n) s Q.
Proof.
  intros H1 H2. unfold retire_targets. wp_ca; try (by apply H2).
  - specialize (H1 _ H). unfold retired_set in H1. by rewrite decide_True in H1 by done.
  - specialize (H1 _ H). unfold retired_set in H1. by rewrite decide_False in H1 by done.
Qed.

(** [retire], path by path. *)
Definition remaining_issuers (db : DB) (row : CARow) : list CARow :=
  List.filter (λ r, negb (bool_decide (ca_id r ∈ retired_set db row))) (active_issuers db).
Lemma wp_retire n s (Q : Outcome unit → Session DB → Prop) : hierarchy_ok (work s) →
  (cas (work s) !! n = None → Q (Raise (unknown_ca n)) s) →
  (∀ row, cas (work s) !! n = Some row → ca_status row = Retired → Q (Ok ()) s) →
  (∀ row, cas (work s) !! n = Some row → ca_status row = Active → remaining_issuers (work s) row = [] →
    Q (Raise (retire_refused row n)) s) →
  (∀ row, cas (work s) !! n = Some row → ca_status row = Active → remaining_issuers (work s) row ≠ [] →
    let db := on_cas (retired_ids (retired_set (work s) row)) (work s) in Q (Ok ()) (mkSession db db)) →
  wp (retire n) s Q.
Proof.
  intros Hs Hnone Hret Href Hok. unfold retire. wp_ca_step. wp_ca_step; [|by apply Hnone].
  wp_ca_step; [wp_ca_step; by apply (Hret r)|]. apply wp_bind, wp_retire_targets; [|congruence].
  intros r' Hr'. assert (r' = r) as -> by congruence.
  assert (Hact : ca_status r = Active) by (by destruct (ca_status r)).
  wp_ca_step. wp_ca_step. wp_ca_step. fold (remaining_issuers (work s) r). wp_ca_step.
  - apply Href; [done..|]. match goal with H : negb _ = true |- _ => by apply negb_true_iff, nonempty_false in H end.
  - apply wp_bind. apply wp_mark_retired; [done| |].
    + intros t Ht. apply elem_retired_set in Ht as [->|(_ & q & Hq & _)]; [|by eexists|done].
      destruct (Hs n r H) as [-> _]. by eexists.
    + wp_ca. apply Hok; [done..|].
      match goal with H : negb _ = false |- _ => by apply negb_false_iff, nonempty_true in H end.
Qed.
Lemma retire_keeps n : keeps hierarchy_ok (retire n).
Proof.
  apply keeps_wp. intros s [Hw Hd]. apply wp_retire; try done. intros row _ _ _ db.
  assert (hierarchy_ok db) by (by apply hierarchy_retired). done.
Qed.

(** *** Renewal *)
Lemma hierarchy_renewed db n r cert cert' : hierarchy_ok db → cas db !! n = Some r →
  load_cert (ca_cert r) = Ok cert → cert_subject cert' = cert_subject cert → cert_key cert' = cert_key cert →
  hierarchy_ok (on_cas (λ m, <[ca_id r := with_cert (cert_pem cert') r]> m) db).
Proof.
  intros Hdb Hn Hl Hsub Hkey. destruct (Hdb n r Hn) as (Hid & _ & c & Hc & Hname & Hk).
  assert (c = cert) as -> by congruence. rewrite Hid.
  eapply hierarchy_replace; [done..|]. exists cert'. split; [apply load_cert_pem|]. cbn.
  split; [rewrite Hname; unfold subject_name; by rewrite Hsub|]. by rewrite Hkey.
Qed.
Lemma renew_in_place_keeps n years clock d : keeps hierarchy_ok (renew_in_place n years clock d).
Proof.
  apply keeps_wp. intros s [Hw Hd]. unfold renew_in_place. wp_ca; try done_both;
  match goal with Hr : renew_certificate _ _ _ _ _ _ = Ok _ |- _ =>
    apply renew_certificate_identity in Hr as (? & ? & _) end;
  match goal with |- both _ (mkSession ?db _) => assert (Hok : hierarchy_ok db); [|done] end;
  by eapply hierarchy_renewed.
Qed.
End preservation.

(** ** The service as a state machine *)

(** One request: an operation run in a session of its own. *)
Inductive ca_op := 
  | op_create_root (name key_type : string) (years path_length : Z) (d : Draw)
  | op_create_intermediate (root_id : Z) (name key_type : string) (years : Z)
      (constraints : option NameConstraintSpec) (d : Draw)
  | op_retire (n : Z)
  | op_cross_sign (n signing years : Z) (d : Draw)
  | op_renew (n years clock : Z) (d : Draw).
Inductive ca_import_op `{X : X509Lib} :=
  | op_import (cert_text key_text : Pem) (pass : option string) (chain_text : Pem) (d : Draw)
  | op_import_cross (cross_text issuer_text : Pem) (d : Draw).

Section machine.
Context {X : X509Lib} {SS : SecretStore}.

Definition run_op (op : ca_op + ca_import_op) : Tx DB unit :=
  match op with
  | inl (op_create_root name kt years pl d) => create_root name kt years pl d ≫= λ _, mret ()
  | inl (op_create_intermediate r name kt years nc d) => create_intermediate_under r name kt years nc d ≫= λ _, mret ()
  | inl (op_retire n) => retire n
  | inl (op_cross_sign n s years d) => cross_sign_root n s years d ≫= λ _, mret ()
  | inl (op_renew n years clock d) => renew_in_place n years clock d ≫= λ _, mret ()
  | inr (op_import c k p ch d) => import_hierarchy c k p ch d ≫= λ _, mret ()
  | inr (op_import_cross c i d) => import_cross c i d ≫= λ _, mret ()
  end.
(** A request, whatever its outcome. *)
Definition ca_step (db db' : DB) : Prop := ∃ op, db' = snd (request (run_op op) db).

Lemma request_keeps {A} (P : DB → Prop) (m : Tx DB A) db : keeps P m → P db → P (snd (request m db)).
Proof.
  intros Hk Hdb. unfold request. specialize (Hk (fresh_session db) (conj Hdb Hdb)).
  destruct (m (fresh_session db)) as [r s]. apply Hk.
Qed.
Lemma run_op_keeps op : keeps hierarchy_ok (run_op op).
Proof.
  destruct op as [[]|[]]; cbn [run_op]; try (apply keeps_bind; [|intros ?; apply keeps_ret]);
    eauto using create_root_keeps, create_intermediate_under_keeps, retire_keeps, cross_sign_root_keeps,
      renew_in_place_keeps, import_hierarchy_keeps, import_cross_keeps.
Qed.

(** C3: whatever requests cabin has served, the hierarchy table is sound.
    Every parent and cross reference names an existing root with a smaller
    id, a cross row joins two different roots and holds no key, every
    certificate parses, every name is the one in the certificate, and every
    sealed private key unseals to the key its certificate certifies. *)
Theorem reachable_hierarchy_ok db : rtc ca_step empty_db db → hierarchy_ok db.
Proof.
  intros H. refine (rtc_ind_r (R := ca_step) hierarchy_ok empty_db _ _ db H); [by intros i r|].
  intros db1 db2 _ [op ->] IH. by apply request_keeps; [apply run_op_keeps|].
Qed.
End machine.

(** ** An issuer, once there, stays *)
Section availability.
Context {X : X509Lib} {SS : SecretStore}.

Definition has_active (db : DB) : Prop := ∃ i r, cas db !! i = Some r ∧ is_active_issuer r = true.
Lemma has_active_issuers db : has_active db ↔ active_issuers db ≠ [].
Proof.
  unfold active_issuers, has_active. rewrite rows_where_nil. split.
  - intros (i & r & Hi & Hr) Hall. by rewrite (Hall i r Hi) in Hr.
  - intros Hn. apply dec_stable. intros Hno. apply Hn. intros k a Hk. apply not_true_iff_false. intros Ht.
    apply Hno. by exists k, a.
Qed.
Definition sound_and_active (db : DB) : Prop := hierarchy_ok db ∧ has_active db.

Lemma active_add db n r : has_active db → cas db !! n = None → has_active (on_cas (λ m, <[n := r]> m) db).
Proof.
  intros (i & q & Hi & Hq) Hn. exists i, q. cbn. rewrite lookup_insert_ne; [done|]. congruence.
Qed.
Lemma active_renewed db n r p : hierarchy_ok db → has_active db → cas db !! n = Some r →
  has_active (on_cas (λ m, <[ca_id r := with_cert p r]> m) db).
Proof.
  intros Hdb (i & q & Hi & Hq) Hn. destruct (Hdb n r Hn) as (Hid & _). cbn. rewrite Hid.
  destruct (decide (i = n)) as [->|Hne].
  - exists n, (with_cert p r). cbn. rewrite lookup_insert_eq. split; [done|]. by simplify_eq.
  - exists i, q. cbn. by rewrite lookup_insert_ne.
Qed.
Lemma active_retired db row : remaining_issuers db row ≠ [] → hierarchy_ok db →
  has_active (on_cas (retired_ids (retired_set db row)) db).
Proof.
  intros Hrem Hdb. destruct (remaining_issuers db row) as [|r l] eqn:E; [done|].
  assert (Hr : r ∈ remaining_issuers db row) by (rewrite E; left).
  apply list_elem_of_In, filter_In in Hr as [Hr Hout]. apply list_elem_of_In in Hr.
  apply elem_of_rows_where in Hr as [Hact [i Hi]]. apply negb_true_iff, bool_decide_eq_false in Hout.
  destruct (Hdb i r Hi) as [Hid _]. exists i, r. cbn. rewrite lookup_retired_ids, Hi. cbn.
  unfold if_retired. by rewrite bool_decide_eq_false_2 by (by rewrite <- Hid).
Qed.

(** Operations that only add rows, or change a certificate. *)
Ltac active_tac := try (split; cbn [work durable]; assumption);
  match goal with |- both _ (mkSession ?db _) => assert (has_active db); [|by split] end;
  repeat (apply active_add; [|done]); try done; by eapply active_renewed.
Lemma run_op_keeps_active op s : both hierarchy_ok s → both has_active s →
  wp (run_op op) s (λ _ s', both has_active s').
Proof.
  intros [Hw Hd] [Aw Ad].
  destruct op as [[name kt ry pl d|r name kt ry nc d|n|n sg ry d|n ry clk d]|[c k p ch d|c i d]]; cbn [run_op].
  - unfold create_root. wp_ca; active_tac.
  - unfold create_intermediate_under. wp_ca; active_tac.
  - apply wp_retire; try done. intros row _ _ Hrem db. assert (has_active db) by (by apply active_retired). done.
  - unfold cross_sign_root. wp_ca; active_tac.
  - unfold renew_in_place. wp_ca; active_tac.
  - unfold import_hierarchy. wp_ca; active_tac.
  - unfold import_cross. wp_ca; active_tac.
Qed.

(** No request removes a row or changes its kind. *)
Definition kinds_kept (d0 d : DB) : Prop := ∀ i q, cas d0 !! i = Some q → ∃ q', cas d !! i = Some q' ∧ ca_kind q' = ca_kind q.
Lemma kinds_add d0 d n r : kinds_kept d0 d → cas d !! n = None → kinds_kept d0 (on_cas (λ m, <[n := r]> m) d).
Proof.
  intros Hk Hn i q Hi. destruct (Hk i q Hi) as (q' & Hq' & He). exists q'. cbn.
  rewrite lookup_insert_ne; [done|]. congruence.
Qed.
Lemma kinds_renewed d0 d n r p : hierarchy_ok d → kinds_kept d0 d → cas d !! n = Some r →
  kinds_kept d0 (on_cas (λ m, <[ca_id r := with_cert p r]> m) d).
Proof.
  intros Hdb Hk Hn i q Hi. destruct (Hk i q Hi) as (q' & Hq' & He). destruct (Hdb n r Hn) as [Hid _]. rewrite Hid. cbn.
  destruct (decide (n = i)) as [->|Hne].
  - exists (with_cert p r). rewrite lookup_insert_eq. split; [done|]. cbn. congruence.
  - exists q'. by rewrite lookup_insert_ne.
Qed.
Lemma kinds_retired d0 d l : kinds_kept d0 d → kinds_kept d0 (on_cas (retired_ids l) d).
Proof.
  intros Hk i q Hi. destruct (Hk i q Hi) as (q' & Hq' & He). exists (if_retired l i q'). cbn.
  rewrite lookup_retired_ids, Hq'. split; [done|]. unfold if_retired. by destruct (bool_decide _).
Qed.
Ltac kinds_tac := try (split; cbn [work durable]; assumption);
  match goal with |- both ?P (mkSession ?db _) => assert (P db); [|by split] end;
  repeat (apply kinds_add; [|done]); try done; by eapply kinds_renewed.
Lemma run_op_keeps_kinds op d0 s : both hierarchy_ok s → both (kinds_kept d0) s →
  wp (run_op op) s (λ _ s', both (kinds_kept d0) s').
Proof.
  intros [Hw Hd] [Aw Ad].
  destruct op as [[name kt ry pl d|r name kt ry nc d|n|n sg ry d|n ry clk d]|[c k p ch d|c i d]]; cbn [run_op].
  - unfold create_root. wp_ca; kinds_tac.
  - unfold create_intermediate_under. wp_ca; kinds_tac.
  - apply wp_retire; try done. intros row _ _ Hrem db. assert (kinds_kept d0 db) by (by apply kinds_retired). done.
  - unfold cross_sign_root. wp_ca; kinds_tac.
  - unfold renew_in_place. wp_ca; kinds_tac.
  - unfold import_hierarchy. wp_ca; kinds_tac.
  - unfold import_cross. wp_ca; kinds_tac.
Qed.

(** C4: cabin never loses its ability to issue.  From any sound database in
    which some intermediate is active, no request to the CA service, retiring
    a root with all its intermediates included, leads to one in which none
    is. *)
Theorem active_issuer_never_lost db db' :
  hierarchy_ok db → ca_step db db' → active_issuers db ≠ [] → active_issuers db' ≠ [].
Proof.
  intros Hdb [op ->]. rewrite <- !has_active_issuers. intros Ha.
  pose proof (run_op_keeps_active op (fresh_session db) (conj Hdb Hdb) (conj Ha Ha)) as H.
  unfold request. unfold wp in H. destruct (run_op op (fresh_session db)) as [r s]. apply H.
Qed.

(** Retirement stands down exactly its targets, or nothing.  On success
    the row was already retired and nothing changed, or the row (and, for a
    root, every row whose parent it is) is marked retired, everything else is
    as before and an active issuer remains; on failure the database is
    untouched, and the failure is an unknown id or the last active issuer. *)
Theorem retire_exact db n r db' :
  hierarchy_ok db → request (retire n) db = (r, db') →
  match r with
  | Ok _ => ∃ row, cas db !! n = Some row ∧
      ((ca_status row = Retired ∧ db' = db) ∨
       (ca_status row = Active ∧ active_issuers db' ≠ [] ∧
        (∀ i, cas db' !! i =
          (λ q, if bool_decide (i = n ∨ (ca_kind row = Root ∧ parent_id q = Some n))
                then with_status Retired q else q) <$> cas db !! i)))
  | Raise e => db' = db ∧
      ((cas db !! n = None ∧ e = unknown_ca n) ∨
       ∃ row, cas db !! n = Some row ∧ e = retire_refused row n)
  end.
Proof.
  intros Hdb Hreq.
  refine (request_wp _ _ (λ r db', match r with Ok _ => _ | Raise e => _ end) _ _ Hreq _).
  apply wp_retire; cbn [work durable fresh_session]; [done|auto|..]; intros row Hrow.
  - intros Hst. exists row. auto.
  - intros _ _. eauto.
  - intros Hst Hrem. exists row. split; [done|]. right. split; [done|].
    split; [by apply has_active_issuers, active_retired|].
    intros i. cbn. rewrite lookup_retired_ids. destruct (cas db !! i) as [q|] eqn:Hq; [|done]. cbn.
    unfold if_retired. f_equal.
    assert (He : bool_decide (i ∈ retired_set db row) =
      bool_decide (i = n ∨ (ca_kind row = Root ∧ parent_id q = Some n))); [|by rewrite He].
    apply bool_decide_ext. rewrite elem_retired_set by done.
    destruct (Hdb n row Hrow) as [-> _]. apply or_iff_compat_l. rewrite Hq. naive_solver.
Qed.
End availability.

(** ** Chains and issuer selection *)
Section chains.
Context {X : X509Lib} {SS : SecretStore}.

(** In a sound table a walk ends after one step at most: at the row itself
    if it is a root, else at its parent. *)
Definition walk_of (db : DB) (r : CARow) : list CARow :=
  match parent_id r with
  | None => [r]
  | Some p => match cas db !! p with Some q => [r; q] | None => [r] end
  end.
Lemma parent_walk_ok db n r : hierarchy_ok db → cas db !! n = Some r →
  parent_walk db n = Ok (walk_of db r) ∧ ∃ top, last (walk_of db r) = Some top ∧
    cas db !! ca_id top = Some top ∧ (ca_kind top = Root) ∧ (ca_kind r = Root → top = r).
Proof.
  intros Hdb Hn. destruct (Hdb n r Hn) as (Hid & Hsh & _).
  assert (Hsz : (1 ≤ size (cas db))%nat).
  { destruct (size (cas db)) eqn:E; [|lia]. apply map_size_empty_inv in E. by rewrite E, lookup_empty in Hn. }
  unfold parent_walk, walk_of. cbn [walk]. rewrite Hn.
  destruct (parent_id r) as [p|] eqn:Hp.
  - assert (Hroot : root_at (cas db) p ∧ ca_kind r ≠ Root).
    { unfold row_shape in Hsh. destruct (ca_kind r); [|split; [naive_solver|done]..]. destruct Hsh; congruence. }
    destruct Hroot as [(q & Hq & Hk) Hkr]. destruct (Hdb p q Hq) as (Hqid & Hqs & _).
    unfold row_shape in Hqs. rewrite Hk in Hqs. destruct Hqs as [Hqp _].
    destruct (size (cas db)) as [|k] eqn:E; [lia|]. cbn [walk]. rewrite Hq, Hqp. cbn. split; [done|].
    exists q. rewrite Hqid. split_and!; try done.
  - cbn. split; [done|]. exists r. rewrite Hid. split_and!; try done.
    unfold row_shape in Hsh. destruct (ca_kind r); [done|..]; naive_solver.
Qed.

(** Assembling a chain always terminates.  In a sound database the walk
    from any existing row reaches a root, and never runs out of the fuel the
    model gives it; for an unknown id it raises UnknownIssuerError. *)
Theorem parent_walk_terminates db n : hierarchy_ok db →
  match cas db !! n with
  | Some r => ∃ rows top, parent_walk db n = Ok rows ∧ head rows = Some r ∧
                last rows = Some top ∧ ca_kind top = Root ∧ parent_id top = None ∧ (length rows ≤ 2)%nat
  | None => parent_walk db n = Raise (unknown_ca n)
  end.
Proof.
  intros Hdb. destruct (cas db !! n) as [r|] eqn:Hn.
  - destruct (parent_walk_ok db n r Hdb Hn) as (Hw & top & Htop & Hin & Hk & _).
    exists (walk_of db r), top. split_and!; try done.
    + unfold walk_of. destruct (parent_id r) as [p|]; [|done]. by destruct (cas db !! p).
    + destruct (Hdb _ _ Hin) as (_ & Hs & _). unfold row_shape in Hs. rewrite Hk in Hs. apply Hs.
    + unfold walk_of. destruct (parent_id r) as [p|]; cbn; [|lia]. destruct (cas db !! p); cbn; lia.
  - unfold parent_walk. cbn. by rewrite Hn.
Qed.

Definition valid_now (now : Z) (r : CARow) : Prop :=
  ∃ cert, load_cert (ca_cert r) = Ok cert ∧ current_at cert now.
Lemma all_valid_at_ok rows now b : all_valid_at rows now = Ok b →
  if b then Forall (valid_now now) rows else ¬ Forall (valid_now now) rows.
Proof.
  revert b. induction rows as [|r rows IH]; intros b; cbn [all_valid_at]; [intros [= <-]; constructor|].
  intros (v & Hv & H)%Outcome_bind_ok. unfold cert_valid_at in Hv.
  apply Outcome_bind_ok in Hv as (cert & Hc & [= <-]).
  destruct ((not_valid_before cert <=? now) && (now <=? not_valid_after cert)) eqn:Hcur.
  - assert (Hcurrent : valid_now now r) by (exists cert; split; [done|]; unfold current_at; lia).
    specialize (IH b H). destruct b; [by constructor|]. by intros [_ ?]%Forall_cons.
  - injection H as <-. intros [(c & Hc' & Hcur') _]%Forall_cons. assert (c = cert) as -> by congruence.
    unfold current_at in Hcur'. lia.
Qed.
Lemma all_valid_at_total db rows now : hierarchy_ok db → Forall (λ r, ∃ i, cas db !! i = Some r) rows →
  ∃ b, all_valid_at rows now = Ok b.
Proof.
  intros Hdb. induction 1 as [|r rows [i Hi] _ IH]; cbn; [by eexists|].
  destruct (Hdb i r Hi) as (_ & _ & cert & Hc & _). unfold cert_valid_at. rewrite Hc. cbn.
  destruct (_ && _); [done|by eexists].
Qed.
Lemma walk_of_in db r : (∃ i, cas db !! i = Some r) → Forall (λ r, ∃ i, cas db !! i = Some r) (walk_of db r).
Proof.
  intros Hi. unfold walk_of. destruct (parent_id r) as [p|]; [|by repeat constructor].
  destruct (cas db !! p) as [q|] eqn:Hq; repeat constructor; eauto.
Qed.

(** The path through a cross row, when all the rows it adds are valid. *)
Definition path_via (db : DB) (base : list CARow) (now : Z) (cross_row : CARow) (c : option Chain) : Prop :=
  ∃ s signing, parent_id cross_row = Some s ∧ cas db !! s = Some signing ∧
  let added := [cross_row; signing] in
  (Forall (valid_now now) added ∧ c = Some (mkChain (removelast base ++ added) (Some (ca_id cross_row)))) ∨
  (¬ Forall (valid_now now) added ∧ c = None).
Lemma alternate_via_ok db base now r top : hierarchy_ok db → r ∈ active_cross_rows db top →
  ∃ c, alternate_via db base now r = Ok c ∧ path_via db base now r c.
Proof.
  intros Hdb Hr. apply elem_of_rows_where in Hr as [Hc [i Hi]].
  apply andb_true_iff in Hc as [Hc%bool_decide_eq_true _].
  destruct (Hdb i r Hi) as (Hid & Hs & _).
  assert (Hp : ∃ p, parent_id r = Some p ∧ root_at (cas db) p).
  { unfold row_shape in Hs. destruct (ca_kind r); [destruct Hs; congruence|destruct Hs; congruence|]. naive_solver. }
  destruct Hp as (p & Hp & q & Hq & Hkq). unfold alternate_via. rewrite Hp.
  destruct (parent_walk_ok db p q Hdb Hq) as (-> & _). cbn [mbind Outcome_bind].
  assert (Hwq : walk_of db q = [q]).
  { destruct (Hdb p q Hq) as (_ & Hsq & _). unfold row_shape in Hsq. rewrite Hkq in Hsq.
    unfold walk_of. by destruct Hsq as [-> _]. }
  rewrite Hwq.
  destruct (all_valid_at_total db [r; q] now Hdb) as [b Hb]; [repeat constructor; by eexists|].
  rewrite Hb. cbn [mbind Outcome_bind mret Outcome_ret]. eexists. split; [done|].
  exists p, q. split_and!; try done. apply all_valid_at_ok in Hb. destruct b; [by left|by right].
Qed.

Lemma map_each_total {A B} (f : A → Outcome B) (R : A → B → Prop) l :
  (∀ x, x ∈ l → ∃ y, f x = Ok y ∧ R x y) → ∃ ys, map_each f l = Ok ys ∧ Forall2 R l ys.
Proof.
  induction l as [|x l IH]; intros Hf; cbn; [by eexists|].
  destruct (Hf x ltac:(left)) as (y & -> & Hxy). destruct IH as (ys & -> & Hys); [intros; apply Hf; by right|].
  cbn. eexists. split; [done|]. by constructor.
Qed.

(** The paths that survive, in order: the first one goes through the first
    row that has one. *)
Lemma surviving_paths {A B} (R : A → option B → Prop) (le : relation A) l ys :
  StronglySorted le l → (∀ a, le a a) → (∀ a c c', R a c → R a c' → c = c') → Forall2 R l ys →
  (∀ c, c ∈ omap id ys ↔ ∃ a, a ∈ l ∧ R a (Some c)) ∧
  (∀ c rest, omap id ys = c :: rest → ∃ a, a ∈ l ∧ R a (Some c) ∧ ∀ a' c', a' ∈ l → R a' (Some c') → le a a').
Proof.
  intros Hs Hrefl Hfun. revert ys. induction Hs as [|a l Hs IH Ha]; intros ys Hys; inversion Hys as [|? y ? ys' Hay Hys']; subst.
  { cbn. split; [|done]. intros c. rewrite elem_of_nil. split; [done|]. by intros (a & ?%elem_of_nil & _). }
  destruct (IH _ Hys') as [Hmem Hfirst]. clear IH. rewrite Forall_forall in Ha. destruct y as [c0|]; cbn.
  - split.
    + intros c. rewrite elem_of_cons, Hmem. split.
      * intros [->|(b & ? & ?)]; [exists a; split; [left|done]|exists b; split; [by right|done]].
      * intros (b & [->|Hb]%elem_of_cons & HR); [left|right; eauto]. by injection (Hfun _ _ _ HR Hay).
    + intros c rest [= <- _]. exists a. split_and!; [left|done|].
      intros a' c' [->|Hin]%elem_of_cons _; [apply Hrefl|by apply Ha].
  - split.
    + intros c. rewrite Hmem. split.
      * intros (b & ? & ?). exists b. split; [by right|done].
      * intros (b & [->|Hb]%elem_of_cons & HR); [by specialize (Hfun _ _ _ HR Hay)|eauto].
    + intros c rest (b & Hb & HR & Hle)%Hfirst. exists b. split_and!; [by right|done|].
      intros a' c' [->|Hin]%elem_of_cons HR'; [by specialize (Hfun _ _ _ HR' Hay)|by eapply Hle].
Qed.
Lemma path_via_fun db base now x c c' : path_via db base now x c → path_via db base now x c' → c = c'.
Proof.
  intros (s & g & Hs & Hg & H) (s' & g' & Hs' & Hg' & H').
  assert (s' = s) as -> by congruence. assert (g' = g) as -> by congruence.
  destruct H as [[? ->]|[? ->]], H' as [[? ->]|[? ->]]; done.
Qed.

(** Chain selection.  For every existing row of a sound database there is
    a chain set.  The self-signed path is always in it, whatever its dates;
    the other paths are exactly those through an active cross row of the same
    root, with every row that the path adds valid at that instant; and when
    there is one, the default is the path of the cross row with the smallest
    id, otherwise the self-signed one. *)
Theorem chains_for_selects db n now r : hierarchy_ok db → cas db !! n = Some r →
  ∃ cs base top, chains_for db n now = Ok cs ∧
    parent_walk db n = Ok base ∧ last base = Some top ∧
    let via x c := x ∈ active_cross_rows db (ca_id top) ∧ path_via db base now x (Some c) in
    self_signed cs = Ok (mkChain base None) ∧
    (∀ c, c ∈ all_chains cs ↔ c = mkChain base None ∨ ∃ x, via x c) ∧
    ((default_chain cs = mkChain base None ∧ ∀ x c, ¬ via x c) ∨
     ∃ x, via x (default_chain cs) ∧ ∀ x' c', via x' c' → ca_id x ≤ ca_id x').
Proof.
  intros Hdb Hn. destruct (parent_walk_ok db n r Hdb Hn) as (Hw & top & Htop & _).
  destruct (map_each_total (alternate_via db (walk_of db r) now) (path_via db (walk_of db r) now)
              (active_cross_rows db (ca_id top))) as (ys & Hys & HR).
  { intros x Hx. by eapply alternate_via_ok. }
  pose proof (rows_where_ordered (cas db) (λ r, bool_decide (cross_of_id r = Some (ca_id top)) &&
    bool_decide (ca_status r = Active)) ca_id (λ k a Hk, proj1 (Hdb k a Hk))) as Hs.
  destruct (surviving_paths _ _ _ ys Hs (λ a, Z.le_refl _) (path_via_fun db (walk_of db r) now) HR) as [Hmem Hfst].
  unfold chains_for. rewrite Hw. cbn [mbind Outcome_bind]. rewrite Htop, Hys. cbn [mbind Outcome_bind].
  destruct (omap id ys) as [|c rest] eqn:Ho; (eexists; exists (walk_of db r), top; split; [done|]; split; [done|]; split; [done|]);
    cbn zeta; unfold all_chains; cbn [default_chain alternates].
  - split_and!; [done| |left; split; [done|]].
    + intros c. rewrite list_elem_of_singleton. rewrite <- Hmem, elem_of_nil. naive_solver.
    + intros x c Hxc. apply (not_elem_of_nil c), Hmem. by exists x.
  - split_and!.
    + unfold self_signed, all_chains. cbn [default_chain alternates List.find].
      assert (Hv : via_cross_id c ≠ None).
      { destruct (proj1 (Hmem c)) as (x & _ & s & g & _ & _ & Hc); [left|]. cbn in Hc.
        destruct Hc as [[_ [= ->]]|[_ ?]]; [done|congruence]. }
      by rewrite bool_decide_eq_false_2.
    + intros c'. rewrite <- Hmem, !elem_of_cons. naive_solver.
    + right. destruct (Hfst c rest eq_refl) as (x & Hx & HRx & Hle). exists x. split; [done|].
      intros x' c' [Hx' HR']. by eapply Hle.
Qed.
End chains.

(** ** Selection, cross-signing and renewal, exactly *)
Section selection.
Context {X : X509Lib} {SS : SecretStore}.

Lemma active_issuers_sole db r : hierarchy_ok db → active_issuers db = [r] →
  cas db !! ca_id r = Some r ∧ is_active_issuer r = true ∧
  ∀ i q, cas db !! i = Some q → is_active_issuer q = true → q = r.
Proof.
  intros Hdb Ha. assert (Hr : r ∈ active_issuers db) by (rewrite Ha; left).
  apply elem_of_rows_where in Hr as [Hp [i Hi]]. destruct (Hdb i r Hi) as [Hid _].
  split_and!; [by rewrite Hid|done|]. intros j q Hj Hq.
  assert (Hin : q ∈ active_issuers db) by (apply elem_of_rows_where; eauto).
  rewrite Ha in Hin. by apply list_elem_of_singleton in Hin.
Qed.
Lemma active_issuers_several db r q l : hierarchy_ok db → active_issuers db = r :: q :: l →
  ca_id r ≠ ca_id q ∧ is_active_issuer r = true ∧ is_active_issuer q = true ∧
  cas db !! ca_id r = Some r ∧ cas db !! ca_id q = Some q.
Proof.
  intros Hdb Ha.
  pose proof (rows_where_NoDup (cas db) is_active_issuer ca_id (λ k a Hk, proj1 (Hdb k a Hk))) as Hnd.
  fold (active_issuers db) in Hnd. rewrite Ha in Hnd. inversion Hnd as [|? ? Hnin _]; subst.
  assert (Hrow : ∀ x, x ∈ active_issuers db → is_active_issuer x = true ∧ cas db !! ca_id x = Some x).
  { intros x [Hp [i Hi]]%elem_of_rows_where. by destruct (Hdb i x Hi) as [-> _]. }
  rewrite Ha in Hrow. destruct (Hrow r ltac:(left)), (Hrow q ltac:(right; left)).
  split_and!; try done. intros He. apply Hnin. rewrite He. left.
Qed.

(** What [resolve_issuer] answers, as a relation on the database. *)
Definition issuer_resolution (db : DB) (issuer_id : option Z) (r : Outcome CARow) : Prop :=
  match issuer_id, r with
  | Some n, Ok row => cas db !! n = Some row ∧ is_active_issuer row = true
  | Some n, Raise e =>
      (cas db !! n = None ∧ e = unknown_ca n) ∨
      (∃ row, cas db !! n = Some row ∧ ca_kind row ≠ Intermediate ∧ e = not_an_intermediate n) ∨
      (∃ row, cas db !! n = Some row ∧ ca_kind row = Intermediate ∧ ca_status row = Retired ∧
         e = issuer_is_retired n)
  | None, Ok row => cas db !! ca_id row = Some row ∧ is_active_issuer row = true ∧
      ∀ i q, cas db !! i = Some q → is_active_issuer q = true → q = row
  | None, Raise e =>
      (has_active db ∧ e = issuer_id_required ∧
         ∃ a b, ca_id a ≠ ca_id b ∧ is_active_issuer a = true ∧ is_active_issuer b = true ∧
           cas db !! ca_id a = Some a ∧ cas db !! ca_id b = Some b) ∨
      (¬ has_active db ∧ e = CANotConfiguredError (no_active_issuer_message db))
  end.

Lemma resolve_issuer_spec issuer_id s : hierarchy_ok (work s) →
  ∃ r, resolve_issuer issuer_id s = (r, s) ∧ issuer_resolution (work s) issuer_id r.
Proof.
  intros Hdb.
  assert (H : wp (resolve_issuer issuer_id) s (λ r s', s' = s ∧ issuer_resolution (work s) issuer_id r)).
  { unfold resolve_issuer, issuer_resolution. destruct issuer_id as [n|]; wp_ca; (split; [done|]); guards.
    - right. left. by exists r.
    - right. right. eexists. split; [done|]. split_and!; try done. by destruct (ca_status r).
    - unfold is_active_issuer. by rewrite H, H0, !bool_decide_eq_true_2.
    - by left.
    - right. split; [|done]. intros Ha%has_active_issuers. done.
    - by apply active_issuers_sole.
    - left. destruct (active_issuers_several _ _ _ _ Hdb E) as (? & ? & ? & ? & ?).
      split_and!; try done; [by apply has_active_issuers; rewrite E|by eexists _, _]. }
  unfold wp in H. destruct (resolve_issuer issuer_id s) as [r s']. cbn in H. destruct H as [-> H]. by exists r.
Qed.

(** Issuer selection is exact.  A given id is answered by its row if and
    only if that row is an active intermediate, and refused as unknown, not
    an intermediate or retired otherwise.  Without an id the sole active
    intermediate is taken, and it is an error to have several or none.  The
    database is only read. *)
Theorem resolve_issuer_exact issuer_id s : hierarchy_ok (work s) →
  ∃ r, resolve_issuer issuer_id s = (r, s) ∧ issuer_resolution (work s) issuer_id r.
Proof. apply resolve_issuer_spec. Qed.

(** Cross-signing keeps one active cross certificate per pair.  It
    succeeds only when the pair has none; afterwards the new row is the only
    one, it certifies the subject root's name and key under the signing
    root's name, and no existing row has changed.  A refused request changes
    nothing. *)
Theorem cross_sign_root_unique db n signing years d r db' :
  hierarchy_ok db → request (cross_sign_root n signing years d) db = (r, db') →
  match r with
  | Raise _ => db' = db
  | Ok row => n ≠ signing ∧
      (∀ i q, cas db !! i = Some q → is_active_cross n signing q = false) ∧
      cas db' !! ca_id row = Some row ∧ cas db !! ca_id row = None ∧
      (∀ i q, cas db' !! i = Some q → is_active_cross n signing q = true → i = ca_id row) ∧
      (∀ i, i ≠ ca_id row → cas db' !! i = cas db !! i) ∧
      ∃ subject issuing srow irow cert,
        cas db !! n = Some srow ∧ load_cert (ca_cert srow) = Ok subject ∧
        cas db !! signing = Some irow ∧ load_cert (ca_cert irow) = Ok issuing ∧
        load_cert (ca_cert row) = Ok cert ∧
        cert_subject cert = cert_subject subject ∧ cert_key cert = cert_key subject ∧
        issuer (tbs cert) = cert_subject issuing
  end.
Proof.
  intros Hdb Hreq.
  refine (request_wp _ _ (λ r db', match r with Ok _ => _ | Raise e => _ end) _ _ Hreq _).
  unfold cross_sign_root, fresh_session. wp_ca; try done; guards.
  match goal with H : first_where _ _ = None |- _ =>
    rewrite first_where_none in H; rename H into Hnone end.
  match goal with H : cross_sign _ _ _ _ _ _ = Ok _ |- _ =>
    pose proof (cross_sign_identity _ _ _ _ _ _ _ H) as [? ?]; apply cross_sign_issuer in H end.
  cbn [ca_id ca_cert]. split_and!; [done|done|by cbn; rewrite lookup_insert_eq|done| | |].
  - intros i q Hi Hq. cbn in Hi. destruct (decide (i = n0)) as [|Hne]; [done|].
    rewrite lookup_insert_ne in Hi by done. by rewrite (Hnone i q Hi) in Hq.
  - intros i Hi. cbn. by rewrite lookup_insert_ne.
  - do 5 eexists. split_and!; try done. apply load_cert_pem.
Qed.

Lemma years_until_le deadline years clock :
  days (365 * years_until deadline years clock) ≤ days (365 * years) ∧ days (365 * years_until deadline years clock) ≤ deadline - clock.
Proof.
  unfold years_until, days. assert (Hday : 0 < day) by done. generalize dependent day. intros d Hd.
  rewrite Z.div_div by lia. pose proof (Z.mul_div_le (deadline - clock) (d * 365) ltac:(lia)). nia.
Qed.

(** Renewal in place.  It replaces the certificate of one active row and
    nothing else; the new certificate is for the same name and key, and under
    a parent it ends before the parent does, up to the time that passed
    between the two clock readings of the code.  A refused request changes
    nothing. *)
Theorem renew_in_place_exact db n years clock d r db' :
  hierarchy_ok db → request (renew_in_place n years clock d) db = (r, db') →
  match r with
  | Raise _ => db' = db
  | Ok row' => ∃ row old new, cas db !! n = Some row ∧ ca_status row = Active ∧
      row' = with_cert (cert_pem new) row ∧
      db' = on_cas (λ m, <[n := row']> m) db ∧
      load_cert (ca_cert row) = Ok old ∧
      cert_subject new = cert_subject old ∧ cert_key new = cert_key old ∧
      match ca_kind row with
      | Root => not_valid_after new ≤ d_now d + days (365 * years)
      | _ => ∃ p prow pcert, parent_id row = Some p ∧ cas db !! p = Some prow ∧ ca_key prow ≠ None ∧
          load_cert (ca_cert prow) = Ok pcert ∧
          not_valid_after new ≤ d_now d + days (365 * years) ∧
          not_valid_after new ≤ not_valid_after pcert + (d_now d - clock)
      end
  end.
Proof.
  intros Hdb Hreq.
  refine (request_wp _ _ (λ r db', match r with Ok _ => _ | Raise e => _ end) _ _ Hreq _).
  assert (Hfin : ∀ row old pc key y new, cas db !! n = Some row → bool_decide (ca_status row = Retired) = false →
    load_cert (ca_cert row) = Ok old → renew_certificate old pc key y (d_now d) (d_serial d) = Ok new →
    ca_status row = Active ∧ ca_id row = n ∧ cert_subject new = cert_subject old ∧ cert_key new = cert_key old ∧
    not_valid_after new ≤ d_now d + days (365 * y)).
  { intros row old pc key y new Hrow Hst%bool_decide_eq_false Hold (? & ? & He)%renew_certificate_identity.
    destruct (Hdb n row Hrow) as [Hid _]. split_and!; try done; [by destruct (ca_status row)|].
    rewrite He. apply floor_second_le. }
  unfold renew_in_place, fresh_session. wp_ca; try done.
  - match goal with Hn : renew_certificate _ _ _ _ _ _ = Ok ?c, Hl : load_cert (ca_cert ?row) = Ok ?o |- _ =>
      edestruct (Hfin row o) as (? & Hid & ? & ? & ?); [done..|]; exists row, o, c end.
    split_and!; try done; [by rewrite Hid|]. match goal with H : ca_kind _ = Root |- _ => by rewrite H end.
  - match goal with Hn : renew_certificate _ _ _ _ _ _ = Ok ?c, Hl : load_cert (ca_cert ?row) = Ok ?o |- _ =>
      edestruct (Hfin row o) as (? & Hid & ? & ? & ?); [done..|]; exists row, o, c end.
    split_and!; try done; [by rewrite Hid|].
    match goal with H : Some ?q ≫= _ = Some (_, _) |- _ =>
      cbn in H; destruct (ca_key q) eqn:Hkey; [|done]; cbn in H; injection H as -> -> end.
    destruct (years_until_le (not_valid_after a0) years clock) as [Hy1 Hy2].
    assert (Hany : ∃ p prow pcert, parent_id r0 = Some p ∧ cas db !! p = Some prow ∧ ca_key prow ≠ None ∧
      load_cert (ca_cert prow) = Ok pcert ∧ not_valid_after a2 ≤ d_now d + days (365 * years) ∧
      not_valid_after a2 ≤ not_valid_after pcert + (d_now d - clock)).
    { eexists _, c, a0. split_and!; try done; [congruence|lia..]. }
    by destruct (ca_kind r0).
Qed.
End selection.

(** ** The service at work on a small database *)
Module CaExamples.
#[local] Existing Instance Toy.lib.
#[local] Existing Instance toy_secrets.
Import Toy.
Definition draw (k : Z) : Draw := mkDraw t2026 (10 + k) (100 + k) (1000 + k).
Definition after {A} (m : Tx DB A) (db : DB) : DB := snd (request m db).
(** Root 1 with intermediates 2 and 3, and root 4. *)
Definition one_root : DB :=
  after (create_hierarchy "Root" "CA" "ecdsa-p256" 20 10 2 None (draw 0) (draw 1)) empty_db.
Definition two_cas : DB :=
  after (create_intermediate_under 1 "CA 2" "ed25519" 10 (Some (mkSpec ["lan"] [] [] [])) (draw 2)) one_root.
Definition two_roots : DB := after (create_root "Old root" "ecdsa-p384" 5 2 (draw 3)) two_cas.
Definition crossed : DB := after (cross_sign_root 1 4 10 (draw 4)) two_roots.

Lemma after_ok {A} (m : Tx DB A) db : keeps hierarchy_ok m → hierarchy_ok db → hierarchy_ok (after m db).
Proof. apply request_keeps. Qed.
Lemma two_roots_ok : hierarchy_ok two_roots.
Proof.
  apply after_ok; [apply create_root_keeps|]. apply after_ok; [apply create_intermediate_under_keeps|].
  apply after_ok; [apply create_hierarchy_keeps|]. intros i r H. discriminate H.
Qed.
Lemma crossed_ok : hierarchy_ok crossed.
Proof. apply after_ok; [apply cross_sign_root_keeps|apply two_roots_ok]. Qed.

#[local] Strategy 1000 [one_root two_cas two_roots crossed after request].
Lemma reachable_hierarchy_ok_witness :
  rtc ca_step empty_db (after (create_root "Root" "ed25519" 20 2 (draw 0)) empty_db) ∧
  hierarchy_ok (after (create_root "Root" "ed25519" 20 2 (draw 0)) empty_db).
Proof.
  assert (H : rtc ca_step empty_db (after (create_root "Root" "ed25519" 20 2 (draw 0)) empty_db)).
  { apply rtc_once. exists (inl (op_create_root "Root" "ed25519" 20 2 (draw 0))). symmetry. apply request_drop. }
  split; [exact H|]. exact (reachable_hierarchy_ok (X:=lib) (SS:=toy_secrets) _ H).
Defined.
Lemma active_issuer_never_lost_witness :
  active_issuers two_roots ≠ [] ∧ active_issuers (after (retire 2) two_roots) ≠ [].
Proof.
  assert (H : active_issuers two_roots ≠ []) by (apply nonempty_true; vm_compute; reflexivity).
  split; [exact H|].
  refine (active_issuer_never_lost (X:=lib) (SS:=toy_secrets) two_roots (after (retire 2) two_roots) two_roots_ok _ H).
  exists (inl (op_retire 2)). reflexivity.
Defined.
Lemma retire_exact_witness :
  request (retire 2) two_roots = (Ok (), after (retire 2) two_roots) ∧ ∃ row, cas two_roots !! 2 = Some row.
Proof.
  assert (H : request (retire 2) two_roots = (Ok (), after (retire 2) two_roots)).
  { apply request_returned. vm_compute. reflexivity. }
  split; [exact H|].
  destruct (retire_exact (X:=lib) (SS:=toy_secrets) two_roots 2 _ _ two_roots_ok H) as (row & Hrow & _). exists row. exact Hrow.
Defined.
(** The root and its two intermediates are all that can issue: retiring the
    root is refused, and so is retiring both intermediates. *)
Example retiring_the_root_is_refused :
  fst (request (retire 1) two_roots) = Raise (RetireError "retiring root 1 would leave no active issuer").
Proof. vm_compute. reflexivity. Qed.
Lemma parent_walk_terminates_witness :
  hierarchy_ok two_roots ∧ match cas two_roots !! 3 with
    | Some r => ∃ rows, parent_walk two_roots 3 = Ok rows ∧ head rows = Some r
    | None => False end.
Proof.
  split; [exact two_roots_ok|]. pose proof (parent_walk_terminates (X:=lib) (SS:=toy_secrets) two_roots 3 two_roots_ok) as H.
  assert (H3 : is_Some (cas two_roots !! 3)) by (apply is_Some_alt; vm_compute; exact I).
  destruct H3 as [q Hq]. rewrite Hq in H |- *. destruct H as (rows & top & H1 & H2 & _). exists rows. exact (conj H1 H2).
Defined.
Lemma chains_for_selects_witness :
  is_Some (cas crossed !! 2) ∧ ∃ cs base, chains_for crossed 2 t2026 = Ok cs ∧ self_signed cs = Ok (mkChain base None).
Proof.
  assert (H : is_Some (cas crossed !! 2)) by (apply is_Some_alt; vm_compute; exact I).
  split; [exact H|]. destruct H as [r Hr].
  destruct (chains_for_selects (X:=lib) (SS:=toy_secrets) crossed 2 t2026 r crossed_ok Hr) as (cs & base & top & H1 & _ & _ & H2 & _).
  exists cs, base. exact (conj H1 H2).
Defined.
Lemma resolve_issuer_exact_witness :
  ∃ r, resolve_issuer None (fresh_session one_root) = (r, fresh_session one_root) ∧ is_ok r = true.
Proof.
  assert (Hok : hierarchy_ok (work (fresh_session one_root))).
  { apply after_ok; [apply create_hierarchy_keeps|]. intros i r H. discriminate H. }
  destruct (resolve_issuer_exact (X:=lib) (SS:=toy_secrets) None (fresh_session one_root) Hok) as (r & Hr & _).
  exists r. split; [exact Hr|]. assert (Hc : is_ok (fst (resolve_issuer None (fresh_session one_root))) = true)
    by (vm_compute; reflexivity). rewrite Hr in Hc. exact Hc.
Defined.
Lemma cross_sign_root_unique_witness :
  is_ok (fst (request (cross_sign_root 1 4 10 (draw 4)) two_roots)) = true ∧
  raised (fst (request (cross_sign_root 1 4 10 (draw 5)) crossed)) = Some (cross_exists_error 1 4) ∧
  after (cross_sign_root 1 4 10 (draw 5)) crossed = crossed.
Proof.
  split; [vm_compute; reflexivity|].
  assert (H : raised (fst (request (cross_sign_root 1 4 10 (draw 5)) crossed)) = Some (cross_exists_error 1 4))
    by (vm_compute; reflexivity).
  split; [exact H|].
  exact (cross_sign_root_unique (X:=lib) (SS:=toy_secrets) crossed 1 4 10 (draw 5) _ _ crossed_ok
           (request_raised _ _ _ H)).
Defined.
Definition renewal : Outcome CARow * DB := request (renew_in_place 2 30 (t2026 + days 400) (draw 6)) two_roots.
Lemma renew_in_place_exact_witness :
  is_ok (fst renewal) = true ∧ ∃ row new, snd renewal = on_cas (λ m, <[2 := with_cert (cert_pem new) row]> m) two_roots.
Proof.
  assert (H : is_ok (fst renewal) = true) by (vm_compute; reflexivity). split; [exact H|].
  pose proof (renew_in_place_exact (X:=lib) (SS:=toy_secrets) two_roots 2 30 (t2026 + days 400) (draw 6) (fst renewal) (snd renewal)
    two_roots_ok (surjective_pairing _)) as Hr.
  destruct (fst renewal) as [r|e]; [|discriminate H].
  destruct Hr as (row & old & new & _ & _ & -> & Hdb & _). exists row, new. exact Hdb.
Defined.

(** A root offered as its own cross certificate, issuer and all, is taken: a
    second row for the same CA appears, and no cross certificate for that CA
    can be imported any more. *)
Definition root_pem : Pem := match cas two_roots !! 1 with Some r => ca_cert r | None => Junk EmptyString end.
Example self_cross_is_imported :
  is_ok (fst (request (import_cross root_pem root_pem (draw 7)) two_roots)) = true ∧
  map ca_name (list_cas None (Some Root) (after (import_cross root_pem root_pem (draw 7)) two_roots))
    = ["Root"; "Old root"; "Root"] ∧
  raised (fst (request (import_cross root_pem root_pem (draw 8)) (after (import_cross root_pem root_pem (draw 7)) two_roots)))
    = Some (CAImportError "more than one CA on this instance matches this certificate's subject and public key").
Proof. vm_compute. split_and!; reflexivity. Qed.
(** An imported cross certificate does not replace the active one of the same
    pair: both stay active. *)
Definition cross_pem : Pem := match cas crossed !! 5 with Some r => ca_cert r | None => Junk EmptyString end.
Definition old_root_pem : Pem := match cas crossed !! 4 with Some r => ca_cert r | None => Junk EmptyString end.
Example second_active_cross_is_imported :
  map ca_id (rows_where (cas (after (import_cross cross_pem old_root_pem (draw 7)) crossed)) (is_active_cross 1 4))
    = [5; 6].
Proof. vm_compute. reflexivity. Qed.
End CaExamples.
