(* ===== verification/Grants.v ===== *)
(** * [cabin.issuer_grants]: who may issue and revoke through which CA

    The principal a permission is checked against, the two grant tables, the
    narrowing of issuer selection to granted issuers, and the writes. *)

From S2P Require Import Prelude PyStr PyTime IPAddr X509Lib X509 Leaf Store CaService.
#[local] Open Scope Z_scope.

Inductive PrincipalKind := kind_user | kind_token | kind_acme | kind_system.
#[export] Instance PrincipalKind_eq_dec : EqDecision PrincipalKind.
Proof. solve_decision. Defined.
Definition kind_text (k : PrincipalKind) : string :=
  match k with kind_user => "user" | kind_token => "token" | kind_acme => "acme" | kind_system => "system" end.
Record Principal := mkPrincipal { p_kind : PrincipalKind; p_id : option Z; p_role : option Role }.
Definition unrestricted (p : Principal) : bool :=
  bool_decide (p_kind p = kind_acme) || bool_decide (p_kind p = kind_system)
  || bool_decide (p_role p = Some superadmin).
Definition ACME_PRINCIPAL : Principal := mkPrincipal kind_acme None None.
Definition SYSTEM_PRINCIPAL : Principal := mkPrincipal kind_system None None.
Definition user_principal (u : UserRow) : Principal := mkPrincipal kind_user (Some (user_id u)) (Some (user_role u)).
Definition token_principal (t : TokenRow) : Principal := mkPrincipal kind_token (Some (token_id t)) (Some (token_role t)).

(** [sorted] of a set of ids. *)
Definition sorted_ids (s : gset Z) : list Z := merge_sort Z.le (elements s).
Lemma elem_sorted_ids s i : i ∈ sorted_ids s ↔ i ∈ s.
Proof. unfold sorted_ids. by rewrite merge_sort_Permutation, elem_of_elements. Qed.
Lemma sorted_ids_nil s : sorted_ids s = [] ↔ s = ∅.
Proof.
  unfold sorted_ids.
  split.
  - intros H. apply leibniz_equiv, elements_empty_iff. apply Permutation_nil.
    rewrite <- H. apply merge_sort_Permutation.
  - intros ->. done.
Qed.

(** One principal's rows of a grant table. *)
Definition rows_of (id : option Z) (g : gset (Z * Z)) : gset Z :=
  match id with Some i => set_map snd (filter (λ x : Z * Z, fst x = i) g) | None => ∅ end.
Definition without (i : Z) (g : gset (Z * Z)) : gset (Z * Z) := filter (λ x : Z * Z, fst x ≠ i) g.
Definition rows_for (i : Z) (ids : gset Z) : gset (Z * Z) := set_map (pair i) ids.
Lemma elem_rows_of i g c : c ∈ rows_of (Some i) g ↔ (i, c) ∈ g.
Proof.
  unfold rows_of. rewrite elem_of_map. split.
  - intros ([j d] & -> & [Hj Hin]%elem_of_filter). cbn in *. by subst.
  - intros Hin. exists (i, c). rewrite elem_of_filter. done.
Qed.
Lemma elem_replaced i ids g j c :
  (j, c) ∈ rows_for i ids ∪ without i g ↔ (j = i ∧ c ∈ ids) ∨ (j ≠ i ∧ (j, c) ∈ g).
Proof.
  unfold rows_for, without. rewrite elem_of_union, elem_of_map, elem_of_filter. cbn. naive_solver.
Qed.

Section grants.
Context {X : X509Lib} {SS : SecretStore}.

Definition grant_ids (db : DB) (p : Principal) : Outcome (gset Z) :=
  match p_kind p with
  | kind_user => Ok (rows_of (p_id p) (user_issuers db))
  | kind_token => Ok (rows_of (p_id p) (token_issuers db))
  | k => Raise (AssertionError (kind_text k +:+ " has no grant table to query"))
  end.
Definition granted_issuers (db : DB) (p : Principal) : Outcome (list CARow) :=
  let issuers := active_issuers db in
  if unrestricted p then mret issuers else
  granted ← grant_ids db p;
  mret (List.filter (λ r, bool_decide (ca_id r ∈ granted)) issuers).
Definition may_use_issuer (db : DB) (p : Principal) (ca_certificate_id : Z) : Outcome bool :=
  if unrestricted p then mret true else
  granted ← grant_ids db p;
  mret (bool_decide (ca_certificate_id ∈ granted)).

Definition forbidden (n : Z) : Exc := IssuerForbiddenError ("principal not granted issuer " +:+ id_text n).
Definition granted_id_required : Exc :=
  IssuerRequiredError "more than one granted issuer exists; an issuer_id is required".
Definition no_granted_issuer : Exc := NoGrantedIssuerError "no granted active issuer; ask an operator for a grant".
Definition resolve_granted_issuer (p : Principal) (issuer_id : option Z) : Tx DB CARow :=
  match issuer_id with
  | Some n =>
      row ← resolve_issuer (Some n);
      may ← query (λ db, may_use_issuer db p (ca_id row));
      may ← lift may;
      _ ← raise_if (negb may) (forbidden n);
      mret row
  | None =>
      granted ← query (λ db, granted_issuers db p);
      granted ← lift granted;
      match granted with
      | [r] => mret r
      | _ :: _ :: _ => mthrow granted_id_required
      | [] =>
          active ← query active_issuers;
          _ ← raise_if (nonempty active) no_granted_issuer;
          m ← query no_active_issuer_message;
          mthrow (CANotConfiguredError m)
      end
  end.

Record Change := mkChange { added : list Z; removed : list Z; issuers : list Z }.
Definition changed (c : Change) : bool := nonempty (added c) || nonempty (removed c).

Definition has_grant_table (p : Principal) : bool :=
  bool_decide (p_kind p = kind_user) || bool_decide (p_kind p = kind_token).
Definition no_grants_to_list (p : Principal) : Exc := ValueError (kind_text (p_kind p) +:+ " has no grants to list").
Definition cannot_be_granted (p : Principal) : Exc :=
  ValueError (kind_text (p_kind p) +:+ " cannot be granted an issuer").
Definition issuers_of (p : Principal) : Tx DB (list Z) :=
  _ ← raise_if (negb (has_grant_table p)) (no_grants_to_list p);
  g ← query (λ db, grant_ids db p);
  g ← lift g;
  mret (sorted_ids g).

(** A grant row references a user or token row; SQLite checks it at the
    insert. *)
Definition foreign_key_failed : Exc := IntegrityError "FOREIGN KEY constraint failed".
Definition has_owner (db : DB) (p : Principal) (i : Z) : bool :=
  match p_kind p with
  | kind_user => bool_decide (is_Some (users db !! i))
  | _ => bool_decide (is_Some (tokens db !! i))
  end.
Definition on_grants (p : Principal) (f : gset (Z * Z) → gset (Z * Z)) : DB → DB :=
  match p_kind p with kind_user => on_user_issuers f | _ => on_token_issuers f end.
Definition grants_of (p : Principal) (db : DB) : gset (Z * Z) :=
  match p_kind p with kind_user => user_issuers db | _ => token_issuers db end.
Definition principal_id (p : Principal) : Outcome Z := of_option (p_id p) (AssertionError "").

(** The rows are inserted by the flush of the commit that follows. *)
Definition replace_grant_rows (p : Principal) (issuer_ids : gset Z) : Tx DB unit :=
  i ← lift (principal_id p);
  _ ← modify (on_grants p (without i));
  owner ← query (λ db, has_owner db p i);
  _ ← raise_if (nonempty (elements issuer_ids) && negb owner) foreign_key_failed;
  modify (on_grants p (λ g, rows_for i issuer_ids ∪ g)).
Definition require_intermediate (n : Z) : Tx DB unit :=
  issuer ← get_ca n;
  raise_if (bool_decide (ca_kind issuer ≠ Intermediate))
    (ValueError ("CA certificate " +:+ id_text n +:+ " is not an intermediate")).
Definition set_issuers (p : Principal) (issuer_ids : list Z) : Tx DB Change :=
  _ ← raise_if (negb (has_grant_table p)) (cannot_be_granted p);
  _ ← tx_for require_intermediate issuer_ids;
  before ← query (λ db, grant_ids db p);
  before ← lift before;
  let after : gset Z := list_to_set issuer_ids in
  let c := mkChange (sorted_ids (after ∖ before)) (sorted_ids (before ∖ after)) (sorted_ids after) in
  if changed c then _ ← replace_grant_rows p after; _ ← commit; mret c else mret c.
Definition grant (p : Principal) (ca_certificate_id : Z) : Tx DB bool :=
  _ ← raise_if (negb (has_grant_table p)) (cannot_be_granted p);
  _ ← require_intermediate ca_certificate_id;
  i ← lift (principal_id p);
  held ← query (λ db, bool_decide ((i, ca_certificate_id) ∈ grants_of p db));
  if (held : bool) then mret false else
  owner ← query (λ db, has_owner db p i);
  _ ← raise_if (negb owner) foreign_key_failed;
  _ ← modify (on_grants p (λ g, {[(i, ca_certificate_id)]} ∪ g));
  _ ← commit;
  mret true.
End grants.

(** ** Who may use an issuer *)
Section spec.
Context {X : X509Lib} {SS : SecretStore}.

(** The permission a principal holds on an issuer, as the rows say it. *)
Definition holds_grant (db : DB) (p : Principal) (n : Z) : Prop :=
  match p_kind p, p_id p with
  | kind_user, Some i => (i, n) ∈ user_issuers db
  | kind_token, Some i => (i, n) ∈ token_issuers db
  | _, _ => False
  end.
Definition permitted_use (db : DB) (p : Principal) (n : Z) : Prop := unrestricted p = true ∨ holds_grant db p n.

Lemma grant_ids_ok db p : unrestricted p = false ∨ has_grant_table p = true →
  ∃ g, grant_ids db p = Ok g ∧ ∀ n, n ∈ g ↔ holds_grant db p n.
Proof.
  destruct p as [k id role]. unfold grant_ids, holds_grant, has_grant_table, unrestricted; cbn. intros H.
  destruct k; cbn in *; try (by destruct H); (eexists; split; [done|]);
    (destruct id; [intros n; apply elem_rows_of|intros n; cbn; set_solver]).
Qed.
Lemma may_use_issuer_ok db p n : ∃ b, may_use_issuer db p n = Ok b ∧ (b = true ↔ permitted_use db p n).
Proof.
  unfold may_use_issuer, permitted_use. destruct (unrestricted p) eqn:Hu; [by eexists; naive_solver|].
  destruct (grant_ids_ok db p) as (g & -> & Hg); [by left|]. cbn. eexists. split; [done|].
  rewrite bool_decide_eq_true, Hg. naive_solver.
Qed.
Lemma granted_issuers_ok db p : hierarchy_ok db → ∃ l, granted_issuers db p = Ok l ∧ NoDup (map ca_id l) ∧
  ∀ r, r ∈ l ↔ is_active_issuer r = true ∧ cas db !! ca_id r = Some r ∧ permitted_use db p (ca_id r).
Proof.
  intros Hdb. unfold granted_issuers, permitted_use.
  pose proof (rows_where_NoDup (cas db) is_active_issuer ca_id (λ k a Hk, proj1 (Hdb k a Hk))) as Hnd.
  fold (active_issuers db) in Hnd.
  assert (Hin : ∀ r, r ∈ active_issuers db ↔ is_active_issuer r = true ∧ cas db !! ca_id r = Some r).
  { intros r. unfold active_issuers. rewrite elem_of_rows_where. apply and_iff_compat_l. split; [|by eexists].
    intros [k Hk]. by destruct (Hdb k r Hk) as [-> _]. }
  destruct (unrestricted p) eqn:Hu; cbn.
  - eexists. split_and!; [done|done|]. intros r. rewrite Hin. naive_solver.
  - destruct (grant_ids_ok db p) as (g & -> & Hg); [by left|]. cbn. eexists. split; [done|]. split.
    + by apply NoDup_map_filter.
    + intros r. rewrite list_elem_of_In, filter_In, <- list_elem_of_In, Hin, bool_decide_eq_true, Hg. naive_solver.
Qed.

Lemma resolve_granted_issuer_spec p issuer_id s : hierarchy_ok (work s) →
  let usable r := is_active_issuer r = true ∧ cas (work s) !! ca_id r = Some r ∧
                    permitted_use (work s) p (ca_id r) in
  ∃ r, resolve_granted_issuer p issuer_id s = (r, s) ∧
  match issuer_id, r with
  | Some n, Ok row => ca_id row = n ∧ usable row
  | Some n, Raise e =>
      (issuer_resolution (work s) (Some n) (Raise e)) ∨
      (∃ row, issuer_resolution (work s) (Some n) (Ok row) ∧ ¬ permitted_use (work s) p n ∧ e = forbidden n)
  | None, Ok row => usable row ∧ ∀ q, usable q → q = row
  | None, Raise e =>
      (e = granted_id_required ∧ ∃ a b, ca_id a ≠ ca_id b ∧ usable a ∧ usable b) ∨
      ((∀ r, ¬ usable r) ∧ has_active (work s) ∧ e = no_granted_issuer) ∨
      (¬ has_active (work s) ∧ e = CANotConfiguredError (no_active_issuer_message (work s)))
  end.
Proof.
  intros Hdb usable. unfold resolve_granted_issuer. destruct issuer_id as [n|].
  - destruct (resolve_issuer_spec (Some n) s Hdb) as (r & Hr & Hspec). rewrite Tx_bind_eq, Hr.
    destruct r as [row|e]; [|by exists (Raise e); auto].
    destruct Hspec as [Hrow Hact]. destruct (Hdb n row Hrow) as [Hid _].
    destruct (may_use_issuer_ok (work s) p (ca_id row)) as (b & Hb & Hiff).
    run_tx. rewrite Hb. cbn. destruct b; cbn; eexists; (split; [reflexivity|]).
    + split; [done|]. split_and!; [done|by rewrite Hid|by apply Hiff].
    + right. exists row. split; [done|]. split; [|done]. rewrite <- Hid, <- Hiff. done.
  - destruct (granted_issuers_ok (work s) p Hdb) as (l & Hl & Hnd & Hin). run_tx. rewrite Hl. run_tx.
    destruct l as [|a [|b l]].
    + assert (Hno : ∀ r, ¬ usable r) by (intros r Hr%Hin; by apply not_elem_of_nil in Hr).
      run_tx. destruct (nonempty (active_issuers (work s))) eqn:Hne; cbn; eexists; (split; [reflexivity|]).
      * apply nonempty_true, has_active_issuers in Hne. right. left. auto.
      * right. right. split; [|done]. intros Ha%has_active_issuers%nonempty_true. congruence.
    + run_tx. eexists. split; [reflexivity|]. split; [apply Hin; left|]. intros q Hq%Hin. by apply list_elem_of_singleton.
    + run_tx. eexists. split; [reflexivity|]. left. split; [done|]. exists a, b. inversion Hnd as [|? ? Hnin _]; subst.
      split_and!; [|apply Hin; left|apply Hin; right; left]. intros He. apply Hnin. rewrite He. left.
Qed.

(** C27: granted issuer selection is sound and complete.  With an id, the
    answer is the row with that id if and only if it is an active
    intermediate the principal is unrestricted on or holds a grant for; the
    checks of the ungranted resolution come first, then the grant.  Without
    an id the sole issuer that is both active and permitted is taken; several
    are ambiguous; with none, the error tells a missing grant from a missing
    issuer.  The database is only read. *)
Theorem resolve_granted_issuer_exact p issuer_id s : hierarchy_ok (work s) →
  let usable r := is_active_issuer r = true ∧ cas (work s) !! ca_id r = Some r ∧
                    permitted_use (work s) p (ca_id r) in
  ∃ r, resolve_granted_issuer p issuer_id s = (r, s) ∧
  match issuer_id, r with
  | Some n, Ok row => ca_id row = n ∧ usable row
  | Some n, Raise e =>
      (issuer_resolution (work s) (Some n) (Raise e)) ∨
      (∃ row, issuer_resolution (work s) (Some n) (Ok row) ∧ ¬ permitted_use (work s) p n ∧ e = forbidden n)
  | None, Ok row => usable row ∧ ∀ q, usable q → q = row
  | None, Raise e =>
      (e = granted_id_required ∧ ∃ a b, ca_id a ≠ ca_id b ∧ usable a ∧ usable b) ∨
      ((∀ r, ¬ usable r) ∧ has_active (work s) ∧ e = no_granted_issuer) ∨
      (¬ has_active (work s) ∧ e = CANotConfiguredError (no_active_issuer_message (work s)))
  end.
Proof. apply resolve_granted_issuer_spec. Qed.
End spec.

(** ** The writes *)
Section writes.
Context {X : X509Lib} {SS : SecretStore}.

Lemma holds_grant_on p db n i : has_grant_table p = true → p_id p = Some i →
  (holds_grant db p n ↔ (i, n) ∈ grants_of p db).
Proof.
  destruct p as [k id role]. unfold has_grant_table, holds_grant, grants_of. cbn. intros Hk ->. by destruct k.
Qed.
Lemma grants_on_grants p f db : grants_of p (on_grants p f db) = f (grants_of p db).
Proof. unfold grants_of, on_grants. by destruct (p_kind p). Qed.
Lemma cas_on_grants p f db : cas (on_grants p f db) = cas db.
Proof. unfold on_grants. by destruct (p_kind p). Qed.
Lemma on_grants_twice p f g db : on_grants p f (on_grants p g db) = on_grants p (λ x, f (g x)) db.
Proof. unfold on_grants. by destruct (p_kind p). Qed.
(** A write to one principal's rows is not visible to another. *)
Definition same_principal (p q : Principal) : Prop := p_kind p = p_kind q ∧ p_id p = p_id q.
Lemma holds_grant_other p q i f db n : has_grant_table p = true → p_id p = Some i → ¬ same_principal p q →
  (∀ j c, j ≠ i → ((j, c) ∈ f (grants_of p db) ↔ (j, c) ∈ grants_of p db)) →
  (holds_grant (on_grants p f db) q n ↔ holds_grant db q n).
Proof.
  destruct p as [k id role], q as [k' [j|] role'];
    unfold has_grant_table, same_principal, holds_grant, on_grants, grants_of; cbn; intros Hk -> Hne Hf;
    [|by destruct k', k].
  destruct k, k'; cbn in *; try done; apply Hf; naive_solver.
Qed.
Lemma wp_require_intermediates l s (Q : Outcome unit → Session DB → Prop) :
  ((∀ n, n ∈ l → ∃ r, cas (work s) !! n = Some r ∧ ca_kind r = Intermediate) → Q (Ok ()) s) →
  (∀ e, Q (Raise e) s) → wp (tx_for require_intermediate l) s Q.
Proof.
  revert Q. induction l as [|n l IH]; intros Q HQ He; cbn [tx_for].
  - wp_ca. apply HQ. intros n Hn. by apply not_elem_of_nil in Hn.
  - apply wp_bind. unfold require_intermediate at 1. wp_ca; guards; try apply He. apply IH; [|done]. intros Hall. apply HQ.
    intros m [->|Hm]%elem_of_cons; eauto.
Qed.

(** A grant set is replaced as a whole or not at all.  After a successful
    [set_issuers] the principal holds exactly the given ids, all of which name
    intermediates; the change reports exactly the ids gained and lost; no
    other principal's grants and no other table have changed; and posting the
    set that is in place writes nothing.  A refused request changes nothing. *)
Theorem set_issuers_exact p ids db r db' :
  request (set_issuers p ids) db = (r, db') →
  match r with
  | Raise _ => db' = db
  | Ok c =>
      (∀ n, n ∈ ids → ∃ row, cas db !! n = Some row ∧ ca_kind row = Intermediate) ∧
      (∀ n, p_id p ≠ None → (holds_grant db' p n ↔ n ∈ ids)) ∧
      (∀ n, n ∈ added c ↔ n ∈ ids ∧ ¬ holds_grant db p n) ∧
      (∀ n, n ∈ removed c ↔ (n ∉ ids) ∧ holds_grant db p n) ∧
      (∀ n, n ∈ issuers c ↔ n ∈ ids) ∧
      (∀ q n, ¬ same_principal p q → (holds_grant db' q n ↔ holds_grant db q n)) ∧
      (∃ f, db' = on_grants p f db) ∧
      (changed c = false → db' = db)
  end.
Proof.
  intros Hreq. refine (request_wp _ _ (λ r db', match r with Ok _ => _ | Raise e => _ end) _ _ Hreq _).
  unfold set_issuers. apply wp_bind, wp_raise_if; [done|]. intros Hk%negb_false_iff.
  apply wp_bind, wp_require_intermediates; [|done]. intros Hall. cbn [work durable fresh_session] in *.
  destruct (grant_ids_ok db p) as (g & Hg & Hin); [by right|].
  apply wp_bind, wp_query, wp_bind. unfold fresh_session in *. cbn [work] in *. rewrite Hg.
  apply wp_lift; [intros ? [= <-]|done].
  set (c := mkChange _ _ _).
  assert (Hadd : ∀ n, n ∈ added c ↔ n ∈ ids ∧ ¬ holds_grant db p n).
  { intros n. unfold c. cbn. by rewrite elem_sorted_ids, elem_of_difference, elem_of_list_to_set, Hin. }
  assert (Hrem : ∀ n, n ∈ removed c ↔ (n ∉ ids) ∧ holds_grant db p n).
  { intros n. unfold c. cbn. rewrite elem_sorted_ids, elem_of_difference, elem_of_list_to_set, Hin. naive_solver. }
  assert (Hiss : ∀ n, n ∈ issuers c ↔ n ∈ ids) by (intros n; unfold c; cbn; by rewrite elem_sorted_ids, elem_of_list_to_set).
  destruct (changed c) eqn:Hc.
  - unfold replace_grant_rows. wp_run; try done.
    match goal with H : principal_id p = Ok ?k |- _ => apply of_option_ok in H; rename H into Hid; rename k into i end.
    rewrite !on_grants_twice. split_and!; try done.
    + intros n _. rewrite (holds_grant_on _ _ _ i), grants_on_grants, elem_replaced, elem_of_list_to_set by done. naive_solver.
    + intros q n Hne. apply (holds_grant_other p q i); try done. intros j d Hj. rewrite elem_replaced. naive_solver.
    + by eexists.
    + congruence.
  - apply orb_false_iff in Hc as [Ha Hr]. apply nonempty_false in Ha, Hr. pose proof Hadd as Hadd'. pose proof Hrem as Hrem'. rewrite Ha in Hadd'. rewrite Hr in Hrem'.
    wp_run. split_and!; try done.
    + intros n _. specialize (Hadd' n). specialize (Hrem' n). rewrite elem_of_nil in Hadd', Hrem'.
      destruct (decide (n ∈ ids)); destruct (decide (n ∈ g)) as [Hg'|Hg']; rewrite Hin in Hg'; naive_solver.
    + exists id. unfold on_grants. destruct (p_kind p); by destruct db.
Qed.

(** Granting is idempotent.  A successful [grant] leaves the principal
    with the grant, and says whether it was new; the same request again
    writes nothing; no other grant, of this principal or another, changes. *)
Theorem grant_idempotent p n db b db' :
  request (grant p n) db = (Ok b, db') →
  holds_grant db' p n ∧
  (b = true ↔ ¬ holds_grant db p n) ∧
  (∀ m, m ≠ n → (holds_grant db' p m ↔ holds_grant db p m)) ∧
  (∀ q m, ¬ same_principal p q → (holds_grant db' q m ↔ holds_grant db q m)) ∧
  cas db' = cas db ∧
  request (grant p n) db' = (Ok false, db').
Proof.
  intros Hreq.
  set (post := λ (b : bool) (db' : DB), has_grant_table p = true ∧
    ∃ i row, p_id p = Some i ∧ cas db !! n = Some row ∧ ca_kind row = Intermediate ∧
      ((b = false ∧ db' = db ∧ (i, n) ∈ grants_of p db) ∨
       (b = true ∧ db' = on_grants p (λ g, {[(i, n)]} ∪ g) db ∧ (i, n) ∉ grants_of p db))).
  assert (Hw : post b db').
  { refine (request_wp _ _ (λ r db', match r with Ok b => post b db' | Raise e => True end) _ _ Hreq _).
    unfold grant, require_intermediate, fresh_session. wp_ca; try exact I; guards;
    match goal with H : negb (has_grant_table _) = false |- _ => apply negb_false_iff in H end;
    match goal with H : principal_id p = Ok _ |- _ => apply of_option_ok in H end;
    (split; [done|]); eexists _, _; (split_and!; [done..|]);
    try match goal with H : bool_decide (_ ∈ _) = false |- _ => apply bool_decide_eq_false in H end; auto. }
  destruct Hw as (Hk & i & row & Hid & Hrow & Hkind & Hcase).
  assert (Hagain : ∀ d, cas d !! n = Some row → (i, n) ∈ grants_of p d → request (grant p n) d = (Ok false, d)).
  { intros d Hd Hin. destruct (request (grant p n) d) as [r d'] eqn:Hr.
    cut (r = Ok false ∧ d' = d); [by intros [-> ->]|].
    refine (request_wp _ _ (λ r d', r = Ok false ∧ d' = d) _ _ Hr _).
    unfold grant, require_intermediate, fresh_session, principal_id. rewrite Hid. wp_ca; try congruence; try done; guards;
    simplify_eq; try (by rewrite Hk in *); try congruence;
    match goal with H : of_option (Some i) _ = Ok _ |- _ => injection H as <- end;
    match goal with H : bool_decide (_ ∈ _) = false |- _ => by apply bool_decide_eq_false in H end. }
  rewrite !(holds_grant_on _ _ _ i) by done.
  destruct Hcase as [(-> & -> & Hin)|(-> & -> & Hnin)].
  - split_and!; try done; first [by apply Hagain|naive_solver].
  - split_and!; try done.
    + rewrite grants_on_grants. set_solver.
    + intros m Hm. rewrite !(holds_grant_on _ _ _ i), grants_on_grants by done. set_solver.
    + intros q m Hne. apply (holds_grant_other p q i); try done. set_solver.
    + apply cas_on_grants.
    + apply Hagain; [by rewrite cas_on_grants|]. rewrite grants_on_grants. set_solver.
Qed.
End writes.

(** ** Grants at work *)
Module GrantExamples.
#[local] Existing Instance Toy.lib.
#[local] Existing Instance toy_secrets.
Import Toy CaExamples.
#[local] Strategy 1000 [one_root two_cas two_roots crossed after request].
(** Two active issuers, 2 and 3; an admin and a viewer. *)
Definition alice : UserRow := mkUser 1 "alice" "" admin 0.
Definition bob : UserRow := mkUser 2 "bob" "" viewer 0.
Definition staffed : DB := on_users (λ m, <[1 := alice]> (<[2 := bob]> m)) two_roots.
Definition granted : DB := after (set_issuers (user_principal alice) [2]) staffed.

Lemma set_issuers_exact_witness :
  is_ok (fst (request (set_issuers (user_principal alice) [2]) staffed)) = true ∧
  holds_grant granted (user_principal alice) 2.
Proof.
  assert (H : is_ok (fst (request (set_issuers (user_principal alice) [2]) staffed)) = true) by (vm_compute; reflexivity).
  split; [exact H|].
  pose proof (set_issuers_exact (X:=lib) (SS:=toy_secrets) (user_principal alice) [2] staffed _ _ (surjective_pairing _)) as Hs.
  destruct (fst (request (set_issuers (user_principal alice) [2]) staffed)) as [c|e]; [|discriminate H].
  destruct Hs as (_ & Hs & _). apply Hs; [discriminate|]. left.
Defined.
Definition second_grant : Outcome bool * DB := request (grant (user_principal bob) 3) granted.
Lemma grant_idempotent_witness :
  fst second_grant = Ok true ∧ request (grant (user_principal bob) 3) (snd second_grant) = (Ok false, snd second_grant).
Proof.
  assert (H : fst second_grant = Ok true) by (vm_compute; reflexivity). split; [exact H|].
  refine (proj2 (proj2 (proj2 (proj2 (proj2 (grant_idempotent (X:=lib) (SS:=toy_secrets) (user_principal bob) 3 granted true (snd second_grant) _)))))).
  rewrite <- H. apply surjective_pairing.
Defined.
(** The admin holds one grant, so needs not name an issuer; the ACME
    principal may use both and must. *)
Lemma resolve_granted_issuer_exact_witness :
  ∃ r, resolve_granted_issuer (user_principal alice) None (fresh_session one_root) = (r, fresh_session one_root) ∧
    raised r = Some no_granted_issuer.
Proof.
  assert (Hok : hierarchy_ok (work (fresh_session one_root))).
  { apply after_ok; [apply create_hierarchy_keeps|]. intros i r H. discriminate H. }
  destruct (resolve_granted_issuer_exact (X:=lib) (SS:=toy_secrets) (user_principal alice) None
    (fresh_session one_root) Hok) as (r & Hr & _).
  exists r. split; [exact Hr|].
  assert (Hc : raised (fst (resolve_granted_issuer (user_principal alice) None (fresh_session one_root))) = Some no_granted_issuer)
    by (vm_compute; reflexivity). rewrite Hr in Hc. exact Hc.
Defined.
Example sole_grant_resolves :
  match fst (request (resolve_granted_issuer (user_principal alice) None) granted) with Ok r => ca_id r | Raise _ => 0 end = 2 ∧
  raised (fst (request (resolve_granted_issuer (user_principal alice) (Some 3)) granted)) = Some (forbidden 3) ∧
  raised (fst (request (resolve_granted_issuer ACME_PRINCIPAL None) granted)) = Some granted_id_required.
Proof. vm_compute. split_and!; reflexivity. Qed.
End GrantExamples.
