(* ===== verification/Identity.v ===== *)
(** * Users, sessions and API tokens

    [cabin.users], [cabin.sessions] and [cabin.api_tokens].  Every reading of
    the clock is an argument, as is every random draw. *)

From S2P Require Import Prelude PyStr PyTime IPAddr X509Lib X509 Leaf Store CaService Grants.
#[local] Open Scope Z_scope.

(** ** Password hashing, digests and random tokens

    [argon2_verify] answers [Ok false] for a [VerifyMismatchError] and raises
    for a hash it cannot read, which it never does for one it made. *)
Class Crypto := {
  argon2_hash : Z → string → string;  (* under a random salt *)
  argon2_verify : string → string → Outcome bool;
  sha256_hex : string → string;
  token_urlsafe : Z → string;  (* random bytes in base64url *)
  argon2_verify_hash : ∀ n p, argon2_verify (argon2_hash n p) p = Ok true;
  argon2_verify_reads : ∀ n p q, ∃ b, argon2_verify (argon2_hash n p) q = Ok b }.

Definition MIN_PASSWORD_LENGTH : Z := 12.
Definition SESSION_LIFETIME : Z := hours 24.
Definition REFRESH_WINDOW : Z := hours 23.
Definition TOKEN_PREFIX : string := "cabin_".
Definition LAST_USED_THROTTLE : Z := seconds 60.
Definition MAX_LABEL_LENGTH : Z := 100.
Definition unique_failed : Exc := IntegrityError "UNIQUE constraint failed".

Section identity.
Context {X : X509Lib} {SS : SecretStore} {CR : Crypto}.

(** ** Users *)
(** The decoy is hashed once, under some salt [n]. *)
Definition DUMMY_HASH (n : Z) : string := argon2_hash n "not-a-real-password-timing-decoy-only".

Definition check_password_strength (password : string) : Outcome unit :=
  raise_if (py_len password <? MIN_PASSWORD_LENGTH)
    (WeakPasswordError ("password must be at least " +:+ str_of_Z MIN_PASSWORD_LENGTH +:+ " characters")).
Definition is_superadmin (u : UserRow) : bool := bool_decide (user_role u = superadmin).
Definition count_superadmins (exclude_id : option Z) (db : DB) : nat :=
  length (rows_where (users db) (λ u, is_superadmin u && negb (bool_decide (Some (user_id u) = exclude_id)))).
Definition user_named (name : string) (db : DB) : option UserRow :=
  first_where (users db) (λ u, bool_decide (username u = name)).

Definition user_exists (name : string) : Exc := UserExistsError ("username already exists: " +:+ py_repr name).
Definition create_user (name password : string) (role : Role) (salt now : Z) : Tx DB UserRow :=
  _ ← lift (check_password_strength password);
  existing ← query (user_named name);
  _ ← raise_if (bool_decide (is_Some existing)) (user_exists name);
  n ← query (λ db, next_id (users db));
  let user := mkUser n name (argon2_hash salt password) role now in
  _ ← modify (on_users (λ m, <[n := user]> m));
  _ ← commit;
  mret user.

Definition bad_credentials : Exc := InvalidCredentialsError "invalid username or password".
Definition verify_credentials (dummy_salt : Z) (name password : string) : Tx DB UserRow :=
  found ← query (user_named name);
  match found with
  | None => _ ← lift (argon2_verify (DUMMY_HASH dummy_salt) password); mthrow bad_credentials
  | Some user =>
      ok ← lift (argon2_verify (password_hash user) password);
      _ ← raise_if (negb ok) bad_credentials;
      mret user
  end.

Definition list_users (db : DB) : list UserRow := rows_where (users db) (λ _, true).
Definition no_such_user (n : Z) : Exc := UserNotFoundError ("no such user: " +:+ id_text n).
Definition get_user (n : Z) : Tx DB UserRow :=
  row ← query (λ db, users db !! n);
  lift (of_option row (no_such_user n)).
Definition count_users (db : DB) : nat := size (users db).

Definition with_role (r : Role) (u : UserRow) : UserRow :=
  mkUser (user_id u) (username u) (password_hash u) r (user_created u).
Definition with_password (h : string) (u : UserRow) : UserRow :=
  mkUser (user_id u) (username u) h (user_role u) (user_created u).
Definition save_user (u : UserRow) : Tx DB unit := modify (on_users (λ m, <[user_id u := u]> m)).

Definition last_superadmin (verb : string) : Exc :=
  LastSuperadminError ("cannot " +:+ verb +:+ " the last superadmin").
Definition update_role (n : Z) (role : Role) : Tx DB UserRow :=
  user ← get_user n;
  others ← query (count_superadmins (Some (user_id user)));
  _ ← raise_if (is_superadmin user && bool_decide (role ≠ superadmin) && bool_decide (others = 0%nat))
        (last_superadmin "demote");
  _ ← save_user (with_role role user);
  _ ← commit;
  mret (with_role role user).
Definition reset_password (n : Z) (new_password : string) (salt : Z) : Tx DB UserRow :=
  _ ← lift (check_password_strength new_password);
  user ← get_user n;
  let user' := with_password (argon2_hash salt new_password) user in
  _ ← save_user user';
  _ ← commit;
  mret user'.
(** The user's sessions go with the row: [sessions.user_id] is declared
    ON DELETE CASCADE (migration 0002). *)
Definition delete_user (n : Z) : Tx DB unit :=
  user ← get_user n;
  others ← query (count_superadmins (Some (user_id user)));
  _ ← raise_if (is_superadmin user && bool_decide (others = 0%nat)) (last_superadmin "delete");
  _ ← modify (on_user_issuers (without n));
  _ ← modify (on_users (delete (user_id user)));
  _ ← modify (on_sessions (λ m, delete_where m (λ s, bool_decide (session_user s = user_id user))));
  commit.

(** ** Sessions *)
Definition hash_token (token : string) : string := sha256_hex token.
Definition create_session (user : UserRow) (token_draw csrf_draw now : Z) : Tx DB (string * SessionRow) :=
  let token := token_urlsafe token_draw in
  let row := mkSessionRow (hash_token token) (user_id user) (token_urlsafe csrf_draw) now
               (now + SESSION_LIFETIME) None in
  owner ← query (λ db, users db !! user_id user);
  _ ← raise_if (bool_decide (owner = None)) foreign_key_failed;
  taken ← query (λ db, sessions db !! session_hash row);
  _ ← raise_if (bool_decide (is_Some taken)) unique_failed;
  _ ← modify (on_sessions (λ m, <[session_hash row := row]> m));
  _ ← commit;
  mret (token, row).
Definition get_session (token : string) (now : Z) (db : DB) : option SessionRow :=
  match sessions db !! hash_token token with
  | Some row => if session_expires row <? now then None else Some row
  | None => None
  end.
Definition with_expires (e : Z) (s : SessionRow) : SessionRow :=
  mkSessionRow (session_hash s) (session_user s) (csrf_token s) (session_created s) e (flash s).
Definition with_flash (f : option string) (s : SessionRow) : SessionRow :=
  mkSessionRow (session_hash s) (session_user s) (csrf_token s) (session_created s) (session_expires s) f.
(** An UPDATE of one column of a row that was loaded earlier; the row may be
    gone. *)
Definition update_session (row : SessionRow) (f : SessionRow → SessionRow) : Tx DB unit :=
  found ← query (λ db, sessions db !! session_hash row);
  _ ← raise_if (bool_decide (found = None))
        (StaleDataError "UPDATE statement on table 'sessions' expected to update 1 row(s); 0 were matched.");
  modify (on_sessions (alter f (session_hash row))).
Definition touch_session (row : SessionRow) (now : Z) : Tx DB bool :=
  if session_expires row - now <? REFRESH_WINDOW then
    _ ← update_session row (with_expires (now + SESSION_LIFETIME));
    _ ← commit;
    mret true
  else mret false.
Definition delete_session (token : string) : Tx DB unit :=
  _ ← modify (on_sessions (delete (hash_token token)));
  commit.
Definition delete_sessions_for_user (n : Z) : Tx DB unit :=
  _ ← modify (on_sessions (λ m, delete_where m (λ s, bool_decide (session_user s = n))));
  commit.
Definition set_flash (row : SessionRow) (message : string) : Tx DB unit :=
  _ ← update_session row (with_flash (Some message));
  commit.
Definition pop_flash (row : SessionRow) : Tx DB (option string) :=
  match flash row with
  | None => mret None
  | Some message =>
      _ ← update_session row (with_flash None);
      _ ← commit;
      mret (Some message)
  end.
Definition purge_expired (now : Z) : Tx DB unit :=
  _ ← modify (on_sessions (λ m, delete_where m (λ s, session_expires s <? now)));
  commit.

(** ** API tokens *)
Definition hash_secret (secret : string) : string := sha256_hex secret.
Definition create_token (label : string) (role : Role) (expires_at : option Z) (draw now : Z)
  : Tx DB (string * TokenRow) :=
  let clean := strip label in
  _ ← raise_if (bool_decide (clean = "")) (TokenError "the token label must not be empty");
  _ ← raise_if (MAX_LABEL_LENGTH <? py_len clean)
        (TokenError ("the token label must be at most " +:+ str_of_Z MAX_LABEL_LENGTH +:+ " characters"));
  let secret := TOKEN_PREFIX +:+ token_urlsafe draw in
  n ← query (λ db, next_id (tokens db));
  let row := mkToken n clean (hash_secret secret) role now None expires_at None in
  taken ← query (λ db, first_where (tokens db) (λ t, bool_decide (token_hash t = token_hash row)));
  _ ← raise_if (bool_decide (is_Some taken)) unique_failed;
  _ ← modify (on_tokens (λ m, <[n := row]> m));
  _ ← commit;
  mret (secret, row).
Definition with_last_used (t : Z) (r : TokenRow) : TokenRow :=
  mkToken (token_id r) (label r) (token_hash r) (token_role r) (token_created r) (Some t) (token_expires r) (token_revoked r).
Definition with_token_revoked (t : Z) (r : TokenRow) : TokenRow :=
  mkToken (token_id r) (label r) (token_hash r) (token_role r) (token_created r) (last_used_at r) (token_expires r) (Some t).
Definition save_token (r : TokenRow) : Tx DB unit := modify (on_tokens (λ m, <[token_id r := r]> m)).
Definition is_expired (r : TokenRow) (now : Z) : bool :=
  match token_expires r with Some e => e <=? now | None => false end.
Definition verify_token (secret : string) (now : Z) : Tx DB (option TokenRow) :=
  if decide (secret = "") then mret None else
  found ← query (λ db, first_where (tokens db) (λ t, bool_decide (token_hash t = hash_secret secret)));
  match found with
  | None => mret None
  | Some row =>
      if bool_decide (is_Some (token_revoked row)) then mret None else
      if is_expired row now then mret None else
      if match last_used_at row with None => true | Some l => LAST_USED_THROTTLE <=? now - l end then
        _ ← save_token (with_last_used now row);
        _ ← commit;
        mret (Some (with_last_used now row))
      else mret (Some row)
  end.
Definition get_token (n : Z) (db : DB) : option TokenRow := tokens db !! n.
Definition list_tokens (db : DB) : list TokenRow := rows_where (tokens db) (λ _, true).
Definition revoke_token (n : Z) (now : Z) : Tx DB (option TokenRow) :=
  found ← query (get_token n);
  match found with
  | None => mret None
  | Some row =>
      if decide (token_revoked row = None) then
        _ ← save_token (with_token_revoked now row);
        _ ← commit;
        mret (Some (with_token_revoked now row))
      else mret (Some row)
  end.
Definition token_status (row : TokenRow) (now : Z) : string :=
  if bool_decide (is_Some (token_revoked row)) then "revoked"
  else if is_expired row now then "expired" else "active".
End identity.

(** ** The tables that identify a caller *)
Section invariant.
Context {X : X509Lib} {SS : SecretStore} {CR : Crypto}.

(** Ids and digests are the keys of their rows; usernames and token digests
    are unique; a session belongs to a user, a grant to a user or a token. *)
Record identity_ok (db : DB) : Prop := {
  user_keys : ∀ i u, users db !! i = Some u → user_id u = i;
  user_names : ∀ i j u v, users db !! i = Some u → users db !! j = Some v → username u = username v → i = j;
  session_keys : ∀ h s, sessions db !! h = Some s → session_hash s = h;
  session_owners : ∀ h s, sessions db !! h = Some s → is_Some (users db !! session_user s);
  token_keys : ∀ i t, tokens db !! i = Some t → token_id t = i;
  token_digests : ∀ i j t u, tokens db !! i = Some t → tokens db !! j = Some u → token_hash t = token_hash u → i = j;
  user_grants : ∀ i c, (i, c) ∈ user_issuers db → is_Some (users db !! i);
  token_grants : ∀ i c, (i, c) ∈ token_issuers db → is_Some (tokens db !! i) }.

Lemma identity_add_user db n u : identity_ok db → users db !! n = None → user_id u = n →
  (∀ i v, users db !! i = Some v → username v ≠ username u) → identity_ok (on_users (λ m, <[n := u]> m) db).
Proof.
  intros [Hk Hn Hsk Hso Htk Htd Hug Htg] Hfresh Hid Hname.
  assert (Hmono : ∀ i, is_Some (users db !! i) → is_Some (<[n := u]> (users db) !! i)).
  { intros i Hi. destruct (decide (n = i)) as [->|]; [by rewrite lookup_insert_eq; eexists|by rewrite lookup_insert_ne]. }
  split; cbn; eauto.
  - intros i v. rewrite lookup_insert_Some. intros [[<- <-]|[_ ?]]; eauto.
  - intros i j v w. rewrite !lookup_insert_Some. intros [[<- <-]|[? Hv]] [[<- <-]|[? Hw]] He; eauto; [|]; exfalso; by eapply Hname.
Qed.
Lemma identity_set_user db n u u' : identity_ok db → users db !! n = Some u → user_id u' = n → username u' = username u →
  identity_ok (on_users (λ m, <[n := u']> m) db).
Proof.
  intros [Hk Hn Hsk Hso Htk Htd Hug Htg] Hu Hid Hname.
  assert (Hmono : ∀ i, is_Some (users db !! i) → is_Some (<[n := u']> (users db) !! i)).
  { intros i Hi. destruct (decide (n = i)) as [->|]; [by rewrite lookup_insert_eq; eexists|by rewrite lookup_insert_ne]. }
  split; cbn; eauto.
  - intros i v. rewrite lookup_insert_Some. intros [[<- <-]|[_ ?]]; eauto.
  - intros i j v w. rewrite !lookup_insert_Some. intros [[<- <-]|[? Hv]] [[<- <-]|[? Hw]] He; [done| | |eauto];
      rewrite Hname in He; eauto.
Qed.
Lemma identity_drop_user db n : identity_ok db →
  identity_ok (on_sessions (λ m, delete_where m (λ s, bool_decide (session_user s = n)))
    (on_users (delete n) (on_user_issuers (without n) db))).
Proof.
  intros [Hk Hn Hsk Hso Htk Htd Hug Htg]. split; cbn; eauto.
  - intros i u. rewrite lookup_delete_Some. naive_solver.
  - intros i j u v. rewrite !lookup_delete_Some. naive_solver.
  - intros h s. rewrite lookup_delete_where. naive_solver.
  - intros h s. rewrite lookup_delete_where, bool_decide_eq_false. intros [Hs Hne].
    rewrite lookup_delete_ne by done. eauto.
  - intros i c. unfold without. rewrite elem_of_filter. cbn. intros [Hne Hin].
    rewrite lookup_delete_ne by done. eauto.
Qed.
Lemma identity_sessions db f : identity_ok db →
  (∀ h s, f (sessions db) !! h = Some s → session_hash s = h ∧ is_Some (users db !! session_user s)) →
  identity_ok (on_sessions f db).
Proof. intros [Hk Hn Hsk Hso Htk Htd Hug Htg] Hf. split; cbn; eauto; intros h s Hs; by apply Hf in Hs as []. Qed.
Lemma identity_delete_sessions db p : identity_ok db → identity_ok (on_sessions (λ m, delete_where m p) db).
Proof.
  intros Hdb. apply identity_sessions; [done|]. intros h s [Hs _]%lookup_delete_where.
  split; [by eapply session_keys|by eapply session_owners].
Qed.
Lemma identity_alter_session db h f : identity_ok db →
  (∀ s, session_hash (f s) = session_hash s ∧ session_user (f s) = session_user s) →
  identity_ok (on_sessions (alter f h) db).
Proof.
  intros Hdb Hf. apply identity_sessions; [done|]. intros k s. destruct (decide (h = k)) as [->|Hne].
  - rewrite lookup_alter_eq. destruct (sessions db !! k) as [s0|] eqn:Hs; [|done]. intros [= <-].
    destruct (Hf s0) as [-> ->]. split; [by eapply session_keys|by eapply session_owners].
  - rewrite lookup_alter_ne by done. intros Hs. split; [by eapply session_keys|by eapply session_owners].
Qed.
Lemma identity_token db n t : identity_ok db → token_id t = n →
  (∀ i u, tokens db !! i = Some u → token_hash u = token_hash t → i = n) →
  identity_ok (on_tokens (λ m, <[n := t]> m) db).
Proof.
  intros [Hk Hn Hsk Hso Htk Htd Hug Htg] Hid Hh. split; cbn; eauto.
  - intros i u. rewrite lookup_insert_Some. intros [[<- <-]|[_ ?]]; eauto.
  - intros i j u v. rewrite !lookup_insert_Some. intros [[<- <-]|[? Hu]] [[<- <-]|[? Hv]] He; eauto. symmetry. eauto.
  - intros i c Hi%Htg. destruct (decide (n = i)) as [->|]; [by rewrite lookup_insert_eq; eexists|by rewrite lookup_insert_ne].
Qed.
Lemma identity_on_grants db p f : identity_ok db →
  (∀ i c, (i, c) ∈ f (grants_of p db) → (i, c) ∈ grants_of p db ∨ has_owner db p i = true) →
  identity_ok (on_grants p f db).
Proof.
  intros [Hk Hn Hsk Hso Htk Htd Hug Htg] Hf. unfold on_grants, grants_of, has_owner in *.
  destruct (p_kind p); (split; cbn; [by eauto..| |]); intros j c Hc; try (by eauto);
    (destruct (Hf j c Hc) as [?|Ho]; [by eauto|by apply bool_decide_eq_true in Ho]).
Qed.
End invariant.

(** ** Requests *)
Inductive identity_op `{X : X509Lib, SS : SecretStore} :=
  | op_create_user (name password : string) (role : Role) (salt now : Z)
  | op_update_role (n : Z) (role : Role)
  | op_reset_password (n : Z) (password : string) (salt : Z)
  | op_delete_user (n : Z)
  | op_create_session (u : UserRow) (token csrf now : Z)
  | op_touch_session (row : SessionRow) (now : Z)
  | op_delete_session (token : string)
  | op_delete_sessions (n : Z)
  | op_set_flash (row : SessionRow) (message : string)
  | op_pop_flash (row : SessionRow)
  | op_purge_expired (now : Z)
  | op_create_token (label : string) (role : Role) (expires : option Z) (draw now : Z)
  | op_verify_token (secret : string) (now : Z)
  | op_revoke_token (n now : Z)
  | op_set_issuers (p : Principal) (ids : list Z)
  | op_grant (p : Principal) (n : Z).

Section machine.
Context {X : X509Lib} {SS : SecretStore} {CR : Crypto}.

Definition discard {A} (m : Tx DB A) : Tx DB unit := m ≫= λ _, mret ().
Definition run_identity (op : identity_op) : Tx DB unit :=
  match op with
  | op_create_user name pw role salt now => discard (create_user name pw role salt now)
  | op_update_role n role => discard (update_role n role)
  | op_reset_password n pw salt => discard (reset_password n pw salt)
  | op_delete_user n => delete_user n
  | op_create_session u t c now => discard (create_session u t c now)
  | op_touch_session row now => discard (touch_session row now)
  | op_delete_session t => delete_session t
  | op_delete_sessions n => delete_sessions_for_user n
  | op_set_flash row m => set_flash row m
  | op_pop_flash row => discard (pop_flash row)
  | op_purge_expired now => purge_expired now
  | op_create_token l r e d now => discard (create_token l r e d now)
  | op_verify_token s now => discard (verify_token s now)
  | op_revoke_token n now => discard (revoke_token n now)
  | op_set_issuers p ids => discard (set_issuers p ids)
  | op_grant p n => discard (grant p n)
  end.

Lemma keeps_discard {A} P (m : Tx DB A) : keeps P m → keeps P (discard m).
Proof. intros Hm. apply keeps_bind; [done|]. intros _. apply keeps_ret. Qed.
(** Both halves of the session satisfy the invariant at the end of a path. *)
Ltac ends H := cbn [work durable] in *; try (split; assumption);
  match goal with |- both ?P (mkSession ?db _) => assert (H : P db); [|by split] end.

Lemma update_session_keeps row f : (∀ s, session_hash (f s) = session_hash s ∧ session_user (f s) = session_user s) →
  keeps identity_ok (update_session row f).
Proof.
  intros Hf. apply keeps_wp. intros s [Hw Hd]. unfold update_session. wp_run; try done.
  split; [|done]. by apply identity_alter_session.
Qed.
Lemma user_ops_keep : (∀ name pw role salt now, keeps identity_ok (create_user name pw role salt now)) ∧
  (∀ n role, keeps identity_ok (update_role n role)) ∧ (∀ n pw salt, keeps identity_ok (reset_password n pw salt)) ∧
  (∀ n, keeps identity_ok (delete_user n)).
Proof.
  split_and!; intros; apply keeps_wp; intros s [Hw Hd];
    unfold create_user, update_role, reset_password, delete_user, get_user, save_user; wp_run; ends Hok;
    try match goal with H : of_option _ _ = Ok _ |- _ => apply of_option_ok in H end; guards.
  - apply identity_add_user; [done|apply next_id_fresh|done|].
    intros i v Hi He. match goal with H : user_named _ _ = None |- _ => unfold user_named in H; rewrite first_where_none in H;
      specialize (H i v Hi); by apply bool_decide_eq_false in H end.
  - pose proof (user_keys _ Hw _ _ ltac:(eassumption)) as Hid. rewrite <- Hid in *. by eapply identity_set_user.
  - pose proof (user_keys _ Hw _ _ ltac:(eassumption)) as Hid. rewrite <- Hid in *. by eapply identity_set_user.
  - rewrite (user_keys _ Hw _ _ ltac:(eassumption)). by apply identity_drop_user.
Qed.
Lemma session_ops_keep : (∀ u t c now, keeps identity_ok (create_session u t c now)) ∧
  (∀ row now, keeps identity_ok (touch_session row now)) ∧ (∀ t, keeps identity_ok (delete_session t)) ∧
  (∀ n, keeps identity_ok (delete_sessions_for_user n)) ∧ (∀ row m, keeps identity_ok (set_flash row m)) ∧
  (∀ row, keeps identity_ok (pop_flash row)) ∧ (∀ now, keeps identity_ok (purge_expired now)).
Proof.
  split_and!; intros.
  - apply keeps_wp. intros s [Hw Hd]. unfold create_session. wp_run; ends Hok; guards.
    apply identity_sessions; [done|]. intros h r. rewrite lookup_insert_Some.
    intros [[<- <-]|[_ Hr]]; [split; [done|]; cbn; by apply not_eq_None_Some|].
    split; [by eapply (session_keys _ Hw)|by eapply (session_owners _ Hw)].
  - unfold touch_session. destruct (_ <? _); [|apply keeps_ret]. apply keeps_bind; [by apply update_session_keeps|].
    intros _. apply keeps_bind; [apply keeps_commit|intros _; apply keeps_ret].
  - apply keeps_wp. intros s [Hw Hd]. unfold delete_session. wp_run. ends Hok.
    apply identity_sessions; [done|]. intros h r [_ Hr]%lookup_delete_Some.
    split; [by eapply (session_keys _ Hw)|by eapply (session_owners _ Hw)].
  - apply keeps_wp. intros s [Hw Hd]. unfold delete_sessions_for_user. wp_run. ends Hok. by apply identity_delete_sessions.
  - unfold set_flash. apply keeps_bind; [by apply update_session_keeps|intros _; apply keeps_commit].
  - unfold pop_flash. destruct (flash row); [|apply keeps_ret]. apply keeps_bind; [by apply update_session_keeps|].
    intros _. apply keeps_bind; [apply keeps_commit|intros _; apply keeps_ret].
  - apply keeps_wp. intros s [Hw Hd]. unfold purge_expired. wp_run. ends Hok. by apply identity_delete_sessions.
Qed.
Lemma identity_save_token db i t t' : identity_ok db → tokens db !! i = Some t → token_id t' = token_id t →
  token_hash t' = token_hash t → identity_ok (on_tokens (λ m, <[token_id t' := t']> m) db).
Proof.
  intros Hdb Hi Hid Hh. apply identity_token; [done..|]. intros j u Hj He.
  rewrite Hid, (token_keys _ Hdb _ _ Hi). eapply (token_digests _ Hdb j i); [done..|]. congruence.
Qed.
Lemma token_ops_keep : (∀ l r e d now, keeps identity_ok (create_token l r e d now)) ∧
  (∀ sec now, keeps identity_ok (verify_token sec now)) ∧ (∀ n now, keeps identity_ok (revoke_token n now)).
Proof.
  split_and!; intros; apply keeps_wp; intros s [Hw Hd]; unfold create_token, verify_token, revoke_token, get_token, save_token;
    wp_run; ends Hok; guards.
  - apply identity_token; [done..|]. intros i u Hi He.
    match goal with H : first_where _ _ = None |- _ => rewrite first_where_none in H; specialize (H i u Hi);
      by apply bool_decide_eq_false in H end.
  - match goal with H : first_where _ _ = Some _ |- _ => apply first_where_some in H as [_ [k Hk]] end.
    by eapply identity_save_token.
  - by eapply identity_save_token.
Qed.
Lemma grant_ops_keep : (∀ p ids, keeps identity_ok (set_issuers p ids)) ∧ (∀ p n, keeps identity_ok (grant p n)).
Proof.
  split; intros; apply keeps_wp; intros s [Hw Hd].
  - unfold set_issuers, replace_grant_rows. wp_run; try done.
    apply wp_require_intermediates; [intros _|done]. wp_run; ends Hok; rewrite ?on_grants_twice;
      apply identity_on_grants; try done; intros j c; [unfold without; rewrite elem_of_filter; naive_solver|].
    rewrite elem_replaced, elem_of_list_to_set. intros [[-> Hc]|[_ ?]]; [right|by left].
    match goal with H : _ && negb _ = false |- _ => apply andb_false_iff in H as [H|H%negb_false_iff] end;
      [|unfold has_owner, on_grants in *; by destruct (p_kind p)].
    match goal with H : nonempty _ = false |- _ => apply nonempty_false, elements_empty_inv in H end. set_solver.
  - unfold grant, require_intermediate. wp_ca; ends Hok; guards; apply identity_on_grants; try done.
    match goal with H : negb _ = false |- _ => apply negb_false_iff in H end.
    intros j c [[= -> ->]%elem_of_singleton|?]%elem_of_union; auto.
Qed.

(** *** The tables of one component are not touched by the other *)
Definition same_callers (d0 d : DB) : Prop := users d = users d0 ∧ sessions d = sessions d0 ∧ tokens d = tokens d0 ∧
  user_issuers d = user_issuers d0 ∧ token_issuers d = token_issuers d0.
Lemma ca_frame op d0 : keeps (same_callers d0) (run_op op).
Proof.
  destruct op as [[]|[]]; cbn [run_op]; unfold create_root, create_intermediate_under, retire, retire_targets,
    cross_sign_root, renew_in_place, import_hierarchy, import_cross, get_ca, add_ca; keeps_frame.
Qed.
Lemma identity_frame op m : keeps (λ d, cas d = m) (run_identity op).
Proof.
  destruct op; cbn [run_identity]; unfold discard, create_user, update_role, reset_password, delete_user, get_user, save_user,
    create_session, touch_session, delete_session, delete_sessions_for_user, set_flash, pop_flash, purge_expired,
    update_session, create_token, verify_token, revoke_token, save_token, set_issuers, grant, require_intermediate,
    replace_grant_rows, get_ca, on_grants; keeps_frame.
Qed.
Lemma run_identity_keeps op : keeps identity_ok (run_identity op).
Proof.
  destruct user_ops_keep as (? & ? & ? & ?), session_ops_keep as (? & ? & ? & ? & ? & ? & ?),
    token_ops_keep as (? & ? & ?), grant_ops_keep as [? ?].
  destruct op; cbn [run_identity]; try apply keeps_discard; auto.
Qed.

(** A request to the CA service or about a caller. *)
Definition system_step (db db' : DB) : Prop := ca_step db db' ∨ ∃ op, db' = snd (request (run_identity op) db).
Definition system_ok (db : DB) : Prop := hierarchy_ok db ∧ identity_ok db.
Lemma identity_same db db' : same_callers db db' → identity_ok db → identity_ok db'.
Proof.
  intros (Hu & Hs & Ht & Hui & Hti) [Hk Hn Hsk Hso Htk Htd Hug Htg].
  split; rewrite ?Hu, ?Hs, ?Ht, ?Hui, ?Hti; eauto.
Qed.
Lemma hierarchy_same db db' : cas db' = cas db → hierarchy_ok db → hierarchy_ok db'.
Proof. intros Hc H i r. rewrite Hc. apply H. Qed.
Lemma system_step_ok db db' : system_ok db → system_step db db' → system_ok db'.
Proof.
  intros [Hh Hi] [[op ->]|[op ->]]; split.
  - by apply request_keeps; [apply run_op_keeps|].
  - eapply identity_same; [|done]. apply request_keeps; [apply ca_frame|done].
  - eapply hierarchy_same; [|done]. by apply (request_keeps (λ d, cas d = cas db)); [apply identity_frame|].
  - by apply request_keeps; [apply run_identity_keeps|].
Qed.

Lemma empty_db_ok : system_ok empty_db.
Proof. split; [by intros i r|]. split; cbn; intros *; rewrite ?lookup_empty, ?elem_of_empty; done. Qed.
(** C26: whatever requests cabin has served, to the CA service or about users,
    sessions, tokens and grants, in any order and with any outcome: usernames
    and token digests are unique, every session belongs to an existing user,
    every grant to an existing user or token, and the hierarchy is sound. *)
Theorem reachable_system_ok db : rtc system_step empty_db db → system_ok db.
Proof.
  intros H. refine (rtc_ind_r (R := system_step) system_ok empty_db _ _ db H).
  - apply empty_db_ok.
  - intros db1 db2 _ Hstep IH. by eapply system_step_ok.
Qed.

(** *** The last superadmin *)
Definition has_superadmin (db : DB) : Prop := ∃ i u, users db !! i = Some u ∧ is_superadmin u = true.
Lemma count_superadmins_others db n : count_superadmins (Some n) db ≠ 0%nat →
  ∃ i u, users db !! i = Some u ∧ is_superadmin u = true ∧ user_id u ≠ n.
Proof.
  unfold count_superadmins. intros Hn. destruct (rows_where _ _) as [|u l] eqn:E; [done|].
  assert (Hu : u ∈ rows_where (users db) (λ u, is_superadmin u && negb (bool_decide (Some (user_id u) = Some n))))
    by (rewrite E; left).
  apply elem_of_rows_where in Hu as [[Hs Hne%negb_true_iff%bool_decide_eq_false]%andb_true_iff [i Hi]].
  exists i, u. split_and!; [done|done|congruence].
Qed.
Lemma superadmin_survives db n u : identity_ok db → has_superadmin db → users db !! n = Some u →
  (is_superadmin u = true → count_superadmins (Some (user_id u)) db ≠ 0%nat) →
  ∃ i v, i ≠ n ∧ users db !! i = Some v ∧ is_superadmin v = true.
Proof.
  intros Hdb (i & v & Hi & Hv) Hn Hguard. destruct (decide (i = n)) as [->|Hne]; [|by exists i, v].
  assert (v = u) as -> by congruence.
  destruct (count_superadmins_others _ _ (Hguard Hv)) as (j & w & Hj & Hw & Hne). exists j, w. split; [|done].
  rewrite <- (user_keys _ Hdb _ _ Hn), <- (user_keys _ Hdb _ _ Hj). done.
Qed.
Definition is_user_op (op : identity_op) : bool :=
  match op with op_create_user _ _ _ _ _ | op_update_role _ _ | op_reset_password _ _ _ | op_delete_user _ => true | _ => false end.
Lemma users_frame op m : is_user_op op = false → keeps (λ d, users d = m) (run_identity op).
Proof.
  destruct op; try done; intros _; cbn [run_identity]; unfold discard,
    create_session, touch_session, delete_session, delete_sessions_for_user, set_flash, pop_flash, purge_expired,
    update_session, create_token, verify_token, revoke_token, save_token, set_issuers, grant, require_intermediate,
    replace_grant_rows, get_ca, on_grants; keeps_frame.
Qed.
Lemma superadmin_replaced db n u u' : identity_ok db → has_superadmin db → users db !! n = Some u → user_id u' = n →
  (is_superadmin u' = true ∨ (is_superadmin u = true → count_superadmins (Some (user_id u)) db ≠ 0%nat)) →
  has_superadmin (on_users (λ m, <[user_id u' := u']> m) db).
Proof.
  intros Hdb Hs Hn Hid [Hu'|Hg].
  - exists n, u'. cbn. rewrite Hid, lookup_insert_eq. done.
  - destruct (superadmin_survives _ _ _ Hdb Hs Hn Hg) as (j & v & Hj & Hv & Hsv). exists j, v. cbn.
    rewrite Hid, lookup_insert_ne by done. done.
Qed.
Lemma user_ops_keep_superadmin op s : is_user_op op = true → both identity_ok s → both has_superadmin s →
  wp (run_identity op) s (λ _ s', both has_superadmin s').
Proof.
  intros Hop [Hw Hd] [Aw Ad].
  destruct op; try done; cbn [run_identity]; unfold discard, create_user, update_role, reset_password, delete_user,
    get_user, save_user; wp_run; ends Hok; try match goal with H : of_option _ _ = Ok _ |- _ => apply of_option_ok in H end.
  - destruct Aw as (i & u & Hi & Hu). exists i, u. cbn. rewrite lookup_insert_ne; [done|].
    intros <-. by rewrite next_id_fresh in Hi.
  - match goal with H : users _ !! n = Some ?u |- _ => pose proof (user_keys _ Hw _ _ H); eapply (superadmin_replaced _ n u) end; try done.
    match goal with H : _ && _ && _ = false |- _ => rewrite !andb_false_iff, !bool_decide_eq_false in H;
      destruct H as [[H|H%dec_stable]|H] end.
    + right. congruence.
    + left. subst. by apply bool_decide_eq_true.
    + by right.
  - match goal with H : users _ !! n = Some ?u |- _ => pose proof (user_keys _ Hw _ _ H); eapply (superadmin_replaced _ n u); try done;
      destruct (is_superadmin u) eqn:Hsu; [left|right; congruence]; exact Hsu end.
  - match goal with H : users _ !! n = Some ?u |- _ => pose proof (user_keys _ Hw _ _ H); eapply (superadmin_survives _ n u) in Aw as (j & v & Hj & Hv & Hsv) end; try done.
    + exists j, v. cbn. rewrite lookup_delete_ne by congruence. done.
    + match goal with H : _ && _ = false |- _ => rewrite andb_false_iff, bool_decide_eq_false in H; destruct H end; [congruence|done].
Qed.

(** C17: cabin never loses its last superadmin.  From any consistent database
    with a superadmin, no request about users (demotion and deletion
    included), sessions, tokens, grants or CAs leads to one without. *)
Theorem superadmin_never_lost db db' : system_ok db → system_step db db' → has_superadmin db → has_superadmin db'.
Proof.
  intros [Hh Hi] [[op ->]|[op ->]] Hs.
  - assert (Hf : same_callers db (snd (request (run_op op) db))) by (apply request_keeps; [apply ca_frame|done]).
    unfold has_superadmin. destruct Hf as [-> _]. done.
  - destruct (is_user_op op) eqn:Hop.
    + pose proof (user_ops_keep_superadmin op (fresh_session db) Hop (conj Hi Hi) (conj Hs Hs)) as Hw.
      unfold request. unfold wp in Hw. destruct (run_identity op (fresh_session db)) as [r s']. apply Hw.
    + assert (Hf : users (snd (request (run_identity op) db)) = users db)
        by (apply (request_keeps (λ d, users d = users db)); [by apply users_frame|done]).
      unfold has_superadmin. by rewrite Hf.
Qed.

(** A new account starts with nothing.  The row that [create_user] adds
    has an id no session and no grant refers to, whatever the accounts deleted
    before it held: SQLite may hand out the id of a deleted row again. *)
Theorem new_user_has_nothing name password role salt now db u db' :
  identity_ok db → request (create_user name password role salt now) db = (Ok u, db') →
  users db' !! user_id u = Some u ∧ username u = name ∧ user_role u = role ∧
  argon2_verify (password_hash u) password = Ok true ∧
  MIN_PASSWORD_LENGTH ≤ py_len password ∧
  users db !! user_id u = None ∧
  (∀ h s, sessions db' !! h = Some s → session_user s ≠ user_id u) ∧
  (∀ c, ¬ holds_grant db' (user_principal u) c).
Proof.
  intros Hdb Hreq.
  refine (request_wp _ _ (λ r db', match r with Ok u => _ | Raise e => True end) _ _ Hreq _).
  unfold create_user, fresh_session. wp_run; try done. guards. cbn [user_id username user_role password_hash].
  match goal with H : check_password_strength _ = Ok _ |- _ => apply raise_if_ok, Z.ltb_ge in H end.
  assert (Hno : ∀ o, is_Some (users db !! o) → o ≠ next_id (users db)).
  { intros o Ho ->. rewrite next_id_fresh in Ho. by destruct Ho. }
  split_and!; try done; [by cbn; rewrite lookup_insert_eq|apply argon2_verify_hash|apply next_id_fresh| |].
  - intros h s Hs. cbn in Hs. apply Hno. by eapply session_owners.
  - intros c Hc. unfold holds_grant in Hc. cbn in Hc. apply (Hno (next_id (users db))); [|done]. by eapply user_grants.
Qed.

(** *** Sessions *)

(** The life of a session.  The token a login returns opens its session,
    and no other row is touched; the session answers as long as its expiry is
    not past; using it extends the expiry exactly when less than 23 of its 24
    hours are left, so to a later instant by more than an hour; and after the
    sessions of its user are deleted the token opens nothing. *)
Theorem session_lifetime u td cd now db token row db' :
  request (create_session u td cd now) db = (Ok (token, row), db') →
  token = token_urlsafe td ∧ session_user row = user_id u ∧
  (∀ t, get_session token t db' = if now + SESSION_LIFETIME <? t then None else Some row) ∧
  (∀ h, h ≠ hash_token token → sessions db' !! h = sessions db !! h) ∧
  (∀ t, request (touch_session row t) db' =
     if session_expires row - t <? REFRESH_WINDOW
     then (Ok true, on_sessions (alter (with_expires (t + SESSION_LIFETIME)) (session_hash row)) db')
     else (Ok false, db')) ∧
  (∀ t, session_expires row - t < REFRESH_WINDOW → session_expires row + hours 1 < t + SESSION_LIFETIME) ∧
  (∀ t, get_session token t (snd (request (delete_sessions_for_user (user_id u)) db')) = None).
Proof.
  intros Hreq.
  set (r0 := mkSessionRow (hash_token (token_urlsafe td)) (user_id u) (token_urlsafe cd) now (now + SESSION_LIFETIME) None).
  assert (Hpost : token = token_urlsafe td ∧ row = r0 ∧ sessions db' = <[session_hash r0 := r0]> (sessions db)).
  { refine (request_wp _ _ (λ r db', match r with Ok (token, row) => token = token_urlsafe td ∧ row = r0 ∧
      sessions db' = <[session_hash r0 := r0]> (sessions db) | Raise e => True end) _ _ Hreq _).
    unfold create_session, fresh_session. wp_run; done. }
  destruct Hpost as (-> & -> & Hs). cbn [session_user r0].
  assert (Hl : sessions db' !! hash_token (token_urlsafe td) = Some r0) by (by rewrite Hs, lookup_insert_eq).
  split_and!; try done.
  - intros t. unfold get_session. by rewrite Hl.
  - intros h Hh. rewrite Hs. by rewrite lookup_insert_ne.
  - intros t. unfold touch_session, update_session. destruct (_ <? _); [|done]. unfold request. run_tx.
    change (sessions (work (fresh_session db')) !! session_hash r0) with (sessions db' !! hash_token (token_urlsafe td)).
    by rewrite Hl.
  - intros t. unfold SESSION_LIFETIME, REFRESH_WINDOW, hours. lia.
  - intros t. unfold get_session, delete_sessions_for_user, request. cbn.
    match goal with |- match ?x with _ => _ end = None => destruct x as [s|] eqn:E; [|done] end. apply lookup_delete_where in E as [E Hne].
    assert (Some s = Some r0) as [= ->] by (rewrite <- E; exact Hl). cbn in Hne. by apply bool_decide_eq_false in Hne.
Qed.

(** *** API tokens *)

(** What [verify_token] answers and leaves, on the database [db]. *)
Definition token_verdict (secret : string) (now : Z) (db : DB) (r : Outcome (option TokenRow)) (db' : DB) : Prop :=
  match r with
  | Ok (Some row') => secret ≠ "" ∧ ∃ row, tokens db !! token_id row = Some row ∧
      token_hash row = hash_secret secret ∧ token_status row now = "active" ∧
      ((row' = row ∧ db' = db ∧ ∃ l, last_used_at row = Some l ∧ now - l < LAST_USED_THROTTLE) ∨
       (row' = with_last_used now row ∧ db' = on_tokens (λ m, <[token_id row := row']> m) db ∧
          ∀ l, last_used_at row = Some l → LAST_USED_THROTTLE ≤ now - l))
  | Ok None => db' = db ∧ (secret = "" ∨
      ∀ i row, tokens db !! i = Some row → token_hash row = hash_secret secret → token_status row now ≠ "active")
  | Raise _ => False
  end.
Lemma verify_token_wp secret now db : identity_ok db →
  wp (verify_token secret now) (fresh_session db) (λ r s, s = fresh_session (durable s) ∧ token_verdict secret now db r (durable s)).
Proof.
  intros Hdb.
  assert (Huniq : ∀ t, first_where (tokens db) (λ t, bool_decide (token_hash t = hash_secret secret)) = Some t →
    token_hash t = hash_secret secret ∧ tokens db !! token_id t = Some t ∧
    ∀ i u, tokens db !! i = Some u → token_hash u = hash_secret secret → u = t).
  { intros t [Ht%bool_decide_eq_true [k Hk]]%first_where_some. pose proof (token_keys _ Hdb _ _ Hk) as Hid.
    split_and!; [done|by rewrite Hid|]. intros i u Hi Hu.
    assert (i = k) as -> by (eapply (token_digests _ Hdb); [done..|congruence]). congruence. }
  unfold token_verdict, verify_token, save_token, fresh_session.
  wp_run; (split; [done|]); unfold token_status;
    try (destruct (Huniq _ eq_refl) as (Hh & Hi & Hall)).
  - auto.
  - split; [done|]. right. intros i row Hi' Hrow Hs. by rewrite (Hall i row Hi' Hrow), E1 in Hs.
  - split; [done|]. right. intros i row Hi' Hrow Hs. by rewrite (Hall i row Hi' Hrow), E1, E2 in Hs.
  - split; [done|]. exists t. rewrite E1, E2. split_and!; try done. right. split_and!; [done|done|].
    intros l Hl. rewrite Hl in E3. lia.
  - split; [done|]. exists t. rewrite E1, E2. split_and!; try done. left. split_and!; [done|done|].
    destruct (last_used_at t) as [l|]; [exists l; split; [done|lia]|done].
  - split; [done|]. right. intros i row Hi Hrow. rewrite first_where_none in E0.
    specialize (E0 i row Hi). by apply bool_decide_eq_false in E0.
Qed.

(** A bearer secret authenticates exactly the live token it is the secret
    of: the row with its digest, when the page would call that row active.
    Revoked, expired and unknown are all the same miss.  The only write is the
    last use, at most once in 60 seconds. *)
Theorem verify_token_exact secret now db : identity_ok db →
  ∃ r, request (verify_token secret now) db = r ∧
  match r with
  | (Ok (Some row'), db') => secret ≠ "" ∧ ∃ row, tokens db !! token_id row = Some row ∧
      token_hash row = hash_secret secret ∧ token_status row now = "active" ∧
      ((row' = row ∧ db' = db ∧ ∃ l, last_used_at row = Some l ∧ now - l < LAST_USED_THROTTLE) ∨
       (row' = with_last_used now row ∧ db' = on_tokens (λ m, <[token_id row := row']> m) db ∧
          ∀ l, last_used_at row = Some l → LAST_USED_THROTTLE ≤ now - l))
  | (Ok None, db') => db' = db ∧ (secret = "" ∨
      ∀ i row, tokens db !! i = Some row → token_hash row = hash_secret secret → token_status row now ≠ "active")
  | (Raise _, _) => False
  end.
Proof.
  intros Hdb. eexists. split; [reflexivity|]. apply request_post.
  eapply wp_mono; [by apply verify_token_wp|]. intros r s [_ H]. exact H.
Qed.
End machine.

(** ** Users, sessions and tokens at work *)
#[refine] Definition toy_crypto : Crypto := {|
  argon2_hash := λ _ p, "argon2id$" +:+ p;
  argon2_verify := λ h p, Ok (bool_decide (h = "argon2id$" +:+ p));
  sha256_hex := λ s, "sha256$" +:+ s;
  token_urlsafe := λ n, "token-" +:+ str_of_Z n |}.
Proof.
  - intros n p. by rewrite bool_decide_eq_true_2.
  - by eexists.
Defined.
Module IdentityExamples.
#[local] Existing Instance Toy.lib.
#[local] Existing Instance toy_secrets.
#[local] Existing Instance toy_crypto.
Import Toy CaExamples.
Definition admin_made : DB := after (create_user "root" "correct horse battery" superadmin 1 t2026) empty_db.
Definition viewer_made : DB := after (create_user "eve" "twelve chars" viewer 2 t2026) admin_made.
#[local] Strategy 1000 [admin_made viewer_made after request].

Lemma viewer_made_ok : system_ok viewer_made.
Proof.
  eapply system_step_ok; [eapply system_step_ok; [apply empty_db_ok|]|]; right.
  - exists (op_create_user "root" "correct horse battery" superadmin 1 t2026). symmetry. apply request_drop.
  - exists (op_create_user "eve" "twelve chars" viewer 2 t2026). symmetry. apply request_drop.
Qed.
Lemma viewer_made_superadmin : has_superadmin viewer_made.
Proof.
  destruct (users viewer_made !! 1) as [u|] eqn:E.
  - exists 1, u. split; [exact E|].
    assert (H : bool_decide (user_role <$> users viewer_made !! 1 = Some superadmin) = true) by (vm_compute; reflexivity).
    apply bool_decide_eq_true in H. rewrite E in H. injection H as H. unfold is_superadmin. rewrite H. reflexivity.
  - assert (H : bool_decide (is_Some (users viewer_made !! 1)) = true) by (vm_compute; reflexivity).
    apply bool_decide_eq_true in H. rewrite E in H. by destruct H.
Qed.
Lemma reachable_system_ok_witness :
  rtc system_step empty_db admin_made ∧ system_ok admin_made.
Proof.
  assert (H : rtc system_step empty_db admin_made).
  { apply rtc_once. right. exists (op_create_user "root" "correct horse battery" superadmin 1 t2026).
    symmetry. exact (request_drop _ _). }
  split; [exact H|]. exact (reachable_system_ok (X:=lib) (SS:=toy_secrets) (CR:=toy_crypto) _ H).
Defined.
(** The only superadmin cannot be deleted; the request is refused. *)
Lemma superadmin_never_lost_witness :
  raised (fst (request (delete_user 1) viewer_made)) = Some (last_superadmin "delete") ∧
  has_superadmin (after (delete_user 1) viewer_made).
Proof.
  split; [vm_compute; reflexivity|].
  refine (superadmin_never_lost (X:=lib) (SS:=toy_secrets) (CR:=toy_crypto) viewer_made _ viewer_made_ok _ viewer_made_superadmin).
  right. exists (op_delete_user 1). reflexivity.
Defined.
Definition third_user : Outcome UserRow * DB :=
  request (create_user "ann" "another password" Store.admin 3 t2026) viewer_made.
Lemma new_user_has_nothing_witness :
  is_ok (fst third_user) = true ∧ ∃ u, ∀ c, ¬ holds_grant (snd third_user) (user_principal u) c.
Proof.
  assert (H : is_ok (fst third_user) = true) by (vm_compute; reflexivity). split; [exact H|].
  pose proof (surjective_pairing third_user) as Hr. destruct (fst third_user) as [u|e]; [|discriminate H].
  destruct (new_user_has_nothing (X:=lib) (SS:=toy_secrets) (CR:=toy_crypto) "ann" "another password" Store.admin 3 t2026
    viewer_made u (snd third_user) (proj2 viewer_made_ok) Hr) as (_ & _ & _ & _ & _ & _ & _ & Hg).
  exists u. exact Hg.
Defined.
Definition eve : UserRow := mkUser 2 "eve" "" viewer t2026.
Definition logged_in : Outcome (string * SessionRow) * DB := request (create_session eve 7 8 t2026) viewer_made.
Lemma session_lifetime_witness :
  is_ok (fst logged_in) = true ∧ ∃ token row,
    get_session token (t2026 + hours 24) (snd logged_in) = Some row ∧
    get_session token (t2026 + hours 24 + 1) (snd logged_in) = None.
Proof.
  assert (H : is_ok (fst logged_in) = true) by (vm_compute; reflexivity). split; [exact H|].
  pose proof (surjective_pairing logged_in) as Hr. destruct (fst logged_in) as [[token row]|e]; [|discriminate H].
  destruct (session_lifetime (X:=lib) (SS:=toy_secrets) (CR:=toy_crypto) eve 7 8 t2026
    viewer_made token row (snd logged_in) Hr) as (_ & _ & Hg & _).
  exists token, row. split; apply Hg.
Defined.
Definition minted : DB := after (create_token "backup script" viewer (Some (t2026 + days 30)) 9 t2026) viewer_made.
Lemma minted_ok : identity_ok minted.
Proof. exact (request_keeps identity_ok _ _ (proj1 token_ops_keep _ _ _ _ _) (proj2 viewer_made_ok)). Qed.
Lemma verify_token_exact_witness :
  match request (verify_token "cabin_token-9" (t2026 + days 1)) minted with
  | (Ok (Some row), _) => label row = "backup script" | _ => False end ∧
  ∃ r, request (verify_token "cabin_token-9" (t2026 + days 30)) minted = r.
Proof.
  split; [vm_compute; reflexivity|].
  destruct (verify_token_exact (X:=lib) (SS:=toy_secrets) (CR:=toy_crypto) "cabin_token-9" (t2026 + days 30) minted
    minted_ok) as (r & Hr & _). exists r. exact Hr.
Defined.
Example expired_token_is_a_miss :
  match fst (request (verify_token "cabin_token-9" (t2026 + days 30)) minted) with Ok None => true | _ => false end = true.
Proof. vm_compute. reflexivity. Qed.
End IdentityExamples.
