(* ===== verification/Certs.v ===== *)
(** * [cabin.ca.certs]: the inventory of issued certificates

    Issuing and signing through a resolved issuer, storing the result, and
    the queries of the inventory.  The SAN list of a row is kept as a list;
    its column holds the JSON text of that list, which the free-text filter
    searches.  The two URLs a certificate names are from [cabin.ca.crl]. *)

From S2P Require Import Prelude PyStr PyTime IPAddr X509Lib X509 Leaf Store Settings CaService Grants Identity.
#[local] Open Scope Z_scope.

Definition EXPIRING_WINDOW : Z := days 30.
Definition PER_PAGE : nat := 50.
Definition MAX_QUERY_LENGTH : nat := 200.
Definition MAX_PAGE : Z := 1000000.
Definition KEY_UNAVAILABLE : string :=
  "the stored private key could not be decrypted: it was sealed with a different " +:+
  "master key, or the stored value is damaged".

(** ** SQL text matching

    SQLite's [lower] folds ASCII only.  [like] is [x LIKE p ESCAPE '\'] on
    text already folded: [%] stands for any text, [_] for any character, and
    the escape character makes the next one literal. *)
Definition sql_lower_char (c : ascii) : ascii :=
  if in_range 65 90 c then char_of (code c + 32) else c.
Definition sql_lower (l : list ascii) : list ascii := map sql_lower_char l.
Definition percent : ascii := "%".
Definition underscore : ascii := "_".
Definition backslash : ascii := "\".
Fixpoint like (p : list ascii) : list ascii → bool :=
  match p with
  | [] => λ s, match s with [] => true | _ => false end
  | c :: p' =>
      if decide (c = percent) then
        fix any (s : list ascii) : bool := like p' s || match s with [] => false | _ :: s' => any s' end
      else if decide (c = underscore) then
        λ s, match s with [] => false | _ :: s' => like p' s' end
      else if decide (c = backslash) then
        match p' with
        | [] => λ _, false
        | d :: p'' => λ s, match s with
            | [] => false
            | e :: s' => bool_decide (sql_lower_char d = sql_lower_char e) && like p'' s'
            end
        end
      else
        λ s, match s with
          | [] => false
          | e :: s' => bool_decide (sql_lower_char c = sql_lower_char e) && like p' s'
          end
  end.
(** [term.replace("\\", "\\\\").replace("%", "\\%").replace("_", "\\_")] *)
Fixpoint replace_char (c : ascii) (by_ : list ascii) (l : list ascii) : list ascii :=
  match l with
  | [] => []
  | d :: l => (if decide (d = c) then by_ else [d]) ++ replace_char c by_ l
  end.
Definition escape_like (l : list ascii) : list ascii :=
  replace_char underscore [backslash; underscore]
    (replace_char percent [backslash; percent] (replace_char backslash [backslash; backslash] l)).
Definition contains_pattern (term : list ascii) : list ascii := percent :: escape_like term ++ [percent].

(** [json.dumps] of a list of strings, ASCII only. *)
Definition json_char (c : ascii) : list ascii :=
  let n := code c in
  if (n =? 34)%N then [backslash; c]
  else if (n =? 92)%N then [backslash; c]
  else if (n =? 10)%N then chars "\n"
  else if (n =? 13)%N then chars "\r"
  else if (n =? 9)%N then chars "\t"
  else if (n =? 12)%N then chars "\f"
  else if (n =? 8)%N then chars "\b"
  else if (n <? 32)%N || (127 <=? n)%N then chars "\u00" ++ [hex_digit (n / 16); hex_digit (n mod 16)]
  else [c].
Definition quote : ascii := char_of 34.
Definition json_string (s : string) : string :=
  of_chars (quote :: concat (map json_char (chars s)) ++ [quote]).
Definition json_dumps (l : list string) : string := "[" +:+ join ", " (map json_string l) +:+ "]".

(** ** Status *)
Inductive CertStatus := st_valid | st_expiring | st_expired | st_revoked.
#[export] Instance CertStatus_eq_dec : EqDecision CertStatus.
Proof. solve_decision. Defined.
Definition status_text (s : CertStatus) : string :=
  match s with st_valid => "valid" | st_expiring => "expiring" | st_expired => "expired" | st_revoked => "revoked" end.
Definition certificate_status {A} (not_after now : Z) (revoked_at : option A) : CertStatus :=
  match revoked_at with
  | Some _ => st_revoked
  | None =>
      if not_after <=? now then st_expired
      else if not_after <=? now + EXPIRING_WINDOW then st_expiring else st_valid
  end.

Section certs.
Context {X : X509Lib} {SS : SecretStore}.

(** ** The URLs a certificate names *)
Definition pki_url (path : string) (db : DB) : Outcome (option string) :=
  match get_setting BASE_URL db with
  | None | Some "" => mret None
  | Some base => origin ← public_http_origin base; mret (Some (origin +:+ path))
  end.
Definition distribution_url (issuer_id : Z) (db : DB) : Outcome (option string) :=
  pki_url ("/crl/" +:+ id_text issuer_id) db.
Definition ca_issuers_url (issuer_id : Z) (db : DB) : Outcome (option string) :=
  pki_url ("/ca/" +:+ id_text issuer_id +:+ ".cer") db.

(** ** Issuing *)
Record Issued := mkIssued { issued_row : CertRow; capped_from : option Z }.

Definition stored_cn (cert : Cert) : string :=
  match head (attributes_for COMMON_NAME (cert_subject cert)) with
  | Some (AText v) | Some (ABytes v) => v
  | None => ""
  end.
Definition serial_taken (serial_hex' : string) (db : DB) : bool :=
  bool_decide (is_Some (first_where (certs db) (λ r, bool_decide (serial_hex r = serial_hex')))).
(** [created] is the default of the column, read when the row is added. *)
Definition store (cert : Cert) (profile : Profile) (sans : list string) (key_sealed : option Sealed)
    (source : CertSource) (issuer_id created : Z) : Tx DB CertRow :=
  n ← query (λ db, next_id (certs db));
  let row := mkCert n issuer_id (hex_of_Z (serial_number (tbs cert))) (stored_cn cert) sans
    (profile_text profile) (isoformat (not_valid_before cert)) (isoformat (not_valid_after cert))
    (cert_pem cert) key_sealed created None None source in
  taken ← query (serial_taken (serial_hex row));
  _ ← raise_if taken unique_failed;
  _ ← modify (on_certs (λ m, <[n := row]> m));
  _ ← commit;
  mret row.
Definition sealed_key (nonce : Z) (key : PrivKey) : Sealed := seal nonce (PlainPem (private_pem key)).
Definition cert_sans (cert : Cert) : Outcome (list string) :=
  '(names, _) ← extension_of sel_san cert;
  mret (san_strings names).

Definition issue_and_store (principal : Principal) (profile : Profile) (subject_cn : string)
    (sans : list string) (days : Z) (key_type : string) (issuer_id : option Z) (source : CertSource)
    (d : Draw) (created : Z) : Tx DB Issued :=
  issuer ← resolve_granted_issuer principal issuer_id;
  '(issuer_cert, issuer_key) ← signing_credentials (ca_id issuer);
  crl_url ← query (distribution_url (ca_id issuer));
  crl_url ← lift crl_url;
  aia_url ← query (ca_issuers_url (ca_id issuer));
  aia_url ← lift aia_url;
  '(cert, key, capped) ← lift (issue_certificate issuer_cert issuer_key profile subject_cn sans days
                                 key_type crl_url aia_url (d_now d) (d_serial d) (d_seed d));
  stored ← lift (cert_sans cert);
  row ← store cert profile stored (Some (sealed_key (d_nonce d) key)) source (ca_id issuer) created;
  mret (mkIssued row capped).
Definition sign_csr_and_store (principal : Principal) (csr_pem : Pem) (profile : Profile) (days : Z)
    (sans_override : option (list string)) (subject_cn_fallback : option string)
    (allow_empty_subject : bool) (issuer_id : option Z) (source : CertSource) (d : Draw) (created : Z)
  : Tx DB Issued :=
  issuer ← resolve_granted_issuer principal issuer_id;
  '(issuer_cert, issuer_key) ← signing_credentials (ca_id issuer);
  crl_url ← query (distribution_url (ca_id issuer));
  crl_url ← lift crl_url;
  aia_url ← query (ca_issuers_url (ca_id issuer));
  aia_url ← lift aia_url;
  '(cert, capped) ← lift (sign_csr issuer_cert issuer_key csr_pem profile days sans_override crl_url
                            aia_url subject_cn_fallback allow_empty_subject (d_now d) (d_serial d));
  stored ← lift (cert_sans cert);
  row ← store cert profile stored None source (ca_id issuer) created;
  mret (mkIssued row capped).

(** ** Reading *)
Definition get_certificate (n : Z) (db : DB) : option CertRow := certs db !! n.
Definition certificate_by_serial (s : string) (db : DB) : option CertRow :=
  first_where (certs db) (λ r, bool_decide (serial_hex r = s)).
Definition not_after_dt (r : CertRow) : Outcome Z := fromisoformat (crt_not_after r).
Definition revoked_at_dt (r : CertRow) : Outcome (option Z) :=
  match revoked_at r with
  | None | Some "" => mret None
  | Some s => t ← fromisoformat s; mret (Some t)
  end.
(** The unsealed bytes: a PEM key, as it was sealed. *)
Definition key_pem (r : CertRow) : Outcome (option (Plain Pem)) :=
  match crt_key r with
  | None => mret None
  | Some k => plain ← unseal k; mret (Some plain)
  end.
Definition is_secrets_error (e : Exc) : bool := match e with SecretsError _ => true | _ => false end.
Definition key_material (r : CertRow) : Outcome (option (Plain Pem) * option string) :=
  match crt_key r with
  | None => mret (None, None)
  | Some _ =>
      catch_pure (k ← key_pem r; mret (k, None)) is_secrets_error (λ _, Ok (None, Some KEY_UNAVAILABLE))
  end.

(** ** The inventory *)
Definition search_term (q : string) : list ascii :=
  chars (lower (str_take MAX_QUERY_LENGTH (strip q))).
Definition matches_text (term : list ascii) (r : CertRow) : bool :=
  let p := contains_pattern term in
  like p (sql_lower (chars (subject_cn r))) || like p (sql_lower (chars (json_dumps (crt_sans r))))
  || like p (sql_lower (chars (serial_hex r))).
(** The conjunction of the conditions [_filters] returns. *)
Definition filters (q status : string) (now : Z) (r : CertRow) : bool :=
  let term := search_term q in
  let text := if nonempty term then matches_text term r else true in
  if decide (status = status_text st_revoked) then text && bool_decide (is_Some (revoked_at r)) else
  let unrevoked :=
    if decide (status = status_text st_expired ∨ status = status_text st_expiring ∨ status = status_text st_valid)
    then bool_decide (revoked_at r = None) else true in
  let dates :=
    if decide (status = status_text st_expired) then str_leb (crt_not_after r) (iso now)
    else if decide (status = status_text st_expiring) then
      str_ltb (iso now) (crt_not_after r) && str_leb (crt_not_after r) (iso (now + EXPIRING_WINDOW))
    else if decide (status = status_text st_valid) then str_ltb (iso (now + EXPIRING_WINDOW)) (crt_not_after r)
    else true in
  text && unrevoked && dates.

(** [.order_by(created_at.desc(), id.desc())] *)
Definition newest_first (a b : CertRow) : Prop :=
  created_at b < created_at a ∨ (created_at a = created_at b ∧ crt_id b ≤ crt_id a).
#[export] Instance newest_first_dec : RelDecision newest_first.
Proof. intros a b. unfold newest_first. apply _. Defined.
Definition export_certificates (q status : string) (now : Z) (db : DB) : list CertRow :=
  merge_sort newest_first (rows_where (certs db) (filters q status now)).
Definition clamp_page (page : Z) : Z := Z.min (Z.max page 1) MAX_PAGE.
Definition list_certificates (q status : string) (page : Z) (per_page : nat) (now : Z) (db : DB)
  : list CertRow * nat :=
  let total := length (rows_where (certs db) (filters q status now)) in
  let ordered := merge_sort newest_first (rows_where (certs db) (filters q status now)) in
  (take per_page (drop (Z.to_nat ((clamp_page page - 1) * Z.of_nat per_page)) ordered), total).
Definition count_status (now : Z) (db : DB) (s : CertStatus) : nat :=
  length (rows_where (certs db) (filters "" (status_text s) now)).
Definition status_counts (now : Z) (db : DB) : list (string * nat) :=
  map (λ s, (status_text s, count_status now db s)) [st_valid; st_expiring; st_expired; st_revoked].
(** [.order_by(not_after.asc(), id.asc())] *)
Definition expires_first (a b : CertRow) : Prop :=
  str_ltb (crt_not_after a) (crt_not_after b) = true ∨ (crt_not_after a = crt_not_after b ∧ crt_id a ≤ crt_id b).
#[export] Instance expires_first_dec : RelDecision expires_first.
Proof. intros a b. unfold expires_first. apply _. Defined.
Definition expiring_soon (now : Z) (limit : nat) (db : DB) : list CertRow :=
  take limit (merge_sort expires_first (rows_where (certs db) (filters "" (status_text st_expiring) now))).
End certs.

(** ** The free-text filter *)
Definition esc1 (c : ascii) : list ascii :=
  if decide (c = backslash ∨ c = percent ∨ c = underscore) then [backslash; c] else [c].
Lemma replace_char_app c b l l' : replace_char c b (l ++ l') = replace_char c b l ++ replace_char c b l'.
Proof. induction l as [|d l IH]; cbn; [done|]. by rewrite IH, app_assoc. Qed.
Lemma escape_like_cons c l : escape_like (c :: l) = esc1 c ++ escape_like l.
Proof.
  unfold escape_like. change (c :: l) with ([c] ++ l). rewrite !replace_char_app. f_equal.
  unfold esc1. cbn [replace_char]. rewrite app_nil_r.
  destruct (decide (c = backslash)) as [->|H1]; [vm_compute; done|]. cbn [replace_char app].
  destruct (decide (c = percent)) as [->|H2]; [vm_compute; done|]. cbn [replace_char app].
  destruct (decide (c = underscore)) as [->|H3]; [vm_compute; done|].
  rewrite decide_False by naive_solver. done.
Qed.
(** An escaped character matches itself, up to ASCII case. *)
Lemma like_esc1 c p s : like (esc1 c ++ p) s = true ↔
  ∃ d s', s = d :: s' ∧ sql_lower_char c = sql_lower_char d ∧ like p s' = true.
Proof.
  unfold esc1. case_decide as Hc.
  - cbn [app like]. rewrite (decide_False (P := backslash = percent)) by done.
    rewrite (decide_False (P := backslash = underscore)) by done. rewrite decide_True by done.
    destruct s as [|d s']; [naive_solver|]. rewrite andb_true_iff, bool_decide_eq_true. naive_solver.
  - cbn [app like]. rewrite !decide_False by naive_solver.
    destruct s as [|d s']; [naive_solver|]. rewrite andb_true_iff, bool_decide_eq_true. naive_solver.
Qed.
Lemma like_escaped t p s : like (escape_like t ++ p) s = true ↔
  ∃ s1 s2, s = s1 ++ s2 ∧ sql_lower s1 = sql_lower t ∧ like p s2 = true.
Proof.
  revert s. induction t as [|c t IH]; intros s.
  - cbn [app]. split; [intros H; by exists [], s|]. by intros ([|] & s2 & -> & [=] & H).
  - rewrite escape_like_cons, <- app_assoc, like_esc1. split.
    + intros (d & s' & -> & Hd & (s1 & s2 & -> & Hs & Hp)%IH). exists (d :: s1), s2.
      split_and!; [done| |done].
      change (sql_lower_char d :: sql_lower s1 = sql_lower_char c :: sql_lower t). congruence.
    + intros ([|d s1] & s2 & -> & [= Hd Hs] & Hp). exists d, (s1 ++ s2). split_and!; [done|done|].
      apply IH. by exists s1, s2.
Qed.
Lemma like_any p s : like (percent :: p) s = true ↔ ∃ pre s', s = pre ++ s' ∧ like p s' = true.
Proof.
  cbn [like]. rewrite decide_True by done. induction s as [|c s IH].
  - rewrite orb_false_r. split; [intros H; by exists [], []|]. by intros ([|] & [|] & [=] & H).
  - rewrite orb_true_iff. rewrite IH. split.
    + intros [H|(pre & s' & -> & H)]; [by exists [], (c :: s)|by exists (c :: pre), s'].
    + intros ([|c' pre] & s' & He & H); cbn in He; [left; by subst|].
      injection He as -> ->. right. by exists pre, s'.
Qed.

(** The free-text filter searches for its term, literally.  Whatever
    characters the term holds, LIKE metacharacters included, the escaped
    pattern matches exactly the texts that contain it, up to ASCII case. *)
Theorem search_is_literal term s :
  like (contains_pattern term) s = true ↔
  ∃ pre mid post, s = pre ++ mid ++ post ∧ sql_lower mid = sql_lower term.
Proof.
  unfold contains_pattern. rewrite like_any. split.
  - intros (pre & s' & -> & (mid & post & -> & Hm & _)%like_escaped). by exists pre, mid, post.
  - intros (pre & mid & post & -> & Hm). exists pre, (mid ++ post). split; [done|].
    apply like_escaped. exists mid, post. split_and!; [done|done|].
    apply like_any. exists post, []. by rewrite app_nil_r.
Qed.

(** ** What the inventory says of a certificate *)
Section rows.
Context {X : X509Lib} {SS : SecretStore}.

Record row_describes (r : CertRow) (cert : Cert) : Prop := {
  row_pem : load_cert (crt_pem r) = Ok cert;
  row_serial : serial_hex r = hex_of_Z (serial_number (tbs cert));
  row_serial_pos : 0 ≤ serial_number (tbs cert);
  row_cn : subject_cn r = stored_cn cert;
  row_sans : cert_sans cert = Ok (crt_sans r);
  row_begin : crt_not_before r = isoformat (not_valid_before cert);
  row_end : crt_not_after r = isoformat (not_valid_after cert);
  row_dates : dates_ok cert;
  row_key : ∀ k, crt_key r = Some k → ∃ key, unseal k = Ok (PlainPem (private_pem key)) ∧ public_key key = cert_key cert }.
Definition revocation_ok (r : CertRow) : Prop :=
  match revoked_at r with
  | None => revocation_reason r = None
  | Some s => ∃ t, in_datetime t ∧ s = isoformat t ∧ is_Some (revocation_reason r)
  end.
Record certs_ok (db : DB) : Prop := {
  cert_keys : ∀ i r, certs db !! i = Some r → crt_id r = i;
  cert_serials : ∀ i j r q, certs db !! i = Some r → certs db !! j = Some q → serial_hex r = serial_hex q → i = j;
  cert_issuers : ∀ i r, certs db !! i = Some r → ∃ q, cas db !! crt_issuer r = Some q ∧ ca_kind q = Intermediate;
  cert_rows : ∀ i r, certs db !! i = Some r → ∃ cert, row_describes r cert;
  cert_revocations : ∀ i r, certs db !! i = Some r → revocation_ok r }.

Lemma certs_add db n r cert : certs_ok db → certs db !! n = None → crt_id r = n → row_describes r cert →
  revocation_ok r → (∃ q, cas db !! crt_issuer r = Some q ∧ ca_kind q = Intermediate) →
  (∀ i q, certs db !! i = Some q → serial_hex q ≠ serial_hex r) →
  certs_ok (on_certs (λ m, <[n := r]> m) db).
Proof.
  intros [Hk Hs Hi Hr Hv] Hn Hid Hdesc Hrev Hiss Hser. split; cbn.
  - intros i q. rewrite lookup_insert_Some. intros [[<- <-]|[_ ?]]; eauto.
  - intros i j q q'. rewrite !lookup_insert_Some. intros [[<- <-]|[? Hq]] [[<- <-]|[? Hq']] He; eauto;
      exfalso; by eapply Hser.
  - intros i q. rewrite lookup_insert_Some. intros [[<- <-]|[_ ?]]; eauto.
  - intros i q. rewrite lookup_insert_Some. intros [[<- <-]|[_ ?]]; eauto.
  - intros i q. rewrite lookup_insert_Some. intros [[<- <-]|[_ ?]]; eauto.
Qed.
(** A row in which only the revocation columns have changed. *)
Definition revoked_row (t : string) (reason : RevocationReason) (r : CertRow) : CertRow :=
  mkCert (crt_id r) (crt_issuer r) (serial_hex r) (subject_cn r) (crt_sans r) (crt_profile r) (crt_not_before r)
    (crt_not_after r) (crt_pem r) (crt_key r) (created_at r) (Some t) (Some reason) (crt_source r).
Lemma row_describes_revoked t reason r cert : row_describes r cert → row_describes (revoked_row t reason r) cert.
Proof. by intros []. Qed.
Lemma certs_revoke db n r t reason : certs_ok db → certs db !! n = Some r → in_datetime t →
  certs_ok (on_certs (λ m, <[n := revoked_row (isoformat t) reason r]> m) db).
Proof.
  intros [Hk Hs Hi Hr Hv] Hn Ht. split; cbn.
  - intros i q. rewrite lookup_insert_Some. intros [[<- <-]|[_ ?]]; [cbn; by apply (Hk n)|eauto].
  - intros i j q q'. rewrite !lookup_insert_Some.
    intros [[<- <-]|[? Hq]] [[<- <-]|[? Hq']] He; cbn in He; eauto.
  - intros i q. rewrite lookup_insert_Some. intros [[<- <-]|[_ ?]]; [cbn; by apply (Hi n)|eauto].
  - intros i q. rewrite lookup_insert_Some. intros [[<- <-]|[_ ?]]; [|eauto].
    destruct (Hr n r Hn) as [cert ?]. exists cert. by apply row_describes_revoked.
  - intros i q. rewrite lookup_insert_Some. intros [[<- <-]|[_ ?]]; [|eauto]. exists t. split_and!; [done|done|by eexists].
Qed.

(** ** Issuing, path by path *)
Lemma wp_resolve_granted p issuer_id s (Q : Outcome CARow → Session DB → Prop) : hierarchy_ok (work s) →
  (∀ r, cas (work s) !! ca_id r = Some r → is_active_issuer r = true → permitted_use (work s) p (ca_id r) →
     (∀ n, issuer_id = Some n → ca_id r = n) → Q (Ok r) s) →
  (∀ e, Q (Raise e) s) → wp (resolve_granted_issuer p issuer_id) s Q.
Proof.
  intros Hdb Hok Hraise. destruct (resolve_granted_issuer_spec p issuer_id s Hdb) as (r & Hr & Hspec).
  unfold wp. rewrite Hr. cbn. destruct r as [row|e]; [|apply Hraise].
  destruct issuer_id as [n|]; [destruct Hspec as [Hn (? & ? & ?)]|destruct Hspec as [(? & ? & ?) _]]; apply Hok; naive_solver.
Qed.
Lemma wp_signing_credentials n s (Q : Outcome (Cert * PrivKey) → Session DB → Prop) : hierarchy_ok (work s) →
  (∀ r cert key, cas (work s) !! n = Some r → load_cert (ca_cert r) = Ok cert → public_key key = cert_key cert →
     Q (Ok (cert, key)) s) →
  (∀ e, Q (Raise e) s) → wp (signing_credentials n) s Q.
Proof.
  intros Hdb Hok Hraise. unfold signing_credentials. wp_ca; auto. eapply Hok; [done..|].
  match goal with Hr : cas (work s) !! n = Some ?r |- _ => destruct (Hdb n r Hr) as (_ & _ & c & Hc & _ & Hk) end.
  match goal with Hs : ca_key _ = Some ?k |- _ => destruct (Hk k Hs) as (key & Hu & Hp) end. congruence.
Qed.

(** What a successful issuance has done. *)
Record issued_by (db : DB) (p : Principal) (issuer_id : option Z) (row : CertRow) (cert issuer_cert : Cert)
    (issuer_key : PrivKey) : Prop := {
  issued_ca : ∃ ca, cas db !! crt_issuer row = Some ca ∧ is_active_issuer ca = true ∧ load_cert (ca_cert ca) = Ok issuer_cert;
  issued_key : public_key issuer_key = cert_key issuer_cert;
  issued_permitted : permitted_use db p (crt_issuer row);
  issued_choice : ∀ n, issuer_id = Some n → crt_issuer row = n;
  issued_fresh : certs db !! crt_id row = None;
  issued_serial : ∀ i q, certs db !! i = Some q → serial_hex q ≠ serial_hex row;
  issued_describes : row_describes row cert;
  issued_unrevoked : revoked_at row = None ∧ revocation_reason row = None }.

Lemma serial_not_taken h db : serial_taken h db = false → ∀ i q, certs db !! i = Some q → serial_hex q ≠ h.
Proof.
  unfold serial_taken. intros H%bool_decide_eq_false%eq_None_not_Some i q Hq He. rewrite first_where_none in H.
  specialize (H i q Hq). by apply bool_decide_eq_false in H.
Qed.
Lemma wp_store cert profile sans key source issuer_id created s (Q : Outcome CertRow → Session DB → Prop) :
  (∀ n, certs (work s) !! n = None →
    let row := mkCert n issuer_id (hex_of_Z (serial_number (tbs cert))) (stored_cn cert) sans (profile_text profile)
      (isoformat (not_valid_before cert)) (isoformat (not_valid_after cert)) (cert_pem cert) key created None None source in
    (∀ i q, certs (work s) !! i = Some q → serial_hex q ≠ serial_hex row) →
    let db := on_certs (λ m, <[n := row]> m) (work s) in Q (Ok row) (mkSession db db)) →
  Q (Raise unique_failed) s → wp (store cert profile sans key source issuer_id created) s Q.
Proof.
  intros Hok Hraise. unfold store. wp_run; [done|]. apply Hok; [apply next_id_fresh|]. by apply serial_not_taken.
Qed.

Definition stored_row (db db' : DB) (row : CertRow) : Prop := db' = on_certs (λ m, <[crt_id row := row]> m) db.

Lemma wp_issue_and_store p profile cn sans n kt iid source d created s
    (Q : Outcome Issued → Session DB → Prop) : hierarchy_ok (work s) → 0 ≤ d_serial d →
  (∀ row cert ic ik capped, issued_by (work s) p iid row cert ic ik →
     crt_source row = source → crt_profile row = profile_text profile →
     (∃ crl aia key, issue_certificate ic ik profile cn sans n kt crl aia (d_now d) (d_serial d) (d_seed d) = Ok (cert, key, capped) ∧
        crt_key row = Some (sealed_key (d_nonce d) key)) →
     (∃ cn' resolved, leaf_ok ic ik (cert_key cert) (Some cn') resolved profile cert) →
     let db := on_certs (λ m, <[crt_id row := row]> m) (work s) in Q (Ok (mkIssued row capped)) (mkSession db db)) →
  (∀ e, Q (Raise e) s) → wp (issue_and_store p profile cn sans n kt iid source d created) s Q.
Proof.
  intros Hdb Hser Hok Hraise. unfold issue_and_store.
  apply wp_bind, wp_resolve_granted; [done| |auto]. intros ca Hca Hact Hperm Hchoice.
  apply wp_bind, wp_signing_credentials; [done| |auto]. intros ca' ic ik Hca' Hic Hik.
  assert (ca' = ca) as -> by congruence. wp_run; auto. apply wp_store; [|auto].
  intros k Hk row Hfree db. wp_run.
  match goal with H : issue_certificate _ _ _ _ _ _ _ _ _ _ _ _ = Ok _ |- _ =>
    pose proof H as Hmade; apply issue_certificate_leaf in H as (Hs & Hd & cn' & res & Hleaf) end.
  assert (Hkey : cert_key c = public_key p0) by apply (leaf_key _ _ _ _ _ _ _ Hleaf).
  apply (Hok row c ic ik o); [|done..|by eauto|by exists cn', res; rewrite Hkey].
  split; try done; [by exists ca|]. split; cbn; try done; [apply load_cert_pem|by rewrite Hs|].
  intros sk [= <-]. exists p0. by rewrite Hkey; split; [apply unseal_seal|].
Qed.
Lemma wp_sign_csr_and_store p pem profile n override fallback allow_empty iid source d created s
    (Q : Outcome Issued → Session DB → Prop) : hierarchy_ok (work s) → 0 ≤ d_serial d →
  (∀ row cert ic ik capped, issued_by (work s) p iid row cert ic ik →
     crt_source row = source → crt_profile row = profile_text profile → crt_key row = None →
     (∃ csr cn' resolved, load_csr pem = Ok csr ∧ names_resolved override resolved ∧ leaf_ok ic ik (csr_key csr) cn' resolved profile cert ∧
        clamped ic n (d_now d) cert capped) →
     let db := on_certs (λ m, <[crt_id row := row]> m) (work s) in Q (Ok (mkIssued row capped)) (mkSession db db)) →
  (∀ e, Q (Raise e) s) →
  wp (sign_csr_and_store p pem profile n override fallback allow_empty iid source d created) s Q.
Proof.
  intros Hdb Hser Hok Hraise. unfold sign_csr_and_store.
  apply wp_bind, wp_resolve_granted; [done| |auto]. intros ca Hca Hact Hperm Hchoice.
  apply wp_bind, wp_signing_credentials; [done| |auto]. intros ca' ic ik Hca' Hic Hik.
  assert (ca' = ca) as -> by congruence. wp_run; auto. apply wp_store; [|auto].
  intros k Hk row Hfree db. wp_run.
  match goal with H : sign_csr _ _ _ _ _ _ _ _ _ _ _ _ = Ok _ |- _ =>
    apply sign_csr_leaf in H as (Hs & Hd & csr & cn' & res & Hcsr & Hres & Hleaf & Hclamp) end.
  apply (Hok row c ic ik o); [|done..|by exists csr, cn', res].
  split; try done; [by exists ca|]. split; cbn; try done; [apply load_cert_pem|by rewrite Hs].
Qed.
End rows.

(** ** Correctness *)
Section theorems.
Context {X : X509Lib} {SS : SecretStore}.

(** Issuing a certificate.  It succeeds only through an active
    intermediate that the principal may use, the one asked for if one was
    asked for, whose stored key is its own; the certificate is a proper leaf
    of it; one row is added, which describes the certificate (its PEM, serial
    number, dates, names and sealed key) and is not revoked; nothing else
    changes.  A failed request changes nothing. *)
Theorem issue_and_store_exact p profile cn sans n kt iid source d created db r db' :
  hierarchy_ok db → 0 ≤ d_serial d →
  request (issue_and_store p profile cn sans n kt iid source d created) db = (r, db') →
  match r with
  | Raise _ => db' = db
  | Ok i => stored_row db db' (issued_row i) ∧ crt_source (issued_row i) = source ∧
      is_Some (crt_key (issued_row i)) ∧
      ∃ cert ic ik, issued_by db p iid (issued_row i) cert ic ik ∧
        ∃ cn' resolved, leaf_ok ic ik (cert_key cert) (Some cn') resolved profile cert
  end.
Proof.
  intros Hdb Hser Hreq.
  refine (request_wp _ _ (λ r db', match r with Ok i => _ | Raise e => db' = db end) _ _ Hreq _).
  apply wp_issue_and_store; try done. intros row cert ic ik capped Hby Hsrc _ (crl & aia & key & _ & Hkey) Hleaf d'. cbn.
  split_and!; try done. by exists cert, ic, ik.
Qed.

(** Signing a request.  As for issuing, through an active intermediate the
    principal may use; the certificate is for the key of the request and, if the
    caller names them, for exactly those names; no private key is stored. *)
Theorem sign_csr_and_store_exact p pem profile n override fallback allow_empty iid source d created db r db' :
  hierarchy_ok db → 0 ≤ d_serial d →
  request (sign_csr_and_store p pem profile n override fallback allow_empty iid source d created) db = (r, db') →
  match r with
  | Raise _ => db' = db
  | Ok i => stored_row db db' (issued_row i) ∧ crt_source (issued_row i) = source ∧ crt_key (issued_row i) = None ∧
      ∃ cert ic ik, issued_by db p iid (issued_row i) cert ic ik ∧
        ∃ csr cn' resolved, load_csr pem = Ok csr ∧ names_resolved override resolved ∧
          leaf_ok ic ik (csr_key csr) cn' resolved profile cert
  end.
Proof.
  intros Hdb Hser Hreq.
  refine (request_wp _ _ (λ r db', match r with Ok i => _ | Raise e => db' = db end) _ _ Hreq _).
  apply wp_sign_csr_and_store; try done. intros row cert ic ik capped Hby Hsrc _ Hkey (csr & cn' & resolved & Hcsr & Hres & Hleaf & _) d'. cbn.
  split_and!; try done. exists cert, ic, ik. split; [done|]. by exists csr, cn', resolved.
Qed.

(** *** Status *)
Lemma iso_compare na now : in_datetime na → na mod second = 0 → in_datetime now →
  str_leb (isoformat na) (iso now) = (na <=? now) ∧ str_ltb (iso now) (isoformat na) = (now <? na).
Proof.
  intros Hna Hs Hnow. unfold iso. rewrite isoformat_leb, isoformat_ltb by auto using in_datetime_floor.
  assert (Hle : na ≤ floor_second now ↔ na ≤ now).
  { split; [pose proof (floor_second_le now); lia|]. intros H%floor_second_mono. by rewrite floor_second_idemp in H. }
  split; apply Bool.eq_iff_eq_true; rewrite ?Z.leb_le, ?Z.ltb_lt; [done|lia].
Qed.
Lemma filters_status r na now : crt_not_after r = isoformat na → in_datetime na → na mod second = 0 →
  in_datetime now → in_datetime (now + EXPIRING_WINDOW) →
  ∀ st, filters "" (status_text st) now r = bool_decide (certificate_status na now (revoked_at r) = st).
Proof.
  intros Hr Hna Hs Hnow Hwin st. unfold filters, certificate_status.
  replace (nonempty (search_term "")) with false by (vm_compute; reflexivity).
  rewrite Hr. destruct (iso_compare na now) as [-> ->]; [done..|].
  destruct (iso_compare na (now + EXPIRING_WINDOW)) as [-> ->]; [done..|].
  assert (Hw : 0 < EXPIRING_WINDOW) by done. revert Hw. generalize EXPIRING_WINDOW. intros w Hw.
  destruct (revoked_at r); destruct st; cbn;
    destruct (Z.leb_spec na now), (Z.leb_spec na (now + w)), (Z.ltb_spec now na),
      (Z.ltb_spec (now + w) na); cbn; try done; exfalso; lia.
Qed.
Lemma count_partition {A} (f : A → CertStatus) l :
  (length (List.filter (λ a, bool_decide (f a = st_valid)) l) + length (List.filter (λ a, bool_decide (f a = st_expiring)) l)
   + length (List.filter (λ a, bool_decide (f a = st_expired)) l) + length (List.filter (λ a, bool_decide (f a = st_revoked)) l)
   = length l)%nat.
Proof. induction l as [|a l IH]; cbn; [done|]. destruct (f a); repeat case_bool_decide; cbn; try done; lia. Qed.
Lemma length_rows_where {A} (m : gmap Z A) : length (rows_where m (λ _, true)) = size m.
Proof.
  unfold rows_where. replace (List.filter (λ _, true) _) with (map snd (merge_sort key_row_le (map_to_list m))).
  - rewrite length_map, merge_sort_Permutation. apply map_size_list_to_map || apply length_map_to_list.
  - induction (map snd _) as [|x l IH]; cbn; [done|]. by rewrite <- IH.
Qed.

(** The badge and the filter agree.  At one instant, every stored
    certificate passes exactly one of the four status filters, the one its
    badge shows, so the four dashboard counts add up to the inventory. *)
Theorem status_filters_partition db now : certs_ok db → in_datetime now → in_datetime (now + EXPIRING_WINDOW) →
  (∀ i r, certs db !! i = Some r → ∃ na, not_after_dt r = Ok na ∧
     ∀ st, filters "" (status_text st) now r = bool_decide (certificate_status na now (revoked_at r) = st)) ∧
  (count_status now db st_valid + count_status now db st_expiring + count_status now db st_expired
     + count_status now db st_revoked = size (certs db))%nat.
Proof.
  intros Hdb Hnow Hwin.
  assert (Hrow : ∀ i r, certs db !! i = Some r → ∃ na, not_after_dt r = Ok na ∧
     ∀ st, filters "" (status_text st) now r = bool_decide (certificate_status na now (revoked_at r) = st)).
  { intros i r Hi. destruct (cert_rows _ Hdb i r Hi) as [cert Hc]. destruct (row_dates _ _ Hc) as (_ & Hd & _ & Hs).
    exists (not_valid_after cert). split; [unfold not_after_dt; rewrite (row_end _ _ Hc); by apply fromisoformat_isoformat|].
    intros st. apply filters_status; auto using row_end. }
  split; [done|].
  set (f r := certificate_status (match not_after_dt r with Ok na => na | Raise _ => 0 end) now (revoked_at r)).
  assert (Hc : ∀ st, count_status now db st = length (List.filter (λ r, bool_decide (f r = st)) (rows_where (certs db) (λ _, true)))).
  { intros st. unfold count_status. rewrite <- (rows_where_andb (certs db) (λ _, true)). f_equal.
    apply rows_where_ext. intros i r Hi. destruct (Hrow i r Hi) as (na & Hna & ->). unfold f. by rewrite Hna. }
  rewrite !Hc, count_partition. apply length_rows_where.
Qed.

(** Paging loses nothing.  A page has at most [per_page] rows, the total is
    the length of the export, and the first [k] pages, put together, are the
    first [k * per_page] rows of the export, in its order; a page number out
    of range is the nearest one in range. *)
Theorem pages_are_the_export q status per_page now db :
  (∀ page, (length (fst (list_certificates q status page per_page now db)) ≤ per_page)%nat ∧
     snd (list_certificates q status page per_page now db) = length (export_certificates q status now db) ∧
     list_certificates q status page per_page now db = list_certificates q status (clamp_page page) per_page now db) ∧
  ∀ k : nat, Z.of_nat k ≤ MAX_PAGE →
    concat (map (λ i, fst (list_certificates q status (Z.of_nat i + 1) per_page now db)) (seq 0 k))
    = take (k * per_page) (export_certificates q status now db).
Proof.
  split.
  - intros page. unfold list_certificates, export_certificates. cbn [fst snd]. split_and!.
    + rewrite length_take. lia.
    + by rewrite merge_sort_Permutation.
    + do 3 f_equal. unfold clamp_page, MAX_PAGE. lia.
  - induction k as [|k IH]; intros Hk; [done|]. rewrite seq_S, map_app, concat_app, IH by lia. cbn [map concat].
    rewrite app_nil_r. unfold list_certificates, export_certificates. cbn [fst Nat.add].
    replace (Z.to_nat ((clamp_page (Z.of_nat k + 1) - 1) * Z.of_nat per_page)) with (k * per_page)%nat
      by (unfold clamp_page; unfold MAX_PAGE in *; nia).
    rewrite take_take_drop. f_equal. lia.
Qed.
End theorems.

(** ** Issuing at work *)
Module CertExamples.
#[local] Existing Instance Toy.lib.
#[local] Existing Instance toy_secrets.
Import Toy CaExamples.
#[local] Strategy 1000 [one_root two_cas two_roots crossed after request].
(** A server certificate from issuer 2, and one from issuer 3, which permits
    only names under "lan". *)
Definition nas : Tx DB Issued :=
  issue_and_store SYSTEM_PRINCIPAL server "nas.lan" ["nas"; "192.0.2.7"] 90 "ecdsa-p256" (Some 2) ui (draw 20) t2026.
Definition with_nas : DB := after nas two_roots.
Definition csr_signed : Tx DB Issued :=
  sign_csr_and_store ACME_PRINCIPAL (CsrText LeafExamples.lan_csr) server 90 None None false (Some 3) acme (draw 21) t2026.

Lemma issue_and_store_exact_witness :
  is_ok (fst (request nas two_roots)) = true ∧ ∃ i, stored_row two_roots with_nas (issued_row i).
Proof.
  assert (H : is_ok (fst (request nas two_roots)) = true) by (vm_compute; reflexivity).
  split; [exact H|].
  assert (Hser : 0 ≤ d_serial (draw 20)) by (vm_compute; discriminate).
  pose proof (issue_and_store_exact (X:=lib) (SS:=toy_secrets) SYSTEM_PRINCIPAL server "nas.lan" ["nas"; "192.0.2.7"] 90
    "ecdsa-p256" (Some 2) ui (draw 20) t2026 two_roots _ _ two_roots_ok Hser (surjective_pairing _)) as Hi.
  fold nas in Hi. destruct (fst (request nas two_roots)) as [i|e]; [|discriminate H].
  destruct Hi as (Hi & _). exists i. exact Hi.
Defined.
Lemma sign_csr_and_store_exact_witness :
  is_ok (fst (request csr_signed two_roots)) = true ∧ ∃ i, crt_key (issued_row i) = None ∧ crt_source (issued_row i) = acme.
Proof.
  assert (H : is_ok (fst (request csr_signed two_roots)) = true) by (vm_compute; reflexivity).
  split; [exact H|].
  assert (Hser : 0 ≤ d_serial (draw 21)) by (vm_compute; discriminate).
  pose proof (sign_csr_and_store_exact (X:=lib) (SS:=toy_secrets) ACME_PRINCIPAL (CsrText LeafExamples.lan_csr) server 90
    None None false (Some 3) acme (draw 21) t2026 two_roots _ _ two_roots_ok Hser (surjective_pairing _)) as Hi.
  fold csr_signed in Hi. destruct (fst (request csr_signed two_roots)) as [i|e]; [|discriminate H].
  destruct Hi as (_ & Hs & Hk & _). exists i. split; [exact Hk|exact Hs].
Defined.
Example names_outside_the_subtree_are_refused :
  raised (fst (request (issue_and_store SYSTEM_PRINCIPAL server "nas.wan" [] 90 "ecdsa-p256" (Some 3) ui (draw 22) t2026) two_roots))
  ≠ None.
Proof. vm_compute. discriminate. Qed.
(** "10%" is not a wildcard. *)
Example percent_is_literal :
  like (contains_pattern (chars "10%")) (chars "a 10% b") = true ∧
  like (contains_pattern (chars "10%")) (chars "a 100 b") = false.
Proof. vm_compute. split; reflexivity. Qed.
End CertExamples.
