(* ===== verification/Crl.v ===== *)
(** * Revocation and CRLs

    [cabin.ca.revocation] (the signed list) and [cabin.ca.crl] (marking a
    certificate revoked, and one current CRL per issuer in the database). *)

From S2P Require Import Prelude PyStr PyTime IPAddr X509Lib X509 Leaf Store Settings CaService Grants Identity Certs.
#[local] Open Scope Z_scope.

Definition CRL_VALIDITY : Z := days 7.
Definition CRL_MAX_AGE : Z := hours 1.

(** The reason code of an entry; [unspecified] is written by leaving it out. *)
Definition REASON_FLAGS (r : RevocationReason) : string :=
  match r with
  | unspecified => "unspecified"
  | key_compromise => "keyCompromise"
  | affiliation_changed => "affiliationChanged"
  | superseded => "superseded"
  | cessation_of_operation => "cessationOfOperation"
  end.
Definition reason_extension (r : RevocationReason) : option string :=
  if decide (r = unspecified) then None else Some (REASON_FLAGS r).
Record RevokedEntry := mkRevoked { revoked_serial : Z; revoked_date : Z; revoked_reason : RevocationReason }.

Section crl.
Context {X : X509Lib} {SS : SecretStore}.

Definition build_crl (issuer_cert : Cert) (issuer_key : PrivKey) (revoked_entries : list RevokedEntry)
    (crl_number this_update next_update : Z) : Outcome Crl :=
  aki ← authority_key_identifier issuer_cert issuer_key;
  sign_crl (mkCrlInfo (cert_subject issuer_cert) this_update next_update crl_number aki
              (map (λ e, mkCrlEntry (revoked_serial e) (revoked_date e) (reason_extension (revoked_reason e)))
                 revoked_entries))
    issuer_key (signing_algorithm issuer_key).

(** [CRLState.next_update] *)
Definition state_next_update (s : CrlRow) : Z := generated_at s + CRL_VALIDITY.

Definition is_revoked_by (issuer_id : Z) (r : CertRow) : bool :=
  bool_decide (crt_issuer r = issuer_id) && bool_decide (is_Some (revoked_at r)).
Definition revoked_entry (r : CertRow) : Outcome RevokedEntry :=
  at_ ← revoked_at_dt r;
  date ← of_option at_ (AssertionError "");
  serial ← int_hex (serial_hex r);
  mret (mkRevoked serial date (default unspecified (revocation_reason r))).
Definition revoked_entries (issuer_id : Z) (db : DB) : Outcome (list RevokedEntry) :=
  map_each revoked_entry (rows_where (certs db) (is_revoked_by issuer_id)).

Definition next_crl_number (state : option CrlRow) : Z :=
  match state with Some s => crl_number s + 1 | None => 1 end.
Definition regenerate_crl (issuer_id now : Z) : Tx DB CrlRow :=
  '(issuer_cert, issuer_key) ← signing_credentials issuer_id;
  state ← query (λ db, crls db !! issuer_id);
  let number := next_crl_number state in
  entries ← query (revoked_entries issuer_id);
  entries ← lift entries;
  crl ← lift (build_crl issuer_cert issuer_key entries number now (now + CRL_VALIDITY));
  let row := mkCrlRow issuer_id number now crl in
  _ ← modify (on_crls (λ m, <[issuer_id := row]> m));
  _ ← commit;
  mret row.

Definition stored_crl (issuer_id : Z) (db : DB) : option CrlRow := crls db !! issuer_id.
Definition current_crl (issuer_id now : Z) : Tx DB CrlRow :=
  state ← query (stored_crl issuer_id);
  match state with
  | None => regenerate_crl issuer_id now
  | Some s => if state_next_update s <=? now + CRL_MAX_AGE then regenerate_crl issuer_id now else mret s
  end.

Definition no_certificate (n : Z) : Exc := RevocationError ("no certificate with id " +:+ id_text n).
Definition revoke_certificate (cert_id : Z) (reason : RevocationReason) (principal : Principal) (now : Z)
  : Tx DB CertRow :=
  found ← query (get_certificate cert_id);
  match found with
  | None => mthrow (no_certificate cert_id)
  | Some row =>
      may ← query (λ db, may_use_issuer db principal (crt_issuer row));
      may ← lift may;
      _ ← raise_if (negb may) (forbidden (crt_issuer row));
      if bool_decide (is_Some (revoked_at row)) then mret row else
      let row' := revoked_row (isoformat now) reason row in
      _ ← modify (on_certs (λ m, <[crt_id row := row']> m));
      _ ← on_error (regenerate_crl (crt_issuer row) now) rollback;
      mret row'
  end.
End crl.

(** ** What a CRL says *)
Section facts.
Context {X : X509Lib} {SS : SecretStore}.

(** An entry is the line of a revoked row: its serial number, the second it
    was revoked in, and its reason. *)
Definition entry_of (r : CertRow) (e : CrlEntry) : Prop :=
  0 ≤ entry_serial e ∧ serial_hex r = hex_of_Z (entry_serial e) ∧
  ∃ t reason, in_datetime t ∧ revoked_at r = Some (isoformat t) ∧ entry_date e = floor_second t ∧
    revocation_reason r = Some reason ∧ entry_reason e = reason_extension reason.
(** The list is exactly the revoked rows of one issuer, in the order of their
    ids. *)
Definition lists_revoked (db : DB) (issuer_id : Z) (info : CrlInfo) : Prop :=
  Forall2 entry_of (rows_where (certs db) (is_revoked_by issuer_id)) (crl_entries info).

Lemma isoformat_nonempty t : in_datetime t → isoformat t ≠ "".
Proof.
  intros Ht He. pose proof (fromisoformat_isoformat t Ht) as Hf. rewrite He in Hf. by vm_compute in Hf.
Qed.
(** What a line of a list is read from: the serial number and the dates. *)
Definition line_readable (r : CertRow) : Prop := (∃ n, 0 ≤ n ∧ serial_hex r = hex_of_Z n) ∧ revocation_ok r.
Definition lines_readable (db : DB) : Prop := ∀ i r, certs db !! i = Some r → line_readable r.
Lemma certs_readable db : certs_ok db → lines_readable db.
Proof.
  intros Hdb i r Hi. destruct (cert_rows _ Hdb i r Hi) as [cert Hc]. split; [|by eapply cert_revocations].
  exists (serial_number (tbs cert)). split; apply Hc.
Qed.
Lemma revoked_entry_ok r : line_readable r → is_Some (revoked_at r) →
  ∃ e, revoked_entry r = Ok e ∧
    entry_of r (mkCrlEntry (revoked_serial e) (floor_second (revoked_date e)) (reason_extension (revoked_reason e))).
Proof.
  intros [(n & Hn & Hser) Hrev] [s Hs]. unfold revocation_ok in Hrev. rewrite Hs in Hrev. destruct Hrev as (t & Ht & -> & [reason Hr]).
  assert (Hat : revoked_at_dt r = Ok (Some t)).
  { unfold revoked_at_dt. rewrite Hs. pose proof (isoformat_nonempty t Ht).
    destruct (isoformat t) eqn:E; [done|]. rewrite <- E, fromisoformat_isoformat by done. done. }
  unfold revoked_entry. rewrite Hat. cbn. rewrite Hser, int_hex_of_Z by done. cbn. rewrite Hr. cbn.
  eexists. split; [done|]. split; [done|]. split; [done|]. by exists t, reason.
Qed.
Lemma revoked_entries_ok n db : lines_readable db → ∃ es, revoked_entries n db = Ok es ∧
  Forall2 (λ r e, entry_of r (mkCrlEntry (revoked_serial e) (floor_second (revoked_date e)) (reason_extension (revoked_reason e))))
    (rows_where (certs db) (is_revoked_by n)) es.
Proof.
  intros Hdb. apply map_each_total. intros r [Hp [i Hi]]%elem_of_rows_where.
  apply andb_true_iff in Hp as [_ Hp%bool_decide_eq_true]. apply revoked_entry_ok; [by eapply Hdb|done].
Qed.
Lemma build_crl_ok ic ik es n this next crl : build_crl ic ik es n this next = Ok crl →
  ∃ aki, authority_key_identifier ic ik = Ok aki ∧ crl_info crl = mkCrlInfo (cert_subject ic) (floor_second this)
    (floor_second next) n aki
    (map (λ e, mkCrlEntry (revoked_serial e) (floor_second (revoked_date e)) (reason_extension (revoked_reason e))) es).
Proof.
  unfold build_crl. intros (aki & Haki & H%sign_crl_info)%Outcome_bind_ok. exists aki. split; [done|].
  rewrite H. unfold der_crl_times. cbn. f_equal. rewrite map_map. done.
Qed.

(** What [regenerate_crl] stores; and who signed it, when the hierarchy is sound. *)
Record listed_crl (db : DB) (n now : Z) (row : CrlRow) : Prop := {
  fresh_issuer : crl_issuer_id row = n;
  fresh_number : crl_number row = next_crl_number (crls db !! n);
  fresh_date : generated_at row = now;
  fresh_number_ext : crl_number_ext (crl_info (crl_der row)) = crl_number row;
  fresh_last : last_update (crl_info (crl_der row)) = floor_second now;
  fresh_next : next_update (crl_info (crl_der row)) = floor_second (now + CRL_VALIDITY);
  fresh_lists : lists_revoked db n (crl_info (crl_der row)) }.
Record fresh_crl (db : DB) (n now : Z) (row : CrlRow) : Prop := {
  fresh_listed : listed_crl db n now row;
  fresh_signer : ∃ ca cert key, cas db !! n = Some ca ∧ load_cert (ca_cert ca) = Ok cert ∧ public_key key = cert_key cert ∧
    crl_issuer (crl_info (crl_der row)) = cert_subject cert ∧
    authority_key_identifier cert key = Ok (crl_aki (crl_info (crl_der row))) }.
(** Whatever key signs it. *)
Lemma wp_regenerate_under (P : Cert → PrivKey → Prop) n now s (Q : Outcome CrlRow → Session DB → Prop) : lines_readable (work s) →
  wp (signing_credentials n) s (λ r s', s' = s ∧ ∀ cert key, r = Ok (cert, key) → P cert key) →
  (∀ cert key row, P cert key → crl_issuer (crl_info (crl_der row)) = cert_subject cert →
     authority_key_identifier cert key = Ok (crl_aki (crl_info (crl_der row))) → listed_crl (work s) n now row →
     let db := on_crls (λ m, <[n := row]> m) (work s) in Q (Ok row) (mkSession db db)) →
  (∀ e, Q (Raise e) s) → wp (regenerate_crl n now) s Q.
Proof.
  intros Hl Hsign Hok Hraise. unfold regenerate_crl. apply wp_bind. eapply wp_mono; [exact Hsign|].
  intros [[cert key]|e] s' [-> HP]; [|auto]. specialize (HP cert key eq_refl). destruct (revoked_entries_ok n (work s) Hl) as (es & Hes & Hall).
  apply wp_bind, wp_query, wp_bind, wp_query. rewrite Hes. wp_run; auto.
  match goal with H : Ok es = Ok _ |- _ => injection H as <- | H : mret es = Ok _ |- _ => injection H as <- end.
  match goal with H : build_crl _ _ _ _ _ _ = Ok _ |- _ => apply build_crl_ok in H as (aki & Haki & Hinfo) end.
  apply (Hok cert key); [done|cbn [crl_der]; by rewrite Hinfo..|]. split; cbn [crl_issuer_id crl_number generated_at crl_der]; rewrite ?Hinfo; try done.
  unfold lists_revoked. cbn. by apply Forall2_fmap_r.
Qed.
Lemma wp_regenerate n now s (Q : Outcome CrlRow → Session DB → Prop) : hierarchy_ok (work s) → certs_ok (work s) →
  (∀ row, fresh_crl (work s) n now row →
     let db := on_crls (λ m, <[n := row]> m) (work s) in Q (Ok row) (mkSession db db)) →
  (∀ e, Q (Raise e) s) → wp (regenerate_crl n now) s Q.
Proof.
  intros Hdb Hc Hok Hraise. apply (wp_regenerate_under (λ cert key, ∃ ca, cas (work s) !! n = Some ca ∧ load_cert (ca_cert ca) = Ok cert ∧ public_key key = cert_key cert)).
  - by apply certs_readable.
  - apply wp_signing_credentials; [done| |done]. intros ca cert key Hca Hcert Hkey. split; [done|]. intros ? ? [= <- <-]. by exists ca.
  - intros cert key row (ca & Hca & Hcert & Hkey) Hiss Haki Hl. apply Hok. split; [done|]. by exists ca, cert, key.
  - done.
Qed.
End facts.

(** ** Invariants *)
Section invariant.
Context {X : X509Lib} {SS : SecretStore}.

(** Every revoked certificate is on the stored list of its issuer. *)
Definition published (db : DB) : Prop := ∀ i r, certs db !! i = Some r → is_Some (revoked_at r) →
  ∃ c e, crls db !! crt_issuer r = Some c ∧ e ∈ crl_entries (crl_info (crl_der c)) ∧ entry_of r e.
Record inventory_ok (db : DB) : Prop := {
  inv_hierarchy : hierarchy_ok db;
  inv_certs : certs_ok db;
  inv_published : published db }.

Lemma is_revoked_by_spec n r : is_revoked_by n r = true ↔ crt_issuer r = n ∧ is_Some (revoked_at r).
Proof. unfold is_revoked_by. by rewrite andb_true_iff, !bool_decide_eq_true. Qed.
Lemma lists_revoked_elem db n info i r : lists_revoked db n info → certs db !! i = Some r → crt_issuer r = n →
  is_Some (revoked_at r) → ∃ e, e ∈ crl_entries info ∧ entry_of r e.
Proof.
  intros Hl Hi Hn Hs.
  assert (Hin : r ∈ rows_where (certs db) (is_revoked_by n)) by (apply elem_of_rows_where; rewrite is_revoked_by_spec; eauto).
  apply list_elem_of_lookup in Hin as [k Hk]. unfold lists_revoked in Hl.
  destruct (Forall2_lookup_l _ _ _ _ _ Hl Hk) as (e & He & Hr). exists e. split; [by eapply list_elem_of_lookup_2|done].
Qed.

(** The invariant after an added row, and after a marked row whose issuer's
    list has been signed again. *)
Lemma certs_ok_same db db' : certs db' = certs db → cas db' = cas db → certs_ok db → certs_ok db'.
Proof. intros H1 H2 [Hk Hs Hi Hr Hv]. split; rewrite ?H1, ?H2; eauto. Qed.
Lemma inventory_add db n r cert : inventory_ok db → certs db !! n = None → crt_id r = n → row_describes r cert →
  revoked_at r = None → revocation_reason r = None → (∃ q, cas db !! crt_issuer r = Some q ∧ ca_kind q = Intermediate) →
  (∀ i q, certs db !! i = Some q → serial_hex q ≠ serial_hex r) → inventory_ok (on_certs (λ m, <[n := r]> m) db).
Proof.
  intros [Hh Hc Hp] Hn Hid Hd Hrev Hreas Hiss Hser. split; [by eapply (hierarchy_same db)| |].
  - eapply certs_add; eauto. unfold revocation_ok. by rewrite Hrev.
  - intros i q. cbn. rewrite lookup_insert_Some. intros [[<- <-]|[_ Hq]] Hs; [rewrite Hrev in Hs; by destruct Hs|eauto].
Qed.
Lemma inventory_regenerated db n now row : hierarchy_ok db → certs_ok db →
  (∀ i r, certs db !! i = Some r → is_Some (revoked_at r) → crt_issuer r ≠ n →
     ∃ c e, crls db !! crt_issuer r = Some c ∧ e ∈ crl_entries (crl_info (crl_der c)) ∧ entry_of r e) →
  fresh_crl db n now row → inventory_ok (on_crls (λ m, <[n := row]> m) db).
Proof.
  intros Hh Hc Hother Hf. split; [by eapply (hierarchy_same db)|by eapply (certs_ok_same db)|].
  intros i r Hi Hs. cbn in *. destruct (decide (crt_issuer r = n)) as [He|Hne].
  - destruct (lists_revoked_elem db n _ i r (fresh_lists _ _ _ _ (fresh_listed _ _ _ _ Hf)) Hi He Hs) as (e & ? & ?). exists row, e.
    by rewrite He, lookup_insert_eq.
  - rewrite lookup_insert_ne by done. eauto.
Qed.

(** ** The operations on the inventory *)
Lemma wp_revoke n reason p now s (Q : Outcome CertRow → Session DB → Prop) : inventory_ok (work s) → work s = durable s →
  in_datetime now →
  (∀ r, certs (work s) !! n = Some r → permitted_use (work s) p (crt_issuer r) → is_Some (revoked_at r) → Q (Ok r) s) →
  (∀ r row, certs (work s) !! n = Some r → permitted_use (work s) p (crt_issuer r) → revoked_at r = None →
     let r' := revoked_row (isoformat now) reason r in
     let db1 := on_certs (λ m, <[n := r']> m) (work s) in
     fresh_crl db1 (crt_issuer r) now row →
     let db2 := on_crls (λ m, <[crt_issuer r := row]> m) db1 in inventory_ok db2 → Q (Ok r') (mkSession db2 db2)) →
  (∀ e, (certs (work s) !! n = None → e = no_certificate n) →
     (∀ r, certs (work s) !! n = Some r → ¬ permitted_use (work s) p (crt_issuer r) → e = forbidden (crt_issuer r)) →
     Q (Raise e) s) →
  wp (revoke_certificate n reason p now) s Q.
Proof.
  intros [Hh Hc Hp] Hwd Hnow Hdone Hok Hraise. unfold revoke_certificate, get_certificate.
  apply wp_bind, wp_query. destruct (certs (work s) !! n) as [r|] eqn:Hr; [|apply wp_throw, Hraise; done].
  pose proof (cert_keys _ Hc n r Hr) as Hid.
  destruct (may_use_issuer_ok (work s) p (crt_issuer r)) as (b & Hb & Hiff).
  apply wp_bind, wp_query. rewrite Hb. apply wp_bind, wp_lift; [intros ? [= <-]|done].
  apply wp_bind, wp_raise_if.
  { intros Hn%negb_true_iff. apply Hraise; [done|]. by intros q [= <-] _. }
  intros Hbt%negb_false_iff. assert (Hperm : permitted_use (work s) p (crt_issuer r)) by by apply Hiff.
  case_bool_decide as Hrev; [apply wp_ret; by apply Hdone|]. apply eq_None_not_Some in Hrev.
  apply wp_bind, wp_modify, wp_bind, wp_on_error. rewrite Hid. cbn [work durable].
  set (db1 := on_certs (λ m, <[n := revoked_row (isoformat now) reason r]> m) (work s)).
  assert (Hc1 : certs_ok db1) by (by apply certs_revoke).
  assert (Hh1 : hierarchy_ok db1) by (by eapply (hierarchy_same (work s))).
  apply wp_regenerate; [done|done| |].
  - intros row Hf db2. apply wp_ret, (Hok r row); try done.
    apply (inventory_regenerated db1 _ now); [done..| |done].
    intros i q Hi Hs Hne. cbn in Hi. apply lookup_insert_Some in Hi as [[<- <-]|[_ Hi]]; [done|]. by eapply Hp.
  - intros e. apply wp_rollback. destruct s as [w dd]. cbn in *. subst dd. apply Hraise; naive_solver.
Qed.
(** Serving a list asks nothing of the keys. *)
Lemma current_crl_lists n now db : lines_readable db → wp (current_crl n now) (fresh_session db) (λ r s, match r with
  | Ok row => (s = fresh_session db ∧ crls db !! n = Some row ∧ now + CRL_MAX_AGE < state_next_update row) ∨
      (s = fresh_session (on_crls (λ m, <[n := row]> m) db) ∧ listed_crl db n now row)
  | Raise _ => s = fresh_session db end).
Proof.
  intros Hl. assert (Hreg : wp (regenerate_crl n now) (fresh_session db) (λ r s, match r with
    | Ok row => s = fresh_session (on_crls (λ m, <[n := row]> m) db) ∧ listed_crl db n now row
    | Raise _ => s = fresh_session db end)).
  { apply (wp_regenerate_under (λ _ _, True)); [done| |by intros|done]. unfold signing_credentials, get_ca. wp_run; done. }
  assert (Hnew := wp_mono _ _ _ (λ r s, match r with
    | Ok row => (s = fresh_session db ∧ crls db !! n = Some row ∧ now + CRL_MAX_AGE < state_next_update row) ∨
        (s = fresh_session (on_crls (λ m, <[n := row]> m) db) ∧ listed_crl db n now row)
    | Raise _ => s = fresh_session db end) Hreg).
  unfold current_crl, stored_crl. apply wp_bind, wp_query. cbn [work fresh_session]. destruct (crls db !! n) as [row|] eqn:E.
  - destruct (Z.leb_spec (state_next_update row) (now + CRL_MAX_AGE)); [apply Hnew; intros [?|?] ? ?; auto|apply wp_ret; auto].
  - apply Hnew. intros [?|?] ? ?; auto.
Qed.
Lemma current_crl_wp_full n now s (Q : Outcome CrlRow → Session DB → Prop) : hierarchy_ok (work s) → certs_ok (work s) →
  (∀ row, crls (work s) !! n = Some row → now + CRL_MAX_AGE < state_next_update row → Q (Ok row) s) →
  (∀ row, (∀ old, crls (work s) !! n = Some old → state_next_update old ≤ now + CRL_MAX_AGE) → fresh_crl (work s) n now row →
     let db := on_crls (λ m, <[n := row]> m) (work s) in Q (Ok row) (mkSession db db)) →
  (∀ e, Q (Raise e) s) → wp (current_crl n now) s Q.
Proof.
  intros Hh Hc Hold Hnew Hraise. unfold current_crl, stored_crl. apply wp_bind, wp_query.
  destruct (crls (work s) !! n) as [row|] eqn:E.
  - destruct (Z.leb_spec (state_next_update row) (now + CRL_MAX_AGE)); [|by apply wp_ret, Hold].
    apply wp_regenerate; try done. intros q Hf. apply Hnew; [naive_solver|done].
  - apply wp_regenerate; try done. intros q Hf. apply Hnew; [naive_solver|done].
Qed.
End invariant.

Inductive cert_op `{X : X509Lib} :=
  | op_issue (p : Principal) (profile : Profile) (cn : string) (sans : list string) (n : Z) (kt : string)
      (iid : option Z) (source : CertSource) (d : Draw) (created : Z)
  | op_sign (p : Principal) (pem : Pem) (profile : Profile) (n : Z) (override : option (list string))
      (fallback : option string) (allow_empty : bool) (iid : option Z) (source : CertSource) (d : Draw) (created : Z)
  | op_revoke (n : Z) (reason : RevocationReason) (p : Principal) (now : Z)
  | op_crl (n now : Z)
  | op_publish (n now : Z).

Section machine.
Context {X : X509Lib} {SS : SecretStore} {CR : Crypto}.

Definition run_cert (op : cert_op) : Tx DB unit :=
  match op with
  | op_issue p profile cn sans n kt iid source d created =>
      discard (issue_and_store p profile cn sans n kt iid source d created)
  | op_sign p pem profile n override fallback allow_empty iid source d created =>
      discard (sign_csr_and_store p pem profile n override fallback allow_empty iid source d created)
  | op_revoke n reason p now => discard (revoke_certificate n reason p now)
  | op_crl n now => discard (current_crl n now)
  | op_publish n now => discard (regenerate_crl n now)
  end.
(** Random serial numbers are not negative, and the clock is a [datetime]. *)
Definition good_draws (op : cert_op) : Prop :=
  match op with
  | op_issue _ _ _ _ _ _ _ _ d _ | op_sign _ _ _ _ _ _ _ _ _ d _ => 0 ≤ d_serial d
  | op_revoke _ _ _ now => in_datetime now
  | _ => True
  end.
Definition cert_step (db db' : DB) : Prop := ∃ op, good_draws op ∧ db' = snd (request (run_cert op) db).

Lemma wp_discard {A} (m : Tx DB A) s (Q : Outcome unit → Session DB → Prop) :
  wp m s (λ r s', Q (match r with Ok _ => Ok () | Raise e => Raise e end) s') → wp (discard m) s Q.
Proof. unfold wp, discard. rewrite Tx_bind_eq. by destruct (m s) as [[] s']. Qed.

(** What a request does to the lists: they stay, or get a larger number. *)
Definition lists_grow (db db' : DB) : Prop := ∀ n c, crls db !! n = Some c →
  ∃ c', crls db' !! n = Some c' ∧ (c' = c ∨ crl_number c < crl_number c').
Lemma lists_grow_refl db db' : crls db' = crls db → lists_grow db db'.
Proof. intros He n c Hc. exists c. rewrite He. auto. Qed.
Lemma lists_grow_fresh db n now row : fresh_crl db n now row → lists_grow db (on_crls (λ m, <[n := row]> m) db).
Proof.
  intros Hf k c Hc. cbn. destruct (decide (n = k)) as [->|Hne].
  - exists row. rewrite lookup_insert_eq. split; [done|]. right. rewrite (fresh_number _ _ _ _ (fresh_listed _ _ _ _ Hf)), Hc. cbn. lia.
  - exists c. rewrite lookup_insert_ne by done. auto.
Qed.
Lemma cert_op_spec op db : inventory_ok db → good_draws op →
  let db' := snd (request (run_cert op) db) in inventory_ok db' ∧ lists_grow db db'.
Proof.
  intros Hdb Hgood. apply (request_post _ _ (λ r, inventory_ok (snd r) ∧ lists_grow db (snd r))).
  assert (Hsame : inventory_ok db ∧ lists_grow db db) by (split; [done|by apply lists_grow_refl]).
  destruct Hdb as [Hh Hc Hp].
  assert (Hreg : ∀ n now row, fresh_crl db n now row →
    inventory_ok (on_crls (λ m, <[n := row]> m) db) ∧ lists_grow db (on_crls (λ m, <[n := row]> m) db)).
  { intros n now row Hf. split; [|by eapply lists_grow_fresh]. eapply inventory_regenerated; eauto. }
  destruct op; cbn [run_cert good_draws] in *; apply wp_discard.
  - apply wp_issue_and_store; try done. intros row cert ic ik capped Hby _ _ _ _ d'. cbn. split; [|by apply lists_grow_refl].
    destruct Hby as [(ca & Hca & Hact & _) ? ? ? ? ? ? [? ?]]. eapply inventory_add; try done.
    exists ca. split; [done|]. unfold is_active_issuer in Hact. by apply andb_true_iff in Hact as [?%bool_decide_eq_true _].
  - apply wp_sign_csr_and_store; try done. intros row cert ic ik capped Hby _ _ _ _ d'. cbn. split; [|by apply lists_grow_refl].
    destruct Hby as [(ca & Hca & Hact & _) ? ? ? ? ? ? [? ?]]. eapply inventory_add; try done.
    exists ca. split; [done|]. unfold is_active_issuer in Hact. by apply andb_true_iff in Hact as [?%bool_decide_eq_true _].
  - apply wp_revoke; try done. intros r row Hr _ _ r' db1 Hf db2 Hok. cbn. split; [done|].
    eapply lists_grow_fresh in Hf. exact Hf.
  - apply current_crl_wp_full; try done. intros row _ Hf d'. cbn. by apply (Hreg n now).
  - apply wp_regenerate; try done. intros row Hf d'. cbn. by apply (Hreg n now).
Qed.

(** *** The whole system *)
Definition same_inventory (d0 d : DB) : Prop := certs d = certs d0 ∧ crls d = crls d0.
Lemma ca_inventory_frame op d0 : keeps (same_inventory d0) (run_op op).
Proof.
  destruct op as [[]|[]]; cbn [run_op]; unfold create_root, create_intermediate_under, retire, retire_targets,
    cross_sign_root, renew_in_place, import_hierarchy, import_cross, get_ca, add_ca; keeps_frame.
Qed.
Lemma identity_inventory_frame op d0 : keeps (λ d, same_inventory d0 d ∧ cas d = cas d0) (run_identity op).
Proof.
  destruct op; cbn [run_identity]; unfold discard, create_user, update_role, reset_password, delete_user, get_user, save_user,
    create_session, touch_session, delete_session, delete_sessions_for_user, set_flash, pop_flash, purge_expired,
    update_session, create_token, verify_token, revoke_token, save_token, set_issuers, grant, require_intermediate,
    replace_grant_rows, get_ca, on_grants; keeps_frame.
Qed.
Lemma inventory_same db db' : inventory_ok db → same_inventory db db' → hierarchy_ok db' → kinds_kept db db' → inventory_ok db'.
Proof.
  intros [_ [Hk Hs Hi Hr Hv] Hp] [Hc Hl] Hh Hkinds. split; [done| |].
  - split; rewrite ?Hc; eauto. intros i r Hir. destruct (Hi i r Hir) as (q & Hq & Hkq).
    destruct (Hkinds _ q Hq) as (q' & Hq' & He). exists q'. split; [done|congruence].
  - unfold published. rewrite Hc, Hl. done.
Qed.
(** Any request to the CA service, about a caller, or about a certificate. *)
Definition any_step (db db' : DB) : Prop := system_step db db' ∨ cert_step db db'.
Lemma any_step_ok db db' : inventory_ok db → any_step db db' → inventory_ok db' ∧ lists_grow db db'.
Proof.
  intros Hdb [[[op ->]|[op ->]]|(op & Hgood & ->)].
  - assert (Hs : same_inventory db (snd (request (run_op op) db))) by (apply request_keeps; [apply ca_inventory_frame|done]).
    split; [|apply lists_grow_refl, Hs]. eapply inventory_same; [done|done| |].
    + apply request_keeps; [apply run_op_keeps|apply Hdb].
    + apply (request_post (run_op op) db (λ r, kinds_kept db (snd r))).
      eapply wp_mono; [apply (run_op_keeps_kinds op db)|]; [split; apply Hdb|split; intros i q Hq; by exists q|].
      intros r s' [_ Hk]. exact Hk.
  - assert (Hs : same_inventory db (snd (request (run_identity op) db)) ∧ cas (snd (request (run_identity op) db)) = cas db)
      by (apply (request_keeps (λ d, same_inventory db d ∧ cas d = cas db)); [apply identity_inventory_frame|done]).
    destruct Hs as [Hs Hc]. split; [|apply lists_grow_refl, Hs]. eapply inventory_same; [done|done| |].
    + eapply hierarchy_same; [exact Hc|apply Hdb].
    + intros i q Hq. exists q. by rewrite Hc.
  - by apply cert_op_spec.
Qed.
Lemma empty_inventory : inventory_ok empty_db.
Proof. split; [by intros i r| |by intros i r]. split; cbn; intros *; rewrite ?lookup_empty; done. Qed.

(** C7: no revocation is ever invisible.  Whatever requests cabin has served,
    in any order and with any outcome, every certificate the inventory calls
    revoked is on the stored CRL of its issuer, with its serial number, date
    and reason; and every row describes the certificate it holds. *)
Theorem revocations_are_published db : rtc any_step empty_db db → inventory_ok db.
Proof.
  intros H. refine (rtc_ind_r (R := any_step) inventory_ok empty_db _ _ db H); [apply empty_inventory|].
  intros db1 db2 _ Hstep IH. by apply (any_step_ok db1).
Qed.

(** CRL numbers only climb.  No request removes an issuer's CRL, and one
    that replaces it signs the new one under a larger number. *)
Theorem crl_numbers_climb db db' n c : rtc any_step empty_db db → rtc any_step db db' → crls db !! n = Some c →
  ∃ c', crls db' !! n = Some c' ∧ (c' = c ∨ crl_number c < crl_number c').
Proof.
  intros H0 H. revert c. refine (rtc_ind_r (R := any_step) (λ d, ∀ c, crls db !! n = Some c → ∃ c', crls d !! n = Some c' ∧
    (c' = c ∨ crl_number c < crl_number c')) db _ _ db' H); [by eauto|].
  intros db1 db2 H1 Hstep IH c Hc. destruct (IH c Hc) as (c1 & Hc1 & Hle).
  assert (Hok : inventory_ok db1).
  { assert (H01 : rtc any_step empty_db db1) by (by transitivity db).
    refine (rtc_ind_r (R := any_step) inventory_ok empty_db _ _ db1 H01); [apply empty_inventory|].
    intros d1 d2 _ Hs Hi. by apply (any_step_ok d1). }
  destruct (any_step_ok db1 db2 Hok Hstep) as [_ Hg]. destruct (Hg n c1 Hc1) as (c2 & Hc2 & Hle2).
  exists c2. split; [done|]. destruct Hle as [->|Hle], Hle2 as [->|Hle2]; auto; right; lia.
Qed.

(** Revocation is all or nothing, and happens once.  It needs a grant on
    the issuer, active or retired.  A certificate already revoked is answered
    as it is; otherwise the row gets its date and reason and the issuer's CRL
    is signed again, in the same commit, with the next number and exactly the
    revoked rows; if that fails, or the grant is missing, nothing changes. *)
Theorem revoke_certificate_exact n reason p now db r db' : inventory_ok db → in_datetime now →
  request (revoke_certificate n reason p now) db = (r, db') →
  match r with
  | Raise e => db' = db ∧ (certs db !! n = None → e = no_certificate n) ∧
      (∀ r, certs db !! n = Some r → ¬ permitted_use db p (crt_issuer r) → e = forbidden (crt_issuer r))
  | Ok r' => ∃ r, certs db !! n = Some r ∧ permitted_use db p (crt_issuer r) ∧
      ((is_Some (revoked_at r) ∧ r' = r ∧ db' = db) ∨
       (revoked_at r = None ∧ r' = revoked_row (isoformat now) reason r ∧
        ∃ row, fresh_crl (on_certs (λ m, <[n := r']> m) db) (crt_issuer r) now row ∧
          db' = on_crls (λ m, <[crt_issuer r := row]> m) (on_certs (λ m, <[n := r']> m) db)))
  end.
Proof.
  intros Hdb Hnow Hreq.
  refine (request_wp _ _ (λ r db', match r with Ok _ => _ | Raise e => _ end) _ _ Hreq _).
  apply wp_revoke; try done; cbn [work durable fresh_session].
  - intros q Hq Hperm Hs. exists q. split_and!; [done..|]. by left.
  - intros q row Hq Hperm Hs Hf _. exists q. split_and!; [done..|]. right. split_and!; [done..|]. by exists row.
Qed.

(** The CRL cabin serves outlives its cache time.  [current_crl] answers
    with a list whose nextUpdate is more than an hour away, or fails and
    changes nothing; the stored list is served unchanged while that holds, and
    is otherwise signed again for seven days. *)
Theorem current_crl_fresh n now db r db' : inventory_ok db → request (current_crl n now) db = (r, db') →
  match r with
  | Raise _ => db' = db
  | Ok row => now + CRL_MAX_AGE < state_next_update row ∧ crls db' !! n = Some row ∧
      ((db' = db ∧ crls db !! n = Some row) ∨
       (fresh_crl db n now row ∧ db' = on_crls (λ m, <[n := row]> m) db ∧
        ∀ old, crls db !! n = Some old → state_next_update old ≤ now + CRL_MAX_AGE))
  end.
Proof.
  intros [Hh Hc _] Hreq.
  refine (request_wp _ _ (λ r db', match r with Ok row => _ | Raise e => db' = db end) _ _ Hreq _).
  apply current_crl_wp_full; try done; cbn [work durable fresh_session].
  - intros row Hrow Hlt. split_and!; auto.
  - intros row Hold Hf. split_and!; [|by cbn; rewrite lookup_insert_eq|auto].
    unfold state_next_update. rewrite (fresh_date _ _ _ _ (fresh_listed _ _ _ _ Hf)). assert (CRL_MAX_AGE < CRL_VALIDITY) by done. lia.
Qed.
End machine.

(** ** Revocation at work *)
Module CrlExamples.
#[local] Existing Instance Toy.lib.
#[local] Existing Instance toy_secrets.
#[local] Existing Instance toy_crypto.
Import Toy CaExamples CertExamples.
#[local] Strategy 1000 [one_root two_cas two_roots crossed with_nas after request].
Lemma two_roots_inventory : inventory_ok two_roots.
Proof.
  eapply inventory_same; [apply empty_inventory| |apply two_roots_ok|by intros i q Hq].
  unfold two_roots, two_cas, one_root, after.
  apply (request_keeps (same_inventory empty_db));
    [unfold create_root, add_ca; keeps_frame|].
  apply (request_keeps (same_inventory empty_db));
    [unfold create_intermediate_under, get_ca, add_ca; keeps_frame|].
  apply (request_keeps (same_inventory empty_db)); [|done].
  unfold create_hierarchy, create_root, create_intermediate_under, get_ca, add_ca; keeps_frame.
Qed.
Definition issue_nas : cert_op :=
  op_issue SYSTEM_PRINCIPAL server "nas.lan" ["nas"; "192.0.2.7"] 90 "ecdsa-p256" (Some 2) ui (draw 20) t2026.
Lemma issue_nas_step : cert_step two_roots with_nas.
Proof. exists issue_nas. split; [vm_compute; discriminate|]. symmetry. exact (request_drop nas two_roots). Qed.
Lemma with_nas_inventory : inventory_ok with_nas.
Proof. exact (proj1 (any_step_ok two_roots with_nas two_roots_inventory (or_intror issue_nas_step))). Qed.
Definition tomorrow : Z := t2026 + days 1.
Definition revoked_nas : DB := after (revoke_certificate 1 key_compromise SYSTEM_PRINCIPAL tomorrow) with_nas.
#[local] Strategy 1000 [revoked_nas].

Lemma status_filters_partition_witness :
  certs_ok with_nas ∧ (count_status tomorrow with_nas st_valid + count_status tomorrow with_nas st_expiring +
    count_status tomorrow with_nas st_expired + count_status tomorrow with_nas st_revoked = size (certs with_nas))%nat.
Proof.
  assert (H : certs_ok with_nas) by exact (inv_certs _ with_nas_inventory). split; [exact H|].
  refine (proj2 (status_filters_partition (X:=lib) (SS:=toy_secrets) with_nas tomorrow H _ _)); by_decide.
Defined.
Lemma revocations_are_published_witness :
  rtc any_step empty_db (after (create_root "Root" "ed25519" 20 2 (draw 0)) empty_db) ∧
  inventory_ok (after (create_root "Root" "ed25519" 20 2 (draw 0)) empty_db).
Proof.
  assert (H : rtc any_step empty_db (after (create_root "Root" "ed25519" 20 2 (draw 0)) empty_db)).
  { apply rtc_once. left. left. exists (inl (op_create_root "Root" "ed25519" 20 2 (draw 0))). symmetry. exact (request_drop _ _). }
  split; [exact H|]. exact (revocations_are_published (X:=lib) (SS:=toy_secrets) (CR:=toy_crypto) _ H).
Defined.
Lemma revoke_certificate_exact_witness :
  is_ok (fst (request (revoke_certificate 1 key_compromise SYSTEM_PRINCIPAL tomorrow) with_nas)) = true ∧
  ∃ r, certs with_nas !! 1 = Some r.
Proof.
  assert (H : is_ok (fst (request (revoke_certificate 1 key_compromise SYSTEM_PRINCIPAL tomorrow) with_nas)) = true)
    by (vm_compute; reflexivity).
  split; [exact H|]. assert (Ht : in_datetime tomorrow) by by_decide.
  pose proof (revoke_certificate_exact (X:=lib) (SS:=toy_secrets) 1 key_compromise SYSTEM_PRINCIPAL tomorrow with_nas _ _
    with_nas_inventory Ht (surjective_pairing _)) as Hr.
  destruct (fst (request (revoke_certificate 1 key_compromise SYSTEM_PRINCIPAL tomorrow) with_nas)) as [r|e]; [|discriminate H].
  destruct Hr as (q & Hq & _). exists q. exact Hq.
Defined.
Lemma current_crl_fresh_witness :
  is_ok (fst (request (current_crl 2 tomorrow) revoked_nas)) = true ∧
  ∃ row, tomorrow + CRL_MAX_AGE < state_next_update row.
Proof.
  assert (H : is_ok (fst (request (current_crl 2 tomorrow) revoked_nas)) = true) by (vm_compute; reflexivity).
  split; [exact H|].
  assert (Hok : inventory_ok revoked_nas).
  { refine (proj1 (any_step_ok with_nas revoked_nas with_nas_inventory (or_intror _))).
    exists (op_revoke 1 key_compromise SYSTEM_PRINCIPAL tomorrow). split; [by_decide|].
    symmetry. exact (request_drop _ _). }
  pose proof (current_crl_fresh (X:=lib) (SS:=toy_secrets) 2 tomorrow revoked_nas _ _ Hok (surjective_pairing _)) as Hc.
  destruct (fst (request (current_crl 2 tomorrow) revoked_nas)) as [row|e]; [|discriminate H].
  exists row. exact (proj1 Hc).
Defined.
Definition root_made : DB := after (create_root "Root" "ecdsa-p256" 20 2 (draw 0)) empty_db.
Definition ca_made : DB := after (create_intermediate_under 1 "CA" "ecdsa-p256" 10 None (draw 1)) root_made.
Definition published_once : DB := after (regenerate_crl 2 t2026) ca_made.
Definition published_twice : DB := after (regenerate_crl 2 tomorrow) published_once.
#[local] Strategy 1000 [root_made ca_made published_once published_twice].
Lemma publish_step db n now : any_step db (after (regenerate_crl n now) db).
Proof. right. exists (op_publish n now). split; [exact I|]. symmetry. exact (request_drop _ _). Qed.
Lemma published_once_reachable : rtc any_step empty_db published_once.
Proof.
  eapply rtc_l; [|eapply rtc_l; [|eapply rtc_once, publish_step]]; left; left.
  - exists (inl (op_create_root "Root" "ecdsa-p256" 20 2 (draw 0))). symmetry. exact (request_drop _ _).
  - exists (inl (op_create_intermediate 1 "CA" "ecdsa-p256" 10 None (draw 1))). symmetry. exact (request_drop _ _).
Qed.
Lemma crl_numbers_climb_witness :
  is_Some (crls published_once !! 2) ∧ ∃ c c', crls published_once !! 2 = Some c ∧ crls published_twice !! 2 = Some c'.
Proof.
  assert (H : is_Some (crls published_once !! 2)) by (apply is_Some_alt; vm_compute; exact I).
  split; [exact H|]. destruct H as [c Hc].
  destruct (crl_numbers_climb (X:=lib) (SS:=toy_secrets) (CR:=toy_crypto) published_once published_twice 2 c
    published_once_reachable (rtc_once _ _ (publish_step _ _ _)) Hc) as (c' & Hc' & _).
  exists c, c'. split; [exact Hc|exact Hc'].
Defined.
Example the_list_names_the_certificate :
  (λ c, (crl_number c, crl_entries (crl_info (crl_der c)))) <$> crls revoked_nas !! 2
  = Some (1, [mkCrlEntry 30 tomorrow (Some "keyCompromise")]).
Proof. vm_compute. reflexivity. Qed.
End CrlExamples.
