(* ===== verification/AuditLog.v ===== *)
(** * [cabin.audit]: who changed what, and when

    [record] is the only writer of the table: it appends one event and commits
    it.  Reading is a page of the events that match, newest first.  The detail
    column is a dict that is written with sorted keys, a [gmap] here. *)

From S2P Require Import Prelude PyStr Json PyTime X509Lib Leaf Store Certs.
#[local] Open Scope Z_scope.

Definition AUDIT_PER_PAGE : nat := 50.
Definition AUDIT_MAX_QUERY_LENGTH : nat := 200.
Definition AUDIT_MAX_PAGE : Z := 1000000.
Definition MAX_LABEL_LENGTH : nat := 255.
Definition ACME_LABEL_PREFIX : nat := 16.
Definition MASKED : string := "***".
Definition SECRET_SETTING_KEYS : list string := [].

Definition kind_text (k : ActorKind) : string :=
  match k with k_user => "user" | k_token => "token" | k_system => "system" | k_acme => "acme" end.
Definition action_text (a : AuditAction) : string :=
  match a with
  | a_login_success => "login_success" | a_login_failed => "login_failed" | a_logout => "logout"
  | a_user_created => "user_created" | a_user_role_changed => "user_role_changed"
  | a_user_password_reset => "user_password_reset" | a_user_deleted => "user_deleted" | a_ca_created => "ca_created"
  | a_ca_imported => "ca_imported" | a_ca_renewed => "ca_renewed" | a_ca_retired => "ca_retired"
  | a_ca_cross_signed => "ca_cross_signed" | a_ca_cross_imported => "ca_cross_imported"
  | a_ca_key_exported => "ca_key_exported" | a_settings_changed => "settings_changed" | a_cert_issued => "cert_issued"
  | a_cert_signed => "cert_signed" | a_cert_revoked => "cert_revoked" | a_token_created => "token_created"
  | a_token_revoked => "token_revoked" | a_user_issuers_changed => "user_issuers_changed"
  | a_token_issuers_changed => "token_issuers_changed" | a_acme_account_created => "acme_account_created"
  | a_acme_account_deactivated => "acme_account_deactivated" | a_acme_order_created => "acme_order_created"
  | a_acme_challenge_validated => "acme_challenge_validated" | a_acme_challenge_failed => "acme_challenge_failed"
  | a_acme_certificate_issued => "acme_certificate_issued" | a_acme_certificate_revoked => "acme_certificate_revoked"
  | a_acme_eab_key_created => "acme_eab_key_created" | a_acme_eab_key_revoked => "acme_eab_key_revoked"
  | a_tls_certificate_issued => "tls_certificate_issued" | a_tls_certificate_failed => "tls_certificate_failed"
  end.
Definition reason_text (r : RevocationReason) : string :=
  match r with
  | unspecified => "unspecified" | key_compromise => "key_compromise" | superseded => "superseded"
  | cessation_of_operation => "cessation_of_operation" | affiliation_changed => "affiliation_changed"
  end.

Record Actor := mkActor { act_kind : ActorKind; act_id : option Z; act_label : string }.
Definition SYSTEM_ACTOR : Actor := mkActor k_system None "system".
Definition acme_actor (thumbprint : string) : Actor := mkActor k_acme None ("acme:" +:+ str_take ACME_LABEL_PREFIX thumbprint).

(** The label of an ACME account is never cut. *)
Lemma acme_label_whole t : str_take MAX_LABEL_LENGTH (act_label (acme_actor t)) = act_label (acme_actor t).
Proof.
  unfold str_take, acme_actor. cbn [act_label]. rewrite take_ge; [apply of_chars_chars|].
  rewrite chars_app, length_app. unfold str_take at 1. rewrite chars_of_chars, length_take.
  unfold ACME_LABEL_PREFIX, MAX_LABEL_LENGTH. cbn [length chars String.list_ascii_of_string]. lia.
Qed.

(** What a call passes besides the actor and the action. *)
Record Event := mkEvent {
  summary : string; ev_target : option (string * option string); detail : option (gmap string json); ip : option string }.

Definition or_null (o : option string) : json := match o with Some s => JStr s | None => JNull end.
Definition setting_change_detail (key : string) (old new : option string) : gmap string json :=
  let value := λ raw, match raw with
    | None => JNull | Some s => JStr (if bool_decide (key ∈ SECRET_SETTING_KEYS) then MASKED else s) end in
  <["key" := JStr key]> (<["old" := value old]> {["new" := value new]}).

Section audit.
Context {X : X509Lib} {SS : SecretStore}.

Definition user_actor (u : UserRow) : Actor := mkActor k_user (Some (user_id u)) (username u).
Definition token_actor (t : TokenRow) : Actor := mkActor k_token (Some (token_id t)) (label t).

Definition certificate_detail (row : CertRow) (key_type : option string) (days_requested : option Z)
    (validity_capped_from : option Z) : gmap string json :=
  let d := <["serial_hex" := JStr (serial_hex row)]> (<["subject_cn" := JStr (subject_cn row)]>
    (<["sans" := JList (map JStr (crt_sans row))]> (<["profile" := JStr (crt_profile row)]>
    {["not_after" := JStr (crt_not_after row)]}))) in
  let d := match key_type with Some t => <["key_type" := JStr t]> d | None => d end in
  match validity_capped_from with
  | Some t => <["days_requested" := match days_requested with Some n => JInt n | None => JNull end]>
                (<["validity_capped_from" := JStr (isoformat t)]> d)
  | None => d
  end.
Definition revocation_detail (row : CertRow) (reason : RevocationReason) : gmap string json :=
  <["reason" := JStr (reason_text reason)]> (certificate_detail row None None None).
Definition issued_summary (row : CertRow) : string := "issued certificate for " +:+ py_repr (subject_cn row).
Definition signed_summary (row : CertRow) : string := "signed CSR for " +:+ py_repr (subject_cn row).
Definition revoked_summary (row : CertRow) (reason : RevocationReason) : string :=
  "revoked certificate for " +:+ py_repr (subject_cn row) +:+ " (" +:+ reason_text reason +:+ ")".

Definition audit_row (actor : Actor) (action : AuditAction) (e : Event) (now n : Z) : AuditRow :=
  mkAudit n (iso now) (act_kind actor) (act_id actor) (str_take MAX_LABEL_LENGTH (act_label actor)) action
    (fst <$> ev_target e) (ev_target e ≫= snd) (summary e) (detail e) (ip e).
Definition record (actor : Actor) (action : AuditAction) (e : Event) (now : Z) : Tx DB AuditRow :=
  row ← query (λ db, audit_row actor action e now (next_id (audit_events db)));
  _ ← modify (on_audit (λ m, <[aud_id row := row]> m));
  _ ← commit;
  mret row.

Definition audit_text_matches (term : list ascii) (r : AuditRow) : bool :=
  let p := contains_pattern term in
  like p (sql_lower (chars (actor_label r))) || like p (sql_lower (chars (action_text (aud_action r))))
  || like p (sql_lower (chars (aud_summary r))).
(** [_filters]; the two choices are texts, "all" or empty for none. *)
Definition audit_filters (q action actor : string) (r : AuditRow) : bool :=
  let term := chars (lower (str_take AUDIT_MAX_QUERY_LENGTH (strip q))) in
  (if nonempty term then audit_text_matches term r else true)
  && (if decide (action = "" ∨ action = "all") then true else bool_decide (action_text (aud_action r) = action))
  && (if decide (actor = "" ∨ actor = "all") then true else bool_decide (kind_text (actor_kind r) = actor)).
Definition latest_first (a b : AuditRow) : Prop :=
  str_ltb (occurred_at b) (occurred_at a) = true ∨ occurred_at a = occurred_at b ∧ aud_id b ≤ aud_id a.
#[export] Instance latest_first_dec : RelDecision latest_first.
Proof. intros a b. unfold latest_first. apply _. Defined.
Definition list_events (q action actor : string) (page : Z) (per_page : nat) (db : DB) : list AuditRow * nat :=
  let page := Z.min (Z.max page 1) AUDIT_MAX_PAGE in
  let rows := rows_where (audit_events db) (audit_filters q action actor) in
  (take per_page (drop (Z.to_nat ((page - 1) * Z.of_nat per_page)) (merge_sort latest_first rows)), length rows).

(** ** An event is appended, and nothing else *)
Lemma wp_record actor action e now s (Q : Outcome AuditRow → Session DB → Prop) :
  (let row := audit_row actor action e now (next_id (audit_events (work s))) in
   let db := on_audit (λ m, <[aud_id row := row]> m) (work s) in
   audit_events (work s) !! aud_id row = None → Q (Ok row) (mkSession db db)) →
  wp (record actor action e now) s Q.
Proof. intros H. unfold record. wp_run. apply H, next_id_fresh. Qed.
End audit.
