(* ===== verification/Nonces.v ===== *)
(** * [cabin.acme.nonces]: anti-replay nonces

    Each operation is one or two committed statements; requests of different
    clients are interleaved as sequences of them. *)

From S2P Require Import Prelude PyStr PyTime IPAddr X509Lib Store Settings CaService Grants Identity.
#[local] Open Scope Z_scope.

Definition NONCE_LIFETIME : Z := hours 24.

Section nonces.
Context {X : X509Lib} {SS : SecretStore} {CR : Crypto}.

(** A DELETE, committed; the number of rows it removed. *)
Definition delete_nonces (p : string → string → bool) : Tx DB nat :=
  n ← query (λ db, size (filter (λ '(k, v), p k v = true) (nonces db)));
  _ ← modify (on_nonces (filter (λ '(k, v), p k v = false)));
  _ ← commit;
  mret n.
Definition purge (now : Z) : Tx DB nat :=
  let cutoff := iso (now - NONCE_LIFETIME) in
  delete_nonces (λ _ issued_at, str_ltb issued_at cutoff).
Definition issue (draw now : Z) : Tx DB string :=
  _ ← purge now;
  let nonce := token_urlsafe draw in
  taken ← query (λ db, bool_decide (is_Some (nonces db !! nonce)));
  _ ← raise_if taken unique_failed;
  _ ← modify (on_nonces (λ m, <[nonce := iso now]> m));
  _ ← commit;
  mret nonce.
Definition consume (nonce : string) (now : Z) : Tx DB bool :=
  if decide (nonce = "") then mret false else
  let cutoff := iso (now - NONCE_LIFETIME) in
  n ← delete_nonces (λ k issued_at, bool_decide (k = nonce) && str_leb cutoff issued_at);
  mret (bool_decide (n = 1%nat)).

(** ** Sequences of requests *)
Inductive nonce_op := Issue (draw now : Z) | Consume (nonce : string) (now : Z) | Purge (now : Z).
(** What a request did to one nonce: handed it out, spent it, or neither. *)
Inductive nonce_event := Issued | Spent | Neither.
#[export] Instance nonce_event_eq_dec : EqDecision nonce_event.
Proof. solve_decision. Defined.
Definition nonce_step (n : string) (op : nonce_op) (db : DB) : nonce_event * DB :=
  match op with
  | Issue draw now =>
      let '(r, db') := request (issue draw now) db in
      (if bool_decide (r = Ok n) then Issued else Neither, db')
  | Consume k now =>
      let '(r, db') := request (consume k now) db in
      (if bool_decide (k = n ∧ r = Ok true) then Spent else Neither, db')
  | Purge now => let '(_, db') := request (purge now) db in (Neither, db')
  end.
Fixpoint nonce_events (n : string) (ops : list nonce_op) (db : DB) : list nonce_event :=
  match ops with
  | [] => []
  | op :: ops => let '(e, db') := nonce_step n op db in e :: nonce_events n ops db'
  end.
Definition count (e : nonce_event) (l : list nonce_event) : nat := length (List.filter (λ x, bool_decide (x = e)) l).

Lemma request_purge now db : request (purge now) db =
  (Ok (size (filter (λ '(k, v), str_ltb v (iso (now - NONCE_LIFETIME)) = true) (nonces db))),
   on_nonces (filter (λ '(k, v), str_ltb v (iso (now - NONCE_LIFETIME)) = false)) db).
Proof. reflexivity. Qed.
Lemma filter_key (m : gmap string string) n (p : string → bool) :
  filter (λ '(k, v), bool_decide (k = n) && p v = true) m =
  match m !! n with Some v => if p v then {[n := v]} else ∅ | None => ∅ end.
Proof.
  apply map_eq. intros k. apply option_eq. intros v. rewrite map_lookup_filter_Some, andb_true_iff, bool_decide_eq_true. split.
  - intros (Hk & -> & Hp). rewrite Hk, Hp. by rewrite lookup_singleton_eq.
  - destruct (m !! n) as [w|] eqn:Hn; [|by rewrite lookup_empty]. destruct (p w) eqn:Hp; [|by rewrite lookup_empty].
    rewrite lookup_singleton_Some. intros [<- <-]. done.
Qed.
Lemma on_nonces_ext f g db : f (nonces db) = g (nonces db) → on_nonces f db = on_nonces g db.
Proof. intros H. unfold on_nonces. by rewrite H. Qed.
Lemma on_nonces_id f db : f (nonces db) = nonces db → on_nonces f db = db.
Proof. intros H. unfold on_nonces. rewrite H. by destruct db. Qed.
(** Spending, exactly. *)
Lemma request_consume n now db : n ≠ "" → request (consume n now) db =
  match nonces db !! n with
  | Some at_ => if str_leb (iso (now - NONCE_LIFETIME)) at_ then (Ok true, on_nonces (delete n) db) else (Ok false, db)
  | None => (Ok false, db)
  end.
Proof.
  intros Hn. unfold consume. rewrite decide_False by done. unfold request, delete_nonces. run_tx.
  unfold close_session, fresh_session. cbn [work durable]. rewrite filter_key.
  set (keep := filter _).
  assert (Hkeep : (∀ v, nonces db !! n = Some v → str_leb (iso (now - NONCE_LIFETIME)) v = false) → on_nonces keep db = db).
  { intros H. apply on_nonces_id, map_filter_id. intros k v Hk. destruct (decide (k = n)) as [->|Hne].
    - rewrite bool_decide_eq_true_2 by done. cbn. by apply H.
    - by rewrite bool_decide_eq_false_2. }
  destruct (nonces db !! n) as [v|] eqn:Hm; [destruct (str_leb _ v) eqn:Hp|].
  - rewrite map_size_singleton. cbn. f_equal. apply on_nonces_ext, map_eq. intros k. apply option_eq. intros w.
    unfold keep. rewrite map_lookup_filter_Some, lookup_delete_Some, andb_false_iff, bool_decide_eq_false.
    naive_solver congruence.
  - rewrite map_size_empty, Hkeep by naive_solver. done.
  - rewrite map_size_empty, Hkeep by naive_solver. done.
Qed.
Lemma request_issue_nonce draw now db : ∃ db1, request (issue draw now) db = db1 ∧
  match db1 with
  | (Ok n, db') => n = token_urlsafe draw ∧ nonces db' !! n = Some (iso now) ∧
      (∀ k, k ≠ n → is_Some (nonces db' !! k) → is_Some (nonces db !! k))
  | (Raise _, db') => ∀ k, is_Some (nonces db' !! k) → is_Some (nonces db !! k)
  end.
Proof.
  eexists. split; [reflexivity|]. apply request_post. unfold issue, purge, delete_nonces, fresh_session. wp_run; cbn.
  - intros k [v [Hk _]%map_lookup_filter_Some]. by eexists.
  - rewrite lookup_insert_eq. split_and!; [done|done|]. intros k Hk. rewrite lookup_insert_ne by done.
    intros [v [Hv _]%map_lookup_filter_Some]. by eexists.
Qed.

Definition held (n : string) (db : DB) : nat := if decide (is_Some (nonces db !! n)) then 1 else 0.
Lemma held_mono n db db' : (is_Some (nonces db' !! n) → is_Some (nonces db !! n)) → (held n db' ≤ held n db)%nat.
Proof. unfold held. intros H. repeat case_decide; first [lia | naive_solver]. Qed.
Lemma held_le n db : (held n db ≤ 1)%nat.
Proof. unfold held. case_decide; lia. Qed.
Lemma count_one e e' : count e [e'] = (if decide (e' = e) then 1 else 0)%nat.
Proof. unfold count. cbn [List.filter]. repeat case_decide; repeat case_bool_decide; done. Qed.
Lemma count_cons e e' l : count e (e' :: l) = (count e [e'] + count e l)%nat.
Proof. unfold count. change (e' :: l) with ([e'] ++ l). by rewrite List.filter_app, length_app. Qed.
Ltac count_events := rewrite !count_one; repeat first [rewrite decide_True by done | rewrite decide_False by done]; cbn.
(** One request spends no more than was held, and holds no more than was
    handed out. *)
Lemma nonce_step_bound n op db : let '(e, db') := nonce_step n op db in
  (count Spent [e] + held n db' ≤ count Issued [e] + held n db)%nat.
Proof.
  destruct op as [draw now|k now|now]; cbn [nonce_step].
  - destruct (request_issue_nonce draw now db) as ([r db'] & Hr & Hspec). rewrite Hr. destruct r as [m|e].
    + destruct Hspec as (-> & _ & Hk). case_bool_decide as He; count_events.
      * pose proof (held_le n db'). lia.
      * apply held_mono, Hk. congruence.
    + rewrite bool_decide_eq_false_2 by done. count_events. apply held_mono, Hspec.
  - assert (Hno : (count Spent [if bool_decide (k = n ∧ Ok false = Ok true) then Spent else Neither] + held n db
      ≤ count Issued [if bool_decide (k = n ∧ Ok false = Ok true) then Spent else Neither] + held n db)%nat).
    { rewrite bool_decide_eq_false_2 by (by intros [_ ?]). count_events. lia. }
    destruct (decide (k = "")) as [->|Hk]; [exact Hno|]. rewrite request_consume by done.
    destruct (nonces db !! k) as [v|] eqn:Hv; [destruct (str_leb _ v)|]; [|exact Hno..].
    clear Hno. case_bool_decide as He; count_events.
    + destruct He as [-> _]. unfold held. cbn. rewrite lookup_delete_eq, Hv.
      rewrite decide_False by (by intros []). rewrite decide_True by by eexists. lia.
    + apply held_mono. cbn. intros [w [_ Hw]%lookup_delete_Some]. by eexists.
  - rewrite request_purge. count_events. apply held_mono. cbn. intros [w [Hw _]%map_lookup_filter_Some]. by eexists.
Qed.

(** C28: no replay.  In any sequence of requests, however the clients and the
    clock interleave them, a nonce is accepted at most as often as it was
    handed out; one that is handed out once is accepted at most once. *)
Theorem nonce_spent_once n ops db : nonces db !! n = None →
  (count Spent (nonce_events n ops db) ≤ count Issued (nonce_events n ops db))%nat.
Proof.
  intros Hn.
  assert (Hgen : ∀ ops db, (count Spent (nonce_events n ops db) ≤ count Issued (nonce_events n ops db) + held n db)%nat).
  { clear. induction ops as [|op ops IH]; intros db; cbn [nonce_events]; [cbn; lia|].
    pose proof (nonce_step_bound n op db) as Hs. destruct (nonce_step n op db) as [e db'].
    specialize (IH db'). rewrite (count_cons Spent e), (count_cons Issued e). lia. }
  specialize (Hgen ops db). unfold held in Hgen. rewrite Hn, decide_False in Hgen by (by intros []). lia.
Qed.

(** The life of a nonce.  A nonce handed out at one instant is accepted at
    another if and only if no more than a day has passed, to the second; once
    accepted it is gone, and the next attempt, at any time, is refused. *)
Theorem nonce_lifetime draw t now db n db1 :
  request (issue draw t) db = (Ok n, db1) → n ≠ "" → in_datetime t → in_datetime (now - NONCE_LIFETIME) →
  let '(r, db2) := request (consume n now) db1 in
  r = Ok (floor_second (now - NONCE_LIFETIME) <=? floor_second t) ∧
  (r = Ok true → ∀ later, request (consume n later) db2 = (Ok false, db2)).
Proof.
  intros Hi Hn Ht Hnow. destruct (request_issue_nonce draw t db) as ([r d] & Hr & Hspec). rewrite Hi in Hr.
  injection Hr as <- <-. destruct Hspec as (_ & Hat & _). rewrite request_consume, Hat by done. unfold iso.
  rewrite isoformat_leb by auto using in_datetime_floor.
  destruct (_ <=? _); (split; [done|]); [|done]. intros _ later. rewrite request_consume by done. cbn.
  by rewrite lookup_delete_eq.
Qed.
End nonces.

(** ** Nonces at work *)
Module NonceExamples.
#[local] Existing Instance Toy.lib.
#[local] Existing Instance toy_secrets.
#[local] Existing Instance toy_crypto.
Import Toy.
Definition two_clients : list nonce_op :=
  [Issue 5 t2026; Consume "token-5" (t2026 + hours 1); Consume "token-5" (t2026 + hours 1)].
Lemma nonce_spent_once_witness :
  nonce_events "token-5" two_clients empty_db = [Issued; Spent; Neither] ∧
  (count Spent (nonce_events "token-5" two_clients empty_db) ≤ count Issued (nonce_events "token-5" two_clients empty_db))%nat.
Proof.
  split; [vm_compute; reflexivity|].
  refine (nonce_spent_once (X:=lib) (SS:=toy_secrets) (CR:=toy_crypto) "token-5" two_clients empty_db _). reflexivity.
Defined.
Lemma nonce_lifetime_witness :
  fst (request (issue 5 t2026) empty_db) = Ok "token-5" ∧
  fst (request (consume "token-5" (t2026 + hours 25)) (snd (request (issue 5 t2026) empty_db))) = Ok false.
Proof.
  assert (H : fst (request (issue 5 t2026) empty_db) = Ok "token-5") by (vm_compute; reflexivity). split; [exact H|].
  assert (Hi : request (issue 5 t2026) empty_db = (Ok "token-5", snd (request (issue 5 t2026) empty_db)))
    by (rewrite <- H; apply surjective_pairing).
  assert (Hn : "token-5" ≠ "") by done. assert (Ht : in_datetime t2026) by by_decide.
  assert (Hw : in_datetime (t2026 + hours 25 - NONCE_LIFETIME)) by by_decide.
  pose proof (nonce_lifetime (X:=lib) (SS:=toy_secrets) (CR:=toy_crypto) 5 t2026 (t2026 + hours 25) empty_db "token-5" _ Hi Hn Ht Hw) as Hl.
  destruct (request (consume "token-5" (t2026 + hours 25)) (snd (request (issue 5 t2026) empty_db))) as [r d].
  exact (proj1 Hl).
Defined.
End NonceExamples.
