(* ===== verification/AcmeNames.v ===== *)
(** * [cabin.acme.errors] and the names of an order

    The problem types of [acme/errors.py], and the pure part of
    [acme/service.py]: what an order may name ([parse_identifiers], FR-7) and
    what an account may be contacted at ([parse_contacts]).  A payload member
    is a value of the type [json] of what [json.loads] returns. *)

From S2P Require Import Prelude PyStr Json PyTime IPAddr X509Lib Leaf.
#[local] Open Scope Z_scope.
#[local] Set Warnings "-register-all".

(** ** [errors.py] *)
Inductive ErrorType :=
  | malformed | bad_nonce | bad_public_key | bad_signature_algorithm | unauthorized
  | account_does_not_exist | rate_limited | server_internal | unsupported_identifier
  | rejected_identifier | user_action_required | connection | dns | tls | incorrect_response
  | order_not_ready | bad_csr | already_revoked | bad_revocation_reason | external_account_required.
Definition NAMESPACE : string := "urn:ietf:params:acme:error:".
Definition error_text (t : ErrorType) : string :=
  match t with
  | malformed => "malformed" | bad_nonce => "badNonce" | bad_public_key => "badPublicKey"
  | bad_signature_algorithm => "badSignatureAlgorithm" | unauthorized => "unauthorized"
  | account_does_not_exist => "accountDoesNotExist" | rate_limited => "rateLimited"
  | server_internal => "serverInternal" | unsupported_identifier => "unsupportedIdentifier"
  | rejected_identifier => "rejectedIdentifier" | user_action_required => "userActionRequired"
  | connection => "connection" | dns => "dns" | tls => "tls" | incorrect_response => "incorrectResponse"
  | order_not_ready => "orderNotReady" | bad_csr => "badCSR" | already_revoked => "alreadyRevoked"
  | bad_revocation_reason => "badRevocationReason" | external_account_required => "externalAccountRequired"
  end.
(** [_STATUS] *)
Definition STATUS (t : ErrorType) : Z :=
  match t with
  | unauthorized | user_action_required | order_not_ready | external_account_required => 403
  | rate_limited => 429
  | server_internal => 500
  | _ => 400
  end.
Definition acme_error (t : ErrorType) (detail : string) : Exc := AcmeError (error_text t) detail (STATUS t) [] [].
(** [AcmeError(t, detail, extra=...)] *)
Definition acme_error_extra (t : ErrorType) (detail : string) (extra : list (string * json)) : Exc :=
  AcmeError (error_text t) detail (STATUS t) extra [].
(** [AcmeError(t, detail, status=...)] *)
Definition acme_error_status (t : ErrorType) (detail : string) (status : Z) : Exc :=
  AcmeError (error_text t) detail status [] [].
Definition acme_error_headers (t : ErrorType) (detail : string) (status : Z) (headers : list (string * string)) : Exc :=
  AcmeError (error_text t) detail status [] headers.

(** ** [service.py]: the identifier policy *)
Definition DNS : string := "dns".
Definition IP : string := "ip".
Definition MAX_IDENTIFIERS : Z := MAX_SANS.
Definition MAX_CONTACTS : Z := 10.
Definition MAX_CONTACT_LENGTH : Z := 255.

Record Identifier := mkIdentifier {
  type : string; value : string; base_value : string; wildcard : bool }.
#[export] Instance Identifier_eq_dec : EqDecision Identifier.
Proof. solve_decision. Defined.
Definition as_json (i : Identifier) : string * string := (type i, value i).

(** [_reject] *)
Definition reject (message : string) : Exc := acme_error rejected_identifier (str_take 200 message).
Definition not_a_hostname (v : string) : Exc := reject ("not a valid hostname: " +:+ py_repr v).
(** [_dns_identifier] *)
Definition dns_identifier (raw : string) : Outcome Identifier :=
  _ ← raise_if (bool_decide (raw = "") || has_space raw) (not_a_hostname raw);
  let value := lower raw in
  _ ← raise_if (is_ip value)
        (reject ("an IP address must be requested as an ip identifier: " +:+ py_repr value));
  let wildcard := startswith value "*." in
  normalized ← catch_pure (parse_san_lines ("dns:" +:+ value)) is_issue_error (λ e, Raise (reject (exc_text e)));
  _ ← raise_if (negb (bool_decide (normalized = ["DNS:" +:+ value]))) (not_a_hostname value);
  mret (mkIdentifier DNS value (if wildcard then str_drop 2 value else value) wildcard).
(** [_ip_identifier] *)
Definition ip_identifier (value : string) : Outcome Identifier :=
  address ← catch_pure (ip_address value) is_value_error
              (λ _, Raise (reject ("not a valid IP address: " +:+ py_repr value)));
  let canonical := str_address address in
  mret (mkIdentifier IP canonical canonical false).
(** One entry of the array. *)
Definition parse_identifier (entry : json) : Outcome Identifier :=
  match entry with
  | JObj o =>
      match member "value" o with
      | JStr value =>
          match member "type" o with
          | JStr kind =>
              if decide (kind = DNS) then dns_identifier value
              else if decide (kind = IP) then ip_identifier value
              else Raise (acme_error unsupported_identifier
                     (str_take 200 ("cabin issues for dns and ip identifiers only, not " +:+ py_repr kind)))
          | kind => Raise (acme_error unsupported_identifier
                     (str_take 200 ("cabin issues for dns and ip identifiers only, not " +:+ json_repr kind)))
          end
      | _ => Raise (acme_error malformed "each identifier needs a string value")
      end
  | _ => Raise (acme_error malformed "each identifier must be a JSON object")
  end.
Definition parse_identifiers (raw : json) : Outcome (list Identifier) :=
  match raw with
  | JList (entry :: l) =>
      _ ← raise_if (MAX_IDENTIFIERS <? Z.of_nat (length (entry :: l)))
            (acme_error malformed ("an order may name at most " +:+ str_of_Z MAX_IDENTIFIERS +:+ " identifiers"));
      parsed ← map_each parse_identifier (entry :: l);
      mret (dedup parsed)
  | _ => Raise (acme_error malformed "an order needs a non-empty identifiers array")
  end.

Definition CHALLENGE_TYPES : list string := ["http-01"; "dns-01"; "tls-alpn-01"].
Definition WILDCARD_CHALLENGE_TYPES : list string := ["dns-01"].
Definition IP_CHALLENGE_TYPES : list string := ["http-01"; "tls-alpn-01"].
Definition challenge_types_for (i : Identifier) : list string :=
  if wildcard i then WILDCARD_CHALLENGE_TYPES
  else if decide (type i = IP) then IP_CHALLENGE_TYPES
  else CHALLENGE_TYPES.

(** ** [service.py]: contacts *)
Definition parse_contact (entry : json) : Outcome string :=
  match entry with
  | JStr s =>
      _ ← raise_if (bool_decide (s = "") || (MAX_CONTACT_LENGTH <? py_len s))
            (acme_error malformed "each contact must be a non-empty URL");
      let '(scheme, separator, rest) := partition ":" s in
      _ ← raise_if (negb separator || bool_decide (rest = "") || negb (forallb is_ascii_letter (chars scheme))
                    || bool_decide (scheme = ""))
            (acme_error malformed (str_take 200 ("contact is not a URL: " +:+ py_repr s)));
      _ ← raise_if (has_space s) (acme_error malformed "a contact URL must not contain whitespace");
      mret s
  | _ => Raise (acme_error malformed "each contact must be a non-empty URL")
  end.
Definition parse_contacts (raw : json) : Outcome (list string) :=
  match raw with
  | JList l =>
      _ ← raise_if (MAX_CONTACTS <? Z.of_nat (length l))
            (acme_error malformed ("at most " +:+ str_of_Z MAX_CONTACTS +:+ " contacts are accepted"));
      map_each parse_contact l
  | _ => Raise (acme_error malformed "contact must be an array of URLs")
  end.

(** ** Which names an order may hold *)
Definition orderable_dns (v : string) : Prop :=
  has_space v = false ∧ is_hostname (lower v) = true ∧ is_ip (lower v) = false.
Definition dns_name (v : string) : Identifier :=
  mkIdentifier DNS v (if startswith v "*." then str_drop 2 v else v) (startswith v "*.").
(** The entry and the name it is read as. *)
Inductive names_of : json → Identifier → Prop :=
  | names_dns o v : member "type" o = JStr DNS → member "value" o = JStr v → orderable_dns v →
      names_of (JObj o) (dns_name (lower v))
  | names_ip o v a : member "type" o = JStr IP → member "value" o = JStr v → ip_address v = Ok a →
      names_of (JObj o) (mkIdentifier IP (str_address a) (str_address a) false).

(** *** Text without blanks *)
Lemma is_space_lower c : is_space (lower_char c) = is_space c.
Proof. destruct c as [[] [] [] [] [] [] [] []]; reflexivity. Qed.
Lemma has_space_lower v : has_space (lower v) = has_space v.
Proof.
  unfold has_space, lower. rewrite chars_of_chars. induction (chars v) as [|c l IH]; cbn; [done|].
  by rewrite is_space_lower, IH.
Qed.
Lemma linebreak_is_space c : is_linebreak c = true → is_space c = true.
Proof. destruct c as [[] [] [] [] [] [] [] []]; cbv; congruence. Qed.
Lemma has_space_false v : has_space v = false ↔ Forall (λ c, is_space c = false) (chars v).
Proof.
  unfold has_space. rewrite Forall_forall. split.
  - intros H c Hc. apply not_true_iff_false. intros Hs. apply not_true_iff_false in H. apply H, existsb_elem. by exists c.
  - intros H. apply not_true_iff_false. rewrite existsb_elem. intros (c & Hc & Hs). by rewrite H in Hs.
Qed.
Lemma splitlines_go_plain cur l : Forall (λ c, is_space c = false) l →
  splitlines_go cur l = match rev cur ++ l with [] => [] | w => [w] end.
Proof.
  revert cur. induction l as [|c l IH]; intros cur Hl; cbn.
  - rewrite app_nil_r. destruct cur as [|d cur]; [done|]. cbn. by destruct (rev cur ++ [d]) eqn:E; [by destruct (rev cur)|].
  - inversion_clear Hl as [|? ? Hc Hl']. destruct (is_linebreak c) eqn:Hb; [by apply linebreak_is_space in Hb; congruence|].
    rewrite IH by done. cbn. by rewrite <- app_assoc.
Qed.
Lemma splitlines_plain s : s ≠ "" → has_space s = false → splitlines s = [s].
Proof.
  intros Hs Hsp%has_space_false. unfold splitlines. rewrite splitlines_go_plain by done. cbn.
  destruct (chars s) eqn:E; [by destruct s|]. cbn [map]. by rewrite <- E, of_chars_chars.
Qed.
Lemma strip_plain s : has_space s = false → strip s = s.
Proof.
  intros H%has_space_false. apply strip_fixed, strip_chars_fixed. rewrite Forall_forall in H. unfold no_space_at. split.
  - destruct (head (chars s)) eqn:E; [|done]. apply H. by apply head_Some_elem_of.
  - destruct (last (chars s)) eqn:E; [|done]. apply H. by apply last_Some_elem_of.
Qed.
Lemma has_space_app s t : has_space (s +:+ t) = has_space s || has_space t.
Proof. unfold has_space. by rewrite chars_app, existsb_app. Qed.
(** One line in, one entry out. *)
Lemma parse_dns_line v : v ≠ "" → has_space v = false →
  parse_san_lines ("dns:" +:+ v) = (t ← normalize_san ("dns:" +:+ v); mret [t]).
Proof.
  intros Hv Hs. unfold parse_san_lines, nonblank_lines.
  assert (Hsp : has_space ("dns:" +:+ v) = false) by (by rewrite has_space_app, Hs).
  rewrite splitlines_plain by done. cbn [List.filter]. rewrite (strip_plain _ Hsp). rewrite bool_decide_eq_false_2 by done.
  cbn [negb map_each]. by destruct (normalize_san _).
Qed.
Lemma san_kind_dns v : has_space v = false → san_kind (strip ("dns:" +:+ v)) = ("dns", v).
Proof.
  intros Hs. rewrite strip_plain by by rewrite has_space_app, Hs. unfold san_kind, partition. rewrite chars_app.
  change (chars "dns:" ++ chars v) with (chars "dns" ++ ":"%char :: chars v).
  rewrite partition_chars_app by by_decide. rewrite !of_chars_chars. cbn [andb].
  rewrite bool_decide_eq_true_2 by by_decide. by rewrite (strip_plain v).
Qed.
Lemma hostname_nonempty v : is_hostname v = true → v ≠ "".
Proof. by intros H ->. Qed.
Lemma normalize_dns v t : has_space v = false →
  normalize_san ("dns:" +:+ v) = Ok t ↔ is_hostname v = true ∧ t = "DNS:" +:+ v.
Proof.
  intros Hs. rewrite normalize_san_ok, san_kind_dns by done. split.
  - intros (k & w & [= <- <-] & -> & (_ & _ & _ & _ & Hh & _)). split; [by apply Hh|done].
  - intros [Hh ->]. exists "dns", v. split_and!; [done|done|]. unfold valid_san_value.
    split_and!; [by_decide|by apply strip_plain|by apply hostname_nonempty|done|done|done].
Qed.
Lemma lower_empty v : lower v = "" → v = "".
Proof. by destruct v. Qed.

Lemma dns_identifier_ok raw i : dns_identifier raw = Ok i ↔ orderable_dns raw ∧ i = dns_name (lower raw).
Proof.
  unfold dns_identifier, orderable_dns. split.
  - intros Hd. inv_tx. apply orb_false_iff in H as [Hne%bool_decide_eq_false Hs].
    assert (Hls : has_space (lower raw) = false) by by rewrite has_space_lower.
    assert (Hln : lower raw ≠ "") by by intros ?%lower_empty.
    rewrite parse_dns_line in H1 by done. destruct (normalize_san _) as [t|e] eqn:Hn; cbn in H1.
    + apply normalize_dns in Hn as [Hh ->]; done.
    + by destruct (is_issue_error e).
  - intros [(Hs & Hh & Hip) ->].
    assert (Hls : has_space (lower raw) = false) by by rewrite has_space_lower.
    rewrite Hs, Hip, bool_decide_eq_false_2 by (intros ->; done). cbn [orb raise_if].
    rewrite parse_dns_line by (try done; by apply hostname_nonempty).
    rewrite (proj2 (normalize_dns (lower raw) _ Hls) (conj Hh eq_refl)). cbn. by rewrite bool_decide_eq_true_2.
Qed.
Lemma ip_identifier_ok v i : ip_identifier v = Ok i ↔
  ∃ a, ip_address v = Ok a ∧ i = mkIdentifier IP (str_address a) (str_address a) false.
Proof.
  unfold ip_identifier. destruct (ip_address v) as [a|e]; cbn.
  - split; [intros [= <-]; by exists a|by intros (? & [= <-] & ->)].
  - destruct (is_value_error e); naive_solver.
Qed.
Lemma parse_identifier_ok j i : parse_identifier j = Ok i ↔ names_of j i.
Proof.
  unfold parse_identifier. split.
  - destruct j as [| | | | | |o]; try done. destruct (member "value" o) as [| | | |v| |] eqn:Hv; try done.
    destruct (member "type" o) as [| | | |k| |] eqn:Hk; try done. repeat case_decide; subst; [| |done].
    + intros [Ho ->]%dns_identifier_ok. by apply names_dns.
    + intros (a & Ha & ->)%ip_identifier_ok. by eapply names_ip.
  - intros [o v Ht Hv Ho|o v a Ht Hv Ha]; rewrite Hv, Ht.
    + rewrite decide_True by done. by apply dns_identifier_ok.
    + rewrite decide_False, decide_True by done. apply ip_identifier_ok. by exists a.
Qed.
Lemma parse_identifiers_ok raw ids : parse_identifiers raw = Ok ids ↔
  ∃ entries parsed, raw = JList entries ∧ 1 ≤ Z.of_nat (length entries) ≤ MAX_IDENTIFIERS ∧
    Forall2 names_of entries parsed ∧ ids = dedup parsed.
Proof.
  assert (Hall : ∀ l parsed, map_each parse_identifier l = Ok parsed ↔ Forall2 names_of l parsed).
  { intros l parsed. rewrite map_each_ok. split; intros Hf; apply (Forall2_impl _ _ _ _ Hf); intros ? ?; apply parse_identifier_ok. }
  unfold parse_identifiers. split.
  - destruct raw as [| | | | |[|e l]|]; try done. intros Hd. inv_tx. apply Z.ltb_ge in H.
    exists (e :: l), x0. split_and!; [done|cbn; lia|done|by apply Hall|done].
  - intros (l & parsed & -> & Hn & Hf & ->). destruct l as [|e l]; [cbn in Hn; lia|].
    rewrite (proj2 (Z.ltb_ge _ _)) by apply Hn. cbn [raise_if]. rewrite (proj2 (Hall _ _) Hf). done.
Qed.

(** *** The shape of an accepted name *)
Lemma elem_split_chars sep c l : c ∈ l → c = sep ∨ ∃ w, w ∈ split_chars sep l ∧ c ∈ w.
Proof.
  induction l as [|d l IH]; [by intros ?%not_elem_of_nil|]. cbn. destruct (decide (d = sep)) as [->|Hd].
  - rewrite bool_decide_eq_true_2 by done. intros [->|Hc]%elem_of_cons; [by left|].
    destruct (IH Hc) as [->|(w & Hw & Hcw)]; [by left|]. right. exists w. split; [by right|done].
  - rewrite bool_decide_eq_false_2 by done. pose proof (split_chars_nonnil sep l).
    destruct (split_chars sep l) as [|w0 ws]; [done|]. intros [->|Hc]%elem_of_cons.
    + right. exists (d :: w0). split; left.
    + destruct (IH Hc) as [->|(w & [->|Hw]%elem_of_cons & Hcw)]; [by left|right..].
      * exists (d :: w0). split; [left|by right].
      * exists w. split; [by right|done].
Qed.
Lemma label_no_star w : is_label w = true → "*"%char ∉ w.
Proof.
  unfold is_label. destruct w as [|a w]; [done|]. destruct (last (a :: w)); [|done].
  rewrite !andb_true_iff. intros [_ H] Hin. rewrite forallb_elem in H. by specialize (H _ Hin).
Qed.
Lemma labels_no_star l : forallb is_label (split_chars "." l) = true → "*"%char ∉ l.
Proof.
  intros H Hin. destruct (elem_split_chars "." _ _ Hin) as [|(w & Hw & Hc)]; [done|].
  rewrite forallb_elem in H. by apply (label_no_star w); [apply H|].
Qed.
Lemma drop_wildcard_no_star l : "*"%char ∉ l → drop_wildcard l = l.
Proof. intros Hn. destruct l as [|c l]; [done|]. rewrite not_elem_of_cons in Hn. by destruct c as [[] [] [] [] [] [] [] []]; naive_solver. Qed.
Lemma drop_newline_plain l : Forall (λ c, is_space c = false) l → drop_final_newline l = l.
Proof.
  intros H. unfold drop_final_newline. destruct (last l) as [c|] eqn:E; [|done].
  apply last_Some_elem_of in E. rewrite Forall_forall in H. specialize (H _ E). by destruct c as [[] [] [] [] [] [] [] []].
Qed.
Lemma hostname_plain v : has_space v = false →
  is_hostname v = true ↔ py_len v ≤ MAX_HOSTNAME_LENGTH ∧ forallb is_label (split_chars "." (drop_wildcard (chars v))) = true.
Proof.
  intros Hs%has_space_false. unfold is_hostname, matches_hostname_re. by rewrite drop_newline_plain, andb_true_iff, Z.leb_le.
Qed.
Lemma hostname_base v : has_space v = false → is_hostname v = true →
  let b := base_value (dns_name v) in
  v = (if startswith v "*." then "*." else "") +:+ b ∧ is_hostname b = true ∧ contains "*" b = false ∧ has_space b = false.
Proof.
  intros Hs Hh. pose proof Hh as [Hlen Hl]%hostname_plain; [|done]. cbn. destruct (startswith v "*.") eqn:Hw.
  - apply startswith_spec in Hw as [b ->].
    assert (Hb : str_drop 2 ("*." +:+ b) = b) by (unfold str_drop; cbn; apply of_chars_chars).
    rewrite chars_app in Hl. change (chars "*." ++ chars b) with ("*"%char :: "."%char :: chars b) in Hl.
    cbn [drop_wildcard] in Hl. rewrite Hb.
    rewrite has_space_app in Hs. apply orb_false_iff in Hs as [_ Hs]. pose proof (labels_no_star _ Hl) as Hstar.
    split_and!; [done| | |done].
    + apply hostname_plain; [done|]. rewrite drop_wildcard_no_star by done. split; [|done].
      unfold py_len in *. rewrite chars_app, length_app in Hlen. cbn in Hlen. lia.
    + unfold contains. apply not_true_iff_false. rewrite existsb_elem. intros (c & Hc & ->%bool_decide_eq_true). done.
  - assert (Hdw : drop_wildcard (chars v) = chars v).
    { destruct (chars v) as [|c [|d l]] eqn:E; [done|by destruct c as [[] [] [] [] [] [] [] []]|].
      destruct (decide (c = "*"%char ∧ d = "."%char)) as [[-> ->]|Hn].
      - exfalso. apply not_true_iff_false in Hw. apply Hw. unfold startswith. rewrite E. apply bool_decide_eq_true. by exists l.
      - destruct c as [[] [] [] [] [] [] [] []]; try done; destruct d as [[] [] [] [] [] [] [] []]; try done; naive_solver. }
    rewrite Hdw in Hl. pose proof (labels_no_star _ Hl) as Hstar. split_and!; [done|done| |done].
    unfold contains. apply not_true_iff_false. rewrite existsb_elem. intros (c & Hc & ->%bool_decide_eq_true). done.
Qed.

Ltac type_cases Ht :=
  repeat (apply elem_of_cons in Ht as [->|Ht]); [..|by apply not_elem_of_nil in Ht];
  (split; [by_decide|split; done]).

(** What an order may ask a certificate for: a name the SAN policy takes as it
    stands, or an address in its canonical spelling. *)
Inductive issuable : Identifier → Prop :=
  | issuable_dns (v b : string) (w : bool) :
      v = (if w then "*." else "") +:+ b → is_hostname b = true → contains "*" b = false →
      lower v = v → is_ip v = false → normalize_san ("DNS:" +:+ v) = Ok ("DNS:" +:+ v) →
      issuable (mkIdentifier DNS v b w)
  | issuable_ip a : well_sized (ip_value a) → issuable (mkIdentifier IP (str_address a) (str_address a) false).

Lemma normalize_canonical v : has_space v = false → is_hostname v = true →
  normalize_san ("DNS:" +:+ v) = Ok ("DNS:" +:+ v).
Proof.
  intros Hs Hh. apply normalize_san_ok. exists "dns", v. assert (Hp : strip v = v) by by apply strip_plain.
  split_and!; [|done|].
  - rewrite strip_plain by by rewrite has_space_app, Hs. by apply (san_kind_text "dns"); [by_decide|].
  - unfold valid_san_value. split_and!; [by_decide|done|by apply hostname_nonempty|done|done|done].
Qed.
Lemma names_of_issuable j i : names_of j i → issuable i.
Proof.
  intros [o v _ _ (Hs & Hh & Hip)|o v a _ _ Ha].
  - assert (Hls : has_space (lower v) = false) by by rewrite has_space_lower.
    pose proof (hostname_base _ Hls Hh) as (Hv & Hb & Hstar & _). unfold dns_name. cbn in *.
    apply issuable_dns; [done|done|done|apply lower_idemp|done|by apply normalize_canonical].
  - apply issuable_ip. by eapply ip_address_sized.
Qed.

(** The names of an order, exactly.  The payload is accepted if and only if
    it is an array of one to a hundred objects, each with type [dns] and a
    value that is a hostname of the SAN policy, or type [ip] and an address;
    the result is the names in order, DNS names folded to lower case, addresses
    in one spelling, a name asked for twice listed once. *)
Theorem parse_identifiers_exact raw ids : parse_identifiers raw = Ok ids ↔
  ∃ entries parsed, raw = JList entries ∧ 1 ≤ Z.of_nat (length entries) ≤ MAX_IDENTIFIERS ∧
    Forall2 names_of entries parsed ∧ ids = dedup parsed.
Proof. apply parse_identifiers_ok. Qed.

(** Nothing is smuggled into an order.  Every name of an accepted order is
    one the issuance form would take as it stands; what has to be proven for
    it is the name without the star, itself a hostname; it has at least one
    challenge, a wildcard only [dns-01], an address never [dns-01]; and no name
    is listed twice. *)
Theorem order_names_issuable raw ids : parse_identifiers raw = Ok ids →
  NoDup ids ∧ ids ≠ [] ∧ Z.of_nat (length ids) ≤ MAX_IDENTIFIERS ∧
  ∀ i, i ∈ ids → issuable i ∧ challenge_types_for i ≠ [] ∧
    ∀ t, t ∈ challenge_types_for i → t ∈ CHALLENGE_TYPES ∧ (wildcard i = true → t = "dns-01") ∧ (type i = IP → t ≠ "dns-01").
Proof.
  intros (entries & parsed & -> & Hn & Hf & ->)%parse_identifiers_ok. pose proof (Forall2_length _ _ _ Hf) as Hlen.
  split_and!; [apply NoDup_dedup| |pose proof (length_dedup parsed); lia|].
  - intros ->%dedup_nil_inv. cbn in Hlen. lia.
  - intros i Hi. apply (proj1 (elem_of_dedup _ _)), list_elem_of_lookup in Hi as [k Hk].
    destruct (Forall2_lookup_r _ _ _ _ _ Hf Hk) as (j & _ & Hj). pose proof (names_of_issuable _ _ Hj) as His.
    split; [done|]. unfold challenge_types_for. destruct His as [v b w|a]; cbn [wildcard type]; [|by split; [|intros t Ht; type_cases Ht]].
    destruct w; (split; [done|]); intros t Ht; type_cases Ht.
Qed.

(** ** Contacts *)
Definition contact_ok (s : string) : Prop :=
  py_len s ≤ MAX_CONTACT_LENGTH ∧ has_space s = false ∧
  ∃ scheme rest, s = scheme +:+ ":" +:+ rest ∧ scheme ≠ "" ∧ rest ≠ "" ∧ forallb is_ascii_letter (chars scheme) = true.
Lemma partition_chars_found sep l a b : partition_chars sep l = (a, true, b) → l = a ++ sep :: b.
Proof.
  revert a b. induction l as [|c l IH]; intros a b; cbn; [done|]. case_bool_decide as Hc; [by intros [= <- <-]; subst|].
  destruct (partition_chars sep l) as [[a' f] b']. intros [= <- -> ->]. cbn. by rewrite (IH a' b).
Qed.
Lemma partition_found sep s a b : partition sep s = (a, true, b) → s = a +:+ String sep b.
Proof.
  unfold partition. destruct (partition_chars sep (chars s)) as [[l f] r] eqn:E. intros [= <- -> <-].
  apply partition_chars_found in E. rewrite <- (of_chars_chars s), E. clear E.
  rewrite <- (of_chars_chars (of_chars l +:+ _)), chars_app, chars_of_chars. cbn. by rewrite chars_of_chars.
Qed.
Lemma letters_no_colon s : forallb is_ascii_letter (chars s) = true → ":"%char ∉ chars s.
Proof. intros H Hin. rewrite forallb_elem in H. by specialize (H _ Hin). Qed.
Lemma parse_contact_ok j s : parse_contact j = Ok s ↔ j = JStr s ∧ contact_ok s.
Proof.
  unfold parse_contact, contact_ok. split.
  - destruct j as [| | | |s'| |]; try done. destruct (partition ":" s') as [[scheme sep] rest] eqn:Hp. intros Hd. inv_tx.
    apply orb_false_iff in H as [Hne%bool_decide_eq_false Hlen%Z.ltb_ge].
    rewrite !orb_false_iff in *. destruct_and!. subst. split; [done|]. destruct sep; [|done].
    rewrite !bool_decide_eq_false, !negb_false_iff in *. split_and!; [done|done|]. exists scheme, rest.
    split_and!; [by apply partition_found in Hp|done|done|done].
  - intros (-> & Hlen & Hsp & scheme & rest & Hs & Hsn & Hrn & Hl).
    rewrite (proj2 (Z.ltb_ge _ _) Hlen), bool_decide_eq_false_2 by (intros ->; by destruct scheme). cbn [orb raise_if].
    assert (Hp : partition ":" s = (scheme, true, rest)).
    { unfold partition. rewrite Hs, !chars_app. change (chars ":" ++ chars rest) with (":"%char :: chars rest).
      rewrite partition_chars_app by by apply letters_no_colon. by rewrite !of_chars_chars. }
    rewrite Hp, Hl, Hsp, !bool_decide_eq_false_2 by done. done.
Qed.

(** Contacts, exactly.  An account can hold at most ten contacts, each a URL
    of at most 255 characters with an alphabetic scheme, something after the
    colon and no blank; they are stored as they were sent. *)
Theorem parse_contacts_exact raw cs : parse_contacts raw = Ok cs ↔
  raw = JList (map JStr cs) ∧ Z.of_nat (length cs) ≤ MAX_CONTACTS ∧ Forall contact_ok cs.
Proof.
  unfold parse_contacts. split.
  - destruct raw as [| | | | |l|]; try done. intros Hd. inv_tx. apply map_each_ok in Hd. apply Z.ltb_ge in H.
    pose proof (Forall2_length _ _ _ Hd) as Hlen. rewrite Hlen in H. split_and!; [f_equal|done|].
    + clear -Hd. induction Hd as [|j s l cs Hj _ IH]; [done|]. apply parse_contact_ok in Hj as [-> _]. cbn. by rewrite <- IH.
    + clear -Hd. induction Hd as [|j s l cs Hj _ IH]; constructor; [|done]. by apply parse_contact_ok in Hj as [_ ?].
  - intros (-> & Hn & Hf). rewrite length_map, (proj2 (Z.ltb_ge _ _) Hn). cbn [raise_if]. apply map_each_ok.
    induction Hf as [|s cs Hs _ IH]; constructor; [by apply parse_contact_ok|]. apply IH. cbn in Hn. lia.
Qed.

(** ** At work *)
Module NameExamples.
Definition dns_entry (v : string) : json := JObj [("type", JStr "dns"); ("value", JStr v)].
Definition ip_entry (v : string) : json := JObj [("type", JStr "ip"); ("value", JStr v)].
Definition asked : json := JList [dns_entry "*.NAS.lan"; ip_entry "::FFFF:1"; dns_entry "*.nas.LAN"].
Definition understood : list Identifier :=
  [mkIdentifier DNS "*.nas.lan" "nas.lan" true; mkIdentifier IP "::ffff:1" "::ffff:1" false].
Lemma order_names_issuable_witness :
  parse_identifiers asked = Ok understood ∧ NoDup understood.
Proof.
  assert (H : parse_identifiers asked = Ok understood) by (vm_compute; reflexivity).
  split; [exact H|]. exact (proj1 (order_names_issuable _ _ H)).
Defined.
Example an_address_is_not_a_name : parse_identifiers (JList [dns_entry "192.0.2.1"]) =
  Raise (AcmeError "rejectedIdentifier" "an IP address must be requested as an ip identifier: '192.0.2.1'" 400 [] []).
Proof. vm_compute. reflexivity. Qed.
Example one_line_one_name : parse_identifiers (JList [dns_entry ("a.lan" +:+ of_chars [char_of 10] +:+ "b.lan")]) =
  Raise (AcmeError "rejectedIdentifier" "not a valid hostname: 'a.lan\nb.lan'" 400 [] []).
Proof. vm_compute. reflexivity. Qed.
End NameExamples.
