(* ===== verification/AcmeService.v ===== *)
(** * [cabin.acme.service]: accounts, orders, authorizations, challenges

    The rows an operation is handed were loaded earlier, in the same request:
    the factory is made with [expire_on_commit=False], so they can be older
    than the database.  A setter writes the columns that differ from the loaded
    row and leaves the others as they are now; [refresh] reads the row again. *)

From S2P Require Import Prelude PyStr Json PyTime IPAddr X509Lib Leaf Store CaService Grants Identity AcmeNames.
#[local] Open Scope Z_scope.

Definition ORDER_LIFETIME : Z := days 7.
Definition AUTHZ_LIFETIME : Z := days 7.

(** [jws.AccountKey] as the account table keeps it. *)
Record AccountKey := mkAccountKey { jwk : gmap string string; thumbprint : string }.

(** The value of a column after a flush: written if it differs from what was loaded. *)
Definition write_col {A} `{EqDecision A} (loaded new current : A) : A :=
  if decide (loaded = new) then current else new.

Section service.
Context {X : X509Lib} {SS : SecretStore} {CR : Crypto}.

Definition row_gone : Exc := StaleDataError "UPDATE statement expected to update 1 row(s); 0 were matched.".
Definition cannot_refresh : Exc := InvalidRequestError "Could not refresh instance".
(** [db.commit()] while other requests commit: they change what the next
    statement sees. *)
Definition others_commit (others : DB → DB) : Tx DB unit :=
  λ s, (Ok (), mkSession (others (work s)) (others (durable s))).

(** ** Accounts *)
Definition new_id (draw : Z) : string := token_urlsafe draw.
(** [models.kid_hash] *)
Definition kid_hash_of (account_id : string) : string := sha256_hex account_id.
Definition find_account_by_key (tp : string) (db : DB) : option AccountRow :=
  first_where (accounts db) (λ a, bool_decide (jwk_thumbprint a = tp)).
Definition new_account (key : AccountKey) (issuer_id : Z) (cs : option (list string)) (tos_agreed : bool)
    (account_id : string) (now : Z) : AccountRow :=
  mkAccount account_id (kid_hash_of account_id) (jwk key) (thumbprint key) acc_valid cs
    (if tos_agreed then Some (iso now) else None) (iso now) issuer_id.
(** What the insert can run into: the primary key, the two unique columns, the
    issuer's foreign key. *)
Definition account_conflict (row : AccountRow) (db : DB) : option Exc :=
  if bool_decide (is_Some (accounts db !! acc_id row))
     || nonempty (rows_where (accounts db) (λ a, bool_decide (kid_hash a = kid_hash row)))
     || nonempty (rows_where (accounts db) (λ a, bool_decide (jwk_thumbprint a = jwk_thumbprint row)))
  then Some unique_failed
  else if bool_decide (cas db !! acc_issuer row = None) then Some foreign_key_failed
  else None.
Definition get_or_create_account (others : DB → DB) (key : AccountKey) (issuer_id : Z)
    (cs : option (list string)) (tos_agreed : bool) (draw now : Z) : Tx DB (AccountRow * bool) :=
  existing ← query (find_account_by_key (thumbprint key));
  match existing with
  | Some account => mret (account, false)
  | None =>
      let account := new_account key issuer_id cs tos_agreed (new_id draw) now in
      _ ← others_commit others;
      conflict ← query (account_conflict account);
      match conflict with
      | Some e =>
          _ ← rollback;
          raced ← query (find_account_by_key (thumbprint key));
          match raced with
          | None => mthrow e
          | Some account => mret (account, false)
          end
      | None =>
          _ ← modify (on_accounts (λ m, <[acc_id account := account]> m));
          _ ← commit;
          mret (account, true)
      end
  end.
Definition account_issuer (account : AccountRow) : Tx DB CARow := get_ca (acc_issuer account).

Definition update_account (account : AccountRow) (f : AccountRow → AccountRow) : Tx DB unit :=
  gone ← query (λ db, bool_decide (accounts db !! acc_id account = None));
  _ ← raise_if gone row_gone;
  modify (on_accounts (alter f (acc_id account))).
Definition with_contacts (cs : option (list string)) (a : AccountRow) : AccountRow :=
  mkAccount (acc_id a) (kid_hash a) (jwk_json a) (jwk_thumbprint a) (acc_status a) cs (tos_agreed_at a)
    (acc_created a) (acc_issuer a).
Definition with_acc_status (s : AccountStatus) (a : AccountRow) : AccountRow :=
  mkAccount (acc_id a) (kid_hash a) (jwk_json a) (jwk_thumbprint a) s (contacts a) (tos_agreed_at a)
    (acc_created a) (acc_issuer a).
Definition with_key (j : gmap string string) (tp : string) (a : AccountRow) : AccountRow :=
  mkAccount (acc_id a) (kid_hash a) j tp (acc_status a) (contacts a) (tos_agreed_at a)
    (acc_created a) (acc_issuer a).
Definition set_contacts (account : AccountRow) (cs : list string) : Tx DB unit :=
  _ ← update_account account (λ a, with_contacts (write_col (contacts account) (Some cs) (contacts a)) a);
  commit.
Definition deactivate_account (account : AccountRow) : Tx DB unit :=
  _ ← update_account account (λ a, with_acc_status (write_col (acc_status account) acc_deactivated (acc_status a)) a);
  commit.
(** The unique index on the thumbprint refuses a key another account has. *)
Definition rotate_account_key (account : AccountRow) (key : AccountKey) : Tx DB unit :=
  taken ← query (λ db, nonempty (rows_where (accounts db) (λ a,
    bool_decide (jwk_thumbprint a = thumbprint key) && negb (bool_decide (acc_id a = acc_id account)))));
  _ ← raise_if (negb (bool_decide (jwk_thumbprint account = thumbprint key)) && taken) unique_failed;
  _ ← update_account account (λ a, with_key (write_col (jwk_json account) (jwk key) (jwk_json a))
        (write_col (jwk_thumbprint account) (thumbprint key) (jwk_thumbprint a)) a);
  commit.
Definition account_contacts (account : AccountRow) : list string := default [] (contacts account).

(** ** Orders *)
Definition add_order (row : OrderRow) : Tx DB unit :=
  taken ← query (λ db, bool_decide (is_Some (orders db !! ord_id row)));
  _ ← raise_if taken unique_failed;
  orphan ← query (λ db, bool_decide (accounts db !! ord_account row = None));
  _ ← raise_if orphan foreign_key_failed;
  modify (on_orders (λ m, <[ord_id row := row]> m)).
Definition add_authz (row : AuthzRow) : Tx DB unit :=
  taken ← query (λ db, bool_decide (is_Some (authzs db !! authz_id row)));
  _ ← raise_if taken unique_failed;
  orphan ← query (λ db, bool_decide (orders db !! authz_order row = None));
  _ ← raise_if orphan foreign_key_failed;
  modify (on_authzs (λ m, <[authz_id row := row]> m)).
Definition add_challenge (row : ChallengeRow) : Tx DB unit :=
  taken ← query (λ db, bool_decide (is_Some (challenges db !! chall_id row)));
  _ ← raise_if taken unique_failed;
  orphan ← query (λ db, bool_decide (authzs db !! chall_authz row = None));
  _ ← raise_if orphan foreign_key_failed;
  modify (on_challenges (λ m, <[chall_id row := row]> m)).

(** The [k]-th value [secrets] gives a request is [draws k]: one for the order,
    one per authorization, two per challenge. *)
Definition pending_challenge (authz : string) (draws : nat → Z) (k : nat) (t : string) : ChallengeRow :=
  mkChallenge (new_id (draws k)) authz t (token_urlsafe (draws (S k))) chall_pending None None.
Fixpoint pending_challenges (authz : string) (draws : nat → Z) (k : nat) (types : list string) : list ChallengeRow :=
  match types with
  | [] => []
  | t :: types => pending_challenge authz draws k t :: pending_challenges authz draws (k + 2) types
  end.
Definition pending_authz (order_id : string) (now : Z) (draw : Z) (i : Identifier) : AuthzRow :=
  mkAuthz (new_id draw) order_id (type i) (base_value i) authz_pending (iso (now + AUTHZ_LIFETIME)) (wildcard i).
Fixpoint add_authzs (order_id : string) (now : Z) (draws : nat → Z) (k : nat) (ids : list Identifier) : Tx DB unit :=
  match ids with
  | [] => mret ()
  | i :: ids =>
      let authz := pending_authz order_id now (draws k) i in
      _ ← add_authz authz;
      let rows := pending_challenges (authz_id authz) draws (S k) (challenge_types_for i) in
      _ ← tx_for add_challenge rows;
      add_authzs order_id now draws (S k + 2 * length rows)%nat ids
  end.
Definition pending_order (account_id : string) (ids : list Identifier) (not_before not_after : option string)
    (draw now : Z) : OrderRow :=
  mkOrder (new_id draw) account_id ord_pending (map as_json ids) not_before not_after
    (iso (now + ORDER_LIFETIME)) None None (iso now).
Definition create_order (account : AccountRow) (ids : list Identifier) (not_before not_after : option string)
    (draws : nat → Z) (now : Z) : Tx DB OrderRow :=
  let order := pending_order (acc_id account) ids not_before not_after (draws 0%nat) now in
  _ ← add_order order;
  _ ← add_authzs (ord_id order) now draws 1 ids;
  _ ← commit;
  mret order.
Definition order_identifiers (order : OrderRow) : list (string * string) := ord_identifiers order.

(** [_has_expired]: the columns hold text of one layout. *)
Definition has_expired (expires_at : string) (now : Z) : bool := str_leb expires_at (iso now).
Definition authorization_status (authz : AuthzRow) (now : Z) : AuthorizationStatus :=
  if bool_decide (authz_status authz = authz_pending ∨ authz_status authz = authz_valid)
     && has_expired (authz_expires authz) now
  then authz_expired else authz_status authz.
Definition get_order (n : string) (db : DB) : option OrderRow := orders db !! n.
Definition get_authorization (n : string) (db : DB) : option AuthzRow := authzs db !! n.
Definition get_challenge (n : string) (db : DB) : option ChallengeRow := challenges db !! n.
Definition authorizations_of (order : OrderRow) (db : DB) : list AuthzRow :=
  rows_where (authzs db) (λ a, bool_decide (authz_order a = ord_id order)).
Definition challenges_of (authz : AuthzRow) (db : DB) : list ChallengeRow :=
  rows_where (challenges db) (λ c, bool_decide (chall_authz c = authz_id authz)).
Definition open_order (s : OrderStatus) : bool := bool_decide (s = ord_pending ∨ s = ord_ready).
Definition order_status (order : OrderRow) (now : Z) (db : DB) : OrderStatus :=
  if negb (open_order (ord_status order)) then ord_status order
  else if has_expired (ord_expires order) now then ord_invalid
  else
    let statuses := map (λ a, authorization_status a now) (authorizations_of order db) in
    if existsb (λ s, bool_decide (s = authz_invalid ∨ s = authz_expired)) statuses then ord_invalid
    else if nonempty statuses && forallb (λ s, bool_decide (s = authz_valid)) statuses then ord_ready
    else ord_pending.

(** ** What a validation attempt does *)
Definition with_chall (st : ChallengeStatus) (at_ err : option string) (c : ChallengeRow) : ChallengeRow :=
  mkChallenge (chall_id c) (chall_authz c) (chall_type c) (chall_token c) st at_ err.
Definition with_authz_status (st : AuthorizationStatus) (a : AuthzRow) : AuthzRow :=
  mkAuthz (authz_id a) (authz_order a) (identifier_type a) (identifier_value a) st (authz_expires a) (authz_wildcard a).
Definition refresh_challenge (n : string) : Tx DB ChallengeRow :=
  row ← query (λ db, challenges db !! n);
  lift (of_option row cannot_refresh).
(** One conditional UPDATE: whether it matched the row. *)
Definition update_challenge_where (n : string) (st : ChallengeStatus) (f : ChallengeRow → ChallengeRow) : Tx DB bool :=
  let test := λ c : ChallengeRow, bool_decide (chall_status c = st) in
  hit ← query (λ db, fst (update_where (challenges db) n test f));
  _ ← modify (on_challenges (λ m, snd (update_where m n test f)));
  mret hit.
Definition authz_text (s : AuthorizationStatus) : string :=
  match s with
  | authz_pending => "pending" | authz_valid => "valid" | authz_invalid => "invalid" | authz_expired => "expired"
  end.
Definition begin_challenge (challenge : ChallengeRow) (authz : AuthzRow) (now : Z) : Tx DB (bool * ChallengeRow) :=
  if decide (chall_status challenge = chall_processing ∨ chall_status challenge = chall_valid) then mret (false, challenge)
  else
    _ ← raise_if (bool_decide (chall_status challenge = chall_invalid))
          (acme_error malformed "this challenge has already failed; place a new order to try again");
    let status := authorization_status authz now in
    _ ← raise_if (negb (bool_decide (status = authz_pending)))
          (acme_error malformed ("this authorization is " +:+ authz_text status +:+ " and cannot be validated"));
    claimed ← update_challenge_where (chall_id challenge) chall_pending
                (λ c, with_chall chall_processing (validated_at c) None c);
    _ ← commit;
    fresh ← refresh_challenge (chall_id challenge);
    mret (claimed, fresh).
Definition record_challenge_success (challenge : ChallengeRow) (authz : AuthzRow) (now : Z) : Tx DB unit :=
  let moment := iso now in
  gone ← query (λ db, bool_decide (challenges db !! chall_id challenge = None)
                      || bool_decide (authzs db !! authz_id authz = None));
  _ ← raise_if gone row_gone;
  _ ← modify (on_challenges (alter (λ c, with_chall
        (write_col (chall_status challenge) chall_valid (chall_status c))
        (write_col (validated_at challenge) (Some moment) (validated_at c))
        (write_col (chall_error challenge) None (chall_error c)) c) (chall_id challenge)));
  _ ← modify (on_authzs (alter (λ a, with_authz_status
        (write_col (authz_status authz) authz_valid (authz_status a)) a) (authz_id authz)));
  commit.
(** [problem] is the text of the problem document. *)
Definition record_challenge_failure (challenge : ChallengeRow) (problem : string) : Tx DB ChallengeRow :=
  _ ← update_challenge_where (chall_id challenge) chall_processing
        (λ c, with_chall chall_invalid (validated_at c) (Some problem) c);
  _ ← commit;
  refresh_challenge (chall_id challenge).

(** ** What finalization does *)
Definition with_order (st : OrderStatus) (cert : option Z) (err : option string) (o : OrderRow) : OrderRow :=
  mkOrder (ord_id o) (ord_account o) st (ord_identifiers o) (ord_not_before o) (ord_not_after o)
    (ord_expires o) cert err (ord_created o).
Definition refresh_order (n : string) : Tx DB OrderRow :=
  row ← query (λ db, orders db !! n);
  lift (of_option row cannot_refresh).
Definition claimable (o : OrderRow) : bool := bool_decide (certificate_id o = None) && open_order (ord_status o).
Definition claimed_order (o : OrderRow) : OrderRow := with_order ord_processing (certificate_id o) None o.
Definition claim_for_issuance (order : OrderRow) : Tx DB (bool * OrderRow) :=
  hit ← query (λ db, fst (update_where (orders db) (ord_id order) claimable claimed_order));
  _ ← modify (on_orders (λ m, snd (update_where m (ord_id order) claimable claimed_order)));
  _ ← commit;
  fresh ← refresh_order (ord_id order);
  mret (hit, fresh).
Definition update_order (order : OrderRow) (f : OrderRow → OrderRow) : Tx DB unit :=
  gone ← query (λ db, bool_decide (orders db !! ord_id order = None));
  _ ← raise_if gone row_gone;
  modify (on_orders (alter f (ord_id order))).
Definition release_claim (order : OrderRow) : Tx DB unit :=
  _ ← update_order order (λ o, with_order (write_col (ord_status order) ord_pending (ord_status o))
        (certificate_id o) (ord_error o) o);
  commit.
(** The row as the caller's object has it afterwards is the result. *)
Definition attach_certificate (order : OrderRow) (cert : Z) : Tx DB OrderRow :=
  orphan ← query (λ db, bool_decide (certs db !! cert = None));
  _ ← raise_if orphan foreign_key_failed;
  _ ← update_order order (λ o, with_order (write_col (ord_status order) ord_valid (ord_status o))
        (write_col (certificate_id order) (Some cert) (certificate_id o)) (ord_error o) o);
  _ ← commit;
  mret (with_order ord_valid (Some cert) (ord_error order) order).
Definition order_for_certificate (cert : Z) (db : DB) : option OrderRow :=
  first_where (orders db) (λ o, bool_decide (certificate_id o = Some cert)).
Definition placed_first (a b : OrderRow) : Prop :=
  str_ltb (ord_created a) (ord_created b) = true ∨ ord_created a = ord_created b ∧ str_le (ord_id a) (ord_id b).
#[export] Instance placed_first_dec : RelDecision placed_first.
Proof. intros a b. unfold placed_first. apply _. Defined.
Definition orders_of (account : AccountRow) (db : DB) : list OrderRow :=
  merge_sort placed_first (rows_where (orders db) (λ o, bool_decide (ord_account o = acc_id account))).

End service.

(** ** Registration *)
Section registration.
Context {X : X509Lib} {SS : SecretStore} {CR : Crypto}.

Record accounts_ok (db : DB) : Prop := {
  acc_key n a : accounts db !! n = Some a → acc_id a = n ∧ kid_hash a = kid_hash_of n;
  acc_one_key n m a b : accounts db !! n = Some a → accounts db !! m = Some b →
    jwk_thumbprint a = jwk_thumbprint b → n = m }.

Lemma find_by_key_some tp db a : accounts_ok db → find_account_by_key tp db = Some a →
  accounts db !! acc_id a = Some a ∧ jwk_thumbprint a = tp.
Proof.
  intros Hok [Ht%bool_decide_eq_true [n Hn]]%first_where_some. split; [|done]. by destruct (acc_key _ Hok _ _ Hn) as [-> _].
Qed.
Lemma find_by_key_none tp db : find_account_by_key tp db = None ↔ ∀ n a, accounts db !! n = Some a → jwk_thumbprint a ≠ tp.
Proof.
  unfold find_account_by_key. rewrite first_where_none. split; intros H n a Hn; specialize (H n a Hn).
  - by apply bool_decide_eq_false in H.
  - by apply bool_decide_eq_false.
Qed.
Lemma find_by_key_unique db n a : accounts_ok db → accounts db !! n = Some a →
  find_account_by_key (jwk_thumbprint a) db = Some a.
Proof.
  intros Hok Hn. destruct (find_account_by_key (jwk_thumbprint a) db) as [b|] eqn:E.
  - destruct (find_by_key_some _ _ _ Hok E) as [Hb Ht]. by pose proof (acc_one_key _ Hok _ _ _ _ Hn Hb (eq_sym Ht)); simplify_eq.
  - by pose proof (proj1 (find_by_key_none _ _) E _ _ Hn).
Qed.
Lemma account_conflict_none row db : account_conflict row db = None →
  accounts db !! acc_id row = None ∧ (∀ n a, accounts db !! n = Some a → jwk_thumbprint a ≠ jwk_thumbprint row).
Proof.
  unfold account_conflict. destruct (_ || _) eqn:E; [done|]. intros _. rewrite !orb_false_iff in E. destruct E as [[E1 _] E3].
  apply bool_decide_eq_false, eq_None_not_Some in E1. split; [done|]. intros n a Hn.
  apply nonempty_false in E3. rewrite rows_where_nil in E3. by specialize (E3 n a Hn); apply bool_decide_eq_false in E3.
Qed.
Lemma accounts_ok_insert db a : accounts_ok db → kid_hash a = kid_hash_of (acc_id a) →
  (∀ n b, accounts db !! n = Some b → n ≠ acc_id a → jwk_thumbprint b ≠ jwk_thumbprint a) →
  accounts_ok (on_accounts (λ m, <[acc_id a := a]> m) db).
Proof.
  intros Hok Hk Hnew. split; cbn.
  - intros n b [[<- <-]|[Hne Hb]]%lookup_insert_Some; [done|by apply (acc_key _ Hok)].
  - intros n m b c Hb Hc Ht. destruct (decide (n = m)) as [|Hnm]; [done|]. exfalso. revert Hb Hc.
    rewrite !lookup_insert_Some. intros [[<- <-]|[Hn Hb]] [[<- <-]|[Hm Hc]]; [done|..].
    + by apply (Hnew m c).
    + by apply (Hnew n b).
    + apply Hnm. by apply (acc_one_key _ Hok n m b c).
Qed.

(** What a registration does, whatever happens between its statements. *)
Lemma request_register others key issuer cs tos draw now db :
  let a0 := new_account key issuer cs tos (new_id draw) now in
  request (get_or_create_account others key issuer cs tos draw now) db =
  match find_account_by_key (thumbprint key) db with
  | Some a => (Ok (a, false), db)
  | None => match account_conflict a0 (others db) with
            | None => (Ok (a0, true), on_accounts (λ m, <[acc_id a0 := a0]> m) (others db))
            | Some e => (match find_account_by_key (thumbprint key) (others db) with
                         | Some a => Ok (a, false) | None => Raise e end, others db)
            end
  end.
Proof.
  unfold get_or_create_account, request. cbn zeta. rewrite Tx_bind_eq. cbn [query fresh_session work].
  destruct (find_account_by_key _ db) as [a|]; [done|]. rewrite Tx_bind_eq. cbn [others_commit work durable].
  rewrite Tx_bind_eq. cbn [query work]. destruct (account_conflict _ _) as [e|]; [|done].
  rewrite Tx_bind_eq. cbn [rollback]. rewrite Tx_bind_eq. cbn [query work durable fresh_session]. by destruct (find_account_by_key _ (others db)).
Qed.

(** Registration is idempotent on the key.  Whatever other requests commit
    between the lookup and the insert, a registration that answers leaves
    exactly one account with the key, and that is the one it returns; [created]
    is true exactly when this request inserted it, with the issuer it was
    asked for; and a later registration with the key, whatever else it says,
    returns the same account and changes nothing. *)
Theorem registration_by_key others key issuer cs tos draw now db :
  accounts_ok db → accounts_ok (others db) →
  let '(r, db') := request (get_or_create_account others key issuer cs tos draw now) db in
  accounts_ok db' ∧
  match r with
  | Ok (a, created) =>
      (∀ b, (∃ n, accounts db' !! n = Some b ∧ jwk_thumbprint b = thumbprint key) ↔ b = a) ∧
      (if created : bool
       then a = new_account key issuer cs tos (new_id draw) now ∧ accounts (others db) !! acc_id a = None ∧
            db' = on_accounts (λ m, <[acc_id a := a]> m) (others db)
       else db' = db ∨ db' = others db) ∧
      ∀ others' key' issuer' cs' tos' draw' now', thumbprint key' = thumbprint key →
        request (get_or_create_account others' key' issuer' cs' tos' draw' now') db' = (Ok (a, false), db')
  | Raise _ => db' = others db
  end.
Proof.
  intros Hok Hoth. rewrite request_register. set (a0 := new_account _ _ _ _ _ _).
  assert (Hend : ∀ d a, accounts_ok d → find_account_by_key (thumbprint key) d = Some a →
    (∀ b, (∃ n, accounts d !! n = Some b ∧ jwk_thumbprint b = thumbprint key) ↔ b = a) ∧
    ∀ others' key' issuer' cs' tos' draw' now', thumbprint key' = thumbprint key →
      request (get_or_create_account others' key' issuer' cs' tos' draw' now') d = (Ok (a, false), d)).
  { intros d a Hd Hf. destruct (find_by_key_some _ _ _ Hd Hf) as [Ha Ht]. split.
    - intros b. split; [|intros ->; by exists (acc_id a)]. intros (n & Hn & Hb).
      pose proof (acc_one_key _ Hd _ _ _ _ Hn Ha ltac:(congruence)). naive_solver.
    - intros ????????. rewrite request_register. by replace (thumbprint key') with (thumbprint key); rewrite Hf. }
  destruct (find_account_by_key (thumbprint key) db) as [a|] eqn:Hf.
  - destruct (Hend db a Hok Hf). auto 10.
  - destruct (account_conflict a0 (others db)) as [e|] eqn:Hc.
    + destruct (find_account_by_key (thumbprint key) (others db)) as [a|] eqn:Hr; [|done].
      destruct (Hend _ a Hoth Hr). auto 10.
    + destruct (account_conflict_none _ _ Hc) as [Hfresh Hnew].
      assert (Hok' : accounts_ok (on_accounts (λ m, <[acc_id a0 := a0]> m) (others db))).
      { apply accounts_ok_insert; [done|done|]. intros n b Hb _. by apply (Hnew n). }
      assert (Hin : accounts (on_accounts (λ m, <[acc_id a0 := a0]> m) (others db)) !! acc_id a0 = Some a0)
        by apply lookup_insert_eq.
      destruct (Hend _ a0 Hok' (find_by_key_unique _ _ _ Hok' Hin)). auto 10.
Qed.
End registration.

(** ** Challenges over time *)
Section challenges.
Context {X : X509Lib} {SS : SecretStore} {CR : Crypto}.

(** A request that touches challenges; the rows it holds may be out of date. *)
Inductive chall_op :=
  | Trigger (c : ChallengeRow) (a : AuthzRow) (now : Z)
  | Proven (c : ChallengeRow) (a : AuthzRow) (now : Z)
  | Refuted (c : ChallengeRow) (problem : string)
  | Place (account : AccountRow) (ids : list Identifier) (not_before not_after : option string) (draws : nat → Z) (now : Z).
(** Whether it scheduled a validation of challenge [n], and the database. *)
Definition chall_step (n : string) (op : chall_op) (db : DB) : bool * DB :=
  match op with
  | Trigger c a now =>
      let '(r, db') := request (begin_challenge c a now) db in
      (match r with Ok (scheduled, _) => scheduled && bool_decide (chall_id c = n) | Raise _ => false end, db')
  | Proven c a now => (false, snd (request (record_challenge_success c a now) db))
  | Refuted c problem => (false, snd (request (record_challenge_failure c problem) db))
  | Place account ids nb na draws now => (false, snd (request (create_order account ids nb na draws now) db))
  end.
Fixpoint chall_run (n : string) (ops : list chall_op) (db : DB) : nat * DB :=
  match ops with
  | [] => (0%nat, db)
  | op :: ops =>
      let '(e, db1) := chall_step n op db in
      let '(k, db2) := chall_run n ops db1 in
      ((if e then 1 else 0) + k, db2)%nat
  end.

(** The moves of a challenge, whoever makes them. *)
Inductive chall_move : ChallengeStatus → ChallengeStatus → Prop :=
  | move_stay s : chall_move s s
  | move_start : chall_move chall_pending chall_processing
  | move_fail : chall_move chall_processing chall_invalid
  | move_prove s : chall_move s chall_valid.
Definition same_challenge (c c' : ChallengeRow) : Prop :=
  chall_id c' = chall_id c ∧ chall_authz c' = chall_authz c ∧ chall_type c' = chall_type c ∧ chall_token c' = chall_token c.
(** What a request does to one challenge. *)
Definition chall_effect (n : string) (scheduled : bool) (db db' : DB) : Prop :=
  match challenges db !! n with
  | None => scheduled = false ∧ ∀ c', challenges db' !! n = Some c' → chall_status c' = chall_pending
  | Some c => ∃ c', challenges db' !! n = Some c' ∧ same_challenge c c' ∧ chall_move (chall_status c) (chall_status c') ∧
      (scheduled = true → chall_status c = chall_pending ∧ chall_status c' = chall_processing)
  end.
Lemma chall_effect_refl n db : chall_effect n false db db.
Proof.
  unfold chall_effect. destruct (challenges db !! n) as [c|]; [|done]. exists c. split_and!; [done|done|constructor|done].
Qed.
Lemma update_where_lookup {K A} `{Countable K} (m : gmap K A) k p f j :
  snd (update_where m k p f) !! j =
  (if decide (k = j) then (λ a, if p a then f a else a) <$> m !! j else m !! j).
Proof.
  unfold update_where. case_decide as Hj; [subst j|].
  - destruct (m !! k) as [a|] eqn:Ha; cbn; [|by rewrite Ha]. destruct (p a); cbn; [apply lookup_insert_eq|done].
  - destruct (m !! k) as [a|]; cbn; [|done]. destruct (p a); cbn; [by rewrite lookup_insert_ne|done].
Qed.
Lemma update_where_hit {K A} `{Countable K} (m : gmap K A) k p f :
  fst (update_where m k p f) = true ↔ ∃ a, m !! k = Some a ∧ p a = true.
Proof. unfold update_where. destruct (m !! k) as [a|]; [destruct (p a) eqn:E|]; cbn; naive_solver. Qed.

(** *** The requests, exactly *)
Definition start_row (c : ChallengeRow) : ChallengeRow := with_chall chall_processing (validated_at c) None c.
Definition start_table n (m : gmap string ChallengeRow) : bool * gmap string ChallengeRow :=
  update_where m n (λ c, bool_decide (chall_status c = chall_pending)) start_row.
Definition fail_table n problem (m : gmap string ChallengeRow) : bool * gmap string ChallengeRow :=
  update_where m n (λ c, bool_decide (chall_status c = chall_processing)) (λ c, with_chall chall_invalid (validated_at c) (Some problem) c).
Lemma refresh_challenge_eq n s : refresh_challenge n s =
  (match challenges (work s) !! n with Some f => Ok f | None => Raise cannot_refresh end, s).
Proof. unfold refresh_challenge. run_tx. by destruct (_ !! _). Qed.
Lemma request_trigger c a now db : request (begin_challenge c a now) db =
  if decide (chall_status c = chall_processing ∨ chall_status c = chall_valid) then (Ok (false, c), db)
  else if decide (chall_status c = chall_invalid)
  then (Raise (acme_error malformed "this challenge has already failed; place a new order to try again"), db)
  else if decide (authorization_status a now = authz_pending)
  then (match snd (start_table (chall_id c) (challenges db)) !! chall_id c with
        | Some f => Ok (fst (start_table (chall_id c) (challenges db)), f)
        | None => Raise cannot_refresh
        end, on_challenges (λ m, snd (start_table (chall_id c) m)) db)
  else (Raise (acme_error malformed ("this authorization is " +:+ authz_text (authorization_status a now) +:+
          " and cannot be validated")), db).
Proof.
  unfold begin_challenge, request. cbn zeta.
  destruct (decide (chall_status c = chall_processing ∨ _)); [done|].
  destruct (decide (chall_status c = chall_invalid)); [by rewrite (bool_decide_eq_true_2 (chall_status c = _))|].
  rewrite (bool_decide_eq_false_2 (chall_status c = _)) by done.
  destruct (decide (authorization_status a now = authz_pending)).
  - rewrite (bool_decide_eq_true_2 (authorization_status a now = _)) by done.
    unfold update_challenge_where. cbn [negb]. run_tx. rewrite refresh_challenge_eq. cbn [work durable fresh_session].
    unfold start_table, start_row. by destruct (challenges (on_challenges _ db) !! _) eqn:E; cbn in E; rewrite E.
  - by rewrite (bool_decide_eq_false_2 (authorization_status a now = _)).
Qed.
Lemma request_refuted c problem db : snd (request (record_challenge_failure c problem) db) =
  on_challenges (λ m, snd (fail_table (chall_id c) problem m)) db.
Proof.
  unfold record_challenge_failure, update_challenge_where, request. run_tx. by rewrite refresh_challenge_eq.
Qed.
Definition prove_row (c : ChallengeRow) (now : Z) (row : ChallengeRow) : ChallengeRow :=
  with_chall (write_col (chall_status c) chall_valid (chall_status row))
    (write_col (validated_at c) (Some (iso now)) (validated_at row)) (write_col (chall_error c) None (chall_error row)) row.
Definition prove_authz (a row : AuthzRow) : AuthzRow :=
  with_authz_status (write_col (authz_status a) authz_valid (authz_status row)) row.
Lemma request_proven c a now db : request (record_challenge_success c a now) db =
  if bool_decide (challenges db !! chall_id c = None) || bool_decide (authzs db !! authz_id a = None)
  then (Raise row_gone, db)
  else (Ok (), on_authzs (alter (prove_authz a) (authz_id a)) (on_challenges (alter (prove_row c now) (chall_id c)) db)).
Proof. unfold record_challenge_success, request. run_tx. cbn. by destruct (_ || _). Qed.

(** [create_order] only adds rows. *)
Definition adds_rows (db0 db : DB) : Prop :=
  (∀ n c, challenges db0 !! n = Some c → challenges db !! n = Some c) ∧
  (∀ n c, challenges db !! n = Some c → challenges db0 !! n = Some c ∨ chall_status c = chall_pending).
Lemma adds_challenges db0 rows : Forall (λ c, chall_status c = chall_pending) rows →
  keeps (adds_rows db0) (tx_for add_challenge rows).
Proof.
  intros Hrows. apply keeps_tx_for. intros c Hc. rewrite Forall_forall in Hrows. specialize (Hrows c Hc).
  apply keeps_wp. intros s Hs. unfold add_challenge. wp_run; cbn; [done|done|].
  destruct Hs as [[H1 H2] Hd]. split; [|done]. split; cbn.
  - intros n d Hd1. rewrite lookup_insert_ne; [by apply H1|]. intros <-. apply H1 in Hd1.
    revert H. rewrite bool_decide_eq_false. intros Hfresh. apply Hfresh. by eexists.
  - intros n d [[<- <-]|[_ Hd1]]%lookup_insert_Some; [by right|by apply H2].
Qed.
Lemma pending_challenges_pending authz draws k types :
  Forall (λ c, chall_status c = chall_pending) (pending_challenges authz draws k types).
Proof. revert k. induction types as [|t types IH]; intros k; cbn; constructor; [done|apply IH]. Qed.
Lemma create_order_adds db0 account ids nb na draws now : keeps (adds_rows db0) (create_order account ids nb na draws now).
Proof.
  unfold create_order, add_order. cbn zeta. keeps_frame. generalize 1%nat. induction ids as [|i ids IH]; intros k; cbn [add_authzs].
  - apply keeps_ret.
  - apply keeps_bind; [unfold add_authz; keeps_frame|intros _].
    apply keeps_bind; [apply adds_challenges, pending_challenges_pending|intros _; apply IH].
Qed.

(** The rows of a new order: per identifier, its authorization and the
    authorization's challenges. *)
Fixpoint order_rows (order_id : string) (now : Z) (draws : nat → Z) (k : nat) (ids : list Identifier)
  : list (AuthzRow * list ChallengeRow) :=
  match ids with
  | [] => []
  | i :: ids =>
      let authz := pending_authz order_id now (draws k) i in
      let rows := pending_challenges (authz_id authz) draws (S k) (challenge_types_for i) in
      (authz, rows) :: order_rows order_id now draws (S k + 2 * length rows)%nat ids
  end.
Definition insert_all {A} (key : A → string) (rows : list A) (m : gmap string A) : gmap string A :=
  fold_left (λ m r, <[key r := r]> m) rows m.
Definition on_rows (rows : list (AuthzRow * list ChallengeRow)) (db : DB) : DB :=
  on_challenges (insert_all chall_id (concat (map snd rows))) (on_authzs (insert_all authz_id (map fst rows)) db).
Lemma insert_all_app {A} (key : A → string) l k m : insert_all key (l ++ k) m = insert_all key k (insert_all key l m).
Proof. apply fold_left_app. Qed.

(** A transaction that has committed nothing yet, and what its view is when it
    ends well. *)
Lemma wp_add_challenges rows s (Q : Outcome unit → Session DB → Prop) :
  Q (Ok ()) (mkSession (on_challenges (insert_all chall_id rows) (work s)) (durable s)) →
  (∀ e w, Q (Raise e) (mkSession w (durable s))) → wp (tx_for add_challenge rows) s Q.
Proof.
  revert s. induction rows as [|c rows IH]; intros s HQ He; cbn [tx_for].
  - wp_run. by destruct s as [[] ?].
  - unfold add_challenge. wp_run; [by destruct s; apply He..|]. by apply IH.
Qed.
Lemma wp_add_authzs oid now draws ids k s (Q : Outcome unit → Session DB → Prop) :
  Q (Ok ()) (mkSession (on_rows (order_rows oid now draws k ids) (work s)) (durable s)) →
  (∀ e w, Q (Raise e) (mkSession w (durable s))) → wp (add_authzs oid now draws k ids) s Q.
Proof.
  revert k s. induction ids as [|i ids IH]; intros k s HQ He; cbn [add_authzs].
  - wp_run. by destruct s as [[] ?].
  - unfold add_authz. wp_run; [by destruct s; apply He..|]. cbn zeta.
    apply wp_add_challenges; [|intros e w; apply He]. apply IH; [|intros e w; apply He].
    cbn [order_rows] in HQ. unfold on_rows in *. cbn [map concat fst snd] in HQ.
    revert HQ. match goal with |- Q _ (mkSession ?a _) → Q _ (mkSession ?b _) => assert (a = b) as -> end; [|done].
    unfold on_challenges, on_authzs. cbn. by rewrite insert_all_app.
Qed.
(** An order is placed whole or not at all. *)
Lemma wp_create_order account ids nb na draws now db (Q : Outcome OrderRow → Session DB → Prop) :
  let o := pending_order (acc_id account) ids nb na (draws 0%nat) now in
  (orders db !! ord_id o = None → is_Some (accounts db !! acc_id account) →
     Q (Ok o) (fresh_session (on_rows (order_rows (ord_id o) now draws 1 ids) (on_orders (λ m, <[ord_id o := o]> m) db)))) →
  (∀ e w, Q (Raise e) (mkSession w db)) → wp (create_order account ids nb na draws now) (fresh_session db) Q.
Proof.
  intros o HQ He. unfold create_order, add_order, fresh_session. wp_run; [by apply He..|].
  apply wp_add_authzs; cbn [work durable]; [|intros e w; apply He]. wp_run. apply HQ.
  - apply bool_decide_eq_false, eq_None_not_Some in H. exact H.
  - apply bool_decide_eq_false in H0. by apply not_eq_None_Some in H0.
Qed.

Lemma chall_step_effect n op db : let '(e, db') := chall_step n op db in chall_effect n e db db'.
Proof.
  destruct op as [c a now|c a now|c problem|account ids nb na draws now]; cbn [chall_step].
  - rewrite request_trigger. repeat (case_decide; [apply chall_effect_refl|]). case_decide; [|apply chall_effect_refl].
    unfold chall_effect. cbn [challenges on_challenges]. unfold start_table. rewrite !update_where_lookup.
    destruct (decide (chall_id c = n)) as [<-|Hne].
    + rewrite decide_True by done. destruct (challenges db !! chall_id c) as [d|] eqn:Hd; cbn; [|done].
      eexists. split; [done|]. destruct (bool_decide (chall_status d = _)) eqn:Hp.
      * apply bool_decide_eq_true in Hp. cbn. rewrite Hp. split_and!; [done|constructor|done].
      * split_and!; [done|constructor|]. unfold update_where. by rewrite Hd, Hp.
    + rewrite (bool_decide_eq_false_2 (chall_id c = n)) by done.
      match goal with |- context [match (if ?d then ?x else ?y) with _ => _ end] => destruct (if d then x else y) end;
        rewrite ?andb_false_r; apply (chall_effect_refl n db).
  - rewrite request_proven. destruct (_ || _); [apply chall_effect_refl|]. unfold chall_effect. cbn [snd challenges on_challenges on_authzs].
    destruct (decide (chall_id c = n)) as [<-|Hne]; [rewrite lookup_alter_eq|rewrite lookup_alter_ne by done; apply (chall_effect_refl n db)].
    destruct (challenges db !! chall_id c) as [d|]; cbn; [|done]. eexists. split; [done|]. split_and!; [done| |done].
    cbn. unfold write_col. case_decide; constructor.
  - rewrite request_refuted. unfold chall_effect. cbn [challenges on_challenges]. unfold fail_table. rewrite update_where_lookup.
    case_decide as Hid; [|apply (chall_effect_refl n db)].
    destruct (challenges db !! n) as [d|]; cbn; [|done]. eexists. split; [done|].
    destruct (bool_decide _) eqn:Hp; [|split_and!; [done|constructor|done]].
    apply bool_decide_eq_true in Hp. cbn. rewrite Hp. split_and!; [done|constructor|done].
  - assert (Hadd : adds_rows db (snd (request (create_order account ids nb na draws now) db))).
    { assert (Hb : both (adds_rows db) (fresh_session db)) by (split; split; auto).
      pose proof (create_order_adds db account ids nb na draws now _ Hb) as [_ Hd]. unfold request.
      by destruct (create_order _ _ _ _ _ _ _). }
    destruct Hadd as [H1 H2]. unfold chall_effect. destruct (challenges db !! n) as [d|] eqn:Hd.
    + exists d. split_and!; [by apply H1|done|constructor|done].
    + split; [done|]. intros c' Hc'. destruct (H2 _ _ Hc') as [?|?]; [congruence|done].
Qed.

Definition may_start (n : string) (db : DB) : nat :=
  match challenges db !! n with
  | Some c => if decide (chall_status c = chall_pending) then 1 else 0
  | None => 1
  end.
Lemma effect_bound n e db db' : chall_effect n e db db' → ((if e : bool then 1 else 0) + may_start n db' ≤ may_start n db)%nat.
Proof.
  unfold chall_effect, may_start. destruct (challenges db !! n) as [c|].
  - intros (c' & -> & _ & Hm & He). destruct e.
    + destruct (He eq_refl) as [-> ->]. rewrite decide_False, decide_True by done. lia.
    + destruct Hm; repeat case_decide; naive_solver lia.
  - intros [-> _]. destruct (challenges db' !! n); [case_decide|]; lia.
Qed.

(** One validation per challenge.  However requests are interleaved, and
    however out of date the rows they hold, [begin_challenge] answers "this
    call scheduled it" at most once for any challenge. *)
Theorem validation_scheduled_once n ops db : (fst (chall_run n ops db) ≤ 1)%nat.
Proof.
  assert (Hgen : ∀ ops db, (fst (chall_run n ops db) ≤ may_start n db)%nat).
  { clear. induction ops as [|op ops IH]; intros db; cbn [chall_run]; [cbn; lia|].
    pose proof (chall_step_effect n op db) as He. destruct (chall_step n op db) as [e db1]. apply effect_bound in He.
    specialize (IH db1). destruct (chall_run n ops db1) as [k db2]. cbn in *. lia. }
  specialize (Hgen ops db). unfold may_start in Hgen. repeat case_match; lia.
Qed.

(** A proof is final, a failure is not retroactive.  Over any sequence of
    such requests a challenge keeps its identity and token, its status takes
    only the moves pending to processing, processing to invalid and anything to
    valid, and once valid it stays valid: the result of an attempt that was
    overtaken cannot turn it back. *)
Theorem proof_is_final n ops db c : challenges db !! n = Some c →
  ∃ c', challenges (snd (chall_run n ops db)) !! n = Some c' ∧ same_challenge c c' ∧
    rtc chall_move (chall_status c) (chall_status c') ∧ (chall_status c = chall_valid → chall_status c' = chall_valid).
Proof.
  revert db c. induction ops as [|op ops IH]; intros db c Hc; cbn [chall_run].
  - exists c. split_and!; [done|done|apply rtc_refl|done].
  - pose proof (chall_step_effect n op db) as He. destruct (chall_step n op db) as [e db1]. unfold chall_effect in He.
    rewrite Hc in He. destruct He as (c1 & Hc1 & Hs1 & Hm1 & _). destruct (IH db1 c1 Hc1) as (c' & Hc' & Hs' & Hm' & Hv).
    destruct (chall_run n ops db1) as [k db2]. exists c'. unfold same_challenge in *. split_and!; try naive_solver congruence.
    + by eapply rtc_l.
    + intros Hvalid. apply Hv. rewrite Hvalid in Hm1. by inversion Hm1.
Qed.
End challenges.

(** ** The status of an order *)
Section readiness.
Context {X : X509Lib} {SS : SecretStore}.

Lemma has_expired_iso t now : in_datetime t → in_datetime now →
  has_expired (iso t) now = (floor_second t <=? floor_second now).
Proof. intros Ht Hn. unfold has_expired, iso. apply isoformat_leb; by apply in_datetime_floor. Qed.
Lemma status_valid a now t : authz_expires a = iso t → in_datetime t → in_datetime now →
  authorization_status a now = authz_valid ↔ authz_status a = authz_valid ∧ floor_second now < floor_second t.
Proof.
  intros He Ht Hn. unfold authorization_status. rewrite He, has_expired_iso by done.
  destruct (Z.leb_spec (floor_second t) (floor_second now)); case_bool_decide; cbn; naive_solver lia.
Qed.
Lemma status_dead a now t : authz_expires a = iso t → in_datetime t → in_datetime now →
  (authorization_status a now = authz_invalid ∨ authorization_status a now = authz_expired) ↔
  authz_status a = authz_invalid ∨ authz_status a = authz_expired ∨ floor_second t <= floor_second now.
Proof.
  intros He Ht Hn. unfold authorization_status. rewrite He, has_expired_iso by done.
  destruct (Z.leb_spec (floor_second t) (floor_second now)); case_bool_decide as Hb; cbn;
    destruct (authz_status a); naive_solver lia.
Qed.
Lemma in_authorizations order db a : a ∈ authorizations_of order db ↔ ∃ n, authzs db !! n = Some a ∧ authz_order a = ord_id order.
Proof. unfold authorizations_of. rewrite elem_of_rows_where, bool_decide_eq_true. naive_solver. Qed.

Definition authz_dead (s : AuthorizationStatus) : bool := bool_decide (s = authz_invalid ∨ s = authz_expired).
Definition authz_proven (s : AuthorizationStatus) : bool := bool_decide (s = authz_valid).
Lemma elem_of_map {A B} (f : A → B) l y : y ∈ map f l ↔ ∃ x, y = f x ∧ x ∈ l.
Proof. change (map f l) with (f <$> l). apply list_elem_of_fmap. Qed.
Lemma some_dead order now db (expiry : string → Z) : in_datetime now →
  (∀ n a, authzs db !! n = Some a → authz_order a = ord_id order → authz_expires a = iso (expiry n) ∧ in_datetime (expiry n)) →
  existsb authz_dead (map (λ a, authorization_status a now) (authorizations_of order db)) = true ↔
  ∃ n a, authzs db !! n = Some a ∧ authz_order a = ord_id order ∧
    (authz_status a = authz_invalid ∨ authz_status a = authz_expired ∨ floor_second (expiry n) ≤ floor_second now).
Proof.
  intros Hn Hex. rewrite existsb_elem. setoid_rewrite elem_of_map. unfold authz_dead. setoid_rewrite bool_decide_eq_true. split.
  - intros (s & (a & -> & (n & Ha & Ho)%in_authorizations) & Hs). destruct (Hex n a Ha Ho) as [He Ht].
    exists n, a. split_and!; [done..|]. by apply (status_dead a now (expiry n)).
  - intros (n & a & Ha & Ho & Hs). destruct (Hex n a Ha Ho) as [He Ht]. exists (authorization_status a now). split.
    + exists a. split; [done|]. apply in_authorizations. by exists n.
    + by apply (status_dead a now (expiry n)).
Qed.
Lemma all_proven order now db (expiry : string → Z) : in_datetime now →
  (∀ n a, authzs db !! n = Some a → authz_order a = ord_id order → authz_expires a = iso (expiry n) ∧ in_datetime (expiry n)) →
  let statuses := map (λ a, authorization_status a now) (authorizations_of order db) in
  nonempty statuses && forallb authz_proven statuses = true ↔
  (∃ n a, authzs db !! n = Some a ∧ authz_order a = ord_id order) ∧
  ∀ n a, authzs db !! n = Some a → authz_order a = ord_id order →
    authz_status a = authz_valid ∧ floor_second now < floor_second (expiry n).
Proof.
  intros Hn Hex statuses. rewrite andb_true_iff, forallb_elem. unfold statuses, authz_proven. setoid_rewrite elem_of_map.
  setoid_rewrite bool_decide_eq_true. f_equiv.
  - split.
    + intros Hne. destruct (authorizations_of order db) as [|a l] eqn:E; [done|].
      assert (Hin : a ∈ authorizations_of order db) by (rewrite E; left). apply in_authorizations in Hin as (n & ?). by exists n, a.
    + intros (n & a & Ha). assert (Hin : a ∈ authorizations_of order db) by (apply in_authorizations; by exists n).
      destruct (authorizations_of order db); [by apply not_elem_of_nil in Hin|done].
  - split.
    + intros H n a Ha Ho. destruct (Hex n a Ha Ho) as [He Ht]. apply (status_valid a now (expiry n)); [done..|].
      apply H. exists a. split; [done|]. apply in_authorizations. by exists n.
    + intros H s (a & -> & (n & Ha & Ho)%in_authorizations). destruct (Hex n a Ha Ho) as [He Ht].
      apply (status_valid a now (expiry n)); [done..|]. by apply (H n a).
Qed.

(** The status of an order.  An order reads [ready] exactly when the row is
    still pending, it has not expired, and it has at least one authorization
    and every one of them is valid and unexpired, to the second; it reads
    [invalid] exactly when the row says so, or it is pending and it has
    expired, or one of its authorizations has failed or expired. *)
Theorem order_status_exact order now db te (expiry : string → Z) :
  in_datetime now → in_datetime te → ord_expires order = iso te →
  (∀ n a, authzs db !! n = Some a → authz_order a = ord_id order → authz_expires a = iso (expiry n) ∧ in_datetime (expiry n)) →
  (order_status order now db = ord_ready ↔
     open_order (ord_status order) = true ∧ floor_second now < floor_second te ∧
     (∃ n a, authzs db !! n = Some a ∧ authz_order a = ord_id order) ∧
     ∀ n a, authzs db !! n = Some a → authz_order a = ord_id order →
       authz_status a = authz_valid ∧ floor_second now < floor_second (expiry n)) ∧
  (order_status order now db = ord_invalid ↔
     ord_status order = ord_invalid ∨
     open_order (ord_status order) = true ∧
     (floor_second te ≤ floor_second now ∨
      ∃ n a, authzs db !! n = Some a ∧ authz_order a = ord_id order ∧
        (authz_status a = authz_invalid ∨ authz_status a = authz_expired ∨ floor_second (expiry n) ≤ floor_second now))).
Proof.
  intros Hn Hte He Hex. unfold order_status. rewrite He, has_expired_iso by done.
  pose proof (some_dead order now db expiry Hn Hex) as Hd. pose proof (all_proven order now db expiry Hn Hex) as Hp.
  cbv zeta in Hp. unfold authz_dead in Hd. unfold authz_proven in Hp.
  set (statuses := map _ (authorizations_of order db)) in *.
  destruct (open_order (ord_status order)) eqn:Ho; cbn [negb].
  - assert (Hopen : ord_status order ≠ ord_invalid) by (by intros Hi; rewrite Hi in Ho).
    destruct (Z.leb_spec (floor_second te) (floor_second now)); [naive_solver lia|].
    destruct (existsb _ statuses); [|destruct (nonempty _ && _)].
    + destruct Hd as [Hd _]. destruct (Hd eq_refl) as (n & a & Ha & Hoa & Hbad). split.
      * split; [done|]. intros (_ & _ & _ & Hall). destruct (Hall n a Ha Hoa). destruct Hbad as [|[|]]; [congruence..|lia].
      * split; [|done]. intros _. right. split; [done|]. right. by exists n, a.
    + destruct Hp as [Hp _]. specialize (Hp eq_refl). split.
      * naive_solver.
      * split; [done|]. intros [|[_ [?|Hbad]]]; [done|lia|]. by apply Hd in Hbad.
    + split.
      * split; [done|]. intros (_ & _ & Hall). by apply Hp in Hall.
      * split; [done|]. intros [|[_ [?|Hbad]]]; [done|lia|]. by apply Hd in Hbad.
  - split; (split; [|naive_solver]); intros Hs; [by rewrite Hs in Ho|by left].
Qed.
End readiness.

(** ** At work *)
Module AcmeExamples.
#[local] Existing Instance Toy.lib.
#[local] Existing Instance toy_secrets.
#[local] Existing Instance toy_crypto.
Import Toy CaExamples.
#[local] Strategy 1000 [one_root two_cas two_roots crossed after request].
Definition key1 : AccountKey := mkAccountKey ∅ "thumb-1".
Definition register : Tx DB (AccountRow * bool) := get_or_create_account id key1 2 None true 100 t2026.
Definition acme_db : DB := after register two_roots.
Definition acct : AccountRow := new_account key1 2 None true (new_id 100) t2026.
Definition nas_lan : Identifier := mkIdentifier "dns" "nas.lan" "nas.lan" false.
Definition place : Tx DB OrderRow := create_order acct [nas_lan] None None (λ k, 200 + Z.of_nat k) t2026.
Definition placed_db : DB := after place acme_db.
Definition the_order : OrderRow := pending_order (acc_id acct) [nas_lan] None None 200 t2026.
Definition the_authz : AuthzRow := pending_authz "token-200" t2026 201 nas_lan.
Definition http_challenge : ChallengeRow := pending_challenge "token-201" (λ k, 200 + Z.of_nat k) 2 "http-01".
(** Two triggers with the same stale row, then two results. *)
Definition triggers : list chall_op :=
  [Trigger http_challenge the_authz t2026; Trigger http_challenge the_authz t2026;
   Proven (with_chall chall_processing None None http_challenge) the_authz t2026; Refuted http_challenge "late"].
Definition proven_db : DB := snd (chall_run "token-202" triggers placed_db).

Lemma two_roots_accounts : accounts_ok two_roots.
Proof.
  assert (He : accounts two_roots = ∅).
  { refine (request_keeps (λ d, accounts d = ∅) _ _ _ (request_keeps (λ d, accounts d = ∅) _ _ _ (request_keeps (λ d, accounts d = ∅) _ _ _ eq_refl)));
      keeps_frame. }
  split; [intros n a|intros n m a b]; rewrite He, lookup_empty; done.
Qed.
Lemma registration_by_key_witness :
  accounts_ok two_roots ∧ is_ok (fst (request register two_roots)) = true ∧ accounts_ok acme_db.
Proof.
  split; [exact two_roots_accounts|]. split; [vm_compute; reflexivity|].
  pose proof (registration_by_key (X:=lib) (SS:=toy_secrets) (CR:=toy_crypto) id key1 2 None true 100 t2026 two_roots
    two_roots_accounts two_roots_accounts) as H. fold register in H. unfold acme_db, after.
  destruct (request register two_roots) as [r d]. exact (proj1 H).
Defined.
(** The second trigger schedules nothing, and the late failure is ignored. *)
Lemma proof_is_final_witness :
  fst (chall_run "token-202" triggers placed_db) = 1%nat ∧
  ∃ c, challenges proven_db !! "token-202" = Some c ∧ same_challenge http_challenge c.
Proof.
  split; [vm_compute; reflexivity|].
  assert (H : challenges placed_db !! "token-202" = Some http_challenge) by (vm_compute; reflexivity).
  destruct (proof_is_final (X:=lib) (SS:=toy_secrets) (CR:=toy_crypto) "token-202" triggers placed_db http_challenge H) as (c & Hc & Hs & _).
  exists c. exact (conj Hc Hs).
Defined.
Lemma order_status_exact_witness :
  order_status the_order t2026 placed_db = ord_pending ∧ order_status the_order t2026 proven_db = ord_ready ∧
  order_status the_order (t2026 + days 8) proven_db = ord_invalid ∧
  open_order (ord_status the_order) = true.
Proof.
  assert (H : order_status the_order t2026 proven_db = ord_ready) by (vm_compute; reflexivity).
  split; [vm_compute; reflexivity|]. split; [exact H|]. split; [vm_compute; reflexivity|].
  assert (Hall : map_Forall (λ _ a, authz_expires a = iso (t2026 + days 7)) (authzs proven_db)) by by_decide.
  refine (proj1 (proj1 (proj1 (order_status_exact (X:=lib) (SS:=toy_secrets) the_order t2026 proven_db (t2026 + days 7)
    (λ _, t2026 + days 7) _ _ _ _)) H)).
  - by_decide.
  - by_decide.
  - vm_compute. reflexivity.
  - intros n a Ha _. split; [exact (Hall n a Ha)|by_decide].
Defined.
End AcmeExamples.
