(* ===== verification/Base64.v ===== *)
(** * base64url as [cabin.acme.jws] reads and writes it

    [b64encode] drops the padding, [b64decode] refuses anything outside the
    alphabet before it puts the padding back.  Bytes are a string of eight-bit
    characters.  [base64.urlsafe_b64decode] is the standard library's: once the
    padding is right it ignores the unused low bits of the last character. *)

From S2P Require Import Prelude PyStr Json AcmeNames.
#[local] Open Scope N_scope.

(** The character of a sextet, and back. *)
Definition sextet_char (n : N) : ascii :=
  char_of (if n <? 26 then 65 + n else if n <? 52 then 71 + n else if n <? 62 then n - 4
           else if n =? 62 then 45 else 95).
Definition sextet (c : ascii) : option N :=
  let n := code c in
  if in_range 65 90 c then Some (n - 65) else if in_range 97 122 c then Some (n - 71)
  else if in_range 48 57 c then Some (n + 4) else if n =? 45 then Some 62 else if n =? 95 then Some 63 else None.
(** [_BASE64URL] *)
Definition is_b64 (c : ascii) : bool := match sextet c with Some _ => true | None => false end.

Fixpoint encode_bytes (l : list ascii) : list ascii :=
  match l with
  | [] => []
  | [a] => [sextet_char (code a / 4); sextet_char (code a mod 4 * 16)]
  | [a; b] => [sextet_char (code a / 4); sextet_char (code a mod 4 * 16 + code b / 16); sextet_char (code b mod 16 * 4)]
  | a :: b :: c :: l =>
      sextet_char (code a / 4) :: sextet_char (code a mod 4 * 16 + code b / 16)
      :: sextet_char (code b mod 16 * 4 + code c / 64) :: sextet_char (code c mod 64) :: encode_bytes l
  end.
Definition byte1 (x y : N) : ascii := char_of (x * 4 + y / 16).
Definition byte2 (y z : N) : ascii := char_of (y mod 16 * 16 + z / 4).
Definition byte3 (z w : N) : ascii := char_of (z mod 4 * 64 + w).
(** A single character left over cannot be padded. *)
Fixpoint decode_sextets (l : list N) : option (list ascii) :=
  match l with
  | [] => Some []
  | [_] => None
  | [x; y] => Some [byte1 x y]
  | [x; y; z] => Some [byte1 x y; byte2 y z]
  | x :: y :: z :: w :: l => bytes ← decode_sextets l; Some (byte1 x y :: byte2 y z :: byte3 z w :: bytes)
  end.
Definition sextets (l : list ascii) : option (list N) := mapM sextet l.

Definition b64encode (data : string) : string := of_chars (encode_bytes (chars data)).
Definition b64decode (value : json) (what : string) : Outcome string :=
  let error := acme_error malformed (what +:+ " is not base64url") in
  match value with
  | JStr text =>
      match sextets (chars text) with
      | None => Raise error
      | Some l => match decode_sextets l with None => Raise error | Some bytes => Ok (of_chars bytes) end
      end
  | _ => Raise error
  end.

(** ** Lemmas *)
Lemma sextet_of_char n : n < 64 → sextet (sextet_char n) = Some n.
Proof.
  intros Hn. assert (H : forallb (λ k, bool_decide (sextet (sextet_char (N.of_nat k)) = Some (N.of_nat k))) (seq 0 64) = true)
    by (vm_compute; reflexivity).
  rewrite forallb_elem in H. specialize (H (N.to_nat n)). rewrite N2Nat.id in H.
  apply (bool_decide_eq_true_1 _), H, elem_of_seq. lia.
Qed.
Lemma sextet_range c n : sextet c = Some n → n < 64.
Proof. destruct c as [[] [] [] [] [] [] [] []]; cbv; intros [= <-] || intros [=]; reflexivity. Qed.
Lemma code_range c : code c < 256.
Proof. apply N_ascii_bounded. Qed.
Lemma char_of_code c : char_of (code c) = c.
Proof. apply ascii_N_embedding. Qed.
Lemma code_of_char n : n < 256 → code (char_of n) = n.
Proof. apply N_ascii_embedding. Qed.

(** [arith]: division and remainders of bytes. *)
Ltac arith :=
  repeat match goal with
  | |- context [code ?x] => lazymatch goal with H : code x < 256 |- _ => fail | _ => pose proof (code_range x) end
  end;
  zify; Z.to_euclidean_division_equations; lia.
Lemma byte1_of a b : byte1 (code a / 4) (code a mod 4 * 16 + code b / 16) = a.
Proof. unfold byte1. rewrite <- (char_of_code a) at 3. f_equal. arith. Qed.
Lemma byte1_alone a : byte1 (code a / 4) (code a mod 4 * 16) = a.
Proof. unfold byte1. rewrite <- (char_of_code a) at 3. f_equal. arith. Qed.
Lemma byte2_of a b c : byte2 (code a mod 4 * 16 + code b / 16) (code b mod 16 * 4 + code c / 64) = b.
Proof. unfold byte2. rewrite <- (char_of_code b) at 3. f_equal. arith. Qed.
Lemma byte2_alone a b : byte2 (code a mod 4 * 16 + code b / 16) (code b mod 16 * 4) = b.
Proof. unfold byte2. rewrite <- (char_of_code b) at 3. f_equal. arith. Qed.
Lemma byte3_of b c : byte3 (code b mod 16 * 4 + code c / 64) (code c mod 64) = c.
Proof. unfold byte3. rewrite <- (char_of_code c) at 3. f_equal. arith. Qed.
Lemma sextet1 a : code a / 4 < 64.
Proof. arith. Qed.
Lemma sextet2 a b : code a mod 4 * 16 + code b / 16 < 64.
Proof. arith. Qed.
Lemma sextet2_alone a : code a mod 4 * 16 < 64.
Proof. arith. Qed.
Lemma sextet3 b c : code b mod 16 * 4 + code c / 64 < 64.
Proof. arith. Qed.
Lemma sextet3_alone b : code b mod 16 * 4 < 64.
Proof. arith. Qed.
Lemma sextet4 c : code c mod 64 < 64.
Proof. arith. Qed.

(** Three characters at a time. *)
Lemma triples_ind {A} (P : list A → Prop) : P [] → (∀ a, P [a]) → (∀ a b, P [a; b]) →
  (∀ a b c l, P l → P (a :: b :: c :: l)) → ∀ l, P l.
Proof.
  intros H0 H1 H2 H3 l. assert (H : P l ∧ (∀ a, P (a :: l)) ∧ ∀ a b, P (a :: b :: l)); [|apply H].
  induction l as [|x l (IH1 & IH2 & IH3)]; split_and!; auto.
Qed.
Lemma decode_encode l : (m ← sextets (encode_bytes l); decode_sextets m) = Some l.
Proof.
  unfold sextets. induction l as [|a|a b|a b c l IH] using triples_ind; cbn [encode_bytes mapM]; [done|..].
  - rewrite !sextet_of_char by auto using sextet1, sextet2_alone. cbn. by rewrite byte1_alone.
  - rewrite !sextet_of_char by auto using sextet1, sextet2, sextet3_alone. cbn. by rewrite byte1_of, byte2_alone.
  - rewrite !sextet_of_char by auto using sextet1, sextet2, sextet3, sextet4. cbn.
    destruct (mapM sextet (encode_bytes l)) as [m|]; [|done]. cbn in *. rewrite IH. cbn. by rewrite byte1_of, byte2_of, byte3_of.
Qed.

(** ** Correctness *)

(** The encoding round-trips: decoding what [b64encode] wrote gives the
    bytes back, whatever they are. *)
Theorem b64_roundtrip data what : b64decode (JStr (b64encode data)) what = Ok data.
Proof.
  unfold b64decode, b64encode. rewrite chars_of_chars. pose proof (decode_encode (chars data)) as H.
  destruct (sextets _) as [m|]; cbn in H; [|done]. by rewrite H, of_chars_chars.
Qed.

Lemma sextets_iff l : is_Some (sextets l) ↔ forallb is_b64 l = true.
Proof.
  unfold sextets, is_b64. induction l as [|c l IH]; cbn; [by split; [|eexists]|].
  rewrite andb_true_iff, <- IH. destruct (sextet c); cbn; [|by split; [intros []|intros []]].
  destruct (mapM sextet l); cbn; split; naive_solver.
Qed.
Lemma decode_iff (l : list N) : is_Some (decode_sextets l) ↔ (length l mod 4 ≠ 1)%nat.
Proof.
  assert (H : is_Some (decode_sextets l) ∧ (length l mod 4 ≠ 1)%nat ∨ decode_sextets l = None ∧ (length l mod 4 = 1)%nat).
  { assert (Hind : ∀ n l, (length l ≤ n)%nat → is_Some (decode_sextets l) ∧ (length l mod 4 ≠ 1)%nat ∨ decode_sextets l = None ∧ (length l mod 4 = 1)%nat);
      [|by apply (Hind (length l))].
    clear. induction n as [|n IH]; intros [|x [|y [|z [|w l]]]] Hl; cbn [length] in Hl; try lia;
      try (by left; split; [eexists|cbn; lia]); try (by right).
    replace (length (x :: y :: z :: w :: l) mod 4)%nat with (length l mod 4)%nat
      by (cbn [length]; replace (S (S (S (S (length l))))) with (length l + 1 * 4)%nat by lia; by rewrite Nat.Div0.mod_add).
    destruct (IH l ltac:(lia)) as [[[d Hd] Hm]|[Hd Hm]]; [left|right]; split; try done; cbn [decode_sextets]; rewrite Hd; cbn; [by eexists|done]. }
  destruct H as [[H1 H2]|[H1 H2]]; [naive_solver|]. rewrite H1. split; [by intros []|done].
Qed.

(** Strictness: a member decodes if and only if it is a string of letters,
    digits, [-] and [_] whose length is not one more than a multiple of four:
    no padding, no blank and no newline is ever ignored. *)
Theorem b64decode_strict value what : is_ok (b64decode value what) = true ↔
  ∃ text, value = JStr text ∧ forallb is_b64 (chars text) = true ∧ (length (chars text) mod 4 ≠ 1)%nat.
Proof.
  unfold b64decode. destruct value as [| | | |text| |]; try (split; [done|by intros (? & ? & _)]).
  assert (Hlen : ∀ m, sextets (chars text) = Some m → length m = length (chars text)).
  { intros m Hm. apply mapM_Some_1, Forall2_length in Hm. done. }
  transitivity (forallb is_b64 (chars text) = true ∧ (length (chars text) mod 4 ≠ 1)%nat); [|naive_solver].
  rewrite <- sextets_iff. destruct (sextets (chars text)) as [m|]; [|split; [done|by intros [[] _]]].
  rewrite <- (Hlen m), <- decode_iff by done. destruct (decode_sextets m); cbn; split; naive_solver.
Qed.

(** ** At work *)
Module Base64Examples.
(** The low bits of the last character do not count: two texts, one value. *)
Example two_spellings : b64decode (JStr "QQ") "it" = Ok "A" ∧ b64decode (JStr "QR") "it" = Ok "A".
Proof. split; vm_compute; reflexivity. Qed.
Example newline_refused : is_ok (b64decode (JStr ("aGk" +:+ of_chars [char_of 10])) "it") = false.
Proof. vm_compute. reflexivity. Qed.
End Base64Examples.
