(* ===== verification/Csr.v ===== *)
(** * [cabin.acme.csr]: the CSR that finalizes an order

    The request is parsed, its own signature and its key are checked, and its
    names must be exactly the order's ([check_identifiers]), compared through
    one token per name. *)

From S2P Require Import Prelude PyStr Json PyTime IPAddr X509Lib Store AcmeNames.
#[local] Open Scope Z_scope.

(** ** DER requests

    Parsing of DER by the package, as X509Lib does it for PEM: re-encoding a
    parsed request as PEM and reading it again gives the same request, and the
    signature check answers what the parsed request says, or raises for an
    algorithm it does not know. *)
Class DerLib {X : X509Lib} := {
  load_der_csr : string → Outcome (CsrInfo PubKey);
  der_to_pem : string → Pem;
  csr_signature : string → Outcome bool;
  general_name_repr : GeneralName → string;
  load_der_to_pem : ∀ d c, load_der_csr d = Ok c → load_csr (der_to_pem d) = Ok c;
  csr_signature_says : ∀ d c b, load_der_csr d = Ok c → csr_signature d = Ok b → is_signature_valid c = b }.

Definition MAX_ECHO : Z := 100.
Definition MAX_CSR_BYTES : Z := 64 * 1024.
Definition MIN_RSA_BITS : Z := 2048.
Definition CURVES : list string := ["secp256r1"; "secp384r1"].
Definition bad (detail : string) : Exc := acme_error bad_csr (str_take 400 detail).
Definition echo (value : string) : string :=
  if py_len value <=? MAX_ECHO then value else str_take (Z.to_nat MAX_ECHO) value +:+ "...".

(** [_normalize] *)
Definition normalize (kind value : string) : string :=
  if decide (kind = "ip") then
    match ip_address value with
    | Ok a => "ip:" +:+ str_address a
    | Raise _ => "ip:" +:+ lower value
    end
  else "dns:" +:+ lower value.
(** A dict of tokens: the value of a token that is met twice is the last one. *)
Definition add_token (kind value : string) (m : gmap string string) : gmap string string :=
  <[normalize kind value := value]> m.
Definition identifier_tokens (ids : list (string * string)) : gmap string string :=
  fold_left (λ m '(kind, value), add_token kind value m) ids ∅.
(** [sorted(d.keys() - d'.keys())] *)
Definition sorted_missing (d d' : gmap string string) : list string :=
  merge_sort str_le (map fst (map_to_list (filter (λ '(k, _), d' !! k = None) d))).

Section csr.
Context {X : X509Lib} {D : DerLib}.

Definition check_public_key (csr : CsrInfo PubKey) : Outcome unit :=
  match key_alg (csr_key csr) with
  | RSA bits => raise_if (bits <? MIN_RSA_BITS)
      (bad ("an RSA key must be at least " +:+ str_of_Z MIN_RSA_BITS +:+ " bits, not " +:+ str_of_Z bits))
  | EC curve => raise_if (negb (bool_decide (curve ∈ CURVES)))
      (bad ("cabin does not issue certificates on the " +:+ curve +:+ " curve: use P-256 or P-384"))
  | Ed25519 => mret ()
  | OtherKey _ => mthrow (bad "cabin issues certificates for RSA, P-256, P-384 and Ed25519 keys only")
  end.
Definition load (der : string) : Outcome (CsrInfo PubKey) :=
  _ ← raise_if (MAX_CSR_BYTES <? py_len der) (bad "the CSR is too large");
  csr ← catch_pure (load_der_csr der) is_value_error
    (λ e, Raise (bad ("the CSR is not a valid DER PKCS#10 request: " +:+ exc_text e)));
  valid ← catch_pure (csr_signature der) is_key_error
    (λ e, Raise (bad ("the CSR's signature could not be checked: " +:+ exc_text e)));
  _ ← raise_if (negb valid) (bad "the CSR's signature does not verify against its own public key");
  _ ← check_public_key csr;
  mret csr.

(** The kind and the text of a name cabin issues for. *)
Definition san_name (g : GeneralName) : option (string * string) :=
  match g with
  | DNSName v => Some ("dns", v)
  | IPAddressName a => Some ("ip", ip_text a)
  | IPNetworkName n => Some ("ip", str_network n)
  | _ => None
  end.
Fixpoint add_san_tokens (names : list GeneralName) (tokens : gmap string string) : Outcome (gmap string string) :=
  match names with
  | [] => mret tokens
  | g :: names =>
      match san_name g with
      | Some (kind, value) => add_san_tokens names (add_token kind value tokens)
      | None => mthrow (bad (str_take 400 ("the CSR carries a subjectAltName cabin does not issue: " +:+ general_name_repr g)))
      end
  end.
Definition csr_names (csr : CsrInfo PubKey) : Outcome (list GeneralName) :=
  exts ← catch_pure (csr_extensions csr) is_value_error
    (λ e, Raise (bad ("the CSR's extensions could not be read: " +:+ exc_text e)));
  mret match find_extension sel_san exts with None => [] | Some (names, _) => names end.
Definition san_tokens (csr : CsrInfo PubKey) : Outcome (gmap string string) :=
  names ← csr_names csr;
  add_san_tokens names ∅.
Definition common_name (csr : CsrInfo PubKey) : Outcome (option string) :=
  match head (attributes_for COMMON_NAME (csr_subject csr)) with
  | None => mret None
  | Some (AText v) => mret (Some v)
  | Some (ABytes _) => mthrow (bad "the CSR's subject common name is not a text value")
  end.
Definition listed (tokens : gmap string string) (l : list string) : string :=
  join ", " (map (λ t, echo (default "" (tokens !! t))) l).
Definition check_identifiers (csr : CsrInfo PubKey) (ids : list (string * string)) : Outcome unit :=
  let ordered := identifier_tokens ids in
  requested ← san_tokens csr;
  let extra := sorted_missing requested ordered in
  _ ← raise_if (nonempty extra)
        (bad ("the CSR asks for names this order did not authorize: " +:+ listed requested extra));
  let missing := sorted_missing ordered requested in
  _ ← raise_if (nonempty missing)
        (bad ("the CSR is missing names this order asked for: " +:+ listed ordered missing));
  cn ← common_name csr;
  match cn with
  | None => mret ()
  | Some cn =>
      raise_if (negb (existsb (λ t, bool_decide (is_Some (ordered !! t))) [normalize "dns" cn; normalize "ip" cn]))
        (bad ("the CSR's subject common name is not one of the order's identifiers: " +:+ echo cn))
  end.
End csr.

(** ** Correctness *)
Definition token_of (p : string * string) : string := normalize (fst p) (snd p).

Lemma app_inj_prefix (p a b : string) : p +:+ a = p +:+ b ↔ a = b.
Proof. split; [|by intros ->]. induction p as [|c p IH]; cbn; [done|]. intros [= ?]. auto. Qed.
(** What a token stands for.  Two DNS names have one token exactly when they
    differ in case only; two addresses when they have one canonical spelling; a
    DNS name and an address never. *)
Theorem token_is_the_name v w :
  (normalize "dns" v = normalize "dns" w ↔ lower v = lower w) ∧
  (∀ a b, ip_address v = Ok a → ip_address w = Ok b →
     (normalize "ip" v = normalize "ip" w ↔ str_address a = str_address b)) ∧
  normalize "dns" v ≠ normalize "ip" w.
Proof.
  unfold normalize. rewrite !decide_False by done. rewrite decide_True by done. split_and!.
  - apply (app_inj_prefix "dns:").
  - intros a b -> ->. apply (app_inj_prefix "ip:").
  - by destruct (ip_address w).
Qed.

Lemma fold_tokens ids m t : is_Some (fold_left (λ m '(kind, value), add_token kind value m) ids m !! t) ↔
  is_Some (m !! t) ∨ ∃ p, p ∈ ids ∧ token_of p = t.
Proof.
  revert m. induction ids as [|[k v] ids IH]; intros m; cbn.
  - split; [by left|intros [?|(? & ?%not_elem_of_nil & _)]; done].
  - rewrite IH. unfold add_token. destruct (decide (normalize k v = t)) as [<-|Hne].
    + rewrite lookup_insert_eq. split; [|intros _; left; by eexists]. intros _. right. exists (k, v). split; [left|done].
    + rewrite lookup_insert_ne by done. setoid_rewrite elem_of_cons. split.
      * intros [?|(p & Hp & Ht)]; [by left|right]. exists p. auto.
      * intros [?|(p & [->|Hp] & Ht)]; [by left|done|right]. by exists p.
Qed.
Lemma identifier_tokens_spec ids t : is_Some (identifier_tokens ids !! t) ↔ ∃ p, p ∈ ids ∧ token_of p = t.
Proof. unfold identifier_tokens. rewrite fold_tokens, lookup_empty. split; [by intros [[]|?]|by right]. Qed.
Lemma sorted_missing_nil (d d' : gmap string string) : sorted_missing d d' = [] ↔ ∀ t, is_Some (d !! t) → is_Some (d' !! t).
Proof.
  unfold sorted_missing. set (m := filter _ d). transitivity (m = ∅).
  - split; [|intros ->; by rewrite map_to_list_empty]. intros H.
    assert (Hp : map fst (map_to_list m) ≡ₚ []) by (by rewrite <- H, merge_sort_Permutation).
    symmetry in Hp. apply Permutation_nil in Hp. apply map_eq_nil in Hp. by apply map_to_list_empty_iff.
  - unfold m. rewrite map_empty_filter. unfold map_Forall. split.
    + intros H t [v Hv]. specialize (H t v Hv). cbn in H. by apply not_eq_None_Some in H.
    + intros H t v Hv Hn. destruct (H t) as [w Hw]; [by eexists|]. congruence.
Qed.

Section theorems.
Context {X : X509Lib} {D : DerLib}.

Lemma add_san_tokens_ok names m m' : add_san_tokens names m = Ok m' ↔
  ∃ ps, mapM san_name names = Some ps ∧ m' = fold_left (λ m '(kind, value), add_token kind value m) ps m.
Proof.
  revert m. induction names as [|g names IH]; intros m; cbn [add_san_tokens mapM].
  - split; [intros [= <-]; by exists []|by intros (ps & [= <-] & ->)].
  - destruct (san_name g) as [[k v]|]; cbn; [|split; [done|by intros (? & ? & _)]]. rewrite IH.
    split; intros (ps & Hps & ->).
    + exists ((k, v) :: ps). by rewrite Hps.
    + destruct (mapM san_name names) as [qs|]; [|done]. injection Hps as <-. by exists qs.
Qed.
Lemma mapM_names names ps : mapM san_name names = Some ps →
  (∀ g, g ∈ names → is_Some (san_name g)) ∧ (∀ p, p ∈ ps ↔ ∃ g, g ∈ names ∧ san_name g = Some p).
Proof.
  intros H%mapM_Some_1. split.
  - intros g Hg. apply list_elem_of_lookup in Hg as [i Hi]. destruct (Forall2_lookup_l _ _ _ _ _ H Hi) as (p & _ & Hp). by eexists.
  - intros p. rewrite !list_elem_of_lookup. setoid_rewrite list_elem_of_lookup. split.
    + intros [i Hi]. destruct (Forall2_lookup_r _ _ _ _ _ H Hi) as (g & Hg & Hp). exists g. split; [by exists i|done].
    + intros (g & [i Hi] & Hp). destruct (Forall2_lookup_l _ _ _ _ _ H Hi) as (q & Hq & Hg). exists i. congruence.
Qed.

(** What [check_identifiers] demands: every subject alternative name is a DNS
    name or an address, the names are the order's, no more and no fewer, and a
    common name, if there is one, is among them. *)
Definition names_match (csr : CsrInfo PubKey) (ids : list (string * string)) : Prop :=
  ∃ names cn, csr_names csr = Ok names ∧ common_name csr = Ok cn ∧
    (∀ g, g ∈ names → is_Some (san_name g)) ∧
    (∀ t, (∃ g p, g ∈ names ∧ san_name g = Some p ∧ token_of p = t) ↔ ∃ p, p ∈ ids ∧ token_of p = t) ∧
    (∀ v, cn = Some v → ∃ p, p ∈ ids ∧ (token_of p = normalize "dns" v ∨ token_of p = normalize "ip" v)).
Lemma check_identifiers_ok csr ids u : check_identifiers csr ids = Ok u ↔ names_match csr ids.
Proof.
  destruct u. unfold check_identifiers, names_match. cbn zeta.
  assert (Hcn : ∀ cn, match cn with None => mret () | Some v =>
      raise_if (negb (existsb (λ t, bool_decide (is_Some (identifier_tokens ids !! t))) [normalize "dns" v; normalize "ip" v]))
        (bad ("the CSR's subject common name is not one of the order's identifiers: " +:+ echo v)) end = Ok () ↔
    ∀ v, cn = Some v → ∃ p, p ∈ ids ∧ (token_of p = normalize "dns" v ∨ token_of p = normalize "ip" v)).
  { intros [v|]; [|split; [done|done]]. rewrite raise_if_ok, negb_false_iff. cbn [existsb].
    rewrite orb_false_r, orb_true_iff, !bool_decide_eq_true, !identifier_tokens_spec. split.
    - intros [(p & ? & ?)|(p & ? & ?)] ? [= <-]; exists p; auto.
    - intros H. destruct (H v eq_refl) as (p & Hp & [Ht|Ht]); [left|right]; by exists p. }
  assert (Htok : ∀ names ps, mapM san_name names = Some ps →
    (∀ t, is_Some (fold_left (λ m '(kind, value), add_token kind value m) ps ∅ !! t) ↔ ∃ g p, g ∈ names ∧ san_name g = Some p ∧ token_of p = t)).
  { intros names ps Hps t. rewrite fold_tokens, lookup_empty. destruct (mapM_names _ _ Hps) as [_ Hin]. setoid_rewrite Hin.
    split; [intros [[? [=]]|(p & (g & Hg & Hp) & Ht)]; by exists g, p|intros (g & p & Hg & Hp & Ht); right; exists p; eauto]. }
  unfold san_tokens. split.
  - intros Hd. inv_tx. rewrite nonempty_false, sorted_missing_nil in *.
    match goal with H : add_san_tokens ?l ∅ = Ok _, Hc : common_name csr = Ok ?cn |- _ =>
      apply add_san_tokens_ok in H as (ps & Hps & ->); exists l, cn; pose proof (Htok _ _ Hps) as Ht end.
    split_and!; [done|done|by eapply mapM_names| |by apply Hcn].
    intros t. rewrite <- Ht, <- identifier_tokens_spec. split; auto.
  - intros (names & cn & Hnames & -> & Hall & Hset & Hc). rewrite Hnames. cbn [mbind Outcome_bind].
    destruct (mapM san_name names) as [ps|] eqn:Hps; [|by apply mapM_None_1, Exists_exists in Hps as (g & Hg & Hn); destruct (Hall g Hg); congruence].
    rewrite (proj2 (add_san_tokens_ok names ∅ _) (ex_intro _ ps (conj Hps eq_refl))). cbn [mbind Outcome_bind].
    pose proof (Htok _ _ Hps) as Ht. set (requested := fold_left _ ps ∅) in *.
    rewrite !(proj2 (nonempty_false _)); [by apply Hcn|..]; apply sorted_missing_nil; intros t; rewrite Ht, identifier_tokens_spec; apply Hset.
Qed.

(** The names of the CSR are the names of the order.  The check passes if and
    only if every subject alternative name of the request is a DNS name or an
    address, the names and the order's identifiers are the same set (DNS names
    without regard to case, addresses as addresses), and a common name, if
    there is one, is one of them. *)
Theorem check_identifiers_exact csr ids u : check_identifiers csr ids = Ok u ↔ names_match csr ids.
Proof. apply check_identifiers_ok. Qed.

Lemma check_public_key_ok csr u : check_public_key csr = Ok u ↔
  match key_alg (csr_key csr) with
  | RSA bits => MIN_RSA_BITS ≤ bits
  | EC curve => curve ∈ CURVES
  | Ed25519 => True
  | OtherKey _ => False
  end.
Proof.
  unfold check_public_key. destruct u, (key_alg (csr_key csr)); rewrite ?raise_if_ok, ?negb_false_iff, ?bool_decide_eq_true;
    [apply Z.ltb_ge|done..].
Qed.
Lemma load_ok der csr : load der = Ok csr ↔
  py_len der ≤ MAX_CSR_BYTES ∧ load_der_csr der = Ok csr ∧ csr_signature der = Ok true ∧ check_public_key csr = Ok ().
Proof.
  unfold load. split.
  - intros Hd. inv_tx. repeat match goal with H : catch_pure _ _ (λ _, Raise _) = Ok _ |- _ => apply catch_pure_ok in H end.
    match goal with H : negb ?v = false |- _ => apply negb_false_iff in H; subst v end.
    match goal with u : unit, H : check_public_key _ = Ok ?u' |- _ => destruct u' end. split_and!; [lia|done..].
  - intros (Hlen & Hl & Hs & Hk). rewrite (proj2 (Z.ltb_ge _ _) Hlen). cbn [raise_if]. rewrite Hl, Hs. cbn. by rewrite Hk.
Qed.

(** What cabin will certify over ACME.  A request is accepted only if it is
    no longer than 64 KiB, parses, is signed by its own key, and that key is
    RSA of at least 2048 bits, P-256, P-384 or Ed25519; the request re-encoded
    as PEM is then the same request with a valid signature. *)
Theorem load_sound der csr : load der = Ok csr →
  py_len der ≤ MAX_CSR_BYTES ∧ load_csr (der_to_pem der) = Ok csr ∧ is_signature_valid csr = true ∧
  match key_alg (csr_key csr) with
  | RSA bits => 2048 ≤ bits
  | EC curve => curve = "secp256r1" ∨ curve = "secp384r1"
  | Ed25519 => True
  | OtherKey _ => False
  end.
Proof.
  intros (Hlen & Hl & Hs & Hk%check_public_key_ok)%load_ok. split_and!; [done|by apply load_der_to_pem|by eapply csr_signature_says|].
  destruct (key_alg _); [exact Hk| |done|done]. unfold CURVES in Hk. rewrite !elem_of_cons, elem_of_nil in Hk. tauto.
Qed.
End theorems.

(** ** An instance, and the checks at work

    In the instance a request is its DNS name: well signed, for a P-256 key. *)
Module CsrExamples.
#[local] Existing Instance Toy.lib.
Import Toy.
Definition request_for (der : string) : CsrInfo Key :=
  mkCsr [] (EC "secp256r1", 77) (Ok [mkExtension (SubjectAlternativeName [DNSName der]) false]) true.
#[refine] Definition toy_der : DerLib (X := lib) := {|
  load_der_csr := λ d, if decide (d = "") then Raise (ValueError "") else Ok (request_for d);
  der_to_pem := λ d, CsrText (request_for d);
  csr_signature := λ _, Ok true;
  general_name_repr := λ _, "name" |}.
Proof.
  - intros d c. case_decide; [done|]. by intros [= <-].
  - intros d c b. case_decide; [done|]. by intros [= <-] [= <-].
Defined.
#[local] Existing Instance toy_der.
Lemma load_sound_witness : load "nas.lan" = Ok (request_for "nas.lan") ∧ is_signature_valid (request_for "nas.lan") = true.
Proof.
  assert (H : load (X:=lib) (D:=toy_der) "nas.lan" = Ok (request_for "nas.lan")) by (vm_compute; reflexivity).
  split; [exact H|]. exact (proj1 (proj2 (proj2 (load_sound (X:=lib) (D:=toy_der) _ _ H)))).
Defined.
Example same_name_in_capitals : check_identifiers (X:=lib) (request_for "NAS.lan") [("dns", "nas.lan")] = Ok ().
Proof. vm_compute. reflexivity. Qed.
Example a_name_too_many : check_identifiers (X:=lib) (request_for "evil.lan") [("dns", "nas.lan")] =
  Raise (AcmeError "badCSR" "the CSR asks for names this order did not authorize: evil.lan" 400 [] []).
Proof. vm_compute. reflexivity. Qed.
End CsrExamples.
