(* ===== verification/Jws.v ===== *)
(** * [cabin.acme.jws]: signed requests

    A request is a JWS in the flattened serialization.  [verify_request] turns
    a body into a [VerifiedRequest] or raises; the nonce is spent last.  Keys
    and signatures are those of josepy and of the cryptography package, and
    what the interpreter's [json.loads] makes of a text is an argument too: its
    strings reach beyond the characters of this development. *)

From S2P Require Import Prelude PyStr Json PyTime X509Lib Store Settings CaService Grants Identity Nonces AcmeNames AcmeService Base64 Csr.
#[local] Open Scope Z_scope.

(** ** Keys *)
(** What josepy reads a JWK as. *)
Inductive JwkKind := JWKRSA (bits : Z) | JWKEC (curve : string) | JWKOct.
Definition kty_of (k : JwkKind) : string := match k with JWKRSA _ => "RSA" | JWKEC _ => "EC" | JWKOct => "oct" end.
Class Jose {X : X509Lib} := {
  json_loads : string → Outcome json;
  sha256 : string → string;
  hmac_sha256 : string → string → string;
  EdKey : Type;
  ed_from_bytes : string → Outcome EdKey;
  ed_bytes : EdKey → string;
  ed_verify : EdKey → string → string → bool;
  JoseKey : Type;
  jwk_from_json : list (string * json) → Outcome JoseKey;
  jwk_kind : JoseKey → JwkKind;
  jwk_to_json : JoseKey → gmap string string;
  jose_thumbprint : JoseKey → string;
  jwa_verify : string → JoseKey → string → string → bool;
  ed_public : EdKey → PubKey;
  jwk_public : JoseKey → PubKey;
  (** [JWK.from_json] chooses the class by [kty]. *)
  jwk_kty : ∀ raw k, jwk_from_json raw = Ok k → member "kty" raw = JStr (kty_of (jwk_kind k)) }.

Definition ALLOWED_ALGORITHMS : list string := ["RS256"; "ES256"; "ES384"; "EdDSA"].
Definition EAB_ALGORITHM : string := "HS256".
Definition MAX_BODY_BYTES : Z := 128 * 1024.
Definition ECHO : Z := 80.
(** [_EC_CURVE_FOR_ALG] *)
Definition EC_CURVE_FOR_ALG (alg : string) : option (string * string) :=
  if decide (alg = "ES256") then Some ("P-256", "secp256r1")
  else if decide (alg = "ES384") then Some ("P-384", "secp384r1") else None.
Definition PRIVATE_JWK_PARAMETERS : list string := ["d"; "p"; "q"; "dp"; "dq"; "qi"; "oth"; "k"].

Inductive KeyMode := mode_jwk | mode_kid.
#[export] Instance KeyMode_eq_dec : EqDecision KeyMode.
Proof. solve_decision. Defined.

(** [_echo] *)
Definition echo_value (v : json) : string :=
  let text := json_repr v in if py_len text <=? ECHO then text else str_take (Z.to_nat ECHO) text +:+ "...".
Definition bad_key (detail : string) : Exc := acme_error bad_public_key detail.
Definition is_jwk_error (e : Exc) : bool :=
  match e with DeserializationError _ | KeyError _ | ValueError _ | TypeError _ => true | _ => false end.

Section jws.
Context {X : X509Lib} {SS : SecretStore} {CR : Crypto} {J : Jose}.

(** [AccountKey]: [base] is what the account table keeps of it. *)
Inductive KeyObject := EdObject (k : EdKey) | JoseObject (k : JoseKey).
Record SigningKey := mkKey { base : AccountKey; alg : string; key_object : KeyObject }.
Definition verify (k : SigningKey) (signing_input signature : string) : bool :=
  match key_object k with
  | EdObject e => ed_verify e signature signing_input
  | JoseObject j => jwa_verify (alg k) j signing_input signature
  end.
(** Two keys are the same when their SubjectPublicKeyInfo is. *)
Definition public_of (k : SigningKey) : PubKey :=
  match key_object k with EdObject e => ed_public e | JoseObject j => jwk_public j end.

Definition loads (raw what : string) : Outcome json :=
  match json_loads raw with
  | Raise (ValueError _) => Raise (acme_error malformed (what +:+ " is not JSON"))
  | Raise (RecursionError _) => Raise (acme_error malformed (what +:+ " is nested too deeply"))
  | r => r
  end.
Definition json_object (raw what : string) : Outcome (list (string * json)) :=
  decoded ← loads raw what;
  match decoded with JObj o => Ok o | _ => Raise (acme_error malformed (what +:+ " is not a JSON object")) end.

Definition okp_key (raw : list (string * json)) (a : string) : Outcome SigningKey :=
  _ ← raise_if (negb (bool_decide (member "crv" raw = JStr "Ed25519"))) (bad_key "EdDSA requires an Ed25519 key");
  material ← b64decode (member "x" raw) ("the JWK's " +:+ quoted "x" +:+ " parameter");
  public ← catch_pure (ed_from_bytes material) is_value_error
    (λ e, Raise (bad_key ("not a usable Ed25519 key: " +:+ exc_text e)));
  let x := b64encode (ed_bytes public) in
  let canonical := "{" +:+ quoted "crv" +:+ ":" +:+ quoted "Ed25519" +:+ "," +:+ quoted "kty" +:+ ":" +:+ quoted "OKP" +:+ ","
                   +:+ quoted "x" +:+ ":" +:+ quoted x +:+ "}" in
  mret (mkKey (mkAccountKey (<["crv" := "Ed25519"]> (<["kty" := "OKP"]> {["x" := x]})) (b64encode (sha256 canonical))) a (EdObject public)).
Definition josepy_key (raw : list (string * json)) (a : string) : Outcome SigningKey :=
  parsed ← catch_pure (jwk_from_json raw) is_jwk_error
    (λ e, Raise (bad_key ("the JWK could not be read: " +:+ exc_text e)));
  _ ← match jwk_kind parsed with
      | JWKOct => mthrow (bad_key "unsupported JWK key type")
      | JWKRSA bits =>
          raise_if (bits <? MIN_RSA_BITS) (bad_key ("an RSA account key must be at least " +:+ str_of_Z MIN_RSA_BITS +:+ " bits, not " +:+ str_of_Z bits))
      | JWKEC curve =>
          '(announced, expected) ← of_option (EC_CURVE_FOR_ALG a) (KeyError (py_repr a));
          raise_if (negb (bool_decide (curve = expected))) (bad_key (a +:+ " requires a " +:+ announced +:+ " key"))
      end;
  mret (mkKey (mkAccountKey (jwk_to_json parsed) (b64encode (jose_thumbprint parsed))) a (JoseObject parsed)).
Definition load_account_key (raw : json) (a : string) : Outcome SigningKey :=
  match raw with
  | JObj raw =>
      _ ← raise_if (existsb (λ p, has p raw) PRIVATE_JWK_PARAMETERS) (bad_key "the JWK must contain only public key parameters");
      let kty := member "kty" raw in
      if decide (a = "EdDSA" ∧ kty = JStr "OKP") then okp_key raw a
      else if decide (a = "RS256" ∧ kty = JStr "RSA") then josepy_key raw a
      else if decide (is_Some (EC_CURVE_FOR_ALG a) ∧ kty = JStr "EC") then josepy_key raw a
      else mthrow (bad_key ("a " +:+ echo_value kty +:+ " key cannot carry " +:+ a +:+ " signatures"))
  | _ => mthrow (acme_error malformed "the JWS jwk header is not a JSON object")
  end.

(** ** Documents *)
Record Jws := mkJws { protected_b64 : string; payload_b64 : string; signature : string; protected : list (string * json) }.
Definition signing_input (j : Jws) : string := protected_b64 j +:+ "." +:+ payload_b64 j.
Definition string_member (k : string) (document : list (string * json)) : Outcome string :=
  match member k document with
  | JStr v => Ok v
  | _ => Raise (acme_error malformed ("the JWS has no string " +:+ quoted k +:+ " member"))
  end.
Definition parse_document (document : json) : Outcome Jws :=
  match document with
  | JObj document =>
      _ ← raise_if (has "signatures" document)
            (acme_error malformed "RFC 8555 6.2 requires the flattened JSON serialization, with one signature");
      _ ← raise_if (has "header" document) (acme_error malformed "the JWS must not carry an unprotected header");
      protected_text ← string_member "protected" document;
      payload_text ← string_member "payload" document;
      signature_text ← string_member "signature" document;
      raw ← b64decode (JStr protected_text) "the JWS protected header";
      header ← json_object raw "the JWS protected header";
      _ ← raise_if (has "crit" header) (acme_error malformed ("the JWS " +:+ quoted "crit" +:+ " header is not supported"));
      sig ← b64decode (JStr signature_text) "the JWS signature";
      mret (mkJws protected_text payload_text sig header)
  | _ => mthrow (acme_error malformed "the request body is not a JSON object")
  end.
Definition parse (body : string) : Outcome Jws :=
  _ ← raise_if (MAX_BODY_BYTES <? py_len body) (acme_error malformed "the request body is too large");
  document ← loads body "the request body";
  parse_document document.
Definition algorithm (header : list (string * json)) : Outcome string :=
  let unsupported := acme_error_extra bad_signature_algorithm ("unsupported JWS algorithm: " +:+ echo_value (member "alg" header))
    [("algorithms", JList (map JStr ALLOWED_ALGORITHMS))] in
  match member "alg" header with
  | JStr a => _ ← raise_if (bool_decide (a ∉ ALLOWED_ALGORITHMS)) unsupported; mret a
  | _ => mthrow unsupported
  end.
Definition payload_of_text (text : string) : Outcome (option (list (string * json))) :=
  if decide (text = "") then mret None else
  raw ← b64decode (JStr text) "the JWS payload";
  if decide (raw = "") then mret None else
  o ← json_object raw "the JWS payload";
  mret (Some o).

(** ** Requests *)
Definition account_status_text (s : AccountStatus) : string :=
  match s with acc_valid => "valid" | acc_deactivated => "deactivated" | acc_revoked => "revoked" end.
Definition account_for_kid (kid : json) (account_url_prefix : string) (db : DB) : Outcome AccountRow :=
  let foreign := acme_error unauthorized "the JWS kid header is not an account URL of this server" in
  match kid with
  | JStr kid =>
      _ ← raise_if (negb (startswith kid account_url_prefix)) foreign;
      let account_id := str_drop (String.length account_url_prefix) kid in
      _ ← raise_if (bool_decide (account_id = "") || contains "/"%char account_id)
            (acme_error unauthorized "the JWS kid header is not an account URL");
      account ← of_option (first_where (accounts db) (λ a, bool_decide (kid_hash a = kid_hash_of account_id)))
                  (acme_error account_does_not_exist "no account with that key identifier");
      _ ← raise_if (negb (bool_decide (acc_status account = acc_valid)))
            (acme_error unauthorized ("this account is " +:+ account_status_text (acc_status account)));
      mret account
  | _ => mthrow foreign
  end.
(** [json.loads(account.jwk_json)] *)
Definition stored_jwk (account : AccountRow) : json := JObj (map_to_list (JStr <$> jwk_json account)).

Record VerifiedRequest := mkVerified {
  vr_protected : list (string * json); payload : option (list (string * json)); vr_key : SigningKey; vr_account : option AccountRow }.

Definition key_mode_of (header : list (string * json)) : Outcome KeyMode :=
  let has_jwk := has "jwk" header in
  let has_kid := has "kid" header in
  _ ← raise_if (eqb has_jwk has_kid) (acme_error malformed "the JWS must carry exactly one of the jwk and kid headers");
  mret (if has_kid then mode_kid else mode_jwk).
(** What is checked of the header before the key is looked for: the mode the
    request is in, and its nonce. *)
Definition check_header (header : list (string * json)) (url : string) (mode : KeyMode) : Outcome (KeyMode * string) :=
  found ← key_mode_of header;
  _ ← raise_if (bool_decide (mode = mode_jwk ∧ found = mode_kid)) (acme_error malformed "this request must carry its key in a jwk header");
  _ ← raise_if (bool_decide (mode = mode_kid ∧ found = mode_jwk)) (acme_error malformed "this request must name its account in a kid header");
  _ ← raise_if (negb (bool_decide (member "url" header = JStr url)))
        (acme_error unauthorized "the JWS url header does not match the requested URL");
  match member "nonce" header with
  | JStr nonce => _ ← raise_if (bool_decide (nonce = "")) (acme_error bad_nonce "the JWS carries no anti-replay nonce"); mret (found, nonce)
  | _ => mthrow (acme_error bad_nonce "the JWS carries no anti-replay nonce")
  end.
Definition signer (header : list (string * json)) (a : string) (found : KeyMode) (account_url_prefix : string) (db : DB)
  : Outcome (option AccountRow * SigningKey) :=
  match found with
  | mode_kid =>
      account ← account_for_kid (member "kid" header) account_url_prefix db;
      key ← load_account_key (stored_jwk account) a;
      mret (Some account, key)
  | mode_jwk =>
      key ← load_account_key (member "jwk" header) a;
      mret (None, key)
  end.
Definition verify_request (body url : string) (mode : KeyMode) (account_url_prefix : string) (now : Z) : Tx DB VerifiedRequest :=
  jws ← lift (parse body);
  a ← lift (algorithm (protected jws));
  '(found, nonce) ← lift (check_header (protected jws) url mode);
  who ← query (signer (protected jws) a found account_url_prefix);
  '(account, key) ← lift who;
  _ ← raise_if (negb (verify key (signing_input jws) (signature jws))) (acme_error malformed "the JWS signature does not verify");
  spent ← consume nonce now;
  _ ← raise_if (negb spent) (acme_error bad_nonce "this nonce is unknown, already used, or expired");
  members ← lift (payload_of_text (payload_b64 jws));
  mret (mkVerified (protected jws) members key account).
Definition key_mode (body : string) : Outcome KeyMode :=
  jws ← parse body;
  key_mode_of (protected jws).

(** ** The JWS inside another *)
Record ExternalBinding := mkBinding { eab_kid : string; eab_signing_input : string; eab_signature : string; eab_payload : string }.
Definition parse_external_binding (document : json) (url : string) : Outcome ExternalBinding :=
  jws ← parse_document document;
  let a := member "alg" (protected jws) in
  _ ← raise_if (negb (bool_decide (a = JStr EAB_ALGORITHM)))
        (acme_error_extra bad_signature_algorithm
           ("an external account binding must be signed with " +:+ EAB_ALGORITHM +:+ ", not " +:+ echo_value a)
           [("algorithms", JList [JStr EAB_ALGORITHM])]);
  let nameless := acme_error malformed "the external account binding names no key identifier in its kid header" in
  kid ← match member "kid" (protected jws) with
        | JStr kid => _ ← raise_if (bool_decide (kid = "")) nameless; mret kid
        | _ => mthrow nameless
        end;
  _ ← raise_if (has "jwk" (protected jws))
        (acme_error malformed "the external account binding must name its key by kid, not carry one inline");
  _ ← raise_if (negb (bool_decide (member "url" (protected jws) = JStr url)))
        (acme_error malformed "the external account binding was not made for this server's new-account URL");
  mret (mkBinding kid (signing_input jws) (signature jws) (payload_b64 jws)).
Definition verify_external_binding (binding : ExternalBinding) (mac_key : string) (account_jwk : gmap string string) : Outcome unit :=
  _ ← raise_if (negb (bool_decide (hmac_sha256 mac_key (eab_signing_input binding) = eab_signature binding)))
        (acme_error unauthorized "the external account binding does not verify");
  members ← payload_of_text (eab_payload binding);
  members ← of_option members (acme_error malformed "the external account binding carries no key");
  raise_if (existsb (λ '(k, v), negb (bool_decide (member k members = JStr v))) (map_to_list account_jwk))
    (acme_error unauthorized "the external account binding is not for the key this request is signed with").
Definition verify_embedded (document : json) (url : string) : Outcome (SigningKey * list (string * json)) :=
  jws ← parse_document document;
  a ← algorithm (protected jws);
  _ ← raise_if (negb (has "jwk" (protected jws)) || has "kid" (protected jws))
        (acme_error malformed "the inner JWS must carry a jwk header, not a kid");
  _ ← raise_if (has "nonce" (protected jws)) (acme_error malformed "the inner JWS must not carry a nonce");
  _ ← raise_if (negb (bool_decide (member "url" (protected jws) = JStr url)))
        (acme_error malformed "the inner JWS url header does not match the outer one");
  key ← load_account_key (member "jwk" (protected jws)) a;
  _ ← raise_if (negb (verify key (signing_input jws) (signature jws)))
        (acme_error malformed "the inner JWS signature does not verify");
  members ← payload_of_text (payload_b64 jws);
  members ← of_option members (acme_error malformed "the inner JWS has no payload");
  mret (key, members).
End jws.

(** ** What a verified request is *)
Section theorems.
Context {X : X509Lib} {SS : SecretStore} {CR : Crypto} {J : Jose}.

Lemma algorithm_ok h a : algorithm h = Ok a ↔ member "alg" h = JStr a ∧ a ∈ ALLOWED_ALGORITHMS.
Proof.
  unfold algorithm. destruct (member "alg" h) as [| | | |s| |] eqn:E; cbn; try (split; [done|intros [? _]; congruence]).
  destruct (decide (s ∈ ALLOWED_ALGORITHMS)) as [Hin|Hout].
  - rewrite bool_decide_eq_false_2 by naive_solver. cbn. split; [by intros [= <-]|by intros [[= ->] _]].
  - rewrite bool_decide_eq_true_2 by done. split; [done|]. by intros [[= ->] ?].
Qed.
Lemma key_mode_ok h m : key_mode_of h = Ok m ↔ has "jwk" h = bool_decide (m = mode_jwk) ∧ has "kid" h = bool_decide (m = mode_kid).
Proof. unfold key_mode_of. destruct (has "jwk" h), (has "kid" h), m; cbn; split; try done; by intros []. Qed.
Lemma check_header_ok h url mode found nonce : check_header h url mode = Ok (found, nonce) ↔
  found = mode ∧ key_mode_of h = Ok mode ∧ member "url" h = JStr url ∧ member "nonce" h = JStr nonce ∧ nonce ≠ "".
Proof.
  unfold check_header. destruct (key_mode_of h) as [m|e]; cbn; [|split; [done|naive_solver]].
  destruct (decide (m = mode)) as [->|Hne].
  - assert (Hm1 : bool_decide (mode = mode_jwk ∧ mode = mode_kid) = false) by by destruct mode.
    assert (Hm2 : bool_decide (mode = mode_kid ∧ mode = mode_jwk) = false) by by destruct mode.
    rewrite Hm1, Hm2. cbn.
    destruct (decide (member "url" h = JStr url)) as [Hu|Hu];
      [rewrite bool_decide_eq_true_2 by done|rewrite bool_decide_eq_false_2 by done; split; [done|naive_solver]].
    cbn. destruct (member "nonce" h) as [| | | |s| |]; try (split; [done|naive_solver]).
    destruct (decide (s = "")) as [->|Hs]; [split; [done|naive_solver]|]. rewrite bool_decide_eq_false_2 by done. cbn.
    split; [by intros [= <- <-]|]. by intros (-> & _ & _ & [= ->] & _).
  - split; [|naive_solver]. destruct m, mode; done.
Qed.

(** The key fits the algorithm. *)
Definition key_fits (k : SigningKey) : Prop :=
  match key_object k with
  | EdObject _ => alg k = "EdDSA"
  | JoseObject j =>
      match jwk_kind j with
      | JWKRSA bits => alg k = "RS256" ∧ MIN_RSA_BITS ≤ bits
      | JWKEC curve => alg k = "ES256" ∧ curve = "secp256r1" ∨ alg k = "ES384" ∧ curve = "secp384r1"
      | JWKOct => False
      end
  end.
Lemma curve_for_ok a announced expected : EC_CURVE_FOR_ALG a = Some (announced, expected) →
  a = "ES256" ∧ expected = "secp256r1" ∨ a = "ES384" ∧ expected = "secp384r1".
Proof. unfold EC_CURVE_FOR_ALG. repeat case_decide; naive_solver. Qed.
Lemma okp_key_ok raw a k : okp_key raw a = Ok k → alg k = a ∧ ∃ e, key_object k = EdObject e.
Proof.
  unfold okp_key. intros (? & _ & (? & _ & (public & _ & [= <-])%Outcome_bind_ok)%Outcome_bind_ok)%Outcome_bind_ok.
  split; [done|by eexists].
Qed.
Lemma josepy_key_ok raw a k : josepy_key raw a = Ok k → alg k = a ∧ ∃ j, key_object k = JoseObject j ∧ jwk_from_json raw = Ok j ∧
  match jwk_kind j with
  | JWKRSA bits => MIN_RSA_BITS ≤ bits
  | JWKEC curve => ∃ announced, EC_CURVE_FOR_ALG a = Some (announced, curve)
  | JWKOct => False
  end.
Proof.
  unfold josepy_key. intros (j & Hj & (? & Hchk & [= <-])%Outcome_bind_ok)%Outcome_bind_ok. split; [done|]. exists j. split; [done|].
  split. { revert Hj. unfold catch_pure. destruct (jwk_from_json raw) as [|e]; [done|]. by destruct (is_jwk_error e). }
  destruct (jwk_kind j) as [bits|curve|]; [| |done].
  - revert Hchk. destruct (Z.ltb_spec bits MIN_RSA_BITS); [done|]. lia.
  - apply Outcome_bind_ok in Hchk as ([announced expected] & Hc & Hcurve). apply of_option_ok in Hc.
    exists announced. destruct (decide (curve = expected)) as [->|Hne]; [done|]. by rewrite bool_decide_eq_false_2 in Hcurve.
Qed.
Lemma load_account_key_ok raw a k : load_account_key raw a = Ok k → alg k = a ∧ key_fits k ∧
  ∃ o, raw = JObj o ∧ ∀ p, p ∈ PRIVATE_JWK_PARAMETERS → has p o = false.
Proof.
  unfold load_account_key. destruct raw as [| | | | | |o]; try done. intros (u & Hpriv & Hk)%Outcome_bind_ok.
  assert (Hno : ∀ p, p ∈ PRIVATE_JWK_PARAMETERS → has p o = false).
  { intros p Hp. destruct (has p o) eqn:E; [|done]. apply raise_if_ok in Hpriv.
    assert (existsb (λ p, has p o) PRIVATE_JWK_PARAMETERS = true); [|congruence].
    apply existsb_exists. exists p. by rewrite <- list_elem_of_In. }
  unfold key_fits. repeat case_decide; [..|done].
  - apply okp_key_ok in Hk as [Ha [e ->]]. split; [done|]. split; [by destruct_and?; congruence|by exists o].
  - apply josepy_key_ok in Hk as (Ha & j & -> & Hj & Hkind). split; [done|]. split; [|by exists o].
    apply jwk_kty in Hj. destruct (jwk_kind j); cbn in *; destruct_and?; try congruence. split; [congruence|done].
  - apply josepy_key_ok in Hk as (Ha & j & -> & Hj & Hkind). split; [done|]. split; [|by exists o].
    apply jwk_kty in Hj. destruct (jwk_kind j) as [| |]; cbn in *; destruct_and?; try congruence.
    destruct Hkind as [announced Hc%curve_for_ok]. rewrite Ha. naive_solver.
Qed.

Lemma chars_length s : length (chars s) = String.length s.
Proof. induction s as [|c s IH]; [done|]. cbn. by rewrite <- IH. Qed.
Lemma str_drop_prefix p n : str_drop (String.length p) (p +:+ n) = n.
Proof. unfold str_drop. by rewrite chars_app, <- chars_length, drop_app_length, of_chars_chars. Qed.
Lemma account_for_kid_ok kid prefix db a : account_for_kid kid prefix db = Ok a ↔
  ∃ n, kid = JStr (prefix +:+ n) ∧ n ≠ "" ∧ contains "/"%char n = false ∧
    first_where (accounts db) (λ a, bool_decide (kid_hash a = kid_hash_of n)) = Some a ∧ acc_status a = acc_valid.
Proof.
  unfold account_for_kid. destruct kid as [| | | |kid| |]; try (split; [done|naive_solver]).
  destruct (startswith kid prefix) eqn:Hs.
  2: { split; [done|]. intros (n & [= ->] & _). assert (startswith (prefix +:+ n) prefix = true) by (apply startswith_spec; by eexists). congruence. }
  apply startswith_spec in Hs as [n ->]. rewrite str_drop_prefix. cbn.
  assert (Hn : ∀ m, JStr (prefix +:+ n) = JStr (prefix +:+ m) → m = n).
  { intros m [= Hm]. rewrite <- (str_drop_prefix prefix n), Hm. by rewrite str_drop_prefix. }
  destruct (decide (n = "")) as [->|Hne]; [split; [done|intros (m & Hm & ? & _); by apply Hn in Hm]|].
  rewrite bool_decide_eq_false_2 by done. cbn. destruct (contains "/"%char n) eqn:Hc; cbn.
  { split; [done|]. intros (m & ->%Hn & _ & ? & _). congruence. }
  destruct (first_where _ _) as [b|] eqn:Hf; cbn.
  2: { split; [done|]. intros (m & ->%Hn & _ & _ & Hf' & _). rewrite Hf in Hf'. congruence. }
  destruct (decide (acc_status b = acc_valid)) as [Hv|Hv].
  - rewrite bool_decide_eq_true_2 by done. cbn. split; [intros [= <-]; by exists n|]. intros (m & ->%Hn & _ & _ & Hf' & _). rewrite Hf in Hf'. by injection Hf' as ->.
  - rewrite bool_decide_eq_false_2 by done. cbn. split; [done|]. intros (m & ->%Hn & _ & _ & Hf' & ?). rewrite Hf in Hf'. congruence.
Qed.

(** A body [j] signed by [key], for this URL, in this mode, with this nonce;
    in kid mode the key is a registered account's. *)
Record authentic (db : DB) (body url : string) (mode : KeyMode) (prefix : string)
    (j : Jws) (account : option AccountRow) (key : SigningKey) (nonce : string) : Prop := {
  au_body : parse body = Ok j;
  au_alg : member "alg" (protected j) = JStr (alg key) ∧ alg key ∈ ALLOWED_ALGORITHMS;
  au_mode : has "jwk" (protected j) = bool_decide (mode = mode_jwk) ∧ has "kid" (protected j) = bool_decide (mode = mode_kid);
  au_url : member "url" (protected j) = JStr url;
  au_nonce : member "nonce" (protected j) = JStr nonce ∧ nonce ≠ "";
  au_key : match mode with
    | mode_jwk => account = None ∧ load_account_key (member "jwk" (protected j)) (alg key) = Ok key
    | mode_kid => ∃ n a, member "kid" (protected j) = JStr (prefix +:+ n) ∧ n ≠ "" ∧ contains "/"%char n = false ∧
        first_where (accounts db) (λ a, bool_decide (kid_hash a = kid_hash_of n)) = Some a ∧ acc_status a = acc_valid ∧
        account = Some a ∧ load_account_key (stored_jwk a) (alg key) = Ok key
    end;
  au_fits : key_fits key;
  au_signature : verify key (signing_input j) (signature j) = true }.

Lemma signer_ok h a mode prefix db account key : signer h a mode prefix db = Ok (account, key) ↔
  match mode with
  | mode_jwk => account = None ∧ load_account_key (member "jwk" h) a = Ok key
  | mode_kid => ∃ n acct, member "kid" h = JStr (prefix +:+ n) ∧ n ≠ "" ∧ contains "/"%char n = false ∧
      first_where (accounts db) (λ a, bool_decide (kid_hash a = kid_hash_of n)) = Some acct ∧ acc_status acct = acc_valid ∧
      account = Some acct ∧ load_account_key (stored_jwk acct) a = Ok key
  end.
Proof.
  unfold signer. destruct mode.
  - destruct (load_account_key _ a) as [k|e]; cbn; (split; [by try intros [= <- <-]|intros [-> Hk]]); [|done]. by injection Hk as ->.
  - assert (Hkid : ∀ acct, account_for_kid (member "kid" h) prefix db = Ok acct ↔ ∃ n, member "kid" h = JStr (prefix +:+ n) ∧ n ≠ "" ∧
      contains "/"%char n = false ∧ first_where (accounts db) (λ a, bool_decide (kid_hash a = kid_hash_of n)) = Some acct ∧
      acc_status acct = acc_valid) by (intros acct; apply account_for_kid_ok).
    split.
    + intros (acct & (n & Hn)%Hkid & (k & Hk & [= <- <-])%Outcome_bind_ok)%Outcome_bind_ok. exists n, acct. by destruct_and!; split_and!.
    + intros (n & acct & H1 & H2 & H3 & H4 & H5 & -> & Hk). apply Outcome_bind_ok. exists acct.
      split; [apply Hkid; by exists n|]. apply Outcome_bind_ok. by exists key.
Qed.

(** The checks before the nonce is spent: none of them writes. *)
Definition authenticate (body url : string) (mode : KeyMode) (prefix : string) (db : DB)
  : Outcome (Jws * option AccountRow * SigningKey * string) :=
  j ← parse body;
  a ← algorithm (protected j);
  '(found, nonce) ← check_header (protected j) url mode;
  '(account, key) ← signer (protected j) a found prefix db;
  _ ← raise_if (negb (verify key (signing_input j) (signature j))) (acme_error malformed "the JWS signature does not verify");
  mret (j, account, key, nonce).
Lemma authenticate_ok body url mode prefix db j account key nonce :
  authenticate body url mode prefix db = Ok (j, account, key, nonce) ↔ authentic db body url mode prefix j account key nonce.
Proof.
  unfold authenticate. split.
  - intros (j' & Hj & (a & Ha & ([found nonce'] & Hh & ([account' key'] & Hs & (u & Hv & [= -> -> -> ->])%Outcome_bind_ok)%Outcome_bind_ok)%Outcome_bind_ok)%Outcome_bind_ok)%Outcome_bind_ok.
    apply check_header_ok in Hh as (-> & Hmode%key_mode_ok & Hurl & Hnonce & Hne). apply algorithm_ok in Ha as [Ha Hin].
    apply raise_if_ok, negb_false_iff in Hv. apply signer_ok in Hs.
    assert (Hload : alg key = a ∧ key_fits key).
    { destruct mode; [destruct Hs as [_ Hs]|destruct Hs as (? & ? & _ & _ & _ & _ & _ & _ & Hs)];
        apply load_account_key_ok in Hs as (? & ? & _); done. }
    destruct Hload as [<- Hfits]. by split.
  - intros [Hj [Ha Hin] Hmode Hurl [Hn Hne] Hkey _ Hv]. apply Outcome_bind_ok. exists j. split; [done|].
    apply Outcome_bind_ok. exists (alg key). split; [by apply algorithm_ok|]. apply Outcome_bind_ok. exists (mode, nonce).
    split; [apply check_header_ok; by rewrite key_mode_ok|]. apply Outcome_bind_ok. exists (account, key). split; [by apply signer_ok|].
    apply Outcome_bind_ok. exists (). by rewrite Hv.
Qed.
Lemma request_consume_bind {B} n now (f : bool → Tx DB B) db :
  request (consume n now ≫= f) db = match request (consume n now) db with (Ok b, db') => request (f b) db' | (Raise e, db') => (Raise e, db') end.
Proof. unfold consume. by destruct (decide (n = "")). Qed.
Lemma request_verify body url mode prefix now db : request (verify_request body url mode prefix now) db =
  match authenticate body url mode prefix db with
  | Raise e => (Raise e, db)
  | Ok (j, account, key, nonce) =>
      match request (consume nonce now) db with
      | (Ok true, db') => (members ← payload_of_text (payload_b64 j); Ok (mkVerified (protected j) members key account), db')
      | (Ok false, db') => (Raise (acme_error bad_nonce "this nonce is unknown, already used, or expired"), db')
      | (Raise e, db') => (Raise e, db')
      end
  end.
Proof.
  unfold verify_request, authenticate. rewrite request_lift. destruct (parse body) as [j|e]; [|done]. cbn.
  rewrite request_lift. destruct (algorithm (protected j)) as [a|e]; [|done]. cbn.
  rewrite request_lift. destruct (check_header (protected j) url mode) as [[found nonce]|e]; [|done]. cbn.
  rewrite request_query, request_lift. destruct (signer (protected j) a found prefix db) as [[account key]|e]; [|done]. cbn.
  rewrite request_raise_if. destruct (negb _); [done|]. cbn. rewrite request_consume_bind.
  destruct (request (consume nonce now) db) as [[[]|e] db']; [|done..]. rewrite request_raise_if, request_lift. cbn.
  by destruct (payload_of_text _).
Qed.

Lemma verify_request_ok body url mode prefix now db r db' :
  request (verify_request body url mode prefix now) db = (r, db') →
  (∀ v, r = Ok v ↔ ∃ j nonce issued_at, authentic db body url mode prefix j (vr_account v) (vr_key v) nonce ∧
     nonces db !! nonce = Some issued_at ∧ str_leb (iso (now - NONCE_LIFETIME)) issued_at = true ∧
     vr_protected v = protected j ∧ payload_of_text (payload_b64 j) = Ok (payload v)) ∧
  (db' = db ∧ is_ok r = false ∨
   ∃ j account key nonce, authentic db body url mode prefix j account key nonce ∧
     is_Some (nonces db !! nonce) ∧ db' = on_nonces (delete nonce) db).
Proof.
  rewrite request_verify. destruct (authenticate body url mode prefix db) as [[[[j account] key] nonce]|e] eqn:Hauth.
  2: { intros [= <- <-]. split; [|by left]. intros v. split; [done|]. intros (j & nonce & t & Ha & _).
       apply authenticate_ok in Ha. congruence. }
  pose proof (proj1 (authenticate_ok _ _ _ _ _ _ _ _ _) Hauth) as Ha. rewrite request_consume by apply (au_nonce _ _ _ _ _ _ _ _ _ Ha).
  assert (Hsame : ∀ j' account' key' nonce', authentic db body url mode prefix j' account' key' nonce' →
    j' = j ∧ account' = account ∧ key' = key ∧ nonce' = nonce).
  { intros j' account' key' nonce' H. apply authenticate_ok in H. rewrite Hauth in H. by injection H. }
  destruct (nonces db !! nonce) as [t|] eqn:Hn; [destruct (str_leb _ t) eqn:Ht|].
  - intros [= <- <-]. split.
    + intros v. destruct (payload_of_text (payload_b64 j)) as [m|e] eqn:Hp; cbn.
      * split; [intros [= <-]; by exists j, nonce, t|]. intros (j' & nonce' & t' & Ha' & _ & _ & Hv & Hp').
        destruct (Hsame _ _ _ _ Ha') as (-> & Hacc & Hkey & ->). rewrite Hp in Hp'. injection Hp' as Hm. destruct v; cbn in *. congruence.
      * split; [done|]. intros (j' & nonce' & t' & Ha' & _ & _ & _ & Hp'). destruct (Hsame _ _ _ _ Ha') as (-> & _). congruence.
    + right. exists j, account, key, nonce. by rewrite Hn.
  - intros [= <- <-]. split; [|by left]. intros v. split; [done|]. intros (j' & nonce' & t' & Ha' & Hn' & Ht' & _).
    destruct (Hsame _ _ _ _ Ha') as (_ & _ & _ & ->). congruence.
  - intros [= <- <-]. split; [|by left]. intros v. split; [done|]. intros (j' & nonce' & t' & Ha' & Hn' & _).
    destruct (Hsame _ _ _ _ Ha') as (_ & _ & _ & ->). congruence.
Qed.

(** C12: a request is believed exactly when it is authentic and its nonce is
    live, and then the nonce is gone.  Whatever else arrives is refused; and
    unless it was authentic (a payload that is no JSON object, say) refusing it
    changes nothing, so that nobody can spend a nonce on somebody's behalf. *)
Theorem verify_request_exact body url mode prefix now db r db' :
  request (verify_request body url mode prefix now) db = (r, db') →
  (∀ v, r = Ok v ↔ ∃ j nonce issued_at, authentic db body url mode prefix j (vr_account v) (vr_key v) nonce ∧
     nonces db !! nonce = Some issued_at ∧ str_leb (iso (now - NONCE_LIFETIME)) issued_at = true ∧
     vr_protected v = protected j ∧ payload_of_text (payload_b64 j) = Ok (payload v)) ∧
  (db' = db ∧ is_ok r = false ∨
   ∃ j account key nonce, authentic db body url mode prefix j account key nonce ∧
     is_Some (nonces db !! nonce) ∧ db' = on_nonces (delete nonce) db).
Proof. apply verify_request_ok. Qed.
End theorems.

(** ** A signed request *)
Module JwsExamples.
#[local] Existing Instance Toy.lib.
#[local] Existing Instance toy_secrets.
#[local] Existing Instance toy_crypto.
Import Toy CaExamples.
Definition url : string := "https://ca.lan/acme/ca/2/new-account".
Definition header : json := JObj [("alg", JStr "EdDSA");
  ("jwk", JObj [("kty", JStr "OKP"); ("crv", JStr "Ed25519"); ("x", JStr (b64encode "raw key"))]);
  ("nonce", JStr "n1"); ("url", JStr url)].
Definition signed : string := b64encode "the header" +:+ "." +:+ b64encode "the payload".
Definition body_of (sig : string) : json :=
  JObj [("protected", JStr (b64encode "the header")); ("payload", JStr (b64encode "the payload")); ("signature", JStr (b64encode sig))].
(** The texts that are JSON here; Ed25519 signs by quoting. *)
Fixpoint read_text (texts : list (string * json)) (s : string) : Outcome json :=
  match texts with
  | [] => Raise (ValueError "Expecting value")
  | (t, v) :: texts => if decide (s = t) then Ok v else read_text texts s
  end.
#[refine] Definition jose_reading (texts : list (string * json)) : Jose := {|
  json_loads := read_text texts;
  sha256 := λ s, s;
  hmac_sha256 := λ k s, k +:+ s;
  EdKey := string;
  ed_from_bytes := λ s, Ok s;
  ed_bytes := λ k, k;
  ed_verify := λ k sig input, bool_decide (sig = k +:+ ":" +:+ input);
  JoseKey := JwkKind;
  jwk_from_json := λ raw, if decide (member "kty" raw = JStr "RSA") then Ok (JWKRSA 2048)
                          else if decide (member "kty" raw = JStr "EC") then Ok (JWKEC "secp256r1")
                          else Raise (DeserializationError "kty");
  jwk_kind := λ k, k;
  jwk_to_json := λ k, {["kty" := kty_of k]};
  jose_thumbprint := λ k, kty_of k;
  jwa_verify := λ _ _ _ _, false;
  ed_public := λ k, (EC "secp256r1", Z.of_nat (String.length k));
  jwk_public := λ _, (EC "secp256r1", 0) |}.
Proof. intros raw k. repeat case_decide; naive_solver. Defined.
Definition toy_jose : Jose := jose_reading [("the header", header); ("the payload", JObj [("termsOfServiceAgreed", JBool true)]);
  ("the body", body_of ("raw key:" +:+ signed)); ("a forgery", body_of "no key:")].
#[local] Existing Instance toy_jose.
Definition one_nonce : DB := on_nonces (<["n1" := iso t2026]>) empty_db.
Definition arrives (body : string) : Outcome VerifiedRequest * DB :=
  request (verify_request body url mode_jwk "https://ca.lan/acme/account/" t2026) one_nonce.
Example believed : is_ok (fst (arrives "the body")) = true ∧ nonces (snd (arrives "the body")) !! "n1" = None.
Proof. vm_compute. done. Qed.
(** The forgery leaves the nonce to the client it was for. *)
Example forged : is_ok (fst (arrives "a forgery")) = false ∧ is_Some (nonces (snd (arrives "a forgery")) !! "n1").
Proof. vm_compute. split; [reflexivity|by eexists]. Qed.
Lemma verify_request_exact_witness : is_ok (fst (arrives "the body")) = true ∧
  ∃ v j nonce issued_at, fst (arrives "the body") = Ok v ∧
    authentic one_nonce "the body" url mode_jwk "https://ca.lan/acme/account/" j (vr_account v) (vr_key v) nonce ∧
    nonces one_nonce !! nonce = Some issued_at.
Proof.
  assert (H : is_ok (fst (arrives "the body")) = true) by (vm_compute; reflexivity).
  split; [exact H|]. destruct (fst (arrives "the body")) as [v|e] eqn:E; [|discriminate H].
  destruct (proj1 (proj1 (verify_request_exact (X:=lib) (SS:=toy_secrets) (CR:=toy_crypto) (J:=toy_jose) "the body" url mode_jwk "https://ca.lan/acme/account/" t2026
    one_nonce (fst (arrives "the body")) (snd (arrives "the body")) (surjective_pairing _)) v) E) as (j & nonce & t & Ha & Hn & _).
  exists v, j, nonce, t. split; [reflexivity|]. split; [exact Ha|exact Hn].
Defined.
End JwsExamples.
