(* ===== verification/Targets.v ===== *)
(** * [cabin.acme.validation.targets] and [keyauth]

    What a validation attempt is aimed at, which addresses it may connect to,
    and the key authorization all three methods are about.  The theorems say
    that the address policy holds for every way of writing an IPv4 address in
    IPv6 the module knows. *)

From S2P Require Import Prelude PyStr Json PyTime IPAddr IPKinds Net X509Lib AcmeNames Base64 Jws.
#[local] Open Scope Z_scope.

(** ** [keyauth.py] *)
(** [s.encode("utf-8")] *)
Definition utf8_char (c : ascii) : list ascii :=
  if (code c <? 128)%N then [c] else [char_of (192 + code c / 64); char_of (128 + code c mod 64)].
Definition encode_utf8 (s : string) : string := of_chars (concat (map utf8_char (chars s))).
Definition key_authorization_of (token thumbprint : string) : string := token +:+ "." +:+ thumbprint.
Section keyauth.
Context {X : X509Lib} {J : Jose}.
Definition digest (authorization : string) : string := sha256 (encode_utf8 authorization).
Definition dns_value (authorization : string) : string := b64encode (digest authorization).
End keyauth.

(** ** The budget of an attempt *)
Definition VALIDATION_TIMEOUT : Z := 10.
Definition second_ns : Z := 1000000000.
Record Deadline := mkDeadline { budget : Z; expires : Z }.
(** [Deadline(seconds)] *)
Definition new_deadline `{World} (seconds : Z) : Net Deadline := t ← monotonic; mret (mkDeadline seconds (t + seconds * second_ns)).
Definition remaining `{World} (d : Deadline) : Net Z := t ← monotonic; mret (expires d - t).
(** [Deadline.check] *)
Definition check_deadline `{World} (d : Deadline) (what : string) (kind : ErrorType) : Net Z :=
  left ← remaining d;
  _ ← raise_if (left <=? 0) (acme_error kind ("validating " +:+ what +:+ " timed out after " +:+ str_of_Z (budget d) +:+ " seconds"));
  mret left.

Record Attempt := mkAttempt {
  at_type : string; at_value : string; at_token : string; key_authorization : string;
  allow_private : bool; resolvers : list string }.

(** ** Endpoints *)
Definition parsed (address : string) : option IPAddress := match ip_address address with Ok a => Some a | Raise _ => None end.
Definition host_is_literal (e : Endpoint) : bool := bool_decide (is_Some (parsed (host e))).
Definition ep_netloc (e : Endpoint) : string :=
  if contains ":" (address e) then "[" +:+ address e +:+ "]:" +:+ str_of_Z (ep_port e) else address e +:+ ":" +:+ str_of_Z (ep_port e).
Definition host_header (e : Endpoint) : string := if contains ":" (host e) then "[" +:+ host e +:+ "]" else host e.
Definition sni (e : Endpoint) : option string := if host_is_literal e then None else Some (host e).

Definition lookup_host `{World} (name : string) : Net (list string) :=
  answers ← getaddrinfo name;
  mret (match answers with None => [] | Some l => dedup l end).

(** ** The policy *)
Definition blocked_reason (a : IPAddr.IP) : option string :=
  if is_loopback a then Some "loopback"
  else if is_link_local a then Some "link-local"
  else if is_multicast a then Some "multicast"
  else if is_unspecified a then Some "unspecified" else None.
Definition NAT64_PREFIX : IPNetwork := Eval vm_compute in net_of "64:ff9b::/96".
Definition embedded_v4 (n : Z) : option Z :=
  match ipv4_mapped n with
  | Some m => Some m
  | None =>
      match sixtofour n with
      | Some m => Some m
      | None =>
          if in_network (V6 n) NAT64_PREFIX then Some (Z.land n 4294967295)
          else if (0 <? n) && (n <? 2 ^ 32) then Some n else None
      end
  end.
Definition forms (a : IPAddr.IP) : list IPAddr.IP :=
  match a with
  | V4 _ => [a]
  | V6 n => match embedded_v4 n with Some m => [a; V4 m] | None => [a] end
  end.
(** The loop over the forms of one address. *)
Fixpoint check_forms (host address : string) (allow_private : bool) (l : list IPAddr.IP) : Outcome unit :=
  match l with
  | [] => mret ()
  | form :: l =>
      _ ← match blocked_reason form with
          | Some reason => mthrow (acme_error connection ("refusing to validate " +:+ py_repr host +:+ ": it resolves to the " +:+ reason +:+ " address " +:+ address))
          | None => mret ()
          end;
      _ ← raise_if (negb allow_private && is_private form)
            (acme_error connection ("refusing to validate " +:+ py_repr host +:+ ": it resolves to the private address " +:+ address
               +:+ ", and allow_private_validation_targets is off"));
      check_forms host address allow_private l
  end.
(** [_check] *)
Definition check_address (host address : string) (allow_private : bool) : Outcome unit :=
  match parsed address with
  | None => mthrow (acme_error connection (str_take 200 (py_repr host +:+ " resolved to something that is not an address: " +:+ py_repr address)))
  | Some a => check_forms host address allow_private (forms (ip_value a))
  end.
Fixpoint check_addresses (host : string) (allow_private : bool) (l : list string) : Outcome unit :=
  match l with
  | [] => mret ()
  | a :: l => _ ← check_address host a allow_private; check_addresses host allow_private l
  end.
Definition resolve `{World} (host : string) (port : Z) (allow_private : bool) : Net Endpoint :=
  addresses ← match parsed host with Some _ => mret [host] | None => lookup_host host end;
  match addresses with
  | [] => mthrow (acme_error connection (py_repr host +:+ " does not resolve to any address"))
  | first :: _ =>
      _ ← pure (check_addresses host allow_private addresses);
      mret (mkEndpoint host first port)
  end.

(** ** What the policy means

    [spells a v]: the address [a] is the IPv4 address [v], or an IPv6 one that
    carries it: mapped (RFC 4291 2.5.5.2), compatible (2.5.5.1), 6to4 (RFC
    3056) or behind the NAT64 prefix (RFC 6052). *)
Definition spells (a : IPAddr.IP) (v : Z) : Prop :=
  match a with
  | V4 n => n = v
  | V6 n => 0 ≤ v < 2 ^ 32 ∧
      (n = 0xffff * 2 ^ 32 + v ∨ n = v ∨ (∃ r, 0 ≤ r < 2 ^ 80 ∧ n = 0x2002 * 2 ^ 112 + v * 2 ^ 80 + r) ∨ n = 0x64ff9b * 2 ^ 96 + v)
  end.
(** 0.0.0.0, 127.0.0.0/8, 169.254.0.0/16, 224.0.0.0/4; [::], [::1], fe80::/10, ff00::/8. *)
Definition v4_internal (v : Z) : Prop :=
  v = 0 ∨ 0x7f000000 ≤ v < 0x80000000 ∨ 0xa9fe0000 ≤ v < 0xa9ff0000 ∨ 0xe0000000 ≤ v < 0xf0000000.
Definition v6_internal (n : Z) : Prop :=
  n = 0 ∨ n = 1 ∨ 0xfe80 * 2 ^ 112 ≤ n < 0xfec0 * 2 ^ 112 ∨ 0xff00 * 2 ^ 112 ≤ n < 2 ^ 128.
Definition internal (a : IPAddr.IP) : Prop :=
  (∃ n, a = V6 n ∧ v6_internal n) ∨ ∃ v, spells a v ∧ v4_internal v.
Definition privately (a : IPAddr.IP) : Prop := is_private a = true ∨ ∃ v, spells a v ∧ is_private (V4 v) = true.
(** A text cabin may connect to. *)
Definition connectable (allow_private : bool) (address : string) : Prop :=
  ∃ a, ip_address address = Ok a ∧ ¬ internal (ip_value a) ∧ (allow_private = false → ¬ privately (ip_value a)).

Lemma v4_blocked v : 0 ≤ v < 2 ^ 32 → blocked_reason (V4 v) = None ↔ ¬ v4_internal v.
Proof.
  intros Hv. pose proof constants_valid as Hc. rewrite !Forall_cons in Hc. destruct Hc as (H1 & H2 & H3 & _).
  unfold blocked_reason, is_loopback, is_link_local, is_multicast, is_unspecified, through_mapped.
  destruct (in_network (V4 v) v4_loopback) eqn:E1; [apply v4_block in E1; [|done..]; unfold v4_internal; split; [done|lia]|].
  destruct (in_network (V4 v) v4_link_local) eqn:E2; [apply v4_block in E2; [|done..]; unfold v4_internal; split; [done|lia]|].
  destruct (in_network (V4 v) v4_multicast) eqn:E3; [apply v4_block in E3; [|done..]; unfold v4_internal; split; [done|lia]|].
  apply not_true_iff_false in E1, E2, E3. unfold v4_loopback, v4_link_local, v4_multicast in E1, E2, E3.
  rewrite v4_block in E1, E2, E3 by done. destruct (Z.eqb_spec v 0); unfold v4_internal; split; [done|lia|lia|done].
Qed.
Lemma v6_blocked n : 0 ≤ n < 2 ^ 128 → ipv4_mapped n = None → blocked_reason (V6 n) = None ↔ ¬ v6_internal n.
Proof.
  intros Hn Hm. pose proof constants_valid as Hc. rewrite !Forall_cons in Hc. destruct Hc as (_ & _ & _ & H4 & H5 & _).
  unfold blocked_reason, is_loopback, is_link_local, is_multicast, is_unspecified, through_mapped. rewrite Hm.
  destruct (Z.eqb_spec n 1); [unfold v6_internal; split; [done|lia]|].
  destruct (in_network (V6 n) v6_link_local) eqn:E2; [apply v6_block in E2; [|done..]; unfold v6_internal; split; [done|lia]|].
  destruct (in_network (V6 n) v6_multicast) eqn:E3; [apply v6_block in E3; [|done..]; unfold v6_internal; split; [done|lia]|].
  apply not_true_iff_false in E2, E3. unfold v6_link_local, v6_multicast in E2, E3.
  rewrite v6_block in E2, E3 by done. destruct (Z.eqb_spec n 0); unfold v6_internal; split; [done|lia|lia|done].
Qed.
Lemma nat64_iff n v : 0 ≤ n < 2 ^ 128 →
  (in_network (V6 n) NAT64_PREFIX = true ∧ Z.land n 4294967295 = v) ↔ 0 ≤ v < 2 ^ 32 ∧ n = 0x64ff9b * 2 ^ 96 + v.
Proof.
  intros Hn. assert (Hv : valid_network NAT64_PREFIX).
  { repeat constructor; cbn; try lia; match goal with |- (?d | ?n) => exists (n / d); vm_compute; reflexivity end. }
  unfold NAT64_PREFIX in *. rewrite v6_block by done. change (Z.land n 4294967295) with (low32 n). rewrite low32_mod.
  pose proof (Z.div_mod n (2 ^ 32) ltac:(lia)). pose proof (Z.mod_pos_bound n (2 ^ 32)). split.
  - intros [Hr <-]. split; [lia|]. assert (n / 2 ^ 32 = 0x64ff9b * 2 ^ 64); [|lia].
    symmetry. apply Z.div_unique_pos with (n - 0x64ff9b * 2 ^ 96); lia.
  - intros [Hr ->]. split; [lia|]. replace (0x64ff9b * 2 ^ 96 + v) with (v + 0x64ff9b * 2 ^ 64 * 2 ^ 32) by lia.
    rewrite Z.mod_add by lia. by apply Z.mod_small.
Qed.
Lemma embedded_iff n v : 0 < n < 2 ^ 128 → embedded_v4 n = Some v ↔ spells (V6 n) v.
Proof.
  intros Hn. cbn [spells]. unfold embedded_v4.
  pose proof (ipv4_mapped_iff n) as Hm. pose proof (sixtofour_iff n) as H6. pose proof (nat64_iff n) as H64.
  destruct (ipv4_mapped n) as [m|] eqn:Em.
  { destruct (proj1 (Hm m ltac:(lia)) eq_refl) as [Hr ->]. split.
    - intros [= <-]. split; [done|by left].
    - intros [Hv [He|[He|[(r & Hr' & He)|He]]]]; [f_equal; lia|exfalso; lia..]. }
  destruct (sixtofour n) as [m|] eqn:E6.
  { destruct (proj1 (H6 m ltac:(lia)) eq_refl) as (Hr & r & Hr' & ->). split.
    - intros [= <-]. split; [done|right; right; left; by exists r].
    - intros [Hv [He|[He|[(r' & Hr'' & He)|He]]]]; [exfalso; lia|exfalso; lia| |exfalso; lia]. f_equal. lia. }
  destruct (in_network (V6 n) NAT64_PREFIX) eqn:En.
  { destruct (proj1 (H64 (Z.land n 4294967295) ltac:(lia)) (conj eq_refl eq_refl)) as [Hr He]. split.
    - intros [= <-]. split; [done|by right; right; right].
    - intros Hs. f_equal. apply (H64 v ltac:(lia)). destruct Hs as [Hv [He'|[He'|[(r' & Hr'' & He')|He']]]]; [exfalso; lia..|done]. }
  destruct (Z.ltb_spec 0 n); [|lia]. destruct (Z.ltb_spec n (2 ^ 32)); cbn [andb].
  - split; [intros [= <-]; split; [lia|by right; left]|]. intros [Hv [He|[He|[(r' & Hr'' & He)|He]]]]; [exfalso; lia|by f_equal|exfalso; lia..].
  - split; [done|]. intros [Hv [He|[He|[(r & Hr & He)|He]]]].
    + by discriminate (proj2 (Hm v ltac:(lia)) (conj Hv He)).
    + lia.
    + by discriminate (proj2 (H6 v ltac:(lia)) (conj Hv (ex_intro _ r (conj Hr He)))).
    + by discriminate (proj1 (proj2 (H64 v ltac:(lia)) (conj Hv He))).
Qed.
Lemma forms_unblocked a : well_sized a → (∀ f, f ∈ forms a → blocked_reason f = None) ↔ ¬ internal a.
Proof.
  intros Hsize. destruct a as [v|n]; unfold well_sized in Hsize; cbn [ip_int max_prefixlen] in Hsize.
  - cbn [forms]. setoid_rewrite list_elem_of_singleton. split.
    + intros H [(n & [=] & _)|(w & Hs & Hw)]. cbn in Hs. subst w. by destruct (proj1 (v4_blocked v Hsize) (H _ eq_refl)).
    + intros H f ->. apply v4_blocked; [done|]. intros Hv. apply H. right. by exists v.
  - destruct (decide (n = 0)) as [->|Hne].
    { split; [intros H; assert (Hb : blocked_reason (V6 0) = None) by (apply H; left); discriminate Hb|]. intros H. destruct H. left. exists 0. split; [done|by left]. }
    assert (Hemb : ∀ v, embedded_v4 n = Some v ↔ spells (V6 n) v) by (intros v; apply embedded_iff; lia).
    assert (Hown : ∀ m, ipv4_mapped n = Some m → blocked_reason (V6 n) = blocked_reason (V4 m) ∧ ¬ v6_internal n).
    { intros m Hm. split; [unfold blocked_reason, is_loopback, is_link_local, is_multicast, is_unspecified, through_mapped; by rewrite Hm|].
      apply ipv4_mapped_iff in Hm; [|lia]. unfold v6_internal. lia. }
    assert (Hspell : ∀ v, spells (V6 n) v → 0 ≤ v < 2 ^ 32) by (by intros v [Hv _]).
    cbn [forms]. split.
    + intros H. assert (H0 : blocked_reason (V6 n) = None) by (apply H; destruct (embedded_v4 n); left).
      intros [(k & [= <-] & Hk)|(v & Hs & Hv)].
      * destruct (ipv4_mapped n) as [m|] eqn:Em; [by destruct (Hown m eq_refl)|]. by destruct (proj1 (v6_blocked n Hsize Em) H0).
      * pose proof Hs as Hs0. apply Hemb in Hs, Hs0. rewrite Hs in H.
        assert (H1 : blocked_reason (V4 v) = None) by (apply H; right; left). by destruct (proj1 (v4_blocked v (Hspell v (proj1 (Hemb v) Hs0))) H1).
    + intros Hint. assert (H4 : ∀ v, embedded_v4 n = Some v → blocked_reason (V4 v) = None).
      { intros v Hv%Hemb. apply v4_blocked; [by apply Hspell|]. intros Hi. apply Hint. right. by exists v. }
      assert (H6 : blocked_reason (V6 n) = None).
      { destruct (ipv4_mapped n) as [m|] eqn:Em.
        - destruct (Hown m eq_refl) as [-> _]. apply H4. unfold embedded_v4. by rewrite Em.
        - apply v6_blocked; [lia|done|]. intros Hi. apply Hint. left. by exists n. }
      intros f. destruct (embedded_v4 n) as [v|] eqn:Ev; rewrite ?elem_of_cons, elem_of_nil; naive_solver.
Qed.
Lemma is_private_zero : is_private (V6 0) = true.
Proof. vm_compute. reflexivity. Qed.
Lemma forms_public a : well_sized a → (∀ f, f ∈ forms a → is_private f = false) ↔ ¬ privately a.
Proof.
  intros Hsize. unfold privately. generalize is_private_zero. generalize is_private as private. intros private Hzero.
  destruct a as [v|n]; unfold well_sized in Hsize; cbn [ip_int max_prefixlen] in Hsize.
  - cbn [forms spells]. setoid_rewrite list_elem_of_singleton. split.
    + intros H [Hp|(w & Hs & Hp)]; [|subst w]; by rewrite (H _ eq_refl) in Hp.
    + intros H f ->. apply not_true_is_false. intros Hp. apply H. by left.
  - destruct (decide (n = 0)) as [->|Hne].
    { split; [intros H; by rewrite (H (V6 0)) in Hzero by left|]. intros H. destruct H. by left. }
    assert (Hemb : ∀ v, embedded_v4 n = Some v ↔ spells (V6 n) v) by (intros v; apply embedded_iff; lia).
    setoid_rewrite <- Hemb. cbn [forms]. clear Hemb. setoid_rewrite <- not_true_iff_false. destruct (embedded_v4 n) as [v|].
    + setoid_rewrite elem_of_cons. setoid_rewrite list_elem_of_singleton. naive_solver.
    + setoid_rewrite list_elem_of_singleton. naive_solver.
Qed.
Lemma check_forms_ok host address ap l : check_forms host address ap l = Ok () ↔
  (∀ f, f ∈ l → blocked_reason f = None) ∧ (ap = false → ∀ f, f ∈ l → is_private f = false).
Proof.
  induction l as [|f l IH]; [split; [|done]; intros _; split; [|intros _]; intros f Hf; by apply elem_of_nil in Hf|].
  cbn [check_forms]. setoid_rewrite elem_of_cons. destruct (blocked_reason f) as [why|] eqn:Hb.
  { split; [done|]. intros [H _]. specialize (H f (or_introl eq_refl)). congruence. }
  destruct (negb ap && is_private f) eqn:Hp.
  { split; [done|]. apply andb_true_iff in Hp as [Hap%negb_true_iff Hp]. intros [_ H]. specialize (H Hap f (or_introl eq_refl)). congruence. }
  transitivity (check_forms host address ap l = Ok ()); [done|]. rewrite IH. apply andb_false_iff in Hp.
  split; [|naive_solver]. intros [H1 H2]. split; [intros g [->|Hg]; [done|by apply H1]|]. intros -> g [->|Hg]; [by destruct Hp|by apply H2].
Qed.
Lemma check_address_ok host address ap : check_address host address ap = Ok () ↔ connectable ap address.
Proof.
  unfold check_address, connectable, parsed. destruct (ip_address address) as [a|e] eqn:Ha; [|split; [done|naive_solver]].
  pose proof (ip_address_sized _ _ Ha) as Hs. rewrite check_forms_ok, forms_unblocked by done. setoid_rewrite forms_public; [|done].
  naive_solver.
Qed.
Lemma check_addresses_ok host ap l : check_addresses host ap l = Ok () ↔ Forall (connectable ap) l.
Proof.
  induction l as [|a l IH]; [split; [by constructor|done]|]. cbn [check_addresses]. rewrite Forall_cons, <- IH, <- (check_address_ok host).
  destruct (check_address host a ap) as [[]|e]; cbn; naive_solver.
Qed.
Lemma ex_Ok {A} (x : A) (P : A → Prop) : (∃ a, Ok x = Ok a ∧ P a) ↔ P x.
Proof. split; [by intros (a & [= <-] & H)|by exists x]. Qed.
Section resolving.
Context {W : World}.
(** The addresses a name has: itself, or what the resolver says. *)
Definition addresses_of (h : History) (name : string) : Outcome (list string) :=
  match parsed name with Some _ => Ok [name] | None => l ← w_lookup h name; mret (default [] l) end.

(** The address policy.  [resolve] returns an endpoint exactly when every
    address the name has may be connected to, and then it is the first of
    them: none of them is loopback, link-local, multicast or unspecified, as
    itself or as the IPv4 address it carries, and with private targets turned
    off none is private. *)
Theorem resolve_exact name port ap h e : (resolve name port ap h).1 = Ok e ↔
  ∃ answers, addresses_of h name = Ok answers ∧ head answers = Some (address e) ∧ Forall (connectable ap) answers ∧
    host e = name ∧ ep_port e = port.
Proof.
  unfold resolve, addresses_of. set (rest := λ addresses : list string, _).
  assert (Hrest : ∀ l h, (rest l h).1 = Ok e ↔ head l = Some (address e) ∧ Forall (connectable ap) l ∧ host e = name ∧ ep_port e = port).
  { intros [|a l] h0; [split; [done|naive_solver]|]. subst rest. cbn beta iota. rewrite <- (check_addresses_ok name).
    unfold mbind, Net_bind, pure. destruct (check_addresses name ap (a :: l)) as [[]|x]; cbn; [|naive_solver].
    split; [by intros [= <-]|]. intros ([= ->] & _ & <- & <-). by destruct e. }
  clearbody rest. destruct (parsed name).
  { change ((mret [name] ≫= rest) h) with (rest [name] h). by rewrite Hrest, ex_Ok. }
  assert (Hl : (lookup_host name ≫= rest) h = let h' := ELookup name (w_lookup h name) :: h in match w_lookup h name with
    | Ok answer => rest (match answer with None => [] | Some l => dedup l end) h' | Raise x => (Raise x, h') end).
  { unfold lookup_host, getaddrinfo, ask, pure, mbind, Net_bind. by destruct (w_lookup h name). }
  rewrite Hl. cbn zeta. destruct (w_lookup h name) as [answer|x]; [|by split; [|intros (? & ? & _)]].
  rewrite Hrest. cbn. rewrite ex_Ok. destruct answer as [l|]; [|done].
  assert (Hhead : head (dedup l) = head l) by by destruct l.
  rewrite Hhead, !Forall_forall. by setoid_rewrite elem_of_dedup.
Qed.
End resolving.

(** The four ways to write 127.0.0.1 in IPv6, and some addresses that pass. *)
Definition verdict (text : string) : bool := is_ok (check_address "nas.lan" text true).
Example spellings_of_loopback : map verdict ["127.0.0.1"; "::1"; "::ffff:127.0.0.1"; "::127.0.0.1"; "2002:7f00:1::"; "64:ff9b::7f00:1"; "::"; "fe80::1%eth0"] =
  replicate 8 false.
Proof. vm_compute. reflexivity. Qed.
Example reachable_targets : map verdict ["192.168.1.20"; "8.8.8.8"; "2001:db8::1"; "64:ff9b::808:808"] = replicate 4 true.
Proof. vm_compute. reflexivity. Qed.
Example private_targets : is_ok (check_address "nas.lan" "192.168.1.20" false) = false ∧ is_ok (check_address "x" "64:ff9b::808:808" false) = true.
Proof. vm_compute. done. Qed.
