(* ===== verification/Eab.v ===== *)
(** * [cabin.acme.eab]: external account binding

    An operator mints a key; a client spends it on one account.  The MAC key
    is stored sealed.  [verify_eab] checks a binding, [bind] spends the key by
    one conditional UPDATE, and a unique index keeps two keys from one
    account.  [secret] is what [secrets.token_bytes] drew. *)

From S2P Require Import Prelude PyStr Json PyTime X509Lib Store CaService Grants Identity AcmeNames AcmeService Base64 Jws.
#[local] Open Scope Z_scope.

Definition EAB_MAX_LABEL_LENGTH : nat := 100.
(** [_REFUSED], [refused] *)
Definition REFUSED : string := "the external account binding does not authorize this registration".
Definition refused : Exc := acme_error unauthorized REFUSED.

Section eab.
Context {X : X509Lib} {SS : SecretStore} {CR : Crypto} {J : Jose}.

Definition is_usable (k : EabRow) : bool := bool_decide (eab_revoked_at k = None) && bool_decide (bound_account_id k = None).
Definition add_eab (row : EabRow) : Tx DB unit :=
  taken ← query (λ db, bool_decide (is_Some (eab_keys db !! eab_id row)));
  _ ← raise_if taken unique_failed;
  orphan ← query (λ db, bool_decide (cas db !! eab_issuer row = None));
  _ ← raise_if orphan foreign_key_failed;
  modify (on_eab_keys (λ m, <[eab_id row := row]> m)).
Definition create_key (the_label : string) (ca_certificate_id : Z) (secret : string) (draw nonce now : Z) : Tx DB (EabRow * string) :=
  let row := mkEab (token_urlsafe draw) (seal nonce (PlainBytes secret)) (str_take EAB_MAX_LABEL_LENGTH (strip the_label))
    (iso now) None None None ca_certificate_id in
  _ ← add_eab row;
  _ ← commit;
  mret (row, b64encode secret).
Definition get_key (n : string) (db : DB) : option EabRow := eab_keys db !! n.
(** [.order_by(created_at.desc())]: keys of one second come in any order; this
    one is by id. *)
Definition minted_last (a b : EabRow) : Prop := str_le (eab_created b) (eab_created a).
#[export] Instance minted_last_dec : RelDecision minted_last.
Proof. intros a b. unfold minted_last. apply _. Defined.
Definition list_keys (db : DB) : list EabRow := merge_sort minted_last (rows_where (eab_keys db) (λ _, true)).
Definition with_revoked (t : string) (k : EabRow) : EabRow :=
  mkEab (eab_id k) (hmac_sealed k) (eab_label k) (eab_created k) (bound_account_id k) (bound_at k) (Some t) (eab_issuer k).
Definition with_bound (account t : string) (k : EabRow) : EabRow :=
  mkEab (eab_id k) (hmac_sealed k) (eab_label k) (eab_created k) (Some account) (Some t) (eab_revoked_at k) (eab_issuer k).
Definition revoke_key (row : option EabRow) (now : Z) : Tx DB bool :=
  match row with
  | None => mret false
  | Some row =>
      if bool_decide (is_Some (eab_revoked_at row)) then mret false else
      gone ← query (λ db, bool_decide (eab_keys db !! eab_id row = None));
      _ ← raise_if gone row_gone;
      _ ← modify (on_eab_keys (alter (with_revoked (iso now)) (eab_id row)));
      _ ← commit;
      mret true
  end.

Definition is_secrets_error (e : Exc) : bool := match e with SecretsError _ => true | _ => false end.
(** The column holds a sealed MAC key and no PEM. *)
Definition unseal_mac (s : Sealed) : Outcome string :=
  p ← unseal s;
  match p with PlainBytes b => Ok b | PlainPem _ => Raise (AssertionError "a PEM is sealed where a MAC key belongs") end.
Definition verify_eab (binding : json) (new_account_url : string) (account_jwk : gmap string string) (issuer_id : Z) (db : DB)
  : Outcome EabRow :=
  match binding with
  | JObj _ =>
      parsed ← parse_external_binding binding new_account_url;
      match get_key (eab_kid parsed) db with
      | None => Raise refused
      | Some row =>
          _ ← raise_if (negb (is_usable row)) refused;
          _ ← raise_if (negb (bool_decide (eab_issuer row = issuer_id))) refused;
          mac_key ← catch_pure (unseal_mac (hmac_sealed row)) is_secrets_error (λ _, Raise (acme_error server_internal
            "this external account key cannot be read: it was sealed with a different master key"));
          _ ← verify_external_binding parsed mac_key account_jwk;
          mret row
      end
  | _ => Raise (acme_error malformed "externalAccountBinding must be a JSON object")
  end.
(** The UPDATE, the unique index on [bound_account_id] and its foreign key; then
    the row as [refresh] reads it. *)
Definition bind (row : EabRow) (account_id : string) (now : Z) : Tx DB (bool * EabRow) :=
  let test := λ k : EabRow, bool_decide (bound_account_id k = None) && bool_decide (eab_revoked_at k = None) in
  hit ← query (λ db, fst (update_where (eab_keys db) (eab_id row) test (with_bound account_id (iso now))));
  second ← query (λ db, nonempty (rows_where (eab_keys db) (λ k, bool_decide (bound_account_id k = Some account_id))));
  _ ← raise_if (hit && second) unique_failed;
  orphan ← query (λ db, bool_decide (accounts db !! account_id = None));
  _ ← raise_if (hit && orphan) foreign_key_failed;
  _ ← modify (on_eab_keys (λ m, snd (update_where m (eab_id row) test (with_bound account_id (iso now)))));
  _ ← commit;
  fresh ← query (get_key (eab_id row));
  fresh ← lift (of_option fresh cannot_refresh);
  mret (hit, fresh).

(** ** A key is spent once *)

(** Keys are known by their id, and no two are bound to one account. *)
Record eabs_ok (db : DB) : Prop := {
  eab_named n k : eab_keys db !! n = Some k → eab_id k = n;
  eab_one_key n m k l a : eab_keys db !! n = Some k → eab_keys db !! m = Some l →
    bound_account_id k = Some a → bound_account_id l = Some a → n = m }.
(** From one database to a later one: no key disappears, a bound key stays
    bound to its account, a revoked key stays revoked, and what a key was
    minted with stays. *)
Definition eab_later (db db' : DB) : Prop := ∀ n k, eab_keys db !! n = Some k → ∃ k', eab_keys db' !! n = Some k' ∧
  (∀ a, bound_account_id k = Some a → bound_account_id k' = Some a) ∧
  (is_Some (eab_revoked_at k) → is_Some (eab_revoked_at k') ∧ bound_account_id k' = bound_account_id k) ∧
  eab_issuer k' = eab_issuer k ∧ hmac_sealed k' = hmac_sealed k.
Lemma eab_later_refl db : eab_later db db.
Proof. intros n k Hk. exists k. split_and!; auto. Qed.
Lemma eab_later_trans a b c : eab_later a b → eab_later b c → eab_later a c.
Proof.
  intros H1 H2 n k Hk. destruct (H1 n k Hk) as (k1 & Hk1 & Hb1 & Hr1 & Hi1 & Hm1).
  destruct (H2 n k1 Hk1) as (k2 & Hk2 & Hb2 & Hr2 & Hi2 & Hm2). exists k2.
  split_and!; [done|auto| |congruence|congruence]. intros Hr. destruct (Hr1 Hr) as [Hr' E1]. destruct (Hr2 Hr') as [? E2]. split; congruence.
Qed.
Inductive eab_op := Mint (the_label : string) (ca : Z) (secret : string) (draw nonce now : Z) | Revoke (row : option EabRow) (now : Z)
  | Bind (row : EabRow) (account_id : string) (now : Z).
(** One request, whatever became of it. *)
Definition eab_run (op : eab_op) (db : DB) : DB :=
  match op with
  | Mint l ca secret draw nonce now => snd (request (create_key l ca secret draw nonce now) db)
  | Revoke row now => snd (request (revoke_key row now) db)
  | Bind row a now => snd (request (bind row a now) db)
  end.
(** Another request, which leaves the table alone. *)
Definition eab_step (db db' : DB) : Prop := (∃ op, db' = eab_run op db) ∨ eab_keys db' = eab_keys db.

Lemma on_eab_same f db : f (eab_keys db) = eab_keys db → on_eab_keys f db = db.
Proof. intros H. unfold on_eab_keys. rewrite H. by destruct db. Qed.
Lemma on_eab_ext f g db : f (eab_keys db) = g (eab_keys db) → on_eab_keys f db = on_eab_keys g db.
Proof. intros H. unfold on_eab_keys. by rewrite H. Qed.
(** What a bind does: it spends a usable key on an account no key is bound to,
    or it changes nothing. *)
Lemma request_bind_key row a now db r db' : request (bind row a now) db = (r, db') →
  (∃ k, eab_keys db !! eab_id row = Some k ∧ is_usable k = true ∧ (∀ n l, eab_keys db !! n = Some l → bound_account_id l ≠ Some a) ∧
     is_Some (accounts db !! a) ∧
     r = Ok (true, with_bound a (iso now) k) ∧ db' = on_eab_keys (λ m, <[eab_id row := with_bound a (iso now) k]> m) db) ∨
  db' = db ∧ (∀ k, r ≠ Ok (true, k)).
Proof.
  intros Hreq. refine (request_wp _ _ (λ r db', _ ∨ _) _ _ Hreq _). unfold bind, fresh_session. cbn zeta.
  set (test := λ k : EabRow, _ && _).
  assert (Htest : ∀ k, test k = is_usable k) by (intros k; apply andb_comm).
  assert (Hup : update_where (eab_keys db) (eab_id row) test (with_bound a (iso now)) =
    match eab_keys db !! eab_id row with
    | Some k => if is_usable k then (true, <[eab_id row := with_bound a (iso now) k]> (eab_keys db)) else (false, eab_keys db)
    | None => (false, eab_keys db) end) by (unfold update_where; destruct (eab_keys db !! _); [by rewrite Htest|done]).
  apply wp_bind, wp_query. cbn [work]. apply wp_bind, wp_query. cbn [work]. rewrite Hup. clear Htest.
  destruct (eab_keys db !! eab_id row) as [k|] eqn:Hk; [destruct (is_usable k) eqn:Hu|]; cbn [fst andb].
  - apply wp_bind, wp_raise_if; [intros _; right; by split|intros Hone]. apply wp_bind, wp_query. cbn [work].
    apply wp_bind, wp_raise_if; [intros _; right; by split|intros Hacc]. left. exists k.
    apply nonempty_false in Hone. rewrite rows_where_nil in Hone.
    assert (Hnone : ∀ n l, eab_keys db !! n = Some l → bound_account_id l ≠ Some a)
      by (intros n l Hl; by apply (bool_decide_eq_false_1 _), (Hone n l)).
    apply bool_decide_eq_false, not_eq_None_Some in Hacc.
    apply wp_bind, wp_modify. cbn [work durable]. apply wp_bind, wp_commit. cbn [work durable].
    rewrite (on_eab_ext _ (λ m, <[eab_id row := with_bound a (iso now) k]> m)) by by rewrite Hup.
    apply wp_bind, wp_query. cbn [work get_key eab_keys on_eab_keys]. unfold get_key. cbn. rewrite lookup_insert_eq.
    apply wp_bind, wp_lift; cbn; [intros f [= <-]; apply wp_ret; by split_and!|done].
  - apply wp_bind, wp_raise_if; [done|intros _]. apply wp_bind, wp_query. apply wp_bind, wp_raise_if; [done|intros _].
    apply wp_bind, wp_modify. cbn [work durable]. apply wp_bind, wp_commit. cbn [work durable].
    rewrite on_eab_same by by rewrite Hup. apply wp_bind, wp_query. apply wp_bind, wp_lift; [intros f _|intros e _]; [apply wp_ret|]; right; by split.
  - apply wp_bind, wp_raise_if; [done|intros _]. apply wp_bind, wp_query. apply wp_bind, wp_raise_if; [done|intros _].
    apply wp_bind, wp_modify. cbn [work durable]. apply wp_bind, wp_commit. cbn [work durable].
    rewrite on_eab_same by by rewrite Hup. apply wp_bind, wp_query. apply wp_bind, wp_lift; [intros f _|intros e _]; [apply wp_ret|]; right; by split.
Qed.

(** One row replaced by a later version of itself. *)
Lemma replace_later db n k k' : eabs_ok db → eab_keys db !! n = Some k → eab_id k' = n →
  (∀ a, bound_account_id k = Some a → bound_account_id k' = Some a) →
  (is_Some (eab_revoked_at k) → is_Some (eab_revoked_at k') ∧ bound_account_id k' = bound_account_id k) →
  eab_issuer k' = eab_issuer k → hmac_sealed k' = hmac_sealed k →
  (∀ a, bound_account_id k' = Some a → bound_account_id k = Some a ∨ ∀ m l, eab_keys db !! m = Some l → bound_account_id l ≠ Some a) →
  let db' := on_eab_keys (λ m, <[n := k']> m) db in eabs_ok db' ∧ eab_later db db'.
Proof.
  intros Hok Hk Hid Hb Hr Hi Hm Hnew db'. split; [split|]; cbn.
  - intros m l [[<- <-]|[_ Hl]]%lookup_insert_Some; [done|by apply (eab_named _ Hok)].
  - assert (Hother : ∀ m l a, n ≠ m → eab_keys db !! m = Some l → bound_account_id k' = Some a → bound_account_id l ≠ Some a).
    { intros m l a Hne Hl Ha Hla. destruct (Hnew a Ha) as [Hka|Hnone]; [|by apply (Hnone m l)].
      apply Hne. by apply (eab_one_key _ Hok n m k l a). }
    intros m1 m2 k1 k2 a. rewrite !lookup_insert_Some. intros [[<- <-]|[Hn1 H1]] [[<- <-]|[Hn2 H2]] Ha1 Ha2; [done|..].
    + by destruct (Hother m2 k2 a Hn2 H2 Ha1).
    + by destruct (Hother m1 k1 a Hn1 H1 Ha2).
    + by apply (eab_one_key _ Hok m1 m2 k1 k2 a).
  - intros m l Hl. cbn. destruct (decide (n = m)) as [<-|Hne].
    + rewrite lookup_insert_eq. exists k'. assert (l = k) as -> by congruence. by split_and!.
    + rewrite lookup_insert_ne by done. exists l. split_and!; auto.
Qed.
Lemma eab_same db db' : eab_keys db' = eab_keys db → eabs_ok db → eabs_ok db' ∧ eab_later db db'.
Proof.
  intros He [Hn Hone]. split; [split|]; rewrite ?He; [done|done|]. intros n k Hk. rewrite He. exists k. split_and!; auto.
Qed.
Lemma mint_step l ca secret draw nonce now db : eabs_ok db →
  let db' := eab_run (Mint l ca secret draw nonce now) db in eabs_ok db' ∧ eab_later db db'.
Proof.
  intros Hok. cbn. apply (request_post _ _ (λ p, eabs_ok (snd p) ∧ eab_later db (snd p))).
  assert (Hsame : eabs_ok db ∧ eab_later db db) by by apply eab_same.
  unfold create_key, add_eab, fresh_session. wp_run; try done. cbn [snd].
  match goal with H : bool_decide (is_Some _) = false |- _ => apply bool_decide_eq_false, eq_None_not_Some in H; rename H into Hfree end.
  split; [split|]; cbn in *.
  - intros m k [[<- <-]|[_ Hk]]%lookup_insert_Some; [done|by apply (eab_named _ Hok)].
  - intros m1 m2 k1 k2 a. rewrite !lookup_insert_Some. intros [[<- <-]|[Hn1 H1]] [[<- <-]|[Hn2 H2]] Ha1 Ha2; try done.
    by apply (eab_one_key _ Hok m1 m2 k1 k2 a).
  - intros m k Hk. cbn. exists k. rewrite lookup_insert_ne by (intros <-; congruence). split_and!; auto.
Qed.
Lemma revoke_step row now db : eabs_ok db →
  let db' := eab_run (Revoke row now) db in eabs_ok db' ∧ eab_later db db'.
Proof.
  intros Hok. cbn. apply (request_post _ _ (λ p, eabs_ok (snd p) ∧ eab_later db (snd p))).
  assert (Hsame : eabs_ok db ∧ eab_later db db) by by apply eab_same.
  unfold revoke_key, fresh_session. destruct row as [row|]; [|done]. destruct (bool_decide _); [done|].
  wp_run; [done|]. cbn [snd].
  match goal with H : bool_decide _ = false |- _ => apply bool_decide_eq_false, not_eq_None_Some in H; destruct H as [k Hk] end.
  rewrite (on_eab_ext _ (λ m, <[eab_id row := with_revoked (iso now) k]> m)).
  - apply (replace_later db _ k); [done|done|exact (eab_named _ Hok _ _ Hk)|done|by split|done|done|by left].
  - apply map_eq. intros m. destruct (decide (eab_id row = m)) as [<-|Hne].
    + cbn in Hk. by rewrite lookup_alter_eq, lookup_insert_eq, Hk.
    + by rewrite lookup_alter_ne, lookup_insert_ne.
Qed.
Lemma bind_step row a now db : eabs_ok db →
  let db' := eab_run (Bind row a now) db in eabs_ok db' ∧ eab_later db db'.
Proof.
  intros Hok. cbn. destruct (request (bind row a now) db) as [r db'] eqn:Hreq. cbn.
  destruct (request_bind_key _ _ _ _ _ _ Hreq) as [(k & Hk & Hu & Hnone & _ & _ & ->)|[-> _]]; [|by apply eab_same].
  apply andb_true_iff in Hu as [Hu1%bool_decide_eq_true Hu2%bool_decide_eq_true].
  apply (replace_later db _ k); [done|done|exact (eab_named _ Hok _ _ Hk)|cbn; congruence| |done|done|].
  - rewrite Hu1. by intros [].
  - intros b [= <-]. by right.
Qed.
Lemma eab_steps db db' : rtc eab_step db db' → eabs_ok db → eabs_ok db' ∧ eab_later db db'.
Proof.
  induction 1 as [db|db d1 db' Hs _ IH]; intros Hok; [by apply eab_same|].
  assert (H1 : eabs_ok d1 ∧ eab_later db d1).
  { destruct Hs as [[[l ca secret draw nonce now|row now|row a now] ->]|He]; [by apply mint_step|by apply revoke_step|by apply bind_step|by apply eab_same]. }
  destruct H1 as [H1 L1]. destruct (IH H1) as [H2 L2]. split; [done|by eapply eab_later_trans].
Qed.

(** One key, one account.  In any sequence of minting, revoking, binding
    and other requests, two binds that both succeeded spent two different keys
    on two different accounts; and a bind succeeds only on a key that is
    neither spent nor revoked, which is then bound to that account for good. *)
Theorem eab_key_spent_once db d1 d2 d3 d4 row a now k row' b now' k' : eabs_ok db →
  rtc eab_step db d1 → request (bind row a now) d1 = (Ok (true, k), d2) →
  rtc eab_step d2 d3 → request (bind row' b now') d3 = (Ok (true, k'), d4) →
  eab_id row ≠ eab_id row' ∧ a ≠ b ∧
  (∃ k0, eab_keys d1 !! eab_id row = Some k0 ∧ is_usable k0 = true) ∧
  (∃ k4, eab_keys d4 !! eab_id row = Some k4 ∧ bound_account_id k4 = Some a).
Proof.
  intros Hok Hs1 Hb1 Hs2 Hb2. destruct (eab_steps _ _ Hs1 Hok) as [Hok1 _].
  destruct (request_bind_key _ _ _ _ _ _ Hb1) as [(k0 & Hk0 & Hu0 & _ & _ & Hr & Hd2)|[_ H]]; [|by destruct (H k)].
  destruct (request_bind_key _ _ _ _ _ _ Hb2) as [(k3 & Hk3 & Hu3 & Hnone & _ & _ & Hd4)|[_ H]]; [|by destruct (H k')].
  assert (Hd2' : eabs_ok d2) by (replace d2 with (eab_run (Bind row a now) d1) by (cbn; by rewrite Hb1); by apply bind_step).
  destruct (eab_steps _ _ Hs2 Hd2') as [Hok3 Hlater].
  destruct (Hlater (eab_id row) (with_bound a (iso now) k0)) as (k3' & Hk3' & Hb & _); [rewrite Hd2; apply lookup_insert_eq|].
  assert (Hne : eab_id row ≠ eab_id row').
  { intros He. rewrite <- He, Hk3' in Hk3. injection Hk3 as ->. apply andb_true_iff in Hu3 as [_ Hu%bool_decide_eq_true].
    by rewrite (Hb a eq_refl) in Hu. }
  split_and!; [done| |by exists k0|].
  - intros <-. apply (Hnone _ _ Hk3'). by apply Hb.
  - exists k3'. rewrite Hd4. cbn. rewrite lookup_insert_ne by done. split; [done|by apply Hb].
Qed.
End eab.

(** ** Two keys, two accounts *)
Module EabExamples.
#[local] Existing Instance Toy.lib.
#[local] Existing Instance toy_secrets.
#[local] Existing Instance toy_crypto.
#[local] Existing Instance JwsExamples.toy_jose.
Import Toy CaExamples AcmeExamples.
#[local] Strategy 1000 [one_root two_cas two_roots crossed acme_db after request].
Definition register2 : Tx DB (AccountRow * bool) := get_or_create_account id (mkAccountKey ∅ "thumb-2") 2 None true 101 t2026.
Definition mint (draw : Z) : eab_op := Mint " laptop " 2 "secret" draw 7 t2026.
Definition eab_db : DB := eab_run (mint 501) (eab_run (mint 500) (after register2 acme_db)).
Definition eab_row (n : string) : EabRow := default (mkEab n (seal 0 (PlainBytes "")) "" "" None None None 0) (eab_keys eab_db !! n).
Definition first_bind : Tx DB (bool * EabRow) := bind (eab_row "token-500") "token-100" t2026.
Definition second_bind : Tx DB (bool * EabRow) := bind (eab_row "token-501") "token-101" t2026.
Definition won (r : Outcome (bool * EabRow)) : bool := match r with Ok (b, _) => b | Raise _ => false end.
Lemma won_ok m (db : DB) : won (fst (request m db)) = true → ∃ k, request m db = (Ok (true, k), after m db).
Proof. unfold after. destruct (request m db) as [[[[] k]|e] d]; try done. by exists k. Qed.
#[local] Strategy 1000 [eab_db first_bind second_bind].
Lemma first_wins : won (fst (request first_bind eab_db)) = true.
Proof. vm_compute. reflexivity. Qed.
Lemma second_wins : won (fst (request second_bind (after first_bind eab_db))) = true.
Proof. vm_compute. reflexivity. Qed.
Lemma eab_db_ok : eabs_ok eab_db.
Proof.
  assert (He : map_Forall (λ _ _, false = true) (eab_keys (after register2 acme_db))) by by_decide.
  assert (H0 : eabs_ok (after register2 acme_db)) by (split; [intros n k Hk|intros n m k l a Hk]; discriminate (He _ _ Hk)).
  apply mint_step, mint_step, H0.
Qed.
(** The same key again, with the row as it was first read: too late. *)
Example second_spend : won (fst (request (bind (eab_row "token-500") "token-101" t2026) (after first_bind eab_db))) = false.
Proof. vm_compute. reflexivity. Qed.
Lemma eab_key_spent_once_witness : eab_id (eab_row "token-500") ≠ eab_id (eab_row "token-501") ∧
  ∃ k, eab_keys (after second_bind (after first_bind eab_db)) !! "token-500" = Some k ∧ bound_account_id k = Some "token-100".
Proof.
  destruct (won_ok first_bind eab_db first_wins) as [k1 H1].
  destruct (won_ok second_bind (after first_bind eab_db) second_wins) as [k2 H2].
  destruct (eab_key_spent_once (X:=lib) (SS:=toy_secrets) (CR:=toy_crypto) eab_db eab_db (after first_bind eab_db) (after first_bind eab_db)
    (after second_bind (after first_bind eab_db)) _ _ _ _ _ _ _ _ eab_db_ok (rtc_refl _ _) H1 (rtc_refl _ _) H2) as (Hne & _ & _ & Hk).
  split; [exact Hne|].
  assert (Hid : eab_id (eab_row "token-500") = "token-500") by (vm_compute; reflexivity). rewrite Hid in Hk. exact Hk.
Defined.
End EabExamples.
