(* ===== verification/Finalize.v ===== *)
(** * [cabin.acme.api_finalize]: the end of an order

    Finalization, the certificate, revocation: the handlers after the JWS has
    been verified, with the ownership checks of [acme/http.py].  A handler is
    given what the verification established: the account, the payload and, for
    a revocation, the key.  The reply of [finalize_order] is the order it
    renders and the [Retry-After] it sets. *)

From S2P Require Import Prelude PyStr Json PyTime IPAddr X509Lib Leaf Store CaService Grants Identity Certs Crl AuditLog AcmeNames AcmeService Base64 Csr Jws.
#[local] Open Scope Z_scope.

Definition ACME_PROFILE : Profile := server.
Definition RETRY_AFTER_SECONDS : Z := 3.
Definition MAX_CERT_ID : Z := 2 ^ 63 - 1.
Definition REVOCATION_REASONS : list (Z * RevocationReason) :=
  [(0, unspecified); (1, key_compromise); (3, affiliation_changed); (4, superseded); (5, cessation_of_operation)].
(** [REVOCATION_REASONS.get] *)
Definition revocation_reason_of (code : Z) : option RevocationReason :=
  snd <$> List.find (λ '(c, _), c =? code) REVOCATION_REASONS.

(** [http.not_found] *)
Definition not_found (what : string) : Exc := acme_error_status malformed ("no such " +:+ what) 404.
Definition payload_of (payload : option (list (string * json))) (what : string) : Outcome (list (string * json)) :=
  of_option payload (acme_error malformed (what +:+ " needs a payload")).
Definition ord_status_text (s : OrderStatus) : string :=
  match s with
  | ord_pending => "pending" | ord_ready => "ready" | ord_processing => "processing"
  | ord_valid => "valid" | ord_invalid => "invalid"
  end.

(** [_subject_cn]: the first name that fits. *)
Definition subject_cn_of (ids : list (string * string)) : option string :=
  snd <$> List.find (λ e : string * string, py_len (snd e) <=? MAX_CN_LENGTH) ids.
Definition san_of (e : string * string) : string :=
  (if decide (fst e = IP) then "IP" else "DNS") +:+ ":" +:+ snd e.
(** What the account sees of a failed issuance. *)
Definition issue_error (e : Exc) : Exc :=
  match e with
  | NameConstraintError m => acme_error rejected_identifier m
  | IssueError m | CANotConfiguredError m | SecretsError m | ValueError m | IssuerRequiredError m
  | UnknownIssuerError m | IssuerRetiredError m =>
      acme_error server_internal (str_take 400 ("this certificate could not be issued: " +:+ m))
  | _ => e
  end.

(** [_certificate_id] *)
Definition certificate_id_of (raw : string) : Outcome Z :=
  _ ← raise_if (negb (isascii raw && isdigit raw) || (py_len (str_of_Z MAX_CERT_ID) <? py_len raw)) (not_found "certificate");
  let cert_id := dec_value (chars raw) in
  _ ← raise_if (negb (bool_decide (str_of_Z cert_id = raw)) || (MAX_CERT_ID <? cert_id)) (not_found "certificate");
  mret cert_id.
Definition parse_reason (raw : json) : Outcome RevocationReason :=
  match raw with
  | JNull => mret unspecified
  | JInt code => of_option (revocation_reason_of code)
      (acme_error_extra bad_revocation_reason ("cabin does not revoke for reason code " +:+ str_of_Z code)
         [("reasons", JList (map (λ '(c, _), JInt c) REVOCATION_REASONS))])
  | _ => mthrow (acme_error malformed "the revocation reason must be an RFC 5280 code")
  end.

(** The certificate a revocation names, from its DER. *)
Class DerCerts {X : X509Lib} := { load_der_cert : string → Outcome Cert }.

Section finalize.
Context {X : X509Lib} {SS : SecretStore} {CR : Crypto} {D : DerLib} {DC : DerCerts} {J : Jose}.

(** [http.owned_order] *)
Definition owned_order (account : AccountRow) (order : option OrderRow) : Outcome OrderRow :=
  match order with
  | None => mthrow (not_found "order")
  | Some o =>
      _ ← raise_if (negb (bool_decide (ord_account o = acc_id account)))
            (acme_error unauthorized "this order belongs to another account");
      mret o
  end.

(** [_issue]: sign, or give the order back. *)
Definition issue (account : AccountRow) (order : OrderRow) (der : string) (d : Draw) (created : Z) : Tx DB Issued :=
  let ids := order_identifiers order in
  catch (sign_csr_and_store ACME_PRINCIPAL (der_to_pem der) ACME_PROFILE DEFAULT_DAYS (Some (map san_of ids))
           (subject_cn_of ids) true (Some (acc_issuer account)) acme d created)
    (λ _, true)
    (λ e, _ ← rollback; _ ← release_claim order; mthrow (issue_error e)).
(** What the log says of an issuance, and of a revocation. *)
Definition issued_event (issued : Issued) (order_id : string) (from : option string) : Event :=
  let row := issued_row issued in
  mkEvent (issued_summary row) (Some ("certificate", Some (str_of_Z (crt_id row))))
    (Some (<["order" := JStr order_id]> (certificate_detail row None
      (if bool_decide (is_Some (capped_from issued)) then Some DEFAULT_DAYS else None) (capped_from issued)))) from.
Definition revoked_event (row : CertRow) (reason : RevocationReason) (from : option string) : Event :=
  mkEvent (revoked_summary row reason) (Some ("certificate", Some (str_of_Z (crt_id row)))) (Some (revocation_detail row reason)) from.
(** [others]: what other requests commit between the checks and the claim;
    [from]: the client's address; [logged]: the clock when it is logged. *)
Definition finalize_order (others : DB → DB) (order_id : string) (account : AccountRow)
    (body : option (list (string * json))) (now : Z) (d : Draw) (created : Z) (from : option string) (logged : Z)
  : Tx DB (OrderRow * option Z) :=
  row ← query (get_order order_id);
  order ← lift (owned_order account row);
  if bool_decide (is_Some (certificate_id order)) then mret (order, None)
  else
    status ← query (order_status order now);
    _ ← raise_if (negb (bool_decide (status = ord_ready)))
          (acme_error order_not_ready ("this order is " +:+ ord_status_text status +:+
             "; every authorization must be valid before it can be finalized"));
    members ← lift (payload_of body "finalize");
    der ← lift (b64decode (member "csr" members) "the CSR");
    csr ← lift (load der);
    _ ← lift (check_identifiers csr (order_identifiers order));
    _ ← others_commit others;
    '(claimed, order) ← claim_for_issuance order;
    if negb claimed then mret (order, Some RETRY_AFTER_SECONDS)
    else
      issued ← issue account order der d created;
      order ← attach_certificate order (crt_id (issued_row issued));
      _ ← record (acme_actor (jwk_thumbprint account)) a_acme_certificate_issued (issued_event issued (ord_id order) from) logged;
      mret (order, None).

(** ** The certificate *)
Definition certificate_of (raw_id account_id : string) (db : DB) : Outcome CertRow :=
  cert_id ← certificate_id_of raw_id;
  match order_for_certificate cert_id db with
  | None => mthrow (not_found "certificate")
  | Some order =>
      _ ← raise_if (negb (bool_decide (ord_account order = account_id)))
            (acme_error unauthorized "this certificate belongs to another account");
      of_option (get_certificate cert_id db) (not_found "certificate")
  end.
Definition is_unknown_issuer (e : Exc) : bool := match e with UnknownIssuerError _ => true | _ => false end.
(** [_chain_set] *)
Definition chain_set (row : CertRow) (now : Z) (db : DB) : Outcome ChainSet :=
  catch_pure (chains_for db (crt_issuer row) now) is_unknown_issuer
    (λ _, Raise (acme_error server_internal "no CA is configured on this cabin instance")).
(** The PEM blocks of the body, in order. *)
Definition chain_pem (row : CertRow) (chain : Chain) : list Pem := crt_pem row :: map ca_cert (chain_rows chain).
Definition post_as_get (body : option (list (string * json))) : Outcome unit :=
  raise_if (bool_decide (is_Some (const () <$> body)))
    (acme_error malformed "a certificate is fetched with a POST-as-GET request, which carries no payload").
(** The body, and the anchors of the alternate links. *)
Definition certificate_resource (raw_id : string) (account : AccountRow) (body : option (list (string * json)))
    (now : Z) (db : DB) : Outcome (list Pem * list (option Z)) :=
  _ ← post_as_get body;
  row ← certificate_of raw_id (acc_id account) db;
  chains ← chain_set row now db;
  mret (chain_pem row (default_chain chains), map anchor_id (alternates chains)).
Definition certificate_alternate (raw_id raw_anchor : string) (account : AccountRow)
    (body : option (list (string * json))) (now : Z) (db : DB) : Outcome (list Pem) :=
  _ ← post_as_get body;
  row ← certificate_of raw_id (acc_id account) db;
  anchor ← certificate_id_of raw_anchor;
  chains ← chain_set row now db;
  chain ← of_option (by_anchor chains anchor) (not_found "certificate chain");
  mret (chain_pem row chain).

(** ** Revocation *)
Definition submitted_certificate (members : list (string * json)) : Outcome Cert :=
  der ← b64decode (member "certificate" members) "the certificate";
  catch_pure (load_der_cert der) is_value_error (λ _, Raise (acme_error malformed "the certificate is not valid DER")).
(** Found by serial number, confirmed byte for byte. *)
Definition stored_certificate (submitted : Cert) (db : DB) : Outcome CertRow :=
  let refused := acme_error unauthorized "this certificate was not issued by this cabin" in
  row ← of_option (certificate_by_serial (hex_of_Z (serial_number (tbs submitted))) db) refused;
  _ ← raise_if (negb (bool_decide (crt_pem row = cert_pem submitted))) refused;
  mret row.
(** The label the audit log records. *)
Definition authorize_revocation (v : VerifiedRequest) (row : CertRow) (submitted : Cert) (db : DB) : Outcome string :=
  match vr_account v with
  | Some account =>
      let mine := match order_for_certificate (crt_id row) db with
                  | Some order => bool_decide (ord_account order = acc_id account) | None => false end in
      _ ← raise_if (negb mine)
            (acme_error unauthorized "this certificate was not issued to the account that signed this request");
      mret (jwk_thumbprint account)
  | None =>
      _ ← raise_if (negb (bool_decide (public_of (vr_key v) = cert_key submitted)))
            (acme_error unauthorized "this request is not signed by the certificate's own key pair");
      mret (thumbprint (base (vr_key v)))
  end.
Definition revoke_error (e : Exc) : bool :=
  match e with CANotConfiguredError _ | RevocationError _ | SecretsError _ => true | _ => false end.
Definition revoke_cert (v : VerifiedRequest) (now : Z) (from : option string) (logged : Z) : Tx DB unit :=
  members ← lift (payload_of (payload v) "revoke-cert");
  submitted ← lift (submitted_certificate members);
  reason ← lift (parse_reason (member "reason" members));
  row ← query (stored_certificate submitted);
  row ← lift row;
  allowed ← query (authorize_revocation v row submitted);
  thumbprint ← lift allowed;
  _ ← raise_if (bool_decide (is_Some (revoked_at row)))
        (acme_error already_revoked "this certificate has already been revoked");
  row ← catch (revoke_certificate (crt_id row) reason ACME_PRINCIPAL now) revoke_error
        (λ e, mthrow (acme_error server_internal (str_take 400 ("this certificate could not be revoked: " +:+ exc_text e))));
  _ ← record (acme_actor thumbprint) a_acme_certificate_revoked (revoked_event row reason from) logged;
  mret ().
End finalize.

(** ** What each step does *)
Section steps.
Context {X : X509Lib} {SS : SecretStore} {CR : Crypto} {D : DerLib}.

Lemma on_orders_eq f g db : f (orders db) = g (orders db) → on_orders f db = on_orders g db.
Proof. intros H. unfold on_orders. by rewrite H. Qed.
Lemma on_orders_same f db : f (orders db) = orders db → on_orders f db = db.
Proof. intros H. unfold on_orders. rewrite H. by destruct db. Qed.
Definition set_order (o : OrderRow) : DB → DB := on_orders (λ m, <[ord_id o := o]> m).

Lemma wp_claim order s (Q : Outcome (bool * OrderRow) → Session DB → Prop) :
  (∀ o, orders (work s) !! ord_id order = Some o → claimable o = true →
     let db := on_orders (λ m, <[ord_id order := claimed_order o]> m) (work s) in Q (Ok (true, claimed_order o)) (mkSession db db)) →
  (∀ o, orders (work s) !! ord_id order = Some o → claimable o = false → Q (Ok (false, o)) (mkSession (work s) (work s))) →
  (orders (work s) !! ord_id order = None → Q (Raise cannot_refresh) (mkSession (work s) (work s))) →
  wp (claim_for_issuance order) s Q.
Proof.
  intros Hwon Hlost Hgone. unfold claim_for_issuance, refresh_order. wp_run; cbn [orders on_orders] in *;
    match goal with H : of_option _ _ = _ |- _ => rewrite update_where_lookup, decide_True in H by done end;
    unfold update_where in *; destruct (orders (work s) !! ord_id order) as [o|] eqn:Ho; cbn in *; try done.
  - match goal with H : Ok _ = Ok _ |- _ => injection H as <- end. destruct (claimable o) eqn:Hc; cbn.
    + rewrite (on_orders_eq _ (λ m, <[ord_id order := claimed_order o]> m)) by (cbn; by rewrite Ho, Hc). by apply Hwon.
    + rewrite on_orders_same by (cbn; by rewrite Ho, Hc). by apply Hlost.
  - match goal with H : Raise _ = Raise _ |- _ => injection H as <- end.
    rewrite on_orders_same by (cbn; by rewrite Ho). by apply Hgone.
Qed.
Lemma alter_insert (m : gmap string OrderRow) f k o : m !! k = Some o → alter f k m = <[k := f o]> m.
Proof.
  intros Hk. apply map_eq. intros j. destruct (decide (k = j)) as [<-|Hne].
  - by rewrite lookup_alter_eq, lookup_insert_eq, Hk.
  - by rewrite lookup_alter_ne, lookup_insert_ne.
Qed.
(** The order as the claim left it. *)
Lemma wp_release order o s (Q : Outcome unit → Session DB → Prop) : ord_status order = ord_processing →
  orders (work s) !! ord_id order = Some o →
  (let db := on_orders (λ m, <[ord_id order := with_order ord_pending (certificate_id o) (ord_error o) o]> m) (work s) in
   Q (Ok ()) (mkSession db db)) → wp (release_claim order) s Q.
Proof.
  intros Hst Ho HQ. unfold release_claim, update_order. wp_run.
  - match goal with H : bool_decide _ = true |- _ => apply bool_decide_eq_true in H; congruence end.
  - rewrite (on_orders_eq _ (λ m, <[ord_id order := with_order ord_pending (certificate_id o) (ord_error o) o]> m)); [done|].
    cbn. rewrite (alter_insert _ _ _ o) by done. unfold write_col. by rewrite Hst, ?Hc, !decide_False.
Qed.
Lemma wp_attach order o c s (Q : Outcome OrderRow → Session DB → Prop) :
  ord_status order = ord_processing → certificate_id order = None →
  orders (work s) !! ord_id order = Some o → is_Some (certs (work s) !! c) →
  (let db := on_orders (λ m, <[ord_id order := with_order ord_valid (Some c) (ord_error o) o]> m) (work s) in
   Q (Ok (with_order ord_valid (Some c) (ord_error order) order)) (mkSession db db)) →
  wp (attach_certificate order c) s Q.
Proof.
  intros Hst Hc Ho Hcert HQ. unfold attach_certificate, update_order. wp_run.
  - match goal with H : bool_decide _ = true |- _ => apply bool_decide_eq_true in H; rewrite H in Hcert; by destruct Hcert end.
  - match goal with H : bool_decide (orders _ !! _ = None) = true |- _ => apply bool_decide_eq_true in H; congruence end.
  - rewrite (on_orders_eq _ (λ m, <[ord_id order := with_order ord_valid (Some c) (ord_error o) o]> m)); [done|].
    cbn. rewrite (alter_insert _ _ _ o) by done. unfold write_col. by rewrite Hst, ?Hc, !decide_False.
Qed.
End steps.

(** ** Finalization, exactly *)
Section theorems.
Context {X : X509Lib} {SS : SecretStore} {CR : Crypto} {D : DerLib} {DC : DerCerts}.

Lemma wp_catch_all {A} (m : Tx DB A) h s (Q : Outcome A → Session DB → Prop) :
  wp m s (λ r s', match r with Ok a => Q (Ok a) s' | Raise e => wp (h e) s' Q end) →
  wp (catch m (λ _, true) h) s Q.
Proof. unfold wp, catch. by destruct (m s) as [[a|e] s']. Qed.
Lemma issued_by_orders f d p iid row cert ic ik : issued_by (on_orders f d) p iid row cert ic ik → issued_by d p iid row cert ic ik.
Proof. intros []. by split. Qed.
Lemma wp_issue account order o der csr d created db (Q : Outcome Issued → Session DB → Prop) :
  hierarchy_ok db → 0 ≤ d_serial d → load_der_csr der = Ok csr → ord_status order = ord_processing →
  orders db !! ord_id order = Some o →
  (∀ row cert ic ik capped cn resolved,
     issued_by db ACME_PRINCIPAL (Some (acc_issuer account)) row cert ic ik →
     names_resolved (Some (map san_of (ord_identifiers order))) resolved →
     leaf_ok ic ik (csr_key csr) cn resolved server cert →
     let db' := on_certs (λ m, <[crt_id row := row]> m) db in Q (Ok (mkIssued row capped)) (mkSession db' db')) →
  (∀ e, let db' := on_orders (λ m, <[ord_id order := with_order ord_pending (certificate_id o) (ord_error o) o]> m) db in
     Q (Raise (issue_error e)) (mkSession db' db')) →
  wp (issue account order der d created) (mkSession db db) Q.
Proof.
  intros Hdb Hser Hcsr Hst Ho Hok Hfail. unfold issue. apply wp_catch_all, wp_sign_csr_and_store; [done|done| |].
  - intros row cert ic ik capped Hby _ _ _ (csr' & cn & resolved & Hl & Hres & Hleaf & _) db'.
    assert (csr' = csr) as -> by (apply load_der_to_pem in Hcsr; congruence). by eapply Hok.
  - intros e. apply wp_bind, wp_rollback. cbn [durable work]. apply wp_bind. apply (wp_release _ o); [done..|]. cbn. by apply wp_throw.
Qed.

Lemma set_once k a b db : on_orders (λ m, <[k := b]> m) (on_orders (λ m, <[k := a]> m) db) = on_orders (λ m, <[k := b]> m) db.
Proof. unfold on_orders. cbn. by rewrite insert_insert_eq. Qed.
Lemma set_twice f k a b db : on_orders (λ m, <[k := b]> m) (on_certs f (on_orders (λ m, <[k := a]> m) db)) =
  on_orders (λ m, <[k := b]> m) (on_certs f db).
Proof. unfold on_orders, on_certs. cbn. by rewrite insert_insert_eq. Qed.
(** The outcomes of a finalization. *)
Inductive finalized (others : DB → DB) (order_id : string) (account : AccountRow) (body : option (list (string * json)))
    (now : Z) (db : DB) : Outcome (OrderRow * option Z) → DB → Prop :=
  | fin_refused e : finalized others order_id account body now db (Raise e) db
  | fin_again o c : orders db !! order_id = Some o → ord_account o = acc_id account → certificate_id o = Some c →
      finalized others order_id account body now db (Ok (o, None)) db
  | fin_busy o : orders (others db) !! order_id = Some o → claimable o = false →
      finalized others order_id account body now db (Ok (o, Some RETRY_AFTER_SECONDS)) (others db)
  | fin_failed o1 e : orders (others db) !! order_id = Some o1 → claimable o1 = true →
      finalized others order_id account body now db (Raise (issue_error e))
        (set_order (with_order ord_pending None None o1) (others db))
  | fin_issued o o1 members der csr row cert ic ik cn resolved event :
      orders db !! order_id = Some o → ord_account o = acc_id account → order_status o now db = ord_ready →
      body = Some members → b64decode (member "csr" members) "the CSR" = Ok der → load der = Ok csr →
      names_match csr (ord_identifiers o) →
      orders (others db) !! order_id = Some o1 → claimable o1 = true →
      issued_by (others db) ACME_PRINCIPAL (Some (acc_issuer account)) row cert ic ik →
      names_resolved (Some (map san_of (ord_identifiers o))) resolved →
      leaf_ok ic ik (csr_key csr) cn resolved server cert →
      audit_events (others db) !! aud_id event = None → aud_action event = a_acme_certificate_issued →
      actor_label event = act_label (acme_actor (jwk_thumbprint account)) → target_id event = Some (str_of_Z (crt_id row)) →
      let o' := with_order ord_valid (Some (crt_id row)) None o1 in
      finalized others order_id account body now db (Ok (o', None))
        (on_audit (λ m, <[aud_id event := event]> m) (set_order o' (on_certs (λ m, <[crt_id row := row]> m) (others db)))).

(** C8: no certificate without proof.  Whatever other requests commit between the
    checks and the claim, a finalization ends in one of five ways: it is
    refused and changes nothing; the order already has its certificate and is
    answered as it is; another finalization has the order and the client is
    told to wait; the issuance failed and the order is open again, with no
    certificate; or the order was the account's own, ready, and unclaimed, the
    CSR's names are exactly the order's, and exactly one certificate was
    issued: by the account's issuer, for the CSR's key and the order's names;
    the order, now valid, names it, and the log says so. *)
Theorem finalize_order_exact others order_id account body now d created from logged db r db' :
  hierarchy_ok (others db) → 0 ≤ d_serial d →
  (∀ o, orders db !! order_id = Some o → ord_id o = order_id ∧
     ∃ o1, orders (others db) !! order_id = Some o1 ∧ ord_id o1 = order_id ∧ ord_identifiers o1 = ord_identifiers o) →
  request (finalize_order others order_id account body now d created from logged) db = (r, db') →
  finalized others order_id account body now db r db'.
Proof.
  intros Hhier Hser Hkeep Hreq. refine (request_wp _ _ (finalized others order_id account body now db) _ _ Hreq _).
  unfold finalize_order, fresh_session. apply wp_bind, wp_query. cbn [work]. apply wp_bind, wp_lift; [|intros; constructor].
  intros o Ho. unfold owned_order, get_order in Ho. destruct (orders db !! order_id) as [o'|] eqn:Hrow; [|done]. inv_tx.
  apply negb_false_iff, bool_decide_eq_true in H. rename H into Hown.
  destruct (Hkeep o eq_refl) as (Hid & o1 & Ho1 & Hid1 & Hids).
  case_bool_decide as Hcert; [apply wp_ret; cbn; destruct Hcert as [c Hc]; by eapply fin_again|].
  apply wp_bind, wp_query. cbn [work]. apply wp_bind, wp_raise_if; [intros _; constructor|intros Hready].
  apply negb_false_iff, bool_decide_eq_true in Hready.
  apply wp_bind, wp_lift; [intros members Hbody|intros; constructor]. apply of_option_ok in Hbody.
  apply wp_bind, wp_lift; [intros der Hder|intros; constructor].
  apply wp_bind, wp_lift; [intros csr Hcsr|intros; constructor].
  apply wp_bind, wp_lift; [intros u Hnames%check_identifiers_ok|intros; constructor].
  apply wp_bind. change (wp (others_commit others) ?s ?Q) with (Q (Ok ()) (mkSession (others db) (others db))). cbn beta iota.
  apply wp_bind, wp_claim; cbn [work]; rewrite Hid; [| |congruence].
  - intros o2 Ho2 Hclaim. assert (o2 = o1) as -> by congruence. apply wp_bind.
    apply (wp_issue account _ (claimed_order o1) der csr); [exact Hhier|done|by apply load_ok in Hcsr as (_ & ? & _)|done| | |].
    + cbn. rewrite Hid1. apply lookup_insert_eq.
    + intros row cert ic ik capped cn resolved Hby Hres Hleaf d2. apply wp_bind.
      eapply (wp_attach _ (claimed_order o1)); [done| | | |].
      * cbn. unfold claimable in Hclaim. apply andb_true_iff in Hclaim as [Hc _]. by apply bool_decide_eq_true in Hc.
      * cbn. rewrite Hid1. apply lookup_insert_eq.
      * cbn. rewrite lookup_insert_eq. by eexists.
      * apply wp_bind, wp_record. intros event d3 Hfresh. apply wp_ret. subst d3. cbn [durable work] in *.
        change (ord_id (claimed_order o1)) with (ord_id o1). rewrite Hid1.
        apply issued_by_orders in Hby. change (order_identifiers (claimed_order o1)) with (ord_identifiers o1) in Hres.
        change (ord_identifiers (claimed_order o1)) with (ord_identifiers o1) in Hres. rewrite Hids in Hres.
        pose proof (fin_issued others order_id account body now db o o1 members der csr row cert ic ik cn resolved
          event Hrow Hown Hready Hbody Hder Hcsr Hnames Ho1 Hclaim Hby Hres Hleaf Hfresh eq_refl
          (acme_label_whole _) eq_refl) as Hfin. cbv zeta in Hfin.
        unfold set_order in Hfin. cbn [ord_id with_order] in Hfin. rewrite Hid1 in Hfin.
        subst d2. rewrite set_twice. exact Hfin.
    + intros e d2. subst d2. cbn [durable]. change (ord_id (claimed_order o1)) with (ord_id o1). rewrite Hid1, set_once.
      pose proof (fin_failed others order_id account body now db o1 e Ho1 Hclaim) as Hfin.
      unfold set_order in Hfin. cbn [ord_id with_order] in Hfin. rewrite Hid1 in Hfin.
      unfold claimable in Hclaim. apply andb_true_iff in Hclaim as [Hc%bool_decide_eq_true _]. cbn. rewrite Hc. exact Hfin.
  - intros o2 Ho2 Hclaim. cbn [negb]. apply wp_ret. cbn. by apply fin_busy.
Qed.
End theorems.

(** ** At work *)
Module FinalizeExamples.
#[local] Existing Instance Toy.lib.
#[local] Existing Instance toy_secrets.
#[local] Existing Instance toy_crypto.
#[local] Existing Instance CsrExamples.toy_der.
Import Toy CaExamples AcmeExamples.
#[local] Strategy 1000 [one_root two_cas two_roots crossed acme_db placed_db proven_db after request].
Definition csr_body (name : string) : option (list (string * json)) := Some [("csr", JStr (b64encode name))].
Definition finish (name : string) : Tx DB (OrderRow * option Z) :=
  finalize_order (SS:=toy_secrets) id "token-200" acct (csr_body name) t2026 (draw 30) t2026 None t2026.

Lemma same_cas {A} (m : Tx DB A) db : keeps (λ d, cas d = cas db) m → cas (after m db) = cas db.
Proof. intros H. by apply (request_keeps (λ d, cas d = cas db)). Qed.
Lemma place_cas account ids nb na draws now db : cas (after (create_order account ids nb na draws now) db) = cas db.
Proof.
  apply same_cas. unfold create_order, add_order. cbn zeta. keeps_frame. generalize 1%nat.
  induction ids as [|i ids IH]; intros k; cbn [add_authzs]; [apply keeps_ret|]. unfold add_authz, add_challenge. keeps_frame. apply IH.
Qed.
Lemma step_cas n op db : cas (snd (chall_step n op db)) = cas db.
Proof.
  destruct op as [c a now|c a now|c problem|account ids nb na draws now]; cbn [chall_step].
  - pose proof (same_cas (begin_challenge c a now) db) as H. unfold after in H. destruct (request _ db). apply H.
    unfold begin_challenge. destruct (decide _); keeps_frame.
  - apply same_cas. unfold record_challenge_success. keeps_frame.
  - apply same_cas. unfold record_challenge_failure, update_challenge_where, refresh_challenge. keeps_frame.
  - apply place_cas.
Qed.
Lemma run_cas n ops db : cas (snd (chall_run n ops db)) = cas db.
Proof.
  revert db. induction ops as [|op ops IH]; intros db; [done|]. cbn [chall_run].
  pose proof (step_cas n op db) as Hs. destruct (chall_step n op db) as [e d1]. specialize (IH d1).
  destruct (chall_run n ops d1). cbn in *. congruence.
Qed.
Lemma proven_ok : hierarchy_ok proven_db.
Proof.
  apply (hierarchy_same two_roots); [|apply two_roots_ok]. unfold proven_db, placed_db. rewrite run_cas. unfold place.
  rewrite place_cas. unfold acme_db, after, register. rewrite request_register. by repeat case_match.
Qed.
Lemma finalize_order_exact_witness :
  is_ok (fst (request (finish "nas.lan") proven_db)) = true ∧
  finalized (SS:=toy_secrets) id "token-200" acct (csr_body "nas.lan") t2026 proven_db
    (fst (request (finish "nas.lan") proven_db)) (snd (request (finish "nas.lan") proven_db)).
Proof.
  split; [vm_compute; reflexivity|].
  refine (finalize_order_exact (X:=lib) (SS:=toy_secrets) (D:=CsrExamples.toy_der) id "token-200" acct (csr_body "nas.lan") t2026 (draw 30) t2026 None t2026
    proven_db _ _ proven_ok _ _ (surjective_pairing _)).
  - vm_compute. discriminate.
  - assert (Hkey : map_Forall (λ n o, ord_id o = n) (orders proven_db)) by by_decide.
    intros o Ho. split; [exact (Hkey _ _ Ho)|]. exists o. split; [exact Ho|]. split; [exact (Hkey _ _ Ho)|reflexivity].
Defined.
(** A CSR for another name, and an order whose challenge was not proven. *)
Example another_name_is_refused : raised (fst (request (finish "evil.lan") proven_db)) =
  Some (AcmeError "badCSR" "the CSR asks for names this order did not authorize: evil.lan" 400 [] []).
Proof. vm_compute. reflexivity. Qed.
Example unproven_is_not_ready : raised (fst (request (finish "nas.lan") placed_db)) =
  Some (AcmeError "orderNotReady" "this order is pending; every authorization must be valid before it can be finalized" 403 [] []).
Proof. vm_compute. reflexivity. Qed.
(** The order is finalized once; asked again, it is answered as it is. *)
Example finalized_once :
  let db := after (finish "nas.lan") proven_db in
  size (certs db) = 1%nat ∧ certificate_id <$> orders db !! "token-200" = Some (Some 1) ∧
  size (certs (after (finish "nas.lan") db)) = 1%nat.
Proof. vm_compute. split_and!; reflexivity. Qed.
End FinalizeExamples.
