(* ===== verification/Validators.v ===== *)
(** * The three validation methods

    [acme/validation/http01.py], [dns01.py] and [tlsalpn01.py]: each proves
    control of an identifier over the network or raises.  The theorems hold
    in every [World]: what a validator connects to, how often, and what a
    success says about the answers it got. *)

From S2P Require Import Prelude PyStr Json PyTime IPAddr IPKinds Url Net X509Lib Leaf Store CaService Grants Identity AcmeNames Base64 Csr Jws Targets Finalize.
#[local] Open Scope Z_scope.

(** ** [http01.py] *)
Definition WELL_KNOWN_PREFIX : string := "/.well-known/acme-challenge/".
Definition MAX_RESPONSE_BYTES : Z := 64 * 1024.
Definition MAX_REDIRECTS : nat := 5.
Definition REDIRECTS : list Z := [301; 302; 303; 307; 308].
Definition DEFAULT_PORTS (scheme : string) : option Z :=
  if decide (scheme = "http") then Some 80 else if decide (scheme = "https") then Some 443 else None.
Definition ALLOWED_PORTS : list Z := [80; 443].
(** [bytes.strip()] *)
Definition is_bytes_space (c : ascii) : bool := in_range 9 13 c || in_range 32 32 c.
Definition bytes_strip (s : string) : string :=
  of_chars (rev (drop_while is_bytes_space (rev (drop_while is_bytes_space (chars s))))).

Section http01.
Context {W : World}.
Definition host_in_url (a : Attempt) : string :=
  if decide (at_type a = "ip" ∧ contains ":" (at_value a) = true) then "[" +:+ at_value a +:+ "]" else at_value a.
Definition endpoint_of (url : string) (allow_private : bool) : Net Endpoint :=
  u ← pure (urlsplit url);
  default_port ← pure (of_option (DEFAULT_PORTS (scheme u))
    (acme_error incorrect_response (str_take 200 ("validation will not follow a redirect to " +:+ py_repr (scheme u)))));
  name ← pure (match url_hostname u with
    | Some name => if decide (name = "") then Raise (acme_error incorrect_response (str_take 200 (url +:+ " names no host"))) else Ok name
    | None => Raise (acme_error incorrect_response (str_take 200 (url +:+ " names no host"))) end);
  given ← pure (catch_pure (url_port u) is_value_error (λ _, Raise (acme_error incorrect_response (str_take 200 (url +:+ " names no usable port")))));
  let port := match given with Some p => if p =? 0 then default_port else p | None => default_port end in
  _ ← raise_if (bool_decide (port ∉ ALLOWED_PORTS))
        (acme_error incorrect_response ("validation only follows redirects to ports 80 and 443, not " +:+ str_of_Z port));
  resolve name port allow_private.
(** What a failing client call says. *)
Definition fetch_timed_out (url : string) (e : Endpoint) (d : Deadline) : Exc :=
  acme_error connection ("fetching " +:+ url +:+ " from " +:+ ep_netloc e +:+ " timed out after " +:+ str_of_Z (budget d) +:+ " seconds").
Definition fetch_failed (url : string) (e : Endpoint) (cls : string) : Exc :=
  acme_error connection ("could not connect to " +:+ url +:+ " at " +:+ ep_netloc e +:+ ": " +:+ cls).
(** The loop over [iter_bytes]; each chunk takes one unit of fuel. *)
Fixpoint read_capped (fuel : nat) (url : string) (e : Endpoint) (d : Deadline) (read : Z) (chunks : string) : Net string :=
  match fuel with
  | O => mthrow OutOfFuel
  | S fuel =>
      answer ← next_chunk;
      match answer with
      | EndOfBody => mret chunks
      | BodyTimeout => mthrow (fetch_timed_out url e d)
      | BodyFailed cls => mthrow (fetch_failed url e cls)
      | BodyRaised x => mthrow x
      | Chunk c s =>
          _ ← check_deadline d url connection;
          let read := read + py_len (String c s) in
          _ ← raise_if (MAX_RESPONSE_BYTES <? read)
                (acme_error incorrect_response ("the response from " +:+ url +:+ " is larger than " +:+ str_of_Z MAX_RESPONSE_BYTES +:+ " bytes"));
          read_capped fuel url e d read (chunks +:+ String c s)
      end
  end.
(** One chunk more than the cap has bytes: more fuel changes nothing
    ([chunk_fuel]). *)
Definition CHUNK_FUEL : nat := Z.to_nat (MAX_RESPONSE_BYTES + 1).
(** The status, the Location and the body of one request. *)
Definition one_request (url : string) (allow_private : bool) (d : Deadline) : Net (Z * string * string) :=
  e ← endpoint_of url allow_private;
  u ← pure (urlsplit url);
  let request_url := urlunsplit_full (scheme u) (ep_netloc e) (path u) (query u) in
  left ← check_deadline d url connection;
  answer ← http_get (mkHttpRequest e request_url (host_header e) (sni e) left);
  match answer with
  | HttpTimeout => mthrow (fetch_timed_out url e d)
  | HttpFailed cls => mthrow (fetch_failed url e cls)
  | HttpRaised x => mthrow x
  | HttpStatus status location =>
      body ← read_capped CHUNK_FUEL url e d 0 "";
      mret (status, location, body)
  end.
Definition redirect_target (url location : string) : Net string :=
  _ ← raise_if (bool_decide (location = "")) (acme_error incorrect_response (url +:+ " redirected without a Location header"));
  pure (url_join url location).
(** [for _ in range(MAX_REDIRECTS + 1)] *)
Fixpoint fetch_loop (hops : nat) (url : string) (allow_private : bool) (d : Deadline) : Net string :=
  match hops with
  | O => mthrow (acme_error incorrect_response ("validating " +:+ url +:+ " took more than " +:+ str_of_Z (Z.of_nat MAX_REDIRECTS) +:+ " redirects"))
  | S hops =>
      '(status, location, body) ← one_request url allow_private d;
      if decide (status ∈ REDIRECTS) then
        url' ← redirect_target url location;
        fetch_loop hops url' allow_private d
      else
        _ ← raise_if (negb (status =? 200)) (acme_error incorrect_response (url +:+ " responded " +:+ str_of_Z status +:+ ", not 200"));
        mret body
  end.
Definition fetch (url : string) (allow_private : bool) (d : Deadline) : Net string := fetch_loop (S MAX_REDIRECTS) url allow_private d.
Definition http01_url (a : Attempt) : string := "http://" +:+ host_in_url a +:+ WELL_KNOWN_PREFIX +:+ at_token a.
Definition http01_validate (a : Attempt) : Net unit :=
  let url := http01_url a in
  d ← new_deadline VALIDATION_TIMEOUT;
  body ← fetch url (allow_private a) d;
  raise_if (negb (bool_decide (bytes_strip body = encode_utf8 (key_authorization a))))
    (acme_error incorrect_response ("the response from " +:+ url +:+ " does not match the key authorization")).
End http01.

(** ** [dns01.py] *)
Definition LABEL : string := "_acme-challenge".
Section dns01.
Context {W : World} {X : X509Lib} {J : Jose}.
(** [lookup_txt]: the strings of each record joined and decoded are the answer
    of the world. *)
Definition txt_records (name : string) (resolvers : list string) (d : Deadline) : Net (list string) :=
  left ← check_deadline d name dns;
  answer ← txt_query name resolvers left;
  match answer with
  | TxtRecords records => mret (map decode_replace records)
  | NXDOMAIN => mthrow (acme_error dns (name +:+ " does not exist (NXDOMAIN)"))
  | NoAnswer => mthrow (acme_error dns (name +:+ " exists but has no TXT record"))
  | DnsTimeout => mthrow (acme_error dns ("the DNS lookup for " +:+ name +:+ " timed out after " +:+ str_of_Z (budget d) +:+ " seconds"))
  | DnsFailed cls => mthrow (acme_error dns ("the DNS lookup for " +:+ name +:+ " failed: " +:+ cls))
  | DnsRaised x => mthrow x
  end.
Definition dns01_name (a : Attempt) : string := LABEL +:+ "." +:+ at_value a.
Definition dns01_validate (a : Attempt) : Net unit :=
  _ ← raise_if (negb (bool_decide (at_type a = "dns")))
        (acme_error malformed ("dns-01 cannot prove control of a " +:+ at_type a +:+ " identifier"));
  d ← new_deadline VALIDATION_TIMEOUT;
  records ← txt_records (dns01_name a) (resolvers a) d;
  let expected := encode_utf8 (dns_value (key_authorization a)) in
  raise_if (negb (existsb (λ record, bool_decide (encode_utf8 record = expected)) records))
    (acme_error incorrect_response ("no TXT record at " +:+ dns01_name a +:+ " matches the key authorization ("
       +:+ str_of_Z (Z.of_nat (length records)) +:+ " found)")).
End dns01.

(** ** [tlsalpn01.py] *)
Definition ACME_TLS_1 : string := "acme-tls/1".
Definition TLS_ALPN_PORT : Z := 443.
Definition ACME_IDENTIFIER_OID : string := "1.3.6.1.5.5.7.1.31".
Definition OCTET_STRING_HEADER : string := String (char_of 4) (String (char_of 32) EmptyString).
Section tlsalpn01.
Context {W : World} {X : X509Lib} {DC : DerCerts} {J : Jose}.
(** The three [except] clauses. *)
Definition socket_answer {A} (e : Endpoint) (d : Deadline) (r : SocketAnswer A) : Net A :=
  match r with
  | SocketOk a => mret a
  | SSLFailed cls => mthrow (acme_error tls ("the TLS handshake with " +:+ ep_netloc e +:+ " failed: " +:+ cls))
  | SocketTimeout => mthrow (acme_error connection ("connecting to " +:+ ep_netloc e +:+ " timed out after " +:+ str_of_Z (budget d) +:+ " seconds"))
  | OSFailed cls => mthrow (acme_error connection ("could not connect to " +:+ ep_netloc e +:+ ": " +:+ cls))
  | SocketRaised x => mthrow x
  end.
Definition presented_certificate (a : Attempt) (d : Deadline) : Net Cert :=
  e ← resolve (at_value a) TLS_ALPN_PORT (allow_private a);
  left ← check_deadline d (host e) connection;
  r ← tcp_connect e left;
  _ ← socket_answer e d r;
  left ← check_deadline d (host e) tls;
  r ← tls_handshake (sni e) left;
  hs ← socket_answer e d r;
  _ ← raise_if (negb (bool_decide (selected_alpn hs = Some ACME_TLS_1)))
        (acme_error tls ("the server at " +:+ ep_netloc e +:+ " did not negotiate the " +:+ ACME_TLS_1 +:+ " protocol"));
  let none_presented := acme_error tls (ep_netloc e +:+ " presented no certificate") in
  der ← pure (match peer_der hs with
    | Some der => if decide (der = "") then Raise none_presented else Ok der
    | None => Raise none_presented end);
  pure (catch_pure (load_der_cert der) is_value_error (λ _, Raise (acme_error tls "the presented certificate could not be read"))).
Definition san_of_cert (v : ExtValue) : option (list GeneralName) :=
  match v with SubjectAlternativeName l => Some l | _ => None end.
(** [get_values_for_type] of the DNS names, in lower case, and of the
    addresses, as text. *)
Definition presented_names (l : list GeneralName) : list string :=
  omap (λ n, match n with DNSName v => Some (lower v) | _ => None end) l ++
  omap (λ n, match n with IPAddressName i => Some (ip_text i) | IPNetworkName i => Some (str_network i) | _ => None end) l.
Definition assert_names (c : Cert) (a : Attempt) : Outcome unit :=
  san ← catch_pure (p ← extension_of san_of_cert c; mret (presented_names p.1)) is_not_found (λ _, Ok []);
  wanted ← (if decide (at_type a = "ip") then i ← ip_address (at_value a); mret (str_address i) else mret (at_value a));
  raise_if (bool_decide (lower wanted ∉ san)) (acme_error incorrect_response ("the presented certificate does not name " +:+ wanted)).
Definition acme_identifier (v : ExtValue) : option string :=
  match v with OtherExtension oid der => if decide (oid = ACME_IDENTIFIER_OID) then Some der else None | _ => None end.
Definition assert_digest (c : Cert) (a : Attempt) : Outcome unit :=
  '(presented, is_critical) ← catch_pure (extension_of acme_identifier c) is_not_found
    (λ _, Raise (acme_error incorrect_response "the presented certificate carries no acmeIdentifier extension"));
  _ ← raise_if (negb is_critical) (acme_error incorrect_response "the acmeIdentifier extension of the presented certificate is not critical");
  raise_if (negb (bool_decide (presented = OCTET_STRING_HEADER +:+ digest (key_authorization a))))
    (acme_error incorrect_response "the acmeIdentifier extension of the presented certificate does not match the key authorization").
Definition tlsalpn01_validate (a : Attempt) : Net unit :=
  d ← new_deadline VALIDATION_TIMEOUT;
  c ← presented_certificate a d;
  _ ← pure (assert_names c a);
  pure (assert_digest c a).
End tlsalpn01.

(** ** Where an attempt goes *)
Section contacts.
Context {W : World} {X : X509Lib} {DC : DerCerts} {J : Jose}.

(** What an attempt may do: connect to allowed addresses and ports, ask the
    resolvers it was given, never begin anything after its time. *)
Definition permitted_event (a : Attempt) (ev : Event) : Prop :=
  match ev with
  | EGet r _ => connectable (allow_private a) (address (req_endpoint r)) ∧ ep_port (req_endpoint r) ∈ ALLOWED_PORTS ∧ 0 < req_timeout r
  | EConnect e time _ => connectable (allow_private a) (address e) ∧ ep_port e = TLS_ALPN_PORT ∧ 0 < time
  | EHandshake _ time _ => 0 < time
  | ETxt _ servers time _ => servers = resolvers a ∧ 0 < time
  | EClock _ | ELookup _ _ | EBody _ => True
  end.
Definition is_contact (ev : Event) : bool := match ev with EGet _ _ | EConnect _ _ _ | ETxt _ _ _ _ => true | _ => false end.

Section one.
Context (a : Attempt).
Abbreviation ok := (only (permitted_event a)).
Lemma only_clock : ok monotonic (λ _, True).
Proof. by apply only_ask. Qed.
Lemma only_check d what kind : ok (check_deadline d what kind) (λ time, 0 < time).
Proof.
  unfold check_deadline, remaining. eapply only_bind; [eapply only_bind; [apply only_clock|intros t _; by apply (only_ret _ _ (λ _, True))]|].
  intros t _. eapply only_bind; [apply only_raise_if|]. intros _ Ht%Z.leb_gt. by apply only_ret.
Qed.
Lemma only_deadline n : ok (new_deadline n) (λ _, True).
Proof. eapply only_bind; [apply only_clock|]. intros t _. by apply only_ret. Qed.
Lemma only_resolve name port : ok (resolve name port (allow_private a))
  (λ e, connectable (allow_private a) (address e) ∧ ep_port e = port ∧ host e = name).
Proof.
  intros h Hh. split.
  - unfold resolve. set (rest := λ l : list string, _).
    assert (Hrest : ∀ l h', Forall (permitted_event a) h' → Forall (permitted_event a) (rest l h').2).
    { intros [|x l] h' Hh'; [done|]. subst rest. cbn beta iota. unfold mbind, Net_bind, pure. by destruct (check_addresses _ _ _). }
    clearbody rest. destruct (parsed name); [by apply Hrest|].
    unfold lookup_host, getaddrinfo, ask, pure, mbind, Net_bind. destruct (w_lookup h name); [by apply Hrest; constructor|by constructor].
  - intros e (l & _ & Hhead & Hall & He & Hp)%resolve_exact. split_and!; [|done|done]. rewrite Forall_forall in Hall. apply Hall.
    destruct l; [done|]. injection Hhead as ->. left.
Qed.
Lemma only_endpoint url : ok (endpoint_of url (allow_private a))
  (λ e, connectable (allow_private a) (address e) ∧ ep_port e ∈ ALLOWED_PORTS).
Proof.
  unfold endpoint_of. do 4 (eapply only_bind; [apply only_pure|]; intros ? _).
  eapply only_bind; [apply only_raise_if|]. intros _ Hport%bool_decide_eq_false.
  eapply only_mono; [|apply only_resolve]. intros e (H1 & -> & _). split; [done|]. by apply dec_stable.
Qed.
Lemma only_read fuel url e d n chunks : ok (read_capped fuel url e d n chunks) (λ _, True).
Proof.
  revert n chunks. induction fuel as [|fuel IH]; intros n chunks; cbn [read_capped]; [by apply only_throw|].
  eapply only_bind; [by apply (only_ask (permitted_event a) w_body EBody)|]. intros [c s| | | |x] _; try by auto using only_throw, only_ret.
  eapply only_bind; [apply only_check|]. intros t _. eapply only_bind; [apply only_raise_if|]. intros _ _. apply IH.
Qed.
Lemma only_request url d : ok (one_request url (allow_private a) d) (λ _, True).
Proof.
  unfold one_request. eapply only_bind; [apply only_endpoint|]. intros e [He Hp]. eapply only_bind; [apply only_pure|]. intros u _.
  eapply only_bind; [apply only_check|]. intros t Ht.
  eapply only_bind; [by apply only_ask|]. intros [status loc| | |] _; try by apply only_throw.
  eapply only_bind; [apply only_read|]. intros body _. by apply only_ret.
Qed.
Lemma only_fetch hops url d : ok (fetch_loop hops url (allow_private a) d) (λ _, True).
Proof.
  revert url. induction hops as [|hops IH]; intros url; cbn [fetch_loop]; [by apply only_throw|].
  eapply only_bind; [apply only_request|]. intros [[status loc] body] _. case_decide.
  - eapply only_bind with (R := λ _, True); [|intros url' _; apply IH]. unfold redirect_target.
    eapply only_bind; [apply only_raise_if|]. intros _ _. by eapply only_mono; [|apply only_pure].
  - eapply only_bind; [apply only_raise_if|]. intros _ _. by apply only_ret.
Qed.
Lemma only_http01 : ok (http01_validate a) (λ _, True).
Proof.
  eapply only_bind; [apply only_deadline|]. intros d _. eapply only_bind; [apply only_fetch|]. intros body _.
  by eapply only_mono; [|apply only_raise_if].
Qed.
Lemma only_dns01 : ok (dns01_validate a) (λ _, True).
Proof.
  eapply only_bind; [apply only_raise_if|]. intros _ _. eapply only_bind; [apply only_deadline|]. intros d _.
  eapply only_bind with (R := λ _, True); [|intros l _; by eapply only_mono; [|apply only_raise_if]].
  eapply only_bind; [apply only_check|]. intros t Ht. eapply only_bind; [by apply only_ask|].
  intros [l| | | | |x] _; by auto using only_throw, only_ret.
Qed.
Lemma only_socket {A} e d (r : SocketAnswer A) : ok (socket_answer e d r) (λ _, True).
Proof. destruct r; by auto using only_throw, only_ret. Qed.
Lemma only_tlsalpn01 : ok (tlsalpn01_validate a) (λ _, True).
Proof.
  eapply only_bind; [apply only_deadline|]. intros d _. eapply only_bind with (R := λ _, True).
  - unfold presented_certificate. eapply only_bind; [apply only_resolve|]. intros e (He & Hp & _).
    eapply only_bind; [apply only_check|]. intros t Ht. eapply only_bind; [by apply only_ask|]. intros r _.
    eapply only_bind; [apply only_socket|]. intros _ _. eapply only_bind; [apply only_check|]. intros t' Ht'.
    eapply only_bind; [by apply only_ask|]. intros r' _. eapply only_bind; [apply only_socket|]. intros hs _.
    eapply only_bind; [apply only_raise_if|]. intros _ _. eapply only_bind; [apply only_pure|]. intros der _.
    by eapply only_mono; [|apply only_pure].
  - intros c _. eapply only_bind; [apply only_pure|]. intros _ _. by eapply only_mono; [|apply only_pure].
Qed.
End one.

(** How often. *)
Section counted.
#[local] Set Default Proof Using "W no_clock no_lookup".
Context (p : Event → bool) (no_clock : ∀ t, p (EClock t) = false) (no_lookup : ∀ n r, p (ELookup n r) = false).
Lemma few_bind {A B} n (m : Net A) (f : A → Net B) : at_most p 0 m → (∀ a, at_most p n (f a)) → at_most p n (m ≫= f).
Proof using Type. apply at_most_bind. Qed.
Lemma few_check d what kind : at_most p 0 (check_deadline d what kind).
Proof.
  apply few_bind; [apply few_bind; [by apply at_most_ask0|intros t; apply at_most_ret]|]. intros t.
  apply few_bind; [apply at_most_raise_if|intros _; apply at_most_ret].
Qed.
Lemma few_deadline n : at_most p 0 (new_deadline n).
Proof. apply few_bind; [by apply at_most_ask0|intros t; apply at_most_ret]. Qed.
Lemma few_resolve name port ap : at_most p 0 (resolve name port ap).
Proof.
  unfold resolve. apply few_bind.
  - destruct (parsed name); [apply at_most_ret|]. unfold lookup_host, getaddrinfo. apply few_bind; [|intros l; apply at_most_ret].
    apply few_bind; [by apply at_most_ask0|intros l; apply at_most_pure].
  - intros [|x l]; [apply at_most_throw|]. apply few_bind; [apply at_most_pure|intros _; apply at_most_ret].
Qed.
Lemma few_endpoint url ap : at_most p 0 (endpoint_of url ap).
Proof.
  unfold endpoint_of. do 4 (apply few_bind; [apply at_most_pure|]; intros ?).
  apply few_bind; [apply at_most_raise_if|]. intros _. apply few_resolve.
Qed.
Lemma few_socket {A} e d (r : SocketAnswer A) : at_most p 0 (socket_answer e d r).
Proof using Type. destruct r; first [apply at_most_throw|apply at_most_ret]. Qed.
Lemma few_fetch hops k url ap d : (∀ url, at_most p k (one_request url ap d)) → at_most p (hops * k) (fetch_loop hops url ap d).
Proof.
  intros Hreq. revert url. induction hops as [|hops IH]; intros url; cbn [fetch_loop Nat.mul]; [apply at_most_throw|].
  apply at_most_bind; [apply Hreq|]. intros [[status loc] body]. case_decide.
  - apply few_bind; [|intros url'; apply IH]. apply few_bind; [apply at_most_raise_if|intros _; apply at_most_pure].
  - apply (at_most_weaken _ 0); [lia|]. apply few_bind; [apply at_most_raise_if|intros _; apply at_most_ret].
Qed.
End counted.

Lemma contact_clock t : is_contact (EClock t) = false.
Proof. done. Qed.
Lemma read_contacts fuel url e d n chunks : at_most is_contact 0 (read_capped fuel url e d n chunks).
Proof.
  revert n chunks. induction fuel as [|fuel IH]; intros n chunks; cbn [read_capped]; [apply at_most_throw|].
  apply few_bind; [by apply at_most_ask0|]. intros [c s| | | |x]; try by first [apply at_most_throw|apply at_most_ret].
  apply few_bind; [by apply few_check|]. intros t. apply few_bind; [apply at_most_raise_if|]. intros _. apply IH.
Qed.
Lemma request_contacts url ap d : at_most is_contact 1 (one_request url ap d).
Proof.
  unfold one_request. apply few_bind; [by apply few_endpoint|]. intros e. apply few_bind; [apply at_most_pure|]. intros u.
  apply few_bind; [by apply few_check|]. intros t. apply (at_most_bind _ 1 0); [apply at_most_ask1|].
  intros [status loc| | |]; try apply at_most_throw. apply few_bind; [apply read_contacts|intros body; apply at_most_ret].
Qed.
Lemma http01_few p k a : (∀ t, p (EClock t) = false) → (∀ n r, p (ELookup n r) = false) → (∀ url d, at_most p k (one_request url (allow_private a) d)) →
  at_most p (S MAX_REDIRECTS * k) (http01_validate a).
Proof.
  intros Hc Hl Hk. unfold http01_validate. apply few_bind; [by apply few_deadline|]. intros d.
  rewrite <- (Nat.add_0_r (_ * k)). apply at_most_bind; [by apply few_fetch|]. intros body. apply at_most_raise_if.
Qed.
Lemma dns01_few p k a : (∀ t, p (EClock t) = false) → (∀ n r, p (ELookup n r) = false) →
  (∀ name servers t, at_most p k (txt_query name servers t)) → at_most p k (dns01_validate a).
Proof.
  intros Hc Hl Hk. unfold dns01_validate. apply few_bind; [apply at_most_raise_if|]. intros _. apply few_bind; [by apply few_deadline|]. intros d.
  rewrite <- (Nat.add_0_r k). apply at_most_bind; [|intros l; apply at_most_raise_if].
  unfold txt_records. apply few_bind; [by apply few_check|]. intros t. rewrite <- (Nat.add_0_r k). apply at_most_bind; [apply Hk|].
  intros [l| | | | |x]; first [apply at_most_throw|apply at_most_ret].
Qed.
Lemma tlsalpn01_few p k a : (∀ t, p (EClock t) = false) → (∀ n r, p (ELookup n r) = false) → (∀ s t r, p (EHandshake s t r) = false) →
  (∀ e t, at_most p k (tcp_connect e t)) → at_most p k (tlsalpn01_validate a).
Proof.
  intros Hc Hl Hh Hk. unfold tlsalpn01_validate. apply few_bind; [by apply few_deadline|]. intros d. rewrite <- (Nat.add_0_r k). apply at_most_bind.
  2: { intros c. apply few_bind; [apply at_most_pure|intros _; apply at_most_pure]. }
  unfold presented_certificate. apply few_bind; [by apply few_resolve|]. intros e. apply few_bind; [by apply few_check|]. intros t.
  rewrite <- (Nat.add_0_r k). apply at_most_bind; [apply Hk|]. intros r. apply few_bind; [apply few_socket|]. intros _.
  apply few_bind; [by apply few_check|]. intros t'. apply few_bind; [by apply at_most_ask0|]. intros r'.
  apply few_bind; [apply few_socket|]. intros hs. apply few_bind; [apply at_most_raise_if|]. intros _.
  apply few_bind; [apply at_most_pure|]. intros der. apply at_most_pure.
Qed.
End contacts.

(** ** What a success says *)
Lemma code_split c : (code c = 64 * (code c / 64) + code c mod 64 ∧ code c / 64 < 4 ∧ code c mod 64 < 64)%N.
Proof.
  split; [by apply N.div_mod|]. split; [|by apply N.mod_lt]. apply N.Div0.div_lt_upper_bound. apply (code_range c).
Qed.
Lemma utf8_char_inj c d l l' : utf8_char c ++ l = utf8_char d ++ l' → c = d ∧ l = l'.
Proof.
  unfold utf8_char. destruct (code_split c) as (Hc & ? & ?), (code_split d) as (Hd & ? & ?).
  destruct (N.ltb_spec (code c) 128), (N.ltb_spec (code d) 128); cbn [app].
  - by intros [= -> ->].
  - intros [= -> _]. rewrite code_of_char in * by lia. lia.
  - intros [= <- _]. rewrite code_of_char in * by lia. lia.
  - intros [= Ha Hb ->]. split; [|done]. apply (f_equal code) in Ha, Hb. rewrite !code_of_char in Ha, Hb by lia.
    rewrite <- (char_of_code c), <- (char_of_code d). f_equal. lia.
Qed.
Lemma encode_utf8_inj s t : encode_utf8 s = encode_utf8 t → s = t.
Proof.
  unfold encode_utf8. intros H%(inj of_chars). apply (inj chars). revert H. generalize (chars s), (chars t). clear s t.
  assert (Hne : ∀ c l, utf8_char c ++ l ≠ []) by (intros c l; unfold utf8_char; by destruct (_ <? _)%N).
  induction l as [|c l IH]; intros [|d l']; cbn [map concat]; [done|intros H; symmetry in H; by apply Hne in H|intros H; by apply Hne in H|].
  intros [-> H]%utf8_char_inj. f_equal. by apply IH.
Qed.

Section soundness.
Context {W : World} {X : X509Lib} {DC : DerCerts} {J : Jose}.

(** The latest response in a history: its request, status and body so far. *)
Fixpoint last_response (h : History) (later : string) : option (HttpRequest * Z * string) :=
  match h with
  | [] => None
  | EBody (Chunk c s) :: h => last_response h (String c s +:+ later)
  | EGet r (HttpStatus status _) :: _ => Some (r, status, later)
  | _ :: h => last_response h later
  end.
Lemma last_response_later h later r status b : last_response h "" = Some (r, status, b) → last_response h later = Some (r, status, b +:+ later).
Proof.
  assert (Hgen : ∀ later0, last_response h later0 = Some (r, status, b) → last_response h (later0 +:+ later) = Some (r, status, b +:+ later)).
  { induction h as [|ev h IH]; intros l0; [done|]. destruct ev as [t|n x|q [st loc| | |]|[c s| | | |]|n rs t x|e t x|sn t x]; cbn [last_response]; auto.
    - by intros [= -> -> ->].
    - intros H. rewrite <- str_app_assoc. by apply IH. }
  apply Hgen.
Qed.
Lemma check_deadline_history d what kind h r h' : check_deadline d what kind h = (r, h') → h' = EClock (w_monotonic h) :: h.
Proof. unfold check_deadline, remaining, monotonic, ask, raise_if, mbind, Net_bind. cbn. destruct (_ <=? 0); by intros [= _ <-]. Qed.
Lemma net_bind_inv {A B} (m : Net A) (f : A → Net B) h b h' : (m ≫= f) h = (Ok b, h') → ∃ a h1, m h = (Ok a, h1) ∧ f a h1 = (Ok b, h').
Proof. unfold mbind, Net_bind. destruct (m h) as [[a|e] h1]; [|done]. eauto. Qed.
Lemma raise_if_inv (b : bool) (e : Exc) h u h' : (raise_if b e : Net unit) h = (Ok u, h') → b = false ∧ h' = h.
Proof. by destruct b; intros [=]. Qed.
Lemma read_capped_last fuel url e d n chunks h body h' r status : last_response h "" = Some (r, status, chunks) →
  read_capped fuel url e d n chunks h = (Ok body, h') →
  last_response h' "" = Some (r, status, body) ∧ head h' = Some (EBody EndOfBody).
Proof.
  revert n chunks h. induction fuel as [|fuel IH]; intros n chunks h Hlast; [done|]. cbn [read_capped].
  intros (answer & h1 & Ha & H)%net_bind_inv. unfold next_chunk, ask in Ha. injection Ha as <- <-.
  destruct (w_body h) as [c s| | | |x]; try done; [|by injection H as <- <-].
  apply net_bind_inv in H as (t & h2 & Ht%check_deadline_history & H). apply net_bind_inv in H as (u & h3 & [_ ->]%raise_if_inv & H).
  eapply IH; [|exact H]. subst h2. cbn [last_response]. rewrite (last_response_later _ _ _ _ _ Hlast). by rewrite str_app_nil.
Qed.
Lemma one_request_last url ap d h status loc body h' : one_request url ap d h = (Ok (status, loc, body), h') →
  ∃ r, last_response h' "" = Some (r, status, body) ∧ head h' = Some (EBody EndOfBody).
Proof.
  unfold one_request. intros (e & h1 & _ & H)%net_bind_inv. apply net_bind_inv in H as (u & h2 & _ & H).
  apply net_bind_inv in H as (t & h3 & _ & H). apply net_bind_inv in H as (answer & h4 & Ha & H).
  unfold http_get, ask in Ha. set (q := mkHttpRequest _ _ _ _ _) in Ha. injection Ha as Ha <-.
  destruct answer as [st lo| | |]; try done. apply net_bind_inv in H as (b & h5 & Hb & H).
  injection H as <- <- <- <-. exists q. eapply read_capped_last; [|exact Hb]. by rewrite Ha.
Qed.
Lemma fetch_loop_last hops url ap d h body h' : fetch_loop hops url ap d h = (Ok body, h') →
  ∃ r, last_response h' "" = Some (r, 200, body) ∧ head h' = Some (EBody EndOfBody).
Proof.
  revert url h. induction hops as [|hops IH]; intros url h; [done|]. cbn [fetch_loop].
  intros ([[status loc] b] & h1 & Hreq & H)%net_bind_inv. case_decide.
  - apply net_bind_inv in H as (url' & h2 & _ & H). by eapply IH.
  - apply net_bind_inv in H as (u & h2 & [Hs ->]%raise_if_inv & H). injection H as <- <-.
    apply negb_false_iff, Z.eqb_eq in Hs as ->. by eapply one_request_last.
Qed.

(** Http-01 believes only the right answer: when it accepts, the last
    response it got was a complete 200 whose body, but for white space around
    it, is the key authorization. *)
Lemma http01_sound a h h' : http01_validate a h = (Ok (), h') →
  ∃ r body, last_response h' "" = Some (r, 200, body) ∧ head h' = Some (EBody EndOfBody) ∧
    bytes_strip body = encode_utf8 (key_authorization a).
Proof.
  unfold http01_validate. intros (d & h1 & _ & H)%net_bind_inv. apply net_bind_inv in H as (body & h2 & Hf & H).
  apply raise_if_inv in H as [Hb%negb_false_iff%bool_decide_eq_true ->]. apply fetch_loop_last in Hf as (r & Hr & Hh). by exists r, body.
Qed.

(** Dns-01 accepts exactly when, asked in time, the zone has the record:
    one of the TXT strings at the challenge label is the base64url SHA-256 of
    the key authorization; whatever other records there are do not matter. *)
Theorem dns01_exact a h :
  let asked := EClock (w_monotonic h) :: h in
  let left := w_monotonic h + VALIDATION_TIMEOUT * second_ns - w_monotonic asked in
  is_ok (dns01_validate a h).1 = true ↔
  at_type a = "dns" ∧ 0 < left ∧ ∃ records,
    w_txt (EClock (w_monotonic asked) :: asked) (LABEL +:+ "." +:+ at_value a) (resolvers a) left = TxtRecords records ∧
    dns_value (key_authorization a) ∈ map decode_replace records.
Proof.
  cbn zeta. unfold dns01_validate. destruct (decide (at_type a = "dns")) as [Hd|Hd].
  2: { rewrite bool_decide_eq_false_2 by done. split; [done|by intros []]. }
  rewrite bool_decide_eq_true_2 by done. cbn [negb]. unfold new_deadline, monotonic, txt_records, check_deadline, remaining, monotonic, ask.
  unfold mbind, Net_bind, raise_if, mret, Net_ret. cbn [expires budget].
  destruct (Z.leb_spec (w_monotonic h + VALIDATION_TIMEOUT * second_ns - w_monotonic (EClock (w_monotonic h) :: h)) 0) as [Hl|Hl].
  { split; [done|]. intros (_ & ? & _). lia. }
  unfold txt_query, ask. cbn [fst]. set (answer := w_txt _ _ _ _). change (w_txt _ _ _ _) with answer. clearbody answer.
  destruct answer as [records| | | | |x]; try (split; [done|intros (_ & _ & ? & ? & _); done]).
  destruct (existsb _ _) eqn:He; cbn [negb]; (split; [intros Hok|intros (_ & _ & rs & [= <-] & Hin)]); try done.
  - split_and!; [done|lia|]. exists records. split; [done|].
    apply existsb_exists in He as (v & Hv%list_elem_of_In & Heq%bool_decide_eq_true). by apply encode_utf8_inj in Heq as <-.
  - apply not_true_iff_false in He. destruct He. apply existsb_exists. eexists. rewrite <- list_elem_of_In. split; [exact Hin|].
    by apply bool_decide_eq_true.
Qed.

Lemma dns01_sound a h h' : dns01_validate a h = (Ok (), h') → at_type a = "dns" ∧ ∃ time records earlier,
  h' = ETxt (dns01_name a) (resolvers a) time (TxtRecords records) :: earlier ∧ dns_value (key_authorization a) ∈ map decode_replace records.
Proof.
  unfold dns01_validate. intros ([] & h1 & [Hd%negb_false_iff%bool_decide_eq_true _]%raise_if_inv & H)%net_bind_inv. split; [done|].
  apply net_bind_inv in H as (d & h2 & _ & H). apply net_bind_inv in H as (records & h3 & Hr & H).
  apply raise_if_inv in H as [(v & Hv%list_elem_of_In & Heq%bool_decide_eq_true)%negb_false_iff%existsb_exists ->].
  unfold txt_records in Hr. apply net_bind_inv in Hr as (t & h4 & _ & Hr). apply net_bind_inv in Hr as (answer & h5 & Ha & Hr).
  unfold txt_query, ask in Ha. injection Ha as Ha <-. rewrite Ha in Hr. destruct answer as [rs| | | | |x]; try done. injection Hr as <- <-.
  exists t, rs, h4. split; [done|]. by apply encode_utf8_inj in Heq as <-.
Qed.

Lemma pure_inv {A} (m : Outcome A) h x h' : pure m h = (Ok x, h') → m = Ok x ∧ h' = h.
Proof. by unfold pure; intros [= -> <-]. Qed.
Lemma socket_answer_inv {A} e d (r : SocketAnswer A) h x h' : socket_answer e d r h = (Ok x, h') → r = SocketOk x ∧ h' = h.
Proof. destruct r; intros [=]. by subst. Qed.
Definition wanted_name (a : Attempt) (wanted : string) : Prop :=
  if decide (at_type a = "ip") then ∃ i, ip_address (at_value a) = Ok i ∧ wanted = str_address i else wanted = at_value a.
Lemma assert_names_ok c a : assert_names c a = Ok () → ∃ names crit wanted,
  extension_of san_of_cert c = Ok (names, crit) ∧ wanted_name a wanted ∧ lower wanted ∈ presented_names names.
Proof.
  unfold assert_names. intros (san & Hsan & (wanted & Hw & Hin%raise_if_ok%bool_decide_eq_false%dec_stable)%Outcome_bind_ok)%Outcome_bind_ok.
  destruct (extension_of san_of_cert c) as [[names crit]|x] eqn:He.
  - injection Hsan as <-. exists names, crit, wanted. split_and!; [done| |done]. unfold wanted_name. case_decide; [|by injection Hw as <-].
    apply Outcome_bind_ok in Hw as (i & Hi & [= <-]). by exists i.
  - cbn in Hsan. destruct (is_not_found x); [injection Hsan as <-|done]. by apply elem_of_nil in Hin.
Qed.
Lemma assert_digest_ok c a : assert_digest c a = Ok () →
  extension_of acme_identifier c = Ok (OCTET_STRING_HEADER +:+ digest (key_authorization a), true).
Proof.
  unfold assert_digest. intros ([presented is_critical] & He & ([] & Hc%raise_if_ok%negb_false_iff & Hd%raise_if_ok%negb_false_iff%bool_decide_eq_true)%Outcome_bind_ok)%Outcome_bind_ok.
  subst. destruct (extension_of acme_identifier c) as [p|x]; cbn in He; [congruence|]. by destruct (is_not_found x).
Qed.
Lemma check_ports name port ap h e h' : resolve name port ap h = (Ok e, h') → connectable ap (address e) ∧ host e = name ∧ ep_port e = port.
Proof.
  intros He. assert (H : (resolve name port ap h).1 = Ok e) by by rewrite He.
  apply resolve_exact in H as (l & _ & Hhead & Hall & Hn & Hp). split_and!; [|done|done]. rewrite Forall_forall in Hall. apply Hall.
  destruct l; [done|]. injection Hhead as ->. left.
Qed.

(** Tls-alpn-01 believes only the certificate made for the challenge: when
    it accepts, the last thing it saw was a handshake with an allowed address
    of the identifier, port 443, that selected [acme-tls/1]; the certificate
    presented there names the identifier in its SAN, and its acmeIdentifier
    extension is critical and holds exactly the digest of the key
    authorization as an OCTET STRING. *)
Lemma tlsalpn01_sound a h h' : tlsalpn01_validate a h = (Ok (), h') →
  ∃ e left t0 left0 hs der c earlier names crit wanted,
    h' = EHandshake (sni e) left (SocketOk hs) :: EClock t0 :: EConnect e left0 (SocketOk ()) :: earlier ∧
    host e = at_value a ∧ ep_port e = TLS_ALPN_PORT ∧ connectable (allow_private a) (address e) ∧
    selected_alpn hs = Some ACME_TLS_1 ∧ peer_der hs = Some der ∧ load_der_cert der = Ok c ∧
    extension_of san_of_cert c = Ok (names, crit) ∧ wanted_name a wanted ∧ lower wanted ∈ presented_names names ∧
    extension_of acme_identifier c = Ok (OCTET_STRING_HEADER +:+ digest (key_authorization a), true).
Proof.
  unfold tlsalpn01_validate. intros (d & h1 & _ & H)%net_bind_inv. apply net_bind_inv in H as (c & h2 & Hc & H).
  apply net_bind_inv in H as ([] & h3 & [Hn ->]%pure_inv & [Hd ->]%pure_inv).
  apply assert_names_ok in Hn as (names & crit & wanted & Hsan & Hw & Hin). apply assert_digest_ok in Hd.
  unfold presented_certificate in Hc. apply net_bind_inv in Hc as (e & h3 & (He & Hhost & Hport)%check_ports & Hc).
  apply net_bind_inv in Hc as (left0 & h4 & _ & Hc). apply net_bind_inv in Hc as (r & h5 & Hr & Hc).
  apply net_bind_inv in Hc as ([] & h6 & [-> ->]%socket_answer_inv & Hc). unfold tcp_connect, ask in Hr. injection Hr as Hr <-.
  apply net_bind_inv in Hc as (left1 & h7 & Ht%check_deadline_history & Hc). apply net_bind_inv in Hc as (r' & h8 & Hr' & Hc).
  apply net_bind_inv in Hc as (hs & h9 & [-> ->]%socket_answer_inv & Hc). unfold tls_handshake, ask in Hr'. injection Hr' as Hr' <-.
  apply net_bind_inv in Hc as ([] & h10 & [Halpn%negb_false_iff%bool_decide_eq_true ->]%raise_if_inv & Hc).
  apply net_bind_inv in Hc as (der & h11 & [Hder ->]%pure_inv & [Hload ->]%pure_inv).
  rewrite Hr', Hr in *. subst h7.
  exists e, left1, (w_monotonic (EConnect e left0 (SocketOk ()) :: h4)), left0, hs, der, c, h4, names, crit, wanted.
  split_and!; try done.
  - destruct (peer_der hs) as [x|]; [|done]. case_decide; [done|]. congruence.
  - unfold catch_pure in Hload. destruct (load_der_cert der) as [c'|x]; [congruence|]. by destruct (is_value_error x).
Qed.
End soundness.

(** ** The first request *)
Definition plain_char (c : ascii) : bool := is_ascii_digit c || in_range 97 122 c || in_range 45 46 c.
(** A lower-case hostname, or an IPv4 address. *)
Definition plain_host (s : string) : Prop := s ≠ "" ∧ Forall (λ c, plain_char c = true) (chars s).
Lemma plain_code c : plain_char c = true → (45 ≤ code c ≤ 46 ∨ 48 ≤ code c ≤ 57 ∨ 97 ≤ code c ≤ 122)%N.
Proof. unfold plain_char, is_ascii_digit, in_range. rewrite !orb_true_iff, !andb_true_iff, !N.leb_le. lia. Qed.
Lemma plain_not_in c l : Forall (λ c, plain_char c = true) l → plain_char c = false → c ∉ l.
Proof. rewrite Forall_forall. intros Hl Hc Hin. apply Hl in Hin. congruence. Qed.
Lemma partition_no_sep sep l : sep ∉ l → partition_chars sep l = (l, false, []).
Proof.
  induction l as [|c l IH]; [done|]. intros [Hc Hl]%not_elem_of_cons. cbn. rewrite bool_decide_eq_false_2 by done. by rewrite IH.
Qed.
Lemma split_netloc_plain l rest : Forall (λ c, plain_char c = true) l → split_netloc (l ++ "/"%char :: rest) = (l, "/"%char :: rest).
Proof.
  induction 1 as [|c l Hc Hl IH]; [done|]. cbn [app split_netloc]. apply plain_code in Hc. unfold is_netloc_end.
  rewrite (proj2 (N.eqb_neq (code c) 47)) by lia. rewrite (proj2 (N.eqb_neq (code c) 63)) by lia. rewrite (proj2 (N.eqb_neq (code c) 35)) by lia.
  cbn [orb]. by rewrite IH.
Qed.
Lemma clean_plain l rest : Forall (λ c, plain_char c = true) l →
  List.filter (λ c, negb (is_unsafe_byte c)) (l ++ "/"%char :: rest) = l ++ "/"%char :: List.filter (λ c, negb (is_unsafe_byte c)) rest.
Proof.
  induction 1 as [|c l Hc Hl IH]; [done|]. cbn [app List.filter]. apply plain_code in Hc. unfold is_unsafe_byte at 1.
  rewrite (proj2 (N.eqb_neq (code c) 9)) by lia. rewrite (proj2 (N.eqb_neq (code c) 10)) by lia. rewrite (proj2 (N.eqb_neq (code c) 13)) by lia.
  cbn [orb negb]. by rewrite IH.
Qed.
Lemma lower_plain s : Forall (λ c, plain_char c = true) (chars s) → lower s = s.
Proof.
  intros H. unfold lower. rewrite <- (of_chars_chars s) at 2. f_equal. induction H as [|c l Hc Hl IH]; [done|]. cbn [map]. f_equal; [|done].
  apply plain_code in Hc. unfold lower_char, is_upper, in_range. destruct (_ || _) eqn:E; [exfalso|done].
  rewrite orb_true_iff, !andb_true_iff, !N.leb_le in E. lia.
Qed.
Lemma clean_http l : clean_url (chars "http://" ++ l) = chars "http://" ++ List.filter (λ c, negb (is_unsafe_byte c)) l.
Proof. reflexivity. Qed.
Lemma scheme_http l : split_scheme (chars "http://" ++ l) = (chars "http", "/"%char :: "/"%char :: l).
Proof. reflexivity. Qed.
Lemma has_char_false c l : c ∉ l → has_char c l = false.
Proof. intros H. apply not_true_is_false. intros (d & Hd & ->%bool_decide_eq_true)%existsb_exists. by apply H, list_elem_of_In. Qed.
Lemma urlsplit_plain s rest : plain_host s → ∃ p q f, urlsplit ("http://" +:+ s +:+ "/" +:+ rest) = Ok (mkSplit "http" s p q f).
Proof.
  intros [Hne Hs]. unfold urlsplit. rewrite !chars_app. change (chars "/" ++ chars rest) with ("/"%char :: chars rest).
  rewrite clean_http, clean_plain, scheme_http, split_netloc_plain by done. unfold check_netloc.
  rewrite !has_char_false by (apply plain_not_in; done). cbn [xorb andb raise_if mbind Outcome_bind mret Outcome_ret].
  set (l := "/"%char :: _). destruct (partition_chars "#" l) as [[before b] frag]. destruct (partition_chars "?" before) as [[p b'] q].
  rewrite !of_chars_chars. by exists (of_chars p), (of_chars q), (of_chars frag).
Qed.
Lemma plain_hostname s p q f : plain_host s → url_hostname (mkSplit "http" s p q f) = Some s ∧ url_port (mkSplit "http" s p q f) = Ok None.
Proof.
  intros [Hne Hs]. unfold url_hostname, url_port, hostinfo. cbn [netloc].
  assert (Hat : after_last "@" (chars s) = chars s) by (unfold after_last; rewrite split_no_sep; [done|by apply plain_not_in]).
  rewrite Hat, !partition_no_sep by by apply plain_not_in. cbn [fst snd nonempty]. split; [|done].
  apply chars_nonnil in Hne. destruct (chars s) as [|c l] eqn:E; [done|]. rewrite <- E in *. rewrite partition_no_sep by by apply plain_not_in.
  rewrite of_chars_chars, lower_plain by done.
  change (Some (s +:+ "" +:+ "") = Some s). by rewrite str_app_nil.
Qed.
Lemma endpoint_of_plain `{World} s rest ap h : plain_host s → endpoint_of ("http://" +:+ s +:+ "/" +:+ rest) ap h = resolve s 80 ap h.
Proof.
  intros Hs. destruct (urlsplit_plain s rest Hs) as (p & q & f & Hu). destruct (plain_hostname s p q f Hs) as [Hh Hp].
  unfold endpoint_of. rewrite Hu. unfold pure, mbind, Net_bind. cbn [scheme]. rewrite Hh, Hp. destruct Hs as [Hne _].
  change (DEFAULT_PORTS "http") with (Some 80). cbn [of_option]. by rewrite decide_False by done.
Qed.

Section first_request.
Context {W : World}.
Lemma grows_check d what kind : grows (check_deadline d what kind).
Proof. unfold check_deadline, remaining, monotonic. net_grows. Qed.
Lemma grows_resolve name port ap : grows (resolve name port ap).
Proof. unfold resolve, lookup_host, getaddrinfo. net_grows. Qed.
Lemma grows_read fuel url e d n chunks : grows (read_capped fuel url e d n chunks).
Proof.
  revert n chunks. induction fuel as [|fuel IH]; intros n chunks; cbn [read_capped]; [apply grows_throw|].
  unfold next_chunk. net_grows.
Qed.
#[local] Hint Resolve grows_check grows_resolve grows_read : net.
Lemma grows_request url ap d : grows (one_request url ap d).
Proof.
  unfold one_request, endpoint_of, http_get. net_grows.
Qed.
#[local] Hint Resolve grows_request : net.
Lemma grows_fetch hops url ap d : grows (fetch_loop hops url ap d).
Proof.
  revert url. induction hops as [|hops IH]; intros url; cbn [fetch_loop]; [apply grows_throw|].
  unfold redirect_target. net_grows.
Qed.
(** The requests of a history, the latest first. *)
Definition requests (h : History) : list HttpRequest := omap (λ ev, match ev with EGet r _ => Some r | _ => None end) h.
Lemma last_request_grows h h' r : h `suffix_of` h' → last (requests h) = Some r → last (requests h') = Some r.
Proof. intros [l ->] Hr. unfold requests in *. rewrite omap_app, last_app. by rewrite Hr. Qed.

Lemma resolve_requests name port ap h : requests (resolve name port ap h).2 = requests h.
Proof.
  unfold resolve. set (rest := λ l : list string, _).
  assert (Hrest : ∀ l h', requests (rest l h').2 = requests h').
  { intros [|x l] h'; [done|]. subst rest. cbn beta iota. unfold mbind, Net_bind, pure. by destruct (check_addresses _ _ _). }
  clearbody rest. destruct (parsed name); [apply Hrest|].
  unfold lookup_host, getaddrinfo, ask, pure, mbind, Net_bind. destruct (w_lookup h name); [etransitivity; [apply Hrest|done]|done].
Qed.
Lemma grows_last {A} (m : Net A) h r : grows m → last (requests h) = Some r → last (requests (m h).2) = Some r.
Proof. intros Hm. apply last_request_grows, Hm. Qed.
(** A request either fails before it is made, or is the first of its kind. *)
Lemma one_request_first s rest ap d h : plain_host s → requests h = [] →
  ∀ res, one_request ("http://" +:+ s +:+ "/" +:+ rest) ap d h = res →
  (requests res.2 = [] ∧ is_ok res.1 = false) ∨ ∃ q, last (requests res.2) = Some q ∧ host (req_endpoint q) = s ∧ ep_port (req_endpoint q) = 80 ∧
    req_host q = host_header (req_endpoint q).
Proof.
  intros Hs Hh res Hres. destruct (urlsplit_plain s rest Hs) as (p & q & f & Hu). unfold one_request in Hres. set (url := "http://" +:+ _) in *.
  unfold mbind at 1, Net_bind at 1 in Hres. unfold url at 1 in Hres. rewrite endpoint_of_plain in Hres by done. fold url in Hres.
  pose proof (resolve_requests s 80 ap h) as Hreq. destruct (resolve s 80 ap h) as [[e|x] h1] eqn:He; cbn [snd] in Hreq; rewrite Hh in Hreq;
    [|left; by subst res].
  apply check_ports in He as (_ & Hhost & Hport). rewrite Hu in Hres. unfold mbind at 1, Net_bind at 1, pure at 1 in Hres.
  unfold mbind at 1, Net_bind at 1 in Hres. destruct (check_deadline d url connection h1) as [[t|x] h2] eqn:Hd;
    pose proof (check_deadline_history _ _ _ _ _ _ Hd) as ->; [|left; by subst res].
  right. unfold mbind at 1, Net_bind at 1, http_get at 1, ask in Hres. set (r0 := mkHttpRequest _ _ _ _ _) in Hres. set (h3 := EGet r0 _ :: _) in Hres.
  exists r0. split; [|done]. assert (H3 : last (requests h3) = Some r0) by (change (last (r0 :: requests h1) = Some r0); by rewrite Hreq).
  destruct (w_get _ r0) as [status loc| | |]; try by subst res.
  unfold mbind at 1, Net_bind at 1 in Hres. pose proof (grows_last _ h3 r0 (grows_read CHUNK_FUEL url e d 0 "") H3) as H4.
  destruct (read_capped CHUNK_FUEL url e d 0 "" h3) as [[b|x] h4]; by subst res.
Qed.

Lemma fetch_first n s rest ap d h r : plain_host s → requests h = [] →
  last (requests (fetch_loop (S n) ("http://" +:+ s +:+ "/" +:+ rest) ap d h).2) = Some r →
  host (req_endpoint r) = s ∧ ep_port (req_endpoint r) = 80 ∧ req_host r = host_header (req_endpoint r).
Proof.
  intros Hs Hh. cbn [fetch_loop]. set (url := "http://" +:+ _). unfold mbind at 1, Net_bind at 1.
  destruct (one_request url ap d h) as [[[[status loc] b]|x] h1] eqn:E;
    destruct (one_request_first s rest ap d h Hs Hh _ E) as [[Hnone Hok]|(q & Hq & Hrest)]; try done; cbn [fst snd] in *.
  - set (k := if decide _ then _ else _). assert (Hk : grows k).
    { subst k. unfold redirect_target. case_decide; net_grows. apply grows_fetch. }
    intros Hr. pose proof (grows_last k h1 q Hk Hq). replace r with q by congruence. done.
  - rewrite Hnone. done.
  - intros Hr. replace r with q by congruence. done.
Qed.

(** Http-01 begins at the identifier.  The first request of an attempt for
    a hostname or an IPv4 address is for that identifier, on port 80, and
    names it as its [Host]. *)
Theorem http01_begins_at_identifier a r : plain_host (at_value a) → last (requests (run_net (http01_validate a)).2) = Some r →
  host (req_endpoint r) = at_value a ∧ ep_port (req_endpoint r) = 80 ∧ req_host r = at_value a.
Proof.
  intros Hp. assert (Hcolon : contains ":" (at_value a) = false).
  { destruct Hp as [_ Hp]. apply has_char_false. by apply plain_not_in. }
  assert (Hurl : http01_url a = "http://" +:+ at_value a +:+ "/" +:+ (".well-known/acme-challenge/" +:+ at_token a)).
  { unfold http01_url, host_in_url. by rewrite Hcolon, decide_False by naive_solver. }
  set (h := [EClock (w_monotonic [])]). set (d := mkDeadline VALIDATION_TIMEOUT (w_monotonic [] + VALIDATION_TIMEOUT * second_ns)).
  assert (Hrun : (run_net (http01_validate a)).2 = (fetch (http01_url a) (allow_private a) d h).2).
  { unfold run_net, http01_validate, new_deadline, monotonic, ask. unfold mbind, Net_bind, mret, Net_ret.
    change (mkDeadline _ _) with d. change [EClock _] with h. destruct (fetch _ _ d h) as [[b|x] h1]; [|done].
    by destruct (bool_decide (bytes_strip b = _)). }
  rewrite Hrun, Hurl. intros Hr. unfold fetch in Hr. destruct (fetch_first _ _ _ _ _ h _ Hp eq_refl Hr) as (Hhost & Hport & Hreq).
  split_and!; [done|done|]. rewrite Hreq. unfold host_header. by rewrite Hhost, Hcolon.
Qed.
End first_request.

(** ** What an attempt reads *)
Section reading.
Context {W : World} {X : X509Lib} {DC : DerCerts} {J : Jose}.
(** What came of the latest response so far: bytes and chunks. *)
Fixpoint body_read (h : History) : Z :=
  match h with
  | [] | EGet _ _ :: _ => 0
  | EBody (Chunk c s) :: h => py_len (String c s) + body_read h
  | _ :: h => body_read h
  end.
Fixpoint chunks_read (h : History) : nat :=
  match h with
  | [] | EGet _ _ :: _ => 0
  | EBody (Chunk _ _) :: h => S (chunks_read h)
  | _ :: h => chunks_read h
  end.
(** Whenever more of a body was read, no more than the cap had come of it. *)
Fixpoint capped (h : History) : Prop :=
  match h with
  | [] => True
  | EBody _ :: h => body_read h ≤ MAX_RESPONSE_BYTES ∧ capped h
  | _ :: h => capped h
  end.
Lemma chunk_len c s : 1 ≤ py_len (String c s).
Proof. unfold py_len. change (chars (String c s)) with (c :: chars s). cbn [length]. lia. Qed.
Lemma chunks_have_bytes h : Z.of_nat (chunks_read h) ≤ body_read h.
Proof.
  induction h as [|ev h IH]; [done|].
  destruct ev as [| | |[c s| | | |]| | |]; cbn [chunks_read body_read]; try lia. pose proof (chunk_len c s). lia.
Qed.
Lemma capped_chunks h : capped h → Z.of_nat (chunks_read h) ≤ MAX_RESPONSE_BYTES + 1.
Proof.
  induction h as [|ev h IH]; [done|].
  destruct ev as [| | |[c s| | | |]| | |]; cbn [chunks_read capped]; intros H; try (by apply IH); try (by apply IH, H); [done|].
  destruct H as [H _]. pose proof (chunks_have_bytes h). lia.
Qed.
Lemma capped_suffix earlier h : earlier `suffix_of` h → capped h → capped earlier.
Proof.
  intros [l ->]. induction l as [|ev l IH]; [done|]. intros H. apply IH. destruct ev; cbn [app capped] in H; tauto.
Qed.

(** The check of the loop is what keeps the cap, whatever the fuel. *)
Lemma read_capped_capped fuel url e d n chunks h : body_read h = n → n ≤ MAX_RESPONSE_BYTES → capped h →
  capped (read_capped fuel url e d n chunks h).2.
Proof.
  revert n chunks h. induction fuel as [|fuel IH]; intros n chunks h Hn Hle Hh; [done|]. cbn [read_capped].
  unfold next_chunk, ask. unfold mbind at 1, Net_bind at 1. destruct (w_body h) as [c s| | | |x]; cbn beta iota; try by (split; [lia|]).
  unfold mbind at 1, Net_bind at 1. destruct (check_deadline _ _ _ _) as [[t|x] h'] eqn:Hd; apply check_deadline_history in Hd as ->;
    [|by split; [lia|]].
  unfold mbind at 1, Net_bind at 1. destruct (Z.ltb_spec MAX_RESPONSE_BYTES (n + py_len (String c s))) as [Hlt|Hlt]; cbn [raise_if];
    [by split; [lia|]|]. apply IH; [|lia|by split; [lia|]]. cbn [body_read]. lia.
Qed.
(** And it is what ends the loop: the fuel is never what runs out. *)
Lemma read_capped_fuel fuel more url e d n chunks h : n ≤ MAX_RESPONSE_BYTES → MAX_RESPONSE_BYTES + 1 - n ≤ Z.of_nat fuel →
  read_capped (fuel + more) url e d n chunks h = read_capped fuel url e d n chunks h.
Proof.
  revert n chunks h. induction fuel as [|fuel IH]; intros n chunks h Hle Hf; [lia|]. cbn [read_capped Nat.add].
  unfold mbind at 1 4, Net_bind at 1 4. destruct (next_chunk h) as [[[c s| | | |x]|x] h1]; try done.
  unfold mbind at 1 3, Net_bind at 1 3. destruct (check_deadline _ _ _ _) as [[t|x] h2]; [|done].
  unfold mbind, Net_bind. destruct (Z.ltb_spec MAX_RESPONSE_BYTES (n + py_len (String c s))) as [Hlt|Hlt]; cbn [raise_if]; [done|].
  cbn. apply IH; [lia|]. pose proof (chunk_len c s). lia.
Qed.
Lemma chunk_fuel more url e d h : read_capped (CHUNK_FUEL + more) url e d 0 "" h = read_capped CHUNK_FUEL url e d 0 "" h.
Proof. apply read_capped_fuel; unfold CHUNK_FUEL; [|rewrite Z2Nat.id]; unfold MAX_RESPONSE_BYTES; lia. Qed.

#[local] Hint Resolve grows_check grows_resolve grows_read grows_request : net.
Lemma capped_resolve name port ap : maintains capped (resolve name port ap).
Proof. unfold resolve, lookup_host, getaddrinfo. net_maintains. Qed.
Lemma capped_check d what kind : maintains capped (check_deadline d what kind).
Proof. unfold check_deadline, remaining, monotonic. net_maintains. Qed.
#[local] Hint Resolve capped_resolve capped_check : net.
Lemma capped_socket {A} e d (r : SocketAnswer A) : maintains capped (socket_answer e d r).
Proof. destruct r; net_maintains. Qed.
#[local] Hint Resolve capped_socket : net.
Lemma capped_answer fuel q url e d : maintains capped (
  answer ← http_get q;
  match answer with
  | HttpTimeout => mthrow (fetch_timed_out url e d)
  | HttpFailed cls => mthrow (fetch_failed url e cls)
  | HttpRaised x => mthrow x
  | HttpStatus status location => body ← read_capped fuel url e d 0 ""; mret (status, location, body)
  end).
Proof.
  intros h Hh. unfold http_get, ask, mbind, Net_bind. cbn beta. destruct (w_get h q) as [status loc| | |]; try done.
  assert (H : capped (read_capped fuel url e d 0 "" (EGet q (HttpStatus status loc) :: h)).2) by by apply read_capped_capped.
  by destruct (read_capped _ _ _ _ _ _ _) as [[b|x] h'].
Qed.
#[local] Hint Resolve capped_answer : net.
Lemma capped_request url ap d : maintains capped (one_request url ap d).
Proof. unfold one_request, endpoint_of. generalize CHUNK_FUEL as fuel. intros fuel. net_maintains. Qed.
#[local] Hint Resolve capped_request : net.
Lemma capped_fetch hops url ap d : maintains capped (fetch_loop hops url ap d).
Proof. revert url. induction hops as [|hops IH]; intros url; cbn [fetch_loop]; [net_maintains|]. unfold redirect_target. net_maintains. Qed.
#[local] Hint Resolve capped_fetch : net.
Lemma capped_http01 a : maintains capped (http01_validate a).
Proof. unfold http01_validate, fetch, new_deadline, monotonic. net_maintains. Qed.
Lemma capped_dns01 a : maintains capped (dns01_validate a).
Proof. unfold dns01_validate, txt_records, txt_query, new_deadline, monotonic. net_maintains. Qed.
Lemma capped_tlsalpn01 a : maintains capped (tlsalpn01_validate a).
Proof. unfold tlsalpn01_validate, presented_certificate, tcp_connect, tls_handshake, new_deadline, monotonic. net_maintains. Qed.

(** A response that sends the attempt on. *)
Definition is_redirect (ev : Event) : bool :=
  match ev with EGet _ (HttpStatus status _) => bool_decide (status ∈ REDIRECTS) | _ => false end.
Lemma times_suffix p h h' : h `suffix_of` h' → (times p h ≤ times p h')%nat.
Proof. intros [l ->]. unfold times. rewrite List.filter_app, length_app. lia. Qed.
Lemma redirected url ap d h status loc body h' : one_request url ap d h = (Ok (status, loc, body), h') → status ∈ REDIRECTS →
  (S (times is_redirect h) ≤ times is_redirect h')%nat.
Proof.
  unfold one_request. intros (e & h1 & He & H)%net_bind_inv Hs. apply net_bind_inv in H as (u & h2 & [= _ <-] & H).
  apply net_bind_inv in H as (t & h3 & Hd & H). apply net_bind_inv in H as (answer & h4 & Ha & H).
  unfold http_get, ask in Ha. set (q := mkHttpRequest _ _ _ _ _) in Ha. injection Ha as Ha <-.
  destruct answer as [st lo| | |]; try done. apply net_bind_inv in H as (b & h5 & Hb & [= -> -> -> ->]).
  assert (Hg : grows (endpoint_of url ap)) by (unfold endpoint_of; net_grows).
  pose proof (times_suffix is_redirect _ _ (Hg h)) as H1. rewrite He in H1.
  pose proof (times_suffix is_redirect _ _ (grows_check d url connection h1)) as H2. rewrite Hd in H2.
  pose proof (times_suffix is_redirect _ _ (grows_read CHUNK_FUEL url e d 0 "" (EGet q (w_get h3 q) :: h3))) as H3. rewrite Hb, Ha in H3.
  unfold times in H3 at 1. cbn [snd List.filter is_redirect] in *. rewrite bool_decide_eq_true_2 in H3 by done. cbn [length] in H3.
  unfold times in *. lia.
Qed.
(** But for one, every connection made follows a redirect. *)
Definition paid (h h' : History) : Prop :=
  (times is_contact h' + times is_redirect h ≤ times is_contact h + times is_redirect h' + 1)%nat.
Lemma fetch_pays hops url ap d h : paid h (fetch_loop hops url ap d h).2.
Proof.
  revert url h. induction hops as [|hops IH]; intros url h; cbn [fetch_loop]; [change (paid h h); unfold paid; lia|].
  pose proof (request_contacts url ap d h) as Hc. pose proof (times_suffix is_redirect _ _ (grows_request url ap d h)) as Hr. revert Hc Hr.
  unfold mbind at 1, Net_bind at 1. destruct (one_request url ap d h) as [[[[status loc] body]|x] h1] eqn:E; cbn [snd]; intros Hc Hr;
    assert (Hone : paid h h1) by (unfold paid; lia); [|done].
  case_decide as Hs.
  - pose proof (redirected _ _ _ _ _ _ _ _ E Hs) as Hmore. unfold mbind, Net_bind, redirect_target, raise_if.
    destruct (bool_decide (loc = "")); [done|]. unfold pure, mret, Net_ret, mbind, Net_bind.
    destruct (url_join url loc) as [url'|x]; [|done]. specialize (IH url' h1). unfold paid in *. lia.
  - unfold mbind, Net_bind, raise_if. by destruct (negb (status =? 200)).
Qed.

Lemma http01_pays a : paid [] (http01_validate a []).2.
Proof.
  unfold http01_validate, new_deadline, monotonic, ask, fetch. unfold mbind, Net_bind, mret, Net_ret. set (d := mkDeadline _ _).
  assert (H : paid [] (fetch_loop (S MAX_REDIRECTS) (http01_url a) (allow_private a) d [EClock (w_monotonic [])]).2)
    by exact (fetch_pays _ _ _ d [EClock (w_monotonic [])]).
  destruct (fetch_loop _ _ _ _ _) as [[body|x] h]; [|done]. unfold raise_if. by destruct (negb _).
Qed.

(** C10: an attempt cannot be aimed.  Whatever names resolve to and whatever
    servers answer, every connection of an attempt goes to an address the
    policy allows, HTTP ones to port 80 or 443, TLS ones to port 443, DNS
    questions to the configured resolvers, each begun with time left; there
    are at most six connections, a DNS question counted as one, and at most
    one more than there were responses that redirect; and once more than 65536 bytes of a response
    have come no more of it is read, so that at most 65537 chunks are, of
    each response. *)
Theorem attempts_contained a validate : validate ∈ [http01_validate; dns01_validate; tlsalpn01_validate] →
  let h := (run_net (validate a)).2 in
  Forall (permitted_event a) h ∧
  (times is_contact h ≤ 6)%nat ∧ (times is_contact h ≤ 1 + times is_redirect h)%nat ∧
  capped h ∧ ∀ earlier, earlier `suffix_of` h → Z.of_nat (chunks_read earlier) ≤ MAX_RESPONSE_BYTES + 1.
Proof.
  intros Hv. cbn zeta. assert (Hstart : Forall (permitted_event a) []) by constructor.
  enough (H : Forall (permitted_event a) (run_net (validate a)).2 ∧ (times is_contact (run_net (validate a)).2 ≤ 6)%nat ∧
    (times is_contact (run_net (validate a)).2 ≤ 1 + times is_redirect (run_net (validate a)).2)%nat ∧ capped (run_net (validate a)).2).
  { destruct H as (H1 & H2 & H3 & H4). split_and!; try done. intros earlier He. by eapply capped_chunks, capped_suffix. }
  unfold run_net. repeat (apply elem_of_cons in Hv as [->|Hv]); [..|by apply elem_of_nil in Hv].
  - split_and!; [by apply only_http01| | |by apply capped_http01].
    + exact (http01_few is_contact 1 a (λ _, eq_refl) (λ _ _, eq_refl) (λ url d, request_contacts url _ d) []).
    + pose proof (http01_pays a) as H. unfold paid in H. change (times is_contact []) with 0%nat in H. lia.
  - pose proof (dns01_few is_contact 1 a (λ _, eq_refl) (λ _ _, eq_refl) (λ _ _ _, at_most_ask1 _ _ _) []) as H. change (times _ []) with 0%nat in H.
    split_and!; [by apply only_dns01|lia|lia|by apply capped_dns01].
  - pose proof (tlsalpn01_few is_contact 1 a (λ _, eq_refl) (λ _ _, eq_refl) (λ _ _ _, eq_refl) (λ _ _, at_most_ask1 _ _ _) []) as H.
    change (times _ []) with 0%nat in H. split_and!; [by apply only_tlsalpn01|lia|lia|by apply capped_tlsalpn01].
Qed.
End reading.

(** ** A small internet *)
Module ValidatorExamples.
#[local] Existing Instance Toy.lib.
#[local] Existing Instance JwsExamples.toy_jose.
Import Toy.
Definition attempt (kind name : string) : Attempt := mkAttempt kind name "token-1" "token-1.thumb" true ["10.0.0.53"].
(** nas.lan answers for itself, over every method; old.lan redirects to it;
    evil.lan redirects to this machine; loop.lan to itself. *)
Definition acme_cert : SignedCert := mkSigned (mkTBS [] [] no_key 1 0 0
  (Ok [mkExtension (SubjectAlternativeName [DNSName "NAS.lan"]) false;
       mkExtension (OtherExtension ACME_IDENTIFIER_OID (OCTET_STRING_HEADER +:+ "token-1.thumb")) true])) no_key.
#[local] Instance toy_certs : DerCerts := {| load_der_cert := λ s, if decide (s = "the certificate") then Ok acme_cert else Raise (ValueError "malformed") |}.
Definition redirect_of (name : string) : option string :=
  if decide (name = "old.lan") then Some "http://nas.lan/moved"
  else if decide (name = "evil.lan") then Some "http://localhost/"
  else if decide (name = "loop.lan") then Some "http://loop.lan/" else None.
#[local] Instance toy_world : World := {|
  w_monotonic := λ h, Z.of_nat (length h) * 1000000;
  w_lookup := λ _ name, Ok (if decide (name = "localhost") then Some ["127.0.0.1"] else Some ["192.168.1.20"; "192.168.1.20"]);
  w_get := λ _ r, match redirect_of (req_host r) with Some u => HttpStatus 302 u | None => HttpStatus 200 "" end;
  w_body := λ h, match h with EClock _ :: _ => EndOfBody | _ => Chunk "t" ("oken-1.thumb" +:+ String (char_of 10) EmptyString) end;
  w_txt := λ _ _ _ _, TxtRecords ["something else"; b64encode "token-1.thumb"];
  w_connect := λ _ _ _, SocketOk ();
  w_handshake := λ _ _ _, SocketOk (mkHandshake (Some ACME_TLS_1) (Some "the certificate"));
  url_join := λ _ location, Ok location |}.
Definition verdict_of (m : Net unit) : option Exc := raised (run_net m).1.
Example honest_server : map verdict_of [http01_validate (attempt "dns" "nas.lan"); dns01_validate (attempt "dns" "nas.lan");
  tlsalpn01_validate (attempt "dns" "nas.lan"); http01_validate (attempt "dns" "old.lan")] = replicate 4 None.
Proof. vm_compute. reflexivity. Qed.
Example redirected_to_this_machine : verdict_of (http01_validate (attempt "dns" "evil.lan")) =
  Some (acme_error connection "refusing to validate 'localhost': it resolves to the loopback address 127.0.0.1").
Proof. vm_compute. reflexivity. Qed.
Example redirected_forever : verdict_of (http01_validate (attempt "dns" "loop.lan")) =
  Some (acme_error incorrect_response "validating http://loop.lan/ took more than 5 redirects") ∧
  length (requests (run_net (http01_validate (attempt "dns" "loop.lan"))).2) = 6%nat.
Proof. vm_compute. done. Qed.
Example no_zone_for_an_address : verdict_of (dns01_validate (attempt "ip" "192.168.1.20")) =
  Some (acme_error malformed "dns-01 cannot prove control of a ip identifier").
Proof. vm_compute. reflexivity. Qed.
Example certificate_of_another : verdict_of (tlsalpn01_validate (attempt "dns" "www.lan")) =
  Some (acme_error incorrect_response "the presented certificate does not name www.lan").
Proof. vm_compute. reflexivity. Qed.

Definition nas : Attempt := attempt "dns" "nas.lan".
Lemma accepts (m : Net unit) : raised (run_net m).1 = None → m [] = (Ok (), (run_net m).2).
Proof. unfold run_net. by destruct (m []) as [[[]|e] h]. Qed.
Lemma attempts_contained_witness : http01_validate nas ∈ [http01_validate nas] ∧
  (times is_contact (run_net (http01_validate (attempt "dns" "old.lan"))).2 ≤ 6)%nat.
Proof.
  split; [left|]. assert (Hv : http01_validate ∈ [http01_validate; dns01_validate; tlsalpn01_validate]) by left.
  exact (proj1 (proj2 (attempts_contained (W:=toy_world) (X:=lib) (DC:=toy_certs) (J:=JwsExamples.toy_jose) (attempt "dns" "old.lan") http01_validate Hv))).
Defined.
Lemma http01_accepts : raised (run_net (http01_validate nas)).1 = None.
Proof. vm_compute. reflexivity. Qed.
Lemma tls_accepts : raised (run_net (tlsalpn01_validate nas)).1 = None.
Proof. vm_compute. reflexivity. Qed.
Definition first_request : option HttpRequest := last (requests (run_net (http01_validate nas)).2).
Definition some_request : HttpRequest := mkHttpRequest (mkEndpoint "" "" 0) "" "" None 0.
Lemma first_request_made : last (requests (run_net (http01_validate nas)).2) = Some (default some_request first_request).
Proof. vm_compute. reflexivity. Qed.
Lemma http01_begins_at_identifier_witness : plain_host "nas.lan" ∧ host (req_endpoint (default some_request first_request)) = "nas.lan".
Proof.
  assert (Hp : plain_host "nas.lan") by (split; [discriminate|by_decide]).
  split; [exact Hp|]. exact (proj1 (http01_begins_at_identifier (W:=toy_world) nas _ Hp first_request_made)).
Defined.
End ValidatorExamples.
