(* ===== verification/Validation.v ===== *)
(** * [cabin.acme.validation]: challenge validation

    The background task a triggered challenge runs in: it picks the method,
    asks the network and writes down what happened, in the database and in the
    audit log.  Nothing it meets makes it fail. *)

From S2P Require Import Prelude PyStr Json PyTime IPAddr Net X509Lib Leaf Store Settings CaService Grants Identity AuditLog AcmeNames AcmeService Base64 Csr Jws Targets Finalize Validators.
#[local] Open Scope Z_scope.

(** [type(exc).__name__] *)
Definition exc_class (e : Exc) : string :=
  match e with
  | CANotConfiguredError _ => "CANotConfiguredError" | UnknownIssuerError _ => "UnknownIssuerError"
  | IssuerRetiredError _ => "IssuerRetiredError" | IssuerRequiredError _ => "IssuerRequiredError"
  | RetireError _ => "RetireError" | RowRetiredError _ => "RowRetiredError" | CrossSignError _ => "CrossSignError"
  | CAImportError _ => "CAImportError" | IssueError _ => "IssueError" | NameConstraintError _ => "NameConstraintError"
  | IssuerForbiddenError _ => "IssuerForbiddenError" | NoGrantedIssuerError _ => "NoGrantedIssuerError"
  | UserExistsError _ => "UserExistsError" | InvalidCredentialsError _ => "InvalidCredentialsError"
  | WeakPasswordError _ => "WeakPasswordError" | LastSuperadminError _ => "LastSuperadminError"
  | UserNotFoundError _ => "UserNotFoundError" | TokenError _ => "TokenError" | RevocationError _ => "RevocationError"
  | SecretsError _ => "SecretsError" | SettingError _ => "SettingError" | AcmeError _ _ _ _ _ => "AcmeError"
  | ExtensionNotFound _ => "ExtensionNotFound" | ValueError _ => "ValueError" | TypeError _ => "TypeError"
  | KeyError _ => "KeyError" | RecursionError _ => "RecursionError" | DeserializationError _ => "DeserializationError"
  | InvalidSignature _ => "InvalidSignature" | InvalidTag _ => "InvalidTag" | AttributeError _ => "AttributeError"
  | OSError _ => "OSError" | OverflowError _ => "OverflowError" | AssertionError _ => "AssertionError"
  | IntegrityError _ => "IntegrityError" | StaleDataError _ => "StaleDataError" | InvalidRequestError _ => "InvalidRequestError"
  | HTTPException _ _ _ => "HTTPException" | AuthRedirect _ => "AuthRedirect" | RequestValidationError _ => "RequestValidationError"
  | ToolError _ => "ToolError" | ConfigError _ => "ConfigError" | SystemExit _ => "SystemExit"
  | OutOfFuel => ""
  end.

Section validation.
Context {W : World} {X : X509Lib} {DC : DerCerts} {SS : SecretStore} {CR : Crypto} {J : Jose}.

Definition VALIDATORS (type : string) : option (Attempt → Net unit) :=
  if decide (type = "http-01") then Some http01_validate
  else if decide (type = "dns-01") then Some dns01_validate
  else if decide (type = "tls-alpn-01") then Some tlsalpn01_validate else None.
Definition validator (challenge : ChallengeRow) : Outcome (Attempt → Net unit) :=
  of_option (VALIDATORS (chall_type challenge))
    (acme_error server_internal (str_take 200 ("cabin cannot validate a " +:+ chall_type challenge +:+ " challenge"))).
(** [_resolvers] *)
Fixpoint resolver_entries (entries : list string) : Outcome (list string) :=
  match entries with
  | [] => mret []
  | entry :: rest =>
      let candidate := strip entry in
      if decide (candidate = "") then resolver_entries rest else
      _ ← catch_pure (ip_address candidate) is_value_error
            (λ _, Raise (acme_error server_internal "the dns_resolvers setting is not a list of IP addresses"));
      l ← resolver_entries rest;
      mret (candidate :: l)
  end.
Definition configured_resolvers (db : DB) : Outcome (list string) :=
  resolver_entries (split "," (strip (default "" (get_setting DNS_RESOLVERS db)))).
(** [_attempt] *)
Definition attempt_of (challenge : ChallengeRow) (authz : AuthzRow) (account : option AccountRow) (db : DB) : Outcome Attempt :=
  account ← of_option account (acme_error server_internal "this authorization has no account");
  rs ← configured_resolvers db;
  mret (mkAttempt (identifier_type authz) (identifier_value authz) (chall_token challenge)
          (key_authorization_of (chall_token challenge) (jwk_thumbprint account))
          (get_flag ALLOW_PRIVATE_VALIDATION_TARGETS true db) rs).
Definition account_of_authz (authz : AuthzRow) (db : DB) : option AccountRow :=
  order ← get_order (authz_order authz) db; accounts db !! ord_account order.
Definition validation_actor (account : option AccountRow) : Actor :=
  match account with None => SYSTEM_ACTOR | Some a => acme_actor (jwk_thumbprint a) end.
Definition identifier_text (authz : AuthzRow) : string := identifier_type authz +:+ ":" +:+ identifier_value authz.
(** The problem document, in the order [sort_keys] gives it.  No validator
    adds members of its own to one. *)
Definition problem_text (kind detail : string) (status : Z) : string :=
  dumps (JObj [("detail", JStr detail); ("status", JInt status); ("type", JStr (NAMESPACE +:+ kind))]).
(** [_client_problem] *)
Definition client_problem (kind detail : string) (status : Z) (authz : AuthzRow) : string :=
  problem_text kind
    (if decide (kind = error_text connection)
     then "cabin could not reach " +:+ py_repr (identifier_value authz) +:+ " to validate this challenge" else detail) status.
Definition challenge_event (what : string) (challenge : ChallengeRow) (detail : gmap string json) : Event :=
  mkEvent what (Some ("acme_challenge", Some (chall_id challenge))) (Some detail) None.
Definition validation_detail (challenge : ChallengeRow) (authz : AuthzRow) : gmap string json :=
  <["identifier" := JStr (identifier_text authz)]> {["type" := JStr (chall_type challenge)]}.
(** [_succeeded] *)
Definition validation_succeeded (challenge : ChallengeRow) (authz : AuthzRow) (account : option AccountRow) (now logged : Z) : Tx DB unit :=
  _ ← record_challenge_success challenge authz now;
  _ ← record (validation_actor account) a_acme_challenge_validated
        (challenge_event ("validated " +:+ chall_type challenge +:+ " challenge for " +:+ py_repr (identifier_value authz)) challenge
           (validation_detail challenge authz)) logged;
  mret ().
(** [_failed] *)
Definition validation_failed (challenge : ChallengeRow) (authz : AuthzRow) (account : option AccountRow)
    (kind detail : string) (status logged : Z) : Tx DB unit :=
  _ ← record_challenge_failure challenge (client_problem kind detail status authz);
  _ ← record (validation_actor account) a_acme_challenge_failed
        (challenge_event (chall_type challenge +:+ " challenge for " +:+ py_repr (identifier_value authz) +:+ " failed") challenge
           (<["error" := JStr detail]> (validation_detail challenge authz))) logged;
  mret ().
(** What the network said: [_validator(challenge).validate(_attempt(...))]. *)
Definition try_validation (challenge : ChallengeRow) (authz : AuthzRow) (account : option AccountRow) (db : DB) : Outcome unit :=
  validate ← validator challenge;
  attempt ← attempt_of challenge authz account db;
  (run_net (validate attempt)).1.
(** The two [except] clauses and the [else]. *)
Definition conclude (challenge : ChallengeRow) (authz : AuthzRow) (account : option AccountRow) (tried : Outcome unit) (now logged : Z) : Tx DB unit :=
  match tried with
  | Ok _ => validation_succeeded challenge authz account now logged
  | Raise (AcmeError kind detail status _ _) => validation_failed challenge authz account kind detail status logged
  | Raise e =>
      validation_failed challenge authz account (error_text server_internal)
        ("validation failed inside cabin: " +:+ exc_class e) (STATUS server_internal) logged
  end.
(** [_attempt_validation]; [others] is what is committed while the network is
    asked. *)
Definition attempt_validation (others : DB → DB) (challenge_id : string) (now logged : Z) : Tx DB unit :=
  challenge ← query (get_challenge challenge_id);
  match challenge with
  | None => mret ()
  | Some challenge =>
      if negb (bool_decide (chall_status challenge = chall_processing)) then mret () else
      authz ← query (get_authorization (chall_authz challenge));
      match authz with
      | None => mret ()
      | Some authz =>
          account ← query (account_of_authz authz);
          tried ← query (try_validation challenge authz account);
          _ ← others_commit others;
          conclude challenge authz account tried now logged
      end
  end.
(** What it raises goes to the log. *)
Definition validate_challenge (others : DB → DB) (challenge_id : string) (now logged : Z) : Tx DB unit :=
  catch (attempt_validation others challenge_id now logged) (λ _, true) (λ _, mret ()).
End validation.

(** ** What a validation leaves behind *)
Section theorems.
Context {W : World} {X : X509Lib} {DC : DerCerts} {SS : SecretStore} {CR : Crypto} {J : Jose}.

Lemma request_swallow (m : Tx DB unit) db : request (catch m (λ _, true) (λ _, mret ())) db = (Ok (), (request m db).2).
Proof. unfold request, catch. by destruct (m (fresh_session db)) as [[[]|e] s]. Qed.
Lemma request_others {A} others (f : unit → Tx DB A) db : request (others_commit others ≫= f) db = request (f ()) (others db).
Proof. done. Qed.
Lemma request_logged_rows {A} actor action e now (m : Tx DB A) db : settled m →
  let d := (request m db).2 in let d' := (request (_ ← m; _ ← record actor action e now; mret () : Tx DB unit) db).2 in
  challenges d' = challenges d ∧ authzs d' = authzs d.
Proof.
  intros Hm. rewrite request_bind by done. destruct (request m db) as [[b|x] d]; [|done]. cbn [snd].
  destruct (request (_ ← record actor action e now; mret ()) d) as [r d'] eqn:Hr.
  refine (request_wp _ _ (λ _ d', challenges d' = challenges d ∧ authzs d' = authzs d) _ _ Hr _).
  apply wp_bind, wp_record. done.
Qed.
Lemma settled_success c a now : settled (record_challenge_success c a now).
Proof. intros db. unfold record_challenge_success, fresh_session. wp_run; done. Qed.
Lemma settled_failure c problem : settled (record_challenge_failure c problem).
Proof. intros db. unfold record_challenge_failure, update_challenge_where, refresh_challenge, fresh_session. wp_run; done. Qed.

Lemma succeeded_rows c a account now logged db : let d := (request (validation_succeeded c a account now logged) db).2 in
  if bool_decide (challenges db !! chall_id c = None) || bool_decide (authzs db !! authz_id a = None)
  then challenges d = challenges db ∧ authzs d = authzs db
  else challenges d = alter (prove_row c now) (chall_id c) (challenges db) ∧ authzs d = alter (prove_authz a) (authz_id a) (authzs db).
Proof.
  unfold validation_succeeded.
  pose proof (request_logged_rows (validation_actor account) a_acme_challenge_validated
    (challenge_event ("validated " +:+ chall_type c +:+ " challenge for " +:+ py_repr (identifier_value a)) c (validation_detail c a)) logged
    _ db (settled_success c a now)) as [H1 H2].
  cbn zeta. rewrite H1, H2, request_proven. by destruct (_ || _).
Qed.
Lemma failed_rows c a account kind detail status logged db : let d := (request (validation_failed c a account kind detail status logged) db).2 in
  challenges d = snd (fail_table (chall_id c) (client_problem kind detail status a) (challenges db)) ∧ authzs d = authzs db.
Proof.
  unfold validation_failed. generalize (client_problem kind detail status a) as problem. intros problem.
  pose proof (request_logged_rows (validation_actor account) a_acme_challenge_failed
    (challenge_event (chall_type c +:+ " challenge for " +:+ py_repr (identifier_value a) +:+ " failed") c (<["error" := JStr detail]> (validation_detail c a))) logged
    _ db (settled_failure c problem)) as [H1 H2].
  cbn zeta. rewrite H1, H2, request_refuted. done.
Qed.

(** What a validator that accepted was shown. *)
Definition shown (a : Attempt) (kind : string) (h : History) : Prop :=
  kind = "http-01" ∧ (∃ r body, last_response h "" = Some (r, 200, body) ∧ head h = Some (EBody EndOfBody) ∧
    bytes_strip body = encode_utf8 (key_authorization a)) ∨
  kind = "dns-01" ∧ (∃ time records earlier, h = ETxt (dns01_name a) (resolvers a) time (TxtRecords records) :: earlier ∧
    dns_value (key_authorization a) ∈ map decode_replace records) ∨
  kind = "tls-alpn-01" ∧ (∃ e time hs der c names crit wanted earlier, h = EHandshake (sni e) time (SocketOk hs) :: earlier ∧
    host e = at_value a ∧ ep_port e = TLS_ALPN_PORT ∧ connectable (allow_private a) (address e) ∧
    selected_alpn hs = Some ACME_TLS_1 ∧ peer_der hs = Some der ∧ load_der_cert der = Ok c ∧
    extension_of san_of_cert c = Ok (names, crit) ∧ wanted_name a wanted ∧ lower wanted ∈ presented_names names ∧
    extension_of acme_identifier c = Ok (OCTET_STRING_HEADER +:+ digest (key_authorization a), true)).
Lemma try_validation_ok c a account db : try_validation c a account db = Ok () →
  ∃ acct attempt validate, account = Some acct ∧ VALIDATORS (chall_type c) = Some validate ∧
    at_type attempt = identifier_type a ∧ at_value attempt = identifier_value a ∧
    key_authorization attempt = chall_token c +:+ "." +:+ jwk_thumbprint acct ∧
    shown attempt (chall_type c) (run_net (validate attempt)).2.
Proof.
  unfold try_validation, validator, attempt_of.
  intros (validate & Hv%of_option_ok & (attempt & Ha & Hrun)%Outcome_bind_ok)%Outcome_bind_ok.
  apply Outcome_bind_ok in Ha as (acct & Hacct%of_option_ok & (rs & _ & Ha)%Outcome_bind_ok).
  exists acct, attempt, validate. injection Ha as <-. split_and!; try done.
  set (attempt := mkAttempt _ _ _ _ _ _) in *. assert (Hok : validate attempt [] = (Ok (), (run_net (validate attempt)).2)).
  { unfold run_net in *. by destruct (validate attempt []) as [r h]; cbn in Hrun; subst r. }
  unfold VALIDATORS in Hv. unfold shown. repeat case_decide; [..|done]; injection Hv as <-.
  - left. split; [done|]. by apply http01_sound in Hok.
  - right; left. split; [done|]. by apply dns01_sound in Hok as [_ Hok].
  - right; right. split; [done|].
    apply tlsalpn01_sound in Hok as (e & t & t0 & t1 & hs & der & cert & earlier & names & crit & wanted & Hh & Hok).
    exists e, t, hs, der, cert, names, crit, wanted. eexists. by split.
Qed.

Lemma validation_run others n now logged db : request (validate_challenge others n now logged) db =
  (Ok (), match challenges db !! n with
   | Some c =>
       if decide (chall_status c = chall_processing) then
         match authzs db !! chall_authz c with
         | Some a => let account := account_of_authz a db in (request (conclude c a account (try_validation c a account db) now logged) (others db)).2
         | None => db
         end
       else db
   | None => db
   end).
Proof.
  unfold validate_challenge. rewrite request_swallow. f_equal. unfold attempt_validation, get_challenge, get_authorization.
  rewrite request_query. destruct (challenges db !! n) as [c|]; [|done].
  case_decide as Hs; [rewrite bool_decide_eq_true_2 by done|by rewrite bool_decide_eq_false_2]. cbn [negb].
  rewrite request_query. destruct (authzs db !! chall_authz c) as [a|]; [|done].
  by rewrite request_query, request_query, request_others.
Qed.
(** The problem a failed attempt leaves on the challenge. *)
Definition problem_of (e : Exc) (a : AuthzRow) : string :=
  match e with
  | AcmeError kind detail status _ _ => client_problem kind detail status a
  | _ => client_problem (error_text server_internal) ("validation failed inside cabin: " +:+ exc_class e) (STATUS server_internal) a
  end.
Lemma conclude_rows c a account tried now logged db : let d := (request (conclude c a account tried now logged) db).2 in
  match tried with
  | Ok _ => if bool_decide (challenges db !! chall_id c = None) || bool_decide (authzs db !! authz_id a = None)
            then challenges d = challenges db ∧ authzs d = authzs db
            else challenges d = alter (prove_row c now) (chall_id c) (challenges db) ∧ authzs d = alter (prove_authz a) (authz_id a) (authzs db)
  | Raise e => challenges d = snd (fail_table (chall_id c) (problem_of e a) (challenges db)) ∧ authzs d = authzs db
  end.
Proof. destruct tried as [[]|e]; [apply succeeded_rows|]. destruct e; apply failed_rows. Qed.

(** C9: a challenge becomes valid by proof only.  When a challenge is valid
    after a validation ran, either it was already (before, or made so by
    another request meanwhile), or the validation found it processing and the
    network showed the proof its type asks for: the token of this challenge
    joined with the thumbprint of the key of the account that ordered it,
    served by http-01 as the body of a 200, digested in a TXT record for
    dns-01, digested in the critical extension of a certificate that names the
    identifier for tls-alpn-01. *)
Theorem challenge_needs_proof others n now logged db r db' c' : request (validate_challenge others n now logged) db = (r, db') →
  challenges db' !! n = Some c' → chall_status c' = chall_valid →
  (∃ c0, (challenges db !! n = Some c0 ∨ challenges (others db) !! n = Some c0) ∧ chall_status c0 = chall_valid) ∨
  ∃ c a order account attempt validate,
    challenges db !! n = Some c ∧ chall_status c = chall_processing ∧ authzs db !! chall_authz c = Some a ∧
    orders db !! authz_order a = Some order ∧ accounts db !! ord_account order = Some account ∧
    VALIDATORS (chall_type c) = Some validate ∧ at_type attempt = identifier_type a ∧ at_value attempt = identifier_value a ∧
    key_authorization attempt = chall_token c +:+ "." +:+ jwk_thumbprint account ∧
    shown attempt (chall_type c) (run_net (validate attempt)).2.
Proof.
  rewrite validation_run. intros [= <- Hdb'] Hc' Hvalid.
  assert (Hsame : challenges db' !! n = challenges db !! n ∨ challenges db' !! n = challenges (others db) !! n →
    ∃ c0, (challenges db !! n = Some c0 ∨ challenges (others db) !! n = Some c0) ∧ chall_status c0 = chall_valid).
  { intros H. exists c'. split; [|done]. rewrite <- Hc'. by destruct H as [<-|<-]; [left|right]. }
  destruct (challenges db !! n) as [c|] eqn:Hc; [|left; apply Hsame; left; by subst db'].
  case_decide as Hproc; [|left; apply Hsame; left; by subst db'].
  destruct (authzs db !! chall_authz c) as [a|] eqn:Ha; [|left; apply Hsame; left; by subst db'].
  set (tried := try_validation _ _ _ _) in *. pose proof (conclude_rows c a (account_of_authz a db) tried now logged (others db)) as Hrows.
  cbn zeta in Hdb', Hrows. rewrite Hdb' in Hrows. destruct tried as [[]|e] eqn:Htried.
  - right. subst tried. apply try_validation_ok in Htried as (account & attempt & validate & Hacct & Hv & H1 & H2 & H3 & H4).
    unfold account_of_authz, get_order in Hacct. destruct (orders db !! authz_order a) as [order|] eqn:Ho; [|done].
    exists c, a, order, account, attempt, validate. by split_and!.
  - left. destruct Hrows as [Hrows _]. rewrite Hrows in Hc'. unfold fail_table in Hc'. rewrite update_where_lookup in Hc'.
    case_decide as Hid; [|apply Hsame; right; by rewrite Hrows; unfold fail_table; rewrite update_where_lookup, decide_False].
    destruct (challenges (others db) !! n) as [c1|] eqn:Hc1; [|done]. cbn in Hc'. injection Hc' as Hc'.
    destruct (bool_decide (chall_status c1 = chall_processing)); [by subst c'|]. exists c'. subst c1. auto.
Qed.

(** C37: a validation concludes.  A challenge it finds processing, with its
    authorization, and both rows under their own ids, is no longer processing
    afterwards, unless one of the rows is gone meanwhile: it is valid when the
    validator accepted, and so is its authorization, which is left as it is
    when it was valid already; otherwise, if it still was processing, it is
    invalid, keeps the problem of the failure, the reason of a failed connection
    excepted, and if it no longer was it stays as it is; no authorization
    changes then.  The task itself never fails. *)
Theorem validation_concludes others n now logged db r db' c a c1 a1 : request (validate_challenge others n now logged) db = (r, db') →
  challenges db !! n = Some c → chall_id c = n → chall_status c = chall_processing →
  authzs db !! chall_authz c = Some a → authz_id a = chall_authz c →
  challenges (others db) !! n = Some c1 → authzs (others db) !! chall_authz c = Some a1 →
  r = Ok () ∧ ∃ c', challenges db' !! n = Some c' ∧ same_challenge c1 c' ∧ chall_status c' ≠ chall_processing ∧
  match try_validation c a (account_of_authz a db) db with
  | Ok _ => chall_status c' = chall_valid ∧
      authzs db' !! chall_authz c = Some (if decide (authz_status a = authz_valid) then a1 else with_authz_status authz_valid a1)
  | Raise e => (chall_status c1 = chall_processing → chall_status c' = chall_invalid ∧ chall_error c' = Some (problem_of e a)) ∧
      (chall_status c1 ≠ chall_processing → c' = c1) ∧ authzs db' = authzs (others db)
  end.
Proof.
  rewrite validation_run. intros [= <- Hdb'] Hc Hid Hproc Ha Haid Hc1 Ha1. split; [done|].
  rewrite Hc, decide_True, Ha in Hdb' by done. set (tried := try_validation _ _ _ _) in *.
  pose proof (conclude_rows c a (account_of_authz a db) tried now logged (others db)) as Hrows. cbn zeta in Hdb', Hrows. rewrite Hdb' in Hrows.
  destruct tried as [[]|e].
  - rewrite Hid, Haid, Hc1, Ha1 in Hrows. cbn in Hrows. destruct Hrows as [-> ->]. rewrite !lookup_alter_eq, Hc1, Ha1. eexists. split; [done|].
    unfold prove_row, prove_authz, write_col. rewrite Hproc. rewrite (decide_False (P := chall_processing = chall_valid)) by done.
    split_and!; [done..|]. cbn [fmap option_fmap option_map]. case_decide; [by destruct a1|done].
  - destruct Hrows as [-> ->]. unfold fail_table. rewrite update_where_lookup, decide_True, Hc1 by done. eexists. split; [done|].
    destruct (decide (chall_status c1 = chall_processing)) as [H1|H1].
    + rewrite bool_decide_eq_true_2 by done. by split_and!.
    + rewrite bool_decide_eq_false_2 by done. by split_and!.
Qed.
End theorems.

(** ** A triggered challenge *)
Module ValidationExamples.
#[local] Existing Instance Toy.lib.
#[local] Existing Instance toy_secrets.
#[local] Existing Instance toy_crypto.
#[local] Existing Instance JwsExamples.toy_jose.
#[local] Existing Instance ValidatorExamples.toy_certs.
Import Toy CaExamples AcmeExamples.
#[local] Strategy 1000 [one_root two_cas two_roots crossed acme_db placed_db after request].
Definition trigger : Tx DB (bool * ChallengeRow) := begin_challenge http_challenge the_authz t2026.
Definition triggered_db : DB := after trigger placed_db.
Definition proof_text : string := chall_token http_challenge +:+ "." +:+ thumbprint key1.
(** A server at every name that serves [body]. *)
Definition serving (address body : string) : World := {|
  w_monotonic := λ h, Z.of_nat (length h);
  w_lookup := λ _ _, Ok (Some [address]);
  w_get := λ _ _, HttpStatus 200 "";
  w_body := λ h, match h with EClock _ :: _ => EndOfBody | _ => match body with String c s => Chunk c s | EmptyString => EndOfBody end end;
  w_txt := λ _ _ _ _, NXDOMAIN;
  w_connect := λ _ _ _, OSFailed "ConnectionRefusedError";
  w_handshake := λ _ _ _, SocketTimeout;
  url_join := λ _ location, Ok location |}.
Definition validation (W : World) : Tx DB unit := validate_challenge (W:=W) id "token-202" t2026 t2026.
Definition status_after (W : World) : option (ChallengeStatus * option string) :=
  (λ c, (chall_status c, chall_error c)) <$> challenges (after (validation W) triggered_db) !! "token-202".
Example proven_over_http : status_after (serving "192.168.1.20" proof_text) = Some (chall_valid, None).
Proof. vm_compute. reflexivity. Qed.
(** What the account may not read in the problem is in the audit log. *)
Example refused_target :
  status_after (serving "127.0.0.1" proof_text) =
    Some (chall_invalid, Some (problem_text "connection" "cabin could not reach 'nas.lan' to validate this challenge" 400)) ∧
  map (λ e, aud_detail e ≫= λ d, d !! "error") (list_events "" "" "" 1 50 (after (validation (serving "127.0.0.1" proof_text)) triggered_db)).1 =
    [Some (JStr "refusing to validate 'nas.lan': it resolves to the loopback address 127.0.0.1")].
Proof. vm_compute. done. Qed.
#[local] Strategy 1000 [triggered_db].
Definition honest : World := serving "192.168.1.20" proof_text.
Definition chall_status_of (db : DB) : option ChallengeStatus := chall_status <$> challenges db !! "token-202".
Lemma status_found db s : chall_status_of db = Some s → ∃ c, challenges db !! "token-202" = Some c ∧ chall_status c = s.
Proof. unfold chall_status_of. destruct (challenges db !! _) as [c|]; [|done]. intros [= <-]. by exists c. Qed.
Lemma proven_after : chall_status_of (after (validation honest) triggered_db) = Some chall_valid.
Proof. vm_compute. reflexivity. Qed.
Lemma processing_before : chall_status_of triggered_db = Some chall_processing.
Proof. vm_compute. reflexivity. Qed.
Lemma challenge_needs_proof_witness : chall_status_of (after (validation honest) triggered_db) = Some chall_valid ∧
  ∃ a account attempt (validate : Attempt → Net unit), accounts triggered_db !! account = Some a ∧
    shown (X:=lib) (DC:=ValidatorExamples.toy_certs) (J:=JwsExamples.toy_jose) attempt "http-01" (run_net (validate attempt)).2.
Proof.
  split; [exact proven_after|]. destruct (status_found _ _ proven_after) as (c' & Hc' & Hv).
  destruct (challenge_needs_proof (W:=honest) (X:=lib) (DC:=ValidatorExamples.toy_certs) (SS:=toy_secrets) (J:=JwsExamples.toy_jose)
    id "token-202" t2026 t2026 triggered_db _ _ c' (surjective_pairing _) Hc' Hv) as [(c0 & Hc0 & Hs)|H].
  - exfalso. destruct (status_found _ _ processing_before) as (c & Hc & Hp).
    assert (c0 = c) as -> by (destruct Hc0 as [H|H]; unfold id in H; congruence). congruence.
  - destruct H as (c & a & order & account & attempt & validate & Hc & _ & _ & _ & Hacc & _ & _ & _ & _ & Hshown).
    exists account, (ord_account order), attempt, validate. split; [exact Hacc|].
    assert (Ht : map_Forall (λ n c, n = "token-202" → chall_type c = "http-01") (challenges triggered_db)) by by_decide.
    rewrite (Ht _ _ Hc eq_refl) in Hshown. exact Hshown.
Defined.
Definition authz_found : option AuthzRow := authzs triggered_db !! "token-201".
Lemma validation_concludes_witness : ∃ c, challenges triggered_db !! "token-202" = Some c ∧ chall_status c = chall_processing ∧
  ∃ c', challenges (after (validation honest) triggered_db) !! "token-202" = Some c' ∧ chall_status c' ≠ chall_processing.
Proof.
  destruct (status_found _ _ processing_before) as (c & Hc & Hp). exists c. split; [exact Hc|]. split; [exact Hp|].
  assert (Hid : map_Forall (λ n c, n = "token-202" → chall_id c = n ∧ chall_authz c = "token-201") (challenges triggered_db)) by by_decide.
  destruct (Hid _ _ Hc eq_refl) as [Hid' Hau].
  assert (Ha : map_Forall (λ n a, authz_id a = n ∧ authz_status a = authz_pending) (authzs triggered_db)) by by_decide.
  assert (Hsome : bool_decide (is_Some (authzs triggered_db !! "token-201")) = true) by (vm_compute; reflexivity).
  apply bool_decide_eq_true in Hsome as [a Hrow]. destruct (Ha _ _ Hrow) as [Haid _].
  rewrite <- Hau in Hrow, Haid.
  destruct (validation_concludes (W:=honest) (X:=lib) (DC:=ValidatorExamples.toy_certs) (SS:=toy_secrets) (J:=JwsExamples.toy_jose)
    id "token-202" t2026 t2026 triggered_db _ _ c a c a (surjective_pairing _) Hc Hid' Hp Hrow Haid Hc Hrow) as (_ & c' & Hc' & _ & Hs & _).
  exists c'. split; [exact Hc'|exact Hs].
Defined.
End ValidationExamples.
