(* ===== verification/AcmeApi.v ===== *)
(** * The ACME routes

    [acme/http.py], [acme/api_account.py] and [acme/api_order.py]: every route
    authenticates its request against the URL the configured base URL gives it
    and then works for the account that signed it.  A response is its status,
    its JSON body and what the route says of its [Location]; the middleware and
    its headers are in AcmeServer.v.  Each reading of the clock is an argument. *)

From S2P Require Import Prelude PyStr Json PyTime IPAddr X509Lib Leaf Store Settings CaService Grants Identity Certs Crl AuditLog Nonces AcmeNames AcmeService Base64 Csr Jws Eab Finalize.
#[local] Open Scope Z_scope.

(** ** URLs *)
Definition ACME_PREFIX : string := "/acme".
Definition CA_PREFIX : string := ACME_PREFIX +:+ "/ca/".
Definition NEW_ORDER_PATH : string := ACME_PREFIX +:+ "/new-order".
Definition KEY_CHANGE_PATH : string := ACME_PREFIX +:+ "/key-change".
Definition REVOKE_CERT_PATH : string := ACME_PREFIX +:+ "/revoke-cert".
Definition ACCOUNT_PREFIX : string := ACME_PREFIX +:+ "/account/".
Definition ORDER_PREFIX : string := ACME_PREFIX +:+ "/order/".
Definition AUTHZ_PREFIX : string := ACME_PREFIX +:+ "/authz/".
Definition CHALLENGE_PREFIX : string := ACME_PREFIX +:+ "/chal/".
Definition CERT_PREFIX : string := ACME_PREFIX +:+ "/cert/".
Definition ACME_REQUIRE_EAB : string := "acme_require_eab".
Definition directory_path (issuer_id : Z) : string := CA_PREFIX +:+ str_of_Z issuer_id +:+ "/directory".
Definition NEW_NONCE_PATH : string := ACME_PREFIX +:+ "/new-nonce".
Definition new_account_path (issuer_id : Z) : string := CA_PREFIX +:+ str_of_Z issuer_id +:+ "/new-account".
(** [int(s) if s.isdigit() else None], as [str.isdigit] understands digits;
    [int] takes ASCII ones only here, and at most 4300 of them. *)
Definition int_of_digits (s : string) : Outcome (option Z) :=
  if isdigit s then
    _ ← raise_if (negb (forallb is_ascii_digit (chars s))) (ValueError ("invalid literal for int() with base 10: " +:+ py_repr s));
    _ ← raise_if (4300 <? py_len s) (ValueError "Exceeds the limit (4300 digits) for integer string conversion");
    mret (Some (dec_value (chars s)))
  else mret None.
(** Which issuer a path names. *)
Definition issuer_in_path (path : string) : Outcome (option Z) :=
  if negb (startswith path CA_PREFIX) then mret None
  else int_of_digits (default "" (head (split "/"%char (str_drop (String.length CA_PREFIX) path)))).

Definition object : Type := list (string * json).
Record Response := mkResponse { code : Z; reply : object; location : option string }.
Definition not_empty (o : option string) : bool := match o with Some s => negb (bool_decide (s = "")) | None => false end.
(** [bool(v)] *)
Definition truthy (v : json) : bool :=
  match v with
  | JNull => false | JBool b => b | JInt n => negb (n =? 0)
  | JFloat r => negb (bool_decide (r = "0.0" ∨ r = "-0.0"))
  | JStr s => negb (bool_decide (s = "")) | JList l => nonempty l | JObj o => nonempty o
  end.

Section http.
Context {X : X509Lib} {SS : SecretStore} {CR : Crypto} {J : Jose}.

Definition origin (db : DB) : Outcome string :=
  match get_setting BASE_URL db with
  | Some base => _ ← raise_if (bool_decide (base = "")) (acme_error server_internal "no base URL is configured"); mret base
  | None => mthrow (acme_error server_internal "no base URL is configured")
  end.
Definition url (path : string) (db : DB) : Outcome string := base ← origin db; mret (base +:+ path).
Definition directory_url (issuer_id : Z) (db : DB) : option string :=
  match get_setting BASE_URL db with
  | Some base => if decide (base = "") then None else Some (base +:+ directory_path issuer_id)
  | None => None
  end.
Definition verified (body path : string) (mode : KeyMode) (now : Z) : Tx DB VerifiedRequest :=
  target ← query (url path);
  target ← lift target;
  prefix ← query (url ACCOUNT_PREFIX);
  prefix ← lift prefix;
  verify_request body target mode prefix now.
Definition account_of (v : VerifiedRequest) : Outcome AccountRow :=
  of_option (vr_account v) (acme_error server_internal "this request has no account context").
Definition own_account_or_403 (account : AccountRow) (account_id : string) : Outcome unit :=
  raise_if (negb (bool_decide (acc_id account = account_id))) (acme_error unauthorized "this account URL is not yours").

(** ** Bodies *)
Definition account_json (account : AccountRow) (db : DB) : Outcome object :=
  orders_url ← url (ACCOUNT_PREFIX +:+ acc_id account +:+ "/orders") db;
  let cs := account_contacts account in
  mret ([("status", JStr (account_status_text (acc_status account))); ("orders", JStr orders_url)]
        ++ if nonempty cs then [("contact", JList (map JStr cs))] else []).
Definition chall_text (s : ChallengeStatus) : string :=
  match s with chall_pending => "pending" | chall_processing => "processing" | chall_valid => "valid" | chall_invalid => "invalid" end.
(** The problem document a row keeps, if any. *)
Definition error_member (error : option string) : Outcome object :=
  match error with
  | Some t => if decide (t = "") then mret [] else e ← json_loads t; mret [("error", e)]
  | None => mret []
  end.
Definition text_member (k : string) (v : option string) : object :=
  if not_empty v then [(k, JStr (default "" v))] else [].
Definition challenge_json (c : ChallengeRow) (db : DB) : Outcome object :=
  u ← url (CHALLENGE_PREFIX +:+ chall_id c) db;
  e ← error_member (chall_error c);
  mret ([("type", JStr (chall_type c)); ("url", JStr u); ("status", JStr (chall_text (chall_status c))); ("token", JStr (chall_token c))]
        ++ text_member "validated" (validated_at c) ++ e).
Definition authz_json (a : AuthzRow) (now : Z) (db : DB) : Outcome object :=
  cs ← map_each (λ c, o ← challenge_json c db; mret (JObj o)) (challenges_of a db);
  mret ([("status", JStr (authz_text (authorization_status a now))); ("expires", JStr (authz_expires a));
         ("identifier", JObj [("type", JStr (identifier_type a)); ("value", JStr (identifier_value a))]); ("challenges", JList cs)]
        ++ if authz_wildcard a then [("wildcard", JBool true)] else []).
Definition order_json (o : OrderRow) (now : Z) (db : DB) : Outcome object :=
  as_ ← map_each (λ a, u ← url (AUTHZ_PREFIX +:+ authz_id a) db; mret (JStr u)) (authorizations_of o db);
  fin ← url (ORDER_PREFIX +:+ ord_id o +:+ "/finalize") db;
  cert ← match certificate_id o with
         | Some c => u ← url (CERT_PREFIX +:+ str_of_Z c) db; mret [("certificate", JStr u)]
         | None => mret [] end;
  e ← error_member (ord_error o);
  mret ([("status", JStr (ord_status_text (order_status o now db))); ("expires", JStr (ord_expires o));
         ("identifiers", JList (map (λ '(t, v), JObj [("type", JStr t); ("value", JStr v)]) (order_identifiers o)));
         ("authorizations", JList as_); ("finalize", JStr fin)]
        ++ text_member "notBefore" (ord_not_before o) ++ text_member "notAfter" (ord_not_after o) ++ cert ++ e).
(** [json_response(account_json(...))] *)
Definition account_response (code : Z) (account : AccountRow) (with_location : bool) : Tx DB Response :=
  body ← query (account_json account);
  body ← lift body;
  where_ ← query (url (ACCOUNT_PREFIX +:+ acc_id account));
  where_ ← lift where_;
  mret (mkResponse code body (if with_location then Some where_ else None)).

(** ** Accounts *)
Definition no_resource : Exc := not_found "ACME resource".
Definition reject_unusable (account : AccountRow) : Outcome unit :=
  raise_if (negb (bool_decide (acc_status account = acc_valid)))
    (acme_error unauthorized ("this account is " +:+ account_status_text (acc_status account))).
Definition reject_other_issuer (account : AccountRow) (issuer_id : Z) : Outcome unit :=
  raise_if (negb (bool_decide (acc_issuer account = issuer_id)))
    (acme_error unauthorized "this account key is registered against another issuer's directory").
Definition external_account (v : VerifiedRequest) (members : object) (issuer_id : Z) (db : DB) : Outcome (option EabRow) :=
  match member "externalAccountBinding" members with
  | JNull =>
      _ ← raise_if (get_flag ACME_REQUIRE_EAB false db) (acme_error external_account_required
            "this server requires an external account binding: ask its operator for a key identifier and HMAC key");
      mret None
  | binding =>
      u ← url (new_account_path issuer_id) db;
      k ← verify_eab binding u (jwk (base (vr_key v))) issuer_id db;
      mret (Some k)
  end.
Definition is_integrity_error (e : Exc) : bool := match e with IntegrityError _ => true | _ => false end.
(** Removing the account: whatever refers to it stops the DELETE. *)
Definition delete_account (account : AccountRow) : Tx DB unit :=
  held ← query (λ db, nonempty (rows_where (eab_keys db) (λ k, bool_decide (bound_account_id k = Some (acc_id account))))
                      || nonempty (rows_where (orders db) (λ o, bool_decide (ord_account o = acc_id account))));
  _ ← raise_if held foreign_key_failed;
  gone ← query (λ db, bool_decide (accounts db !! acc_id account = None));
  _ ← raise_if gone row_gone;
  modify (on_accounts (delete (acc_id account))).
Definition spend_binding (binding : EabRow) (account : AccountRow) (created : bool) (now : Z) : Tx DB unit :=
  if decide (bound_account_id binding = Some (acc_id account)) then mret () else
  '(bound, _) ← catch (bind binding (acc_id account) now) is_integrity_error (λ _, _ ← rollback; mthrow refused);
  if (bound : bool) then mret () else
  _ ← (if created then _ ← delete_account account; commit else mret ());
  mthrow refused.
(** A registration that lost the race was rolled back; the session reads its
    rows again then. *)
Definition reread (binding : option EabRow) (created : bool) : Tx DB (option EabRow) :=
  if created then mret binding else
  match binding with
  | None => mret None
  | Some k => now_ ← query (λ db, eab_keys db !! eab_id k); k ← lift (of_option now_ row_gone); mret (Some k)
  end.
Definition account_event (what : string) (account : AccountRow) (detail : gmap string json) (from : option string) : Event :=
  mkEvent what (Some ("acme_account", Some (acc_id account))) (Some (<["thumbprint" := JStr (jwk_thumbprint account)]> detail)) from.
(** The clock, at each of its readings. *)
Record Clock := mkClock { c_now : Z; c_made : Z; c_bound : Z; c_logged : Z }.
Definition new_account_route (others : DB → DB) (issuer_id : Z) (body : string) (draw : Z) (t : Clock) (from : option string)
  : Tx DB Response :=
  issuer ← catch (get_ca issuer_id) is_unknown_issuer (λ _, mthrow no_resource);
  _ ← raise_if (negb (bool_decide (ca_kind issuer = Intermediate))) no_resource;
  v ← verified body (new_account_path issuer_id) mode_jwk (c_now t);
  members ← lift (of_option (payload v) (acme_error malformed "new-account needs a payload"));
  existing ← query (find_account_by_key (thumbprint (base (vr_key v))));
  match existing with
  | Some account =>
      _ ← lift (reject_unusable account);
      _ ← lift (reject_other_issuer account issuer_id);
      account_response 200 account true
  | None =>
      _ ← raise_if (truthy (member "onlyReturnExisting" members))
            (acme_error account_does_not_exist "no account is registered for this key");
      _ ← raise_if (negb (bool_decide (ca_status issuer = Active)))
            (acme_error unauthorized ("issuer " +:+ str_of_Z issuer_id +:+ " is retired and cannot register new accounts"));
      binding ← query (external_account v members issuer_id);
      binding ← lift binding;
      cs ← lift (if has "contact" members then cs ← parse_contacts (member "contact" members); mret (Some cs) else mret None);
      '(account, created) ← get_or_create_account others (base (vr_key v)) issuer_id cs
        (truthy (member "termsOfServiceAgreed" members)) draw (c_made t);
      binding ← reread binding created;
      _ ← match binding with Some k => spend_binding k account created (c_bound t) | None => mret () end;
      _ ← (if (created : bool) then
             _ ← record (acme_actor (jwk_thumbprint account)) a_acme_account_created
                   (account_event "registered ACME account" account {["issuer_id" := JInt issuer_id]} from) (c_logged t); mret ()
           else mret ());
      account_response (if (created : bool) then 201 else 200) account true
  end.
Definition directory (issuer_id : Z) : Tx DB Response :=
  issuer ← catch (get_ca issuer_id) is_unknown_issuer (λ _, mthrow no_resource);
  _ ← raise_if (negb (bool_decide (ca_kind issuer = Intermediate))) no_resource;
  meta ← query (λ db, ("externalAccountRequired", JBool (get_flag ACME_REQUIRE_EAB false db)) :: text_member "website" (get_setting BASE_URL db));
  urls ← query (λ db, map_each (λ '(k, path), u ← url path db; mret (k, JStr u))
    [("newNonce", NEW_NONCE_PATH); ("newAccount", new_account_path issuer_id); ("newOrder", NEW_ORDER_PATH);
     ("revokeCert", REVOKE_CERT_PATH); ("keyChange", KEY_CHANGE_PATH)]);
  urls ← lift urls;
  mret (mkResponse 200 (urls ++ [("meta", JObj meta)]) None).
Definition account_resource (account_id : string) (body : string) (t : Clock) (from : option string) : Tx DB Response :=
  v ← verified body (ACCOUNT_PREFIX +:+ account_id) mode_kid (c_now t);
  account ← lift (account_of v);
  _ ← lift (own_account_or_403 account account_id);
  let members := default [] (payload v) in
  changed ← match member "status" members with
    | JNull =>
        if has "contact" members then
          cs ← lift (parse_contacts (member "contact" members));
          _ ← set_contacts account cs;
          mret (with_contacts (Some cs) account)
        else mret account
    | status =>
        _ ← raise_if (negb (bool_decide (status = JStr "deactivated")))
              (acme_error malformed "an account may only be updated to 'deactivated'");
        _ ← deactivate_account account;
        _ ← record (acme_actor (jwk_thumbprint account)) a_acme_account_deactivated
              (account_event "deactivated ACME account" account ∅ from) (c_logged t);
        mret (with_acc_status acc_deactivated account)
    end;
  account_response 200 changed false.
Definition account_orders (account_id : string) (body : string) (now : Z) : Tx DB Response :=
  v ← verified body (ACCOUNT_PREFIX +:+ account_id +:+ "/orders") mode_kid now;
  account ← lift (account_of v);
  _ ← lift (own_account_or_403 account account_id);
  urls ← query (λ db, map_each (λ o, u ← url (ORDER_PREFIX +:+ ord_id o) db; mret (JStr u)) (orders_of account db));
  urls ← lift urls;
  mret (mkResponse 200 [("orders", JList urls)] None).
(** A dict against the stored JWK. *)
Definition quotes_jwk (v : json) (j : gmap string string) : bool :=
  match v with
  | JObj o => bool_decide (list_to_map (M := gmap string string) <$>
      mapM (λ '(k, v), match v with JStr s => Some (k, s) | _ => None end) o = Some j)
  | _ => false
  end.
Definition key_change (body : string) (now : Z) : Tx DB Response :=
  v ← verified body KEY_CHANGE_PATH mode_kid now;
  account ← lift (account_of v);
  here ← query (url KEY_CHANGE_PATH);
  here ← lift here;
  '(new_key, inner) ← lift (verify_embedded (match payload v with Some o => JObj o | None => JNull end) here);
  mine ← query (url (ACCOUNT_PREFIX +:+ acc_id account));
  mine ← lift mine;
  _ ← raise_if (negb (bool_decide (member "account" inner = JStr mine))) (acme_error malformed "the key change names a different account");
  _ ← raise_if (negb (quotes_jwk (member "oldKey" inner) (jwk_json account)))
        (acme_error malformed "the key change does not quote the current key");
  conflict ← query (find_account_by_key (thumbprint (base new_key)));
  _ ← match conflict with
      | Some other =>
          where_ ← query (url (ACCOUNT_PREFIX +:+ acc_id other));
          where_ ← lift where_;
          mthrow (acme_error_headers malformed "an account already exists for that key" 409 [("Location", where_)])
      | None => mret ()
      end;
  _ ← rotate_account_key account (base new_key);
  account_response 200 (with_key (jwk (base new_key)) (thumbprint (base new_key)) account) false.

(** ** Orders *)
Definition order_resource (order_id body : string) (now : Z) : Tx DB Response :=
  v ← verified body (ORDER_PREFIX +:+ order_id) mode_kid now;
  account ← lift (account_of v);
  row ← query (get_order order_id);
  order ← lift (owned_order account row);
  reply ← query (order_json order now);
  reply ← lift reply;
  mret (mkResponse 200 reply None).
Definition authz_resource (authz_id body : string) (now : Z) : Tx DB Response :=
  v ← verified body (AUTHZ_PREFIX +:+ authz_id) mode_kid now;
  authz ← query (get_authorization authz_id);
  authz ← lift (of_option authz (not_found "authorization"));
  account ← lift (account_of v);
  row ← query (get_order (authz_order authz));
  _ ← lift (owned_order account row);
  reply ← query (authz_json authz now);
  reply ← lift reply;
  mret (mkResponse 200 reply None).
(** The response, the [up] link, and whether a validation was scheduled. *)
Definition challenge_resource (challenge_id body : string) (now : Z) : Tx DB (Response * string * bool) :=
  v ← verified body (CHALLENGE_PREFIX +:+ challenge_id) mode_kid now;
  challenge ← query (get_challenge challenge_id);
  challenge ← lift (of_option challenge (not_found "challenge"));
  authz ← query (get_authorization (chall_authz challenge));
  authz ← lift (of_option authz (not_found "authorization"));
  account ← lift (account_of v);
  row ← query (get_order (authz_order authz));
  _ ← lift (owned_order account row);
  '(scheduled, challenge) ← (if bool_decide (is_Some (payload v)) then begin_challenge challenge authz now else mret (false, challenge));
  reply ← query (challenge_json challenge);
  reply ← lift reply;
  up ← query (url (AUTHZ_PREFIX +:+ authz_id authz));
  up ← lift up;
  mret (mkResponse 200 reply None, up, scheduled).

(** ** Finalization and revocation, from the request on *)
Context {D : DerLib} {DC : DerCerts}.
Definition finalize_route (others : DB → DB) (order_id body : string) (now : Z) (d : Draw) (created : Z) (from : option string) (logged : Z)
  : Tx DB (Response * option Z) :=
  v ← verified body (ORDER_PREFIX +:+ order_id +:+ "/finalize") mode_kid now;
  account ← lift (account_of v);
  '(order, retry) ← finalize_order others order_id account (payload v) now d created from logged;
  reply ← query (order_json order logged);
  reply ← lift reply;
  mret (mkResponse 200 reply None, retry).
Definition revoke_route (body : string) (now : Z) (from : option string) (logged : Z) : Tx DB unit :=
  mode ← lift (key_mode body);
  v ← verified body REVOKE_CERT_PATH mode now;
  revoke_cert v now from logged.
End http.

(** ** What the routes promise *)
Section theorems.
Context {X : X509Lib} {SS : SecretStore} {CR : Crypto} {J : Jose}.

Lemma url_ok path db u : url path db = Ok u ↔ ∃ b, get_setting BASE_URL db = Some b ∧ b ≠ "" ∧ u = b +:+ path.
Proof.
  unfold url, origin. destruct (get_setting BASE_URL db) as [b|]; [|by split; [done|intros (? & ? & _)]].
  destruct (decide (b = "")) as [->|Hb]; cbn; [split; [done|intros (? & [= <-] & ? & _); done]|].
  rewrite bool_decide_eq_false_2 by done. cbn. split; [intros [= <-]; by exists b|]. by intros (? & [= <-] & _ & ->).
Qed.
Lemma settled_verify body target mode prefix now : settled (verify_request body target mode prefix now).
Proof.
  intros db. unfold verify_request, consume, delete_nonces, fresh_session. wp_run; try done.
  all: destruct (decide _); wp_run; done.
Qed.
(** What follows the authentication of a request starts from its database less
    the nonce; a request that is not believed goes no further. *)
Lemma request_verified {B} body path mode now (f : VerifiedRequest → Tx DB B) db r db' :
  request (verified body path mode now ≫= f) db = (r, db') →
  (∃ b v j nonce, get_setting BASE_URL db = Some b ∧
     authentic db body (b +:+ path) mode (b +:+ ACCOUNT_PREFIX) j (vr_account v) (vr_key v) nonce ∧
     is_Some (nonces db !! nonce) ∧ payload_of_text (payload_b64 j) = Ok (payload v) ∧
     request (f v) (on_nonces (delete nonce) db) = (r, db')) ∨
  is_ok r = false ∧ (db' = db ∨ ∃ nonce, db' = on_nonces (delete nonce) db).
Proof.
  unfold verified. rewrite !request_assoc, request_query, request_assoc, request_lift.
  destruct (url path db) as [target|e] eqn:Hu; [|intros [= <- <-]; right; split; [done|by left]].
  rewrite request_assoc, request_query, request_assoc, request_lift.
  destruct (url ACCOUNT_PREFIX db) as [prefix|e] eqn:Hp; [|intros [= <- <-]; right; split; [done|by left]].
  apply url_ok in Hu as (b & Hb & Hne & ->). apply url_ok in Hp as (b' & Hb' & _ & ->). assert (b' = b) as -> by congruence.
  rewrite request_bind by apply settled_verify.
  destruct (request (verify_request _ _ _ _ _) db) as [r1 d1] eqn:Hv.
  pose proof (verify_request_ok _ _ _ _ _ _ _ _ Hv) as [Hok Hdb]. destruct r1 as [v|e].
  - intros Hf. left. destruct (proj1 (Hok v) eq_refl) as (j & nonce & t & Ha & Hn & _ & _ & Hpay).
    destruct Hdb as [[_ H]|(j' & account' & key' & nonce' & Ha' & _ & ->)]; [done|].
    exists b, v, j, nonce. assert (nonce' = nonce) as ->.
    { pose proof (au_body _ _ _ _ _ _ _ _ _ Ha) as H1. pose proof (au_body _ _ _ _ _ _ _ _ _ Ha') as H2.
      assert (j' = j) as -> by congruence. pose proof (proj1 (au_nonce _ _ _ _ _ _ _ _ _ Ha)). pose proof (proj1 (au_nonce _ _ _ _ _ _ _ _ _ Ha')). congruence. }
    by split_and!; [..|eexists| |].
  - intros [= <- <-]. right. split; [done|]. destruct Hdb as [[-> _]|(j' & account' & key' & nonce' & _ & _ & ->)]; [by left|right; by exists nonce'].
Qed.

(** The account a [kid] names is the row of the table with that id. *)
Lemma account_of_kid db body target prefix j account key nonce : accounts_ok db →
  authentic db body target mode_kid prefix j (Some account) key nonce →
  accounts db !! acc_id account = Some account ∧ acc_status account = acc_valid ∧ load_account_key (stored_jwk account) (alg key) = Ok key.
Proof.
  intros Hok Ha. destruct (au_key _ _ _ _ _ _ _ _ _ Ha) as (n & a & _ & _ & _ & Hf & Hst & [= <-] & Hl).
  split_and!; [|done|done]. apply first_where_some in Hf as [_ [k Hk]]. by destruct (acc_key _ Hok _ _ Hk) as [-> _].
Qed.
Lemma verify_embedded_ok document target key members : verify_embedded document target = Ok (key, members) →
  ∃ j, parse_document document = Ok j ∧ alg key ∈ ALLOWED_ALGORITHMS ∧ has "jwk" (protected j) = true ∧ has "kid" (protected j) = false ∧
    member "url" (protected j) = JStr target ∧ load_account_key (member "jwk" (protected j)) (alg key) = Ok key ∧ key_fits key ∧
    verify key (signing_input j) (signature j) = true ∧ payload_of_text (payload_b64 j) = Ok (Some members).
Proof.
  unfold verify_embedded. intros H. inv_tx. exists x. rewrite algorithm_ok in *.
  match goal with H : load_account_key _ _ = Ok key |- _ => pose proof (load_account_key_ok _ _ _ H) as (Halg & Hfits & _); subst end.
  subst.
  repeat match goal with H : negb _ = false |- _ => apply negb_false_iff in H | H : bool_decide _ = true |- _ => apply bool_decide_eq_true in H
    | H : _ || _ = false |- _ => apply orb_false_iff in H as [??] end.
  by destruct_and?; split_and!.
Qed.
Lemma request_rotate account key db : accounts db !! acc_id account = Some account →
  (∀ n a, accounts db !! n = Some a → jwk_thumbprint a ≠ thumbprint key) →
  request (rotate_account_key account key) db =
  (Ok (), on_accounts (λ m, <[acc_id account := with_key (jwk key) (thumbprint key) account]> m) db).
Proof.
  intros Hrow Hfree. unfold rotate_account_key, update_account.
  assert (Htaken : nonempty (rows_where (accounts db) (λ a,
    bool_decide (jwk_thumbprint a = thumbprint key) && negb (bool_decide (acc_id a = acc_id account)))) = false).
  { apply nonempty_false, rows_where_nil. intros n a Hn. by rewrite bool_decide_eq_false_2 by by apply (Hfree n). }
  unfold request, fresh_session. rewrite !Tx_bind_eq. unfold query at 1. cbn [work]. rewrite Htaken, andb_false_r.
  run_tx. rewrite Hrow. cbn. unfold close_session. cbn. f_equal. unfold on_accounts. f_equal. apply map_eq. intros n.
  destruct (decide (acc_id account = n)) as [<-|Hne].
  - rewrite lookup_alter_eq, lookup_insert_eq, Hrow. cbn. f_equal. unfold write_col. repeat case_decide; by try congruence.
  - by rewrite lookup_alter_ne, lookup_insert_ne.
Qed.
Lemma settled_rotate account key : settled (rotate_account_key account key).
Proof. intros db. unfold rotate_account_key, update_account, fresh_session. wp_run; done. Qed.
Lemma nonces_gone_accounts nonce db : accounts (on_nonces (delete nonce) db) = accounts db.
Proof. done. Qed.
(** The response is built after the change is committed; with a base URL it
    does not fail. *)
Lemma request_account_response c a wl b db : get_setting BASE_URL db = Some b → b ≠ "" →
  ∃ x, request (account_response c a wl) db = (Ok x, db) ∧ code x = c.
Proof.
  intros Hb Hne. assert (Hu : ∀ path, url path db = Ok (b +:+ path)) by (intros path; apply url_ok; by exists b).
  unfold account_response. rewrite request_query, request_lift. unfold account_json. rewrite Hu. cbn.
  rewrite request_query, request_lift, Hu. by eexists.
Qed.

(** A key change, as the database sees it: [account] gives up its key for [new]. *)
Definition rekeyed (account : AccountRow) (new : SigningKey) (nonce : string) (db : DB) : DB :=
  on_accounts (λ m, <[acc_id account := with_key (jwk (base new)) (thumbprint (base new)) account]> m) (on_nonces (delete nonce) db).

(** A key change needs both keys.  When the request is answered, the outer
    signature was made with the account's registered key, over this server's
    key-change URL; the inner one with the new key, over the same URL, and what
    it signs names this very account and quotes its present key; no account had
    the new key; and the database differs from before in the account's key and
    in the nonce.  When it is refused, no account changes. *)
Theorem key_change_exact body now db r db' : accounts_ok db → request (key_change body now) db = (r, db') →
  match r with
  | Ok _ => ∃ b j account key nonce p i new members,
      get_setting BASE_URL db = Some b ∧
      authentic db body (b +:+ KEY_CHANGE_PATH) mode_kid (b +:+ ACCOUNT_PREFIX) j (Some account) key nonce ∧
      accounts db !! acc_id account = Some account ∧
      payload_of_text (payload_b64 j) = Ok (Some p) ∧ parse_document (JObj p) = Ok i ∧
      member "url" (protected i) = JStr (b +:+ KEY_CHANGE_PATH) ∧ load_account_key (member "jwk" (protected i)) (alg new) = Ok new ∧
      verify new (signing_input i) (signature i) = true ∧ payload_of_text (payload_b64 i) = Ok (Some members) ∧
      member "account" members = JStr (b +:+ ACCOUNT_PREFIX +:+ acc_id account) ∧
      quotes_jwk (member "oldKey" members) (jwk_json account) = true ∧
      (∀ n a, accounts db !! n = Some a → jwk_thumbprint a ≠ thumbprint (base new)) ∧
      db' = rekeyed account new nonce db
  | Raise _ => accounts db' = accounts db
  end.
Proof.
  intros Hacc Hreq. unfold key_change in Hreq.
  apply request_verified in Hreq as [(b & v & j & nonce & Hb & Ha & _ & Hpay & Hreq)|[Hr Hdb]].
  2: { destruct r; [done|]. by destruct Hdb as [->|[nonce ->]]. }
  set (d1 := on_nonces (delete nonce) db) in *. revert Hreq.
  assert (Hsame : ∀ e, (Raise e, d1) = (r, db') → match r with Ok _ => False | Raise _ => accounts db' = accounts db end) by by intros e [= <- <-].
  rewrite request_lift. unfold account_of. destruct (vr_account v) as [account|] eqn:Hv; cbn [of_option]; [|intros H%Hsame; by destruct r].
  destruct (account_of_kid _ _ _ _ _ _ _ _ Hacc Ha) as (Hrow & _ & _).
  rewrite request_query, request_lift. destruct (url KEY_CHANGE_PATH d1) as [here|e] eqn:Hhere; [|intros H%Hsame; by destruct r].
  apply url_ok in Hhere as (b' & Hb' & Hne & ->). change (get_setting BASE_URL d1) with (get_setting BASE_URL db) in Hb'.
  assert (b' = b) as -> by congruence.
  rewrite request_lift. destruct (verify_embedded _ _) as [[new members]|e] eqn:Hemb; [|intros H%Hsame; by destruct r]. cbn beta iota.
  rewrite request_query, request_lift. destruct (url _ d1) as [mine|e] eqn:Hmine; [|intros H%Hsame; by destruct r].
  apply url_ok in Hmine as (b' & Hb'' & _ & ->). change (get_setting BASE_URL d1) with (get_setting BASE_URL db) in Hb''.
  assert (b' = b) as -> by congruence.
  rewrite request_raise_if. case_bool_decide as Hmine; cbn [negb]; [|intros H%Hsame; by destruct r].
  rewrite request_raise_if. destruct (quotes_jwk _ _) eqn:Hq; cbn [negb]; [|intros H%Hsame; by destruct r].
  rewrite request_query. destruct (find_account_by_key _ d1) as [other|] eqn:Hfind.
  { unfold request, query, lift, fresh_session. run_tx. destruct (url _ d1) as [?|?]; cbn; intros H%Hsame; by destruct r. }
  pose proof (proj1 (find_by_key_none _ d1) Hfind) as Hfree. change (accounts d1) with (accounts db) in Hfree.
  rewrite (request_bind (mret ())) by done. cbn [request mret Tx_ret fresh_session close_session durable].
  rewrite request_bind by apply settled_rotate. rewrite request_rotate by done.
  destruct (request_account_response 200 (with_key (jwk (base new)) (thumbprint (base new)) account) false b
    (rekeyed account new nonce db) Hb Hne) as (x & Hx & _). unfold rekeyed in Hx at 1. subst d1. rewrite Hx. intros [= <- <-].
  destruct (verify_embedded_ok _ _ _ _ Hemb) as (i & Hi & _ & _ & _ & Hurl & Hload & _ & Hver & Hpay').
  destruct (payload v) as [p|] eqn:Hp; [|done].
  exists b, j, account, (vr_key v), nonce, p, i, new, members. by split_and!.
Qed.

(** *** Registration *)
Lemma account_response_code c a wl db x db' : request (account_response c a wl) db = (Ok x, db') → db' = db ∧ code x = c.
Proof.
  intros H. refine (request_wp _ _ (λ r db', ∀ x, r = Ok x → db' = db ∧ code x = c) _ _ H _ x eq_refl).
  unfold account_response, fresh_session. wp_run; try done. by intros y [= <-].
Qed.
Lemma settled_register others key issuer cs tos draw now : settled (get_or_create_account others key issuer cs tos draw now).
Proof.
  intros db. unfold get_or_create_account, fresh_session. apply wp_bind, wp_query. cbn [work].
  destruct (find_account_by_key _ _) as [a|]; [by apply wp_ret|].
  apply wp_bind. unfold wp, others_commit. cbn [work durable].
  change (wp (conflict ← query (account_conflict (new_account key issuer cs tos (new_id draw) now));
    match conflict with
    | Some e => _ ← rollback; raced ← query (find_account_by_key (thumbprint key));
                match raced with None => mthrow e | Some account => mret (account, false) end
    | None => _ ← modify (on_accounts (λ m, <[acc_id (new_account key issuer cs tos (new_id draw) now) := new_account key issuer cs tos (new_id draw) now]> m));
              _ ← commit; mret (new_account key issuer cs tos (new_id draw) now, true)
    end) (mkSession (others db) (others db)) (λ _ s, work s = durable s)).
  wp_run; done.
Qed.
Lemma settled_record actor action e now : settled (record actor action e now).
Proof. intros db. apply wp_record. done. Qed.
Lemma settled_ret {A} (a : A) : settled (mret a : Tx DB A).
Proof. done. Qed.
Lemma settled_bind {A B} (m : Tx DB A) (f : A → Tx DB B) : settled m → (∀ a, settled (f a)) → settled (m ≫= f).
Proof.
  intros Hm Hf db. apply wp_bind. specialize (Hm db). unfold wp in *. destruct (m (fresh_session db)) as [[a|e] [w d]]; [|done].
  cbn in Hm. subst w. apply (Hf a d).
Qed.
Lemma settled_key row a now : settled (bind row a now).
Proof. intros db. unfold bind, fresh_session. wp_run; done. Qed.
Lemma settled_spend k account created now : settled (spend_binding k account created now).
Proof.
  intros db. unfold spend_binding. destruct (decide _); [done|]. apply wp_bind.
  assert (Hc : settled (catch (bind k (acc_id account) now) is_integrity_error (λ _, _ ← rollback; mthrow refused))).
  { intros d. pose proof (settled_key k (acc_id account) now d) as Hs. unfold wp, catch in *.
    destruct (bind k (acc_id account) now (fresh_session d)) as [[?|e] s]; [done|]. by destruct (is_integrity_error e). }
  specialize (Hc db). unfold wp in Hc |- *. destruct (catch _ _ _ _) as [[[[] k']|e] [w d]]; cbn in Hc |- *; [done| |done].
  subst w. change (wp (_ ← (if created then _ ← delete_account account; commit else mret ()); mthrow refused : Tx DB unit)
    (fresh_session d) (λ _ s, work s = durable s)).
  unfold delete_account, fresh_session. destruct created; wp_run; done.
Qed.
Lemma settled_reread binding created : settled (reread binding created).
Proof. intros db. unfold reread, fresh_session. destruct created, binding; wp_run; done. Qed.
Lemma request_reread {B} binding (f : option EabRow → Tx DB B) db : request (reread binding true ≫= f) db = request (f binding) db.
Proof. done. Qed.
(** A key presented at a registration that succeeds is spent on it. *)
Lemma spend_ok k account created now db db' : bound_account_id k = None →
  request (spend_binding k account created now) db = (Ok (), db') →
  ∃ k0, eab_keys db !! eab_id k = Some k0 ∧ is_usable k0 = true ∧
    db' = on_eab_keys (λ m, <[eab_id k := with_bound (acc_id account) (iso now) k0]> m) db.
Proof.
  intros Hk. unfold spend_binding. rewrite decide_False by congruence. rewrite request_bind.
  2: { intros d. pose proof (settled_key k (acc_id account) now d) as Hs. unfold wp, catch in *.
       destruct (bind k (acc_id account) now (fresh_session d)) as [[?|e] s]; [done|]. by destruct (is_integrity_error e). }
  assert (Hcatch : request (catch (bind k (acc_id account) now) is_integrity_error (λ _, _ ← rollback; mthrow refused)) db =
    match request (bind k (acc_id account) now) db with
    | (Raise e, d) => (Raise (if is_integrity_error e then refused else e), d) | p => p end).
  { unfold request, catch. destruct (bind _ _ _ _) as [[?|e] s]; [done|]. by destruct (is_integrity_error e). }
  rewrite Hcatch. destruct (request (bind k (acc_id account) now) db) as [r d] eqn:Hb.
  destruct (request_bind_key _ _ _ _ _ _ Hb) as [(k0 & Hk0 & Hu & _ & _ & -> & ->)|[-> Hno]].
  - cbn. intros [= <-]. by exists k0.
  - destruct r as [[[] k1]|e]; [by destruct (Hno k1)| |done].
    intros H. exfalso. revert H. cbn beta iota.
    enough (Hr : ∀ r d, request (_ ← (if created then _ ← delete_account account; commit else mret ()); mthrow refused : Tx DB unit) db = (r, d) → is_ok r = false)
      by (intros H; by apply Hr in H).
    intros r d H. refine (request_wp _ _ (λ r _, is_ok r = false) _ _ H _). unfold delete_account, fresh_session. destruct created; wp_run; done.
Qed.
Lemma verify_external_binding_ok p mac account_jwk : verify_external_binding p mac account_jwk = Ok () →
  hmac_sha256 mac (eab_signing_input p) = eab_signature p ∧
  ∃ members, payload_of_text (eab_payload p) = Ok (Some members) ∧ ∀ k v, account_jwk !! k = Some v → member k members = JStr v.
Proof.
  intros ([] & Hmac%raise_if_ok%negb_false_iff%bool_decide_eq_true & ([members|] & Hp & (m & [= <-] & Hall%raise_if_ok)%Outcome_bind_ok)%Outcome_bind_ok)%Outcome_bind_ok.
  split; [done|].
  exists members. split; [done|]. intros k v Hkv.
  destruct (decide (member k members = JStr v)) as [|Hne]; [done|]. exfalso. apply not_true_iff_false in Hall. apply Hall, existsb_exists.
  exists (k, v). split; [by apply list_elem_of_In, elem_of_map_to_list|by rewrite bool_decide_eq_false_2].
Qed.
(** A registration's binding: the key it names is issued for this issuer and
    still unspent, its MAC is over this server's URL and quotes the account's
    key. *)
Record vouched (db : DB) (b : string) (issuer_id : Z) (binding : json) (account_jwk : gmap string string) (k : EabRow) : Prop := {
  vo_binding : ∃ p, parse_external_binding binding (b +:+ new_account_path issuer_id) = Ok p ∧ eab_keys db !! eab_kid p = Some k ∧
    ∃ mac members, unseal_mac (hmac_sealed k) = Ok mac ∧ hmac_sha256 mac (eab_signing_input p) = eab_signature p ∧
      payload_of_text (eab_payload p) = Ok (Some members) ∧ ∀ n v, account_jwk !! n = Some v → member n members = JStr v;
  vo_usable : is_usable k = true;
  vo_issuer : eab_issuer k = issuer_id }.
Lemma verify_eab_ok binding u b account_jwk issuer_id db k : url (new_account_path issuer_id) db = Ok u →
  get_setting BASE_URL db = Some b → verify_eab binding u account_jwk issuer_id db = Ok k →
  vouched db b issuer_id binding account_jwk k.
Proof.
  intros (b' & Hb' & _ & ->)%url_ok Hb. assert (b' = b) as -> by congruence. unfold verify_eab. destruct binding; try done.
  intros (p & Hp & H)%Outcome_bind_ok. destruct (get_key _ db) as [row|] eqn:Hk; [|done].
  apply Outcome_bind_ok in H as ([] & Hu%raise_if_ok%negb_false_iff & H).
  apply Outcome_bind_ok in H as ([] & Hi%raise_if_ok%negb_false_iff%bool_decide_eq_true & H).
  apply Outcome_bind_ok in H as (mac & Hmac & H). apply Outcome_bind_ok in H as ([] & Hv & [= <-]).
  apply verify_external_binding_ok in Hv as (Hv & members & Hm & Hq). split; [|done|done].
  exists p. split_and!; [done|done|]. exists mac, members. split_and!; [|done..].
  unfold catch_pure in Hmac. destruct (unseal_mac _) as [?|e]; [done|]. by destruct (is_secrets_error e).
Qed.
Lemma external_account_ok v members issuer_id b db binding : get_setting BASE_URL db = Some b →
  external_account v members issuer_id db = Ok binding →
  match binding with
  | None => member "externalAccountBinding" members = JNull ∧ get_flag ACME_REQUIRE_EAB false db = false
  | Some k => vouched db b issuer_id (member "externalAccountBinding" members) (jwk (base (vr_key v))) k
  end.
Proof.
  intros Hb. unfold external_account.
  assert (Hgo : ∀ bj, (u ← url (new_account_path issuer_id) db; k ← verify_eab bj u (jwk (base (vr_key v))) issuer_id db; mret (Some k)) = Ok binding →
    ∃ k, binding = Some k ∧ vouched db b issuer_id bj (jwk (base (vr_key v))) k).
  { intros bj (u & Hu & (k & Hk & [= <-])%Outcome_bind_ok)%Outcome_bind_ok. exists k. split; [done|]. by eapply verify_eab_ok. }
  destruct (member _ members); [by intros ([] & Hf%raise_if_ok & [= <-])%Outcome_bind_ok|..]; by intros (k & -> & Hk)%Hgo.
Qed.

Lemma request_logged actor action e now db r db' : request (_ ← record actor action e now; mret () : Tx DB unit) db = (r, db') →
  accounts db' = accounts db ∧ eab_keys db' = eab_keys db.
Proof.
  intros H. refine (request_wp _ _ (λ _ db', accounts db' = accounts db ∧ eab_keys db' = eab_keys db) _ _ H _).
  apply wp_bind, wp_record. done.
Qed.

Lemma request_issuer {B} n h (f : CARow → Tx DB B) db : request (catch (get_ca n) is_unknown_issuer (λ e, mthrow (h e)) ≫= f) db =
  match cas db !! n with Some r => request (f r) db | None => (Raise (h (unknown_ca n)), db) end.
Proof. unfold request, fresh_session. rewrite Tx_bind_eq. unfold catch, get_ca. rewrite Tx_bind_eq. cbn. by destruct (cas db !! n). Qed.

(** The contacts of a request: the list it sends, or none where it sends
    none. *)
Definition contacts_asked (members : list (string * json)) (cs : option (list string)) : Prop :=
  match cs with
  | Some l => has "contact" members = true ∧ member "contact" members = JList (map JStr l) ∧
      Z.of_nat (length l) ≤ MAX_CONTACTS ∧ Forall contact_ok l
  | None => has "contact" members = false
  end.
Lemma contacts_parsed members cs :
  (if has "contact" members then cs ← parse_contacts (member "contact" members); mret (Some cs) else mret None) = Ok cs →
  contacts_asked members cs.
Proof.
  unfold contacts_asked. destruct (has _ _); [|by intros [= <-]]. intros (l & Hl & [= <-])%Outcome_bind_ok. by apply parse_contacts_exact in Hl.
Qed.

(** C13: registering needs the key, and somebody's leave when the server asks
    for it.  When a new-account request is answered with 201, it was signed with
    the key it carries, over this issuer's new-account URL; the issuer is an
    active intermediate; no account had the key; and the account stands, live,
    with that key and issuer and with what the request sent: its contacts, in
    its order, and whether it agrees to the terms.  Either it brought no external binding and the server does
    not ask for one, or the key its binding names was live, was minted for this
    issuer, signed this very key for this very URL, and is now spent on the
    account. *)
Theorem registration_needs_binding others issuer_id body draw t from db x db' :
  request (new_account_route others issuer_id body draw t from) db = (Ok x, db') → code x = 201 →
  ∃ b j key nonce members issuer cs account binding,
    cas db !! issuer_id = Some issuer ∧ ca_kind issuer = Intermediate ∧ ca_status issuer = Active ∧
    get_setting BASE_URL db = Some b ∧
    authentic db body (b +:+ new_account_path issuer_id) mode_jwk (b +:+ ACCOUNT_PREFIX) j None key nonce ∧
    payload_of_text (payload_b64 j) = Ok (Some members) ∧
    (∀ n a, accounts db !! n = Some a → jwk_thumbprint a ≠ thumbprint (base key)) ∧
    contacts_asked members cs ∧ account = new_account (base key) issuer_id cs (truthy (member "termsOfServiceAgreed" members)) (new_id draw) (c_made t) ∧
    accounts db' !! acc_id account = Some account ∧
    match binding with
    | None => member "externalAccountBinding" members = JNull ∧ get_flag ACME_REQUIRE_EAB false db = false
    | Some k => vouched db b issuer_id (member "externalAccountBinding" members) (jwk (base key)) k ∧
        ∃ k0, is_usable k0 = true ∧ eab_keys db' !! eab_id k = Some (with_bound (acc_id account) (iso (c_bound t)) k0)
    end.
Proof.
  intros Hreq Hcode. unfold new_account_route in Hreq.
  rewrite request_issuer in Hreq. destruct (cas db !! issuer_id) as [issuer|] eqn:Hissuer; [|done].
  rewrite request_raise_if in Hreq. case_bool_decide as Hkind; cbn [negb] in Hreq; [|done].
  apply request_verified in Hreq as [(b & v & j & nonce & Hb & Ha & _ & Hpay & Hreq)|[? _]]; [|done].
  set (d1 := on_nonces (delete nonce) db) in *.
  rewrite request_lift in Hreq. destruct (payload v) as [members|] eqn:Hmem; [|done]. cbn [of_option] in Hreq.
  rewrite request_query in Hreq. destruct (find_account_by_key _ d1) as [known|] eqn:Hfind.
  { exfalso. rewrite request_lift in Hreq. destruct (reject_unusable known); [|done].
    rewrite request_lift in Hreq. destruct (reject_other_issuer known issuer_id); [|done].
    apply account_response_code in Hreq as [_ Hc]. lia. }
  pose proof (proj1 (find_by_key_none _ d1) Hfind) as Hfree. change (accounts d1) with (accounts db) in Hfree.
  rewrite request_raise_if in Hreq. destruct (truthy _); [done|].
  rewrite request_raise_if in Hreq. case_bool_decide as Hact; cbn [negb] in Hreq; [|done].
  rewrite request_query, request_lift in Hreq. destruct (external_account v members issuer_id d1) as [binding|] eqn:Hext; [|done].
  apply (external_account_ok _ _ _ b) in Hext; [|done].
  assert (Hlive : ∀ k, binding = Some k → bound_account_id k = None).
  { intros k ->. pose proof (vo_usable _ _ _ _ _ _ Hext) as Hu. by apply andb_true_iff in Hu as [_ Hu%bool_decide_eq_true]. }
  rewrite request_lift in Hreq. destruct (if has "contact" members then _ else _) as [cs|] eqn:Hcs; [|done].
  apply contacts_parsed in Hcs.
  rewrite request_bind in Hreq by apply settled_register. rewrite request_register in Hreq. rewrite Hfind in Hreq.
  set (a0 := new_account _ _ _ _ _ _) in *.
  assert (Hsp : ∀ binding a c, settled (match binding with Some k => spend_binding k a c (c_bound t) | None => mret () : Tx DB unit end))
    by (intros bd a c; destruct bd; [apply settled_spend|done]).
  destruct (account_conflict a0 (others d1)) as [e|] eqn:Hc.
  { exfalso. destruct (find_account_by_key _ (others d1)) as [raced|]; [|done].
    rewrite request_bind in Hreq by apply settled_reread. destruct (request (reread _ _) _) as [[bd|?] d2]; [|done].
    rewrite request_bind in Hreq by apply Hsp.
    destruct (request _ d2) as [[?|?] d3]; [|done]. by apply account_response_code in Hreq as [_ Hc']; lia. }
  rewrite request_reread in Hreq. rewrite request_bind in Hreq by apply Hsp.
  set (d2 := on_accounts _ (others d1)) in *.
  destruct (request _ d2) as [[[]|?] d3] eqn:Hspend; [|done].
  rewrite request_bind in Hreq. 2: { apply settled_bind; [apply settled_record|done]. }
  destruct (request _ d3) as [[[]|?] d4] eqn:Hrec; [|done]. apply request_logged in Hrec as [Hacc4 Heab4].
  apply account_response_code in Hreq as [-> _].
  exists b, j, (vr_key v), nonce, members, issuer, cs, a0, binding.
  assert (Hd3 : accounts d3 = accounts d2) by (destruct binding; [by destruct (spend_ok _ _ _ _ _ _ (Hlive _ eq_refl) Hspend) as (? & _ & _ & ->)|by injection Hspend as <-]).
  assert (Hnone : vr_account v = None) by apply (au_key _ _ _ _ _ _ _ _ _ Ha). rewrite Hnone in Ha.
  split_and!; [done..| |].
  { rewrite Hacc4, Hd3. subst d2. apply lookup_insert_eq. }
  destruct binding as [k|]; [|done]. destruct (spend_ok _ _ _ _ _ _ (Hlive _ eq_refl) Hspend) as (k0 & _ & Hu & ->).
  split; [by destruct Hext|]. exists k0. split; [done|]. rewrite Heab4. apply lookup_insert_eq.
Qed.
End theorems.

(** ** One key registers, and gives way to another *)
Module AcmeApiExamples.
#[local] Existing Instance Toy.lib.
#[local] Existing Instance toy_secrets.
#[local] Existing Instance toy_crypto.
Import Toy CaExamples AcmeExamples JwsExamples.
#[local] Strategy 1000 [one_root two_cas two_roots crossed acme_db after request].

(** An operator's key for issuer 2, and the binding it signs for "raw key". *)
Definition raw_jwk : json := JObj [("crv", JStr "Ed25519"); ("kty", JStr "OKP"); ("x", JStr (b64encode "raw key"))].
Definition binding_input : string := b64encode "the binding header" +:+ "." +:+ b64encode "the account key".
Definition binding : json := JObj [("protected", JStr (b64encode "the binding header")); ("payload", JStr (b64encode "the account key"));
  ("signature", JStr (b64encode ("mac:" +:+ binding_input)))].
(** The key change, signed by "raw key" around what "new key" signed. *)
Definition here : string := "https://ca.lan/acme/key-change".
Definition outer_input : string := b64encode "the outer header" +:+ "." +:+ b64encode "the inner request".
Definition inner_input : string := b64encode "the inner header" +:+ "." +:+ b64encode "the change".
Definition inner_jws : json := JObj [("protected", JStr (b64encode "the inner header")); ("payload", JStr (b64encode "the change"));
  ("signature", JStr (b64encode ("new key:" +:+ inner_input)))].
Definition api_jose : Jose := jose_reading [
  ("the header", header);
  ("the payload", JObj [("termsOfServiceAgreed", JBool true); ("externalAccountBinding", binding)]);
  ("the body", body_of ("raw key:" +:+ signed));
  ("the binding header", JObj [("alg", JStr "HS256"); ("kid", JStr "token-500"); ("url", JStr url)]);
  ("the account key", raw_jwk);
  ("the key change", JObj [("protected", JStr (b64encode "the outer header")); ("payload", JStr (b64encode "the inner request"));
     ("signature", JStr (b64encode ("raw key:" +:+ outer_input)))]);
  ("the outer header", JObj [("alg", JStr "EdDSA"); ("kid", JStr "https://ca.lan/acme/account/token-900"); ("nonce", JStr "n2"); ("url", JStr here)]);
  ("the inner request", inner_jws);
  ("the inner header", JObj [("alg", JStr "EdDSA"); ("jwk", JObj [("kty", JStr "OKP"); ("crv", JStr "Ed25519"); ("x", JStr (b64encode "new key"))]); ("url", JStr here)]);
  ("the change", JObj [("account", JStr "https://ca.lan/acme/account/token-900"); ("oldKey", raw_jwk)])].
#[local] Existing Instance api_jose.

(** The server asks for a binding; its operator has minted one. *)
Definition asking : DB := on_settings (λ m, <[BASE_URL := "https://ca.lan"]> (<[ACME_REQUIRE_EAB := "true"]> m))
  (on_nonces (λ m, <["n2" := iso t2026]> (<["n1" := iso t2026]> m)) (eab_run (Mint "laptop" 2 "mac:" 500 7 t2026) two_roots)).
Definition clock : Clock := mkClock t2026 t2026 t2026 t2026.
Definition sign_up : Tx DB Response := new_account_route id 2 "the body" 900 clock None.
Definition replace_key : Tx DB Response := key_change "the key change" t2026.
Definition signed_up : DB := after sign_up asking.
#[local] Strategy 1000 [asking signed_up sign_up replace_key].
Definition code_of (r : Outcome Response) : Z := match r with Ok x => code x | Raise _ => 0 end.
Lemma code_ok m (db : DB) c : c ≠ 0 → code_of (fst (request m db)) = c → ∃ x, request m db = (Ok x, after m db) ∧ code x = c.
Proof. unfold after. intros Hc. destruct (request m db) as [[x|e] d]; cbn; [|congruence]. intros Hx. by exists x. Qed.
Lemma sign_up_code : code_of (fst (request sign_up asking)) = 201.
Proof. vm_compute. reflexivity. Qed.
Lemma replace_key_code : code_of (fst (request replace_key signed_up)) = 200.
Proof. vm_compute. reflexivity. Qed.
(** Without the binding the server asks for. *)
Example no_binding_no_account : raised (fst (request (new_account_route (J:=toy_jose) id 2 "the body" 900 clock None) asking)) =
  Some (AcmeError "externalAccountRequired" "this server requires an external account binding: ask its operator for a key identifier and HMAC key" 403 [] []).
Proof. vm_compute. reflexivity. Qed.
Lemma registration_needs_binding_witness : code_of (fst (request sign_up asking)) = 201 ∧
  ∃ account k k0, accounts signed_up !! acc_id account = Some account ∧ is_usable k0 = true ∧
    eab_keys signed_up !! eab_id k = Some (with_bound (acc_id account) (iso t2026) k0).
Proof.
  split; [exact sign_up_code|]. destruct (code_ok sign_up asking 201 ltac:(discriminate) sign_up_code) as (x & Hx & Hc).
  destruct (registration_needs_binding (X:=lib) (SS:=toy_secrets) (CR:=toy_crypto) (J:=api_jose) _ _ _ _ _ _ _ _ _ Hx Hc)
    as (b & j & key & nonce & members & issuer & cs & account & bound & _ & _ & _ & _ & _ & _ & _ & _ & _ & Hacc & Hb).
  destruct bound as [k|].
  - destruct Hb as (_ & k0 & Hu & Hk). exists account, k, k0. split; [exact Hacc|]. split; [exact Hu|exact Hk].
  - exfalso. destruct Hb as [_ Hf]. revert Hf. vm_compute. discriminate.
Defined.
Lemma signed_up_ok : accounts_ok signed_up.
Proof.
  assert (H : map_Forall (λ n a, n = "token-900" ∧ acc_id a = "token-900" ∧ kid_hash a = kid_hash_of "token-900") (accounts signed_up)) by by_decide.
  split.
  - intros n a Hn. destruct (H _ _ Hn) as (-> & H1 & H2). by split.
  - intros n m a c Hn Hm _. destruct (H _ _ Hn) as (-> & _). by destruct (H _ _ Hm) as (-> & _).
Qed.
Lemma key_change_exact_witness : code_of (fst (request replace_key signed_up)) = 200 ∧
  ∃ account new nonce, accounts signed_up !! acc_id account = Some account ∧
    after replace_key signed_up = rekeyed account new nonce signed_up.
Proof.
  split; [exact replace_key_code|]. destruct (code_ok replace_key signed_up 200 ltac:(discriminate) replace_key_code) as (x & Hx & _).
  destruct (key_change_exact (X:=lib) (SS:=toy_secrets) (CR:=toy_crypto) (J:=api_jose) _ _ _ _ _ signed_up_ok Hx)
    as (b & j & account & key & nonce & p & i & new & members & _ & _ & Hrow & _ & _ & _ & _ & _ & _ & _ & _ & _ & Hdb).
  exists account, new, nonce. split; [exact Hrow|exact Hdb].
Defined.
End AcmeApiExamples.

(** A digit that is not an ASCII one passes [isdigit] and stops [int]. *)
Example superscript_issuer : raised (issuer_in_path (CA_PREFIX +:+ String (ascii_of_nat 178) "/directory")) =
  Some (ValueError ("invalid literal for int() with base 10: " +:+ py_repr (String (ascii_of_nat 178) ""))).
Proof. vm_compute. reflexivity. Qed.
