(* ===== verification/WebDeps.v ===== *)
(** * [cabin.web.deps] and [cabin.web.api_deps]: who is asking

    The guards of the two human and machine front doors.  The UI knows its
    user by a session cookie and protects every change with the session's
    CSRF token; the REST API knows a token by its bearer secret.  A failed
    guard is an [AuthRedirect] or an [HTTPException].  Cookies, forms and the
    [Authorization] header are the framework's: what it found is an
    argument. *)

From S2P Require Import Prelude PyStr PyTime X509Lib Store Settings CaService Grants Identity AuditLog.
#[local] Open Scope Z_scope.

Definition ADMIN_ROLES : list Role := [admin; superadmin].
Definition MAX_IP_LENGTH : nat := 45.
Definition TRUST_PROXY : string := "trust_proxy".

Section deps.
Context {X : X509Lib} {SS : SecretStore} {CR : Crypto}.

(** ** The UI *)
Definition redirect_if_no_users : Tx DB unit :=
  n ← query count_users;
  raise_if (bool_decide (n = 0%nat)) (AuthRedirect "/setup").
(** The user, the session as it is now, and whether its cookie is issued
    again. *)
Definition get_current_user (cookie : option string) (now : Z) : Tx DB (UserRow * SessionRow * bool) :=
  _ ← redirect_if_no_users;
  found ← query (λ db, match cookie with
                       | Some token => if decide (token = "") then None else get_session token now db
                       | None => None end);
  row ← lift (of_option found (AuthRedirect "/login"));
  owner ← query (λ db, users db !! session_user row);
  user ← lift (of_option owner (AuthRedirect "/login"));
  touched ← touch_session row now;
  mret (user, if (touched : bool) then with_expires (now + SESSION_LIFETIME) row else row, touched).
(** [X-Forwarded-For], absent as the empty text, and the peer's address. *)
Definition client_ip (forwarded : string) (client : option string) (db : DB) : option string :=
  let first := strip (default "" (head (split "," forwarded))) in
  if get_flag TRUST_PROXY false db && negb (bool_decide (first = "")) then Some (str_take MAX_IP_LENGTH first) else client.
Definition require_role (roles : list Role) (user : UserRow) : Outcome UserRow :=
  _ ← raise_if (bool_decide (user_role user ∉ roles)) (HTTPException 403 "forbidden for this role" []);
  mret user.
Definition require_admin : UserRow → Outcome UserRow := require_role ADMIN_ROLES.
Definition require_superadmin : UserRow → Outcome UserRow := require_role [superadmin].
Definition current_principal (user : UserRow) : Outcome Principal := u ← require_admin user; mret (user_principal u).
Definition verify_csrf (csrf : option string) (session_row : SessionRow) : Outcome unit :=
  raise_if (negb (bool_decide (csrf = Some (csrf_token session_row)))) (HTTPException 403 "csrf token mismatch" []).
Definition certificate_or_404 (cert : option CertRow) : Outcome CertRow :=
  of_option cert (HTTPException 404 "no such certificate" []).
(** The menu entries a role is offered. *)
Record Nav := mkNav { nav_issue : bool; nav_ca_admin : bool; nav_ca_key : bool; nav_settings : bool; nav_acme : bool; nav_tokens : bool }.
Definition nav (role : Role) : Nav :=
  let adm := bool_decide (role ∈ ADMIN_ROLES) in
  let sup := bool_decide (role = superadmin) in
  mkNav adm adm sup adm adm sup.

(** The dependencies of a form that changes something, and of the forms an
    admin may send. *)
Definition ui_guard (check : UserRow → Outcome UserRow) (cookie csrf : option string) (now : Z) : Tx DB (UserRow * SessionRow) :=
  '(user, session_row, _) ← get_current_user cookie now;
  user ← lift (check user);
  _ ← lift (verify_csrf csrf session_row);
  mret (user, session_row).
Definition ui_write : option string → option string → Z → Tx DB (UserRow * SessionRow) := ui_guard require_admin.

(** ** The REST API *)
Definition unauthenticated : Exc :=
  HTTPException 401 "a valid API token is required: Authorization: Bearer <token>" [("WWW-Authenticate", "Bearer")].
Definition api_forbidden : Exc := HTTPException 403 "this token's role is not allowed to use this endpoint" [].
(** [credentials]: what [HTTPBearer] found. *)
Definition require_api_role (roles : list Role) (credentials : option string) (now : Z) : Tx DB TokenRow :=
  secret ← lift (of_option credentials unauthenticated);
  _ ← raise_if (bool_decide (secret = "")) unauthenticated;
  found ← verify_token secret now;
  token ← lift (of_option found unauthenticated);
  _ ← raise_if (bool_decide (token_role token ∉ roles)) api_forbidden;
  mret token.
Definition require_api_read : option string → Z → Tx DB TokenRow := require_api_role (viewer :: ADMIN_ROLES).
Definition require_api_write : option string → Z → Tx DB TokenRow := require_api_role ADMIN_ROLES.
Definition api_write_principal (credentials : option string) (now : Z) : Tx DB Principal :=
  token ← require_api_write credentials now;
  mret (token_principal token).

(** ** Correctness *)
Lemma require_role_ok roles u v : require_role roles u = Ok v ↔ v = u ∧ user_role u ∈ roles.
Proof.
  unfold require_role. destruct (decide (user_role u ∈ roles)) as [H|H].
  - rewrite bool_decide_eq_false_2 by (intros Hn; exact (Hn H)). cbn. split; [by intros [= ->]|by intros [-> _]].
  - rewrite bool_decide_eq_true_2 by done. cbn. by split; [|intros [_ ?]].
Qed.
Lemma verify_csrf_ok csrf row u : verify_csrf csrf row = Ok u ↔ csrf = Some (csrf_token row).
Proof. unfold verify_csrf. rewrite raise_if_ok, negb_false_iff. apply bool_decide_eq_true. Qed.
Lemma require_role_raised roles u e :
  require_role roles u = Raise e ↔ (user_role u ∉ roles) ∧ e = HTTPException 403 "forbidden for this role" [].
Proof.
  unfold require_role. destruct (decide (user_role u ∈ roles)) as [H|H].
  - rewrite bool_decide_eq_false_2 by (intros Hn; exact (Hn H)). cbn. by split; [|intros [? _]].
  - rewrite bool_decide_eq_true_2 by done. cbn. split; [by intros [= <-]|by intros [_ ->]].
Qed.
Lemma verify_csrf_raised csrf row e :
  verify_csrf csrf row = Raise e ↔ csrf ≠ Some (csrf_token row) ∧ e = HTTPException 403 "csrf token mismatch" [].
Proof. unfold verify_csrf. case_bool_decide; cbn; (split; [by intros [= <-]|by intros [? ->]]). Qed.
Lemma not_admin role : role ∉ ADMIN_ROLES ↔ role = viewer.
Proof. split; [|intros ->; by_decide]. destruct role; try done; intros H; exfalso; apply H; by_decide. Qed.

(** [cookie] opens the session [row] of [user]. *)
Definition opens (cookie : option string) (now : Z) (db : DB) (user : UserRow) (row : SessionRow) : Prop :=
  ∃ token, cookie = Some token ∧ token ≠ "" ∧ get_session token now db = Some row ∧ users db !! session_user row = Some user.
(** What a request with this session leaves: its expiry moves on once less
    than [REFRESH_WINDOW] is left, and nothing else changes. *)
Definition seen (now : Z) (row : SessionRow) (db : DB) : DB :=
  if session_expires row - now <? REFRESH_WINDOW
  then on_sessions (alter (with_expires (now + SESSION_LIFETIME)) (session_hash row)) db else db.
Definition seen_row (now : Z) (row : SessionRow) : SessionRow :=
  if session_expires row - now <? REFRESH_WINDOW then with_expires (now + SESSION_LIFETIME) row else row.

Lemma touch_session_wp row now db : is_Some (sessions db !! session_hash row) →
  wp (touch_session row now) (fresh_session db)
    (λ r s, s = fresh_session (seen now row db) ∧ r = Ok (session_expires row - now <? REFRESH_WINDOW)).
Proof.
  intros [r Hr]. unfold touch_session, update_session, seen, wp, fresh_session. destruct (_ <? _); [|done].
  run_tx. by rewrite Hr.
Qed.
Lemma get_session_stored token now db row : identity_ok db → get_session token now db = Some row →
  sessions db !! session_hash row = Some row.
Proof.
  unfold get_session. intros Hdb. destruct (sessions db !! _) as [r|] eqn:E; [|done].
  destruct (_ <? _); [done|]. intros [= ->]. by rewrite (session_keys _ Hdb _ _ E).
Qed.

Definition login_verdict (cookie : option string) (now : Z) (db : DB)
    (r : Outcome (UserRow * SessionRow * bool)) (db' : DB) : Prop :=
  match r with
  | Ok (user, row', touched) => ∃ row, opens cookie now db user row ∧ row' = seen_row now row ∧ db' = seen now row db ∧
      touched = (session_expires row - now <? REFRESH_WINDOW)
  | Raise e => db' = db ∧ (∀ user row, ¬ opens cookie now db user row) ∧
      e = AuthRedirect (if decide (users db = ∅) then "/setup" else "/login")
  end.
Lemma get_current_user_wp cookie now db : identity_ok db →
  wp (get_current_user cookie now) (fresh_session db)
    (λ r s, s = fresh_session (durable s) ∧ login_verdict cookie now db r (durable s)).
Proof.
  intros Hdb. unfold get_current_user, redirect_if_no_users, fresh_session. wp_run; guards; options;
    unfold count_users in *.
  - split; [done|]. assert (users db = ∅) as He by (by apply map_size_empty_iff).
    cbn. split_and!; [done| |by rewrite decide_True]. intros user row (t & _ & _ & _ & Hu). by rewrite He, lookup_empty in Hu.
  - destruct cookie as [token|]; [|done]. destruct (decide _) as [|Ht]; [done|].
    eapply wp_mono; [eapply touch_session_wp; eexists; by eapply get_session_stored|].
    intros r s [-> ->]. wp_run. split; [done|]. exists a. split_and!; [|done..]. by exists token.
  - exfalso. destruct cookie as [token|]; [|done]. destruct (decide _) as [|Ht]; [done|].
    destruct (session_owners _ Hdb _ _ (get_session_stored _ _ _ _ Hdb H0)) as [u Hu]. congruence.
  - split; [done|]. cbn. split_and!; [done| |].
    + intros user row (token & -> & Ht & Hs & Hu). rewrite decide_False in H0 by done. congruence.
    + rewrite decide_False; [done|]. by rewrite <- map_size_empty_iff.
Qed.

(** How a guarded form is refused, and what that leaves. *)
Definition form_refused (roles : list Role) (cookie csrf : option string) (now : Z) (db : DB) (e : Exc) (db' : DB) : Prop :=
  (db' = db ∧ (∀ user row, ¬ opens cookie now db user row) ∧
    e = AuthRedirect (if decide (users db = ∅) then "/setup" else "/login")) ∨
  ∃ user row, opens cookie now db user row ∧ db' = seen now row db ∧
    (((user_role user ∉ roles) ∧ e = HTTPException 403 "forbidden for this role" []) ∨
     (user_role user ∈ roles ∧ csrf ≠ Some (csrf_token row) ∧ e = HTTPException 403 "csrf token mismatch" [])).
Lemma seen_row_csrf now row : csrf_token (seen_row now row) = csrf_token row.
Proof. unfold seen_row. by destruct (_ <? _). Qed.
Lemma wp_ui_guard roles cookie csrf now db (Q : Outcome (UserRow * SessionRow) → Session DB → Prop) : identity_ok db →
  (∀ user row, opens cookie now db user row → user_role user ∈ roles → csrf = Some (csrf_token row) →
     Q (Ok (user, seen_row now row)) (fresh_session (seen now row db))) →
  (∀ e d, form_refused roles cookie csrf now db e d → Q (Raise e) (fresh_session d)) →
  wp (ui_guard (require_role roles) cookie csrf now) (fresh_session db) Q.
Proof.
  intros Hdb Hok Hno. unfold ui_guard. apply wp_bind. eapply wp_mono; [by apply get_current_user_wp|].
  intros [[[user row'] touched]|e] s [-> Hv]; cbn in Hv; [|by apply Hno; left].
  destruct Hv as (row & Ho & -> & -> & ->). wp_run.
  - apply require_role_ok in H as [-> Hr]. apply verify_csrf_ok in H0. rewrite seen_row_csrf in H0. auto.
  - apply require_role_ok in H as [-> Hr]. apply verify_csrf_raised in H0 as [H0 ->]. rewrite seen_row_csrf in H0.
    apply Hno. right. exists user, row. split_and!; [done..|]. by right.
  - apply require_role_raised in H as [Hr ->]. apply Hno. right. exists user, row. split_and!; [done..|]. by left.
Qed.

(** A form that changes something reaches its handler exactly when the
    cookie opens an unexpired session, the user of that session is an admin
    or superadmin, and the form carries the token of that very session.  It
    is refused otherwise, as the code says why, and the most the guard leaves
    behind is the moved expiry of the session the request came with. *)
Theorem ui_write_exact cookie csrf now db : identity_ok db →
  match request (ui_write cookie csrf now) db with
  | (Ok (user, row'), db') => ∃ row, opens cookie now db user row ∧ user_role user ∈ ADMIN_ROLES ∧
      csrf = Some (csrf_token row) ∧ row' = seen_row now row ∧ db' = seen now row db
  | (Raise e, db') =>
      (db' = db ∧ (∀ user row, ¬ opens cookie now db user row) ∧
        e = AuthRedirect (if decide (users db = ∅) then "/setup" else "/login")) ∨
      ∃ user row, opens cookie now db user row ∧ db' = seen now row db ∧
        ((user_role user = viewer ∧ e = HTTPException 403 "forbidden for this role" []) ∨
         (user_role user ∈ ADMIN_ROLES ∧ csrf ≠ Some (csrf_token row) ∧ e = HTTPException 403 "csrf token mismatch" []))
  end.
Proof.
  intros Hdb. apply (request_post _ _ (λ p, match p with (r, db') => _ end)).
  apply wp_ui_guard; [done|..].
  - intros user row Ho Hr Hc. by exists row.
  - intros e d. unfold form_refused. by setoid_rewrite not_admin.
Qed.

(** [secret] is the secret of the live token [row]. *)
Definition presents (credentials : option string) (now : Z) (db : DB) (row : TokenRow) : Prop :=
  ∃ secret, credentials = Some secret ∧ secret ≠ "" ∧ tokens db !! token_id row = Some row ∧
    token_hash row = hash_secret secret ∧ token_status row now = "active".
(** The last use is noted, at most once in 60 seconds. *)
Definition used (now : Z) (row : TokenRow) (db db' : DB) : Prop :=
  db' = db ∨ db' = on_tokens (λ m, <[token_id row := with_last_used now row]> m) db.

(** The token a route works with: the row, or the row with its use noted. *)
Record token_of (token row : TokenRow) : Prop := {
  of_role : token_role token = token_role row;
  of_principal : token_principal token = token_principal row;
  of_actor : token_actor token = token_actor row }.
Lemma wp_require_api_role roles credentials now db (Q : Outcome TokenRow → Session DB → Prop) : identity_ok db →
  (∀ token row d, presents credentials now db row → token_of token row → token_role row ∈ roles → used now row db d →
     Q (Ok token) (fresh_session d)) →
  ((∀ row, ¬ presents credentials now db row) → Q (Raise unauthenticated) (fresh_session db)) →
  (∀ row d, presents credentials now db row → (token_role row ∉ roles) → used now row db d → Q (Raise api_forbidden) (fresh_session d)) →
  wp (require_api_role roles credentials now) (fresh_session db) Q.
Proof.
  intros Hdb Hok Hno Hforb. unfold require_api_role. wp_run; options.
  - apply bool_decide_eq_true in H0 as ->. apply Hno. intros row (x & Hx & Hne & _). congruence.
  - rename a into secret. apply bool_decide_eq_false in H0. eapply wp_mono; [by apply verify_token_wp|].
    intros [[row'|]|e] s [-> Hv]; cbn in Hv; [|destruct Hv as [Hd Hnone]|done].
    + destruct Hv as (_ & row & Hi & Hh & Ha & Hw).
      assert (Hr : token_of row' row ∧ used now row db (durable s)).
      { destruct Hw as [(-> & -> & _)|(-> & -> & _)]; (split; [done|]); [by left|by right]. }
      destruct Hr as (Hr & Hu). assert (Hpr : presents credentials now db row) by (by exists secret).
      wp_run; options; try discriminate.
      all: match goal with E : Some _ = Some _ |- _ => injection E as <- end.
      * apply bool_decide_eq_true in H2. rewrite (of_role _ _ Hr) in H2. by eapply Hforb.
      * apply bool_decide_eq_false, dec_stable in H2. rewrite (of_role _ _ Hr) in H2. by eapply Hok.
    + rewrite Hd. wp_run; options; [discriminate..|]. apply Hno.
      intros row (x & Hx & Hne & Hi & Hh & Ha). assert (x = secret) as -> by congruence. destruct Hnone as [|Hnone]; [done|]. by eapply Hnone.
  - apply Hno. intros row (x & Hx & _). congruence.
Qed.

(** A request of the REST API that changes something acts as exactly the
    live token whose secret it presents, in that token's admin or superadmin
    role.  No credentials, an unknown secret, a revoked and an expired token
    are one and the same 401 and change nothing; a viewer's token is a 403;
    and the most any of them leaves behind is the note of a live token's last
    use. *)
Theorem api_write_exact credentials now db : identity_ok db →
  match request (api_write_principal credentials now) db with
  | (Ok p, db') => ∃ row, presents credentials now db row ∧ token_role row ∈ ADMIN_ROLES ∧
      p = token_principal row ∧ used now row db db'
  | (Raise e, db') =>
      (e = unauthenticated ∧ db' = db ∧ ∀ row, ¬ presents credentials now db row) ∨
      (e = api_forbidden ∧ ∃ row, presents credentials now db row ∧ token_role row = viewer ∧ used now row db db')
  end.
Proof.
  intros Hdb. apply (request_post _ _ (λ p, match p with (r, db') => _ end)). unfold api_write_principal, require_api_write.
  apply wp_bind, wp_require_api_role; [done|..].
  - intros token row d Hp Ht Hr Hu. apply wp_ret. exists row. by rewrite <- (of_principal _ _ Ht).
  - intros Hno. left. by split_and!.
  - intros row d Hp Hr%not_admin Hu. right. split; [done|]. by exists row.
Qed.
End deps.

(** ** The guards at work *)
Module DepsExamples.
#[local] Existing Instance Toy.lib.
#[local] Existing Instance toy_secrets.
#[local] Existing Instance toy_crypto.
Import Toy CaExamples IdentityExamples.
Definition root_user : UserRow := mkUser 1 "root" "" superadmin t2026.
Definition root_logged_in : DB := after (create_session root_user 7 8 t2026) viewer_made.
Lemma root_logged_in_ok : identity_ok root_logged_in.
Proof. exact (request_keeps identity_ok _ _ (proj1 session_ops_keep _ _ _ _) (proj2 viewer_made_ok)). Qed.
Definition guarded (csrf : option string) (now : Z) : Outcome (UserRow * SessionRow) * DB :=
  request (ui_write (Some "token-7") csrf now) root_logged_in.

(** The form token of another session is a 403; an hour and a minute after
    the login, a request with the right one also extends the session. *)
Lemma ui_write_exact_witness :
  raised (fst (guarded (Some "token-9") t2026)) = Some (HTTPException 403 "csrf token mismatch" []) ∧
  is_ok (fst (guarded (Some "token-8") (t2026 + hours 1 + seconds 60))) = true ∧
  raised (fst (guarded (Some "token-8") (t2026 + hours 24 + 1))) = Some (AuthRedirect "/login") ∧
  ∃ user row, fst (guarded (Some "token-8") (t2026 + hours 1 + seconds 60)) = Ok (user, row) ∧ user_role user ∈ ADMIN_ROLES.
Proof.
  split_and!; [vm_compute; reflexivity..|].
  assert (H : is_ok (fst (guarded (Some "token-8") (t2026 + hours 1 + seconds 60))) = true) by (vm_compute; reflexivity).
  pose proof (ui_write_exact (X:=lib) (SS:=toy_secrets) (CR:=toy_crypto) (Some "token-7") (Some "token-8")
    (t2026 + hours 1 + seconds 60) root_logged_in root_logged_in_ok) as Hx.
  unfold guarded in *. destruct (request _ _) as [[[user row]|e] db']; [|discriminate H].
  destruct Hx as (r & _ & Hr & _). exists user, row. split; [reflexivity|exact Hr].
Defined.

(** Eve's script may look and not touch. *)
Lemma api_write_exact_witness :
  raised (fst (request (api_write_principal (Some "cabin_token-9") (t2026 + days 1)) minted)) = Some api_forbidden ∧
  raised (fst (request (api_write_principal (Some "cabin_token-9") (t2026 + days 30)) minted)) = Some unauthenticated ∧
  ∃ row, presents (Some "cabin_token-9") (t2026 + days 1) minted row ∧ token_role row = viewer.
Proof.
  split_and!; [vm_compute; reflexivity..|].
  assert (H : raised (fst (request (api_write_principal (Some "cabin_token-9") (t2026 + days 1)) minted)) = Some api_forbidden)
    by (vm_compute; reflexivity).
  pose proof (api_write_exact (X:=lib) (SS:=toy_secrets) (CR:=toy_crypto) (Some "cabin_token-9")
    (t2026 + days 1) minted minted_ok) as Hx.
  destruct (request _ _) as [[p|e] db']; [discriminate H|]. injection H as ->.
  destruct Hx as [(Hx & _)|(_ & row & Hp & Hr & _)]; [discriminate Hx|]. exists row. split; [exact Hp|exact Hr].
Defined.
(** Believing the forwarding header is off until it is turned on. *)
Example header_not_believed : client_ip "203.0.113.9, 10.0.0.1" (Some "10.0.0.1") viewer_made = Some "10.0.0.1".
Proof. vm_compute. reflexivity. Qed.
End DepsExamples.
