(* ===== verification/WebUi.v ===== *)
(** * [cabin.web.ui]: first-run setup, login and the people who may sign in

    The form posts of [web/ui.py], each the whole handler: its guard, the
    domain operations, the event it logs, the message it leaves for the next
    page and the page or redirect it answers with; and the users page with the
    grants it shows.  Reading a form into its fields is the framework's.  A
    request is served by one thread, so the lock around setup is not modelled;
    of the dashboard the table of authorities is here, the rest in Dashboard.v. *)

From S2P Require Import Prelude PyStr PyTime Json Numbers X509Lib X509 Leaf Store Settings CaService Grants Identity Certs Crl AuditLog WebDeps.
#[local] Open Scope Z_scope.

(** ** Requests and answers *)
(** What the framework read of a request: the session cookie, the form's
    token and where it came from; [po_seen] and [po_logged] are the clock of
    the guard and of the log. *)
Record Post := mkPost {
  po_cookie : option string; po_csrf : option string; po_forwarded : string; po_client : option string;
  po_seen : Z; po_logged : Z }.
Inductive SetCookie := cookie_set (token : string) | cookie_deleted.

Record UserView := mkUserView {
  uv_id : Z; uv_username : string; uv_role : Role; uv_created : Z; uv_superadmin : bool;
  uv_granted_ids : list Z; uv_granted_names : list string; uv_retired : list (Z * string) }.
(** [base_context] *)
Record Context_ := mkContext {
  cx_user : UserRow; cx_csrf : string; cx_flash : option string; cx_expiring : nat; cx_nav : Nav }.
Record UsersPage {X : X509Lib} {SS : SecretStore} := mkUsersPage {
  up_context : Context_; up_users : list UserView; up_error : option string; up_can_manage : bool;
  up_active : list CARow; up_edit : option Z }.
Arguments mkUsersPage {X SS} _ _ _ _ _ _.
Arguments up_users {X SS} _.
Arguments up_active {X SS} _.
(** A 303, the two pages anyone may see with their error, the users page. *)
Inductive Answer {X : X509Lib} {SS : SecretStore} :=
  | See (location : string) (cookie : option SetCookie)
  | SetupPage (status : Z) (error : option string)
  | LoginPage (status : Z) (error : option string)
  | Users (status : Z) (page : UsersPage).
Arguments See {X SS} _ _.
Arguments SetupPage {X SS} _ _.
Arguments LoginPage {X SS} _ _.
Arguments Users {X SS} _ _.

Definition role_text (r : Role) : string :=
  match r with superadmin => "superadmin" | admin => "admin" | viewer => "viewer" end.
Definition not_found : Exc := HTTPException 404 "Not Found" [].
(** [_parse_role] *)
Definition parse_role (s : string) : Outcome Role :=
  match List.find (λ r, bool_decide (role_text r = s)) [superadmin; admin; viewer] with
  | Some r => Ok r
  | None => Raise (HTTPException 400 "invalid role" [])
  end.
Definition strs (l : list Z) : json := JList (map JInt l).
(** [{row.id: row for row in rows}] *)
Definition by_id {X : X509Lib} {SS : SecretStore} (rows : list CARow) : gmap Z CARow :=
  foldl (λ m r, <[ca_id r := r]> m) ∅ rows.

Section ui.
Context {X : X509Lib} {SS : SecretStore} {CR : Crypto}.

(** [try: m] with the handlers in the continuation. *)
Definition attempt {A} (m : Tx DB A) : Tx DB (Outcome A) := λ s, let '(r, s') := m s in (Ok r, s').
Definition log (q : Post) (actor : Actor) (action : AuditAction) (summary : string) (target : option (string * option string))
    (detail : option (gmap string json)) (logged : Z) : Tx DB unit :=
  from ← query (client_ip (po_forwarded q) (po_client q));
  _ ← record actor action (mkEvent summary target detail from) logged;
  mret ().
Definition user_target (n : Z) : option (string * option string) := Some ("user", Some (id_text n)).
(** [deps.flash] after [delete_sessions_for_user(n)].  The bulk DELETE evicts
    the rows it matches from the ORM session, so a message left on an evicted
    row is an attribute of a detached object, and the commit writes nothing. *)
Definition flash_after_delete (row : SessionRow) (n : Z) (message : string) : Tx DB unit :=
  if bool_decide (session_user row = n) then commit else set_flash row message.
Definition superadmin_post (q : Post) : Tx DB (UserRow * SessionRow) :=
  ui_guard require_superadmin (po_cookie q) (po_csrf q) (po_seen q).

(** ** Setup, login, logout *)
(** The random tokens of a new session, its clock and the log's. *)
Record Login := mkLogin { lg_token : Z; lg_csrf : Z; lg_now : Z; lg_logged : Z }.
Definition login_and_redirect (q : Post) (user : UserRow) (to : string) (l : Login) : Tx DB Answer :=
  '(token, _) ← create_session user (lg_token l) (lg_csrf l) (lg_now l);
  _ ← log q (user_actor user) a_login_success ("login for " +:+ py_repr (username user)) (user_target (user_id user)) None (lg_logged l);
  mret (See to (Some (cookie_set token))).
Definition user_detail (name : string) (role : Role) : gmap string json :=
  <["username" := JStr name]> {["role" := JStr (role_text role)]}.
Definition setup_submit (q : Post) (name password : string) (salt now : Z) (l : Login) : Tx DB Answer :=
  n ← query count_users;
  _ ← raise_if (bool_decide (0 < n)%nat) not_found;
  made ← attempt (create_user name password superadmin salt now);
  match made with
  | Raise (WeakPasswordError m) => mret (SetupPage 400 (Some m))
  | Raise (UserExistsError _ | IntegrityError _) =>
      _ ← rollback;
      mret (SetupPage 400 (Some "setup already completed by another request"))
  | Raise e => mthrow e
  | Ok user =>
      _ ← log q SYSTEM_ACTOR a_user_created ("first-run setup created superadmin " +:+ py_repr (username user))
            (user_target (user_id user)) (Some (user_detail (username user) superadmin)) (po_logged q);
      login_and_redirect q user "/" l
  end.
Definition login_submit (q : Post) (name password : string) (dummy_salt purged : Z) (l : Login) : Tx DB Answer :=
  _ ← redirect_if_no_users;
  found ← attempt (verify_credentials dummy_salt name password);
  match found with
  | Raise (InvalidCredentialsError _) =>
      let attempted := str_take MAX_LABEL_LENGTH name in
      _ ← log q (mkActor k_user None attempted) a_login_failed ("failed login for " +:+ py_repr attempted) None None (po_logged q);
      mret (LoginPage 401 (Some "invalid username or password"))
  | Raise e => mthrow e
  | Ok user =>
      old ← query (λ db, match po_cookie q with
                         | Some token => if decide (token = "") then None else get_session token (po_seen q) db
                         | None => None end);
      _ ← (match old with
           | Some row => if bool_decide (session_user row = user_id user) then delete_session (default "" (po_cookie q)) else mret ()
           | None => mret ()
           end);
      _ ← purge_expired purged;
      login_and_redirect q user "/" l
  end.
Definition logout (q : Post) : Tx DB Answer :=
  '(user, row) ← ui_guard mret (po_cookie q) (po_csrf q) (po_seen q);
  _ ← (match po_cookie q with
       | Some token => if decide (token = "") then mret () else delete_session token
       | None => mret ()
       end);
  _ ← log q (user_actor user) a_logout ("logout for " +:+ py_repr (username user)) (user_target (user_id user)) None (po_logged q);
  mret (See "/login" (Some cookie_deleted)).

(** ** The users page *)
Definition base_context (user : UserRow) (row : SessionRow) (now : Z) : Tx DB Context_ :=
  pending ← pop_flash row;
  expiring ← query (λ db, count_status now db st_expiring);
  mret (mkContext user (csrf_token row) pending expiring (nav (user_role user))).
Definition named_grants (granted : list Z) (all_intermediates : gmap Z CARow) : list (Z * string) :=
  omap (λ g, pair g ∘ ca_name <$> all_intermediates !! g) granted.
Definition retired_grants (active_ids : list Z) (named : list (Z * string)) : list (Z * string) :=
  List.filter (λ g, bool_decide (fst g ∉ active_ids)) named.
Definition user_issuers_view (row : UserRow) (active_ids : list Z) (all_intermediates : gmap Z CARow) : Tx DB UserView :=
  let sup := bool_decide (user_role row = superadmin) in
  granted ← (if sup then mret [] else issuers_of (user_principal row));
  let named := named_grants granted all_intermediates in
  mret (mkUserView (user_id row) (username row) (user_role row) (user_created row) sup granted (map snd named)
    (retired_grants active_ids named)).
Definition users_page (user : UserRow) (row : SessionRow) (now : Z) (error : option string) (status : Z) (edit : option Z)
  : Tx DB Answer :=
  active ← query active_issuers;
  all ← query (λ db, by_id (list_cas None (Some Intermediate) db));
  listed ← query list_users;
  views ← tx_map (λ u, user_issuers_view u (map ca_id active) all) listed;
  cx ← base_context user row now;
  mret (Users status (mkUsersPage cx views error (bool_decide (user_role user = superadmin)) active edit)).

(** [_parse_edit].  An id SQLite has no room for raises in its driver. *)
Definition parse_edit (raw : string) : Tx DB (option Z) :=
  match py_int raw with
  | Raise _ => mret None
  | Ok n =>
      _ ← raise_if (negb ((-2^63 <=? n) && (n <? 2^63))) (OverflowError "Python int too large to convert to SQLite INTEGER");
      query (λ db, if decide (is_Some (users db !! n)) then Some n else None)
  end.
Definition users_list (cookie : option string) (edit : string) (seen shown : Z) : Tx DB Answer :=
  '(user, row, _) ← get_current_user cookie seen;
  opened ← parse_edit edit;
  users_page user row shown None 200 opened.

(** ** The forms of the users page; [shown] is the clock of an error page *)
Definition create_user_route (q : Post) (name password role : string) (salt now shown : Z) : Tx DB Answer :=
  '(user, row) ← superadmin_post q;
  made ← attempt (r ← lift (parse_role role); create_user name password r salt now);
  match made with
  | Raise (WeakPasswordError m | UserExistsError m) => users_page user row shown (Some m) 400 None
  | Raise e => mthrow e
  | Ok created =>
      let summary := "created user " +:+ py_repr (username created) +:+ " as " +:+ role_text (user_role created) in
      _ ← log q (user_actor user) a_user_created summary (user_target (user_id created))
            (Some (user_detail (username created) (user_role created))) (po_logged q);
      _ ← set_flash row summary;
      mret (See "/users" None)
  end.
Definition role_change_detail (name : string) (old new : Role) : gmap string json :=
  <["username" := JStr name]> (<["old_role" := JStr (role_text old)]> {["new_role" := JStr (role_text new)]}).
Definition update_role_route (q : Post) (n : Z) (role : string) (shown : Z) : Tx DB Answer :=
  '(user, row) ← superadmin_post q;
  changed ← attempt (old ← get_user n; r ← lift (parse_role role); new ← update_role n r; mret (user_role old, new));
  match changed with
  | Raise (UserNotFoundError _) => mthrow not_found
  | Raise (LastSuperadminError m) => users_page user row shown (Some m) 400 (Some n)
  | Raise e => mthrow e
  | Ok (old_role, changed) =>
      _ ← (if decide (user_role changed = old_role) then mret () else
             let summary := "changed role of " +:+ py_repr (username changed) +:+ " from " +:+ role_text old_role
                              +:+ " to " +:+ role_text (user_role changed) in
             _ ← log q (user_actor user) a_user_role_changed summary (user_target (user_id changed))
                   (Some (role_change_detail (username changed) old_role (user_role changed))) (po_logged q);
             set_flash row summary);
      mret (See "/users" None)
  end.
Definition reset_password_route (q : Post) (n : Z) (password : string) (salt shown : Z) : Tx DB Answer :=
  '(user, row) ← superadmin_post q;
  reset ← attempt (reset_password n password salt);
  match reset with
  | Raise (UserNotFoundError _) => mthrow not_found
  | Raise (WeakPasswordError m) => users_page user row shown (Some m) 400 (Some n)
  | Raise e => mthrow e
  | Ok target =>
      _ ← delete_sessions_for_user n;
      let summary := "reset the password of " +:+ py_repr (username target) in
      _ ← log q (user_actor user) a_user_password_reset summary (user_target (user_id target))
            (Some {["username" := JStr (username target)]}) (po_logged q);
      _ ← flash_after_delete row n summary;
      mret (See "/users" None)
  end.
Definition grant_change_detail (c : Change) : gmap string json :=
  <["added" := strs (added c)]> (<["removed" := strs (removed c)]> {["issuers" := strs (issuers c)]}).
Definition update_user_issuers_route (q : Post) (n : Z) (issuer_ids : list Z) (shown : Z) : Tx DB Answer :=
  '(user, row) ← superadmin_post q;
  found ← attempt (get_user n);
  match found with
  | Raise (UserNotFoundError _) => mthrow not_found
  | Raise e => mthrow e
  | Ok target =>
      change ← attempt (set_issuers (user_principal target) issuer_ids);
      match change with
      | Raise (ValueError m) => users_page user row shown (Some m) 400 (Some n)
      | Raise e => mthrow e
      | Ok change =>
          _ ← (if changed change then
                 let summary := "changed issuer grants for " +:+ py_repr (username target) in
                 _ ← log q (user_actor user) a_user_issuers_changed summary (user_target (user_id target))
                       (Some (grant_change_detail change)) (po_logged q);
                 set_flash row summary
               else mret ());
          mret (See "/users" None)
      end
  end.
Definition delete_user_route (q : Post) (n shown : Z) : Tx DB Answer :=
  '(user, row) ← superadmin_post q;
  deleted ← attempt (target ← get_user n; _ ← delete_user n; mret (username target, user_role target));
  match deleted with
  | Raise (UserNotFoundError _) => mthrow not_found
  | Raise (LastSuperadminError m) => users_page user row shown (Some m) 400 (Some n)
  | Raise e => mthrow e
  | Ok (name, role) =>
      _ ← delete_sessions_for_user n;
      let summary := "deleted user " +:+ py_repr name in
      _ ← log q (user_actor user) a_user_deleted summary (user_target n) (Some (user_detail name role)) (po_logged q);
      _ ← flash_after_delete row n summary;
      mret (See "/users" None)
  end.

(** ** The dashboard's authorities *)
Definition CA_WARN_DAYS : Z := 365.
Record CAExpiry := mkCAExpiry {
  ce_id : Z; ce_name : string; ce_kind : CAKind; ce_status : CAStatus; ce_not_after : Z; ce_days : Z; ce_tag : string }.
(** [timedelta.days] rounds down. *)
Definition ca_expiry (now : Z) (row : CARow) : Outcome CAExpiry :=
  cert ← load_cert (ca_cert row);
  let d := (not_valid_after cert - now) / day in
  let tag :=
    if bool_decide (ca_status row = Retired) then (if d <=? 0 then "tag-bad" else "")
    else if d <=? 0 then "tag-bad" else if d <=? CA_WARN_DAYS then "tag-warn" else "" in
  mret (mkCAExpiry (ca_id row) (ca_name row) (ca_kind row) (ca_status row) (not_valid_after cert) d tag).
Definition children_of (rows : list CARow) (row : CARow) : list CARow :=
  if bool_decide (ca_kind row = Root)
  then List.filter (λ c, bool_decide (ca_kind c = Intermediate) && bool_decide (parent_id c = Some (ca_id row))) rows
  else [].
(** [_authorities]: each root with its intermediates, each cross row alone. *)
Definition authorities (rows : list CARow) (now : Z) : Outcome (list (CAExpiry * list CAExpiry)) :=
  map_each (λ row,
    entry ← ca_expiry now row;
    issuers ← map_each (ca_expiry now) (children_of rows row);
    mret (entry, issuers))
  (List.filter (λ r, bool_decide (ca_kind r ≠ Intermediate)) rows).
End ui.

(** ** Rules for the parts of a handler *)
Section rules.
Context {X : X509Lib} {SS : SecretStore} {CR : Crypto}.

Lemma wp_attempt {A} (m : Tx DB A) s (Q : Outcome (Outcome A) → Session DB → Prop) :
  wp m s (λ r s', Q (Ok r) s') → wp (attempt m) s Q.
Proof. unfold wp, attempt. by destruct (m s). Qed.

(** What is logged is what the handler says, in the actor's name. *)
Record log_entry (actor : Actor) (action : AuditAction) (says : string) (e : AuditRow) : Prop := {
  le_kind : actor_kind e = act_kind actor;
  le_actor : actor_id e = act_id actor;
  le_action : aud_action e = action;
  le_says : aud_summary e = says }.
Definition with_entry (e : AuditRow) : DB → DB := on_audit (λ m, <[aud_id e := e]> m).
Lemma wp_log_row q actor action says target detail logged s (Q : Outcome unit → Session DB → Prop) :
  (∀ from n, let e := audit_row actor action (mkEvent says target detail from) logged n in
     audit_events (work s) !! aud_id e = None → Q (Ok ()) (fresh_session (with_entry e (work s)))) →
  wp (log q actor action says target detail logged) s Q.
Proof. intros H. unfold log. apply wp_bind, wp_query, wp_bind, wp_record. intros row db Hf. by apply wp_ret, H. Qed.
Lemma wp_log q actor action says target detail logged s (Q : Outcome unit → Session DB → Prop) :
  (∀ e, log_entry actor action says e → audit_events (work s) !! aud_id e = None → Q (Ok ()) (fresh_session (with_entry e (work s)))) →
  wp (log q actor action says target detail logged) s Q.
Proof. intros H. apply wp_log_row. intros from n e He. by apply H. Qed.
(** The message for the next page. *)
Definition told (row : SessionRow) (m : string) : DB → DB := on_sessions (alter (with_flash (Some m)) (session_hash row)).
Lemma wp_set_flash row m s (Q : Outcome unit → Session DB → Prop) : is_Some (sessions (work s) !! session_hash row) →
  Q (Ok ()) (fresh_session (on_sessions (alter (with_flash (Some m)) (session_hash row)) (work s))) →
  wp (set_flash row m) s Q.
Proof. intros [r Hr] H. unfold set_flash, update_session. wp_run; [|exact H]. guards. congruence. Qed.
(** A message left on a row that was deleted goes nowhere. *)
Lemma wp_flash_after_delete row n m s (Q : Outcome unit → Session DB → Prop) :
  sessions (work s) !! session_hash row = (if decide (session_user row = n) then None else Some row) →
  Q (Ok ()) (fresh_session (on_sessions (alter (with_flash (Some m)) (session_hash row)) (work s))) →
  wp (flash_after_delete row n m) s Q.
Proof.
  intros Hr H. unfold flash_after_delete. case_bool_decide as Hn.
  - rewrite decide_True in Hr by done. apply wp_commit.
    assert (He : on_sessions (alter (with_flash (Some m)) (session_hash row)) (work s) = work s); [|by rewrite He in H].
    destruct (work s). unfold on_sessions. cbn in *. f_equal. by apply alter_id; congruence.
  - rewrite decide_False in Hr by done. apply wp_set_flash; [by rewrite Hr|done].
Qed.

(** The session a guard hands over is the stored one. *)
Lemma seen_stored cookie now db user row : identity_ok db → opens cookie now db user row →
  sessions (seen now row db) !! session_hash (seen_row now row) = Some (seen_row now row).
Proof.
  intros Hdb (token & _ & _ & Hs & _). apply get_session_stored in Hs; [|done]. unfold seen, seen_row.
  destruct (_ <? _); [|done]. cbn. by rewrite lookup_alter_eq, Hs.
Qed.
Lemma seen_ok now row db : identity_ok db → identity_ok (seen now row db).
Proof. intros Hdb. unfold seen. destruct (_ <? _); [|done]. by apply identity_alter_session. Qed.
Lemma seen_users now row db : users (seen now row db) = users db ∧ user_issuers (seen now row db) = user_issuers db ∧
  cas (seen now row db) = cas db ∧ audit_events (seen now row db) = audit_events db.
Proof. unfold seen. by destruct (_ <? _). Qed.

(** A page is a read, and it takes the message that was waiting. *)
Definition popped (row : SessionRow) (db : DB) : DB :=
  match flash row with Some _ => on_sessions (alter (with_flash None) (session_hash row)) db | None => db end.
Lemma wp_pop_flash row db (Q : Outcome (option string) → Session DB → Prop) : is_Some (sessions db !! session_hash row) →
  Q (Ok (flash row)) (fresh_session (popped row db)) → wp (pop_flash row) (fresh_session db) Q.
Proof.
  intros [r Hr] H. unfold pop_flash, popped, update_session in *. destruct (flash row); [|done]. wp_run; [|exact H].
  guards. cbn in *. congruence.
Qed.
Lemma tx_map_total {A B} (f : A → Tx DB B) (P : A → B → Prop) l s :
  (∀ x, x ∈ l → ∃ y, f x s = (Ok y, s) ∧ P x y) → ∃ ys, tx_map f l s = (Ok ys, s) ∧ Forall2 P l ys.
Proof.
  induction l as [|x l IH]; intros Hf; cbn [tx_map]; [by exists []|].
  destruct (Hf x) as (y & Hy & Hp); [left|]. destruct IH as (ys & Hys & Hps); [intros z Hz; apply Hf; by right|].
  exists (y :: ys). rewrite Tx_bind_eq, Hy, Tx_bind_eq, Hys. split; [done|by constructor].
Qed.

(** What a line of the page shows of a user. *)
Record view_of (db : DB) (active : list Z) (all : gmap Z CARow) (u : UserRow) (v : UserView) : Prop := {
  view_id : uv_id v = user_id u;
  view_super : uv_superadmin v = bool_decide (user_role u = superadmin);
  view_grants : ∀ c, c ∈ uv_granted_ids v ↔ user_role u ≠ superadmin ∧ (user_id u, c) ∈ user_issuers db;
  view_retired : ∀ c n, (c, n) ∈ uv_retired v ↔ c ∈ uv_granted_ids v ∧ (c ∉ active) ∧ ca_name <$> all !! c = Some n }.
Lemma user_issuers_view_ok u active all s :
  ∃ v, user_issuers_view u active all s = (Ok v, s) ∧ view_of (work s) active all u v.
Proof.
  assert (Hret : ∀ granted c n, (c, n) ∈ retired_grants active (named_grants granted all) ↔ c ∈ granted ∧ (c ∉ active) ∧ ca_name <$> all !! c = Some n).
  { intros granted c n. unfold retired_grants, named_grants. rewrite list_elem_of_In, filter_In, <- list_elem_of_In, list_elem_of_omap, bool_decide_eq_true. split.
    - intros [(g & Hg & Hl) Hn]. destruct (all !! g) as [r|] eqn:E; [|done]. injection Hl as -> <-. by rewrite E.
    - intros (Hc & Hn & Hl). split; [|done]. exists c. split; [done|]. destruct (all !! c); [|done]. cbn in *. congruence. }
  unfold user_issuers_view. case_bool_decide as Hs.
  - eexists. split; [reflexivity|]. split; cbn; [done|by rewrite bool_decide_eq_true_2| |exact (Hret [])].
    intros c. rewrite elem_of_nil. naive_solver.
  - destruct (grant_ids_ok (work s) (user_principal u)) as (g & Hg & Hin); [by right|].
    assert (Hi : issuers_of (user_principal u) s = (Ok (sorted_ids g), s)).
    { transitivity ((lift (grant_ids (work s) (user_principal u)) ≫= λ g, mret (sorted_ids g)) s); [done|]. by rewrite Hg. }
    rewrite Tx_bind_eq, Hi. eexists. split; [reflexivity|].
    split; cbn; [done|by rewrite bool_decide_eq_false_2| |exact (Hret (sorted_ids g))].
    intros c. rewrite elem_sorted_ids, Hin. cbn. naive_solver.
Qed.
(** The users page of a database. *)
Definition page_of (db : DB) (p : UsersPage) : Prop :=
  up_active p = active_issuers db ∧
  Forall2 (view_of db (map ca_id (active_issuers db)) (by_id (list_cas None (Some Intermediate) db))) (list_users db) (up_users p).
Lemma wp_users_page user row now error status edit db (Q : Outcome Answer → Session DB → Prop) :
  is_Some (sessions db !! session_hash row) →
  (∀ page, page_of db page → up_error page = error → Q (Ok (Users status page)) (fresh_session (popped row db))) →
  wp (users_page user row now error status edit) (fresh_session db) Q.
Proof.
  intros Hrow H. unfold users_page. do 3 apply wp_bind, wp_query. cbn [work fresh_session].
  destruct (tx_map_total (λ u, user_issuers_view u (map ca_id (active_issuers db)) (by_id (list_cas None (Some Intermediate) db)))
    (view_of db (map ca_id (active_issuers db)) (by_id (list_cas None (Some Intermediate) db))) (list_users db) (fresh_session db))
    as (vs & Hvs & Hps); [intros u _; apply user_issuers_view_ok|].
  apply wp_bind. unfold wp at 1. fold (fresh_session db). rewrite Hvs. cbn [fst snd].
  apply wp_bind, wp_bind, wp_pop_flash; [done|]. wp_run. by apply H.
Qed.
End rules.

(** ** The forms of the users page *)
Inductive UserForm :=
  | form_create (name password role : string)
  | form_role (n : Z) (role : string)
  | form_password (n : Z) (password : string)
  | form_issuers (n : Z) (issuer_ids : list Z)
  | form_delete (n : Z).

Section users.
Context {X : X509Lib} {SS : SecretStore} {CR : Crypto}.

Definition user_route (q : Post) (f : UserForm) (salt now shown : Z) : Tx DB Answer :=
  match f with
  | form_create name password role => create_user_route q name password role salt now shown
  | form_role n role => update_role_route q n role shown
  | form_password n password => reset_password_route q n password salt shown
  | form_issuers n ids => update_user_issuers_route q n ids shown
  | form_delete n => delete_user_route q n shown
  end.
Definition form_action (f : UserForm) : AuditAction :=
  match f with
  | form_create _ _ _ => a_user_created | form_role _ _ => a_user_role_changed | form_password _ _ => a_user_password_reset
  | form_issuers _ _ => a_user_issuers_changed | form_delete _ => a_user_deleted
  end.
(** Somebody else could still administer the instance. *)
Definition another_superadmin (db : DB) (n : Z) : Prop := ∃ i v, i ≠ n ∧ users db !! i = Some v ∧ is_superadmin v = true.
Definition no_sessions_of (n : Z) : DB → DB := on_sessions (λ m, delete_where m (λ s, bool_decide (session_user s = n))).
Definition issuer_at (db : DB) (c : Z) : Prop := ∃ r, cas db !! c = Some r ∧ ca_kind r = Intermediate.
(** What a form does to the tables of users, grants and sessions. *)
Definition form_effect (f : UserForm) (d d' : DB) : Prop :=
  match f with
  | form_create name password role => ∃ u,
      users d !! user_id u = None ∧ (∀ i v, users d !! i = Some v → username v ≠ name) ∧ username u = name ∧
      parse_role role = Ok (user_role u) ∧ MIN_PASSWORD_LENGTH ≤ py_len password ∧
      argon2_verify (password_hash u) password = Ok true ∧ d' = on_users (λ m, <[user_id u := u]> m) d
  | form_role n role => ∃ u r, users d !! n = Some u ∧ parse_role role = Ok r ∧ r ≠ user_role u ∧
      (is_superadmin u = true → another_superadmin d n) ∧ d' = on_users (λ m, <[n := with_role r u]> m) d
  | form_password n password => ∃ u h, users d !! n = Some u ∧ MIN_PASSWORD_LENGTH ≤ py_len password ∧
      argon2_verify h password = Ok true ∧ d' = no_sessions_of n (on_users (λ m, <[n := with_password h u]> m) d)
  | form_issuers n ids => is_Some (users d !! n) ∧ ¬ (∀ c, (n, c) ∈ user_issuers d ↔ c ∈ ids) ∧
      (∀ c, c ∈ ids → issuer_at d c) ∧
      d' = on_user_issuers (λ g, rows_for n (list_to_set ids) ∪ without n g) d
  | form_delete n => ∃ u, users d !! n = Some u ∧ (is_superadmin u = true → another_superadmin d n) ∧
      d' = no_sessions_of n (on_users (delete n) (on_user_issuers (without n) d))
  end.
(** What it asks for is already so. *)
Definition form_idle (f : UserForm) (d : DB) : Prop :=
  match f with
  | form_role n role => ∃ u, users d !! n = Some u ∧ parse_role role = Ok (user_role u)
  | form_issuers n ids => is_Some (users d !! n) ∧ ∀ c, (n, c) ∈ user_issuers d ↔ c ∈ ids
  | _ => False
  end.
(** Who sent the form, and with what right. *)
Record by_superadmin (q : Post) (db : DB) (user : UserRow) (row : SessionRow) : Prop := {
  sa_opens : opens (po_cookie q) (po_seen q) db user row;
  sa_role : user_role user = superadmin;
  sa_csrf : po_csrf q = Some (csrf_token row) }.
Definition answered (q : Post) (f : UserForm) (db : DB) (r : Outcome Answer) (db' : DB) : Prop :=
  form_refused [superadmin] (po_cookie q) (po_csrf q) (po_seen q) db (default OutOfFuel (raised r)) db' ∧ is_ok r = false ∨
  ∃ user row, by_superadmin q db user row ∧
    let d := seen (po_seen q) row db in
    match r with
    | Ok (See location cookie) => location = "/users" ∧ cookie = None ∧
        (form_idle f d ∧ db' = d ∨
         ∃ d' e says, form_effect f d d' ∧ audit_events d !! aud_id e = None ∧ log_entry (user_actor user) (form_action f) says e ∧
           db' = on_sessions (alter (with_flash (Some says)) (session_hash row)) (with_entry e d'))
    | Ok (Users status page) => status = 400 ∧ page_of d page ∧ is_Some (up_error page) ∧ db' = popped (seen_row (po_seen q) row) d
    | Ok _ => False
    | Raise _ => db' = d
    end.

Lemma on_users_same n u db : users db !! n = Some u → on_users (λ m, <[n := u]> m) db = db.
Proof. intros Hu. destruct db. unfold on_users. cbn in *. f_equal. by apply insert_id. Qed.
Lemma others_remain db n u : users db !! n = Some u → count_superadmins (Some (user_id u)) db ≠ 0%nat →
  another_superadmin db n.
Proof.
  intros Hu Hc. destruct (count_superadmins_others _ _ Hc) as (i & v & Hi & Hv & Hne). exists i, v.
  split_and!; [|done|done]. intros ->. assert (v = u) as -> by congruence. done.
Qed.
Lemma parse_role_ok s r : parse_role s = Ok r → role_text r = s.
Proof.
  unfold parse_role. destruct (List.find _ _) as [r'|] eqn:E; [|done]. intros [= <-].
  apply find_some in E as [_ E]. by apply bool_decide_eq_true in E.
Qed.
Lemma parse_role_raised s e : parse_role s = Raise e → e = HTTPException 400 "invalid role" [].
Proof. unfold parse_role. destruct (List.find _ _); [done|]. by intros [= <-]. Qed.
(** Why an id is no issuer to grant, and how that is said. *)
Definition no_issuer (db : DB) (c : Z) (e : Exc) : Prop :=
  (cas db !! c = None ∧ e = unknown_ca c) ∨ (∃ r m, cas db !! c = Some r ∧ ca_kind r ≠ Intermediate ∧ e = ValueError m).
Lemma no_issuer_at db c e : no_issuer db c e → ¬ issuer_at db c.
Proof. intros [[Hn _]|(r & m & Hr & Hk & _)] (x & Hx & Hkx); congruence. Qed.
Lemma wp_require_all l s (Q : Outcome unit → Session DB → Prop) :
  ((∀ c, c ∈ l → issuer_at (work s) c) → Q (Ok ()) s) → (∀ e c, c ∈ l → no_issuer (work s) c e → Q (Raise e) s) →
  wp (tx_for require_intermediate l) s Q.
Proof.
  revert Q. induction l as [|n l IH]; intros Q HQ He; cbn [tx_for].
  - apply wp_ret, HQ. by intros c ?%not_elem_of_nil.
  - apply wp_bind. unfold require_intermediate at 1. wp_ca; guards.
    + apply (He _ n); [left|]. right. by eexists _, _.
    + apply IH; [|intros e c Hc; apply He; by right]. intros Hall. apply HQ. intros c [->|Hc]%elem_of_cons; [by eexists|by apply Hall].
    + apply (He _ n); [left|]. by left.
Qed.
(** A grant set of an existing user is replaced, or was already that set. *)
Lemma wp_set_issuers p i ids db (Q : Outcome Change → Session DB → Prop) :
  has_grant_table p = true → p_id p = Some i → has_owner db p i = true →
  (∀ c, changed c = true → ¬ (∀ x, (i, x) ∈ grants_of p db ↔ x ∈ ids) → (∀ x, x ∈ ids → issuer_at db x) →
     Q (Ok c) (fresh_session (on_grants p (λ g, rows_for i (list_to_set ids) ∪ without i g) db))) →
  (∀ c, changed c = false → (∀ x, (i, x) ∈ grants_of p db ↔ x ∈ ids) → (∀ x, x ∈ ids → issuer_at db x) → Q (Ok c) (fresh_session db)) →
  (∀ e x, x ∈ ids → no_issuer db x e → Q (Raise e) (fresh_session db)) → wp (set_issuers p ids) (fresh_session db) Q.
Proof.
  intros Hp Hi Ho Hch Hsame Hno. unfold set_issuers. apply wp_bind, wp_raise_if; [by rewrite Hp|]. intros _.
  apply wp_bind, wp_require_all; [|done]. intros Hall. cbn [work fresh_session] in Hall.
  destruct (grant_ids_ok db p) as (g & Hg & Hin'); [by right|].
  assert (Hin : ∀ x, x ∈ g ↔ (i, x) ∈ grants_of p db) by (intros x; rewrite Hin'; by apply holds_grant_on). clear Hin'.
  apply wp_bind, wp_query, wp_bind. cbn [work fresh_session]. rewrite Hg. apply wp_lift; [intros ? [= <-]|done].
  set (c := mkChange _ _ _).
  assert (Hiff : changed c = false ↔ ∀ x, (i, x) ∈ grants_of p db ↔ x ∈ ids).
  { unfold changed, c. cbn [added removed]. rewrite orb_false_iff, !nonempty_false.
    split.
    - intros [Ha Hr] x. pose proof (elem_sorted_ids (list_to_set ids ∖ g) x) as E1. pose proof (elem_sorted_ids (g ∖ list_to_set ids) x) as E2.
      rewrite Ha in E1. rewrite Hr in E2. rewrite elem_of_nil, elem_of_difference, elem_of_list_to_set in E1, E2.
      specialize (Hin x). destruct (decide (x ∈ g)), (decide (x ∈ ids)); naive_solver.
    - intros He. split; apply elem_of_nil_inv; intros x; rewrite elem_sorted_ids, elem_of_difference, elem_of_list_to_set;
        specialize (Hin x); specialize (He x); naive_solver. }
  destruct (changed c) eqn:Hc; [|apply wp_ret, Hsame; [done|by apply Hiff|done]].
  unfold replace_grant_rows, principal_id. rewrite Hi. wp_run; try done; match goal with H : of_option _ _ = Ok _ |- _ => injection H as <- end.
  - exfalso. assert (Hoo : has_owner (on_grants p (without i) db) p i = true) by (unfold has_owner, on_grants in *; by destruct (p_kind p)).
    match goal with H : _ && negb _ = true |- _ => change (work (fresh_session db)) with db in H; rewrite Hoo, andb_false_r in H; discriminate H end.
  - rewrite !on_grants_twice.
    apply Hch; [done|intros Hx%Hiff; congruence|done].
Qed.

(** The domain operations, as a handler meets them. *)
Lemma wp_create_user name password role salt now db (Q : Outcome UserRow → Session DB → Prop) :
  (∀ m, py_len password < MIN_PASSWORD_LENGTH → Q (Raise (WeakPasswordError m)) (fresh_session db)) →
  (∀ m, users db ≠ ∅ → Q (Raise (UserExistsError m)) (fresh_session db)) →
  (∀ u, users db !! user_id u = None → (∀ i v, users db !! i = Some v → username v ≠ name) → username u = name →
     user_role u = role → MIN_PASSWORD_LENGTH ≤ py_len password → argon2_verify (password_hash u) password = Ok true →
     Q (Ok u) (fresh_session (on_users (λ m, <[user_id u := u]> m) db))) →
  wp (create_user name password role salt now) (fresh_session db) Q.
Proof.
  intros Hweak Hname Hok. unfold create_user, check_password_strength. wp_run.
  - apply Hname. intros He. guards. destruct H0 as [v [_ [k Hk]]%first_where_some]. cbn in Hk. by rewrite He, lookup_empty in Hk.
  - apply raise_if_ok, Z.ltb_ge in H. guards. apply (Hok (mkUser _ _ _ _ _)); try done; cbn.
    + apply next_id_fresh.
    + intros i v Hi. unfold user_named in *. match goal with E : first_where _ _ = None |- _ => rewrite first_where_none in E; specialize (E i v Hi);
        by apply bool_decide_eq_false in E end.
    + apply argon2_verify_hash.
  - unfold raise_if in H. destruct (_ <? _) eqn:E; [|done]. injection H as <-. apply Hweak. lia.
Qed.
Lemma wp_get_user n db (Q : Outcome UserRow → Session DB → Prop) :
  (∀ m, Q (Raise (UserNotFoundError m)) (fresh_session db)) → (∀ u, users db !! n = Some u → Q (Ok u) (fresh_session db)) →
  wp (get_user n) (fresh_session db) Q.
Proof. intros Hno Hok. unfold get_user. wp_run; options; [by apply Hok|apply Hno]. Qed.
Lemma wp_update_role n role db (Q : Outcome UserRow → Session DB → Prop) : identity_ok db →
  (∀ m, Q (Raise (UserNotFoundError m)) (fresh_session db)) → (∀ m, Q (Raise (LastSuperadminError m)) (fresh_session db)) →
  (∀ u, users db !! n = Some u → (is_superadmin u = true → role = superadmin ∨ another_superadmin db n) →
     Q (Ok (with_role role u)) (fresh_session (on_users (λ m, <[n := with_role role u]> m) db))) →
  wp (update_role n role) (fresh_session db) Q.
Proof.
  intros Hdb Hno Hlast Hok. unfold update_role, save_user. apply wp_bind, wp_get_user; [done|]. intros u Hu. wp_run; [apply Hlast|].
  cbn [with_role user_id]. rewrite (user_keys _ Hdb _ _ Hu). apply Hok; [done|]. intros Hs.
  destruct (decide (role = superadmin)); [by left|]. right. eapply others_remain; [done|].
  match goal with H : _ && _ = false |- _ => rewrite Hs, (bool_decide_eq_true_2 (role ≠ superadmin)) in H by done; by apply bool_decide_eq_false in H end.
Qed.
Lemma wp_reset_password n password salt db (Q : Outcome UserRow → Session DB → Prop) : identity_ok db →
  (∀ m, Q (Raise (UserNotFoundError m)) (fresh_session db)) → (∀ m, Q (Raise (WeakPasswordError m)) (fresh_session db)) →
  (∀ u h, users db !! n = Some u → MIN_PASSWORD_LENGTH ≤ py_len password → argon2_verify h password = Ok true →
     Q (Ok (with_password h u)) (fresh_session (on_users (λ m, <[n := with_password h u]> m) db))) →
  wp (reset_password n password salt) (fresh_session db) Q.
Proof.
  intros Hdb Hno Hweak Hok. unfold reset_password, check_password_strength, save_user. apply wp_bind, wp_lift.
  - intros [] H%raise_if_ok%Z.ltb_ge. apply wp_bind, wp_get_user; [done|]. intros u Hu. wp_run. cbn [with_password user_id].
    rewrite (user_keys _ Hdb _ _ Hu). apply Hok; [done|done|apply argon2_verify_hash].
  - unfold raise_if. destruct (_ <? _); [|done]. intros e [= <-]. apply Hweak.
Qed.
Lemma wp_delete_user n db (Q : Outcome unit → Session DB → Prop) : identity_ok db →
  (∀ m, Q (Raise (UserNotFoundError m)) (fresh_session db)) → (∀ m, Q (Raise (LastSuperadminError m)) (fresh_session db)) →
  (∀ u, users db !! n = Some u → (is_superadmin u = true → another_superadmin db n) →
     Q (Ok ()) (fresh_session (no_sessions_of n (on_users (delete n) (on_user_issuers (without n) db))))) →
  wp (delete_user n) (fresh_session db) Q.
Proof.
  intros Hdb Hno Hlast Hok. unfold delete_user. apply wp_bind, wp_get_user; [done|]. intros u Hu. wp_run; [apply Hlast|].
  rewrite (user_keys _ Hdb _ _ Hu). eapply Hok; [done|]. intros Hs. eapply others_remain; [done|].
  match goal with H : _ && _ = false |- _ => rewrite Hs in H; by apply bool_decide_eq_false in H end.
Qed.
Lemma wp_delete_sessions n db (Q : Outcome unit → Session DB → Prop) :
  Q (Ok ()) (fresh_session (no_sessions_of n db)) → wp (delete_sessions_for_user n) (fresh_session db) Q.
Proof. done. Qed.
Lemma no_sessions_twice n db : no_sessions_of n (no_sessions_of n db) = no_sessions_of n db.
Proof.
  unfold no_sessions_of, on_sessions. cbn. f_equal. apply map_eq. intros h. apply option_eq. intros s. rewrite !lookup_delete_where. naive_solver.
Qed.
Lemma session_left n db row : sessions db !! session_hash row = Some row →
  sessions (no_sessions_of n db) !! session_hash row = (if decide (session_user row = n) then None else Some row).
Proof.
  intros Hr. apply option_eq. intros s. cbn. rewrite lookup_delete_where, Hr, bool_decide_eq_false. destruct (decide _); naive_solver.
Qed.

(** The three ways a form of the page ends. *)
Section ends.
#[local] Set Default Proof Using "All".
Variables (q : Post) (f : UserForm) (db : DB) (user : UserRow) (row : SessionRow).
Let row' := seen_row (po_seen q) row.
Let d := seen (po_seen q) row db.
Hypothesis Hby : by_superadmin q db user row.
Hypothesis Hrow : sessions d !! session_hash row' = Some row'.
Hypothesis Hh : session_hash row' = session_hash row.

Lemma ends_raised e : answered q f db (Raise e) d.
Proof. right. by exists user, row. Qed.
Lemma ends_page shown m edit :
  wp (users_page user row' shown (Some m) 400 edit) (fresh_session d) (λ r s, answered q f db r (durable s)).
Proof. apply wp_users_page; [by eexists|]. intros page Hp He. right. exists user, row. split; [done|]. rewrite He. by split_and!. Qed.
Lemma ends_idle : form_idle f d → answered q f db (Ok (See "/users" None)) d.
Proof. intros Hf. right. exists user, row. split; [done|]. split_and!; [done..|]. by left. Qed.
Lemma ends_done d' e says : form_effect f d d' → audit_events d' = audit_events d → audit_events d' !! aud_id e = None →
  log_entry (user_actor user) (form_action f) says e →
  answered q f db (Ok (See "/users" None)) (on_sessions (alter (with_flash (Some says)) (session_hash row')) (with_entry e d')).
Proof.
  intros Hf Ha He Hl. right. exists user, row. split; [done|]. split_and!; [done..|]. right. exists d', e, says.
  rewrite Ha in He. rewrite Hh. by split_and!.
Qed.
End ends.

(** C18: the users page.  A form on it acts only for a superadmin's session
    with that session's own token.  A redirect means that what the form asks
    for was done and nothing else (a new account under an unused name; a role
    that leaves a superadmin; a password, with every session of its user gone;
    a grant set; a deletion, with sessions and grants gone), that one entry in
    the superadmin's name was logged, and that the same sentence waits on the
    superadmin's next page; or that it was so already, and nothing was
    written.  A page with an error changes nothing but the message it shows. *)
Theorem user_forms_exact q f salt now shown db r db' : identity_ok db →
  request (user_route q f salt now shown) db = (r, db') → answered q f db r db'.
Proof.
  intros Hdb Hreq. pattern r, db'. eapply request_wp; [exact Hreq|]. clear r db' Hreq. cbn beta.
  assert (Hstart : ∀ (k : UserRow * SessionRow → Tx DB Answer),
    (∀ user row, let row' := seen_row (po_seen q) row in let d := seen (po_seen q) row db in
       by_superadmin q db user row → identity_ok d → sessions d !! session_hash row' = Some row' → session_hash row' = session_hash row →
       wp (k (user, row')) (fresh_session d) (λ r s, answered q f db r (durable s))) →
    wp (superadmin_post q ≫= k) (fresh_session db) (λ r s, answered q f db r (durable s))).
  { intros k Hk. apply wp_bind, wp_ui_guard; [done|..].
    - intros user row Ho Hr%list_elem_of_singleton Hc. apply Hk; [done|by apply seen_ok|by eapply seen_stored|].
      unfold seen_row. by destruct (_ <? _).
    - intros e d He. by left. }
  destruct f as [name password role|n role|n password|n ids|n]; cbn [user_route]; apply Hstart; clear Hstart;
    intros user row; cbn zeta; set (row' := seen_row _ _); set (d := seen _ _ _); intros Hby Hd Hrow Hh; apply wp_bind, wp_attempt.
  - apply wp_bind, wp_lift; [intros r Hr|intros e ->%parse_role_raised]; [|by eapply ends_raised].
    apply wp_create_user; cbn beta iota; [intros m _; by apply ends_page..|]. intros u Hnone Hname Hn Hur Hlen Hv.
    apply wp_bind, wp_log. intros e Hl He. apply wp_bind, wp_set_flash; [by cbn; rewrite Hrow|]. apply wp_ret.
    eapply ends_done; [done|done|done| |done|done|done]. exists u. by rewrite Hur.
  - apply wp_bind, wp_get_user; [intros m; by eapply ends_raised|]. intros u Hu.
    apply wp_bind, wp_lift; [intros r Hr|intros e ->%parse_role_raised]; [|by eapply ends_raised].
    apply wp_bind, wp_update_role; [done|intros m; by eapply ends_raised|intros m; by apply ends_page|]. intros u' Hu' Hlast.
    assert (u' = u) as -> by congruence. apply wp_ret. cbn [user_role with_role]. apply wp_bind.
    destruct (decide (r = user_role u)) as [->|Hne].
    + apply wp_ret, wp_ret. cbn [durable fresh_session]. rewrite on_users_same by (rewrite Hu; by destruct u).
      eapply ends_idle; [done..|]. by exists u.
    + apply wp_bind, wp_log. intros e Hl He. apply wp_set_flash; [by cbn; rewrite Hrow|]. apply wp_ret.
      eapply ends_done; [done|done|done| |done|done|done]. exists u, r. split_and!; try done. intros Hs. destruct (Hlast Hs) as [->|]; [|done].
      exfalso. apply Hne. by apply bool_decide_eq_true in Hs.
  - apply wp_reset_password; [done|intros m; by eapply ends_raised|intros m; by apply ends_page|]. intros u h Hu Hlen Hv.
    apply wp_bind, wp_delete_sessions, wp_bind, wp_log. intros e Hl He.
    apply wp_bind, wp_flash_after_delete; [by apply session_left|]. apply wp_ret.
    eapply ends_done; [done|done|done| |done|done|done]. by exists u, h.
  - apply wp_get_user; [intros m; by eapply ends_raised|]. intros u Hu. pose proof (user_keys _ Hd _ _ Hu) as Hid.
    apply wp_bind, wp_attempt, (wp_set_issuers _ n);
      [done|cbn; by rewrite Hid|unfold has_owner; cbn; rewrite Hu; by apply bool_decide_eq_true_2; eexists| | |].
    + intros c Hc Hne Hall. rewrite Hc in *. apply wp_bind, wp_bind, wp_log. intros e Hl He.
      apply wp_set_flash; [by cbn; rewrite Hrow|]. apply wp_ret.
      eapply ends_done; [done|done|done| |done|done|done]. by split_and!.
    + intros c Hc Hall _. rewrite Hc in *. apply wp_bind, wp_ret, wp_ret. by eapply ends_idle.
    + intros e x _ _. destruct e; first [by apply ends_page|by eapply ends_raised].
  - apply wp_bind, wp_get_user; [intros m; by eapply ends_raised|]. intros u Hu.
    apply wp_bind, wp_delete_user; [done|intros m; by eapply ends_raised|intros m; by apply ends_page|]. intros u' Hu' Hlast.
    assert (u' = u) as -> by congruence.
    apply wp_ret. apply wp_bind, wp_delete_sessions, wp_bind. rewrite no_sessions_twice. apply wp_log. intros e Hl He.
    apply wp_bind, wp_flash_after_delete; [by apply session_left|]. apply wp_ret.
    eapply ends_done; [done|done|done| |done|done|done]. by exists u.
Qed.
End users.

(** ** Setup and login *)
Section login.
Context {X : X509Lib} {SS : SecretStore} {CR : Crypto}.

Definition new_session (user : UserRow) (l : Login) : SessionRow :=
  mkSessionRow (hash_token (token_urlsafe (lg_token l))) (user_id user) (token_urlsafe (lg_csrf l)) (lg_now l)
    (lg_now l + SESSION_LIFETIME) None.
Definition logged_in_as (l : Login) : Answer := See "/" (Some (cookie_set (token_urlsafe (lg_token l)))).
Definition login_says (user : UserRow) : string := "login for " +:+ py_repr (username user).
Lemma wp_login_and_redirect q user l db (Q : Outcome Answer → Session DB → Prop) : is_Some (users db !! user_id user) →
  (∀ e, sessions db !! session_hash (new_session user l) = None → log_entry (user_actor user) a_login_success (login_says user) e →
     audit_events db !! aud_id e = None →
     Q (Ok (logged_in_as l)) (fresh_session (with_entry e (on_sessions (λ m, <[session_hash (new_session user l) := new_session user l]> m) db)))) →
  (is_Some (sessions db !! session_hash (new_session user l)) → Q (Raise unique_failed) (fresh_session db)) →
  wp (login_and_redirect q user "/" l) (fresh_session db) Q.
Proof.
  intros Hu Hok Htaken. unfold login_and_redirect, create_session. apply wp_bind. wp_run.
  - guards. match goal with H : _ = None |- _ => cbn in H; rewrite H in Hu; by destruct Hu end.
  - guards. by apply Htaken.
  - guards. apply wp_log. intros e Hl He. apply wp_ret, Hok; [|done..].
    match goal with H : ¬ is_Some (sessions _ !! _) |- _ => by apply eq_None_not_Some in H | H : sessions _ !! _ = None |- _ => exact H end.
Qed.

(** First-run setup happens once.  It answers 404, and does nothing, as
    soon as there is a user.  While there is none, a password that is too
    short changes nothing; any other makes the one account, a superadmin with
    that name and password, logged in the system's name, and the one session,
    the browser's, logged in the new superadmin's. *)
Theorem setup_only_once q name password salt now l db r db' : identity_ok db →
  request (setup_submit q name password salt now l) db = (r, db') →
  match r with
  | Ok (See location cookie) => users db = ∅ ∧ See location cookie = logged_in_as l ∧ MIN_PASSWORD_LENGTH ≤ py_len password ∧
      ∃ u e1 e2, user_role u = superadmin ∧ username u = name ∧ argon2_verify (password_hash u) password = Ok true ∧
        log_entry SYSTEM_ACTOR a_user_created ("first-run setup created superadmin " +:+ py_repr name) e1 ∧
        log_entry (user_actor u) a_login_success (login_says u) e2 ∧ aud_id e1 ≠ aud_id e2 ∧
        users db' = {[user_id u := u]} ∧ sessions db' = {[session_hash (new_session u l) := new_session u l]} ∧
        audit_events db' = <[aud_id e2 := e2]> (<[aud_id e1 := e1]> (audit_events db))
  | Ok (SetupPage status error) => users db = ∅ ∧ py_len password < MIN_PASSWORD_LENGTH ∧ status = 400 ∧ db' = db
  | Ok _ => False
  | Raise e => users db ≠ ∅ ∧ e = not_found ∧ db' = db
  end.
Proof.
  intros Hdb Hreq. pattern r, db'. eapply request_wp; [exact Hreq|]. clear r db' Hreq. cbn beta.
  unfold setup_submit. apply wp_bind, wp_query, wp_bind. cbn [work fresh_session]. unfold count_users. apply wp_raise_if.
  { intros Hn%bool_decide_eq_true. split_and!; [|done..]. intros He. rewrite He, map_size_empty in Hn. lia. }
  intros Hn%bool_decide_eq_false. assert (users db = ∅) as He by (apply map_size_empty_iff; lia).
  assert (Hs : sessions db = ∅).
  { apply map_empty. intros h. destruct (sessions db !! h) as [s|] eqn:E; [|done].
    destruct (session_owners _ Hdb _ _ E) as [u Hu]. by rewrite He, lookup_empty in Hu. }
  apply wp_bind, wp_attempt, wp_create_user; cbn beta iota; [intros m Hm; apply wp_ret; by split_and!|by intros|].
  intros u Hnone _ <- Hr Hlen Hv. apply wp_bind, wp_log. intros e1 Hl1 He1. cbn [work fresh_session] in He1.
  apply wp_login_and_redirect.
  - cbn. rewrite lookup_insert_eq. by eexists.
  - intros e2 _ Hl2 He2. cbn in He2. rewrite lookup_insert_None in He2. destruct He2 as [_ Hne].
    split_and!; [done..|]. exists u, e1, e2. split_and!; try done; cbn; by rewrite ?He, ?Hs, ?insert_empty.
  - intros [s Hx]. cbn in Hx. by rewrite Hs, lookup_empty in Hx.
Qed.

(** The session a login replaces: the live one its cookie opens, of the same
    user. *)
Definition replaced (q : Post) (user : UserRow) (db : DB) (h : string) : Prop :=
  ∃ token row, po_cookie q = Some token ∧ token ≠ "" ∧ get_session token (po_seen q) db = Some row ∧
    session_user row = user_id user ∧ h = hash_token token.
(** The attempted name, as the log may hold it. *)
Definition nobody (name : string) : Actor := mkActor k_user None (str_take MAX_LABEL_LENGTH name).
Definition LOGIN_REFUSED : string := "invalid username or password".
Lemma wp_verify_credentials dummy_salt name password db (Q : Outcome UserRow → Session DB → Prop) : identity_ok db →
  (∀ i u, users db !! i = Some u → username u = name → argon2_verify (password_hash u) password = Ok true → Q (Ok u) (fresh_session db)) →
  (∀ e, (∀ i u, users db !! i = Some u → username u = name → argon2_verify (password_hash u) password ≠ Ok true) →
     e = bad_credentials ∨ (∃ i u, users db !! i = Some u ∧ username u = name ∧ argon2_verify (password_hash u) password = Raise e) →
     Q (Raise e) (fresh_session db)) →
  wp (verify_credentials dummy_salt name password) (fresh_session db) Q.
Proof.
  intros Hdb Hok Hno. unfold verify_credentials, user_named. apply wp_bind, wp_query. cbn [work fresh_session].
  destruct (first_where _ _) as [u|] eqn:E.
  - apply first_where_some in E as [Hn%bool_decide_eq_true [i Hi]].
    assert (Hall : argon2_verify (password_hash u) password ≠ Ok true →
      ∀ j v, users db !! j = Some v → username v = name → argon2_verify (password_hash v) password ≠ Ok true).
    { intros Hne j v Hj Hv. assert (j = i) as -> by (eapply (user_names _ Hdb); [done..|congruence]). congruence. }
    wp_run.
    + match goal with H : negb ?b = true |- _ => destruct b; [done|] end. apply Hno; [|by left]. apply Hall. congruence.
    + match goal with H : negb ?b = false |- _ => destruct b; [|done] end. by eapply Hok.
    + apply Hno; [|right; by exists i, u]. apply Hall. congruence.
  - rewrite first_where_none in E. destruct (argon2_verify_reads dummy_salt "not-a-real-password-timing-decoy-only" password) as [b Hb].
    wp_run; [|unfold DUMMY_HASH in *; congruence]. apply Hno; [|by left]. intros i u Hi Hu. specialize (E i u Hi). by apply bool_decide_eq_false in E.
Qed.
Lemma wp_replace_old q user db (k : Tx DB Answer) (Q : Outcome Answer → Session DB → Prop) :
  (∀ f, (∀ h s, f (sessions db) !! h = Some s ↔ sessions db !! h = Some s ∧ ¬ replaced q user db h) →
     wp k (fresh_session (on_sessions f db)) Q) →
  wp (old ← query (λ db, match po_cookie q with
                         | Some token => if decide (token = "") then None else get_session token (po_seen q) db
                         | None => None end);
      _ ← (match old with
           | Some row => if bool_decide (session_user row = user_id user) then delete_session (default "" (po_cookie q)) else mret ()
           | None => mret ()
           end); k) (fresh_session db) Q.
Proof.
  intros Hk. apply wp_bind, wp_query, wp_bind. cbn [work fresh_session].
  assert (Hid : (∀ h, ¬ replaced q user db h) → wp k (fresh_session db) Q).
  { intros Hno. assert (He : on_sessions id db = db) by by destruct db. rewrite <- He. apply Hk. intros h s. cbn. naive_solver. }
  destruct (po_cookie q) as [token|] eqn:Hc; [|apply wp_ret, Hid; intros h (t & r & Ht & _); congruence].
  destruct (decide (token = "")) as [Ht|Ht]; [apply wp_ret, Hid; intros h (t & r & Ht' & Hne & _); congruence|].
  destruct (get_session token (po_seen q) db) as [row|] eqn:Hg;
    [|apply wp_ret, Hid; intros h (t & r & Ht' & _ & Hg' & _); congruence].
  case_bool_decide as Hu; [|apply wp_ret, Hid; intros h (t & r & Ht' & _ & Hg' & Hu' & _); congruence].
  unfold delete_session, id. cbn [from_option]. wp_run. apply Hk. intros h s. rewrite lookup_delete_Some. split.
  - intros [Hne Hs]. split; [done|]. intros (t & r & Ht' & _ & _ & _ & ->). congruence.
  - intros [Hs Hn]. split; [|done]. intros <-. apply Hn. by exists token, row.
Qed.

(** C19: the login form.  It opens a session exactly for the user with that
    name and password: one session under a fresh token, which the cookie
    carries, and one entry in the user's name.  The session of that user the
    browser came with is replaced, expired ones go, every other one stays.
    When no user has that name and password the answer is one page, the same
    status and the same words whether the name or the password was wrong,
    nothing changes, and the log notes the attempt under no account.  Before
    there are users everyone is sent to the setup.  It is a 500 in two cases:
    the token drawn opens a session already, after the old sessions went; or
    argon2 cannot read the hash stored for that name, and nothing changed. *)
Theorem login_exact q name password dummy_salt purged l db r db' : identity_ok db →
  request (login_submit q name password dummy_salt purged l) db = (r, db') →
  match r with
  | Ok (See location cookie) => See location cookie = logged_in_as l ∧ ∃ i u e,
      users db !! i = Some u ∧ username u = name ∧ argon2_verify (password_hash u) password = Ok true ∧
      users db' = users db ∧ log_entry (user_actor u) a_login_success (login_says u) e ∧
      audit_events db !! aud_id e = None ∧ audit_events db' = <[aud_id e := e]> (audit_events db) ∧
      ∀ h s, sessions db' !! h = Some s ↔
        (h = session_hash (new_session u l) ∧ s = new_session u l) ∨
        (h ≠ session_hash (new_session u l) ∧ sessions db !! h = Some s ∧ purged ≤ session_expires s ∧ ¬ replaced q u db h)
  | Ok (LoginPage status message) => status = 401 ∧ message = Some LOGIN_REFUSED ∧
      (∀ i u, users db !! i = Some u → username u = name → argon2_verify (password_hash u) password ≠ Ok true) ∧
      ∃ e, log_entry (nobody name) a_login_failed ("failed login for " +:+ py_repr (str_take MAX_LABEL_LENGTH name)) e ∧
        audit_events db !! aud_id e = None ∧ db' = with_entry e db
  | Ok _ => False
  | Raise e => (users db = ∅ ∧ e = AuthRedirect "/setup" ∧ db' = db) ∨
      (e = unique_failed ∧ ∃ i u, users db !! i = Some u ∧ username u = name ∧ argon2_verify (password_hash u) password = Ok true ∧
         users db' = users db ∧ audit_events db' = audit_events db ∧ is_Some (sessions db' !! session_hash (new_session u l)) ∧
         ∀ h s, sessions db' !! h = Some s ↔ sessions db !! h = Some s ∧ purged ≤ session_expires s ∧ ¬ replaced q u db h) ∨
      ∃ i u, users db !! i = Some u ∧ username u = name ∧ argon2_verify (password_hash u) password = Raise e ∧ db' = db
  end.
Proof.
  intros Hdb Hreq. pattern r, db'. eapply request_wp; [exact Hreq|]. clear r db' Hreq. cbn beta.
  unfold login_submit, redirect_if_no_users. apply wp_bind, wp_bind, wp_query, wp_raise_if; cbn [work fresh_session].
  { intros Hn%bool_decide_eq_true. left. split_and!; [by apply map_size_empty_iff|done..]. }
  intros _. apply wp_bind, wp_attempt, wp_verify_credentials; [done|..].
  - intros i u Hi Hn Hv. cbn beta iota. apply wp_replace_old. intros f Hf.
    apply wp_bind. unfold purge_expired. wp_run. apply wp_login_and_redirect.
    + cbn. rewrite (user_keys _ Hdb _ _ Hi), Hi. by eexists.
    + intros e Hnone Hl He. cbn [durable fresh_session]. split; [done|]. exists i, u, e. split_and!; try done.
      intros h s. cbn in Hnone |- *. rewrite lookup_insert_Some, lookup_delete_where, Hf, Z.ltb_ge. naive_solver.
    + intros Htaken. right. left. split; [done|]. exists i, u. split_and!; try done.
      intros h s. cbn. rewrite lookup_delete_where, Hf, Z.ltb_ge. naive_solver.
  - intros e Hno He. cbn beta iota.
    assert (Hpage : wp (log q (nobody name) a_login_failed ("failed login for " +:+ py_repr (str_take MAX_LABEL_LENGTH name)) None None (po_logged q)
      ≫= λ _, mret (LoginPage 401 (Some "invalid username or password"))) (fresh_session db) (λ r s, match r with
        | Ok (LoginPage status message) => status = 401 ∧ message = Some LOGIN_REFUSED ∧
            (∀ i u, users db !! i = Some u → username u = name → argon2_verify (password_hash u) password ≠ Ok true) ∧
            ∃ e, log_entry (nobody name) a_login_failed ("failed login for " +:+ py_repr (str_take MAX_LABEL_LENGTH name)) e ∧
              audit_events db !! aud_id e = None ∧ durable s = with_entry e db
        | _ => False end)).
    { apply wp_bind, wp_log. intros e' Hl He'. apply wp_ret. split_and!; [done..|]. by exists e'. }
    assert (Hend : (∃ i u, users db !! i = Some u ∧ username u = name ∧ argon2_verify (password_hash u) password = Raise e) ∨ e = bad_credentials)
      by tauto.
    clear He. destruct e; try (destruct Hend as [(i & u & ? & ? & ?)|He]; [apply wp_throw; right; right; by exists i, u|discriminate He]).
    eapply wp_mono; [exact Hpage|]. intros [[]|] s; done.
Qed.
End login.

(** ** What the pages show *)
Section pages.
Context {X : X509Lib} {SS : SecretStore} {CR : Crypto}.

(** [by_id] *)
Lemma by_id_snoc l r : by_id (l ++ [r]) = <[ca_id r := r]> (by_id l).
Proof. unfold by_id. by rewrite foldl_app. Qed.
Lemma by_id_some l n r : by_id l !! n = Some r → r ∈ l ∧ ca_id r = n.
Proof.
  induction l as [|x l IH] using rev_ind; [done|]. rewrite by_id_snoc, lookup_insert_Some. set_solver.
Qed.
Lemma by_id_in l r : r ∈ l → is_Some (by_id l !! ca_id r).
Proof.
  induction l as [|x l IH] using rev_ind; [by intros ?%not_elem_of_nil|]. rewrite by_id_snoc. intros [Hr| ->%list_elem_of_singleton]%elem_of_app.
  - destruct (decide (ca_id x = ca_id r)) as [->|]; [rewrite lookup_insert_eq; by eexists|rewrite lookup_insert_ne by done; auto].
  - rewrite lookup_insert_eq. by eexists.
Qed.

(** Grants name intermediates: each is checked when it is made, and a row of
    the hierarchy is never deleted and never changes its kind. *)
Definition grants_name_issuers (db : DB) : Prop :=
  (∀ i c, (i, c) ∈ user_issuers db → issuer_at db c) ∧ (∀ i c, (i, c) ∈ token_issuers db → issuer_at db c).
Lemma grants_name_on p f db : grants_name_issuers db →
  (∀ i c, (i, c) ∈ f (grants_of p db) → (i, c) ∈ grants_of p db ∨ issuer_at db c) → grants_name_issuers (on_grants p f db).
Proof.
  intros [Hu Ht] Hf. unfold on_grants, grants_of in *.
  destruct (p_kind p); (split; cbn; intros i c Hc; [try by eapply Hu|try by eapply Ht]);
    (destruct (Hf i c Hc) as [H|H]; [first [by eapply Hu|by eapply Ht]|exact H]).
Qed.
Lemma run_identity_grants op : keeps grants_name_issuers (run_identity op).
Proof.
  destruct op as [| | |n| | | | | | | | | | |p ids|p n]; cbn [run_identity]; try by (unfold discard, create_user, update_role, reset_password, get_user, save_user,
    create_session, touch_session, delete_session, delete_sessions_for_user, set_flash, pop_flash, purge_expired,
    update_session, create_token, verify_token, revoke_token, save_token; keeps_frame).
  - apply keeps_wp. intros s [Hw Hd]. unfold delete_user, get_user. wp_run; try by split.
    match goal with |- both _ (mkSession ?d _) => assert (H' : grants_name_issuers d); [|by split] end.
    destruct Hw as [Hu Ht]; split; cbn; [|done]. intros i c. unfold without. rewrite elem_of_filter. intros [_ ?]. by eapply Hu.
  - apply keeps_discard, keeps_wp. intros s [Hw Hd]. unfold set_issuers, replace_grant_rows. wp_run; try done.
    apply wp_require_intermediates; [intros Hall|done].
    assert (Hon : ∀ i ids', (∀ c, c ∈ ids' → c ∈ ids) → grants_name_issuers (on_grants p (λ g, rows_for i ids' ∪ without i g) (work s))).
    { intros i ids' Hsub. apply grants_name_on; [done|]. intros j c. rewrite elem_replaced. intros [[_ Hc]|[_ Hc]]; [right|by left].
      destruct (Hall c (Hsub c Hc)) as (r & Hr). by exists r. }
    assert (Hoff : ∀ i, grants_name_issuers (on_grants p (without i) (work s))).
    { intros i. apply grants_name_on; [done|]. intros j c. unfold without. rewrite elem_of_filter. naive_solver. }
    wp_run; try (by split); split; cbn [work durable]; try done; rewrite ?on_grants_twice;
      first [apply Hoff|apply Hon; intros c; by rewrite elem_of_list_to_set].
  - apply keeps_discard, keeps_wp. intros s [Hw Hd]. unfold grant, require_intermediate. wp_ca; try done.
    assert (Hn : grants_name_issuers (on_grants p (λ g, {[(a, n)]} ∪ g) (work s))); [|by split].
    apply grants_name_on; [done|]. intros j c [[= -> ->]%elem_of_singleton|Hc]%elem_of_union; [right|by left]. guards. by eexists.
Qed.
Lemma reachable_grants db : rtc system_step empty_db db → system_ok db ∧ grants_name_issuers db.
Proof.
  intros H. refine (rtc_ind_r (R := system_step) (λ d, system_ok d ∧ grants_name_issuers d) empty_db _ _ db H).
  - split; [apply empty_db_ok|]. split; cbn; intros *; by rewrite elem_of_empty.
  - intros d1 d2 _ Hstep [Hok Hg]. split; [by eapply system_step_ok|]. destruct Hstep as [[op ->]|[op ->]].
    + assert (Hf : same_callers d1 (snd (request (run_op op) d1))) by (apply request_keeps; [apply ca_frame|done]).
      assert (Hk : kinds_kept d1 (snd (request (run_op op) d1))).
      { apply (request_post (run_op op) d1 (λ r, kinds_kept d1 (snd r))).
        eapply wp_mono; [apply (run_op_keeps_kinds op d1 (fresh_session d1)); (split; [apply Hok|apply Hok]) || (split; intros i q Hi; by exists q)|].
        by intros r s [_ ?]. }
      destruct Hf as (_ & _ & _ & Hu & Ht). destruct Hg as [Gu Gt].
      split; intros i c; rewrite ?Hu, ?Ht; [intros (r & Hr & Hki)%Gu|intros (r & Hr & Hki)%Gt];
        destruct (Hk c r Hr) as (r' & Hr' & Hk'); exists r'; (split; [done|congruence]).
    + by apply request_keeps; [apply run_identity_grants|].
Qed.

(** What the form of a line sends when it is saved as it stands: the boxes
    that are checked and the hidden fields (users.html). *)
Definition posted_back (p : UsersPage) (v : UserView) : list Z :=
  List.filter (λ c, bool_decide (c ∈ uv_granted_ids v)) (map ca_id (up_active p)) ++ map fst (uv_retired v).

(** Saving a line of the users page as it stands changes nothing, in every
    state the requests to the CA service and about callers lead to: the boxes of the active issuers and the
    hidden fields of the retired ones together are the user's grants, so no
    grant is lost because its issuer is no longer offered. *)
Theorem reposting_keeps_grants db p k u v : rtc system_step empty_db db → page_of db p →
  list_users db !! k = Some u → up_users p !! k = Some v → uv_superadmin v = false →
  (∀ c, c ∈ posted_back p v ↔ (user_id u, c) ∈ user_issuers db) ∧
  ∃ c, request (set_issuers (user_principal u) (posted_back p v)) db = (Ok c, db) ∧ changed c = false.
Proof.
  intros Hr [Ha Hv] Hu Hk Hs. destruct (reachable_grants db Hr) as [[Hh Hdb] [Hg _]].
  destruct (Forall2_lookup_lr _ _ _ _ _ _ Hv Hu Hk) as [Hid Hsup Hgr Hret]. rewrite Hs in Hsup. symmetry in Hsup.
  apply bool_decide_eq_false in Hsup.
  assert (Hu' : users db !! user_id u = Some u).
  { apply list_elem_of_lookup_2, elem_of_rows_where in Hu as [_ [i Hi]]. by rewrite (user_keys _ Hdb _ _ Hi). }
  assert (Hiff : ∀ c, c ∈ posted_back p v ↔ (user_id u, c) ∈ user_issuers db).
  { intros c. assert (Hc : c ∈ uv_granted_ids v ↔ (user_id u, c) ∈ user_issuers db) by (rewrite Hgr; naive_solver). rewrite <- Hc.
    unfold posted_back. rewrite Ha, elem_of_app, list_elem_of_In, filter_In, <- list_elem_of_In, bool_decide_eq_true, list_elem_of_fmap.
    setoid_rewrite <- list_elem_of_fmap. split.
    - intros [[_ ?]|((c' & n) & -> & Hn)%list_elem_of_fmap]; [done|]. by apply Hret in Hn as [? _].
    - intros Hin. destruct (decide (c ∈ map ca_id (active_issuers db))) as [Hact|Hna]; [by left|]. right.
      destruct (Hg _ _ (proj1 Hc Hin)) as (r & Hr' & Hki). destruct (Hh c r Hr') as [Hcid _].
      destruct (by_id_in (list_cas None (Some Intermediate) db) r) as [r' Hr2].
      { apply elem_of_rows_where. cbn. rewrite bool_decide_eq_true_2 by done. split; [done|by eexists]. }
      rewrite Hcid in Hr2. apply list_elem_of_fmap. exists (c, ca_name r'). split; [done|]. apply Hret. by rewrite Hr2. }
  split; [exact Hiff|].
  apply (request_post _ _ (λ x, ∃ c, x = (Ok c, db) ∧ changed c = false)), (wp_set_issuers _ (user_id u)); [done|done| |..].
  - unfold has_owner. cbn. rewrite Hu'. by apply bool_decide_eq_true_2; eexists.
  - intros c _ Hn _. exfalso. apply Hn. intros x. by rewrite Hiff.
  - intros c Hc _ _. by exists c.
  - intros e x Hx%Hiff Hn%no_issuer_at. exfalso. apply Hn. by eapply Hg.
Qed.

(** *** The authorities of the dashboard *)
Definition under (t c : CARow) : bool :=
  bool_decide (ca_kind t = Root) && (bool_decide (ca_kind c = Intermediate) && bool_decide (parent_id c = Some (ca_id t))).
Lemma children_of_under rows t : children_of rows t = List.filter (under t) rows.
Proof.
  unfold children_of, under. case_bool_decide; cbn; [done|]. by induction rows.
Qed.
Lemma concat_map_split {A B} (f g : A → list B) l : concat (map (λ x, f x ++ g x) l) ≡ₚ concat (map f l) ++ concat (map g l).
Proof. induction l as [|x l IH]; cbn; [done|]. rewrite IH. solve_Permutation. Qed.
(** Each row is under one top, or it is a top. *)
Lemma grouped tops l : NoDup (map ca_id tops) →
  (∀ c, c ∈ l → ca_kind c = Intermediate → ∃ t, t ∈ tops ∧ ca_kind t = Root ∧ parent_id c = Some (ca_id t)) →
  concat (map (λ t, List.filter (under t) l) tops) ≡ₚ List.filter (λ c, bool_decide (ca_kind c = Intermediate)) l.
Proof.
  intros Hnd. induction l as [|c l IH]; intros Hall; cbn [List.filter].
  - clear. induction tops; cbn; [done|]. done.
  - assert (Hone : concat (map (λ t, if under t c then [c] else []) tops) = if bool_decide (ca_kind c = Intermediate) then [c] else []).
    { case_bool_decide as Hc.
      - destruct (Hall c) as (t & Ht & Hk & Hp); [left|done|]. clear -Hnd Ht Hk Hp Hc.
        assert (Hu : ∀ x, under x c = true → ca_id x = ca_id t).
        { intros x. unfold under. rewrite !andb_true_iff, !bool_decide_eq_true. intros (_ & _ & He). congruence. }
        assert (Ht' : under t c = true) by (unfold under; by rewrite !bool_decide_eq_true_2).
        assert (Hnil : ∀ l, (ca_id t ∉ map ca_id l) → concat (map (λ t, if under t c then [c] else []) l) = []).
        { induction l as [|x l IH]; cbn; [done|]. rewrite not_elem_of_cons. intros [Hx Hl]. rewrite (IH Hl).
          destruct (under x c) eqn:E; [|done]. exfalso. apply Hx. by rewrite (Hu x E). }
        induction tops as [|x tops IH]; [by apply not_elem_of_nil in Ht|]. cbn in *. inversion Hnd as [|? ? Hx Hl]; subst.
        apply elem_of_cons in Ht as [->|Ht]; [by rewrite Ht', Hnil|]. rewrite (IH Hl Ht). destruct (under x c) eqn:E; [|done].
        exfalso. apply Hx. rewrite (Hu x E). by apply list_elem_of_fmap_2.
      - clear -Hc. induction tops as [|x tops IH]; [done|]. cbn. rewrite IH. unfold under.
        rewrite (bool_decide_eq_false_2 (ca_kind c = Intermediate)), !andb_false_l, andb_false_r by done. done. }
    transitivity (concat (map (λ t, (if under t c then [c] else []) ++ List.filter (under t) l) tops)).
    { match goal with |- ?a ≡ₚ ?b => cut (a = b); [by intros ->|] end. f_equal. apply map_ext. intros t. by destruct (under t c). }
    rewrite concat_map_split, Hone, IH by (intros x Hx; apply Hall; by right). by destruct (bool_decide _).
Qed.
Lemma filter_split {A} (p : A → bool) l : l ≡ₚ List.filter p l ++ List.filter (λ x, negb (p x)) l.
Proof. induction l as [|x l IH]; cbn; [done|]. destruct (p x); cbn; rewrite IH at 1; solve_Permutation. Qed.
Lemma map_each_map {A B} (f : A → Outcome B) (g : A → B) l : (∀ x, x ∈ l → f x = Ok (g x)) → map_each f l = Ok (map g l).
Proof.
  induction l as [|x l IH]; intros Hf; cbn; [done|]. rewrite Hf by left. cbn. rewrite IH; [done|]. intros y Hy. apply Hf. by right.
Qed.
(** The line of a row whose certificate is [cert]. *)
Definition expiry_of (now : Z) (r : CARow) : CAExpiry := match ca_expiry now r with Ok e => e | Raise _ => mkCAExpiry (ca_id r) (ca_name r) (ca_kind r) (ca_status r) 0 0 "" end.
Lemma ca_expiry_ok now db i r : hierarchy_ok db → cas db !! i = Some r →
  ca_expiry now r = Ok (expiry_of now r) ∧ ce_id (expiry_of now r) = ca_id r ∧
  ∃ cert, load_cert (ca_cert r) = Ok cert ∧ ce_not_after (expiry_of now r) = not_valid_after cert.
Proof.
  intros Hh Hi. destruct (Hh i r Hi) as (_ & _ & cert & Hc & _). unfold expiry_of, ca_expiry. rewrite Hc. cbn. split_and!; [done..|]. by exists cert.
Qed.

(** The dashboard shows every CA certificate exactly once.  The table is
    the roots, each with its intermediates, and the cross rows; put together
    again it is the list of all rows, so no expiry warning can be missing and
    none is shown twice, and each line says when the row's own certificate
    ends. *)
Theorem authorities_complete db now : hierarchy_ok db → ∃ l, authorities (list_cas None None db) now = Ok l ∧
  concat (map (λ '(entry, issuers), entry :: issuers) l) ≡ₚ map (expiry_of now) (list_cas None None db) ∧
  ∀ r, r ∈ list_cas None None db → ce_id (expiry_of now r) = ca_id r ∧
    ∃ cert, load_cert (ca_cert r) = Ok cert ∧ ce_not_after (expiry_of now r) = not_valid_after cert.
Proof.
  intros Hh. set (rows := list_cas None None db).
  assert (Hin : ∀ r, r ∈ rows ↔ cas db !! ca_id r = Some r).
  { intros r. unfold rows, list_cas. rewrite elem_of_rows_where. cbn. split; [|intros ?; split; [done|by eexists]].
    intros [_ [i Hi]]. by destruct (Hh i r Hi) as [-> _]. }
  assert (Hexp : ∀ r, r ∈ rows → ca_expiry now r = Ok (expiry_of now r) ∧ ce_id (expiry_of now r) = ca_id r ∧
    ∃ cert, load_cert (ca_cert r) = Ok cert ∧ ce_not_after (expiry_of now r) = not_valid_after cert).
  { intros r Hr%Hin. by eapply ca_expiry_ok. }
  set (tops := List.filter (λ r, bool_decide (ca_kind r ≠ Intermediate)) rows).
  assert (Hsub : ∀ (p : CARow → bool) r, r ∈ List.filter p rows → r ∈ rows).
  { intros p r. rewrite list_elem_of_In, filter_In, <- list_elem_of_In. by intros []. }
  exists (map (λ r, (expiry_of now r, map (expiry_of now) (children_of rows r))) tops). split_and!.
  - apply map_each_map. intros r Hr. destruct (Hexp r) as [-> _]; [by eapply Hsub|]. cbn.
    rewrite (map_each_map _ (expiry_of now)); [done|]. intros c Hc. rewrite children_of_under in Hc. apply Hexp. by eapply Hsub.
  - rewrite map_map.
    transitivity (map (expiry_of now) (tops ++ List.filter (λ r, negb (bool_decide (ca_kind r ≠ Intermediate))) rows));
      [|symmetry; apply Permutation_map, filter_split].
    rewrite map_app.
    transitivity (concat (map (λ r, [expiry_of now r] ++ map (expiry_of now) (children_of rows r)) tops)); [done|].
    rewrite concat_map_split. apply Permutation_app.
    + clear. by induction tops; cbn; [|f_equiv].
    + rewrite <- (map_map (children_of rows) (map (expiry_of now))), <- concat_map. apply Permutation_map.
      rewrite (map_ext _ (λ t, List.filter (under t) rows)) by (intros; apply children_of_under).
      rewrite (grouped tops rows).
      * match goal with |- ?a ≡ₚ ?b => cut (a = b); [by intros ->|] end. apply filter_ext. intros r. destruct (decide (ca_kind r = Intermediate)); [rewrite bool_decide_eq_true_2, bool_decide_eq_false_2|rewrite bool_decide_eq_false_2, bool_decide_eq_true_2]; auto.
      * unfold tops. apply NoDup_map_filter. unfold rows, list_cas. eapply rows_where_NoDup. intros i r Hi. by destruct (Hh i r Hi).
      * intros c Hc%Hin Hk. destruct (Hh _ _ Hc) as (_ & Hs & _). unfold row_shape in Hs. rewrite Hk in Hs.
        destruct Hs as (_ & p & Hp & _ & t & Ht & Hkt). exists t. destruct (Hh _ _ Ht) as [Hid _]. split_and!; [|done|congruence].
        unfold tops. rewrite list_elem_of_In, filter_In, <- list_elem_of_In, Hin, bool_decide_eq_true. split; [congruence|]. by rewrite Hkt.
  - intros r Hr. by apply Hexp.
Qed.
End pages.

(** ** The pages at work *)
Module WebUiExamples.
#[local] Existing Instance Toy.lib.
#[local] Existing Instance toy_secrets.
#[local] Existing Instance toy_crypto.
Import Toy CaExamples IdentityExamples DepsExamples.
#[local] Strategy 1000 [admin_made viewer_made root_logged_in after request].
Definition is_redirect (r : Outcome Answer) : bool := match r with Ok (See _ _) => true | _ => false end.
Definition post : Post := mkPost (Some "token-7") (Some "token-8") "" (Some "10.0.0.1") t2026 t2026.
Definition visit : Post := mkPost None None "" (Some "10.0.0.1") t2026 t2026.
Definition logging_in : Login := mkLogin 17 18 t2026 t2026.

Definition eve_deleted : Outcome Answer * DB := request (user_route post (form_delete 2) 0 t2026 t2026) root_logged_in.
Lemma user_forms_exact_witness :
  is_redirect (fst eve_deleted) = true ∧ bool_decide (users (snd eve_deleted) !! 2 = None) = true ∧
  ∃ user row, by_superadmin post root_logged_in user row.
Proof.
  assert (H : is_redirect (fst eve_deleted) = true) by (vm_compute; reflexivity).
  split; [exact H|]. split; [vm_compute; reflexivity|].
  pose proof (user_forms_exact (X:=lib) (SS:=toy_secrets) (CR:=toy_crypto) post (form_delete 2) 0 t2026 t2026 root_logged_in
    (fst eve_deleted) (snd eve_deleted) root_logged_in_ok (surjective_pairing _)) as Hx.
  destruct Hx as [[_ Hx]|(user & row & Hby & _)]; [|exists user, row; exact Hby].
  destruct (fst eve_deleted); [discriminate Hx|discriminate H].
Defined.
(** The form of a viewer is refused. *)
Example weak_password_is_a_page :
  match fst (request (user_route post (form_password 2 "short") 0 t2026 t2026) root_logged_in) with
  | Ok (Users status _) => status | _ => 0 end = 400.
Proof. vm_compute. reflexivity. Qed.
(** A grant on a CA that is not there is not the page's error: nobody catches
    [UnknownIssuerError] here. *)
Example unknown_issuer_is_not_caught :
  raised (fst (request (user_route post (form_issuers 2 [7]) 0 t2026 t2026) root_logged_in)) = Some (unknown_ca 7).
Proof. vm_compute. reflexivity. Qed.
(** A superadmin who resets the own password loses the session, and the
    message with it. *)
Example own_reset_leaves_no_session :
  is_redirect (fst (request (user_route post (form_password 1 "another password") 0 t2026 t2026) root_logged_in)) = true ∧
  bool_decide (sessions (snd (request (user_route post (form_password 1 "another password") 0 t2026 t2026) root_logged_in)) = ∅) = true.
Proof. split; vm_compute; reflexivity. Qed.
(** [?edit=] with a number SQLite has no room for. *)
Example edit_overflows :
  raised (fst (request (users_list (Some "token-7") "99999999999999999999" t2026 t2026) root_logged_in)) =
  Some (OverflowError "Python int too large to convert to SQLite INTEGER").
Proof. vm_compute. reflexivity. Qed.

Definition set_up : Outcome Answer * DB := request (setup_submit visit "root" "correct horse battery" 1 t2026 logging_in) empty_db.
Lemma setup_only_once_witness :
  is_redirect (fst set_up) = true ∧ (∃ u, users (snd set_up) = {[user_id u := u]} ∧ user_role u = superadmin) ∧
  raised (fst (request (setup_submit visit "mallory" "twelve chars" 1 t2026 logging_in) (snd set_up))) = Some not_found.
Proof.
  assert (H : is_redirect (fst set_up) = true) by (vm_compute; reflexivity). split; [exact H|]. split; [|vm_compute; reflexivity].
  pose proof (setup_only_once (X:=lib) (SS:=toy_secrets) (CR:=toy_crypto) visit "root" "correct horse battery" 1 t2026 logging_in
    empty_db (fst set_up) (snd set_up) (proj2 empty_db_ok) (surjective_pairing _)) as Hx.
  destruct (fst set_up) as [[]|]; try discriminate H. destruct Hx as (_ & _ & _ & u & e1 & e2 & Hr & _ & _ & _ & _ & _ & Hu & _).
  exists u. split; [exact Hu|exact Hr].
Defined.

Definition root_in : Outcome Answer * DB := request (login_submit visit "root" "correct horse battery" 5 t2026 logging_in) viewer_made.
Lemma login_exact_witness :
  is_redirect (fst root_in) = true ∧ (∃ i u, users viewer_made !! i = Some u ∧ username u = "root") ∧
  match fst (request (login_submit visit "root" "a wrong password" 5 t2026 logging_in) viewer_made),
    fst (request (login_submit visit "nobody" "a wrong password" 5 t2026 logging_in) viewer_made) with
  | Ok (LoginPage status message), Ok (LoginPage status' message') => status = 401 ∧ message = Some LOGIN_REFUSED ∧ status' = status ∧ message' = message
  | _, _ => False end.
Proof.
  assert (H : is_redirect (fst root_in) = true) by (vm_compute; reflexivity). split; [exact H|]. split; [|vm_compute; repeat split].
  pose proof (login_exact (X:=lib) (SS:=toy_secrets) (CR:=toy_crypto) visit "root" "correct horse battery" 5 t2026 logging_in
    viewer_made (fst root_in) (snd root_in) (proj2 viewer_made_ok) (surjective_pairing _)) as Hx.
  destruct (fst root_in) as [[]|]; try discriminate H. destruct Hx as (_ & i & u & e & Hi & Hn & _).
  exists i, u. split; [exact Hi|exact Hn].
Defined.

(** An admin with grants on two issuers, one of which is retired since. *)
Definition ca_request (op : ca_op) (db : DB) : DB := snd (request (run_op (inl op)) db).
Definition caller_request (op : identity_op) (db : DB) : DB := snd (request (run_identity op) db).
Definition with_ca : DB := ca_request (op_create_root "Root" "ecdsa-p256" 20 2 (draw 0)) empty_db.
Definition with_issuer : DB := ca_request (op_create_intermediate 1 "CA" "ecdsa-p256" 10 None (draw 1)) with_ca.
Definition with_issuers : DB := ca_request (op_create_intermediate 1 "CA 2" "ecdsa-p256" 10 None (draw 2)) with_issuer.
Definition with_ann : DB := caller_request (op_create_user "ann" "another password" Store.admin 3 t2026) with_issuers.
Definition ann : UserRow := mkUser 1 "ann" "" Store.admin t2026.
Definition ann_granted : DB := caller_request (op_set_issuers (user_principal ann) [2; 3]) with_ann.
Definition one_retired : DB := ca_request (op_retire 2) ann_granted.
#[local] Strategy 1000 [with_ca with_issuer with_issuers with_ann ann_granted one_retired ca_request caller_request].
Lemma one_retired_reached : rtc system_step empty_db one_retired.
Proof.
  assert (Hca : ∀ op d e, rtc system_step e d → rtc system_step e (ca_request op d)).
  { intros op d e Hd. eapply rtc_r; [exact Hd|]. left. exists (inl op). reflexivity. }
  assert (Hid : ∀ op d e, rtc system_step e d → rtc system_step e (caller_request op d)).
  { intros op d e Hd. eapply rtc_r; [exact Hd|]. right. exists op. reflexivity. }
  apply Hca, Hid, Hid, Hca, Hca, Hca. apply rtc_refl.
Qed.
Definition shown_views : list UserView :=
  match fst (tx_map (λ u, user_issuers_view u (map ca_id (active_issuers one_retired)) (by_id (list_cas None (Some Intermediate) one_retired)))
    (list_users one_retired) (fresh_session one_retired)) with Ok l => l | Raise _ => [] end.
Definition shown_page : UsersPage :=
  mkUsersPage (mkContext ann "" None 0 (nav superadmin)) shown_views None true (active_issuers one_retired) (Some 1).
Lemma shown_page_of : page_of one_retired shown_page.
Proof.
  split; [reflexivity|]. unfold shown_page, shown_views. cbn [up_users].
  destruct (tx_map_total (λ u, user_issuers_view u (map ca_id (active_issuers one_retired)) (by_id (list_cas None (Some Intermediate) one_retired)))
    (view_of one_retired (map ca_id (active_issuers one_retired)) (by_id (list_cas None (Some Intermediate) one_retired)))
    (list_users one_retired) (fresh_session one_retired)) as (vs & Hvs & Hps); [intros u _; apply user_issuers_view_ok|].
  rewrite Hvs. exact Hps.
Qed.
(** Issuer 2 has no box any more and travels as a hidden field. *)
Lemma reposting_keeps_grants_witness :
  bool_decide (map (posted_back shown_page) shown_views = [[3; 2]]) = true ∧
  ∃ u v c, list_users one_retired !! 0%nat = Some u ∧
    request (set_issuers (user_principal u) (posted_back shown_page v)) one_retired = (Ok c, one_retired) ∧ changed c = false.
Proof.
  split; [vm_compute; reflexivity|].
  destruct (list_users one_retired !! 0%nat) as [u|] eqn:Hu.
  2: { assert (H : bool_decide (is_Some (list_users one_retired !! 0%nat)) = true) by (vm_compute; reflexivity).
       apply bool_decide_eq_true in H. rewrite Hu in H. destruct H as [x H]. discriminate H. }
  destruct (shown_views !! 0%nat) as [v|] eqn:Hv.
  2: { assert (H : bool_decide (is_Some (shown_views !! 0%nat)) = true) by (vm_compute; reflexivity).
       apply bool_decide_eq_true in H. rewrite Hv in H. destruct H as [x H]. discriminate H. }
  assert (Hs : uv_superadmin v = false).
  { assert (H : bool_decide (uv_superadmin <$> shown_views !! 0%nat = Some false) = true) by (vm_compute; reflexivity).
    apply bool_decide_eq_true in H. rewrite Hv in H. injection H as H. exact H. }
  destruct (reposting_keeps_grants (X:=lib) (SS:=toy_secrets) (CR:=toy_crypto) one_retired shown_page 0 u v one_retired_reached
    shown_page_of Hu Hv Hs) as (_ & c & Hc & Hch).
  exists u, v, c. split; [reflexivity|]. split; [exact Hc|exact Hch].
Defined.

Lemma two_roots_sound : hierarchy_ok two_roots.
Proof. apply two_roots_ok. Qed.
Lemma authorities_complete_witness :
  hierarchy_ok two_roots ∧ ∃ l, authorities (list_cas None None two_roots) t2026 = Ok l.
Proof.
  split; [exact two_roots_sound|].
  destruct (authorities_complete (X:=lib) (SS:=toy_secrets) two_roots t2026 two_roots_sound) as (l & Hl & _). exists l. exact Hl.
Defined.
End WebUiExamples.
