(* ===== verification/TokensUi.v ===== *)
(** * [cabin.web.tokens_ui]: API tokens

    Creating, restricting and revoking the bearer tokens of the REST API and
    of MCP.  The secret of a token is in one answer only, the page of the
    request that made it.  The texts of a line's dates are left out. *)

From S2P Require Import Prelude PyStr PyTime Json Numbers IPAddr X509Lib X509 Leaf Store Settings CaService Grants Identity Certs Crl AuditLog WebDeps WebUi.
#[local] Open Scope Z_scope.

(** ** The expiry date of the form *)
(** [datetime.strptime(s, "%Y-%m-%d")]: four digits, and one or two for the
    month and the day (a blank may stand for the day's first). *)
Definition all_digits (l : list ascii) : bool := forallb is_ascii_digit l.
Definition day_text (d : list ascii) : list ascii :=
  match d with " "%char :: [c] => if bool_decide (c = "0"%char) then d else [c] | _ => d end.
Definition strptime_date (s : string) : Outcome Z :=
  let bad := ValueError ("time data " +:+ py_repr s +:+ " does not match format '%Y-%m-%d'") in
  match split_chars "-" (chars s) with
  | [y; m; d] =>
      let d := day_text d in
      _ ← raise_if (negb ((length y =? 4)%nat && all_digits y && nonempty m && (length m <=? 2)%nat && all_digits m
                         && nonempty d && (length d <=? 2)%nat && all_digits d)) bad;
      let '(y, m, d) := (dec_value y, dec_value m, dec_value d) in
      _ ← raise_if (negb ((1 <=? m) && (m <=? 12) && (1 <=? d) && (d <=? 31))) bad;
      _ ← raise_if (negb ((1 <=? y) && (d <=? days_in_month (is_leap y) m))) (ValueError "day is out of range for month");
      mret (days_of_ymd y m d * day)
  | _ => Raise bad
  end.
Definition parse_expiry (raw : string) (now : Z) : Outcome (option Z) :=
  let value := strip raw in
  if decide (value = "") then mret None else
  start ← catch_pure (strptime_date value) (λ e, match e with ValueError _ => true | _ => false end)
            (λ _, Raise (TokenError "the expiry date must look like 2026-12-31"));
  expires_at ← catch_pure (add_days start 1) (λ e, match e with OverflowError _ => true | _ => false end)
            (λ _, Raise (TokenError "the expiry date is too far in the future: leave it empty for a token without expiry"));
  _ ← raise_if (expires_at <=? now) (TokenError "the expiry date must be in the future");
  mret (Some expires_at).
(** [_parse_role]: the same test, another exception. *)
Definition token_role_of (raw : string) : Outcome Role :=
  match parse_role raw with Ok r => Ok r | Raise _ => Raise (TokenError ("unknown role: " +:+ py_repr raw)) end.

(** The last day a date picker offers, a year without a 29th of February, the
    past; and a token that lives through its last day. *)
Example expiry_dates : map (λ s, parse_expiry s (days_of_ymd 2026 5 1 * day)) [""; " 2026-5-1 "; "2026-04-30"; "9999-12-31"; "2027-02-29"; "tomorrow"] =
  [Ok None; Ok (Some (days_of_ymd 2026 5 2 * day)); Raise (TokenError "the expiry date must be in the future");
   Raise (TokenError "the expiry date is too far in the future: leave it empty for a token without expiry");
   Raise (TokenError "the expiry date must look like 2026-12-31"); Raise (TokenError "the expiry date must look like 2026-12-31")].
Proof. vm_compute. reflexivity. Qed.

(** ** The page *)
Record TokenView := mkTokenView {
  tv_id : Z; tv_label : string; tv_role : Role; tv_status : string; tv_can_revoke : bool; tv_can_edit : bool;
  tv_granted_ids : list Z; tv_granted_names : list string; tv_retired : list (Z * string) }.
Record TokensPage {X : X509Lib} {SS : SecretStore} := mkTokensPage {
  tp_context : Context_; tp_tokens : list TokenView; tp_error : option string; tp_secret : option string;
  tp_active : list CARow; tp_headers : list (string * string) }.
Arguments mkTokensPage {X SS} _ _ _ _ _ _.
Inductive TokensAnswer {X : X509Lib} {SS : SecretStore} := ToTokens | TokensShown (status : Z) (p : TokensPage).
Arguments TokensShown {X SS} _ _.

(** [isoformat] of a naive timestamp. *)
Definition naive_isoformat (t : Z) : string :=
  of_chars (date_chars (t / day) ++ "T"%char :: clock_chars (t mod day) ++ fraction_chars (t mod second)).

Section tokens_ui.
Context {X : X509Lib} {SS : SecretStore} {CR : Crypto}.

Definition token_view (row : TokenRow) (now : Z) (active_ids : list Z) (all_intermediates : gmap Z CARow) : Tx DB TokenView :=
  let status := token_status row now in
  granted ← issuers_of (token_principal row);
  let named := named_grants granted all_intermediates in
  mret (mkTokenView (token_id row) (label row) (token_role row) status (bool_decide (token_revoked row = None))
    (bool_decide (status = "active")) granted (map snd named) (retired_grants active_ids named)).
Definition tokens_view_page (user : UserRow) (row : SessionRow) (now : Z) (error secret : option string) (status : Z) : Tx DB TokensAnswer :=
  active ← query active_issuers;
  all ← query (λ db, by_id (list_cas None (Some Intermediate) db));
  cx ← base_context user row now;
  listed ← query list_tokens;
  views ← tx_map (λ t, token_view t now (map ca_id active) all) listed;
  mret (TokensShown status (mkTokensPage cx views error secret active [("Cache-Control", "no-store"); ("Pragma", "no-cache")])).

(** ** The routes *)
Definition token_detail (row : TokenRow) : gmap string json :=
  <["label" := JStr (label row)]> (<["role" := JStr (role_text (token_role row))]>
    {["expires_at" := match token_expires row with Some t => JStr (naive_isoformat t) | None => JNull end]}).
Definition token_target (n : Z) : option (string * option string) := Some ("api_token", Some (id_text n)).
Definition create_token_route (q : Post) (label_ role expires_at : string) (issuer_ids : list Z) (draw checked now shown : Z)
  : Tx DB TokensAnswer :=
  '(user, row) ← superadmin_post q;
  made ← attempt (r ← lift (token_role_of role); expiry ← lift (parse_expiry expires_at checked); create_token label_ r expiry draw now);
  match made with
  | Raise (TokenError m) => tokens_view_page user row shown (Some m) None 400
  | Raise e => mthrow e
  | Ok (secret, token) =>
      _ ← log q (user_actor user) a_token_created
            ("created API token " +:+ py_repr (label token) +:+ " with role " +:+ role_text (token_role token))
            (token_target (token_id token)) (Some (token_detail token)) (po_logged q);
      if nonempty issuer_ids then
        change ← attempt (set_issuers (token_principal token) issuer_ids);
        match change with
        | Raise (ValueError m) => tokens_view_page user row shown (Some m) (Some secret) 400
        | Raise e => mthrow e
        | Ok _ => tokens_view_page user row shown None (Some secret) 200
        end
      else tokens_view_page user row shown None (Some secret) 200
  end.
Definition update_token_issuers_route (q : Post) (n : Z) (issuer_ids : list Z) (shown : Z) : Tx DB TokensAnswer :=
  '(user, row) ← superadmin_post q;
  found ← query (get_token n);
  token ← lift (of_option found not_found);
  change ← attempt (set_issuers (token_principal token) issuer_ids);
  match change with
  | Raise (ValueError m) => tokens_view_page user row shown (Some m) None 400
  | Raise e => mthrow e
  | Ok change =>
      _ ← (if changed change then
             let summary := "changed issuer grants for token " +:+ py_repr (label token) in
             _ ← log q (user_actor user) a_token_issuers_changed summary (token_target (token_id token))
                   (Some (grant_change_detail change)) (po_logged q);
             set_flash row summary
           else mret ());
      mret ToTokens
  end.
Definition revoke_token_route (q : Post) (n now : Z) : Tx DB TokensAnswer :=
  '(user, row) ← superadmin_post q;
  found ← query (get_token n);
  match found with
  | None => mret ToTokens
  | Some token =>
      if bool_decide (is_Some (token_revoked token)) then mret ToTokens else
      _ ← revoke_token n now;
      let summary := "revoked API token " +:+ py_repr (label token) in
      _ ← log q (user_actor user) a_token_revoked summary (token_target (token_id token))
            (Some (<["label" := JStr (label token)]> {["role" := JStr (role_text (token_role token))]})) (po_logged q);
      _ ← set_flash row summary;
      mret ToTokens
  end.
Definition tokens_page (cookie : option string) (seen shown : Z) : Tx DB TokensAnswer :=
  '(user, row, _) ← get_current_user cookie seen;
  user ← lift (require_superadmin user);
  tokens_view_page user row shown None None 200.
End tokens_ui.

(** ** Correctness *)
Section theorems.
Context {X : X509Lib} {SS : SecretStore} {CR : Crypto}.

Lemma token_view_ok row now active all s : ∃ v, token_view row now active all s = (Ok v, s) ∧ tv_id v = token_id row ∧
  ∀ c, c ∈ tv_granted_ids v ↔ (token_id row, c) ∈ token_issuers (work s).
Proof.
  destruct (grant_ids_ok (work s) (token_principal row)) as (g & Hg & Hin); [by right|].
  assert (Hi : issuers_of (token_principal row) s = (Ok (sorted_ids g), s)).
  { transitivity ((lift (grant_ids (work s) (token_principal row)) ≫= λ g, mret (sorted_ids g)) s); [done|]. by rewrite Hg. }
  unfold token_view. rewrite Tx_bind_eq, Hi. eexists. split; [reflexivity|]. split; [done|]. intros c. cbn. rewrite elem_sorted_ids. apply Hin.
Qed.
Lemma wp_tokens_view_page user row now error secret status db (Q : Outcome TokensAnswer → Session DB → Prop) :
  is_Some (sessions db !! session_hash row) →
  (∀ p, tp_error p = error → tp_secret p = secret → tp_headers p = [("Cache-Control", "no-store"); ("Pragma", "no-cache")] →
     Q (Ok (TokensShown status p)) (fresh_session (popped row db))) →
  wp (tokens_view_page user row now error secret status) (fresh_session db) Q.
Proof.
  intros Hrow H. unfold tokens_view_page. do 2 apply wp_bind, wp_query. cbn [work fresh_session].
  apply wp_bind, wp_bind, wp_pop_flash; [done|]. wp_run. 
  destruct (tx_map_total (λ t, token_view t now (map ca_id (active_issuers db)) (by_id (list_cas None (Some Intermediate) db)))
    (λ _ _, True) (list_tokens (popped row db)) (fresh_session (popped row db))) as (vs & Hvs & _).
  { intros t _. destruct (token_view_ok t now (map ca_id (active_issuers db)) (by_id (list_cas None (Some Intermediate) db))
      (fresh_session (popped row db))) as (v & Hv & _). by exists v. }
  unfold wp at 1. change (work (fresh_session (popped row db))) with (popped row db). rewrite Hvs. cbn [fst snd].
  apply wp_ret. by apply H.
Qed.
(** The only exception of [strptime]. *)
Lemma raise_if_bind_raised {B} (b : bool) e (k : unit → Outcome B) x : (raise_if b e ≫= k) = Raise x → x = e ∨ k () = Raise x.
Proof. destruct b; cbn; [intros [= ->]; by left|by right]. Qed.
Lemma strptime_raised s e : strptime_date s = Raise e → ∃ m, e = ValueError m.
Proof.
  unfold strptime_date. destruct (split_chars _ _) as [|y [|m [|d [|]]]]; try (intros [= <-]; by eexists).
  generalize (day_text d). clear d. intros d H.
  apply raise_if_bind_raised in H as [->|H]; [by eexists|]. apply raise_if_bind_raised in H as [->|H]; [by eexists|].
  apply raise_if_bind_raised in H as [->|H]; [by eexists|done].
Qed.
(** What a new token is. *)
Record minted (label_ role expires_at : string) (checked now : Z) (d : DB) (secret : string) (t : TokenRow) : Prop := {
  minted_new : tokens d !! token_id t = None;
  minted_digest : token_hash t = hash_secret secret;
  minted_unique : ∀ i u, tokens d !! i = Some u → token_hash u ≠ hash_secret secret;
  minted_label : label t = strip label_ ∧ label t ≠ "" ∧ py_len (label t) ≤ Identity.MAX_LABEL_LENGTH;
  minted_role : parse_role role = Ok (token_role t);
  minted_expiry : parse_expiry expires_at checked = Ok (token_expires t);
  minted_live : token_revoked t = None }.
Lemma wp_mint label_ role expires_at draw checked now d (Q : Outcome (string * TokenRow) → Session DB → Prop) :
  (∀ m, Q (Raise (TokenError m)) (fresh_session d)) → Q (Raise unique_failed) (fresh_session d) →
  (∀ secret t, minted label_ role expires_at checked now d secret t → Q (Ok (secret, t)) (fresh_session (on_tokens (λ m, <[token_id t := t]> m) d))) →
  wp (r ← lift (token_role_of role); expiry ← lift (parse_expiry expires_at checked); create_token label_ r expiry draw now) (fresh_session d) Q.
Proof.
  intros Hbad Huniq Hok. apply wp_bind, wp_lift.
  2: { unfold token_role_of. destruct (parse_role role); [done|]. intros x [= <-]. apply Hbad. }
  intros r Hr. assert (parse_role role = Ok r) as Hr' by (unfold token_role_of in Hr; by destruct (parse_role role)).
  apply wp_bind, wp_lift.
  2: { unfold parse_expiry, catch_pure, raise_if. intros e He. destruct (decide _); [done|].
       destruct (strptime_date _) as [start|e1] eqn:E1; cbn in He.
       - destruct (add_days start 1) as [x|e2] eqn:E2; cbn in He.
         + destruct (x <=? checked); cbn in He; [injection He as <-; apply Hbad|done].
         + unfold add_days in E2. repeat case_match; simplify_eq/=; apply Hbad.
       - destruct (strptime_raised _ _ E1) as [m ->]. injection He as <-. apply Hbad. }
  intros expiry He. unfold create_token. wp_run; guards; try apply Hbad; try apply Huniq.
  apply (Hok _ (mkToken _ _ _ _ _ _ _ _)). split; cbn; try done.
  - apply next_id_fresh.
  - intros i u Hi Hh. match goal with H : ¬ is_Some (first_where _ _) |- _ => apply eq_None_not_Some in H; rewrite first_where_none in H; specialize (H i u Hi); by apply bool_decide_eq_false in H
      | H : first_where _ _ = None |- _ => rewrite first_where_none in H; specialize (H i u Hi); by apply bool_decide_eq_false in H end.
  - split_and!; [done|done|]. lia.
Qed.

(** The grants of token [n] in [d'] are [ids]; nothing else differs. *)
Definition granted_to (n : Z) (ids : list Z) (d d' : DB) : Prop :=
  (∀ j c, (j, c) ∈ token_issuers d' ↔ (j = n ∧ c ∈ ids) ∨ (j ≠ n ∧ (j, c) ∈ token_issuers d)) ∧
  d' = on_token_issuers (λ _, token_issuers d') d.
(** The database with the new token, and the entry that says so. *)
Definition with_token (t : TokenRow) (e : AuditRow) (d : DB) : DB := with_entry e (on_tokens (λ m, <[token_id t := t]> m) d).
Definition token_says (t : TokenRow) : string := "created API token " +:+ py_repr (label t) +:+ " with role " +:+ role_text (token_role t).
Record token_made (user : UserRow) (label_ role expires_at : string) (checked now : Z) (d : DB) (secret : string) (t : TokenRow) (e : AuditRow) : Prop := {
  made_minted : minted label_ role expires_at checked now d secret t;
  made_logged : log_entry (user_actor user) a_token_created (token_says t) e;
  made_entry : audit_events d !! aud_id e = None }.
(** What became of the form a superadmin sent, [d] being the database the
    guard leaves. *)
Definition token_outcome (user : UserRow) (row : SessionRow) (label_ role expires_at : string) (ids : list Z) (checked now : Z) (d : DB)
    (r : Outcome TokensAnswer) (db' : DB) : Prop :=
  match r with
  | Ok ToTokens => False
  | Ok (TokensShown status p) => tp_headers p = [("Cache-Control", "no-store"); ("Pragma", "no-cache")] ∧
      match tp_secret p with
      | None => status = 400 ∧ is_Some (tp_error p) ∧ db' = popped row d
      | Some secret => ∃ t e, token_made user label_ role expires_at checked now d secret t e ∧
          ((status = 200 ∧ tp_error p = None ∧ (∀ c, c ∈ ids → issuer_at d c) ∧
            ∃ d', granted_to (token_id t) ids (with_token t e d) d' ∧ db' = popped row d') ∨
           (status = 400 ∧ is_Some (tp_error p) ∧ (∃ c, c ∈ ids ∧ ¬ issuer_at d c) ∧ db' = popped row (with_token t e d)))
      end
  | Raise x => (x = unique_failed ∧ db' = d) ∨
      ∃ secret t e c, token_made user label_ role expires_at checked now d secret t e ∧ c ∈ ids ∧ cas d !! c = None ∧
        x = unknown_ca c ∧ db' = with_token t e d
  end.

(** Creating a token.  Only a superadmin's session with its own token
    reaches the handler.  A page with a secret, which no cache may keep, means
    that one live token with that secret's digest, the given label, role and
    expiry was added and logged, and that it may use exactly the issuers that
    were ticked; if one of them is no intermediate the token is there, without
    grants, and the page says so beside the secret.  A page without a secret
    changed nothing.  The one other end is an issuer that does not exist: the
    token was added and logged, and the answer, a 500, does not carry its
    secret. *)
Theorem token_created_exact q label_ role expires_at ids draw checked now shown db r db' : identity_ok db →
  request (create_token_route q label_ role expires_at ids draw checked now shown) db = (r, db') →
  (∃ e, r = Raise e ∧ form_refused [superadmin] (po_cookie q) (po_csrf q) (po_seen q) db e db') ∨
  ∃ user row, by_superadmin q db user row ∧
    token_outcome user (seen_row (po_seen q) row) label_ role expires_at ids checked now (seen (po_seen q) row db) r db'.
Proof.
  intros Hdb Hreq. pattern r, db'. eapply request_wp; [exact Hreq|]. clear r db' Hreq. cbn beta.
  unfold create_token_route. apply wp_bind, wp_ui_guard; [done| |intros e d He; left; by exists e].
  intros user row Ho Hr%list_elem_of_singleton Hc. pose proof (seen_stored _ _ _ _ _ Hdb Ho) as Hrow.
  pose proof (seen_ok (po_seen q) row db Hdb) as Hd.
  set (row' := seen_row _ _) in *. set (d := seen _ _ _) in *.
  apply wp_mono with (λ r s, token_outcome user row' label_ role expires_at ids checked now d r (durable s)).
  2: { intros r s H. right. by exists user, row. }
  apply wp_bind, wp_attempt, wp_mint.
  - intros m. apply wp_tokens_view_page; [by eexists|]. intros p He Hs Hh. cbn. rewrite Hs, He. by split_and!.
  - apply wp_throw. by left.
  - intros secret t Hm. cbn beta iota. apply wp_bind, wp_log. intros e Hl He. cbn [work fresh_session] in *.
    fold (with_token t e d). set (d1 := with_token t e d).
    assert (Hmade : token_made user label_ role expires_at checked now d secret t e) by by split.
    assert (Hrow1 : is_Some (sessions d1 !! session_hash row')) by by eexists.
    assert (Hno : ∀ c, (token_id t, c) ∉ token_issuers d1).
    { intros c Hin. destruct (token_grants _ Hd _ _ Hin) as [u Hu]. rewrite (minted_new _ _ _ _ _ _ _ _ Hm) in Hu. discriminate Hu. }
    assert (Hgood : ∀ d', granted_to (token_id t) ids d1 d' → sessions d' = sessions d1 → (∀ c, c ∈ ids → issuer_at d c) →
      wp (tokens_view_page user row' shown None (Some secret) 200) (fresh_session d') (λ r s,
        token_outcome user row' label_ role expires_at ids checked now d r (durable s))).
    { intros d' Hg Hs Hall. apply wp_tokens_view_page; [by rewrite Hs|]. intros p Hpe Hps Hph. cbn. rewrite Hps, Hpe. split; [done|].
      exists t, e. split; [done|]. left. split_and!; [done..|]. by exists d'. }
    assert (Hnone : (∀ c, c ∉ ids) → granted_to (token_id t) ids d1 d1).
    { intros Hids. split; [|by destruct d1]. intros j c. split.
      - intros Hin. right. split; [|done]. intros ->. by apply Hno in Hin.
      - intros [[_ Hin]|[_ Hin]]; [by apply Hids in Hin|done]. }
    destruct (nonempty ids) eqn:Hids.
    + apply wp_bind, wp_attempt, (wp_set_issuers _ (token_id t)); [done|done| |..].
      * unfold has_owner, d1. cbn. rewrite lookup_insert_eq. by apply bool_decide_eq_true_2; eexists.
      * intros c _ _ Hall. apply Hgood; [|done|exact Hall]. split; [|done]. intros j x. cbn [token_principal on_grants p_kind on_token_issuers token_issuers].
        rewrite elem_replaced, elem_of_list_to_set. done.
      * intros c _ Hx Hall. apply Hgood; [|done|exact Hall]. apply Hnone. intros x Hin%Hx. by apply Hno in Hin.
      * intros x c Hc' Hx. destruct Hx as [[Hn ->]|(rr & m & Hrr & Hk & ->)].
        -- apply wp_throw. right. by exists secret, t, e, c.
        -- apply wp_tokens_view_page; [done|]. intros p Hpe Hps Hph. cbn. rewrite Hps, Hpe. split; [done|]. exists t, e. split; [done|]. right.
           split_and!; try done. exists c. split; [done|]. intros (r2 & Hr2 & Hk2). cbn in Hrr. congruence.
    + apply nonempty_false in Hids as ->. apply Hgood; [|done|by intros c ?%not_elem_of_nil]. apply Hnone. intros c. apply not_elem_of_nil.
Qed.
End theorems.

(** ** The page at work *)
Module TokensUiExamples.
#[local] Existing Instance Toy.lib.
#[local] Existing Instance toy_secrets.
#[local] Existing Instance toy_crypto.
Import Toy CaExamples IdentityExamples DepsExamples WebUiExamples.
#[local] Strategy 1000 [admin_made viewer_made root_logged_in after request].
Definition creating (ids : list Z) : Outcome TokensAnswer * DB :=
  request (create_token_route post " backup " "viewer" "2026-12-31" ids 9 t2026 t2026 t2026) root_logged_in.
Definition secret_of (r : Outcome TokensAnswer) : option string := match r with Ok (TokensShown _ p) => tp_secret p | _ => None end.
Lemma token_created_exact_witness :
  secret_of (fst (creating [])) = Some "cabin_token-9" ∧
  ∃ user row t e, by_superadmin post root_logged_in user row ∧
    token_made user " backup " "viewer" "2026-12-31" t2026 t2026 (seen t2026 row root_logged_in) "cabin_token-9" t e.
Proof.
  assert (H : secret_of (fst (creating [])) = Some "cabin_token-9") by (vm_compute; reflexivity). split; [exact H|].
  destruct (token_created_exact (X:=lib) (SS:=toy_secrets) (CR:=toy_crypto) post " backup " "viewer" "2026-12-31" [] 9 t2026 t2026 t2026
    root_logged_in (fst (creating [])) (snd (creating [])) root_logged_in_ok (surjective_pairing _)) as [(e & He & _)|(user & row & Hby & Hx)].
  - rewrite He in H. discriminate H.
  - destruct (fst (creating [])) as [[|status p]|x]; [discriminate H| |discriminate H]. destruct Hx as [_ Hx]. cbn [secret_of] in H. rewrite H in Hx.
    destruct Hx as (t & e & Hm & _). exists user, row, t, e. split; [exact Hby|exact Hm].
Defined.
(** The token is there and nobody holds its secret. *)
Example secret_lost :
  raised (fst (creating [7])) = Some (unknown_ca 7) ∧ size (tokens (snd (creating [7]))) = 1%nat.
Proof. split; vm_compute; reflexivity. Qed.
End TokensUiExamples.
