(* ===== verification/RestApi.v ===== *)
(** * The REST API

    [api/v1.py] with the rows it answers with ([api/views.py]) and the limits
    of its requests ([api/models.py]).  Every route authenticates the bearer
    token, then does what the UI does, through the same domain operations, and
    answers every domain failure with the status it is mapped to.  Reading a
    request into its fields is pydantic's, so the fields are arguments; their
    limits are checked here, after the token, as FastAPI does. *)

From S2P Require Import Prelude PyStr PyTime Json IPAddr X509Lib X509 Leaf Store Settings CaService Grants Identity Certs Crl AuditLog WebDeps.
#[local] Open Scope Z_scope.

(** ** Requests and answers *)
Record IssueRequest := mkIssueRequest {
  ir_subject_cn : string; ir_sans : list string; ir_profile : Profile; ir_key_type : string; ir_days : Z;
  ir_issuer : option Z }.
Record SignRequest {X : X509Lib} := mkSignRequest {
  sr_csr : Pem; sr_profile : Profile; sr_days : Z; sr_sans : list string; sr_issuer : option Z }.
Arguments mkSignRequest {X} _ _ _ _ _.
Definition days_in_limits (n : Z) : bool := (MIN_DAYS <=? n) && (n <=? MAX_DAYS).
Definition sans_in_limits (l : list string) : bool := Z.of_nat (length l) <=? MAX_SANS.
Definition issue_request_ok (b : IssueRequest) : bool :=
  (1 <=? py_len (ir_subject_cn b)) && (py_len (ir_subject_cn b) <=? MAX_CN_LENGTH) && sans_in_limits (ir_sans b)
  && bool_decide (ir_key_type b ∈ KEY_TYPES) && days_in_limits (ir_days b).
(** The PEM is one the library has read or refused, so it is not empty. *)
Definition sign_request_ok {X : X509Lib} (b : SignRequest) : bool := sans_in_limits (sr_sans b) && days_in_limits (sr_days b).
Definition unprocessable : Exc := RequestValidationError "the request is outside the limits of its model".

(** [certificate_fields] and the models built on it. *)
Record Summary := mkSummary {
  sm_id : Z; sm_serial : string; sm_cn : string; sm_sans : list string; sm_profile : string;
  sm_not_before : Z; sm_not_after : Z; sm_status : CertStatus; sm_has_key : bool;
  sm_revoked_at : option Z; sm_reason : option RevocationReason }.
Record PemView {X : X509Lib} := mkPemView { pv_summary : Summary; pv_pem : Pem; pv_chain : list Pem; pv_capped : option Z }.
Arguments mkPemView {X} _ _ _ _.
Record Detail {X : X509Lib} {SS : SecretStore} := mkDetail {
  dt_summary : Summary; dt_pem : Pem; dt_chain : list Pem; dt_capped : option Z;
  dt_key : option (Plain Pem); dt_key_error : option string }.
Arguments mkDetail {X SS} _ _ _ _ _ _.
Record Listing (A : Type) := mkListing { items : list A; total : nat; page : Z; per_page : nat; pages : nat }.
Arguments mkListing {A} _ _ _ _ _.
Arguments items {A} _.
Arguments total {A} _.
Arguments page {A} _.
Arguments per_page {A} _.
Arguments pages {A} _.
Record RevocationInfo := mkRevocationInfo {
  rv_id : Z; rv_serial : string; rv_revoked_at : Z; rv_reason : RevocationReason; rv_crl_url : option string }.
(** [IssuerInfo]: a row, what its certificate says, and where it is published. *)
Record IssuerInfo := mkIssuerInfo {
  ii_id : Z; ii_name : string; ii_kind : CAKind; ii_status : CAStatus; ii_parent : option Z; ii_cross_of : option Z;
  ii_described : CertDescription; ii_crl_url : option string; ii_ca_url : option string }.
Record CAInfo := mkCAInfo { issuers : list IssuerInfo; base_url : option string }.
Definition NO_CA : string := "no CA has been created or imported yet".
(** [max(1, (total + per_page - 1) // per_page)] *)
Definition pages_of (total per_page : nat) : nat := Nat.max 1 ((total + per_page - 1) / per_page).

Section views.
Context {X : X509Lib} {SS : SecretStore}.

Definition certificate_fields (row : CertRow) (now : Z) : Outcome Summary :=
  not_before ← fromisoformat (crt_not_before row);
  not_after ← not_after_dt row;
  revoked ← revoked_at_dt row;
  mret (mkSummary (crt_id row) (serial_hex row) (subject_cn row) (crt_sans row) (crt_profile row) not_before not_after
    (certificate_status not_after now revoked) (bool_decide (is_Some (crt_key row))) revoked (revocation_reason row)).
Definition certificate_list (rows : list CertRow) (total : nat) (page now : Z) : Outcome (Listing Summary) :=
  items ← map_each (λ r, certificate_fields r now) rows;
  mret (mkListing items total page PER_PAGE (pages_of total PER_PAGE)).
Definition chain_pem_for_issuer (issuer_id now : Z) (db : DB) : Outcome (list Pem) :=
  rows ← chain_for db issuer_id now;
  mret (map ca_cert rows).
Definition certificate_pem (row : CertRow) (now : Z) (validity_capped_from : option Z) (db : DB) : Outcome PemView :=
  summary ← certificate_fields row now;
  chain ← chain_pem_for_issuer (crt_issuer row) now db;
  mret (mkPemView summary (crt_pem row) chain validity_capped_from).
Definition issuer_info (db : DB) (row : CARow) : Outcome IssuerInfo :=
  cert ← load_cert (ca_cert row);
  crl_url ← (if decide (ca_kind row = Intermediate) then distribution_url (ca_id row) db else mret None);
  ca_url ← ca_issuers_url (ca_id row) db;
  mret (mkIssuerInfo (ca_id row) (ca_name row) (ca_kind row) (ca_status row) (parent_id row) (cross_of_id row)
    (describe_certificate cert) crl_url ca_url).
Definition ca_info (db : DB) : Outcome CAInfo :=
  let rows := list_cas None None db in
  _ ← raise_if (negb (nonempty rows)) (CANotConfiguredError NO_CA);
  infos ← map_each (issuer_info db) rows;
  mret (mkCAInfo infos (get_setting BASE_URL db)).
Definition revocation_info (row : CertRow) (db : DB) : Outcome RevocationInfo :=
  revoked ← revoked_at_dt row;
  at_ ← of_option revoked (AssertionError "");
  crl_url ← distribution_url (crt_issuer row) db;
  mret (mkRevocationInfo (crt_id row) (serial_hex row) at_ (default unspecified (revocation_reason row)) crl_url).
End views.

Section api.
Context {X : X509Lib} {SS : SecretStore} {CR : Crypto}.

(** ** What a domain failure is answered with *)
Definition domain_error (e : Exc) : Exc :=
  match e with
  | IssueError m | NameConstraintError m | ValueError m => HTTPException 400 m []
  | UnknownIssuerError m | IssuerRetiredError m | IssuerRequiredError m => HTTPException 400 m []
  | IssuerForbiddenError m | NoGrantedIssuerError m => HTTPException 403 m []
  | RevocationError m => HTTPException 404 m []
  | CANotConfiguredError m => HTTPException 409 m []
  | SecretsError _ => HTTPException 409 KEY_UNAVAILABLE []
  | _ => e
  end.
Definition domain_errors {A} (m : Tx DB A) : Tx DB A := catch m (λ _, true) (λ e, mthrow (domain_error e)).

Definition key_fields (token : TokenRow) (row : CertRow) : Outcome (option (Plain Pem) * option string) :=
  if bool_decide (token_role token ∉ ADMIN_ROLES) then mret (None, None) else key_material row.
Definition detail_of (token : TokenRow) (row : CertRow) (now : Z) (capped : option Z) (db : DB) : Outcome Detail :=
  view ← certificate_pem row now capped db;
  '(key, error) ← key_fields token row;
  mret (mkDetail (pv_summary view) (pv_pem view) (pv_chain view) (pv_capped view) key error).
Definition certificate_event (summary : string) (row : CertRow) (detail : gmap string json) (from : option string) : Event :=
  mkEvent summary (Some ("certificate", Some (str_of_Z (crt_id row)))) (Some detail) from.

(** ** The routes; [seen], [shown] and [logged] are readings of the clock *)
Definition get_ca_route (credentials : option string) (seen : Z) : Tx DB CAInfo :=
  _ ← require_api_read credentials seen;
  domain_errors (info ← query ca_info; lift info).
Definition list_certificates_route (credentials : option string) (q : string) (status : option CertStatus) (page seen now : Z)
  : Tx DB (Listing Summary) :=
  _ ← require_api_read credentials seen;
  _ ← raise_if ((Z.of_nat MAX_QUERY_LENGTH <? py_len q) || (page <? 1) || (MAX_PAGE <? page)) unprocessable;
  found ← query (list_certificates q (match status with Some s => status_text s | None => "all" end) page PER_PAGE now);
  lift (certificate_list (fst found) (snd found) page now).
Definition issue_certificate_route (credentials : option string) (body : IssueRequest) (seen : Z) (d : Draw) (created shown logged : Z)
    (from : option string) : Tx DB Detail :=
  token ← require_api_write credentials seen;
  _ ← raise_if (negb (issue_request_ok body)) unprocessable;
  '(issued, detail) ← domain_errors (
    issued ← issue_and_store (token_principal token) (ir_profile body) (ir_subject_cn body) (ir_sans body) (ir_days body)
      (ir_key_type body) (ir_issuer body) api d created;
    detail ← query (detail_of token (issued_row issued) shown (capped_from issued));
    detail ← lift detail;
    mret (issued, detail));
  let row := issued_row issued in
  _ ← record (token_actor token) a_cert_issued (certificate_event (issued_summary row) row
    (certificate_detail row (Some (ir_key_type body))
      (if bool_decide (is_Some (capped_from issued)) then Some (ir_days body) else None) (capped_from issued)) from) logged;
  mret detail.
Definition sign_csr_route (credentials : option string) (body : SignRequest) (seen : Z) (d : Draw) (created shown logged : Z)
    (from : option string) : Tx DB Detail :=
  token ← require_api_write credentials seen;
  _ ← raise_if (negb (sign_request_ok body)) unprocessable;
  '(issued, detail) ← domain_errors (
    issued ← sign_csr_and_store (token_principal token) (sr_csr body) (sr_profile body) (sr_days body)
      (if nonempty (sr_sans body) then Some (sr_sans body) else None) None false (sr_issuer body) api d created;
    detail ← query (detail_of token (issued_row issued) shown (capped_from issued));
    detail ← lift detail;
    mret (issued, detail));
  let row := issued_row issued in
  _ ← record (token_actor token) a_cert_signed (certificate_event (signed_summary row) row
    (certificate_detail row None
      (if bool_decide (is_Some (capped_from issued)) then Some (sr_days body) else None) (capped_from issued)) from) logged;
  mret detail.
Definition get_certificate_route (credentials : option string) (cert_id seen now : Z) : Tx DB Detail :=
  token ← require_api_read credentials seen;
  found ← query (get_certificate cert_id);
  row ← lift (certificate_or_404 found);
  domain_errors (detail ← query (detail_of token row now None); lift detail).
Definition revoke_certificate_route (credentials : option string) (cert_id : Z) (reason : RevocationReason) (seen now logged : Z)
    (from : option string) : Tx DB RevocationInfo :=
  token ← require_api_write credentials seen;
  existing ← query (get_certificate cert_id);
  let was_revoked := match existing with Some r => bool_decide (is_Some (revoked_at r)) | None => false end in
  row ← domain_errors (revoke_certificate cert_id reason (token_principal token) now);
  _ ← (if was_revoked then mret () else
         _ ← record (token_actor token) a_cert_revoked
               (certificate_event (revoked_summary row reason) row (revocation_detail row reason) from) logged; mret ());
  info ← query (revocation_info row);
  lift info.
Definition list_audit_route (credentials : option string) (q : string) (action : option AuditAction) (actor : option ActorKind)
    (page seen : Z) : Tx DB (Listing AuditRow) :=
  _ ← require_api_read credentials seen;
  _ ← raise_if ((Z.of_nat AUDIT_MAX_QUERY_LENGTH <? py_len q) || (page <? 1) || (AUDIT_MAX_PAGE <? page)) unprocessable;
  found ← query (list_events q (match action with Some a => action_text a | None => "all" end)
                   (match actor with Some k => kind_text k | None => "all" end) page AUDIT_PER_PAGE);
  mret (mkListing (fst found) (snd found) page AUDIT_PER_PAGE (pages_of (snd found) AUDIT_PER_PAGE)).
End api.

(** ** Correctness *)
Section theorems.
Context {X : X509Lib} {SS : SecretStore} {CR : Crypto}.

Lemma wp_domain_errors {A} (m : Tx DB A) s (Q : Outcome A → Session DB → Prop) :
  wp m s (λ r s', match r with Ok a => Q (Ok a) s' | Raise e => Q (Raise (domain_error e)) s' end) → wp (domain_errors m) s Q.
Proof. intros H. apply wp_catch. eapply wp_mono; [exact H|]. by intros [a|e] s'. Qed.
Lemma revoked_at_dt_ok r : revocation_ok r → ∃ t, revoked_at_dt r = Ok t ∧ (is_Some t ↔ is_Some (revoked_at r)).
Proof.
  unfold revocation_ok, revoked_at_dt. destruct (revoked_at r) as [s|]; [|by exists None].
  intros (t & Ht & -> & _). exists (Some t). pose proof (isoformat_nonempty t Ht).
  destruct (isoformat t) eqn:E; [done|]. rewrite <- E, fromisoformat_isoformat by done. split; [done|]. split; by eexists.
Qed.
(** A stored row can be shown. *)
Lemma certificate_fields_ok r cert now : row_describes r cert → revocation_ok r →
  ∃ t, (is_Some t ↔ is_Some (revoked_at r)) ∧ certificate_fields r now = Ok (mkSummary (crt_id r) (serial_hex r) (subject_cn r)
    (crt_sans r) (crt_profile r) (not_valid_before cert) (not_valid_after cert)
    (certificate_status (not_valid_after cert) now t) (bool_decide (is_Some (crt_key r))) t (revocation_reason r)).
Proof.
  intros Hd Hv. destruct (revoked_at_dt_ok r Hv) as (t & Ht & Hiff). exists t. split; [done|].
  destruct (row_dates _ _ Hd) as (H1 & H2 & _). unfold certificate_fields, not_after_dt.
  by rewrite (row_begin _ _ Hd), (row_end _ _ Hd), !fromisoformat_isoformat, Ht by done.
Qed.
Lemma chain_pem_ok n now db r : hierarchy_ok db → cas db !! n = Some r → ∃ l, chain_pem_for_issuer n now db = Ok l.
Proof.
  intros Hh Hn. destruct (chains_for_selects db n now r Hh Hn) as (cs & _ & _ & Hcs & _).
  unfold chain_pem_for_issuer, chain_for. rewrite Hcs. by eexists.
Qed.
Lemma key_material_ok r cert k : row_describes r cert → crt_key r = Some k →
  ∃ key, key_material r = Ok (Some (PlainPem (private_pem key)), None) ∧ public_key key = cert_key cert.
Proof.
  intros Hd Hk. destruct (row_key _ _ Hd _ Hk) as (key & Hu & Hp). exists key. split; [|done].
  unfold key_material, key_pem. by rewrite Hk, Hu.
Qed.

(** What was just issued can be shown at once. *)
Lemma issued_shown d p iid row cert ic ik now capped : hierarchy_ok d → issued_by d p iid row cert ic ik →
  ∃ view, certificate_pem row now capped (on_certs (λ m, <[crt_id row := row]> m) d) = Ok view ∧
    pv_pem view = crt_pem row ∧ sm_serial (pv_summary view) = serial_hex row ∧ sm_revoked_at (pv_summary view) = None.
Proof.
  intros Hh Hby. destruct (issued_unrevoked _ _ _ _ _ _ _ Hby) as [Hrev Hreas].
  destruct (certificate_fields_ok row cert now (issued_describes _ _ _ _ _ _ _ Hby)) as (t & Hrt & Hf);
    [by unfold revocation_ok; rewrite Hrev|].
  destruct (issued_ca _ _ _ _ _ _ _ Hby) as (ca & Hca & _).
  destruct (chain_pem_ok (crt_issuer row) now (on_certs (λ m, <[crt_id row := row]> m) d) ca) as [l Hl]; [by apply (hierarchy_same d)|done|].
  unfold certificate_pem. rewrite Hf. cbn [mbind Outcome_bind]. rewrite Hl. eexists. split_and!; [done..|].
  destruct t as [t|]; [|done]. destruct Hrt as [[? Hn] _]; [by eexists|by rewrite Hrev in Hn].
Qed.

(** What a refused request may leave: the note of a live token's last use. *)
Definition no_more_than_used (credentials : option string) (now : Z) (db db' : DB) : Prop :=
  db' = db ∨ ∃ row, presents credentials now db row ∧ used now row db db'.
Lemma used_cas now row db d : used now row db d → cas d = cas db ∧ certs d = certs db ∧ crls d = crls db.
Proof. by intros [->| ->]. Qed.
(** The log entry of a token's deed. *)
Record token_entry (token : TokenRow) (action : AuditAction) (e : AuditRow) : Prop := {
  entry_action : aud_action e = action;
  entry_kind : actor_kind e = k_token;
  entry_actor : actor_id e = Some (token_id token) }.
Lemma used_audit now row db d : used now row db d → audit_events d = audit_events db.
Proof. by intros [->| ->]. Qed.
Lemma token_entry_row token row action e now n : token_of token row → token_entry row action (audit_row (token_actor token) action e now n).
Proof. intros Ht. rewrite (of_actor _ _ Ht). by split. Qed.
Lemma used_hierarchy now row db d : used now row db d → hierarchy_ok db → hierarchy_ok d.
Proof. intros Hu. apply hierarchy_same, (used_cas _ _ _ _ Hu). Qed.
Lemma used_inventory now row db d : used now row db d → inventory_ok db → inventory_ok d.
Proof.
  intros Hu [Hh Hc Hp]. destruct (used_cas _ _ _ _ Hu) as (H1 & H2 & H3).
  split; [by eapply hierarchy_same|by eapply certs_ok_same|]. intros i r. rewrite H2, H3. apply Hp.
Qed.
Lemma presents_unique credentials now db a b : identity_ok db → presents credentials now db a → presents credentials now db b → a = b.
Proof.
  intros Hid (s & Hs & _ & Ha & Hha & _) (s' & Hs' & _ & Hb & Hhb & _). assert (s' = s) as -> by congruence.
  assert (token_id a = token_id b) as He by (eapply (token_digests _ Hid); [done..|congruence]). congruence.
Qed.
Lemma revocation_info_ok db q : revocation_ok q → is_Some (revoked_at q) → is_ok (distribution_url (crt_issuer q) db) = true →
  ∃ t why u, in_datetime t ∧ revoked_at q = Some (isoformat t) ∧ revocation_reason q = Some why ∧
    revocation_info q db = Ok (mkRevocationInfo (crt_id q) (serial_hex q) t why u).
Proof.
  intros Hv Hs Hu. unfold revocation_ok in Hv. destruct (revoked_at q) as [s|] eqn:E; [|by destruct Hs].
  destruct Hv as (t & Ht & -> & [why Hw]). destruct (distribution_url (crt_issuer q) db) as [u|] eqn:Hd; [|done].
  exists t, why, u. split_and!; [done..|]. unfold revocation_info, revoked_at_dt. rewrite E, Hd, Hw.
  pose proof (isoformat_nonempty t Ht). destruct (isoformat t) eqn:Ei; [done|]. by rewrite <- Ei, fromisoformat_isoformat.
Qed.

Lemma distribution_url_same i a b : settings a = settings b → distribution_url i a = distribution_url i b.
Proof. intros H. unfold distribution_url, pki_url, get_setting. by rewrite H. Qed.

(** C32: issuing through the API.  An answer means that the secret is a live
    admin's or superadmin's token, that the request is within the limits, and
    that one certificate was issued as that token: through an active issuer it
    holds a grant on, the one the request names if it names one; the answer
    carries that certificate and its own private key; and exactly one row and
    one log entry, in the token's name, were added.  A refused request leaves at
    most the note that the token was used. *)
Theorem api_issue_exact credentials body seen d created shown logged from db r db' :
  identity_ok db → hierarchy_ok db → 0 ≤ d_serial d →
  request (issue_certificate_route credentials body seen d created shown logged from) db = (r, db') →
  match r with
  | Ok dt => ∃ token d1 row cert ic ik key entry,
      presents credentials seen db token ∧ token_role token ∈ ADMIN_ROLES ∧ used seen token db d1 ∧ issue_request_ok body = true ∧
      issued_by d1 (token_principal token) (ir_issuer body) row cert ic ik ∧ crt_source row = api ∧
      dt_pem dt = crt_pem row ∧ sm_serial (dt_summary dt) = serial_hex row ∧ sm_revoked_at (dt_summary dt) = None ∧
      dt_key dt = Some (PlainPem (private_pem key)) ∧ public_key key = cert_key cert ∧
      token_entry token a_cert_issued entry ∧ audit_events db !! aud_id entry = None ∧
      db' = on_audit (λ m, <[aud_id entry := entry]> m) (on_certs (λ m, <[crt_id row := row]> m) d1)
  | Raise _ => no_more_than_used credentials seen db db'
  end.
Proof.
  intros Hid Hh Hser Hreq. pattern r, db'. eapply request_wp; [exact Hreq|]. clear r db' Hreq. cbn beta.
  unfold issue_certificate_route. apply wp_bind, wp_require_api_role; [done|..].
  2: { intros _. by left. }
  2: { intros row d1 Hp _ Hu. right. by exists row. }
  intros token row d1 Hp Ht Hrole Hu. assert (Href : no_more_than_used credentials seen db d1) by (right; by exists row).
  apply wp_bind, wp_raise_if; [done|]. intros Hok%negb_false_iff.
  assert (Hh1 : hierarchy_ok d1) by (by eapply used_hierarchy).
  apply wp_bind, wp_domain_errors, wp_bind, wp_issue_and_store; [done|done| |done].
  intros crow cert ic ik capped Hby Hsrc _ (crl & aia & sk & _ & Hkey) _. cbn zeta. set (d2 := on_certs _ _).
  destruct (issued_shown _ _ _ _ _ _ _ shown capped Hh1 Hby) as (view & Hview & Hvp & Hvs & Hvr).
  change (certificate_pem crow shown capped d2 = Ok view) in Hview.
  destruct (key_material_ok crow cert _ (issued_describes _ _ _ _ _ _ _ Hby) Hkey) as (key & Hk & Hpub).
  assert (Hdet : detail_of token crow shown capped d2 = Ok (mkDetail (pv_summary view) (pv_pem view) (pv_chain view) (pv_capped view)
    (Some (PlainPem (private_pem key))) None)).
  { unfold detail_of. rewrite Hview. cbn [mbind Outcome_bind]. unfold key_fields. rewrite (of_role _ _ Ht).
    rewrite (bool_decide_eq_false_2 (token_role row ∉ ADMIN_ROLES)) by (intros Hn; exact (Hn Hrole)). by rewrite Hk. }
  apply wp_bind, wp_query. cbn [work issued_row capped_from]. rewrite Hdet. wp_run; try done.
  apply wp_record. intros entry d3 Haud. wp_run. cbn [durable work fresh_session] in *.
  rewrite (of_principal _ _ Ht) in Hby.
  match goal with E : Ok _ = Ok a |- _ => injection E as <- end. rewrite (used_audit _ _ _ _ Hu : audit_events d2 = _) in Haud.
  exists row, d1, crow, cert, ic, ik, key, entry. split_and!; done || exact (token_entry_row _ _ _ _ _ _ Ht).
Qed.

(** Revoking through the API.  An answer means a live admin's token with a
    grant on the certificate's issuer.  The first revocation marks the row,
    publishes a new CRL and adds one log entry in the token's name; asking again
    changes nothing, logs nothing and answers with the date and reason of the
    first time.  A refused request leaves at most the note that the token was
    used, and a certificate that is not there is a 404. *)
Theorem api_revoke_exact credentials n reason seen now logged from db r db' :
  identity_ok db → inventory_ok db → in_datetime now → (∀ i, is_ok (distribution_url i db) = true) →
  request (revoke_certificate_route credentials n reason seen now logged from) db = (r, db') →
  match r with
  | Ok info => ∃ token d1 q at_ why,
      presents credentials seen db token ∧ token_role token ∈ ADMIN_ROLES ∧ used seen token db d1 ∧
      certs db !! n = Some q ∧ permitted_use d1 (token_principal token) (crt_issuer q) ∧
      rv_id info = n ∧ rv_revoked_at info = at_ ∧ rv_reason info = why ∧
      ((revoked_at q = Some (isoformat at_) ∧ revocation_reason q = Some why ∧ db' = d1) ∨
       (revoked_at q = None ∧ at_ = now ∧ why = reason ∧ ∃ crl entry,
          fresh_crl (on_certs (λ m, <[n := revoked_row (isoformat now) reason q]> m) d1) (crt_issuer q) now crl ∧
          token_entry token a_cert_revoked entry ∧ audit_events db !! aud_id entry = None ∧
          db' = on_audit (λ m, <[aud_id entry := entry]> m) (on_crls (λ m, <[crt_issuer q := crl]> m)
                  (on_certs (λ m, <[n := revoked_row (isoformat now) reason q]> m) d1))))
  | Raise e => no_more_than_used credentials seen db db' ∧
      (∀ row, presents credentials seen db row → token_role row ∈ ADMIN_ROLES → certs db !! n = None →
         e = HTTPException 404 ("no certificate with id " +:+ id_text n) [])
  end.
Proof.
  intros Hid Hinv Hnow Hurl Hreq. pattern r, db'. eapply request_wp; [exact Hreq|]. clear r db' Hreq. cbn beta.
  unfold revoke_certificate_route. apply wp_bind, wp_require_api_role; [done|..].
  2: { intros Hno. split; [by left|]. intros row Hp. by apply Hno in Hp. }
  2: { intros row d1 Hp Hr Hu. split; [right; by exists row|]. intros row' Hp' Hr'. by rewrite (presents_unique _ _ _ _ _ Hid Hp' Hp) in Hr'. }
  intros token row d1 Hp Ht Hrole Hu. destruct (used_cas _ _ _ _ Hu) as (_ & Hcerts & _).
  assert (Hset : settings d1 = settings db) by by destruct Hu as [->| ->].
  assert (Hinv1 : inventory_ok d1) by (by eapply used_inventory).
  apply wp_bind, wp_query, wp_bind, wp_domain_errors, wp_revoke; [done|done|done|..]; cbn [work durable fresh_session].
  - intros q Hq Hperm Hs. unfold get_certificate. rewrite Hq, bool_decide_eq_true_2 by done.
    destruct (revocation_info_ok d1 q) as (t & why & u & Ht' & Hat & Hwhy & Hinfo);
      [by eapply cert_revocations; [apply Hinv1|]|done|by rewrite (distribution_url_same _ _ _ Hset)|].
    apply wp_bind, wp_ret, wp_bind, wp_query. cbn [work fresh_session]. rewrite Hinfo. cbn.
    exists row, d1, q, t, why. rewrite <- Hcerts, <- (of_principal _ _ Ht), (cert_keys _ (inv_certs _ Hinv1) _ _ Hq).
    split_and!; try done. by left.
  - intros q crl Hq Hperm Hrev Hcrl Hinv2. set (q' := revoked_row _ _ q) in *. unfold get_certificate. rewrite Hq, bool_decide_eq_false_2 by (rewrite Hrev; by intros []).
    apply wp_bind, wp_bind, wp_record. intros entry d3 Haud. cbn [work durable] in *. apply wp_ret, wp_bind, wp_query. cbn [work].
    destruct (revocation_info_ok d3 q') as (t & why & u & Ht' & Hat & Hwhy & Hinfo).
    { eapply (cert_revocations _ (inv_certs _ Hinv2) n). apply lookup_insert_eq. }
    { by eexists. }
    { rewrite (distribution_url_same _ d3 db) by done. apply Hurl. }
    rewrite Hinfo. cbn [durable]. cbn in Hat, Hwhy. injection Hat as Hat. injection Hwhy as <-.
    assert (t = now) as ->.
    { symmetry in Hat. by apply isoformat_inj in Hat. }
    exists row, d1, q, now, reason. rewrite <- Hcerts, <- (of_principal _ _ Ht). split_and!; try done.
    { cbn. by rewrite (cert_keys _ (inv_certs _ Hinv1) _ _ Hq). }
    right. split_and!; try done. exists crl, entry. split_and!; try done; [exact (token_entry_row _ _ _ _ _ _ Ht)|].
    rewrite <- (used_audit _ _ _ _ Hu). exact Haud.
  - intros e Hnone Hforb. split; [right; by exists row|]. intros row' _ _ Hn. rewrite Hcerts in Hnone. by rewrite (Hnone Hn).
Qed.

Lemma certificate_pem_ok row now capped db view : certificate_pem row now capped db = Ok view →
  certificate_fields row now = Ok (pv_summary view) ∧ chain_pem_for_issuer (crt_issuer row) now db = Ok (pv_chain view) ∧
  pv_pem view = crt_pem row ∧ pv_capped view = capped ∧ sm_id (pv_summary view) = crt_id row.
Proof.
  unfold certificate_pem. intros H. inv_tx. cbn [pv_summary pv_pem pv_chain pv_capped]. split_and!; [done..|].
  unfold certificate_fields in *. by inv_tx.
Qed.
Lemma detail_of_ok token row now capped db dt : detail_of token row now capped db = Ok dt →
  dt_pem dt = crt_pem row ∧ sm_id (dt_summary dt) = crt_id row ∧ key_fields token row = Ok (dt_key dt, dt_key_error dt).
Proof.
  unfold detail_of. intros H. inv_tx. cbn [dt_pem dt_summary dt_key dt_key_error].
  match goal with E : certificate_pem _ _ _ _ = Ok _ |- _ => apply certificate_pem_ok in E as (_ & _ & -> & _ & ->) end. done.
Qed.

(** The private key of a certificate is shown to admins alone.  Reading
    a certificate takes a live token of any role; the answer is the stored
    certificate; and only to an admin's or superadmin's token does it say
    anything of the private key, which is then the stored key unsealed or, when
    it cannot be unsealed, the message that says so. *)
Theorem api_keys_for_admins credentials n seen now db r db' : identity_ok db → inventory_ok db →
  request (get_certificate_route credentials n seen now) db = (r, db') →
  match r with
  | Ok dt => ∃ token row, presents credentials seen db token ∧ used seen token db db' ∧ certs db !! n = Some row ∧
      dt_pem dt = crt_pem row ∧ sm_id (dt_summary dt) = n ∧
      if decide (token_role token ∈ ADMIN_ROLES) then key_material row = Ok (dt_key dt, dt_key_error dt)
      else dt_key dt = None ∧ dt_key_error dt = None
  | Raise e => no_more_than_used credentials seen db db' ∧
      (∀ token, presents credentials seen db token → certs db !! n = None → e = HTTPException 404 "no such certificate" [])
  end.
Proof.
  intros Hid Hinv Hreq. pattern r, db'. eapply request_wp; [exact Hreq|]. clear r db' Hreq. cbn beta.
  unfold get_certificate_route. apply wp_bind, wp_require_api_role; [done|..].
  2: { intros Hno. split; [by left|]. intros row Hp. by apply Hno in Hp. }
  2: { intros row d1 Hp Hr. exfalso. apply Hr. destruct (token_role row); by_decide. }
  intros token row d1 Hp Ht _ Hu. destruct (used_cas _ _ _ _ Hu) as (_ & Hcerts & _).
  pose proof (used_inventory _ _ _ _ Hu Hinv) as Hinv1.
  assert (Href : no_more_than_used credentials seen db d1) by (right; by exists row).
  unfold get_certificate. wp_run; [apply wp_domain_errors; wp_run|]; unfold certificate_or_404 in *; options; cbn [work fresh_session] in *.
  - match goal with E : detail_of _ _ _ _ _ = Ok ?dt |- _ => apply detail_of_ok in E as (Hpem & Hn & Hkey) end.
    exists row, a. rewrite <- Hcerts. split_and!; try done; [by rewrite Hn; apply (cert_keys _ (inv_certs _ Hinv1))|].
    unfold key_fields in Hkey. rewrite (of_role _ _ Ht) in Hkey. destruct (decide (token_role row ∈ ADMIN_ROLES)) as [Hr|Hr].
    + by rewrite bool_decide_eq_false_2 in Hkey by (intros Hn'; exact (Hn' Hr)).
    + rewrite bool_decide_eq_true_2 in Hkey by done. by injection Hkey as <- <-.
  - split; [done|]. intros _ _ Hn. congruence.
  - done.
Qed.

(** *** What cabin says of its CAs *)
Definition describes_ca (db : DB) (row : CARow) (i : IssuerInfo) : Prop :=
  ii_id i = ca_id row ∧ ii_name i = ca_name row ∧ ii_kind i = ca_kind row ∧ ii_status i = ca_status row ∧
  ii_parent i = parent_id row ∧ ii_cross_of i = cross_of_id row ∧
  (∃ cert, load_cert (ca_cert row) = Ok cert ∧ ii_described i = describe_certificate cert) ∧
  ca_issuers_url (ca_id row) db = Ok (ii_ca_url i) ∧
  if decide (ca_kind row = Intermediate) then distribution_url (ca_id row) db = Ok (ii_crl_url i) else ii_crl_url i = None.
Lemma issuer_info_ok db i row : hierarchy_ok db → cas db !! i = Some row → (∀ path, is_ok (pki_url path db) = true) →
  ∃ info, issuer_info db row = Ok info ∧ describes_ca db row info.
Proof.
  intros Hh Hi Hurl. destruct (Hh _ _ Hi) as (_ & _ & cert & Hc & _). unfold issuer_info, describes_ca, distribution_url, ca_issuers_url.
  rewrite Hc. cbn [mbind Outcome_bind]. pose proof (Hurl ("/crl/" +:+ id_text (ca_id row))) as H1.
  pose proof (Hurl ("/ca/" +:+ id_text (ca_id row) +:+ ".cer")) as H2.
  destruct (pki_url _ db) as [u1|]; [|done]. destruct (pki_url ("/ca/" +:+ _) db) as [u2|]; [|done].
  destruct (decide (ca_kind row = Intermediate)); cbn; eexists; (split; [done|]); split_and!; try done; by exists cert.
Qed.
(** What cabin says of its CAs: every row of the table once, in the order of
    its list, each described by its own certificate and by the URLs its
    certificates name - a CRL for an intermediate only; and a 409 while there
    is none. *)
Theorem api_ca_exact credentials seen db r db' : identity_ok db → hierarchy_ok db → (∀ path, is_ok (pki_url path db) = true) →
  request (get_ca_route credentials seen) db = (r, db') →
  no_more_than_used credentials seen db db' ∧
  match r with
  | Ok info => base_url info = get_setting BASE_URL db ∧ Forall2 (describes_ca db) (list_cas None None db) (issuers info)
  | Raise e => ∀ token, presents credentials seen db token → list_cas None None db = [] ∧ e = HTTPException 409 NO_CA []
  end.
Proof.
  intros Hid Hh Hurl Hreq. pattern r, db'. eapply request_wp; [exact Hreq|]. clear r db' Hreq. cbn beta.
  unfold get_ca_route. apply wp_bind, wp_require_api_role; [done|..].
  2: { intros Hno. split; [by left|]. intros row Hp. by apply Hno in Hp. }
  2: { intros row d1 Hp Hr. exfalso. apply Hr. destruct (token_role row); by_decide. }
  intros token row d1 Hp Ht _ Hu. assert (Href : no_more_than_used credentials seen db d1) by (right; by exists row).
  assert (Hsame : d1 = db ∨ ∃ f, d1 = on_tokens f db) by (destruct Hu as [->| ->]; eauto).
  assert (Hci : ca_info d1 = ca_info db) by by destruct Hsame as [->|[f ->]].
  apply wp_domain_errors, wp_bind, wp_query. cbn [work fresh_session]. rewrite Hci. unfold ca_info.
  destruct (nonempty (list_cas None None db)) eqn:Hne; cbn [negb raise_if].
  - destruct (map_each_total (issuer_info db) (describes_ca db) (list_cas None None db)) as (ys & Hys & HR).
    { intros x (_ & i & Hi)%elem_of_rows_where. by apply (issuer_info_ok db i). }
    cbn [mbind Outcome_bind mret Outcome_ret]. rewrite Hys. by cbn.
  - apply nonempty_false in Hne. by rewrite Hne.
Qed.

(** *** Listings *)
Lemma pages_of_bounds n m : (0 < m)%nat → (1 ≤ pages_of n m)%nat ∧ (n ≤ pages_of n m * m)%nat ∧ ((pages_of n m - 1) * m < Nat.max 1 n)%nat.
Proof.
  intros Hm. unfold pages_of. pose proof (Nat.div_mod (n + m - 1) m) as Hd. pose proof (Nat.mod_upper_bound (n + m - 1) m) as Hu.
  set (k := ((n + m - 1) / m)%nat) in *. nia.
Qed.
Lemma listing_certs q st now a b : certs a = certs b → export_certificates q st now a = export_certificates q st now b.
Proof. intros H. unfold export_certificates. by rewrite H. Qed.
Lemma list_in_range q st k now db : 1 ≤ k ≤ MAX_PAGE →
  list_certificates q st k PER_PAGE now db =
    (take PER_PAGE (drop (Z.to_nat (k - 1) * PER_PAGE) (export_certificates q st now db)), length (export_certificates q st now db)).
Proof.
  intros Hk. unfold list_certificates, clamp_page. rewrite Z.max_l, Z.min_l by lia. unfold export_certificates.
  rewrite Z2Nat.inj_mul, Nat2Z.id by lia. f_equal. by rewrite merge_sort_Permutation.
Qed.
Lemma elem_of_export r q st now db : r ∈ export_certificates q st now db → ∃ i, certs db !! i = Some r.
Proof. unfold export_certificates. rewrite merge_sort_Permutation. by intros [_ H]%elem_of_rows_where. Qed.
Lemma elem_of_page {A} (x : A) n m l : x ∈ take n (drop m l) → x ∈ l.
Proof. rewrite <- (take_drop m l) at 2. rewrite <- (take_drop n (drop m l)) at 2. rewrite !elem_of_app. auto. Qed.
Lemma map_related {A B C} (f : A → C) (g : B → C) l k : Forall2 (λ a b, g b = f a) l k → map g k = map f l.
Proof. induction 1; cbn; congruence. Qed.
End theorems.

(** * Examples *)
Module RestApiExamples.
#[local] Existing Instance Toy.lib.
#[local] Existing Instance toy_secrets.
#[local] Existing Instance toy_crypto.
Import Toy CaExamples CertExamples CrlExamples.
(** The hierarchy of the other examples, with one certificate and two tokens:
    a script of the operator's and a monitor that may only look. *)
Definition script_made : DB := after (create_token "script" superadmin None 9 t2026) with_nas.
Definition scripted : DB := after (create_token "monitor" viewer None 10 t2026) script_made.
#[local] Strategy 1000 [script_made scripted].
Lemma token_made_step l r e d now db : any_step db (after (create_token l r e d now) db).
Proof. left. right. exists (op_create_token l r e d now). symmetry. exact (request_drop _ _). Qed.
Lemma scripted_inventory : inventory_ok scripted.
Proof.
  refine (proj1 (any_step_ok script_made scripted _ (token_made_step _ _ _ _ _ _))).
  exact (proj1 (any_step_ok with_nas script_made with_nas_inventory (token_made_step _ _ _ _ _ _))).
Qed.
Lemma scripted_identity : identity_ok scripted.
Proof.
  refine (request_keeps identity_ok _ _ (proj1 token_ops_keep _ _ _ _ _) _).
  refine (request_keeps identity_ok _ _ (proj1 token_ops_keep _ _ _ _ _) _).
  apply (identity_same empty_db); [|apply empty_db_ok]. repeat split; vm_compute; reflexivity.
Qed.
Definition script : option string := Some "cabin_token-9".
Definition monitor : option string := Some "cabin_token-10".
Definition wanted : IssueRequest := mkIssueRequest "printer.lan" ["printer"] server "ecdsa-p256" 90 (Some 2).
Definition asked (credentials : option string) (body : IssueRequest) : Outcome Detail * DB :=
  request (issue_certificate_route credentials body tomorrow (draw 40) tomorrow tomorrow tomorrow None) scripted.

(** The script is given a certificate; the monitor is told it may not; a
    certificate of no days at all is refused before anything is looked up. *)
Lemma api_issue_exact_witness :
  is_ok (fst (asked script wanted)) = true ∧ raised (fst (asked monitor wanted)) = Some api_forbidden ∧
  raised (fst (asked script (mkIssueRequest "printer.lan" [] server "ecdsa-p256" 0 None))) = Some unprocessable ∧
  ∃ dt key, fst (asked script wanted) = Ok dt ∧ dt_key dt = Some (PlainPem (private_pem key)).
Proof.
  split_and!; [vm_compute; reflexivity..|].
  assert (H : is_ok (fst (asked script wanted)) = true) by (vm_compute; reflexivity).
  assert (Hs : 0 ≤ d_serial (draw 40)) by (vm_compute; discriminate).
  pose proof (api_issue_exact (X:=lib) (SS:=toy_secrets) (CR:=toy_crypto) script wanted tomorrow (draw 40) tomorrow tomorrow
    tomorrow None scripted _ _ scripted_identity (inv_hierarchy _ scripted_inventory) Hs (surjective_pairing _)) as Hx.
  change (request _ scripted) with (asked script wanted) in Hx.
  destruct (fst (asked script wanted)) as [dt|e]; [|discriminate H].
  destruct Hx as (token & d1 & row & cert & ic & ik & key & entry & Hx). exists dt, key.
  split; [reflexivity|exact (proj1 (proj2 (proj2 (proj2 (proj2 (proj2 (proj2 (proj2 (proj2 (proj2 Hx))))))))))].
Defined.
Lemma no_base_url i : is_ok (distribution_url i scripted) = true.
Proof.
  rewrite (distribution_url_same i scripted empty_db); [vm_compute; reflexivity|]. vm_compute. reflexivity.
Qed.
Definition revoked_by (credentials : option string) (n now : Z) (db : DB) : Outcome RevocationInfo * DB :=
  request (revoke_certificate_route credentials n key_compromise now now now None) db.
(** Revoking twice answers the first date twice. *)
Lemma api_revoke_exact_witness :
  is_ok (fst (revoked_by script 1 tomorrow scripted)) = true ∧
  raised (fst (revoked_by script 7 tomorrow scripted)) = Some (HTTPException 404 "no certificate with id 7" []) ∧
  match fst (revoked_by script 1 (tomorrow + days 1) (snd (revoked_by script 1 tomorrow scripted))) with
  | Ok info => bool_decide (rv_revoked_at info = tomorrow) | _ => false end = true ∧
  ∃ info q, fst (revoked_by script 1 tomorrow scripted) = Ok info ∧ certs scripted !! 1 = Some q.
Proof.
  split_and!; [vm_compute; reflexivity..|].
  assert (H : is_ok (fst (revoked_by script 1 tomorrow scripted)) = true) by (vm_compute; reflexivity).
  assert (Hn : in_datetime tomorrow) by by_decide.
  pose proof (api_revoke_exact (X:=lib) (SS:=toy_secrets) (CR:=toy_crypto) script 1 key_compromise tomorrow tomorrow tomorrow
    None scripted _ _ scripted_identity scripted_inventory Hn no_base_url (surjective_pairing _)) as Hx.
  change (request _ scripted) with (revoked_by script 1 tomorrow scripted) in Hx.
  destruct (fst (revoked_by script 1 tomorrow scripted)) as [info|e]; [|discriminate H].
  destruct Hx as (token & d1 & q & at_ & why & _ & _ & _ & Hq & _). exists info, q. split; [reflexivity|exact Hq].
Defined.
Definition looked (credentials : option string) (n : Z) : Outcome Detail * DB :=
  request (get_certificate_route credentials n tomorrow tomorrow) scripted.
(** The monitor sees the certificate and not its key. *)
Lemma api_keys_for_admins_witness :
  match fst (looked script 1) with Ok dt => bool_decide (is_Some (dt_key dt)) | _ => false end = true ∧
  match fst (looked monitor 1) with Ok dt => negb (bool_decide (is_Some (dt_key dt))) | _ => false end = true ∧
  raised (fst (looked monitor 7)) = Some (HTTPException 404 "no such certificate" []) ∧
  ∃ dt row, fst (looked monitor 1) = Ok dt ∧ certs scripted !! 1 = Some row ∧ dt_pem dt = crt_pem row.
Proof.
  split_and!; [vm_compute; reflexivity..|].
  assert (H : is_ok (fst (looked monitor 1)) = true) by (vm_compute; reflexivity).
  pose proof (api_keys_for_admins (X:=lib) (SS:=toy_secrets) (CR:=toy_crypto) monitor 1 tomorrow tomorrow scripted _ _
    scripted_identity scripted_inventory (surjective_pairing _)) as Hx.
  change (request _ scripted) with (looked monitor 1) in Hx.
  destruct (fst (looked monitor 1)) as [dt|e]; [|discriminate H].
  destruct Hx as (token & row & _ & _ & Hr & Hp & _). exists dt, row. split; [reflexivity|]. split; [exact Hr|exact Hp].
Defined.
Definition listed (k : Z) : Outcome (Listing Summary) * DB :=
  request (list_certificates_route monitor "" None k tomorrow tomorrow) scripted.
End RestApiExamples.
