(* ===== verification/Tls.v ===== *)
(** * [cabin.tls]: cabin's own certificate

    [TlsManager.ensure_current] decides, on every start, every hour and after
    every change of the CA, whether the certificate cabin itself is reached
    under is still the right one, and replaces it if not.  Its state is the
    two files of the data directory, what the manager remembers, and what the
    live [SSLContext] holds; the database is the one of the other files.
    OpenSSL's [load_cert_chain] is the interface [SSLLib].  How the key reaches
    it (an anonymous memory file, or a file unlinked at once) is left out, and
    so is the lock: one call runs at a time.  A write that fails, or a crash
    between the two writes, is an argument of a call. *)

From S2P Require Import Url Prelude PyStr PyTime Json IPAddr Numbers X509Lib X509 Leaf Store Settings CaService Grants Identity Certs Crl AuditLog.
#[local] Open Scope Z_scope.

(** [moment + timedelta] *)
Definition moment_plus (t delta : Z) : Outcome Z :=
  _ ← raise_if (negb (bool_decide (in_datetime (t + delta)))) (OverflowError "date value out of range");
  mret (t + delta).

(** ** Constants and data *)
Definition CERT_DAYS : Z := 90.
Definition RENEW_BEFORE : Z := days 30.
Definition MIN_RENEWAL_GAIN : Z := days 1.
Definition TLS_ISSUER_ID : string := "tls_issuer_id".
Definition TLS_KEY_TYPE : string := "ecdsa-p256".  (* the default of both ways of issuing *)

Inductive TlsMode := self_signed | ca_issued.
#[export] Instance TlsMode_eq_dec : EqDecision TlsMode.
Proof. solve_decision. Defined.
Definition mode_text (m : TlsMode) : string := match m with self_signed => "self_signed" | ca_issued => "ca_issued" end.

(** [cabin.crt] is a bundle of PEM blocks; [cabin.key.sealed] a text, unless it
    is damaged past being one. *)
Inductive KeyFile {X : X509Lib} {SS : SecretStore} := SealedText (s : Sealed) | NotUtf8.
Record Files {X : X509Lib} {SS : SecretStore} := mkFiles { crt : option (list Pem); key_sealed : option KeyFile }.
Definition Loaded {X : X509Lib} : Type := list Pem * Plain Pem.
(** [_CurrentMaterial] *)
Record Material {X : X509Lib} := mkMaterial {
  mat_cert : Cert; mat_key : Plain Pem; mat_mode : TlsMode; mat_cn : string; mat_sans : list string; mat_not_after : Z }.
Arguments mkMaterial {X} _ _ _ _ _ _.
(** [TlsManager], with the files it owns.  [live] is the [ssl] attribute of the
    attached server configuration, absent until the server has loaded it; a
    context that is there may still be bare. *)
Record Manager {X : X509Lib} {SS : SecretStore} := mkManager {
  files : Files; mode : option TlsMode; last_error : option string; live : option (option Loaded) }.
Arguments mkFiles {X SS} _ _.
Arguments mkManager {X SS} _ _ _ _.
(** What a call takes from outside: the host's name, its readings of the
    clock, its draws, and whether each of its two writes goes through. *)
Record Turn := mkTurn {
  host_name : string; turn_now : Z; draw : Draw; turn_created : Z; turn_chained : Z; turn_logged : Z; key_nonce : Z;
  crt_written : bool; key_written : bool }.

(** [SSLContext.load_cert_chain]: the context before, the bundle and the key;
    what a refused call leaves behind is OpenSSL's business. *)
Class SSLLib {X : X509Lib} := {
  load_cert_chain : option Loaded → list Pem → Plain Pem → Outcome unit * option Loaded;
  load_cert_chain_ok : ∀ old l k new, load_cert_chain old l k = (Ok (), new) → new = Some (l, k) }.

(** ** The manager's steps *)
Definition Act {X : X509Lib} {SS : SecretStore} (A : Type) : Type := Manager * Session DB → Outcome A * (Manager * Session DB).
#[export] Instance Act_ret {X : X509Lib} {SS : SecretStore} : MRet Act := λ A a st, (Ok a, st).
#[export] Instance Act_bind {X : X509Lib} {SS : SecretStore} : MBind Act := λ A B f m st,
  match m st with (Ok a, st') => f a st' | (Raise e, st') => (Raise e, st') end.
#[export] Instance Act_throw {X : X509Lib} {SS : SecretStore} : MThrow Exc Act := λ A e st, (Raise e, st).

Section tls.
Context {X : X509Lib} {SS : SecretStore} {SSL : SSLLib}.

Definition on_db {A} (m : Tx DB A) : Act A := λ '(t, s), let '(r, s') := m s in (r, (t, s')).
Definition pure {A} (m : Outcome A) : Act A := λ st, (m, st).
Definition look {A} (f : Manager → A) : Act A := λ st, (Ok (f (fst st)), st).
Definition update (f : Manager → Manager) : Act unit := λ '(t, s), (Ok (), (f t, s)).
Definition set_files (f : Files → Files) : Act unit := update (λ t, mkManager (f (files t)) (mode t) (last_error t) (live t)).
Definition set_mode (m : option TlsMode) : Act unit := update (λ t, mkManager (files t) m (last_error t) (live t)).
Definition set_last_error (e : option string) : Act unit := update (λ t, mkManager (files t) (mode t) e (live t)).
Definition set_live (l : option Loaded) : Act unit := update (λ t, mkManager (files t) (mode t) (last_error t) (Some l)).
Definition attempt {A} (m : Act A) : Act (Outcome A) := λ st, let '(r, st') := m st in (Ok r, st').

Definition is_ip_literal (host : string) : bool := is_ok (ip_address host).
Definition load_bundle (l : list Pem) : Outcome Cert :=
  match l with p :: _ => load_cert p | [] => Raise (ValueError "Unable to load PEM file.") end.
Definition read_text (f : KeyFile) : Outcome Sealed :=
  match f with SealedText s => Ok s | NotUtf8 => Raise (ValueError "'utf-8' codec can't decode byte") end.
Definition load_plain_key (p : Plain Pem) : Outcome PrivKey :=
  match p with PlainPem p => load_private_key p None | PlainBytes _ => Raise (ValueError "Could not deserialize key data.") end.
Definition tls_subject_cn (cert : Cert) : string :=
  match head (attributes_for COMMON_NAME (cert_subject cert)) with
  | None => "" | Some (AText v) => v | Some (ABytes v) => decode_replace v end.

Definition wanted_names (hostname : string) (db : DB) : Outcome (string * list string) :=
  let base_url := default "" (get_setting BASE_URL db) in
  if decide (base_url = "") then
    mret (hostname, dedup ["DNS:" +:+ hostname; "DNS:localhost"; "IP:127.0.0.1"; "IP:::1"])
  else
    u ← urlsplit base_url;
    let host := default "" (url_hostname u) in
    mret (host, [(if is_ip_literal host then "IP:" else "DNS:") +:+ host]).
Definition resolve_tls_issuer : Tx DB (option CARow) :=
  bound ← query (get_setting TLS_ISSUER_ID);
  if decide (default "" bound = "") then
    issuers ← query active_issuers;
    match issuers with
    | [r] => _ ← set_setting TLS_ISSUER_ID (str_of_Z (ca_id r)); mret (Some r)
    | _ => mret None
    end
  else
    match py_int (default "" bound) with
    | Ok n => row ← query (λ db, cas db !! n);
              mret (match row with Some r => if is_active_issuer r then Some r else None | None => None end)
    | Raise _ => mret None
    end.

(** [try: x = m except <sel>: return None] *)
Definition tried {A} (sel : Exc → bool) (m : Outcome A) : Outcome (option A) :=
  catch_pure (a ← m; mret (Some a)) sel (λ _, Ok None).
Definition load_current (f : Files) : Outcome (option Material) :=
  match crt f, key_sealed f with
  | Some bundle, Some text =>
      cert ← tried is_value_error (load_bundle bundle);
      match cert with None => mret None | Some cert =>
      plain ← tried is_secrets_error (sealed ← read_text text; unseal sealed);
      match plain with None => mret None | Some plain =>
      key ← tried is_key_error (load_plain_key plain);
      match key with None => mret None | Some key =>
      if decide (public_key key ≠ cert_key cert) then mret None else
      sans ← catch_pure (cert_sans cert) is_not_found (λ _, Ok []);
      mret (Some (mkMaterial cert plain (if name_py_eq (issuer (tbs cert)) (cert_subject cert) then self_signed else ca_issued)
        (tls_subject_cn cert) sans (not_valid_after cert)))
      end end end
  | _, _ => mret None
  end.
Definition load_into_live_context (key : Plain Pem) : Act unit :=
  t ← look (λ t, t);
  match live t with
  | None => mret ()
  | Some old =>
      bundle ← pure (of_option (crt (files t)) (OSError "No such file or directory"));
      let '(r, new) := load_cert_chain old bundle key in
      _ ← set_live new;
      pure r
  end.
Definition write_and_load (w : Turn) (bundle : list Pem) (key : Plain Pem) : Act unit :=
  _ ← raise_if (negb (crt_written w)) (OSError "cabin.crt could not be written");
  _ ← set_files (λ f, mkFiles (Some bundle) (key_sealed f));
  _ ← raise_if (negb (key_written w)) (OSError "cabin.key.sealed could not be written");
  _ ← set_files (λ f, mkFiles (crt f) (Some (SealedText (seal (key_nonce w) key))));
  load_into_live_context key.

(** ** [ensure_current] *)
Definition issue_own (w : Turn) (target : TlsMode) (issuer : option CARow) (cn : string) (sans : list string)
  : Act (Cert * list Pem * Plain Pem * option CertRow * option Z) :=
  let d := draw w in
  match target with
  | self_signed =>
      '(cert, key) ← pure (self_signed_server_certificate cn sans TLS_KEY_TYPE CERT_DAYS (d_now d) (d_serial d) (d_seed d));
      mret (cert, [cert_pem cert], PlainPem (private_pem key), None, None)
  | ca_issued =>
      issuer ← pure (of_option issuer (AssertionError ""));
      issued ← on_db (issue_and_store SYSTEM_PRINCIPAL server cn sans CERT_DAYS TLS_KEY_TYPE (Some (ca_id issuer)) system d (turn_created w));
      let row := issued_row issued in
      cert ← pure (load_cert (crt_pem row));
      sealed ← pure (of_option (crt_key row) (AssertionError ""));
      key ← pure (unseal sealed);
      chain ← on_db (query (λ db, chain_for db (ca_id issuer) (turn_chained w)));
      chain ← pure chain;
      mret (cert, crt_pem row :: map ca_cert chain, key, Some row, capped_from issued)
  end.
Definition issued_event (m : TlsMode) (cn : string) (sans : list string) (cert : Cert) (row : option CertRow) (capped : option Z) : Event :=
  let detail := <["mode" := JStr (mode_text m)]> (<["subject_cn" := JStr cn]> (<["sans" := JList (map JStr sans)]>
    {["not_after" := JStr (isoformat (not_valid_after cert))]})) in
  mkEvent ("issued a " +:+ mode_text m +:+ " TLS certificate for cabin itself (" +:+ py_repr cn +:+ ")")
    (Some ("certificate", (λ r, str_of_Z (crt_id r)) <$> row))
    (Some (match capped with Some t => <["capped_from" := JStr (isoformat t)]> detail | None => detail end)) None.
Definition failed_event (message : string) (m : option TlsMode) : Event :=
  mkEvent ("cabin could not issue its own TLS certificate (" +:+ message +:+ ")") None
    (Some (<["reason" := JStr message]> {["mode" := or_null (mode_text <$> m)]})) None.
(** [except (CANotConfiguredError, IssuerRequiredError, IssuerRetiredError,
    UnknownIssuerError, IssueError)] *)
Definition is_recoverable (e : Exc) : bool :=
  match e with
  | CANotConfiguredError _ | IssuerRequiredError _ | IssuerRetiredError _ | UnknownIssuerError _ | IssueError _ | NameConstraintError _ => true
  | _ => false
  end.

Definition same_names (a b : list string) : bool := forallb (λ x, bool_decide (x ∈ b)) a && forallb (λ x, bool_decide (x ∈ a)) b.
Definition target_mode (current : option Material) (issuer : option CARow) : TlsMode :=
  match issuer, current with
  | Some _, _ => ca_issued
  | None, Some c => if decide (mat_mode c = ca_issued) then ca_issued else self_signed
  | None, None => self_signed
  end.
Definition names_changed (current : option Material) (cn : string) (sans : list string) : bool :=
  match current with None => true | Some c => negb (bool_decide (mat_cn c = cn)) || negb (same_names (mat_sans c) sans) end.
Definition mode_changed (current : option Material) (target : TlsMode) (issuer_cert : option Cert) : bool :=
  match current with
  | None => true
  | Some c => negb (bool_decide (mat_mode c = target)) ||
      match target, issuer_cert with
      | ca_issued, Some i => negb (is_ok (verify_directly_issued_by (mat_cert c) i))  (* [except Exception] *)
      | _, _ => false
      end
  end.
(** Whether the certificate is left alone, its names and its issuer being
    right: it is not due, or a renewal would gain too little. *)
Definition left_alone (c : Material) (target : TlsMode) (issuer_cert : option Cert) (now : Z) : Outcome bool :=
  due ← moment_plus (mat_not_after c) (- RENEW_BEFORE);
  if now <? due then mret true else
  match target, issuer_cert with
  | ca_issued, Some i =>
      requested ← add_days now CERT_DAYS;
      mret (Z.min requested (not_valid_after i) - mat_not_after c <? MIN_RENEWAL_GAIN)
  | _, _ => mret false
  end.
(** Issuing, with the failures that leave the certificate as it is. *)
Definition replace_current (w : Turn) (current : option Material) (target : TlsMode) (issuer : option CARow) (cn : string)
    (sans : list string) : Act bool :=
  result ← attempt (issue_own w target issuer cn sans);
  match result with
  | Ok (cert, bundle, key, row, capped) =>
      _ ← write_and_load w bundle key;
      _ ← set_mode (Some target);
      _ ← set_last_error None;
      _ ← on_db (record SYSTEM_ACTOR a_tls_certificate_issued (issued_event target cn sans cert row capped) (turn_logged w));
      mret true
  | Raise e =>
      if is_recoverable e then
        let message := exc_text e in
        let now_mode := mat_mode <$> current in
        _ ← set_mode now_mode;
        last ← look last_error;
        _ ← (if decide (last = Some message) then mret () else
               _ ← on_db (record SYSTEM_ACTOR a_tls_certificate_failed (failed_event message now_mode) (turn_logged w)); mret ());
        _ ← set_last_error (Some message);
        mret false
      else mthrow e
  end.
Definition ensure_current (w : Turn) : Act bool :=
  disk ← look files;
  current ← pure (load_current disk);
  known ← look mode;
  _ ← match current, known with
      | Some c, None => _ ← load_into_live_context (mat_key c); set_mode (Some (mat_mode c))
      | _, _ => mret ()
      end;
  names ← on_db (query (wanted_names (host_name w)));
  '(cn, sans) ← pure names;
  issuer ← on_db resolve_tls_issuer;
  let target := target_mode current issuer in
  if bool_decide (target = ca_issued) && bool_decide (issuer = None) then
    _ ← set_mode (mat_mode <$> current); mret false
  else
    issuer_cert ← match issuer with Some row => c ← pure (load_cert (ca_cert row)); mret (Some c) | None => mret None end;
    match current with
    | Some c =>
        if negb (mode_changed current target issuer_cert) && negb (names_changed current cn sans) then
          left ← pure (left_alone c target issuer_cert (turn_now w));
          if (left : bool) then _ ← set_mode (Some (mat_mode c)); mret false
          else replace_current w current target issuer cn sans
        else replace_current w current target issuer cn sans
    | None => replace_current w current target issuer cn sans
    end.
(** One tick of the hourly loop, or one call of a request: a session of its
    own, closed at the end. *)
Definition turn (w : Turn) (t : Manager) (db : DB) : Outcome bool * (Manager * DB) :=
  let '(r, (t', s)) := ensure_current w (t, fresh_session db) in (r, (t', close_session s)).
(** [renewal_loop]: what [stop.is_set()] answers before each tick, with the
    tick; whatever a tick raises is swallowed. *)
Fixpoint renewal_loop (ticks : list (bool * Turn)) (t : Manager) (db : DB) : Manager * DB :=
  match ticks with
  | [] | (true, _) :: _ => (t, db)
  | (false, w) :: rest => let '(_, (t', db')) := turn w t db in renewal_loop rest t' db'
  end.
End tls.

(** * Correctness *)
(** ** Running the manager's steps *)
Section awp.
Context {X : X509Lib} {SS : SecretStore}.
Definition awp {A} (m : Act A) (t : Manager) (s : Session DB) (Q : Outcome A → Manager → Session DB → Prop) : Prop :=
  Q (m (t, s)).1 (m (t, s)).2.1 (m (t, s)).2.2.
Lemma awp_bind {A B} (m : Act A) (f : A → Act B) t s Q :
  awp m t s (λ r t' s', match r with Ok a => awp (f a) t' s' Q | Raise e => Q (Raise e) t' s' end) → awp (m ≫= f) t s Q.
Proof. unfold awp, mbind, Act_bind. by destruct (m (t, s)) as [[a|e] [t' s']]. Qed.
Lemma awp_ret {A} (a : A) t s (Q : Outcome A → Manager → Session DB → Prop) : Q (Ok a) t s → awp (mret a) t s Q.
Proof. done. Qed.
Lemma awp_throw {A} (e : Exc) t s (Q : Outcome A → Manager → Session DB → Prop) : Q (Raise e) t s → awp (mthrow e) t s Q.
Proof. done. Qed.
Lemma awp_raise_if b e t s (Q : Outcome unit → Manager → Session DB → Prop) :
  (b = true → Q (Raise e) t s) → (b = false → Q (Ok ()) t s) → awp (raise_if b e) t s Q.
Proof. intros H1 H2. destruct b; [by apply H1|by apply H2]. Qed.
Lemma awp_pure {A} (m : Outcome A) t s (Q : Outcome A → Manager → Session DB → Prop) :
  (∀ a, m = Ok a → Q (Ok a) t s) → (∀ e, m = Raise e → Q (Raise e) t s) → awp (pure m) t s Q.
Proof. intros H1 H2. destruct m; [by apply H1|by apply H2]. Qed.
Lemma awp_look {A} (f : Manager → A) t s (Q : Outcome A → Manager → Session DB → Prop) : Q (Ok (f t)) t s → awp (look f) t s Q.
Proof. done. Qed.
Lemma awp_update f t s (Q : Outcome unit → Manager → Session DB → Prop) : Q (Ok ()) (f t) s → awp (update f) t s Q.
Proof. done. Qed.
Lemma awp_db {A} (m : Tx DB A) t s (Q : Outcome A → Manager → Session DB → Prop) :
  wp m s (λ r s', Q r t s') → awp (on_db m) t s Q.
Proof. unfold awp, wp, on_db. by destruct (m s). Qed.
Lemma awp_query {A} (f : DB → A) t s (Q : Outcome A → Manager → Session DB → Prop) :
  Q (Ok (f (work s))) t s → awp (on_db (query f)) t s Q.
Proof. done. Qed.
Lemma awp_attempt {A} (m : Act A) t s (Q : Outcome (Outcome A) → Manager → Session DB → Prop) :
  awp m t s (λ r t' s', Q (Ok r) t' s') → awp (attempt m) t s Q.
Proof. unfold awp, attempt. by destruct (m (t, s)) as [r [t' s']]. Qed.
Lemma awp_mono {A} (m : Act A) t s (Q Q' : Outcome A → Manager → Session DB → Prop) :
  awp m t s Q → (∀ r t' s', Q r t' s' → Q' r t' s') → awp m t s Q'.
Proof. unfold awp. auto. Qed.
End awp.
Arguments awp : simpl never.
Ltac awp_step := cbv beta; lazymatch goal with
  | |- awp (_ ≫= _) _ _ _ => apply awp_bind
  | |- awp (mret _) _ _ _ => apply awp_ret
  | |- awp (mthrow _) _ _ _ => apply awp_throw
  | |- awp (raise_if _ _) _ _ _ => apply awp_raise_if; intros ?
  | |- awp (pure _) _ _ _ => apply awp_pure; intros ? ?
  | |- awp (look _) _ _ _ => apply awp_look
  | |- awp (on_db (query _)) _ _ _ => apply awp_query
  | |- awp (on_db _) _ _ _ => apply awp_db
  | |- awp (attempt _) _ _ _ => apply awp_attempt
  | |- awp (set_files _) _ _ _ => apply awp_update
  | |- awp (set_mode _) _ _ _ => apply awp_update
  | |- awp (set_last_error _) _ _ _ => apply awp_update
  | |- awp (set_live _) _ _ _ => apply awp_update
  end.

Section theorems.
Context {X : X509Lib} {SS : SecretStore} {SSL : SSLLib}.

(** ** The issuer, decided once and written down *)
Definition tls_issuer_of (db : DB) : option CARow * DB :=
  let bound := default "" (get_setting TLS_ISSUER_ID db) in
  if decide (bound = "") then
    match active_issuers db with
    | [r] => (Some r, on_settings (λ m, <[TLS_ISSUER_ID := str_of_Z (ca_id r)]> m) db)
    | _ => (None, db)
    end
  else (match py_int bound with
        | Ok n => match cas db !! n with Some r => if is_active_issuer r then Some r else None | None => None end
        | Raise _ => None end, db).
Lemma resolve_eq db : resolve_tls_issuer (fresh_session db) = (Ok (fst (tls_issuer_of db)), fresh_session (snd (tls_issuer_of db))).
Proof.
  unfold resolve_tls_issuer, tls_issuer_of. rewrite Tx_bind_eq. cbn [query work fresh_session].
  destruct (decide _) as [He|_]; [rewrite Tx_bind_eq; cbn [query work fresh_session]; by destruct (active_issuers db) as [|r [|q l]]|].
  by destruct (py_int _) as [n|e].
Qed.
Record resolves (db : DB) (issuer : option CARow) (db1 : DB) : Prop := {
  resolved_run : tls_issuer_of db = (issuer, db1);
  resolved_row : ∀ r, issuer = Some r → cas db !! ca_id r = Some r ∧ is_active_issuer r = true;
  resolved_db : db1 = db ∨ (default "" (get_setting TLS_ISSUER_ID db) = "" ∧
    ∃ r, issuer = Some r ∧ active_issuers db = [r] ∧ db1 = on_settings (λ m, <[TLS_ISSUER_ID := str_of_Z (ca_id r)]> m) db) }.
Lemma tls_issuer_resolves db : hierarchy_ok db → resolves db (fst (tls_issuer_of db)) (snd (tls_issuer_of db)).
Proof.
  intros Hh. split; [by destruct (tls_issuer_of db)|..]; unfold tls_issuer_of; destruct (decide _) as [He|_].
  - intros r. destruct (active_issuers db) as [|q [|q' l]] eqn:Ha; cbn; [done| |done]. intros [= ->].
    assert (Hin : r ∈ active_issuers db) by (rewrite Ha; left). apply elem_of_rows_where in Hin as [Hact [i Hi]].
    split; [|done]. by rewrite (proj1 (Hh _ _ Hi)).
  - intros r. cbn [fst]. destruct (py_int _) as [n|e]; [|done]. destruct (cas db !! n) as [q|] eqn:Hq; [|done].
    destruct (is_active_issuer q) eqn:Hact; [|done]. intros [= ->]. by rewrite (proj1 (Hh _ _ Hq)).
  - destruct (active_issuers db) as [|q [|q' l]] eqn:Ha; cbn; [by left| |by left]. right. split; [done|]. by exists q.
  - by left.
Qed.
Lemma wp_resolve_tls_issuer db (Q : Outcome (option CARow) → Session DB → Prop) : hierarchy_ok db →
  (∀ issuer db1, resolves db issuer db1 → Q (Ok issuer) (fresh_session db1)) → wp resolve_tls_issuer (fresh_session db) Q.
Proof. intros Hh H. unfold wp. rewrite resolve_eq. by apply H, tls_issuer_resolves. Qed.
(** The answer is kept: whoever is added later, the next call finds the same. *)
Lemma tls_issuer_kept db issuer db1 db' : (∀ i, is_Some (cas db !! i) → 0 ≤ i < 2 ^ 63) → resolves db issuer db1 →
  settings db' = settings db1 → cas db' = cas db → tls_issuer_of db' = (issuer, db').
Proof.
  intros Hids Hr Hset Hcas. destruct (resolved_db _ _ _ Hr) as [->|(Hu & r & -> & Ha & ->)].
  - pose proof (resolved_run _ _ _ Hr) as Hrun. unfold tls_issuer_of, get_setting, active_issuers in *. rewrite Hset, Hcas.
    destruct (decide _) as [He|_]; [|by injection Hrun as ->].
    destruct (rows_where (cas db) is_active_issuer) as [|q [|q' l]]; [by injection Hrun as <-| |by injection Hrun as <-].
    exfalso. injection Hrun as <- Hdb. unfold get_setting in He. rewrite <- Hdb in He. cbn [settings on_settings] in He.
    rewrite lookup_insert_eq in He. cbn [default] in He. destruct (resolved_row _ _ _ Hr q eq_refl) as [Hq _].
    destruct (py_int_str (ca_id q)) as [_ Hne]; [|done]. destruct (Hids _ (mk_is_Some _ _ Hq)) as [? Hlt]. split; [done|].
    eapply Z.lt_trans; [exact Hlt|]. by_decide.
  - destruct (resolved_row _ _ _ Hr r eq_refl) as [Hq Hact]. destruct (Hids _ (mk_is_Some _ _ Hq)) as [? Hlt].
    destruct (py_int_str (ca_id r)) as [Hi Hne]; [split; [done|]; eapply Z.lt_trans; [exact Hlt|]; by_decide|].
    unfold tls_issuer_of, get_setting. rewrite Hset. cbn [settings on_settings]. rewrite lookup_insert_eq. cbn [default id].
    rewrite decide_False, Hi, Hcas, Hq, Hact by done. done.
Qed.

(** ** Issuing and writing *)
(** A new certificate for cabin, and the database with it. *)
Inductive own_made (w : Turn) (db : DB) (cn : string) (sans : list string)
  : TlsMode → option CARow → Cert → list Pem → PrivKey → option CertRow → option Z → DB → Prop :=
  | made_self_signed issuer cert key :
      self_signed_server_certificate cn sans TLS_KEY_TYPE CERT_DAYS (d_now (draw w)) (d_serial (draw w)) (d_seed (draw w)) = Ok (cert, key) →
      own_made w db cn sans self_signed issuer cert [cert_pem cert] key None None db
  | made_by_ca row crow cert ic ik key capped chain crl aia :
      issued_by db SYSTEM_PRINCIPAL (Some (ca_id row)) crow cert ic ik → crt_source crow = system →
      issue_certificate ic ik server cn sans CERT_DAYS TLS_KEY_TYPE crl aia (d_now (draw w)) (d_serial (draw w)) (d_seed (draw w))
        = Ok (cert, key, capped) →
      chain_for (on_certs (λ m, <[crt_id crow := crow]> m) db) (ca_id row) (turn_chained w) = Ok chain →
      own_made w db cn sans ca_issued (Some row) cert (crt_pem crow :: map ca_cert chain) key (Some crow) capped
        (on_certs (λ m, <[crt_id crow := crow]> m) db).
Lemma awp_issue_own w target issuer cn sans t db (Q : Outcome _ → Manager → Session DB → Prop) :
  hierarchy_ok db → 0 ≤ d_serial (draw w) → (∀ r, issuer = Some r → cas db !! ca_id r = Some r) →
  (∀ cert bundle key row capped db', own_made w db cn sans target issuer cert bundle key row capped db' →
     Q (Ok (cert, bundle, PlainPem (private_pem key), row, capped)) t (fresh_session db')) →
  (∀ e, Q (Raise e) t (fresh_session db)) → awp (issue_own w target issuer cn sans) t (fresh_session db) Q.
Proof.
  intros Hh Hser Hrow Hok Hraise. unfold issue_own. destruct target.
  - do 2 awp_step; [|auto]. destruct a as [cert key]. awp_step. by apply Hok, made_self_signed.
  - do 2 awp_step; [|auto]. destruct issuer as [row|]; [|done]. match goal with E : of_option _ _ = Ok _ |- _ => injection E as -> end.
    do 2 awp_step. apply wp_issue_and_store; [done|done| |by intros e; apply Hraise].
    intros crow cert ic ik capped Hby Hsrc _ (crl & aia & key & Hmade & Hkey) _ db2. cbn [work fresh_session issued_row capped_from].
    pose proof (issued_describes _ _ _ _ _ _ _ Hby) as Hd.
    assert (Hcas : cas db !! ca_id a = Some a) by by apply Hrow.
    destruct (chains_for_selects db2 (ca_id a) (turn_chained w) a) as (cs & _ & _ & Hcs & _); [by eapply (hierarchy_same db)|done|].
    assert (Hchain : chain_for db2 (ca_id a) (turn_chained w) = Ok (chain_rows (default_chain cs))) by (unfold chain_for; by rewrite Hcs).
    rewrite (row_pem _ _ Hd), Hkey. unfold sealed_key. cbn [of_option].
    apply awp_bind, awp_pure; [intros ? [= <-]|done]. apply awp_bind, awp_pure; [intros ? [= <-]|done].
    apply awp_bind, awp_pure; rewrite unseal_seal; [intros ? [= <-]|done]. do 2 awp_step. cbn [work fresh_session].
    apply awp_bind, awp_pure; rewrite Hchain; [intros ? [= <-]|done]. apply awp_ret. by eapply Hok, made_by_ca.
Qed.
Lemma self_signed_names cert key cn sans kt n now serial seed : self_signed_server_certificate cn sans kt n now serial seed = Ok (cert, key) →
  cert_key cert = public_key key ∧ issuer (tbs cert) = cert_subject cert.
Proof.
  unfold self_signed_server_certificate. intros H. inv_x509.
  match goal with H : sign_with _ _ = Ok _ |- _ => apply sign_with_ok in H end. unfold cert_key, cert_subject.
  by match goal with H : tbs _ = _ |- _ => rewrite H end.
Qed.
Lemma own_made_pair w db cn sans target issuer cert bundle key row capped db' :
  own_made w db cn sans target issuer cert bundle key row capped db' → load_bundle bundle = Ok cert ∧ public_key key = cert_key cert.
Proof.
  destruct 1 as [issuer cert key H|row crow cert ic ik key capped chain crl aia Hby _ H _]; cbn.
  - split; [apply load_cert_pem|]. by destruct (self_signed_names _ _ _ _ _ _ _ _ _ H) as [-> _].
  - split; [by apply row_pem, (issued_describes _ _ _ _ _ _ _ Hby)|].
    apply issue_certificate_leaf in H as (_ & _ & cn' & res & Hleaf). by rewrite (leaf_key _ _ _ _ _ _ _ Hleaf).
Qed.
Lemma own_made_frame w db cn sans target issuer cert bundle key row capped db' :
  own_made w db cn sans target issuer cert bundle key row capped db' → audit_events db' = audit_events db ∧ cas db' = cas db.
Proof. by destruct 1. Qed.

(** What a call may leave of a write it did not finish. *)
Definition partly_written (w : Turn) (bundle : list Pem) (key : Plain Pem) (f f' : Files) : Prop :=
  f' = f ∨ f' = mkFiles (Some bundle) (key_sealed f) ∨ f' = mkFiles (Some bundle) (Some (SealedText (seal (key_nonce w) key))).
Record written (w : Turn) (bundle : list Pem) (key : Plain Pem) (t t' : Manager) : Prop := {
  written_files : files t' = mkFiles (Some bundle) (Some (SealedText (seal (key_nonce w) key)));
  written_mode : mode t' = mode t;
  written_error : last_error t' = last_error t;
  written_live : live t' = match live t with Some _ => Some (Some (bundle, key)) | None => None end }.
Lemma awp_write w bundle key t s (Q : Outcome unit → Manager → Session DB → Prop) :
  (∀ t', written w bundle key t t' → Q (Ok ()) t' s) →
  (∀ e t', partly_written w bundle key (files t) (files t') → Q (Raise e) t' s) → awp (write_and_load w bundle key) t s Q.
Proof.
  intros Hok Hraise. unfold write_and_load, load_into_live_context. repeat awp_step.
  - apply Hraise. by left.
  - apply Hraise. right. by left.
  - destruct t as [f m e [old|]]; cbn [files live mode last_error] in *.
    + cbn [crt of_option]. apply awp_bind, awp_pure; [intros ? [= <-]|done].
      destruct (load_cert_chain old bundle key) as [r new] eqn:Hl. repeat awp_step.
      * destruct a. subst r. apply load_cert_chain_ok in Hl as ->. by apply Hok.
      * apply Hraise. right. by right.
    + awp_step. by apply Hok.
Qed.
Lemma awp_adopt key f t s (Q : Outcome unit → Manager → Session DB → Prop) : crt (files t) = Some f →
  (∀ t', files t' = files t → mode t' = mode t → last_error t' = last_error t →
     live t' = match live t with Some _ => Some (Some (f, key)) | None => None end → Q (Ok ()) t' s) →
  (∀ e t', files t' = files t → last_error t' = last_error t → Q (Raise e) t' s) → awp (load_into_live_context key) t s Q.
Proof.
  intros Hf Hok Hraise. unfold load_into_live_context. do 2 awp_step. destruct (live t) as [old|] eqn:Hl.
  - rewrite Hf. cbn [of_option]. apply awp_bind, awp_pure; [intros ? [= <-]|done].
    destruct (load_cert_chain old f key) as [r new] eqn:Hc. repeat awp_step.
    + destruct a. subst r. apply load_cert_chain_ok in Hc as ->. by apply Hok.
    + by apply Hraise.
  - awp_step. apply Hok; done || by rewrite Hl.
Qed.

(** One event of a kind was added. *)
Definition one_event (action : AuditAction) (db db' : DB) : Prop :=
  ∃ entry, aud_action entry = action ∧ audit_events db !! aud_id entry = None ∧ db' = on_audit (λ m, <[aud_id entry := entry]> m) db.
(** The certificate could not be issued, and is as it was. *)
Record gave_up (current : option Material) (t : Manager) (db : DB) (t' : Manager) (db' : DB) : Prop := {
  gave_files : files t' = files t;
  gave_mode : mode t' = mat_mode <$> current;
  gave_live : live t' = live t;
  gave_log : ∃ message, last_error t' = Some message ∧
    ((last_error t = Some message ∧ db' = db) ∨ (last_error t ≠ Some message ∧ one_event a_tls_certificate_failed db db')) }.
Record replaced (w : Turn) (target : TlsMode) (t : Manager) (db2 : DB) (bundle : list Pem) (key : PrivKey) (t' : Manager) (db' : DB) : Prop := {
  replaced_files : files t' = mkFiles (Some bundle) (Some (SealedText (seal (key_nonce w) (PlainPem (private_pem key)))));
  replaced_mode : mode t' = Some target;
  replaced_error : last_error t' = None;
  replaced_live : live t' = match live t with Some _ => Some (Some (bundle, PlainPem (private_pem key))) | None => None end;
  replaced_log : one_event a_tls_certificate_issued db2 db' }.
Lemma awp_replace w current target issuer cn sans t db (Q : Outcome bool → Manager → Session DB → Prop) :
  hierarchy_ok db → 0 ≤ d_serial (draw w) → (∀ r, issuer = Some r → cas db !! ca_id r = Some r) →
  (∀ cert bundle key row capped db2 t' db', own_made w db cn sans target issuer cert bundle key row capped db2 →
     replaced w target t db2 bundle key t' db' → Q (Ok true) t' (fresh_session db')) →
  (∀ t' db', gave_up current t db t' db' → Q (Ok false) t' (fresh_session db')) →
  (∀ e, is_recoverable e = false → Q (Raise e) t (fresh_session db)) →
  (∀ e cert bundle key row capped db2 t', own_made w db cn sans target issuer cert bundle key row capped db2 →
     partly_written w bundle (PlainPem (private_pem key)) (files t) (files t') → Q (Raise e) t' (fresh_session db2)) →
  awp (replace_current w current target issuer cn sans) t (fresh_session db) Q.
Proof.
  intros Hh Hser Hrow Hok Hgave Hraise Hpart. unfold replace_current. do 2 awp_step. apply awp_issue_own; try done.
  - intros cert bundle key row capped db2 Hmade. apply awp_bind, awp_write.
    + intros t1 Hw. repeat awp_step. apply wp_record. intros entry db3 Hfresh. cbn [work fresh_session] in *. awp_step.
      eapply Hok; [exact Hmade|]. split; cbn; [apply Hw|done|done|rewrite (written_live _ _ _ _ _ Hw); done|].
      exists entry. by split_and!.
    + intros e t1 Hp. by eapply Hpart.
  - intros e. destruct (is_recoverable e) eqn:He; [|by awp_step; apply Hraise]. cbn zeta. repeat awp_step. cbn [last_error].
    destruct (decide _) as [Hl|Hl].
    + repeat awp_step. apply Hgave. split; cbn; try done. exists (exc_text e). split; [done|]. by left.
    + repeat awp_step. apply wp_record. intros entry db3 Hfresh. cbn [work fresh_session] in *. repeat awp_step.
      apply Hgave. split; cbn; try done. exists (exc_text e). split; [done|]. right. split; [done|]. exists entry. by split_and!.
Qed.

(** ** The decision *)
(** The start of a call: material on disk is put into a context that was
    just made. *)
Record adopted (current : option Material) (t t1 : Manager) : Prop := {
  adopted_files : files t1 = files t;
  adopted_error : last_error t1 = last_error t;
  adopted_live : match mode t, current with
    | None, Some c => ∃ bundle, crt (files t) = Some bundle ∧ mode t1 = Some (mat_mode c) ∧
        live t1 = match live t with Some _ => Some (Some (bundle, mat_key c)) | None => None end
    | _, _ => mode t1 = mode t ∧ live t1 = live t end }.
(** What a call has found out when it comes to replacing the certificate. *)
Record considered (w : Turn) (t : Manager) (db : DB) (current : option Material) (t1 : Manager) (issuer : option CARow) (db1 : DB)
    (cn : string) (sans : list string) (issuer_cert : option Cert) : Prop := {
  con_current : load_current (files t) = Ok current;
  con_adopted : adopted current t t1;
  con_names : wanted_names (host_name w) db = Ok (cn, sans);
  con_issuer : resolves db issuer db1;
  con_target : target_mode current issuer = ca_issued → issuer ≠ None;
  con_cert : match issuer with Some r => ∃ c, load_cert (ca_cert r) = Ok c ∧ issuer_cert = Some c | None => issuer_cert = None end }.
Definition must_replace (w : Turn) (current : option Material) (target : TlsMode) (issuer_cert : option Cert) (cn : string)
    (sans : list string) : Prop :=
  match current with
  | None => True
  | Some c => mode_changed current target issuer_cert = true ∨ names_changed current cn sans = true ∨
      left_alone c target issuer_cert (turn_now w) = Ok false
  end.
Lemma load_current_bundle f c : load_current f = Ok (Some c) → ∃ bundle, crt f = Some bundle.
Proof. unfold load_current. destruct (crt f) as [b|]; [by exists b|done]. Qed.
Lemma awp_ensure w t db (Q : Outcome bool → Manager → Session DB → Prop) : hierarchy_ok db →
  (∀ e t1 db1, files t1 = files t → last_error t1 = last_error t → db1 = db ∨ (∃ i, resolves db i db1) → Q (Raise e) t1 (fresh_session db1)) →
  (∀ current t1 db1, load_current (files t) = Ok current → adopted current t t1 → resolves db None db1 →
     target_mode current None = ca_issued →
     Q (Ok false) (mkManager (files t1) (mat_mode <$> current) (last_error t1) (live t1)) (fresh_session db1)) →
  (∀ c t1 issuer db1 cn sans ic, considered w t db (Some c) t1 issuer db1 cn sans ic →
     let target := target_mode (Some c) issuer in
     mode_changed (Some c) target ic = false → names_changed (Some c) cn sans = false → left_alone c target ic (turn_now w) = Ok true →
     Q (Ok false) (mkManager (files t1) (Some (mat_mode c)) (last_error t1) (live t1)) (fresh_session db1)) →
  (∀ current t1 issuer db1 cn sans ic, considered w t db current t1 issuer db1 cn sans ic →
     let target := target_mode current issuer in must_replace w current target ic cn sans →
     awp (replace_current w current target issuer cn sans) t1 (fresh_session db1) Q) →
  awp (ensure_current w) t (fresh_session db) Q.
Proof.
  intros Hh Hraise Hkeep Hquiet Hgo. unfold ensure_current. do 2 awp_step. do 2 awp_step; [|by apply Hraise; auto].
  rename a into current. do 2 awp_step. apply awp_bind.
  apply (awp_mono _ _ _ (λ r t1 s1, s1 = fresh_session db ∧ match r with
    | Ok _ => adopted current t t1 | Raise _ => files t1 = files t ∧ last_error t1 = last_error t end)).
  { destruct current as [c|]; [destruct (mode t) as [m|] eqn:Hm|].
    1, 3: awp_step; split; [done|]; split; [done..|]; by rewrite ?Hm; destruct (mode t).
    destruct (load_current_bundle _ _ H) as [b Hb]. apply awp_bind. eapply awp_adopt; [done|..].
    - intros t1 H1 H2 H3 H4. awp_step. split; [done|]. split; cbn; [done..|]. rewrite Hm. by exists b.
    - intros e t1 H1 H2. done. }
  intros r t1 s1 [-> Hr]. destruct r as [[]|e]; [|apply Hraise; [apply Hr..|by left]].
  do 2 awp_step. awp_step. awp_step; [|apply Hraise; [apply Hr..|by left]]. destruct a as [cn sans]. cbn [work fresh_session] in *.
  do 2 awp_step. apply wp_resolve_tls_issuer; [done|]. intros issuer db1 Hres. cbn zeta.
  destruct (bool_decide (target_mode current issuer = ca_issued) && bool_decide (issuer = None)) eqn:Ht.
  { apply andb_true_iff in Ht as [Ht ->%bool_decide_eq_true]. apply bool_decide_eq_true in Ht. repeat awp_step. by apply Hkeep. }
  assert (Htarget : target_mode current issuer = ca_issued → issuer ≠ None).
  { intros H1 H2. by rewrite !bool_decide_eq_true_2 in Ht. }
  assert (Hfail : ∀ e, Q (Raise e) t1 (fresh_session db1)) by (intros e; apply Hraise; [apply Hr..|right; by exists issuer]).
  apply awp_bind. apply (awp_mono _ _ _ (λ r t2 s2, t2 = t1 ∧ s2 = fresh_session db1 ∧ match r with
    | Ok ic => match issuer with Some r => ∃ c, load_cert (ca_cert r) = Ok c ∧ ic = Some c | None => ic = None end | Raise _ => True end)).
  { destruct issuer as [row|]; repeat awp_step; try done. split_and!; [done..|]. by eexists. }
  intros r t2 s2 (-> & -> & Hic). destruct r as [ic|e]; [|apply Hfail].
  assert (Hcon : considered w t db current t1 issuer db1 cn sans ic) by by split.
  destruct current as [c|]; [|by eapply Hgo].
  destruct (mode_changed (Some c) _ ic) eqn:Hm; [eapply Hgo; [done|by left]|].
  destruct (names_changed (Some c) cn sans) eqn:Hn; [eapply Hgo; [done|right; by left]|].
  cbn [negb andb]. do 2 awp_step; [|apply Hfail]. destruct a; [|eapply Hgo; [done|right; by right]].
  repeat awp_step. by eapply Hquiet.
Qed.

(** ** What the new certificate says *)
Lemma build_leaf_verifies ic ik pub cn sans profile n crl aia now serial cert capped :
  build_leaf ic ik pub cn sans profile n crl aia now serial = Ok (cert, capped) → public_key ik = cert_key ic →
  verify_directly_issued_by cert ic = Ok ().
Proof. unfold build_leaf. intros H Hk. inv_x509. by eapply sign_tbs_verifies. Qed.
Lemma validate_cn_strip cn c : validate_cn cn = Ok c → c = strip cn.
Proof. unfold validate_cn. intros H. by inv_tx. Qed.
Record says (cert : Cert) (cn : string) (sans : list string) : Prop := {
  says_subject : cert_subject cert = [[cn_attribute (strip cn)]];
  says_dates : dates_ok cert;
  says_sans : ∃ explicit resolved names, Forall2 (λ s t, normalize_san s = Ok t) sans explicit ∧
    resolve_sans explicit [] (Some (strip cn)) = Ok resolved ∧ Forall2 (λ s n, general_name s = Ok n) resolved names ∧
    cert_sans cert = Ok (san_strings names) }.
Lemma issue_certificate_says ic ik profile cn0 sans n kt crl aia now serial seed cert key capped :
  issue_certificate ic ik profile cn0 sans n kt crl aia now serial seed = Ok (cert, key, capped) → public_key ik = cert_key ic →
  says cert cn0 sans ∧ verify_directly_issued_by cert ic = Ok () ∧
  ∃ end_, clamp_validity ic n now = Ok (end_, capped) ∧ not_valid_after cert = floor_second end_.
Proof.
  unfold issue_certificate. intros H Hk. inv_x509.
  match goal with H : validate_cn _ = Ok _ |- _ => apply validate_cn_strip in H as -> end.
  match goal with H : map_each normalize_san _ = Ok _ |- _ => apply map_each_ok in H end.
  match goal with H : build_leaf _ _ _ _ _ _ _ _ _ _ _ = Ok _ |- _ =>
    pose proof (build_leaf_dates _ _ _ _ _ _ _ _ _ _ _ _ _ H); pose proof (build_leaf_verifies _ _ _ _ _ _ _ _ _ _ _ _ _ H Hk);
    apply build_leaf_sound in H as (Hl & _ & Hend) end.
  split_and!; [|done..]. destruct (leaf_sans _ _ _ _ _ _ _ Hl) as (names & Hn & Hg).
  split; [|done|].
  - by rewrite (leaf_subject _ _ _ _ _ _ _ Hl).
  - eexists _, _, names. split_and!; [done..|]. unfold cert_sans. by rewrite Hn.
Qed.
Lemma self_signed_says cn sans kt n now serial seed cert key :
  self_signed_server_certificate cn sans kt n now serial seed = Ok (cert, key) → says cert cn sans.
Proof.
  unfold self_signed_server_certificate. intros H. inv_x509.
  match goal with H : validate_cn _ = Ok _ |- _ => apply validate_cn_strip in H as -> end.
  match goal with H : map_each normalize_san _ = Ok _ |- _ => apply map_each_ok in H end.
  match goal with H : map_each general_name _ = Ok _ |- _ => apply map_each_ok in H end.
  match goal with H : cn_name _ = Ok _ |- _ => apply cn_name_ok in H as -> end.
  match goal with H : sign_with _ _ = Ok _ |- _ => pose proof (sign_with_dates _ _ _ H); apply sign_with_ok in H as Ht end.
  split; [|done|].
  - unfold cert_subject. by rewrite Ht.
  - eexists _, _, _. split_and!; [done..|]. unfold cert_sans. by erewrite (signed_extension sel_san) by (exact Ht || done).
Qed.
Lemma own_made_says w db cn sans target issuer cert bundle key row capped db' :
  own_made w db cn sans target issuer cert bundle key row capped db' → says cert cn sans.
Proof.
  destruct 1 as [issuer cert key H|row crow cert ic ik key capped chain crl aia Hby _ H _]; [by eapply self_signed_says|].
  by destruct (issue_certificate_says _ _ _ _ _ _ _ _ _ _ _ _ _ _ _ H (issued_key _ _ _ _ _ _ _ Hby)).
Qed.
(** Names that read back from a certificate as they were asked for. *)
Definition canonical_names (cn : string) (sans : list string) : bool :=
  bool_decide (strip cn = cn) && nonempty sans && forallb (λ s, bool_decide (normalize_san s = Ok s) &&
    match general_name s with Ok g => bool_decide (san_string g = [s]) | Raise _ => true end) sans.
Lemma canonical_says cert cn sans : says cert cn sans → canonical_names cn sans = true →
  tls_subject_cn cert = cn ∧ ∃ l, cert_sans cert = Ok l ∧ same_names l sans = true.
Proof.
  intros [Hsub _ (explicit & resolved & names & He & Hr & Hg & Hs)] Hc. unfold canonical_names in Hc.
  apply andb_true_iff in Hc as [[Hstrip%bool_decide_eq_true Hne]%andb_true_iff Hall]. rewrite forallb_forall in Hall.
  split; [unfold tls_subject_cn; by rewrite Hsub, Hstrip|]. exists (san_strings names). split; [done|].
  assert (explicit = sans) as ->.
  { clear -He Hall. induction He as [|s t l k Hst _ IH]; [done|]. f_equal.
    - specialize (Hall s (or_introl eq_refl)). apply andb_true_iff in Hall as [Hn%bool_decide_eq_true _]. congruence.
    - apply IH. intros x Hx. apply Hall. by right. }
  apply resolve_sans_spec in Hr as [_ [[_ ->]|(-> & _)]]; [|done].
  assert (Hpy : py_or sans [] = sans) by (clear; by destruct sans). rewrite Hpy in Hg.
  assert (Hsan : concat (map san_string names) = dedup sans).
  { assert (Hin : ∀ s, s ∈ dedup sans → s ∈ sans) by (intros s; apply elem_of_dedup).
    clear -Hg Hall Hin. induction Hg as [|s g l k Hsg _ IH]; [done|]. cbn. rewrite IH by (intros; apply Hin; by right).
    specialize (Hall s). rewrite <- list_elem_of_In in Hall. specialize (Hall (Hin s ltac:(left))).
    apply andb_true_iff in Hall as [_ Hall]. rewrite Hsg in Hall. by apply bool_decide_eq_true in Hall as ->. }
  assert (Heq : ∀ s, s ∈ san_strings names ↔ s ∈ sans).
  { intros s. unfold san_strings. by rewrite Hsan, !elem_of_dedup. }
  unfold same_names. apply andb_true_iff. rewrite !forallb_forall. split; intros s Hs'%list_elem_of_In; apply bool_decide_eq_true; by apply Heq.
Qed.

(** ** The theorems *)
Lemma turn_awp w t db (Q : Outcome bool → Manager → DB → Prop) r t' db' : turn w t db = (r, (t', db')) →
  awp (ensure_current w) t (fresh_session db) (λ r t' s', Q r t' (durable s')) → Q r t' db'.
Proof. unfold turn, awp. destruct (ensure_current w (t, fresh_session db)) as [r0 [t0 s0]]. by intros [= -> -> <-]. Qed.
Lemma resolves_hierarchy db issuer db1 : resolves db issuer db1 → hierarchy_ok db → hierarchy_ok db1 ∧ cas db1 = cas db ∧ certs db1 = certs db.
Proof.
  intros Hr Hh. destruct (resolved_db _ _ _ Hr) as [->|(_ & r & _ & _ & ->)]; [done|]. split; [|done]. by eapply (hierarchy_same db).
Qed.
Lemma adopted_slot current t t1 : adopted current t t1 → is_Some (live t1) ↔ is_Some (live t).
Proof.
  intros Ha. pose proof (adopted_live _ _ _ Ha) as H. destruct (mode t), current as [c|]; try (by destruct H as [_ ->]).
  destruct H as (b & _ & _ & ->). by destruct (live t).
Qed.
Lemma live_slot {A B} (o p : option A) (b : B) : (is_Some o ↔ is_Some p) →
  match o with Some _ => Some (Some b) | None => None end = match p with Some _ => Some (Some b) | None => None end.
Proof.
  intros [H1 H2]. destruct o as [a|], p as [a'|]; [done| | |done]; exfalso.
  - destruct (H1 ltac:(by eexists)); done.
  - destruct (H2 ltac:(by eexists)); done.
Qed.

(** C30: what a call does to cabin's own certificate.  [True] means that a new
    one was made - by the one active issuer that is bound or now becomes bound,
    through the ordinary issuing path, or self-signed when there is no issuer
    and none before - for the names wanted right now; that both files hold
    it and its sealed key, which belongs to it; that a live context holds the
    very same; and that one event says so.  [False] means that the files are
    as they were and at most one event was added: a failure to issue, when it
    is not the failure the last call already reported.  A call that raises has
    at worst stopped between the certificate's row, its file and its key. *)
Theorem own_certificate_exact w t db r t' db' : hierarchy_ok db → 0 ≤ d_serial (draw w) → turn w t db = (r, (t', db')) →
  match r with
  | Ok true => ∃ current issuer db1 cn sans cert bundle key row capped db2,
      load_current (files t) = Ok current ∧ resolves db issuer db1 ∧ wanted_names (host_name w) db = Ok (cn, sans) ∧
      (target_mode current issuer = ca_issued → issuer ≠ None) ∧
      own_made w db1 cn sans (target_mode current issuer) issuer cert bundle key row capped db2 ∧
      load_bundle bundle = Ok cert ∧ public_key key = cert_key cert ∧
      files t' = mkFiles (Some bundle) (Some (SealedText (seal (key_nonce w) (PlainPem (private_pem key))))) ∧
      mode t' = Some (target_mode current issuer) ∧ last_error t' = None ∧
      live t' = match live t with Some _ => Some (Some (bundle, PlainPem (private_pem key))) | None => None end ∧
      one_event a_tls_certificate_issued db2 db'
  | Ok false => files t' = files t ∧ ∃ current issuer db1,
      load_current (files t) = Ok current ∧ resolves db issuer db1 ∧ mode t' = mat_mode <$> current ∧
      ((last_error t' = last_error t ∧ db' = db1) ∨
       ∃ message, last_error t' = Some message ∧ last_error t ≠ Some message ∧ one_event a_tls_certificate_failed db1 db')
  | Raise _ => ∃ issuer db1, (db1 = db ∨ resolves db issuer db1) ∧
      ((files t' = files t ∧ db' = db1) ∨
       ∃ current cn sans cert bundle key row capped, own_made w db1 cn sans (target_mode current issuer) issuer cert bundle key row capped db' ∧
         partly_written w bundle (PlainPem (private_pem key)) (files t) (files t'))
  end.
Proof.
  intros Hh Hser Hturn. pattern r, t', db'. eapply turn_awp; [exact Hturn|]. clear r t' db' Hturn. cbn beta.
  apply awp_ensure; [done|..].
  - intros e t1 db1 Hf _ Hdb. cbn [durable fresh_session]. destruct Hdb as [->|[i Hi]].
    + exists None, db. split; [by left|]. by left.
    + exists i, db1. split; [by right|]. by left.
  - intros current t1 db1 Hc Ha Hr _. cbn. split; [apply Ha|]. exists current, None, db1. split_and!; [done..|].
    left. split; [apply Ha|done].
  - intros c t1 issuer db1 cn sans ic Hcon target _ _ _. cbn. destruct Hcon as [H1 H2 H3 H4 H5 H6]. split; [apply H2|].
    exists (Some c), issuer, db1. split_and!; [done..|]. left. split; [apply H2|done].
  - intros current t1 issuer db1 cn sans ic Hcon target _. subst target. destruct Hcon as [H1 H2 H3 H4 H5 _].
    destruct (resolves_hierarchy _ _ _ H4 Hh) as (Hh1 & Hcas & _).
    apply awp_replace; [done|done| |..].
    + intros row ->. rewrite Hcas. by apply (resolved_row _ _ _ H4).
    + intros cert bundle key row capped db2 t2 db3 Hmade Hrep. destruct (own_made_pair _ _ _ _ _ _ _ _ _ _ _ _ Hmade) as [Hb Hk].
      destruct Hrep as [R1 R2 R3 R4 R5]. exists current, issuer, db1, cn, sans, cert, bundle, key, row, capped, db2.
      split_and!; try done. rewrite R4. by apply live_slot, (adopted_slot current).
    + intros t2 db2 [G1 G2 G3 (m & Hm & G4)]. cbn. split; [rewrite G1; apply H2|]. exists current, issuer, db1. split_and!; [done..|].
      destruct G4 as [[Hl ->]|[Hl He]]; [left; split; [|done]; by rewrite Hm, <- Hl; apply H2|].
      right. exists m. split_and!; [done| |done]. by rewrite <- (adopted_error _ _ _ H2).
    + intros e _. cbn. exists issuer, db1. split; [by right|]. left. split; [apply H2|done].
    + intros e cert bundle key row capped db2 t2 Hmade Hp. cbn. exists issuer, db1. split; [by right|]. right.
      rewrite (adopted_files _ _ _ H2) in Hp. by exists current, cn, sans, cert, bundle, key, row, capped.
Qed.

(** A certificate of the CA is never given up for a self-signed one.  As
    long as the data directory holds a CA-issued certificate with its key, no
    call - with the issuer retired, unknown or ambiguous, with writes that
    fail, on any path - leaves other files than these, except that the
    certificate file may be replaced by a new certificate of an active issuer:
    stored in the inventory as cabin's own, and ahead of it in the file. *)
Theorem never_downgraded w t db r t' db' c : hierarchy_ok db → 0 ≤ d_serial (draw w) →
  load_current (files t) = Ok (Some c) → mat_mode c = ca_issued → turn w t db = (r, (t', db')) →
  files t' = files t ∨
  ∃ row chain ca, crt (files t') = Some (crt_pem row :: chain) ∧ certs db' !! crt_id row = Some row ∧ crt_source row = system ∧
    cas db !! crt_issuer row = Some ca ∧ is_active_issuer ca = true.
Proof.
  intros Hh Hser Hcur Hca Hturn. pattern r, t', db'. eapply turn_awp; [exact Hturn|]. clear r t' db' Hturn. cbn beta.
  apply awp_ensure; [done|by left|..].
  - intros current t1 db1 _ Ha _ _. left. apply Ha.
  - intros c' t1 issuer db1 cn sans ic Hcon target _ _ _. left. apply (con_adopted _ _ _ _ _ _ _ _ _ _ Hcon).
  - intros current t1 issuer db1 cn sans ic Hcon target _. subst target. destruct Hcon as [H1 H2 H3 H4 H5 _].
    assert (current = Some c) as -> by congruence.
    destruct (resolves_hierarchy _ _ _ H4 Hh) as (Hh1 & Hcas & _).
    assert (Hmode : target_mode (Some c) issuer = ca_issued) by (destruct issuer; cbn; [done|by rewrite decide_True]).
    assert (Hnew : ∀ cert bundle key row capped db2, own_made w db1 cn sans (target_mode (Some c) issuer) issuer cert bundle key row capped db2 →
      ∃ crow chain ca, bundle = crt_pem crow :: chain ∧ certs db2 !! crt_id crow = Some crow ∧ crt_source crow = system ∧
        cas db !! crt_issuer crow = Some ca ∧ is_active_issuer ca = true).
    { intros cert bundle key row capped db2 Hmade. rewrite Hmode in Hmade. inversion Hmade; subst.
      match goal with H : issued_by _ _ _ _ _ _ _ |- _ => destruct (issued_ca _ _ _ _ _ _ _ H) as (ca & Hca' & Hact & _) end.
      eexists _, _, ca. split_and!; try done; [apply lookup_insert_eq|congruence]. }
    apply awp_replace; [done|done| |..].
    + intros row ->. rewrite Hcas. by apply (resolved_row _ _ _ H4).
    + intros cert bundle key row capped db2 t2 db3 Hmade Hrep. right. destruct (Hnew _ _ _ _ _ _ Hmade) as (crow & chain & ca & -> & Hin & Hs & Hi).
      exists crow, chain, ca. rewrite (replaced_files _ _ _ _ _ _ _ _ Hrep). split_and!; try done; try apply Hi.
      destruct (replaced_log _ _ _ _ _ _ _ _ Hrep) as (entry & _ & _ & ->). done.
    + intros t2 db2 Hg. left. rewrite (gave_files _ _ _ _ _ Hg). apply H2.
    + intros e _. left. apply H2.
    + intros e cert bundle key row capped db2 t2 Hmade Hp. destruct (Hnew _ _ _ _ _ _ Hmade) as (crow & chain & ca & -> & Hin & Hs & Hi).
      destruct Hp as [Hp|[Hp|Hp]]; rewrite Hp; [left; apply H2|right|right]; by exists crow, chain, ca.
Qed.

(** The CAs are never touched. *)
Lemma turn_hierarchy w t db : hierarchy_ok db → 0 ≤ d_serial (draw w) → hierarchy_ok (snd (snd (turn w t db))).
Proof.
  intros Hh Hser. destruct (turn w t db) as [r [t' db']] eqn:Hturn. cbn [snd].
  refine (turn_awp w t db (λ _ _ db', hierarchy_ok db') _ _ _ Hturn _). clear r t' db' Hturn.
  assert (Hres : ∀ i db1, resolves db i db1 → hierarchy_ok db1) by (intros i db1 Hr; by apply (resolves_hierarchy _ _ _ Hr Hh)).
  apply awp_ensure; [done|..].
  - intros e t1 db1 _ _ [->|[i Hi]]; [done|by eapply Hres].
  - intros current t1 db1 _ _ Hr _. by eapply Hres.
  - intros c t1 issuer db1 cn sans ic Hcon target _ _ _. eapply Hres, (con_issuer _ _ _ _ _ _ _ _ _ _ Hcon).
  - intros current t1 issuer db1 cn sans ic Hcon target _. pose proof (con_issuer _ _ _ _ _ _ _ _ _ _ Hcon) as Hr.
    destruct (resolves_hierarchy _ _ _ Hr Hh) as (Hh1 & Hcas & _). apply awp_replace; [done|done| |..]; cbn [durable fresh_session].
    + intros row Hi. rewrite Hcas. by apply (resolved_row _ _ _ Hr).
    + intros cert bundle key row capped db2 t2 db3 Hmade Hrep. destruct (own_made_frame _ _ _ _ _ _ _ _ _ _ _ _ Hmade) as [_ Hc].
      destruct (replaced_log _ _ _ _ _ _ _ _ Hrep) as (entry & _ & _ & ->). by apply (hierarchy_same db1).
    + intros t2 db2 [_ _ _ (m & _ & [[_ ->]|[_ (entry & _ & _ & ->)]])]; [done|by apply (hierarchy_same db1)].
    + done.
    + intros e cert bundle key row capped db2 t2 Hmade _. destruct (own_made_frame _ _ _ _ _ _ _ _ _ _ _ _ Hmade) as [_ Hc].
      by apply (hierarchy_same db1).
Qed.
(** *** Renewal *)
(** What the next call reads from the files a call has written. *)
Lemma own_made_current w n db cn sans target issuer cert bundle key row capped db' :
  own_made w db cn sans target issuer cert bundle key row capped db' → ∃ l, cert_sans cert = Ok l ∧
    load_current (mkFiles (Some bundle) (Some (SealedText (seal n (PlainPem (private_pem key)))))) =
      Ok (Some (mkMaterial cert (PlainPem (private_pem key))
        (if name_py_eq (X509Lib.issuer (tbs cert)) (cert_subject cert) then self_signed else ca_issued)
        (tls_subject_cn cert) l (not_valid_after cert))).
Proof.
  intros Hmade. destruct (own_made_pair _ _ _ _ _ _ _ _ _ _ _ _ Hmade) as [Hb Hk].
  destruct (says_sans _ _ _ (own_made_says _ _ _ _ _ _ _ _ _ _ _ _ Hmade)) as (_ & _ & names & _ & _ & _ & Hs).
  exists (san_strings names). split; [done|]. unfold load_current. cbn [crt key_sealed tried]. rewrite Hb. cbn.
  rewrite unseal_seal. cbn. rewrite load_private_pem. cbn. rewrite decide_False by (by intros H). by rewrite Hs.
Qed.
Lemma issued_issuer db row crow cert ic ik ic' : issued_by db SYSTEM_PRINCIPAL (Some (ca_id row)) crow cert ic ik →
  cas db !! ca_id row = Some row → load_cert (ca_cert row) = Ok ic' → ic' = ic.
Proof.
  intros Hby Hrow Hic. destruct (issued_ca _ _ _ _ _ _ _ Hby) as (ca & Hca & _ & Hl).
  rewrite (issued_choice _ _ _ _ _ _ _ Hby _ eq_refl) in Hca. congruence.
Qed.

Lemma left_alone_false c ic now : left_alone c ca_issued (Some ic) now = Ok false →
  mat_not_after c - RENEW_BEFORE ≤ now ∧ mat_not_after c + MIN_RENEWAL_GAIN ≤ Z.min (now + days CERT_DAYS) (not_valid_after ic).
Proof.
  unfold left_alone, moment_plus. intros H. inv_tx. destruct (Z.ltb_spec now (mat_not_after c + - RENEW_BEFORE)); [done|].
  apply Outcome_bind_ok in H as (req & (-> & _)%add_days_ok & [= H]). apply Z.ltb_ge in H. lia.
Qed.

(** A renewal is worth its row.  When nothing but the time has changed -
    the names are the wanted ones and the certificate is of the issuer that is
    bound - a CA-issued certificate is replaced only in its last 30 days, and
    only by one that lasts a day longer (but for the fraction of a second that
    X.509 drops) and no longer than its issuer.  So an issuer that runs out
    costs a bounded number of renewals, however often the loop comes by. *)
Theorem renewal_gains w t db t' db' c row ic cn sans : hierarchy_ok db → 0 ≤ d_serial (draw w) → turn_now w ≤ d_now (draw w) →
  load_current (files t) = Ok (Some c) → mat_mode c = ca_issued →
  fst (resolve_tls_issuer (fresh_session db)) = Ok (Some row) → load_cert (ca_cert row) = Ok ic →
  verify_directly_issued_by (mat_cert c) ic = Ok () →
  wanted_names (host_name w) db = Ok (cn, sans) → names_changed (Some c) cn sans = false →
  turn w t db = (Ok true, (t', db')) →
  mat_not_after c - RENEW_BEFORE ≤ turn_now w ∧
  ∃ c', load_current (files t') = Ok (Some c') ∧
    mat_not_after c + MIN_RENEWAL_GAIN - second < mat_not_after c' ∧ mat_not_after c' ≤ not_valid_after ic.
Proof.
  intros Hh Hser Hclock Hcur Hca Hiss Hic Hver Hnames Hsame Hturn. rewrite resolve_eq in Hiss. injection Hiss as Hiss.
  refine (turn_awp w t db (λ r t' _, r = Ok true → mat_not_after c - RENEW_BEFORE ≤ turn_now w ∧ ∃ c', load_current (files t') = Ok (Some c') ∧
    mat_not_after c + MIN_RENEWAL_GAIN - second < mat_not_after c' ∧ mat_not_after c' ≤ not_valid_after ic) _ _ _ Hturn _ eq_refl).
  clear t' db' Hturn.
  apply awp_ensure; [done|done|done|done|].
  intros current t1 issuer db1 cn' sans' ic' [H1 H2 H3 H4 H5 H6] target Hmust. assert (current = Some c) as -> by congruence.
  assert (cn' = cn ∧ sans' = sans) as [-> ->] by (rewrite H3 in Hnames; by injection Hnames).
  rewrite (resolved_run _ _ _ H4) in Hiss. cbn [fst] in Hiss. subst issuer. destruct H6 as (c0 & Hc0 & ->).
  assert (c0 = ic) as -> by congruence. cbn [target_mode] in target. subst target.
  destruct (resolves_hierarchy _ _ _ H4 Hh) as (Hh1 & Hcas & _). destruct (resolved_row _ _ _ H4 row eq_refl) as [Hrow _].
  cbn [must_replace] in Hmust. unfold mode_changed in Hmust. rewrite bool_decide_eq_true_2, Hver in Hmust by done.
  rewrite Hsame in Hmust. destruct Hmust as [Hm|[Hm|[Hdue Hgain]%left_alone_false]]; [done..|].
  apply awp_replace; [done|done| |..]; try done.
  - intros row' [= <-]. by rewrite Hcas.
  - intros cert bundle key crow capped db2 t2 db3 Hmade Hrep _. split; [done|].
    destruct (own_made_current w (key_nonce w) _ _ _ _ _ _ _ _ _ _ _ Hmade) as (l & _ & Hload). rewrite (replaced_files _ _ _ _ _ _ _ _ Hrep).
    eexists. split; [exact Hload|]. cbn [mat_not_after]. inversion Hmade as [|row' crow' cert' ic' ik' key' capped' chain crl aia Hby _ Hiss _]; subst.
    assert (ic = ic') as <- by (eapply issued_issuer; [done| |done]; by rewrite Hcas).
    destruct (issue_certificate_says _ _ _ _ _ _ _ _ _ _ _ _ _ _ _ Hiss (issued_key _ _ _ _ _ _ _ Hby)) as (_ & _ & end_ & Hclamp & ->).
    apply clamp_validity_ok in Hclamp as (_ & _ & -> & _). unfold floor_second.
    pose proof (Z.mod_pos_bound (Z.min (d_now (draw w) + days CERT_DAYS) (not_valid_after ic)) second ltac:(done)). lia.
Qed.

Lemma name_py_eq_refl n : name_py_eq n n = true.
Proof.
  induction n as [|r n IH]; [done|]. cbn. rewrite IH, andb_true_r. unfold rdn_py_eq. rewrite andb_diag, forallb_forall.
  intros a Ha. apply existsb_exists. exists a. split; [done|]. unfold attr_py_eq. by rewrite !bool_decide_eq_true_2.
Qed.
(** A call that finds everything right does nothing. *)
Lemma ensure_quiet w t db c issuer cn sans : load_current (files t) = Ok (Some c) → mode t = Some (mat_mode c) →
  wanted_names (host_name w) db = Ok (cn, sans) → tls_issuer_of db = (issuer, db) →
  mat_mode c = target_mode (Some c) issuer → (target_mode (Some c) issuer = ca_issued → issuer ≠ None) →
  (∀ row, issuer = Some row → ∃ ic, load_cert (ca_cert row) = Ok ic ∧ verify_directly_issued_by (mat_cert c) ic = Ok ()) →
  mat_cn c = cn → same_names (mat_sans c) sans = true → in_datetime (mat_not_after c - RENEW_BEFORE) →
  turn_now w < mat_not_after c - RENEW_BEFORE → turn w t db = (Ok false, (t, db)).
Proof.
  intros Hcur Hmode Hnames Hiss Htarget Hsome Hver Hcn Hsans Hrange Hdue.
  assert (H : awp (ensure_current w) t (fresh_session db) (λ r t' s', r = Ok false ∧ t' = t ∧ s' = fresh_session db)).
  { unfold ensure_current. do 2 awp_step. apply awp_bind, awp_pure; rewrite Hcur; [intros ? [= <-]|done]. do 2 awp_step. rewrite Hmode.
    do 2 awp_step. do 2 awp_step. apply awp_bind, awp_pure; cbn [work fresh_session]; rewrite Hnames; [intros ? [= <-]|done].
    do 2 awp_step. unfold wp. rewrite resolve_eq, Hiss. cbn [fst snd]. cbn zeta.
    replace (bool_decide (target_mode (Some c) issuer = ca_issued) && bool_decide (issuer = None)) with false.
    2: { symmetry. apply andb_false_iff. destruct (decide (target_mode (Some c) issuer = ca_issued)) as [Ht|Ht];
           [right|left]; apply bool_decide_eq_false_2; auto. }
    set (target := target_mode (Some c) issuer) in *.
    assert (Hsame : ∀ ic, (∀ row, issuer = Some row → ic = Some (default (mat_cert c) ic) ∧ verify_directly_issued_by (mat_cert c) (default (mat_cert c) ic) = Ok ()) →
      (issuer = None → ic = None) → mode_changed (Some c) target ic = false ∧ left_alone c target ic (turn_now w) = Ok true).
    { intros ic H1 H2. split.
      - unfold mode_changed. rewrite bool_decide_eq_true_2 by done. destruct target; [done|]. destruct ic as [i|]; [|done].
        destruct issuer as [row|]; [|by specialize (H2 eq_refl)]. destruct (H1 row eq_refl) as [_ Hv]. cbn [default] in Hv. unfold id in Hv. by rewrite Hv.
      - unfold left_alone, moment_plus. change (mat_not_after c + - RENEW_BEFORE) with (mat_not_after c - RENEW_BEFORE).
        rewrite bool_decide_eq_true_2 by done. cbn. by rewrite (proj2 (Z.ltb_lt _ _) Hdue). }
    apply awp_bind. apply (awp_mono _ _ _ (λ r t2 s2, t2 = t ∧ s2 = fresh_session db ∧ ∃ ic, r = Ok ic ∧
      mode_changed (Some c) target ic = false ∧ left_alone c target ic (turn_now w) = Ok true)).
    { destruct issuer as [row|].
      - destruct (Hver row eq_refl) as (i & Hi & Hv). apply awp_bind, awp_pure; rewrite Hi; [intros ? [= <-]|done]. awp_step. split_and!; [done..|].
        exists (Some i). split; [done|]. apply Hsame; [|done]. by intros _ _.
      - awp_step. split_and!; [done..|]. exists None. split; [done|]. by apply Hsame. }
    intros r t2 s2 (-> & -> & ic & -> & Hm & Hl). cbn beta iota. rewrite Hm. unfold names_changed. rewrite bool_decide_eq_true_2, Hsans by done.
    cbn [negb orb andb]. apply awp_bind, awp_pure; rewrite Hl; [intros ? [= <-]|done]. do 3 awp_step. split_and!; [done| |done].
    rewrite <- Hmode. by destruct t. }
  unfold turn. unfold awp in H. destruct (ensure_current w (t, fresh_session db)) as [r [t' s']]. cbn in H. by destruct H as (-> & -> & ->).
Qed.

Lemma own_made_settings w db cn sans target issuer cert bundle key row capped db' :
  own_made w db cn sans target issuer cert bundle key row capped db' → settings db' = settings db.
Proof. by destruct 1. Qed.
Lemma in_datetime_before t u : in_datetime t → in_datetime u → ∀ v, t ≤ v ≤ u → in_datetime v.
Proof. unfold in_datetime. lia. Qed.

(** Who issued a new certificate, as the next call will see it. *)
Lemma own_made_reads w db cn sans target issuer cert bundle key row capped db' :
  own_made w db cn sans target issuer cert bundle key row capped db' →
  (∀ r, issuer = Some r → cas db !! ca_id r = Some r) →
  (∀ i r ic, cas db !! i = Some r → load_cert (ca_cert r) = Ok ic → name_py_eq (cert_subject ic) [[cn_attribute cn]] = false) →
  (issuer = None → target = self_signed) → canonical_names cn sans = true →
  (if name_py_eq (X509Lib.issuer (tbs cert)) (cert_subject cert) then self_signed else ca_issued) = target ∧
  ∀ r, issuer = Some r → target = ca_issued → ∃ i, load_cert (ca_cert r) = Ok i ∧ verify_directly_issued_by cert i = Ok ().
Proof.
  intros Hmade Hrow Hother Hself Hcanon. pose proof (own_made_says _ _ _ _ _ _ _ _ _ _ _ _ Hmade) as Hsays.
  inversion Hmade as [i' c' k' Hss|row' crow' cert' ik' ik key' capped' chain crl aia Hby _ Hiss _]; subst.
  - destruct (self_signed_names _ _ _ _ _ _ _ _ _ Hss) as [_ ->]. rewrite name_py_eq_refl. by split.
  - destruct (issue_certificate_says _ _ _ _ _ _ _ _ _ _ _ _ _ _ _ Hiss (issued_key _ _ _ _ _ _ _ Hby)) as (_ & Hver & _).
    destruct (issued_ca _ _ _ _ _ _ _ Hby) as (ca & Hca & _ & Hlic). rewrite (issued_choice _ _ _ _ _ _ _ Hby _ eq_refl) in Hca.
    assert (ca = row') as -> by (rewrite (Hrow _ eq_refl) in Hca; congruence).
    apply issue_certificate_leaf in Hiss as (_ & _ & cn' & res & Hleaf). split; [|intros r [= <-] _; by eexists].
    unfold canonical_names in Hcanon. apply andb_true_iff in Hcanon as [[Hs%bool_decide_eq_true _]%andb_true_iff _].
    by rewrite (leaf_issuer _ _ _ _ _ _ _ Hleaf), (says_subject _ _ _ Hsays), Hs, (Hother _ _ _ Hca Hlic).
Qed.

(** C31: the loop comes to rest.  After a call that made a certificate for
    names that read back as they were asked for - an IPv6 literal that is not
    in canonical form does not - and that no CA is called by, every later call
    for the same names, as long as nothing else touches the database or the
    files, does nothing at all until the last 30 days: no file, no row, no
    event, and the binding to the issuer is still the same. *)
Theorem renewal_settles w t db t' db' cn sans : hierarchy_ok db → (∀ i, is_Some (cas db !! i) → 0 ≤ i < 2 ^ 63) → 0 ≤ d_serial (draw w) →
  wanted_names (host_name w) db = Ok (cn, sans) → canonical_names cn sans = true →
  (∀ i r ic, cas db !! i = Some r → load_cert (ca_cert r) = Ok ic → name_py_eq (cert_subject ic) [[cn_attribute cn]] = false) →
  turn w t db = (Ok true, (t', db')) →
  ∃ c', load_current (files t') = Ok (Some c') ∧
    ∀ w', host_name w' = host_name w → in_datetime (turn_now w') → turn_now w' < mat_not_after c' - RENEW_BEFORE →
      turn w' t' db' = (Ok false, (t', db')).
Proof.
  intros Hh Hids Hser Hnames Hcanon Hother Hturn.
  refine (turn_awp w t db (λ r t' db', r = Ok true → ∃ c', load_current (files t') = Ok (Some c') ∧ ∀ w', host_name w' = host_name w →
    in_datetime (turn_now w') → turn_now w' < mat_not_after c' - RENEW_BEFORE → turn w' t' db' = (Ok false, (t', db'))) _ _ _ Hturn _ eq_refl).
  clear t' db' Hturn. apply awp_ensure; [done|done|done|done|].
  intros current t1 issuer db1 cn' sans' ic [H1 H2 H3 H4 H5 H6] target _.
  assert (cn' = cn ∧ sans' = sans) as [-> ->] by (rewrite H3 in Hnames; by injection Hnames).
  destruct (resolves_hierarchy _ _ _ H4 Hh) as (Hh1 & Hcas & _). pose proof (resolved_row _ _ _ H4) as Hrow.
  apply awp_replace; [done|done| |..]; try done. { intros row Hi. rewrite Hcas. by apply Hrow. }
  intros cert bundle key crow capped db2 t2 db3 Hmade Hrep _.
  pose proof (own_made_says _ _ _ _ _ _ _ _ _ _ _ _ Hmade) as Hsays.
  destruct (canonical_says _ _ _ Hsays Hcanon) as (Hcn & l & Hl & Hsans).
  destruct (own_made_current w (key_nonce w) _ _ _ _ _ _ _ _ _ _ _ Hmade) as (l' & Hl' & Hload).
  assert (l' = l) as -> by congruence. rewrite (replaced_files _ _ _ _ _ _ _ _ Hrep). eexists. split; [exact Hload|]. cbn [mat_not_after].
  assert (Hself : issuer = None → target = self_signed) by (intros Hi; destruct target eqn:Ht; [done|by destruct H5]).
  destruct (own_made_reads _ _ _ _ _ _ _ _ _ _ _ _ Hmade) as [Hmode Hver].
  { intros row Hi. rewrite Hcas. apply (Hrow row Hi). } { by rewrite Hcas. } { exact Hself. } { exact Hcanon. }
  destruct (replaced_log _ _ _ _ _ _ _ _ Hrep) as (entry & _ & _ & Hdb).
  destruct (own_made_frame _ _ _ _ _ _ _ _ _ _ _ _ Hmade) as [_ Hcas2]. pose proof (own_made_settings _ _ _ _ _ _ _ _ _ _ _ _ Hmade) as Hset2.
  assert (Hset : settings db3 = settings db1) by (by rewrite Hdb, <- Hset2). assert (Hcas3 : cas db3 = cas db) by (by rewrite Hdb, <- Hcas, <- Hcas2).
  intros w' Hhost Hnow Hdue. cbn [durable fresh_session].
  eapply (ensure_quiet w' t2 db3 _ issuer cn sans); [by rewrite (replaced_files _ _ _ _ _ _ _ _ Hrep)| | | |..]; cbn [mat_mode mat_cn mat_sans mat_not_after mat_cert];
    [by rewrite Hmode; apply Hrep| |by eapply tls_issuer_kept|..]; try done.
  - rewrite Hhost, <- H3. unfold wanted_names, get_setting. rewrite Hset. destruct (resolved_db _ _ _ H4) as [->|(_ & r & _ & _ & ->)]; [done|].
    cbn [settings on_settings]. by rewrite lookup_insert_ne.
  - rewrite Hmode. destruct issuer as [row|]; [done|]. by rewrite Hself.
  - intros Hm. destruct issuer as [row|]; [done|]. rewrite Hmode, Hself in Hm by done. done.
  - intros row Hi. apply Hver; [done|]. unfold target. by rewrite Hi.
  - eapply in_datetime_before; [exact Hnow|apply (says_dates _ _ _ Hsays)|]. assert (0 ≤ RENEW_BEFORE) by by_decide. lia.
Qed.
End theorems.
(** * Examples *)
Module TlsExamples.
#[local] Existing Instance Toy.lib.
#[local] Existing Instance toy_secrets.
#[local] Existing Instance toy_crypto.
Import Toy CaExamples CrlExamples.
#[refine, local] Instance toy_ssl : SSLLib := {|
  load_cert_chain := λ old l k,
    match load_bundle l, load_plain_key k with
    | Ok c, Ok key => if decide (public_key key = cert_key c) then (Ok (), Some (l, k)) else (Raise (OSError "key values mismatch"), old)
    | _, _ => (Raise (OSError "PEM lib"), old)
    end |}.
Proof. intros old l k new. repeat case_match; try done. by intros [= <-]. Defined.

Definition started : Manager := mkManager (mkFiles None None) None None (Some None).
Definition at_ (host : string) (k now : Z) : Turn := mkTurn host now (mkDraw now (60 + k) (160 + k) (1060 + k)) now now now k true true.
Definition first_call : Outcome bool * (Manager * DB) := turn (at_ "cabin" 0 t2026) started ca_made.
Definition held : Manager := fst (snd first_call).
Definition held_db : DB := snd (snd first_call).
#[local] Strategy 1000 [root_made ca_made first_call held held_db turn].
Lemma ca_made_inventory : inventory_ok ca_made.
Proof.
  refine (proj1 (any_step_ok root_made ca_made _ (or_introl (or_introl _)))).
  2: { exists (inl (op_create_intermediate 1 "CA" "ecdsa-p256" 10 None (draw 1))). symmetry. exact (request_drop _ _). }
  refine (proj1 (any_step_ok empty_db root_made empty_inventory (or_introl (or_introl _)))).
  exists (inl (op_create_root "Root" "ecdsa-p256" 20 2 (draw 0))). symmetry. exact (request_drop _ _).
Qed.
Definition mode_and_names (t : Manager) : option (TlsMode * string * list string) :=
  match load_current (files t) with Ok (Some c) => Some (mat_mode c, mat_cn c, mat_sans c) | _ => None end.

(** The first call of a process with a CA: a certificate of the CA's, live at
    once, for the host's own names. *)
Lemma own_certificate_exact_witness :
  fst first_call = Ok true ∧ mode_and_names held = Some (ca_issued, "cabin", ["DNS:cabin"; "DNS:localhost"; "IP:127.0.0.1"; "IP:::1"]) ∧
  ∃ current issuer db1 cn sans cert bundle key row capped db2,
    own_made (at_ "cabin" 0 t2026) db1 cn sans (target_mode current issuer) issuer cert bundle key row capped db2.
Proof.
  assert (H : fst first_call = Ok true) by (vm_compute; reflexivity). split; [exact H|]. split; [vm_compute; reflexivity|].
  assert (Hs : 0 ≤ d_serial (Tls.draw (at_ "cabin" 0 t2026))) by (vm_compute; discriminate).
  assert (Hr : turn (at_ "cabin" 0 t2026) started ca_made = (fst first_call, (held, held_db)))
    by exact (eq_trans (surjective_pairing _) (f_equal (pair _) (surjective_pairing _))).
  pose proof (own_certificate_exact (X:=lib) (SS:=toy_secrets) (at_ "cabin" 0 t2026) started ca_made _ _ _ (inv_hierarchy _ ca_made_inventory) Hs Hr) as Hx.
  rewrite H in Hx.
  destruct Hx as (current & issuer & db1 & cn & sans & cert & bundle & key & row & capped & db2 & _ & _ & _ & _ & Hm & _).
  exists current, issuer, db1, cn, sans, cert, bundle, key, row, capped, db2. exact Hm.
Defined.
(** The binding is broken, and the next call comes in the last days. *)
Definition unbound : DB := after (set_setting TLS_ISSUER_ID "9") held_db.
Definition later_call : Outcome bool * (Manager * DB) := turn (at_ "cabin" 1 (t2026 + days 89)) held unbound.
Definition read_back : Material := match load_current (files held) with Ok (Some c) => c | _ => mkMaterial no_cert (PlainBytes "") self_signed "" [] 0 end.
#[local] Strategy 1000 [unbound later_call read_back].
Lemma held_read : load_current (files held) = Ok (Some read_back).
Proof.
  assert (H : match load_current (files held) with Ok (Some _) => true | _ => false end = true) by (vm_compute; reflexivity).
  unfold read_back. destruct (load_current (files held)) as [[c|]|e]; [reflexivity|discriminate H..].
Qed.
Lemma held_hierarchy : hierarchy_ok held_db.
Proof. refine (turn_hierarchy (at_ "cabin" 0 t2026) started ca_made (inv_hierarchy _ ca_made_inventory) _). vm_compute. discriminate. Qed.
Lemma set_setting_cas k v (db : DB) : cas (after (set_setting k v) db) = cas db.
Proof. reflexivity. Qed.
Lemma never_downgraded_witness :
  mat_mode read_back = ca_issued ∧ fst later_call = Ok false ∧
  (files (fst (snd later_call)) = files held ∨ ∃ row, crt_source row = system).
Proof.
  assert (Hm : mat_mode read_back = ca_issued) by (vm_compute; reflexivity). split; [exact Hm|]. split; [vm_compute; reflexivity|].
  assert (Hh : hierarchy_ok unbound) by exact (hierarchy_same held_db unbound (set_setting_cas TLS_ISSUER_ID "9" held_db) held_hierarchy).
  assert (Hs : 0 ≤ d_serial (Tls.draw (at_ "cabin" 1 (t2026 + days 89)))) by (vm_compute; discriminate).
  assert (Hr : turn (at_ "cabin" 1 (t2026 + days 89)) held unbound = (fst later_call, (fst (snd later_call), snd (snd later_call))))
    by exact (eq_trans (surjective_pairing _) (f_equal (pair _) (surjective_pairing _))).
  destruct (never_downgraded (X:=lib) (SS:=toy_secrets) _ _ _ _ _ _ read_back Hh Hs held_read Hm Hr) as [Hf|(row & _ & _ & _ & _ & Hsys & _)];
    [left; exact Hf|right; exists row; exact Hsys].
Defined.
(** Due after 60 days, with an issuer that lasts. *)
Definition renewal : Outcome bool * (Manager * DB) := turn (at_ "cabin" 2 (t2026 + days 61)) held held_db.
Definition the_issuer : CARow := match cas held_db !! 2 with Some r => r | None => mkCA 0 Root "" None None Active (CertText no_cert) None end.
Definition the_issuer_cert : SignedCert := got no_cert (load_cert (ca_cert the_issuer)).
Definition the_sans : list string := ["DNS:cabin"; "DNS:localhost"; "IP:127.0.0.1"; "IP:::1"].
#[local] Strategy 1000 [renewal the_issuer the_issuer_cert].
Lemma ok_some_inj {A} (a b : A) : Ok (Some a) = Ok (Some b) → a = b.
Proof. by intros [= ->]. Qed.
Lemma forallb_rows {A} (p : Z * A → bool) (m : gmap Z A) : forallb p (map_to_list m) = true → ∀ i r, m !! i = Some r → p (i, r) = true.
Proof. rewrite forallb_forall. intros H i r Hr. apply H, list_elem_of_In. by apply elem_of_map_to_list. Qed.
Lemma ca_made_ids i : is_Some (cas ca_made !! i) → 0 ≤ i < 2 ^ 63.
Proof.
  intros [r Hr]. assert (H : forallb (λ q : Z * CARow, (0 <=? fst q) && (fst q <? 2 ^ 63)) (map_to_list (cas ca_made)) = true)
    by (vm_compute; reflexivity). pose proof (forallb_rows _ _ H i r Hr) as Hp. cbn [fst] in Hp. lia.
Qed.
Lemma the_issuer_resolved : fst (resolve_tls_issuer (fresh_session held_db)) = Ok (Some the_issuer) ∧ load_cert (ca_cert the_issuer) = Ok the_issuer_cert.
Proof.
  assert (H : match fst (resolve_tls_issuer (fresh_session held_db)) with Ok (Some r) => bool_decide (ca_id r = 2) | _ => false end = true)
    by (vm_compute; reflexivity).
  rewrite resolve_eq in *. cbn [fst] in *.
  pose proof (tls_issuer_resolves (X:=lib) (SS:=toy_secrets) held_db held_hierarchy) as Hr.
  destruct (fst (tls_issuer_of held_db)) as [r|]; [|discriminate H]. apply bool_decide_eq_true in H.
  destruct (resolved_row _ _ _ Hr r eq_refl) as [Hrow _]. rewrite H in Hrow.
  assert (Hi : the_issuer = r) by (unfold the_issuer; rewrite Hrow; reflexivity). rewrite Hi. split; [reflexivity|].
  assert (Hl : match load_cert (ca_cert the_issuer) with Ok _ => true | Raise _ => false end = true) by (vm_compute; reflexivity).
  unfold the_issuer_cert. rewrite Hi in *. destruct (load_cert (ca_cert r)) as [c|e]; [reflexivity|discriminate Hl].
Qed.
Lemma renewal_gains_witness :
  fst renewal = Ok true ∧ fst (turn (at_ "cabin" 3 (t2026 + days 59)) held held_db) = Ok false ∧
  ∃ c', load_current (files (fst (snd renewal))) = Ok (Some c').
Proof.
  assert (H : fst renewal = Ok true) by (vm_compute; reflexivity). split; [exact H|]. split; [vm_compute; reflexivity|].
  assert (Hs : 0 ≤ d_serial (Tls.draw (at_ "cabin" 2 (t2026 + days 61)))) by (vm_compute; discriminate).
  assert (Hr : turn (at_ "cabin" 2 (t2026 + days 61)) held held_db = (fst renewal, (fst (snd renewal), snd (snd renewal))))
    by exact (eq_trans (surjective_pairing _) (f_equal (pair _) (surjective_pairing _))).
  rewrite H in Hr.
  destruct (renewal_gains (X:=lib) (SS:=toy_secrets) _ _ _ _ _ read_back the_issuer the_issuer_cert "cabin" the_sans
    held_hierarchy Hs (Z.le_refl _) held_read ltac:(vm_compute; reflexivity) (proj1 the_issuer_resolved) (proj2 the_issuer_resolved)
    ltac:(vm_compute; reflexivity) ltac:(vm_compute; reflexivity) ltac:(vm_compute; reflexivity) Hr) as (_ & c' & Hc & _).
  exists c'. exact Hc.
Defined.
(** An hour later nothing happens, and nothing would for 60 days. *)
Lemma renewal_settles_witness :
  canonical_names "cabin" the_sans = true ∧ turn (at_ "cabin" 4 (t2026 + hours 1)) held held_db = (Ok false, (held, held_db)).
Proof.
  assert (Hc : canonical_names "cabin" the_sans = true) by (vm_compute; reflexivity). split; [exact Hc|].
  assert (H : fst first_call = Ok true) by (vm_compute; reflexivity).
  assert (Hs : 0 ≤ d_serial (Tls.draw (at_ "cabin" 0 t2026))) by (vm_compute; discriminate).
  assert (Hr : turn (at_ "cabin" 0 t2026) started ca_made = (fst first_call, (held, held_db)))
    by exact (eq_trans (surjective_pairing _) (f_equal (pair _) (surjective_pairing _))).
  rewrite H in Hr.
  assert (Hother : ∀ i r ic, cas ca_made !! i = Some r → load_cert (ca_cert r) = Ok ic →
    name_py_eq (cert_subject ic) [[cn_attribute "cabin"]] = false).
  { intros i r ic Hi Hic. assert (Hall : forallb (λ q : Z * CARow, match load_cert (ca_cert (snd q)) with
      | Ok ic => negb (name_py_eq (cert_subject ic) [[cn_attribute "cabin"]]) | Raise _ => true end) (map_to_list (cas ca_made)) = true)
      by (vm_compute; reflexivity).
    pose proof (forallb_rows _ _ Hall i r Hi) as Hp. cbn [snd] in Hp. rewrite Hic in Hp. by apply negb_true_iff in Hp. }
  destruct (renewal_settles (X:=lib) (SS:=toy_secrets) _ _ _ _ _ "cabin" the_sans (inv_hierarchy _ ca_made_inventory) ca_made_ids Hs
    ltac:(vm_compute; reflexivity) Hc Hother Hr) as (c' & Hload & Hquiet).
  pose proof (ok_some_inj _ _ (eq_trans (eq_sym Hload) held_read)) as He. rewrite He in Hquiet.
  apply Hquiet; [reflexivity|by_decide|vm_compute; reflexivity].
Defined.
(** The finding cases.  The host of the base URL is an IPv6 literal that is
    not written the short way; the certificate carries it the short way, so the
    names never match and every call makes another certificate. *)
Definition by_address : DB := after (set_setting BASE_URL "https://[2001:db8:0::1]") ca_made.
Definition calls (host : string) (db : DB) : list (Outcome bool) * nat :=
  let '(r1, (t1, db1)) := turn (at_ host 0 t2026) started db in
  let '(r2, (t2, db2)) := turn (at_ host 1 (t2026 + hours 1)) t1 db1 in
  let '(r3, (_, db3)) := turn (at_ host 2 (t2026 + hours 2)) t2 db2 in
  ([r1; r2; r3], size (certs db3)).
Example reissued_every_hour : calls "cabin" by_address = ([Ok true; Ok true; Ok true], 3%nat) ∧
  calls "cabin" ca_made = ([Ok true; Ok false; Ok false], 1%nat) ∧ canonical_names "2001:db8:0::1" ["IP:2001:db8:0::1"] = false.
Proof. split_and!; vm_compute; reflexivity. Qed.
(** A host called like its issuer: the certificate reads back as self-signed. *)
Example named_like_the_issuer : calls "CA" ca_made = ([Ok true; Ok true; Ok true], 3%nat).
Proof. vm_compute. reflexivity. Qed.
(** A key file that is no text raises out of [load_current]; a damaged text
    would be passed over. *)
Example damaged_key_file : raised (load_current (mkFiles (crt (files held)) (Some NotUtf8))) = Some (ValueError "'utf-8' codec can't decode byte").
Proof. vm_compute. reflexivity. Qed.
(** A failure is reported once: the second call with the same failure adds no
    event; and a crash between the two writes is repaired by the next call. *)
Definition failing (host : string) : list (Outcome bool) * nat :=
  let '(r1, (t1, db1)) := turn (at_ host 0 t2026) started ca_made in
  let '(r2, (_, db2)) := turn (at_ host 1 (t2026 + hours 1)) t1 db1 in ([r1; r2], size (audit_events db2)).
Example failure_reported_once : failing "not a name" = ([Ok false; Ok false], 1%nat).
Proof. vm_compute. reflexivity. Qed.
Definition crashed : Outcome bool * (Manager * DB) :=
  turn (mkTurn "cabin" (t2026 + days 61) (mkDraw (t2026 + days 61) 63 163 1063) (t2026 + days 61) (t2026 + days 61) (t2026 + days 61) 3 true false) held held_db.
Example repaired_after_a_crash :
  match load_current (files (fst (snd crashed))) with Ok None => true | _ => false end = true ∧
  (let '(r, (t, _)) := turn (at_ "cabin" 4 (t2026 + days 61 + hours 1)) (fst (snd crashed)) (snd (snd crashed)) in (r, mode_and_names t)) =
    (Ok true, Some (ca_issued, "cabin", the_sans)).
Proof. split; vm_compute; reflexivity. Qed.
End TlsExamples.
