(* ===== verification/AcmeServer.v ===== *)
(** * The ACME server: a request in, a response out

    [acme/http.py], [acme/api.py] and what the framework does between them:
    the gate every path below [/acme] passes, the content type and length of a
    POST, the route, the problem document of a refusal, and the middleware that
    adds the directory link and the fresh nonce.  Matching a path to its route
    is the framework's, so the endpoint is an argument; the request keeps the
    path, of which the gate reads the issuer.  The request runs in one database
    session and the nonce of its answer in another. *)

From S2P Require Import Prelude PyStr Json PyTime IPAddr X509Lib Leaf Store Settings CaService Grants Identity Certs Crl AuditLog Nonces AcmeNames AcmeService Base64 Csr Jws Eab Finalize AcmeApi WebDeps.
#[local] Open Scope Z_scope.

Definition ACME_ENABLED : string := "acme_enabled".
Definition JOSE_CONTENT_TYPE : string := "application/jose+json".
Definition CONTENT_TYPE : string := "application/problem+json".
Definition JSON_CONTENT_TYPE : string := "application/json".
Definition PEM_CHAIN_CONTENT_TYPE : string := "application/pem-certificate-chain".

(** [datetime.fromisoformat], of any text a client sends: the instant as its
    clock shows it and, for an aware one, the offset from UTC. *)
Class Moments := { read_moment : string → Outcome (Z * option Z) }.

(** ** Requests and responses *)
Inductive Method := GET | HEAD | POST | other_method.
#[export] Instance Method_eq_dec : EqDecision Method.
Proof. solve_decision. Defined.
(** The routes; ids are the texts of the path. *)
Inductive Endpoint :=
  | Directory (issuer : Z) | NewNonce | NewAccount (issuer : Z) | NewOrder | KeyChange | RevokeCert
  | AccountAt (id : string) | AccountOrders (id : string) | OrderAt (id : string) | FinalizeAt (id : string)
  | AuthzAt (id : string) | ChallengeAt (id : string) | CertAt (id : string) | CertAlternate (id anchor : string)
  | Elsewhere.
(** A header that is absent is the empty text, as the code reads it. *)
Record HttpRequest := mkRequest {
  method : Method; path : string; content_type : string; content_length : string; sent : string;
  forwarded : string; client : option string }.
Inductive Content `{X : X509Lib} := json_body (o : object) | pem_body (l : list Pem) | no_body.
Record Reply `{X : X509Lib} := mkReply {
  status : Z; media : option string; content : Content; headers : list (string * string);
  background : option string }.  (* the challenge a task validates once this is sent *)
Arguments json_body {X} _.
Arguments pem_body {X} _.
Arguments no_body {X}.
Arguments mkReply {X} _ _ _ _ _.
Definition json_reply `{X : X509Lib} (r : Response) : Reply :=
  mkReply (code r) (Some JSON_CONTENT_TYPE) (json_body (reply r))
    (match location r with Some l => [("Location", l)] | None => [] end) None.
Definition pem_reply `{X : X509Lib} (l : list Pem) (hs : list (string * string)) : Reply :=
  mkReply 200 (Some PEM_CHAIN_CONTENT_TYPE) (pem_body l) hs None.
Definition add_headers `{X : X509Lib} (hs : list (string * string)) (r : Reply) : Reply :=
  mkReply (status r) (media r) (content r) (headers r ++ hs) (background r).
(** What a request meets: the clock at its readings, its random draws, what
    other requests commit while it runs. *)
Record Env {X : X509Lib} {SS : SecretStore} := mkEnv {
  w_clock : Clock; w_done : Z; w_draw : Z; w_draws : nat → Z; w_cert : Draw; w_others : DB → DB;
  w_nonce : Z; w_nonce_at : Z }.
Arguments mkEnv {X SS} _ _ _ _ _ _ _ _.

Definition link (target rel : string) : string * string := ("Link", "<" +:+ target +:+ ">;rel=" +:+ quoted rel).
Definition lives_at (e : Endpoint) : string :=
  match e with
  | Directory n => directory_path n | NewNonce => NEW_NONCE_PATH | NewAccount n => new_account_path n
  | NewOrder => NEW_ORDER_PATH | KeyChange => KEY_CHANGE_PATH | RevokeCert => REVOKE_CERT_PATH
  | AccountAt i => ACCOUNT_PREFIX +:+ i | AccountOrders i => ACCOUNT_PREFIX +:+ i +:+ "/orders"
  | OrderAt i => ORDER_PREFIX +:+ i | FinalizeAt i => ORDER_PREFIX +:+ i +:+ "/finalize"
  | AuthzAt i => AUTHZ_PREFIX +:+ i | ChallengeAt i => CHALLENGE_PREFIX +:+ i
  | CertAt i => CERT_PREFIX +:+ i | CertAlternate i a => CERT_PREFIX +:+ i +:+ "/" +:+ a
  | Elsewhere => ""
  end.

Section server.
Context {X : X509Lib} {SS : SecretStore} {CR : Crypto} {J : Jose} {D : DerLib} {DC : DerCerts} {Mo : Moments}.

(** ** new-order *)
Definition parse_timestamp (raw : json) (field : string) : Outcome (option string) :=
  match raw with
  | JNull => mret None
  | JStr s =>
      let unusable := acme_error malformed (str_take 200 (field +:+ " is not a usable RFC 3339 timestamp: " +:+ py_repr s)) in
      match read_moment s with
      | Ok (moment, Some offset) =>
          _ ← raise_if (negb (bool_decide (in_datetime (moment - offset)))) unusable;
          mret (Some (iso (moment - offset)))
      | Ok (_, None) => mthrow (acme_error malformed (field +:+ " must name a time zone"))
      | Raise e => mthrow (if is_value_error e then unusable else e)
      end
  | _ => mthrow (acme_error malformed (field +:+ " must be an RFC 3339 timestamp"))
  end.
Definition order_event (ids : list Identifier) (order : OrderRow) (from : option string) : Event :=
  mkEvent ("created ACME order for " +:+ join ", " (map value ids)) (Some ("acme_order", Some (ord_id order)))
    (Some {["identifiers" := JList (map (λ i, JStr (type i +:+ ":" +:+ value i)) ids)]}) from.
Definition new_order (body : string) (draws : nat → Z) (t : Clock) (done : Z) (from : option string) : Tx DB Response :=
  v ← verified body NEW_ORDER_PATH mode_kid (c_now t);
  account ← lift (account_of v);
  members ← lift (of_option (payload v) (acme_error malformed "new-order needs a payload"));
  ids ← lift (parse_identifiers (member "identifiers" members));
  not_before ← lift (parse_timestamp (member "notBefore" members) "notBefore");
  not_after ← lift (parse_timestamp (member "notAfter" members) "notAfter");
  issuer ← catch (account_issuer account) is_unknown_issuer (λ e, mthrow (acme_error server_internal
    (str_take 400 ("this account's issuer no longer exists on this cabin instance: " +:+ exc_text e))));
  _ ← raise_if (negb (bool_decide (ca_status issuer = Active))) (acme_error server_internal
    ("this account's issuer (CA certificate " +:+ id_text (ca_id issuer) +:+ ") has been retired and can no longer sign new certificates"));
  order ← create_order account ids not_before not_after draws (c_made t);
  _ ← record (acme_actor (jwk_thumbprint account)) a_acme_order_created (order_event ids order from) (c_logged t);
  body ← query (order_json order done);
  body ← lift body;
  where_ ← query (url (ORDER_PREFIX +:+ ord_id order));
  where_ ← lift where_;
  mret (mkResponse 201 body (Some where_)).

(** ** The chain *)
Definition alternate_url (cert_id : string) (anchor : option Z) (db : DB) : Outcome string :=
  url (CERT_PREFIX +:+ cert_id +:+ "/" +:+ match anchor with Some n => str_of_Z n | None => "None" end) db.
Definition certificate_route (cert_id body : string) (now : Z) : Tx DB Reply :=
  v ← verified body (CERT_PREFIX +:+ cert_id) mode_kid now;
  account ← lift (account_of v);
  found ← query (certificate_resource cert_id account (payload v) now);
  '(pem, anchors) ← lift found;
  links ← query (λ db, map_each (λ a, u ← alternate_url cert_id a db; mret (link u "alternate")) anchors);
  links ← lift links;
  mret (pem_reply pem links).
Definition alternate_route (cert_id anchor_id body : string) (now : Z) : Tx DB Reply :=
  v ← verified body (CERT_PREFIX +:+ cert_id +:+ "/" +:+ anchor_id) mode_kid now;
  account ← lift (account_of v);
  found ← query (certificate_alternate cert_id anchor_id account (payload v) now);
  pem ← lift found;
  mret (pem_reply pem []).

(** ** Before the route *)
Definition require_acme_enabled (path : string) (db : DB) : Outcome (string * option string) :=
  let base := default "" (get_setting BASE_URL db) in
  _ ← raise_if (negb (get_flag ACME_ENABLED false db) || bool_decide (base = "")) (HTTPException 404 "not found" []);
  issuer ← issuer_in_path path;
  mret (base, fmap (M:=option) directory_path issuer).
Definition require_jose_content_type (req : HttpRequest) : Outcome unit :=
  if negb (bool_decide (method req = POST)) then mret () else
  let media_type := lower (strip (default "" (head (split ";" (content_type req))))) in
  raise_if (negb (bool_decide (media_type = JOSE_CONTENT_TYPE)))
    (acme_error_status malformed ("an ACME POST must have Content-Type: " +:+ JOSE_CONTENT_TYPE) 415).
Definition acme_body (req : HttpRequest) : Outcome string :=
  declared ← int_of_digits (content_length req);
  _ ← raise_if (match declared with Some n => MAX_BODY_BYTES <? n | None => false end)
        (acme_error malformed "the request body is too large");
  mret (sent req).

(** ** The routes *)
Definition method_not_allowed : Exc := acme_error_headers malformed
  "this ACME resource is read with a POST-as-GET request, not a GET" 405 [("Allow", "POST")].
Definition nonce_reply (m : Method) : Reply :=
  mkReply (if decide (m = HEAD) then 200 else 204) None no_body [("Cache-Control", "no-store")] None.
Definition in_json (m : Tx DB Response) : Tx DB Reply := r ← m; mret (json_reply r).
Definition post_only (e : Endpoint) : bool :=
  match e with Directory _ | NewNonce | CertAlternate _ _ | Elsewhere => false | _ => true end.
(** A POST, from its body on. *)
Definition post (e : Endpoint) (body : string) (w : Env) (from : option string) : Tx DB Reply :=
  let t := w_clock w in
  match e with
  | Directory _ | NewNonce | Elsewhere => mthrow no_resource
  | NewAccount n => in_json (new_account_route (w_others w) n body (w_draw w) t from)
  | NewOrder => in_json (new_order body (w_draws w) t (w_done w) from)
  | KeyChange => in_json (key_change body (c_now t))
  | RevokeCert => _ ← revoke_route body (c_now t) from (c_logged t); mret (mkReply 200 None no_body [] None)
  | AccountAt i => in_json (account_resource i body t from)
  | AccountOrders i => in_json (account_orders i body (c_now t))
  | OrderAt i => in_json (order_resource i body (c_now t))
  | FinalizeAt i =>
      '(r, retry) ← finalize_route (w_others w) i body (c_now t) (w_cert w) (c_made t) from (c_logged t);
      mret (add_headers (match retry with Some s => [("Retry-After", str_of_Z s)] | None => [] end) (json_reply r))
  | AuthzAt i => in_json (authz_resource i body (c_now t))
  | ChallengeAt i =>
      '(r, up, scheduled) ← challenge_resource i body (c_now t);
      let r := add_headers [link up "up"] (json_reply r) in
      mret (mkReply (status r) (media r) (content r) (headers r) (if (scheduled : bool) then Some i else None))
  | CertAt i => certificate_route i body (c_now t)
  | CertAlternate i a => alternate_route i a body (c_now t)
  end.
(** Any method other than a route's own falls through to the catch-all. *)
Definition route (e : Endpoint) (req : HttpRequest) (w : Env) : Tx DB Reply :=
  _ ← lift (require_jose_content_type req);
  match method req, e with
  | GET, Directory n => in_json (directory n)
  | GET, NewNonce | HEAD, NewNonce => mret (nonce_reply (method req))
  | GET, _ => if post_only e then mthrow method_not_allowed else mthrow no_resource
  | POST, (Directory _ | NewNonce | Elsewhere) => mthrow no_resource
  | POST, _ =>
      body ← lift (acme_body req);
      from ← query (client_ip (forwarded req) (client req));
      post e body w from
  | _, _ => mthrow no_resource
  end.

(** ** After it *)
(** The exception handlers; what none of them takes is a 500 of the server's. *)
Definition problem (kind detail : string) (status : Z) (extra : object) : object :=
  [("type", JStr (NAMESPACE +:+ kind)); ("detail", JStr detail); ("status", JInt status)] ++ extra.
Definition answer (r : Outcome Reply) : Outcome Reply :=
  match r with
  | Raise (AcmeError kind detail st extra hs) =>
      Ok (mkReply st (Some CONTENT_TYPE) (json_body (problem kind detail st extra)) hs None)
  | Raise (HTTPException st detail hs) => Ok (mkReply st (Some JSON_CONTENT_TYPE) (json_body [("detail", JStr detail)]) hs None)
  | _ => r
  end.
Definition wants_nonce (e : Endpoint) (m : Method) : bool :=
  bool_decide (m = POST) || match e, m with NewNonce, (GET | HEAD) => true | _, _ => false end.
(** [acme_response_headers], for a request the gate let through. *)
Definition response_headers (e : Endpoint) (m : Method) (gate : string * option string) (r : Reply) (w : Env) (db : DB)
  : Outcome Reply * DB :=
  let r := match gate.2 with Some dir => add_headers [link (gate.1 +:+ dir) "index"] r | None => r end in
  if negb (wants_nonce e m) then (Ok r, db) else
  match request (Nonces.issue (w_nonce w) (w_nonce_at w)) db with
  | (Ok n, db') => (Ok (add_headers [("Replay-Nonce", n)] r), db')
  | (Raise x, db') => (Raise x, db')
  end.
Definition serve (e : Endpoint) (req : HttpRequest) (w : Env) (db : DB) : Outcome Reply * DB :=
  match require_acme_enabled (path req) db with
  | Raise x => (answer (Raise x), db)
  | Ok gate =>
      let '(r, db1) := request (route e req w) db in
      match answer r with
      | Ok r => response_headers e (method req) gate r w db1
      | Raise x => (Raise x, db1)
      end
  end.
End server.

(** ** What the server promises *)
Section theorems.
Context {X : X509Lib} {SS : SecretStore} {CR : Crypto} {J : Jose} {D : DerLib} {DC : DerCerts} {Mo : Moments}.

(** While ACME is switched off, or has no base URL, it is not there: every
    method on every path below its prefix is the same 404, which carries no
    header of the protocol, and nothing in the database changes. *)
Theorem acme_off_invisible e req w db :
  get_flag ACME_ENABLED false db = false ∨ default "" (get_setting BASE_URL db) = "" →
  serve e req w db = (Ok (mkReply 404 (Some JSON_CONTENT_TYPE) (json_body [("detail", JStr "not found")]) [] None), db).
Proof.
  intros Hoff. unfold serve, require_acme_enabled.
  assert (negb (get_flag ACME_ENABLED false db) || bool_decide (default "" (get_setting BASE_URL db) = "") = true) as ->; [|done].
  destruct Hoff as [->| ->]; [done|]. by rewrite bool_decide_eq_true_2, orb_true_r.
Qed.

(** *** Who may change anything *)
(** Two databases that agree on everything but the nonces. *)
Definition same_but_nonces (a b : DB) : Prop := on_nonces (λ _, ∅) a = on_nonces (λ _, ∅) b.
#[export] Instance same_but_nonces_equiv : Equivalence same_but_nonces.
Proof. split; unfold same_but_nonces; [by intros ?|by intros ???|intros a b c; apply eq_trans]. Qed.
Lemma same_on_nonces f db : same_but_nonces (on_nonces f db) db.
Proof. done. Qed.
Lemma same_orders a b : same_but_nonces a b → orders a = orders b.
Proof. intros H. exact (f_equal orders H). Qed.
(** How each route is asked to prove who sent it. *)
Definition proof_mode (e : Endpoint) (body : string) (mode : KeyMode) : Prop :=
  match e with NewAccount _ => mode = mode_jwk | RevokeCert => key_mode body = Ok mode | _ => mode = mode_kid end.
(** [body] was signed, over this endpoint's own URL and with a nonce of ours,
    by the key of a live account, or by the key it carries where that is asked. *)
Definition proven (e : Endpoint) (body : string) (db : DB) : Prop :=
  ∃ b mode j account key nonce, get_setting BASE_URL db = Some b ∧ proof_mode e body mode ∧
    authentic db body (b +:+ lives_at e) mode (b +:+ ACCOUNT_PREFIX) j account key nonce ∧ is_Some (nonces db !! nonce).

Lemma verified_or_same {B} body p mode now (f : VerifiedRequest → Tx DB B) db r db' :
  request (verified body p mode now ≫= f) db = (r, db') →
  (∃ b j account key nonce, get_setting BASE_URL db = Some b ∧
    authentic db body (b +:+ p) mode (b +:+ ACCOUNT_PREFIX) j account key nonce ∧ is_Some (nonces db !! nonce)) ∨
  same_but_nonces db' db.
Proof.
  intros [(b & v & j & nonce & Hb & Ha & Hn & _ & _)|(_ & [->|[nonce ->]])]%request_verified; [left|by right|by right].
  by exists b, j, (vr_account v), (vr_key v), nonce.
Qed.
Lemma verified_needs_base {B} body p mode now (f : VerifiedRequest → Tx DB B) db r db' :
  request (verified body p mode now ≫= f) db = (r, db') → get_setting BASE_URL db = Some "" → is_ok r = false ∧ db' = db.
Proof.
  unfold verified. rewrite !request_assoc, request_query, request_assoc, request_lift. intros H Hb.
  assert (url p db = Raise (acme_error server_internal "no base URL is configured")) as Hu by (unfold url, origin; by rewrite Hb).
  rewrite Hu in H. by injection H as <- <-.
Qed.
Lemma post_proven e body w from db r db' : request (post e body w from) db = (r, db') →
  proven e body db ∨ same_but_nonces db' db.
Proof.
  assert (Hgo : ∀ B mode now (f : VerifiedRequest → Tx DB B) r, proof_mode e body mode →
    request (verified body (lives_at e) mode now ≫= f) db = (r, db') → proven e body db ∨ same_but_nonces db' db).
  { intros B mode now f r0 Hm [(b & j & a & k & n & H)|?]%verified_or_same; [left|by right]. exists b, mode, j, a, k, n. naive_solver. }
  destruct e; cbn [post]; try (intros [= _ <-]; by right);
    try (unfold in_json, account_resource, account_orders, order_resource, finalize_route, authz_resource, challenge_resource,
      key_change, new_order, certificate_route, alternate_route; rewrite ?request_assoc; by apply Hgo).
  - unfold in_json, new_account_route. rewrite request_assoc, request_issuer.
    destruct (cas db !! issuer) as [i|]; [|intros [= _ <-]; by right].
    rewrite request_assoc, request_raise_if. destruct (negb _); [intros [= _ <-]; by right|]. rewrite request_assoc. by apply Hgo.
  - unfold revoke_route. rewrite request_assoc, request_lift.
    destruct (key_mode body) as [mode|x] eqn:Hk; [|intros [= _ <-]; by right]. rewrite request_assoc. by apply Hgo.
Qed.
(** A GET reads. *)
Lemma route_reads e req w db r db' : request (route e req w) db = (r, db') → method req ≠ POST → db' = db.
Proof.
  unfold route. rewrite request_lift. intros H Hm. destruct (require_jose_content_type req) as [[]|x]; [|by injection H as _ <-].
  destruct (method req) eqn:E; [|by destruct e; injection H as _ <-|done|by injection H as _ <-].
  destruct e; cbn [post_only] in H; try by injection H as _ <-.
  revert H. unfold in_json, directory. rewrite request_assoc, request_issuer.
  destruct (cas db !! issuer) as [i|]; [|by intros [= _ <-]]. rewrite request_assoc, request_raise_if.
  destruct (negb _); [by intros [= _ <-]|]. rewrite request_assoc, request_query, request_assoc, request_query, request_assoc, request_lift.
  by destruct (map_each _ _); intros [= _ <-].
Qed.
Lemma route_proven e req w db r db' : request (route e req w) db = (r, db') →
  (method req = POST ∧ require_jose_content_type req = Ok () ∧ proven e (sent req) db) ∨ same_but_nonces db' db.
Proof.
  intros H. destruct (decide (method req = POST)) as [Hm|Hm]; [|right; by rewrite (route_reads _ _ _ _ _ _ H Hm)].
  revert H. unfold route. rewrite request_lift. destruct (require_jose_content_type req) as [[]|x] eqn:Hc; [|intros [= _ <-]; by right].
  rewrite Hm. assert (Hgo : request (body ← lift (acme_body req); from ← query (client_ip (forwarded req) (client req)); post e body w from) db
    = (r, db') → (POST = POST ∧ Ok () = Ok () ∧ proven e (sent req) db) ∨ same_but_nonces db' db).
  { rewrite request_lift. destruct (acme_body req) as [body|x] eqn:Hb; [|intros [= _ <-]; by right]. rewrite request_query.
    intros [Hp|]%post_proven; [|by right]. left. split_and!; [done..|].
    unfold acme_body in Hb. inv_tx. exact Hp. }
  destruct e; try exact Hgo; intros [= _ <-]; by right.
Qed.
Lemma answer_headers e m gate r w db : let '(r', db') := response_headers e m gate r w db in same_but_nonces db' db.
Proof.
  unfold response_headers. destruct (negb _); [done|].
  pose proof (request_post (Nonces.issue (w_nonce w) (w_nonce_at w)) db (λ p, same_but_nonces p.2 db)) as H.
  destruct (request _ db) as [[n|x] db'] eqn:E; apply H; unfold Nonces.issue, purge, delete_nonces; wp_run; done.
Qed.

(** C11: nothing that reaches the ACME server moves anything but nonces unless
    it is a POST of the right content type whose body was signed, over the very
    URL this server publishes for that endpoint and with a nonce it had handed
    out, by the key of a registered live account - or, to register, by the key
    it carries, and to revoke, as its header says. *)
Theorem acme_changes_are_signed e req w db r db' : serve e req w db = (r, db') →
  same_but_nonces db' db ∨
  method req = POST ∧ lower (strip (default "" (head (split ";" (content_type req))))) = JOSE_CONTENT_TYPE ∧ proven e (sent req) db.
Proof.
  unfold serve. destruct (require_acme_enabled _ db) as [gate|x]; [|intros [= _ <-]; by left].
  destruct (request (route e req w) db) as [r1 db1] eqn:Hr. intros Hs.
  assert (Hsame : same_but_nonces db' db1).
  { destruct (answer r1) as [r2|x]; [|by injection Hs as _ <-].
    pose proof (answer_headers e (method req) gate r2 w db1) as H. by rewrite Hs in H. }
  destruct (route_proven _ _ _ _ _ _ Hr) as [(Hm & Hc & Hp)|Hdb]; [right|left; by rewrite Hsame].
  split_and!; [done| |done]. unfold require_jose_content_type in Hc. rewrite Hm in Hc. cbn [negb bool_decide] in Hc.
  rewrite bool_decide_eq_true_2 in Hc by done. cbn in Hc. apply raise_if_ok, negb_false_iff, bool_decide_eq_true in Hc. exact Hc.
Qed.

(** A POST the gate let through is answered with a nonce that is stored,
    whatever its answer is - a refusal, an error of a dependency, a success -
    so that the client can go on; its status and body stay what the route or
    the refusal made them, and its own headers come first.  Nothing but a POST
    and the nonce endpoint stores a nonce: any other request leaves the
    database as it was. *)
Theorem nonce_on_every_post e req w db gate r1 db1 r : require_acme_enabled (path req) db = Ok gate →
  request (route e req w) db = (r1, db1) → answer r1 = Ok r →
  if wants_nonce e (method req) then
    nonces db1 !! token_urlsafe (w_nonce w) = None →
    ∃ r' db', serve e req w db = (Ok r', db') ∧ status r' = status r ∧ content r' = content r ∧ media r' = media r ∧
      headers r' = headers r ++ match gate.2 with Some dir => [link (gate.1 +:+ dir) "index"] | None => [] end
                   ++ [("Replay-Nonce", token_urlsafe (w_nonce w))] ∧
      nonces db' !! token_urlsafe (w_nonce w) = Some (iso (w_nonce_at w)) ∧ same_but_nonces db' db1
  else db1 = db ∧ (serve e req w db).2 = db.
Proof.
  intros Hg Hr Ha. unfold serve. rewrite Hg, Hr, Ha.
  destruct (wants_nonce e (method req)) eqn:Hw.
  - intros Hfree. unfold response_headers. rewrite Hw. cbn [negb].
    set (r2 := match gate.2 with Some _ => _ | None => _ end).
    assert (Hr2 : status r2 = status r ∧ content r2 = content r ∧ media r2 = media r ∧ headers r2 = headers r ++
      match gate.2 with Some dir => [link (gate.1 +:+ dir) "index"] | None => [] end).
    { unfold r2. destruct gate.2; [done|]. by rewrite app_nil_r. }
    pose proof (request_post (Nonces.issue (w_nonce w) (w_nonce_at w)) db1 (λ p, p.1 = Ok (token_urlsafe (w_nonce w)) ∧
      nonces p.2 !! token_urlsafe (w_nonce w) = Some (iso (w_nonce_at w)) ∧ same_but_nonces p.2 db1)) as H.
    destruct (request _ db1) as [n db'] eqn:E. destruct H as (Hok & Hn & Hs).
    { unfold Nonces.issue, purge, delete_nonces. wp_run; guards; cbn in *.
      - exfalso. destruct H as [v Hv]. apply map_lookup_filter_Some in Hv as [Hv _]. by rewrite Hfree in Hv.
      - split_and!; [done|apply lookup_insert_eq|done]. }
    cbn in Hok, Hn. subst n. eexists _, db'. split; [reflexivity|]. destruct Hr2 as (H1 & H2 & H3 & H4). cbn [status content media headers add_headers].
    rewrite H4, <- app_assoc. by split_and!.
  - assert (method req ≠ POST) as Hm by (unfold wants_nonce in Hw; intros Hm; by rewrite Hm in Hw).
    rewrite (route_reads _ _ _ _ _ _ Hr Hm). unfold response_headers. by rewrite Hw.
Qed.
(** What the handlers turn into an answer: every refusal of the protocol. *)
Lemma refusal_answered kind detail st extra hs : answer (Raise (AcmeError kind detail st extra hs)) =
  Ok (mkReply st (Some CONTENT_TYPE) (json_body (problem kind detail st extra)) hs None).
Proof. done. Qed.

(** *** new-order *)
Lemma order_json_ok o now db b : get_setting BASE_URL db = Some b → b ≠ "" → ord_error o = None →
  ∃ body, order_json o now db = Ok body.
Proof.
  intros Hb Hne He. assert (Hu : ∀ p, url p db = Ok (b +:+ p)) by (intros p; apply url_ok; by exists b).
  unfold order_json. rewrite Hu, He. destruct (map_each_total (λ a, u ← url (AUTHZ_PREFIX +:+ authz_id a) db; mret (JStr u))
    (λ _ _, True) (authorizations_of o db)) as (us & -> & _); [intros a _; rewrite Hu; by eexists|]. cbn.
  destruct (certificate_id o); cbn; rewrite ?Hu; cbn; by eexists.
Qed.

(** C14: an order is placed by an account for names it may order.  A new-order
    request is answered with 201 exactly as the database tells: a live account
    signed it over this server's new-order URL; its payload's identifiers and
    times parse; the account's own issuer is there and active.  Then the
    order, one pending authorization per identifier and their challenges are
    stored together with one audit entry, the nonce is spent, and nothing else
    changes.  A refused request stores no part of an order. *)
Theorem new_order_exact body draws t finished from db r db' : accounts_ok db →
  request (new_order body draws t finished from) db = (r, db') →
  match r with
  | Ok x => ∃ b j account key nonce members ids not_before not_after issuer row,
      get_setting BASE_URL db = Some b ∧
      authentic db body (b +:+ NEW_ORDER_PATH) mode_kid (b +:+ ACCOUNT_PREFIX) j (Some account) key nonce ∧
      accounts db !! acc_id account = Some account ∧ acc_status account = acc_valid ∧
      payload_of_text (payload_b64 j) = Ok (Some members) ∧ parse_identifiers (member "identifiers" members) = Ok ids ∧
      parse_timestamp (member "notBefore" members) "notBefore" = Ok not_before ∧
      parse_timestamp (member "notAfter" members) "notAfter" = Ok not_after ∧
      cas db !! acc_issuer account = Some issuer ∧ ca_status issuer = Active ∧
      let o := pending_order (acc_id account) ids not_before not_after (draws 0%nat) (c_made t) in
      orders db !! ord_id o = None ∧ code x = 201 ∧ location x = Some (b +:+ ORDER_PREFIX +:+ ord_id o) ∧
      db' = on_audit (λ m, <[aud_id row := row]> m) (on_rows (order_rows (ord_id o) (c_made t) draws 1 ids)
              (on_orders (λ m, <[ord_id o := o]> m) (on_nonces (delete nonce) db))) ∧
      audit_events db !! aud_id row = None ∧ aud_action row = a_acme_order_created
  | Raise _ => same_but_nonces db' db
  end.
Proof.
  intros Hacc Hreq. unfold new_order in Hreq.
  destruct (decide (get_setting BASE_URL db = Some "")) as [Hno|Hbase].
  { destruct (verified_needs_base _ _ _ _ _ _ _ _ Hreq Hno) as [Hr ->]. by destruct r. }
  apply request_verified in Hreq as [(b & v & j & nonce & Hb & Ha & _ & Hpay & Hreq)|[Hr Hdb]].
  2: { destruct r; [done|]. by destruct Hdb as [->|[nonce ->]]. }
  set (d1 := on_nonces (delete nonce) db) in *. revert Hreq.
  assert (Hsame : ∀ e, (Raise e, d1) = (r, db') → match r with Ok _ => False | Raise _ => same_but_nonces db' db end) by by intros e [= <- <-].
  rewrite request_lift. unfold account_of. destruct (vr_account v) as [account|] eqn:Hv; cbn [of_option]; [|intros H%Hsame; by destruct r].
  destruct (account_of_kid _ _ _ _ _ _ _ _ Hacc Ha) as (Hrow & Hst & _).
  rewrite request_lift. destruct (payload v) as [members|] eqn:Hp; cbn [of_option]; [|intros H%Hsame; by destruct r].
  rewrite request_lift. destruct (parse_identifiers _) as [ids|e] eqn:Hids; [|intros H%Hsame; by destruct r].
  rewrite request_lift. destruct (parse_timestamp _ "notBefore") as [nb|e] eqn:Hnb; [|intros H%Hsame; by destruct r].
  rewrite request_lift. destruct (parse_timestamp _ "notAfter") as [na|e] eqn:Hna; [|intros H%Hsame; by destruct r].
  unfold account_issuer. rewrite request_issuer.
  destruct (cas d1 !! acc_issuer account) as [issuer|] eqn:Hi; [|intros H%Hsame; by destruct r].
  rewrite request_raise_if. case_bool_decide as Hact; cbn [negb]; [|intros H%Hsame; by destruct r].
  clear Hsame. intros Hreq. pattern r, db'. eapply request_wp; [exact Hreq|]. clear r db' Hreq. cbn beta.
  apply wp_bind. eapply wp_create_order; [|intros e w; done]. intros Hfree _.
  set (o := pending_order _ _ _ _ _ _) in *. set (d2 := on_rows _ _).
  assert (Hne : b ≠ "") by congruence. apply wp_bind, wp_record. intros row d3 Haud. cbn [work durable fresh_session] in *.
  assert (Hb3 : get_setting BASE_URL d3 = Some b) by exact Hb. cbn beta iota.
  destruct (order_json_ok o finished d3 b Hb3 Hne eq_refl) as [reply Hreply].
  assert (Hu : url (ORDER_PREFIX +:+ ord_id o) d3 = Ok (b +:+ ORDER_PREFIX +:+ ord_id o)) by (apply url_ok; by exists b).
  wp_run; try congruence. cbn [durable].
  assert (a0 = b +:+ ORDER_PREFIX +:+ ord_id o) as -> by congruence.
  exists b, j, account, (vr_key v), nonce, members, ids, nb, na, issuer, row. split_and!; done || congruence.
Qed.
End theorems.

(** ** A client places an order *)
Module AcmeServerExamples.
#[local] Existing Instance Toy.lib.
#[local] Existing Instance toy_secrets.
#[local] Existing Instance toy_crypto.
#[local] Existing Instance CsrExamples.toy_der.
Import Toy CaExamples AcmeExamples JwsExamples AcmeApiExamples.
#[local] Strategy 1000 [one_root two_cas two_roots crossed acme_db asking signed_up after request].
#[local] Instance no_certs : DerCerts := {| load_der_cert := λ _, Raise (ValueError "malformed") |}.
#[local] Instance one_moment : Moments :=
  {| read_moment := λ s, if decide (s = "2026-01-01T02:00:00+02:00") then Ok (t2026 + hours 2, Some (hours 2))
                         else if decide (s = "9999-12-31T23:59:59-14:00") then Ok (max_ordinal * day - seconds 1, Some (- hours 14))
                         else Raise (ValueError "Invalid isoformat string") |}.
Definition order_input : string := b64encode "the order header" +:+ "." +:+ b64encode "the names".
Definition order_jose : Jose := jose_reading [
  ("an order", JObj [("protected", JStr (b64encode "the order header")); ("payload", JStr (b64encode "the names"));
     ("signature", JStr (b64encode ("raw key:" +:+ order_input)))]);
  ("the order header", JObj [("alg", JStr "EdDSA"); ("kid", JStr "https://ca.lan/acme/account/token-900"); ("nonce", JStr "n2");
     ("url", JStr "https://ca.lan/acme/new-order")]);
  ("the names", JObj [("identifiers", JList [JObj [("type", JStr "dns"); ("value", JStr "*.NAS.lan")]]);
     ("notBefore", JStr "2026-01-01T02:00:00+02:00")])].
#[local] Existing Instance order_jose.
Definition acme_on : DB := on_settings (λ m, <[ACME_ENABLED := "true"]> m) signed_up.
Definition env : Env := mkEnv clock t2026 901 (λ n, 910 + Z.of_nat n) (draw 40) id 990 t2026.
Definition posting (kind : string) : HttpRequest := mkRequest POST "/acme/new-order" kind "" "an order" "" (Some "10.0.0.7").
Definition ordering : Tx DB Response := new_order "an order" (w_draws env) clock t2026 None.
#[local] Strategy 1000 [acme_on ordering].

(** A moment with an offset is stored in UTC; one that UTC cannot hold is
    refused. *)
Example timestamps : parse_timestamp (JStr "2026-01-01T02:00:00+02:00") "notBefore" = Ok (Some (iso t2026)) ∧
  is_ok (parse_timestamp (JStr "9999-12-31T23:59:59-14:00") "notAfter") = false.
Proof. by vm_compute. Qed.
Lemma acme_off_invisible_witness : get_flag ACME_ENABLED false signed_up = false ∧
  serve NewOrder (posting "text/plain") env signed_up =
    (Ok (mkReply 404 (Some JSON_CONTENT_TYPE) (json_body [("detail", JStr "not found")]) [] None), signed_up).
Proof.
  assert (H : get_flag ACME_ENABLED false signed_up = false) by (vm_compute; reflexivity). split; [exact H|].
  apply acme_off_invisible. left. exact H.
Defined.
Lemma settings_accounts_ok f db : accounts_ok db → accounts_ok (on_settings f db).
Proof. intros [H1 H2]. by split. Qed.
Lemma acme_on_ok : accounts_ok acme_on.
Proof. apply settings_accounts_ok, signed_up_ok. Qed.
Lemma ordering_code : code_of (fst (request ordering acme_on)) = 201.
Proof. vm_compute. reflexivity. Qed.
Lemma new_order_exact_witness : code_of (fst (request ordering acme_on)) = 201 ∧
  ∃ account ids nb na, let o := pending_order (acc_id account) ids nb na 910 t2026 in
    accounts acme_on !! acc_id account = Some account ∧
    orders (after ordering acme_on) !! ord_id o = Some o.
Proof.
  split; [exact ordering_code|]. destruct (code_ok ordering acme_on 201 ltac:(discriminate) ordering_code) as (x & Hx & _).
  destruct (new_order_exact (X:=lib) (SS:=toy_secrets) (CR:=toy_crypto) (J:=order_jose) (Mo:=one_moment) "an order" (w_draws env) clock t2026 None
    acme_on (Ok x) (after ordering acme_on) acme_on_ok Hx) as
    (b & j & account & key & nonce & members & ids & nb & na & issuer & row & _ & _ & Hrow & _ & _ & _ & _ & _ & _ & _ & _ & _ & _ & Hdb & _).
  exists account, ids, nb, na. cbn zeta. split; [exact Hrow|]. rewrite Hdb. apply lookup_insert_eq.
Defined.
(** The wrong content type is a 415 with a nonce, and no more is done. *)
Definition status_of (r : Outcome Reply) : Z := match r with Ok x => status x | Raise _ => 0 end.
Definition refused_form : Outcome Reply * DB := request (route NewOrder (posting "text/plain") env) acme_on.
#[local] Strategy 1000 [refused_form].
Lemma nonce_on_every_post_witness : status_of (answer (fst refused_form)) = 415 ∧
  ∃ r' db', serve NewOrder (posting "text/plain") env acme_on = (Ok r', db') ∧ status r' = 415 ∧
    nonces db' !! "token-990" = Some (iso t2026).
Proof.
  assert (H : status_of (answer (fst refused_form)) = 415) by (vm_compute; reflexivity). split; [exact H|].
  assert (Hg : require_acme_enabled (path (posting "text/plain")) acme_on = Ok ("https://ca.lan", None)) by (vm_compute; reflexivity).
  assert (Hfree : bool_decide (nonces (snd refused_form) !! "token-990" = None) = true) by (vm_compute; reflexivity).
  apply bool_decide_eq_true in Hfree. destruct (answer (fst refused_form)) as [r|e] eqn:Ha; [|discriminate H]. cbn in H.
  destruct (nonce_on_every_post (X:=lib) (SS:=toy_secrets) (CR:=toy_crypto) (J:=order_jose) (D:=CsrExamples.toy_der) (DC:=no_certs) (Mo:=one_moment)
    NewOrder (posting "text/plain") env acme_on _ (fst refused_form) (snd refused_form) r Hg (surjective_pairing refused_form) Ha Hfree)
    as (r' & db' & Hs & Hst & _ & _ & _ & Hn & _).
  exists r', db'. split; [exact Hs|]. split; [exact (eq_trans Hst H)|exact Hn].
Defined.
(** The order goes through: 201, the order's URL, a fresh nonce. *)
Definition served : Outcome Reply * DB := serve NewOrder (posting "Application/JOSE+JSON; charset=utf-8") env acme_on.
#[local] Strategy 1000 [served].
Lemma acme_changes_are_signed_witness :
  (match fst served with Ok r => Some (status r, headers r) | Raise _ => None end) =
    Some (201, [("Location", "https://ca.lan/acme/order/token-910"); ("Replay-Nonce", "token-990")]) ∧
  proven NewOrder "an order" acme_on.
Proof.
  split; [vm_compute; reflexivity|].
  destruct (acme_changes_are_signed (X:=lib) (SS:=toy_secrets) (CR:=toy_crypto) (J:=order_jose) (D:=CsrExamples.toy_der) (DC:=no_certs) (Mo:=one_moment)
    _ _ _ _ _ _ (surjective_pairing served)) as [Hsame|(_ & _ & Hp)]; [exfalso|exact Hp].
  assert (Ho : orders (snd served) = orders acme_on) by (by apply same_orders).
  assert (Hn : bool_decide (is_Some (orders (snd served) !! "token-910")) = true) by (vm_compute; reflexivity).
  assert (Hm : bool_decide (orders acme_on !! "token-910" = None) = true) by (vm_compute; reflexivity).
  apply bool_decide_eq_true in Hn, Hm. rewrite Ho, Hm in Hn. exact (is_Some_None Hn).
Defined.
End AcmeServerExamples.
