(* ===== verification/Ledger.v ===== *)
(** * One certificate per order, whoever finalizes it

    Several finalizations of the same orders run at once, each a sequence of
    committed steps: claim, issue, attach; a process can die between any two.
    The abstract machine is a ledger that knows of each order only whether it
    is free, held, or spent on a certificate; the theorem is that the program
    implements it, whatever else the other requests do meanwhile. *)

From S2P Require Import Prelude PyStr Json PyTime X509Lib Leaf Store CaService Grants Identity Certs Crl AcmeNames AcmeService Base64 Csr Finalize.
#[local] Open Scope Z_scope.

(** ** The specification *)
Inductive entry := Free | Held | Spent (cert : Z) | Closed.
Abbreviation ledger := (gmap string entry).
(** An order is given out to one holder at a time, who either gives it back or
    spends it, once, on a certificate no other order was spent on. *)
Inductive ledger_step : ledger → ledger → Prop :=
  | ledger_open l n : l !! n = None → ledger_step l (<[n := Free]> l)
  | ledger_take l n : l !! n = Some Free → ledger_step l (<[n := Held]> l)
  | ledger_return l n : l !! n = Some Held → ledger_step l (<[n := Free]> l)
  | ledger_spend l n c : l !! n = Some Held → (∀ m, l !! m ≠ Some (Spent c)) → ledger_step l (<[n := Spent c]> l).
(** What the specification promises: spent is for ever, and a certificate
    is spent on one order. *)
Definition one_each (l : ledger) : Prop := ∀ n m c, l !! n = Some (Spent c) → l !! m = Some (Spent c) → n = m.
Lemma ledger_one_each l l' : rtc ledger_step l l' → one_each l → one_each l'.
Proof.
  induction 1 as [|l l1 l' Hs _ IH]; [done|]. intros Hl. apply IH. clear IH.
  destruct Hs as [l n Hn|l n Hn|l n Hn|l n c Hn Hc]; intros n1 n2 c1; rewrite !lookup_insert_Some; naive_solver.
Qed.
Lemma ledger_spent l l' n c : rtc ledger_step l l' → l !! n = Some (Spent c) → l' !! n = Some (Spent c).
Proof.
  induction 1 as [|l l1 l' Hs _ IH]; [done|]. intros Hl. apply IH. clear IH.
  destruct Hs as [l m Hm|l m Hm|l m Hm|l m c' Hm Hc]; rewrite lookup_insert_ne; congruence.
Qed.

(** ** The program *)
Section machine.
Context {X : X509Lib} {SS : SecretStore} {CR : Crypto} {D : DerLib}.

(** A finalization between two commits: it has claimed the order, or it also
    has the certificate.  The row is the one its session holds. *)
Inductive Phase := Holding (o : OrderRow) | HasCert (o : OrderRow) (cert : Z).
Definition row_of (p : Phase) : OrderRow := match p with Holding o | HasCert o _ => o end.
Record World := mkWorld { w_db : DB; threads : gmap nat Phase }.

(** What other requests may do: place orders, leave the rows of the others
    alone, and never delete a certificate. *)
Definition quiet (db db' : DB) : Prop :=
  (∀ n o, orders db !! n = Some o → orders db' !! n = Some o) ∧
  (∀ n o, orders db' !! n = Some o → orders db !! n = Some o ∨ orders db !! n = None ∧ ord_id o = n ∧ claimable o = true) ∧
  (∀ c, is_Some (certs db !! c) → is_Some (certs db' !! c)).
Inductive world_step : World → World → Prop :=
  | step_claim db ts t order o db' : ts !! t = None → request (claim_for_issuance order) db = (Ok (true, o), db') →
      world_step (mkWorld db ts) (mkWorld db' (<[t := Holding o]> ts))
  | step_lose db ts order r db' : request (claim_for_issuance order) db = (r, db') → (∀ o, r ≠ Ok (true, o)) →
      world_step (mkWorld db ts) (mkWorld db' ts)
  | step_issue db ts t o account der d created i db' : ts !! t = Some (Holding o) →
      request (issue account o der d created) db = (Ok i, db') →
      world_step (mkWorld db ts) (mkWorld db' (<[t := HasCert o (crt_id (issued_row i))]> ts))
  | step_fail db ts t o account der d created e db' : ts !! t = Some (Holding o) →
      request (issue account o der d created) db = (Raise e, db') →
      world_step (mkWorld db ts) (mkWorld db' (delete t ts))
  | step_attach db ts t o c r db' : ts !! t = Some (HasCert o c) → request (attach_certificate o c) db = (r, db') →
      world_step (mkWorld db ts) (mkWorld db' (delete t ts))
  | step_crash db ts t : world_step (mkWorld db ts) (mkWorld db (delete t ts))
  | step_other db ts db' : quiet db db' → world_step (mkWorld db ts) (mkWorld db' ts).

(** *** The steps on the two tables *)
Lemma request_claim order db : request (claim_for_issuance order) db =
  match orders db !! ord_id order with
  | Some o => if claimable o then (Ok (true, claimed_order o), on_orders (λ m, <[ord_id order := claimed_order o]> m) db)
              else (Ok (false, o), db)
  | None => (Raise cannot_refresh, db)
  end.
Proof.
  apply (request_post _ _ (λ p, p = _)). unfold fresh_session. apply wp_claim; cbn [work durable].
  - by intros o -> ->.
  - by intros o -> ->.
  - by intros ->.
Qed.
Lemma wp_sign_frame p pem profile n override fallback allow_empty iid source d created s (Q : Outcome Issued → Session DB → Prop) :
  (∀ i, certs (work s) !! crt_id (issued_row i) = None →
     let db := on_certs (λ m, <[crt_id (issued_row i) := issued_row i]> m) (work s) in Q (Ok i) (mkSession db db)) →
  (∀ e, Q (Raise e) s) →
  wp (sign_csr_and_store p pem profile n override fallback allow_empty iid source d created) s Q.
Proof.
  intros Hok Hraise. unfold sign_csr_and_store, resolve_granted_issuer, resolve_issuer, get_ca, signing_credentials.
  wp_run; auto; unfold get_ca; wp_run; auto.
  all: apply wp_store; auto; intros k Hk row Hfree db; wp_run; by apply (Hok (mkIssued row _)).
Qed.
Definition issue_effect (o row : OrderRow) (db : DB) (p : Outcome Issued * DB) : Prop :=
  match fst p with
  | Ok i => certs db !! crt_id (issued_row i) = None ∧
      snd p = on_certs (λ m, <[crt_id (issued_row i) := issued_row i]> m) db
  | Raise _ => snd p = on_orders (λ m, <[ord_id o := with_order ord_pending (certificate_id row) (ord_error row) row]> m) db
  end.
Lemma request_issue account o row der d created db : ord_status o = ord_processing → orders db !! ord_id o = Some row →
  issue_effect o row db (request (issue account o der d created) db).
Proof.
  intros Hst Hrow. apply request_post. unfold issue, fresh_session. apply wp_catch_all, wp_sign_frame; cbn [work durable].
  - intros i Hi. split; [done|reflexivity].
  - intros e. apply wp_bind, wp_rollback. apply wp_bind. apply (wp_release _ row); [done|done|]. apply wp_throw. reflexivity.
Qed.
Lemma request_attach o row c db : ord_status o = ord_processing → certificate_id o = None →
  orders db !! ord_id o = Some row → is_Some (certs db !! c) →
  snd (request (attach_certificate o c) db) = on_orders (λ m, <[ord_id o := with_order ord_valid (Some c) (ord_error row) row]> m) db.
Proof.
  intros Hst Hc Hrow Hcert. apply (request_post _ _ (λ p, snd p = _)). unfold fresh_session. by apply (wp_attach _ row).
Qed.

(** ** The simulation *)
Record implements (w : World) (l : ledger) : Prop := {
  im_key n o : orders (w_db w) !! n = Some o → ord_id o = n;
  im_dom n : is_Some (orders (w_db w) !! n) ↔ is_Some (l !! n);
  im_free n o : orders (w_db w) !! n = Some o → l !! n = Some Free ↔ claimable o = true;
  im_holder t p : threads w !! t = Some p →
    ord_status (row_of p) = ord_processing ∧ certificate_id (row_of p) = None ∧
    (∃ o, orders (w_db w) !! ord_id (row_of p) = Some o ∧ ord_status o = ord_processing ∧ certificate_id o = None) ∧
    l !! ord_id (row_of p) = Some (match p with Holding _ => Held | HasCert _ c => Spent c end);
  im_one_holder t t' p p' : threads w !! t = Some p → threads w !! t' = Some p' →
    ord_id (row_of p) = ord_id (row_of p') → t = t';
  im_spent n c : l !! n = Some (Spent c) → is_Some (certs (w_db w) !! c) ∧
    ∃ o, orders (w_db w) !! n = Some o ∧ (certificate_id o = Some c ∨ certificate_id o = None ∧ ord_status o = ord_processing);
  im_cert n o c : orders (w_db w) !! n = Some o → certificate_id o = Some c → l !! n = Some (Spent c) ∨ l !! n = Some Closed }.

(** A holder of order [n], against its row and its entry. *)
Definition holds (n : string) (row : OrderRow) (e : entry) (p : Phase) : Prop :=
  ord_id (row_of p) = n ∧ ord_status (row_of p) = ord_processing ∧ certificate_id (row_of p) = None ∧
  ord_status row = ord_processing ∧ certificate_id row = None ∧ e = match p with Holding _ => Held | HasCert _ c => Spent c end.
Definition entry_ok (row : OrderRow) (e : entry) (cs : gmap Z CertRow) : Prop :=
  (e = Free ↔ claimable row = true) ∧
  (∀ c, e = Spent c → is_Some (cs !! c) ∧ (certificate_id row = Some c ∨ certificate_id row = None ∧ ord_status row = ord_processing)) ∧
  (∀ c, certificate_id row = Some c → e = Spent c ∨ e = Closed).
(** One order, its entry and its holders change together. *)
Lemma implements_update db ts l n row e db' ts' : implements (mkWorld db ts) l → is_Some (orders db !! n) →
  ord_id row = n → orders db' = <[n := row]> (orders db) → (∀ c, is_Some (certs db !! c) → is_Some (certs db' !! c)) →
  entry_ok row e (certs db') →
  (∀ t p, ts' !! t = Some p → holds n row e p ∨ ts !! t = Some p ∧ ord_id (row_of p) ≠ n) →
  (∀ t t' p p', ts' !! t = Some p → ts' !! t' = Some p' → ord_id (row_of p) = n → ord_id (row_of p') = n → t = t') →
  implements (mkWorld db' ts') (<[n := e]> l).
Proof.
  intros Him Hn Hrow Hord Hcerts (Hfree & Hspent & Hcert) Hts Hone. split; cbn [w_db threads]; rewrite ?Hord.
  - intros m o [[<- <-]|[_ Ho]]%lookup_insert_Some; [done|by apply (im_key _ _ Him)].
  - intros m. destruct (decide (n = m)) as [<-|Hne]; [rewrite !lookup_insert_eq; by split; eexists|].
    rewrite !lookup_insert_ne by done. apply (im_dom _ _ Him).
  - intros m o [[<- <-]|[Hne Ho]]%lookup_insert_Some; [rewrite lookup_insert_eq; split; [intros [= ->]|intros ->%Hfree]; tauto|].
    rewrite lookup_insert_ne by done. by apply (im_free _ _ Him).
  - intros t p Ht. destruct (Hts t p Ht) as [(Hid & Hst & Hc & Hrs & Hrc & ->)|[Hold Hne]].
    + rewrite Hid, !lookup_insert_eq. split_and!; [done|done|by exists row|done].
    + rewrite !lookup_insert_ne by done. by apply (im_holder _ _ Him t).
  - intros t t' p p' Ht Ht' Hid. destruct (decide (ord_id (row_of p) = n)) as [He|Hne].
    + eapply Hone; eauto; congruence.
    + destruct (Hts t p Ht) as [(? & _)|[Hp _]]; [done|]. destruct (Hts t' p' Ht') as [(? & _)|[Hp' _]]; [congruence|].
      by eapply (im_one_holder _ _ Him).
  - intros m c [[<- ->]|[Hne Hl]]%lookup_insert_Some.
    + destruct (Hspent c eq_refl) as [? ?]. split; [done|]. exists row. by rewrite lookup_insert_eq.
    + destruct (im_spent _ _ Him m c Hl) as [Hc (o & Ho & ?)]. split; [by apply Hcerts|]. exists o. by rewrite lookup_insert_ne.
  - intros m o c [[<- <-]|[Hne Ho]]%lookup_insert_Some Hc; [rewrite lookup_insert_eq; naive_solver|].
    rewrite lookup_insert_ne by done. by eapply (im_cert _ _ Him).
Qed.

Lemma not_claimable o : ord_status o = ord_processing → claimable o = false.
Proof. intros H. unfold claimable, open_order. rewrite H. apply andb_false_r. Qed.
Lemma others_elsewhere w l t p : implements w l → threads w !! t = Some p →
  ∀ t' p', delete t (threads w) !! t' = Some p' → threads w !! t' = Some p' ∧ ord_id (row_of p') ≠ ord_id (row_of p).
Proof.
  intros Him Ht t' p' [Hne Ht']%lookup_delete_Some. split; [done|]. intros He. apply Hne. symmetry.
  by eapply (im_one_holder _ _ Him).
Qed.
Lemma sim_claim db ts l t order o db' : implements (mkWorld db ts) l → ts !! t = None →
  request (claim_for_issuance order) db = (Ok (true, o), db') →
  ∃ l', ledger_step l l' ∧ implements (mkWorld db' (<[t := Holding o]> ts)) l'.
Proof.
  intros Him Ht. rewrite request_claim. destruct (orders db !! ord_id order) as [row|] eqn:Hrow; [|done].
  destruct (claimable row) eqn:Hc; [|done]. intros [= <- <-].
  pose proof (im_key _ _ Him _ _ Hrow) as Hkey. pose proof (proj2 (im_free _ _ Him _ _ Hrow) Hc) as Hfree.
  exists (<[ord_id order := Held]> l). split; [by apply ledger_take|].
  assert (Hcert : certificate_id row = None) by (unfold claimable in Hc; by apply andb_true_iff in Hc as [?%bool_decide_eq_true _]).
  assert (Hno : ∀ t' p, ts !! t' = Some p → ord_id (row_of p) ≠ ord_id order).
  { intros t' p Hp He. destruct (im_holder _ _ Him t' p Hp) as (_ & _ & (o & Ho & Hst & _) & _). cbn in Ho. rewrite He, Hrow in Ho.
    injection Ho as <-. by rewrite not_claimable in Hc. }
  eapply (implements_update db ts l (ord_id order) (claimed_order row)); [done|by eexists|done|done|done| | |].
  - split_and!; [by rewrite not_claimable|done|intros c; cbn; congruence].
  - intros t' p [[<- <-]|[_ Hp]]%lookup_insert_Some; [left; by split_and!|right; split; [done|by eapply Hno]].
  - intros t1 t2 p1 p2. rewrite !lookup_insert_Some. intros [[<- <-]|[_ H1]] [[<- <-]|[_ H2]] Hi1 Hi2; try done;
      [by apply Hno in H2|by apply Hno in H1|by apply Hno in H1].
Qed.
Lemma sim_issue db ts l t o account der d created i db' : implements (mkWorld db ts) l → ts !! t = Some (Holding o) →
  request (issue account o der d created) db = (Ok i, db') →
  ∃ l', ledger_step l l' ∧ implements (mkWorld db' (<[t := HasCert o (crt_id (issued_row i))]> ts)) l'.
Proof.
  intros Him Ht Hreq. destruct (im_holder _ _ Him t _ Ht) as (Hst & Hc & (row & Hrow & Hrs & Hrc) & Hl). cbn [row_of w_db] in *.
  pose proof (request_issue account o row der d created db Hst Hrow) as He. unfold issue_effect in He. rewrite Hreq in He. cbn in He.
  destruct He as [Hfresh ->]. exists (<[ord_id o := Spent (crt_id (issued_row i))]> l). split.
  - apply ledger_spend; [done|]. intros m Hm. destruct (im_spent _ _ Him m _ Hm) as [Hs _]. cbn in Hs. rewrite Hfresh in Hs. by destruct Hs.
  - pose proof (im_key _ _ Him _ _ Hrow) as Hkey.
    eapply (implements_update db ts l (ord_id o) row); [done|by eexists|done|symmetry; by apply insert_id| | | |].
    + intros c [r Hr]. cbn. destruct (decide (crt_id (issued_row i) = c)) as [<-|Hne]; [rewrite lookup_insert_eq|rewrite lookup_insert_ne by done]; by eexists.
    + split_and!; [by rewrite not_claimable|intros c [= <-]; cbn; rewrite lookup_insert_eq; split; [by eexists|by right]|intros c; congruence].
    + intros t' p [[<- <-]|[Hne Hp]]%lookup_insert_Some; [left; by split_and!|right].
      apply (others_elsewhere _ _ t _ Him Ht). by rewrite lookup_delete_ne.
    + intros t1 t2 p1 p2 H1 H2 Hi1 Hi2.
      assert (Hone : ∀ t' p', <[t := HasCert o (crt_id (issued_row i))]> ts !! t' = Some p' → ord_id (row_of p') = ord_id o → t' = t).
      { intros t' p' [[<- _]|[Hne Hp]]%lookup_insert_Some Hid; [done|]. symmetry. by eapply (im_one_holder _ _ Him t t'). }
      by rewrite (Hone t1 p1), (Hone t2 p2).
Qed.
Lemma sim_fail db ts l t o account der d created e db' : implements (mkWorld db ts) l → ts !! t = Some (Holding o) →
  request (issue account o der d created) db = (Raise e, db') →
  ∃ l', ledger_step l l' ∧ implements (mkWorld db' (delete t ts)) l'.
Proof.
  intros Him Ht Hreq. destruct (im_holder _ _ Him t _ Ht) as (Hst & Hc & (row & Hrow & Hrs & Hrc) & Hl). cbn [row_of w_db] in *.
  pose proof (request_issue account o row der d created db Hst Hrow) as He. unfold issue_effect in He. rewrite Hreq in He. cbn in He.
  subst db'. exists (<[ord_id o := Free]> l). split; [by apply ledger_return|].
  pose proof (im_key _ _ Him _ _ Hrow) as Hkey.
  eapply (implements_update db ts l (ord_id o) (with_order ord_pending (certificate_id row) (ord_error row) row));
    [done|by eexists|done|done|done| | |].
  - split_and!; [|done|cbn; intros c; congruence]. unfold claimable, open_order. cbn. by rewrite Hrc.
  - intros t' p Hp. right. by apply (others_elsewhere _ _ t _ Him Ht).
  - intros t1 t2 p1 p2 H1 _ Hi1. by apply (others_elsewhere _ _ t _ Him Ht) in H1 as [_ ?].
Qed.
Lemma sim_attach db ts l t o c r db' : implements (mkWorld db ts) l → ts !! t = Some (HasCert o c) →
  request (attach_certificate o c) db = (r, db') → implements (mkWorld db' (delete t ts)) l.
Proof.
  intros Him Ht Hreq. destruct (im_holder _ _ Him t _ Ht) as (Hst & Hc & (row & Hrow & Hrs & Hrc) & Hl). cbn [row_of w_db] in *.
  destruct (im_spent _ _ Him _ _ Hl) as [Hcert _]. cbn in Hcert.
  pose proof (request_attach o row c db Hst Hc Hrow Hcert) as He. rewrite Hreq in He. cbn in He. subst db'.
  pose proof (im_key _ _ Him _ _ Hrow) as Hkey. rewrite <- (insert_id l (ord_id o) (Spent c)) by done.
  eapply (implements_update db ts l (ord_id o) (with_order ord_valid (Some c) (ord_error row) row)); [done|by eexists|done|done|done| | |].
  - split_and!; [done|intros c' [= <-]; split; [done|by left]|intros c' [= <-]; by left].
  - intros t' p Hp. right. by apply (others_elsewhere _ _ t _ Him Ht).
  - intros t1 t2 p1 p2 H1 _ Hi1. by apply (others_elsewhere _ _ t _ Him Ht) in H1 as [_ ?].
Qed.

Lemma ledger_opens (l : ledger) (m : gmap string OrderRow) : rtc ledger_step l (l ∪ ((λ _, Free) <$> m)).
Proof.
  induction m as [|n o m Hn IH] using map_ind; [by rewrite fmap_empty, map_union_empty|].
  rewrite fmap_insert. destruct (l !! n) as [e|] eqn:Hl.
  - replace (l ∪ <[n := Free]> ((λ _, Free) <$> m)) with (l ∪ ((λ _, Free) <$> m)); [done|].
    apply map_eq. intros k. rewrite !lookup_union. destruct (decide (n = k)) as [<-|Hne].
    + rewrite Hl, lookup_insert_eq, lookup_fmap, Hn. done.
    + by rewrite lookup_insert_ne.
  - rewrite <- insert_union_r by done. eapply rtc_r; [exact IH|]. apply ledger_open.
    rewrite lookup_union, Hl, lookup_fmap, Hn. done.
Qed.
Lemma sim_other db ts l db' : implements (mkWorld db ts) l → quiet db db' →
  ∃ l', rtc ledger_step l l' ∧ implements (mkWorld db' ts) l'.
Proof.
  intros Him (Hkeep & Hnew & Hcerts). exists (l ∪ ((λ _, Free) <$> orders db')). split; [apply ledger_opens|].
  assert (Hold : ∀ n e, l !! n = Some e → (l ∪ ((λ _, Free) <$> orders db')) !! n = Some e)
    by (intros n e He; by apply lookup_union_Some_l).
  assert (Hfresh : ∀ n, l !! n = None → (l ∪ ((λ _, Free) <$> orders db')) !! n = (λ _, Free) <$> orders db' !! n)
    by (intros n He; by rewrite lookup_union_r, lookup_fmap).
  assert (Hdom : ∀ n, l !! n = None ↔ orders db !! n = None).
  { intros n. rewrite !eq_None_not_Some. by rewrite <- (im_dom _ _ Him n). }
  split; cbn [w_db threads] in *.
  - intros n o Ho. destruct (Hnew n o Ho) as [Ho'|(_ & ? & _)]; [by apply (im_key _ _ Him)|done].
  - intros n. destruct (l !! n) as [e|] eqn:Hl.
    + rewrite (Hold n e Hl). destruct (proj2 (im_dom _ _ Him n)) as [o Ho]; [by eexists|]. cbn in Ho.
      rewrite (Hkeep n o Ho). by split; eexists.
    + rewrite (Hfresh n Hl). symmetry. apply fmap_is_Some.
  - intros n o Ho. destruct (Hnew n o Ho) as [Ho'|(Hn & _ & Hc)].
    + pose proof (im_free _ _ Him n o Ho') as Hf. destruct (proj1 (im_dom _ _ Him n)) as [e He]; [by eexists|].
      rewrite (Hold n e He). by rewrite He in Hf.
    + rewrite Hfresh, Ho by by apply Hdom. done.
  - intros t p Ht. destruct (im_holder _ _ Him t p Ht) as (H1 & H2 & (o & Ho & H3) & H4).
    split_and!; [done|done|exists o; split; [by apply Hkeep|done]|by apply Hold].
  - apply (im_one_holder _ _ Him).
  - intros n c Hl. destruct (l !! n) as [e|] eqn:He; [|rewrite Hfresh in Hl by done; destruct (orders db' !! n); discriminate].
    rewrite (Hold n e He) in Hl. injection Hl as ->. destruct (im_spent _ _ Him n c He) as [Hc (o & Ho & Hs)].
    split; [by apply Hcerts|]. exists o. split; [by apply Hkeep|done].
  - intros n o c Ho Hc. destruct (Hnew n o Ho) as [Ho'|(_ & _ & Hcl)].
    + destruct (im_cert _ _ Him n o c Ho' Hc) as [?|?]; [left|right]; by apply Hold.
    + unfold claimable in Hcl. apply andb_true_iff in Hcl as [Hcl%bool_decide_eq_true _]. congruence.
Qed.
Lemma sim_crash db ts l t : implements (mkWorld db ts) l → implements (mkWorld db (delete t ts)) l.
Proof.
  intros Him. destruct Him as [H1 H2 H3 H4 H5 H6 H7]. split; cbn in *; try done.
  - intros t' p [_ Hp]%lookup_delete_Some. by apply (H4 t').
  - intros t1 t2 p1 p2 [_ Hp1]%lookup_delete_Some [_ Hp2]%lookup_delete_Some. by apply H5.
Qed.
Lemma sim_step w w' l : world_step w w' → implements w l → ∃ l', rtc ledger_step l l' ∧ implements w' l'.
Proof.
  intros Hstep Him. destruct Hstep.
  - edestruct sim_claim as (l' & Hl & ?); [done..|]. exists l'. split; [by apply rtc_once|done].
  - exists l. split; [apply rtc_refl|]. rewrite request_claim in *.
    destruct (orders db !! ord_id order) as [o|]; [destruct (claimable o)|]; naive_solver.
  - edestruct sim_issue as (l' & Hl & ?); [done..|]. exists l'. split; [by apply rtc_once|done].
  - edestruct sim_fail as (l' & Hl & ?); [done..|]. exists l'. split; [by apply rtc_once|done].
  - exists l. split; [apply rtc_refl|]. by eapply sim_attach.
  - exists l. split; [apply rtc_refl|]. by apply sim_crash.
  - by eapply sim_other.
Qed.
Lemma sim_steps w w' l : rtc world_step w w' → implements w l → ∃ l', rtc ledger_step l l' ∧ implements w' l'.
Proof.
  intros Hs. revert l. induction Hs as [w|w w1 w' Hs _ IH]; intros l Him; [exists l; split; [apply rtc_refl|done]|].
  destruct (sim_step _ _ _ Hs Him) as (l1 & Hl1 & Him1). destruct (IH l1 Him1) as (l' & Hl' & Him').
  exists l'. split; [by etrans|done].
Qed.

(** The ledger of a database nobody is finalizing in. *)
Definition ledger_of (db : DB) : ledger := (λ o, if claimable o then Free else Closed) <$> orders db.
Definition keyed (db : DB) : Prop := ∀ n o, orders db !! n = Some o → ord_id o = n.
Lemma implements_init db : keyed db → implements (mkWorld db ∅) (ledger_of db).
Proof.
  intros Hkey. unfold ledger_of. split; cbn [w_db threads]; try done.
  - intros n. by rewrite lookup_fmap, fmap_is_Some.
  - intros n o Ho. rewrite lookup_fmap, Ho. cbn. by destruct (claimable o).
  - intros n c. rewrite lookup_fmap. destruct (orders db !! n) as [o|]; cbn; [|done]. by destruct (claimable o).
  - intros n o c Ho Hc. right. rewrite lookup_fmap, Ho. cbn. unfold claimable. by rewrite Hc, bool_decide_eq_false_2.
Qed.
Lemma ledger_of_one_each db : one_each (ledger_of db).
Proof.
  intros n m c. unfold ledger_of. rewrite lookup_fmap. destruct (orders db !! n) as [o|]; cbn; [|done]. by destruct (claimable o).
Qed.

(** C2: the program implements the ledger.  Start from any database in which
    nobody is finalizing, and run any interleaving of claims, issuances,
    failures, attachments, crashes and other requests: what the orders, the
    certificates and the running finalizations look like is always the state
    some run of the ledger reaches from the ledger of that database. *)
Theorem finalizers_refine_ledger db w : keyed db → rtc world_step (mkWorld db ∅) w →
  ∃ l, rtc ledger_step (ledger_of db) l ∧ implements w l.
Proof. intros Hkey Hs. by eapply sim_steps, implements_init. Qed.

(** An order has a certificate when a running finalization got it one, or its
    row names it. *)
Definition has_cert (w : World) (n : string) (c : Z) : Prop :=
  (∃ t o, threads w !! t = Some (HasCert o c) ∧ ord_id o = n) ∨
  (∃ o, orders (w_db w) !! n = Some o ∧ certificate_id o = Some c).
Lemma has_cert_spent w l n c : implements w l → has_cert w n c → l !! n ≠ Some Closed → l !! n = Some (Spent c).
Proof.
  intros Him [(t & o & Ht & <-)|(o & Ho & Hc)] Hn.
  - by destruct (im_holder _ _ Him t _ Ht) as (_ & _ & _ & ?).
  - by destruct (im_cert _ _ Him n o c Ho Hc).
Qed.
Lemma never_closed l l' n : rtc ledger_step l l' → l !! n ≠ Some Closed → l' !! n ≠ Some Closed.
Proof.
  induction 1 as [|l l1 l' Hs _ IH]; [done|]. intros Hl. apply IH. clear IH.
  destruct Hs; rewrite lookup_insert_Some; naive_solver.
Qed.

(** C1: one certificate per order, one order per certificate.  At any point of
    any interleaving an order has at most one finalization running; and if one
    order got a certificate by some point, and an order got one by some later
    point, both open when it all began, then they are the same order exactly
    when they are the same certificate. *)
Theorem one_certificate_per_order db w w' n m c c' : keyed db →
  (∀ k o, k = n ∨ k = m → orders db !! k = Some o → claimable o = true) →
  rtc world_step (mkWorld db ∅) w → rtc world_step w w' →
  (∀ t t' p p', threads w !! t = Some p → threads w !! t' = Some p' → ord_id (row_of p) = ord_id (row_of p') → t = t') ∧
  (has_cert w n c → has_cert w' m c' → (n = m ↔ c = c')).
Proof.
  intros Hkey Hopen Hs Hs'. destruct (sim_steps _ _ _ Hs (implements_init db Hkey)) as (l & Hl & Him).
  split; [apply (im_one_holder _ _ Him)|]. intros Hn Hm.
  destruct (sim_steps _ _ _ Hs' Him) as (l' & Hl' & Him').
  assert (Hnc : ∀ k, k = n ∨ k = m → ledger_of db !! k ≠ Some Closed).
  { intros k Hk. unfold ledger_of. rewrite lookup_fmap. destruct (orders db !! k) as [o|] eqn:Ho; [|done]. cbn. by rewrite (Hopen k o Hk Ho). }
  apply (has_cert_spent _ l) in Hn; [|done|apply (never_closed (ledger_of db) l n); [done|apply Hnc; by left]].
  apply (has_cert_spent _ l') in Hm; [|done|apply (never_closed (ledger_of db) l' m); [by etrans|apply Hnc; by right]].
  pose proof (ledger_spent _ _ _ _ Hl' Hn) as Hn'. split; [intros ->; congruence|intros ->].
  by eapply (ledger_one_each _ _ Hl'); [eapply (ledger_one_each _ _ Hl), ledger_of_one_each|..].
Qed.

(** The requests that place orders and prove challenges are quiet. *)
Lemma quiet_refl db : quiet db db.
Proof. split_and!; auto. Qed.
Lemma quiet_same db db' : orders db' = orders db → certs db' = certs db → quiet db db'.
Proof. intros Ho Hc. unfold quiet. rewrite Ho, Hc. split_and!; auto. Qed.
Lemma create_order_quiet account ids nb na draws now db : quiet db (snd (request (create_order account ids nb na draws now) db)).
Proof.
  assert (Hk : keeps (quiet db) (create_order account ids nb na draws now)).
  { unfold create_order. cbn zeta. apply keeps_bind; [|intros _; apply keeps_bind; [|intros _; keeps_frame]].
    - apply keeps_wp. intros s [Hw Hd]. unfold add_order. wp_run; cbn; [done|done|]. split; [|done]. destruct Hw as (H1 & H2 & H3).
      revert H. rewrite bool_decide_eq_false, <- eq_None_not_Some. cbn [ord_id pending_order]. intros Hfresh. split_and!; cbn.
      + intros n o Ho. rewrite lookup_insert_ne; [by apply H1|]. intros <-. apply H1 in Ho. cbn in Hfresh. congruence.
      + intros n o [[<- <-]|[_ Ho]]%lookup_insert_Some; [|by apply H2]. right.
        destruct (orders db !! _) as [o|] eqn:E; [|by split]. apply H1 in E. cbn in Hfresh. congruence.
      + done.
    - generalize 1%nat. induction ids as [|i ids IH]; intros k; cbn [add_authzs]; [apply keeps_ret|].
      unfold add_authz, add_challenge. keeps_frame. apply IH. }
  apply (request_keeps (quiet db) _ _ Hk), quiet_refl.
Qed.
End machine.

(** ** Two finalizations of one order *)
Module LedgerExamples.
#[local] Existing Instance Toy.lib.
#[local] Existing Instance toy_secrets.
#[local] Existing Instance toy_crypto.
#[local] Existing Instance CsrExamples.toy_der.
Import Toy CaExamples AcmeExamples.
#[local] Strategy 1000 [one_root two_cas two_roots crossed acme_db placed_db proven_db after request].
Definition claim : Tx DB (bool * OrderRow) := claim_for_issuance the_order.
Definition claimed_db : DB := after claim proven_db.
Definition held_order : OrderRow := claimed_order the_order.
Definition mint : Tx DB Issued := issue acct held_order "nas.lan" (draw 30) t2026.
Definition minted_cert : Z := match fst (request mint claimed_db) with Ok i => crt_id (issued_row i) | Raise _ => 0 end.
Definition minted : World := mkWorld (after mint claimed_db) (<[0%nat := HasCert held_order minted_cert]> (<[0%nat := Holding held_order]> ∅)).
Lemma proven_keyed : keyed proven_db.
Proof.
  assert (Hkey : map_Forall (λ n o, ord_id o = n) (orders proven_db)) by by_decide. exact Hkey.
Qed.
Lemma claimed_first : request claim proven_db = (Ok (true, held_order), claimed_db).
Proof.
  assert (Hc : fst (request claim proven_db) = Ok (true, held_order)) by (vm_compute; reflexivity).
  unfold claimed_db, after. rewrite <- Hc. exact (surjective_pairing _).
Qed.
Lemma claimed_second : ∃ o, request claim claimed_db = (Ok (false, o), claimed_db).
Proof.
  assert (Hl : match fst (request claim claimed_db) with Ok (b, _) => b | Raise _ => true end = false) by (vm_compute; reflexivity).
  revert Hl. generalize claimed_db. intros db. unfold claim. rewrite request_claim.
  destruct (orders db !! ord_id the_order) as [o|]; [destruct (claimable o)|]; intros Hl; [discriminate Hl| |discriminate Hl].
  by exists o.
Qed.
Lemma mint_first : ∃ i, request mint claimed_db = (Ok i, after mint claimed_db) ∧ minted_cert = crt_id (issued_row i).
Proof.
  assert (Hm : is_ok (fst (request mint claimed_db)) = true) by (vm_compute; reflexivity).
  unfold minted_cert, after. revert Hm. generalize (request mint claimed_db). intros [[i|e] db] Hm; [|discriminate Hm].
  by exists i.
Qed.
Lemma race : rtc world_step (mkWorld proven_db ∅) minted.
Proof.
  destruct claimed_second as [o Hl]. destruct mint_first as (i & Hm & Hi).
  unfold minted. rewrite Hi. 
  eapply rtc_l; [exact (step_claim proven_db ∅ 0%nat the_order held_order claimed_db (lookup_empty _) claimed_first)|].
  eapply rtc_l; [refine (step_lose claimed_db _ the_order _ _ Hl _)|].
  - intros o'. discriminate.
  - apply rtc_once.
    exact (step_issue claimed_db _ 0%nat held_order acct "nas.lan" (draw 30) t2026 i _ (lookup_insert_eq _ _ _) Hm).
Qed.
Lemma finalizers_refine_ledger_witness :
  rtc world_step (mkWorld proven_db ∅) minted ∧ ∃ l, rtc ledger_step (ledger_of proven_db) l ∧ implements minted l.
Proof.
  split; [exact race|].
  exact (finalizers_refine_ledger (X:=lib) (SS:=toy_secrets) (D:=CsrExamples.toy_der) proven_db minted proven_keyed race).
Defined.
Lemma one_certificate_per_order_witness :
  has_cert minted "token-200" minted_cert ∧ ("token-200" = "token-200" ↔ minted_cert = minted_cert).
Proof.
  assert (H : has_cert minted "token-200" minted_cert).
  { left. exists 0%nat, held_order. split; [apply lookup_insert_eq|vm_compute; reflexivity]. }
  split; [exact H|].
  refine (proj2 (one_certificate_per_order (X:=lib) (SS:=toy_secrets) (D:=CsrExamples.toy_der) proven_db minted minted "token-200" "token-200"
    minted_cert minted_cert proven_keyed _ race (rtc_refl _ _)) H H).
  assert (Hopen : map_Forall (λ _ o, claimable o = true) (orders proven_db)) by by_decide.
  intros k o _ Ho. exact (Hopen k o Ho).
Defined.
End LedgerExamples.
