(* ===== verification/Secrets.v ===== *)
(** * [cabin.secrets]: the master key and sealing at rest

    [SecretStore.seal] and [unseal] are AES-256-GCM under the master key; the
    key file holds the key, alone or wrapped under a passphrase.  The creation of
    the file is in [KeyFile.v].

    AES-GCM, scrypt and the reading of a JSON text are arguments, with what
    their documentation says as laws.  Bytes are a string of eight-bit
    characters. *)

From S2P Require Import Prelude PyStr Json X509Lib Store Base64 Targets.
#[local] Open Scope Z_scope.

Definition KEY_FILE_NAME : string := "secret.key".
Definition NONCE_LEN : Z := 12.
Definition KEY_LEN : Z := 32.
Definition SALT_LEN : Z := 16.
Definition SCRYPT_N : Z := 32768.
Definition SCRYPT_R : Z := 8.
Definition SCRYPT_P : Z := 1.

(** ** base64url with padding *)
Definition padding (n : nat) : list ascii :=
  match (n mod 3)%nat with 1%nat => ["="; "="]%char | 2%nat => ["="]%char | _ => [] end.
(** [_b64] *)
Definition b64 (data : string) : string :=
  of_chars (encode_bytes (chars data) ++ padding (length (chars data))).

(** [s.encode("ascii")]: the error names the first run of other characters. *)
Definition is_ascii (c : ascii) : bool := in_range 0 127 c.
Definition encode_ascii (s : string) : Outcome string :=
  let before := (length (chars s) - length (drop_while is_ascii (chars s)))%nat in
  match drop_while is_ascii (chars s) with
  | [] => Ok s
  | c :: rest =>
      let run := (length (c :: rest) - length (drop_while (λ c, negb (is_ascii c)) (c :: rest)))%nat in
      Raise (ValueError ("'ascii' codec can't encode character" +:+
        (if decide (run = 1)%nat then " " +:+ py_repr (of_chars [c]) +:+ " in position " +:+ str_of_Z (Z.of_nat before)
         else "s in position " +:+ str_of_Z (Z.of_nat before) +:+ "-" +:+ str_of_Z (Z.of_nat (before + run - 1)))
        +:+ ": ordinal not in range(128)"))
  end.

(** [binascii.a2b_base64] after [urlsafe_b64decode] has mapped its two
    characters: both alphabets are read, anything else is skipped, and the
    padding that completes a group ends the text.  [q] counts the characters
    of the group, [left_] holds the bits left over, [pads] the padding seen
    since the last character and [n] the bytes written. *)
Definition any_sextet (c : ascii) : option N :=
  match sextet c with
  | Some v => Some v
  | None => if (code c =? 43)%N then Some 62%N else if (code c =? 47)%N then Some 63%N else None
  end.
Fixpoint a2b (q : nat) (left_ : N) (pads n : nat) (l : list ascii) : Outcome (list ascii) :=
  match l with
  | [] =>
      match q with
      | O => Ok []
      | 1%nat => Raise (ValueError ("Invalid base64-encoded string: number of data characters (" +:+
                    str_of_Z (Z.of_nat (n / 3 * 4 + 1)) +:+ ") cannot be 1 more than a multiple of 4"))
      | _ => Raise (ValueError "Incorrect padding")
      end
  | c :: l =>
      if bool_decide (c = "="%char) then
        if (2 <=? q)%nat then if (4 <=? q + S pads)%nat then Ok [] else a2b q left_ (S pads) n l
        else a2b q left_ pads n l
      else
        match any_sextet c with
        | None => a2b q left_ pads n l
        | Some v =>
            match q with
            | O => a2b 1 v 0 n l
            | 1%nat => r ← a2b 2 (v mod 16) 0 (S n) l; Ok (char_of (left_ * 4 + v / 16) :: r)
            | 2%nat => r ← a2b 3 (v mod 4) 0 (S n) l; Ok (char_of (left_ * 16 + v / 4) :: r)
            | _ => r ← a2b 0 0 0 (S n) l; Ok (char_of (left_ * 64 + v) :: r)
            end
        end
  end.
Definition type_name (v : json) : string :=
  match v with
  | JNull => "NoneType" | JBool _ => "bool" | JInt _ => "int" | JFloat _ => "float"
  | JStr _ => "str" | JList _ => "list" | JObj _ => "dict"
  end.
(** [_unb64] *)
Definition unb64 (data : json) : Outcome string :=
  match data with
  | JStr s => s ← encode_ascii s; l ← a2b 0 0 0 0 (chars s); Ok (of_chars l)
  | v => Raise (AttributeError ("'" +:+ type_name v +:+ "' object has no attribute 'encode'"))
  end.
Example unb64_texts : map (λ s, unb64 (JStr s)) ["ab=="; "ab==xx"; "=abcd"; "a!b=="; "+/-_"; ""] =
  [Ok "i"; Ok "i"; Ok (of_chars (map char_of [105; 183; 29]%N)); Ok "i"; Ok (of_chars (map char_of [251; 255; 191]%N)); Ok ""].
Proof. vm_compute. reflexivity. Qed.
Example unb64_refused : map (λ s, unb64 (JStr s)) ["abcde"; "ab=c"; "a=b="; of_chars ("a"%char :: map char_of [233; 252]%N)] =
  [Raise (ValueError "Invalid base64-encoded string: number of data characters (5) cannot be 1 more than a multiple of 4");
   Raise (ValueError "Incorrect padding"); Raise (ValueError "Incorrect padding");
   Raise (ValueError "'ascii' codec can't encode characters in position 1-2: ordinal not in range(128)")].
Proof. vm_compute. reflexivity. Qed.

(** ** The libraries *)
(** What [json.loads(key_path.read_text())] makes of the bytes of a file. *)
Inductive Loaded := LJson (j : json) | LDecodeError (msg : string) | LRaised (e : Exc).

(** The documents [_create_keyfile] writes, before the random is chosen. *)
Definition none_doc (key : string) : json := JObj [("v", JInt 1); ("kdf", JStr "none"); ("key", JStr key)].
Definition scrypt_doc (salt wrapped : string) : json :=
  JObj [("v", JInt 1); ("kdf", JStr "scrypt"); ("salt", JStr salt); ("n", JInt SCRYPT_N); ("r", JInt SCRYPT_R);
        ("p", JInt SCRYPT_P); ("wrapped", JStr wrapped)].
Definition is_b64_text (s : string) : bool := forallb (λ c, is_b64 c || bool_decide (c = "="%char)) (chars s).

(** [gcm_encrypt key nonce data] is [AESGCM(key).encrypt(nonce, data, None)].
    [scrypt_other] is what the call raises when a number of the key file is
    not one. *)
Class Ciphers := {
  gcm_encrypt : string → string → string → Outcome string;
  gcm_decrypt : string → string → string → Outcome string;
  scrypt : string → string → Z → Z → Z → Z → Z → Outcome string;
  scrypt_other : json → json → json → Exc;
  keyfile_loads : string → Loaded;
  gcm_roundtrip : ∀ key nonce data, py_len key = KEY_LEN → py_len nonce = NONCE_LEN →
    ∃ c, gcm_encrypt key nonce data = Ok c ∧ gcm_decrypt key nonce c = Ok data;
  gcm_decrypt_raises : ∀ key nonce c e, py_len key = KEY_LEN → py_len nonce = NONCE_LEN →
    gcm_decrypt key nonce c = Raise e → ∃ m, e = InvalidTag m;
  gcm_short_nonce : ∀ key nonce c, py_len key = KEY_LEN → py_len nonce < 8 →
    gcm_decrypt key nonce c = Raise (ValueError "Nonce must be between 8 and 128 bytes");
  scrypt_ok : ∀ passphrase salt,
    ∃ k, scrypt passphrase salt SCRYPT_N SCRYPT_R SCRYPT_P KEY_LEN (128 * SCRYPT_N * SCRYPT_R * SCRYPT_P * 2) = Ok k ∧ py_len k = KEY_LEN;
  loads_none_doc : ∀ key, is_b64_text key = true → keyfile_loads (dumps (none_doc key)) = LJson (none_doc key);
  loads_scrypt_doc : ∀ salt wrapped, is_b64_text salt = true → is_b64_text wrapped = true →
    keyfile_loads (dumps (scrypt_doc salt wrapped)) = LJson (scrypt_doc salt wrapped) }.

(** ** [SecretStore] *)
Definition is_invalid_tag (e : Exc) : bool := match e with InvalidTag _ => true | _ => false end.
Definition is_bad_member (e : Exc) : bool :=
  match e with KeyError _ | TypeError _ | ValueError _ | AttributeError _ => true | _ => false end.
Definition corrupt (msg : string) : Exc := SecretsError ("secret.key is corrupt or unreadable: " +:+ msg).

Section store.
Context {C : Ciphers}.

(** [seal] under the nonce that was drawn. *)
Definition seal (key nonce plaintext : string) : Outcome string :=
  ciphertext ← gcm_encrypt key nonce plaintext;
  mret (b64 (nonce +:+ ciphertext)).
Definition unseal (key token : string) : Outcome string :=
  raw ← catch_pure (unb64 (JStr token)) (λ _, true) (λ _, Raise (SecretsError "invalid token: not valid base64url"));
  _ ← raise_if (py_len raw <? NONCE_LEN) (SecretsError "invalid token: truncated");
  catch_pure (gcm_decrypt key (str_take (Z.to_nat NONCE_LEN) raw) (str_drop (Z.to_nat NONCE_LEN) raw)) is_invalid_tag
    (λ _, Raise (SecretsError "invalid token: failed authentication (tampered)")).

(** [_scrypt]: the numbers are the key file's, whatever they are. *)
Definition as_int (v : json) : option Z :=
  match v with JInt n => Some n | JBool b => Some (if b then 1 else 0) | _ => None end.
Definition derive (passphrase salt : string) (n r p : json) : Outcome string :=
  match as_int n, as_int r, as_int p with
  | Some n, Some r, Some p => scrypt passphrase salt n r p KEY_LEN (128 * n * r * p * 2)
  | _, _, _ => Raise (scrypt_other n r p)
  end.

(** [_read_keyfile] on the text of the file. *)
Definition read_keyfile (text : string) : Outcome (list (string * json)) :=
  match keyfile_loads text with
  | LDecodeError m => Raise (corrupt m)
  | LRaised e => Raise e
  | LJson (JObj doc) => Ok doc
  | LJson _ => Raise (corrupt "not a JSON object")
  end.
(** [doc[k]] *)
Definition item (k : string) (doc : list (string * json)) : Outcome json :=
  if has k doc then Ok (member k doc) else Raise (KeyError (py_repr k)).
(** [v == 1] *)
Definition equals_one (v : json) : bool :=
  match v with JInt n => n =? 1 | JBool b => b | JFloat r => bool_decide (r = "1.0") | _ => false end.

Definition load_key (doc : list (string * json)) (passphrase : option string) : Outcome string :=
  let version := member "v" doc in
  let kdf := member "kdf" doc in
  _ ← raise_if (negb (equals_one version) || bool_decide (kdf ≠ JStr "none" ∧ kdf ≠ JStr "scrypt"))
        (SecretsError ("secret.key: unsupported version/kdf (v=" +:+ json_repr version +:+ ", kdf=" +:+ json_repr kdf +:+ ")"));
  if decide (kdf = JStr "none") then
    _ ← raise_if (bool_decide (is_Some passphrase))
          (SecretsError "secret.key was created without a passphrase (kdf=none) but CABIN_MASTER_PASSPHRASE is set; unset it or delete secret.key to start fresh");
    key ← catch_pure (v ← item "key" doc; unb64 v) is_bad_member (λ e, Raise (corrupt (exc_text e)));
    _ ← raise_if (negb (py_len key =? KEY_LEN)) (SecretsError "secret.key: master key is not 32 bytes");
    mret key
  else
    passphrase ← of_option passphrase
      (SecretsError "secret.key was created with a passphrase (kdf=scrypt) but CABIN_MASTER_PASSPHRASE is not set");
    '(kek, raw) ← catch_pure
        (salt ← (v ← item "salt" doc; unb64 v); n ← item "n" doc; r ← item "r" doc; p ← item "p" doc;
         kek ← derive (encode_utf8 passphrase) salt n r p;
         raw ← (v ← item "wrapped" doc; unb64 v); mret (kek, raw)) is_bad_member (λ e, Raise (corrupt (exc_text e)));
    catch_pure (gcm_decrypt kek (str_take (Z.to_nat NONCE_LEN) raw) (str_drop (Z.to_nat NONCE_LEN) raw)) is_invalid_tag
      (λ _, Raise (SecretsError "wrong CABIN_MASTER_PASSPHRASE: could not unwrap master key")).

(** The document [_create_keyfile] writes, from what [os.urandom] gave. *)
Record Entropy := mkEntropy { master_key : string; fresh_salt : string; fresh_nonce : string }.
Definition urandom (e : Entropy) : Prop :=
  py_len (master_key e) = KEY_LEN ∧ py_len (fresh_salt e) = SALT_LEN ∧ py_len (fresh_nonce e) = NONCE_LEN.
Definition new_doc (e : Entropy) (passphrase : option string) : Outcome json :=
  match passphrase with
  | None => mret (none_doc (b64 (master_key e)))
  | Some passphrase =>
      kek ← scrypt (encode_utf8 passphrase) (fresh_salt e) SCRYPT_N SCRYPT_R SCRYPT_P KEY_LEN (128 * SCRYPT_N * SCRYPT_R * SCRYPT_P * 2);
      wrapped ← gcm_encrypt kek (fresh_nonce e) (master_key e);
      mret (scrypt_doc (b64 (fresh_salt e)) (b64 (fresh_nonce e +:+ wrapped)))
  end.
(** [_load_key(_read_keyfile(path), passphrase)] *)
Definition load_text (text : string) (passphrase : option string) : Outcome string :=
  doc ← read_keyfile text; load_key doc passphrase.
End store.

(** ** Lemmas on the encoding *)
Lemma any_sextet_char n : (n < 64)%N → any_sextet (sextet_char n) = Some n.
Proof. intros Hn. unfold any_sextet. by rewrite sextet_of_char. Qed.
Lemma sextet_char_not_pad n : (n < 64)%N → sextet_char n ≠ "="%char.
Proof. intros Hn He. pose proof (sextet_of_char n Hn) as H. rewrite He in H. by vm_compute in H. Qed.
(** One character of the alphabet. *)
Lemma a2b_char q lf pads n v l : (v < 64)%N →
  a2b q lf pads n (sextet_char v :: l) =
    match q with
    | O => a2b 1 v 0 n l
    | 1%nat => r ← a2b 2 (v mod 16) 0 (S n) l; Ok (char_of (lf * 4 + v / 16) :: r)
    | 2%nat => r ← a2b 3 (v mod 4) 0 (S n) l; Ok (char_of (lf * 16 + v / 4) :: r)
    | _ => r ← a2b 0 0 0 (S n) l; Ok (char_of (lf * 64 + v) :: r)
    end.
Proof.
  intros Hv. cbn [a2b]. rewrite bool_decide_eq_false_2 by by apply sextet_char_not_pad.
  by rewrite any_sextet_char.
Qed.
Lemma a2b_one_pad lf n : a2b 3 lf 0 n (padding 2) = Ok [].
Proof. reflexivity. Qed.
Lemma a2b_two_pads lf n : a2b 2 lf 0 n (padding 1) = Ok [].
Proof. reflexivity. Qed.
Lemma padding_step n : padding (S (S (S n))) = padding n.
Proof. unfold padding. replace (S (S (S n))) with (n + 1 * 3)%nat by lia. by rewrite Nat.Div0.mod_add. Qed.
Lemma sextet2_high a b : (((code a mod 4) * 16 + code b / 16) / 16 = code a mod 4)%N.
Proof. arith. Qed.
Lemma a2b_encode l : ∀ lf pads n, a2b 0 lf pads n (encode_bytes l ++ padding (length l)) = Ok l.
Proof.
  induction l as [|a|a b|a b c l IH] using triples_ind; intros lf pads n; [done|..];
    cbn [encode_bytes length app]; rewrite ?padding_step;
    repeat (rewrite a2b_char by auto using sextet1, sextet2, sextet2_alone, sextet3, sextet3_alone, sextet4; cbn [app]).
  - rewrite a2b_two_pads. cbn [mbind Outcome_bind]. f_equal. f_equal. apply byte1_alone.
  - rewrite a2b_one_pad. cbn [mbind Outcome_bind]. f_equal. f_equal; [apply byte1_of|]. f_equal. rewrite <- (char_of_code b) at 3. f_equal. arith.
  - rewrite IH. cbn [mbind Outcome_bind]. f_equal. f_equal; [apply byte1_of|]. f_equal.
    + rewrite <- (char_of_code b) at 3. f_equal. arith.
    + f_equal. rewrite <- (char_of_code c) at 3. f_equal. arith.
Qed.
Lemma encode_bytes_b64 l : forallb is_b64 (encode_bytes l) = true.
Proof.
  assert (Hc : ∀ n, (n < 64)%N → is_b64 (sextet_char n) = true) by (intros n Hn; unfold is_b64; by rewrite sextet_of_char).
  induction l as [|a|a b|a b c l IH] using triples_ind; cbn [encode_bytes forallb];
    by rewrite ?Hc by auto using sextet1, sextet2, sextet2_alone, sextet3, sextet3_alone, sextet4.
Qed.
Lemma b64_text data : is_b64_text (b64 data) = true.
Proof.
  unfold is_b64_text, b64. rewrite chars_of_chars, forallb_app, andb_true_iff. split.
  - pose proof (encode_bytes_b64 (chars data)) as H. rewrite forallb_elem in H |- *.
    intros c Hc. by rewrite (H c Hc).
  - unfold padding. by destruct (_ mod 3)%nat as [|[|[|]]].
Qed.
Lemma b64_char_ascii c : is_b64 c || bool_decide (c = "="%char) = true → is_ascii c = true.
Proof. destruct c as [[] [] [] [] [] [] [] []]; by vm_compute. Qed.
Lemma encode_ascii_id s : forallb is_ascii (chars s) = true → encode_ascii s = Ok s.
Proof.
  intros H. unfold encode_ascii.
  assert (Hd : drop_while is_ascii (chars s) = []); [|by rewrite Hd].
  induction (chars s) as [|c l IH]; cbn in *; [done|]. apply andb_true_iff in H as [-> H]. auto.
Qed.
Lemma unb64_b64 data : unb64 (JStr (b64 data)) = Ok data.
Proof.
  unfold unb64. rewrite encode_ascii_id.
  - cbn. unfold b64. rewrite chars_of_chars, a2b_encode. cbn. by rewrite of_chars_chars.
  - pose proof (b64_text data) as H. unfold is_b64_text in H. rewrite forallb_elem in H |- *.
    intros c Hc. apply b64_char_ascii, H, Hc.
Qed.
Lemma unb64_str_raises s e : unb64 (JStr s) = Raise e → ∃ m, e = ValueError m.
Proof.
  unfold unb64, encode_ascii. destruct (drop_while _ _) as [|c l]; cbn; [|intros [= <-]; eauto].
  assert (H : ∀ l q lf pads n e, a2b q lf pads n l = Raise e → ∃ m, e = ValueError m).
  { clear. induction l as [|c l IH]; intros q lf pads n e; cbn [a2b].
    - destruct q as [|[|q]]; intros [= <-]; eauto.
    - repeat case_match; eauto; try done;
        (destruct (a2b _ _ _ _ l) eqn:E; cbn; intros [= <-]; eauto). }
  destruct (a2b _ _ _ _ _) eqn:E; cbn; intros [= <-]. eauto.
Qed.

(** ** Correctness of the store *)
Lemma str_take_app s t n : py_len s = Z.of_nat n → str_take n (s +:+ t) = s.
Proof.
  unfold py_len, str_take. intros Hn. rewrite chars_app.
  rewrite take_app_length'; [apply of_chars_chars|lia].
Qed.
Lemma str_drop_app s t n : py_len s = Z.of_nat n → str_drop n (s +:+ t) = t.
Proof.
  unfold py_len, str_drop. intros Hn. rewrite chars_app.
  rewrite drop_app_length'; [apply of_chars_chars|lia].
Qed.
Lemma str_take_nonce n t : py_len n = NONCE_LEN → str_take (Z.to_nat NONCE_LEN) (n +:+ t) = n.
Proof. intros Hn. by apply str_take_app. Qed.
Lemma str_drop_nonce n t : py_len n = NONCE_LEN → str_drop (Z.to_nat NONCE_LEN) (n +:+ t) = t.
Proof. intros Hn. by apply str_drop_app. Qed.
Lemma py_len_app s t : py_len (s +:+ t) = py_len s + py_len t.
Proof. unfold py_len. rewrite chars_app, length_app. lia. Qed.
Lemma py_len_nonneg s : 0 ≤ py_len s.
Proof. unfold py_len. lia. Qed.

Section correctness.
Context {C : Ciphers}.

Lemma unseal_of_seal key nonce plaintext : py_len key = KEY_LEN → py_len nonce = NONCE_LEN →
  ∃ token, seal key nonce plaintext = Ok token ∧ unseal key token = Ok plaintext.
Proof.
  intros Hk Hn. destruct (gcm_roundtrip key nonce plaintext Hk Hn) as (c & He & Hd).
  exists (b64 (nonce +:+ c)). unfold seal, unseal. rewrite He, unb64_b64. split; [done|].
  cbn [catch_pure mbind Outcome_bind]. rewrite py_len_app, Hn.
  pose proof (py_len_nonneg c). rewrite (proj2 (Z.ltb_ge _ _)) by lia. cbn [raise_if mbind Outcome_bind mret Outcome_ret].
  by rewrite str_take_nonce, str_drop_nonce, Hd.
Qed.

Lemma py_len_take n s : n ≤ py_len s → py_len (str_take (Z.to_nat n) s) = Z.max 0 n.
Proof. unfold py_len, str_take. rewrite chars_of_chars, length_take. lia. Qed.

(** Nothing but [SecretsError] leaves [unseal], whatever the token: not
    ASCII, not base64, cut short, tampered with, sealed under another key. *)
Theorem unseal_error_kind key token e : py_len key = KEY_LEN → unseal key token = Raise e →
  e = SecretsError "invalid token: not valid base64url" ∨ e = SecretsError "invalid token: truncated" ∨
  e = SecretsError "invalid token: failed authentication (tampered)".
Proof.
  intros Hk. unfold unseal. destruct (unb64 _) as [raw|e']; cbn; [|intros [= <-]; auto].
  unfold raise_if. case_match eqn:Hl; cbn; [intros [= <-]; auto|]. apply Z.ltb_ge in Hl.
  destruct (gcm_decrypt _ _ _) as [?|e'] eqn:Hd; cbn; [done|].
  apply gcm_decrypt_raises in Hd as [m ->]; [|done|by rewrite (py_len_take NONCE_LEN)].
  cbn. intros [= <-]. auto.
Qed.

Lemma read_created e passphrase doc : new_doc e passphrase = Ok doc →
  ∃ o, doc = JObj o ∧ read_keyfile (dumps doc) = Ok o.
Proof.
  unfold new_doc, read_keyfile. destruct passphrase as [p|].
  - destruct (scrypt _ _ _ _ _ _ _) as [kek|]; cbn; [|done]. destruct (gcm_encrypt _ _ _) as [w|]; cbn; [|done].
    intros [= <-]. rewrite loads_scrypt_doc by apply b64_text. by eexists.
  - intros [= <-]. rewrite loads_none_doc by apply b64_text. by eexists.
Qed.
(** The two branches of [load_key]. *)
Lemma load_key_none o passphrase : equals_one (member "v" o) = true → member "kdf" o = JStr "none" →
  load_key o passphrase =
    match passphrase with
    | Some _ => Raise (SecretsError "secret.key was created without a passphrase (kdf=none) but CABIN_MASTER_PASSPHRASE is set; unset it or delete secret.key to start fresh")
    | None =>
        key ← catch_pure (v ← item "key" o; unb64 v) is_bad_member (λ e, Raise (corrupt (exc_text e)));
        _ ← raise_if (negb (py_len key =? KEY_LEN)) (SecretsError "secret.key: master key is not 32 bytes");
        mret key
    end.
Proof.
  intros Hv Hk. unfold load_key. rewrite Hv, Hk, (bool_decide_eq_false_2 (_ ∧ _)) by naive_solver. cbn [raise_if negb orb mbind Outcome_bind mret Outcome_ret].
  rewrite decide_True by done. by destruct passphrase.
Qed.
Lemma load_key_scrypt o passphrase : equals_one (member "v" o) = true → member "kdf" o = JStr "scrypt" →
  load_key o passphrase =
    match passphrase with
    | None => Raise (SecretsError "secret.key was created with a passphrase (kdf=scrypt) but CABIN_MASTER_PASSPHRASE is not set")
    | Some p =>
        '(kek, raw) ← catch_pure
          (salt ← (v ← item "salt" o; unb64 v); n ← item "n" o; r ← item "r" o; q ← item "p" o;
           kek ← derive (encode_utf8 p) salt n r q;
           raw ← (v ← item "wrapped" o; unb64 v); mret (kek, raw)) is_bad_member (λ e, Raise (corrupt (exc_text e)));
        catch_pure (gcm_decrypt kek (str_take (Z.to_nat NONCE_LEN) raw) (str_drop (Z.to_nat NONCE_LEN) raw)) is_invalid_tag
          (λ _, Raise (SecretsError "wrong CABIN_MASTER_PASSPHRASE: could not unwrap master key"))
    end.
Proof.
  intros Hv Hk. unfold load_key. rewrite Hv, Hk, (bool_decide_eq_false_2 (_ ∧ _)) by naive_solver. cbn [raise_if negb orb mbind Outcome_bind mret Outcome_ret].
  rewrite decide_False by done. by destruct passphrase.
Qed.
(** The document with a passphrase, its fields read one by one. *)
Lemma load_scrypt_doc salt raw p kek o : scrypt_doc (b64 salt) (b64 raw) = JObj o →
  scrypt (encode_utf8 p) salt SCRYPT_N SCRYPT_R SCRYPT_P KEY_LEN (128 * SCRYPT_N * SCRYPT_R * SCRYPT_P * 2) = Ok kek →
  load_key o (Some p) =
    catch_pure (gcm_decrypt kek (str_take (Z.to_nat NONCE_LEN) raw) (str_drop (Z.to_nat NONCE_LEN) raw)) is_invalid_tag
      (λ _, Raise (SecretsError "wrong CABIN_MASTER_PASSPHRASE: could not unwrap master key")).
Proof.
  intros [= <-] Hkek. rewrite load_key_scrypt by done.
  change (item "salt" _) with (Ok (JStr (b64 salt))). change (item "n" _) with (Ok (JInt SCRYPT_N)).
  change (item "r" _) with (Ok (JInt SCRYPT_R)). change (item "p" _) with (Ok (JInt SCRYPT_P)).
  change (item "wrapped" _) with (Ok (JStr (b64 raw))).
  cbn [mbind Outcome_bind]. rewrite !unb64_b64. unfold derive. cbn [mbind Outcome_bind as_int]. by rewrite Hkek.
Qed.
(** What [_create_keyfile] writes, [_load_key] reads back. *)
Lemma load_created e passphrase : urandom e →
  ∃ doc, new_doc e passphrase = Ok doc ∧ load_text (dumps doc) passphrase = Ok (master_key e).
Proof.
  intros (Hm & Hs & Hn).
  assert (Hd : ∃ doc, new_doc e passphrase = Ok doc ∧ ∀ o, doc = JObj o → load_key o passphrase = Ok (master_key e)).
  { unfold new_doc. destruct passphrase as [p|].
    - destruct (scrypt_ok (encode_utf8 p) (fresh_salt e)) as (kek & Hkek & Hl). rewrite Hkek.
      destruct (gcm_roundtrip kek (fresh_nonce e) (master_key e) Hl Hn) as (w & Hw & Hu). cbn [mbind Outcome_bind]. rewrite Hw.
      eexists. split; [done|]. intros o Ho. by rewrite (load_scrypt_doc _ _ _ _ _ Ho Hkek), str_take_nonce, str_drop_nonce, Hu.
    - eexists. split; [done|]. intros o [= <-]. rewrite load_key_none by done.
      change (item "key" _) with (Ok (JStr (b64 (master_key e)))). cbn [mbind Outcome_bind]. rewrite unb64_b64.
      cbn [catch_pure mbind Outcome_bind]. by rewrite Hm. }
  destruct Hd as (doc & Hd & Hload). exists doc. split; [done|].
  destruct (read_created _ _ _ Hd) as (o & Ho & Hr). unfold load_text. rewrite Hr. cbn. auto.
Qed.
End correctness.


(** ** The libraries, concretely *)
(** Encryption that only prepends the key, derivation that only pads, and a
    reader of the two documents. *)
Module ToyCiphers.
Definition encrypt (key nonce data : string) : Outcome string := Ok (key +:+ nonce +:+ data).
Definition decrypt (key nonce c : string) : Outcome string :=
  if py_len nonce <? 8 then Raise (ValueError "Nonce must be between 8 and 128 bytes")
  else if startswith c (key +:+ nonce) then Ok (str_drop (length (chars (key +:+ nonce))) c)
  else Raise (InvalidTag EmptyString).
Definition kdf (passphrase salt : string) (n r p dklen maxmem : Z) : Outcome string :=
  Ok (str_take 32 (passphrase +:+ salt +:+ of_chars (replicate 32 "0"%char))).
Definition quote : ascii := char_of 34.
Definition loads (text : string) : Loaded :=
  match split_chars quote (chars text) with
  | [_; _; _; _; _; kind; _; _; _; key; _] => LJson (none_doc (of_chars key))
  | [_; _; _; _; _; kind; _; _; _; salt; _; _; _; _; _; _; _; _; _; wrapped; _] =>
      LJson (scrypt_doc (of_chars salt) (of_chars wrapped))
  | _ => LDecodeError "Expecting value: line 1 column 1 (char 0)"
  end.

Lemma dumps_b64 s : is_b64_text s = true → dumps_str s = quoted s ∧ quote ∉ chars s.
Proof.
  intros Hs. unfold is_b64_text in Hs. unfold dumps_str.
  assert (Hc : ∀ c, is_b64 c || bool_decide (c = "="%char) = true → dumps_char c = String c EmptyString ∧ c ≠ quote).
  { intros c. destruct c as [[] [] [] [] [] [] [] []]; vm_compute; intros [=]; split; congruence. }
  split.
  - f_equal. induction s as [|c s IH]; [done|]. cbn in Hs |- *. apply andb_true_iff in Hs as [H1 H2].
    destruct (Hc c H1) as [-> _]. cbn. f_equal. by apply IH.
  - rewrite forallb_elem in Hs. intros Hin. by destruct (Hc quote (Hs _ Hin)).
Qed.
Lemma none_text key : dumps (none_doc key) =
  "{" +:+ quoted "v" +:+ ": 1, " +:+ quoted "kdf" +:+ ": " +:+ quoted "none" +:+ ", " +:+ quoted "key" +:+ ": " +:+ dumps_str key +:+ "}".
Proof. reflexivity. Qed.
Lemma scrypt_text salt wrapped : dumps (scrypt_doc salt wrapped) =
  "{" +:+ quoted "v" +:+ ": 1, " +:+ quoted "kdf" +:+ ": " +:+ quoted "scrypt" +:+ ", " +:+ quoted "salt" +:+ ": " +:+ dumps_str salt
  +:+ ", " +:+ quoted "n" +:+ ": 32768, " +:+ quoted "r" +:+ ": 8, " +:+ quoted "p" +:+ ": 1, " +:+ quoted "wrapped" +:+ ": " +:+ dumps_str wrapped +:+ "}".
Proof.
  transitivity (("{" +:+ quoted "v" +:+ ": 1, " +:+ quoted "kdf" +:+ ": " +:+ quoted "scrypt" +:+ ", " +:+ quoted "salt" +:+ ": " +:+ dumps_str salt
  +:+ ", " +:+ quoted "n" +:+ ": 32768, " +:+ quoted "r" +:+ ": 8, " +:+ quoted "p" +:+ ": 1, " +:+ quoted "wrapped" +:+ ": " +:+ dumps_str wrapped) +:+ "}");
    [reflexivity|by rewrite !str_app_assoc].
Qed.

Lemma split_piece l l' : quote ∉ l → split_chars quote (l ++ quote :: l') = l :: split_chars quote l'.
Proof. intros Hl. by rewrite split_chars_app, split_no_sep. Qed.
Lemma chars_quoted s : chars (quoted s) = quote :: chars s ++ [quote].
Proof. unfold quoted. change (quote :: chars (s +:+ String quote EmptyString) = quote :: chars s ++ [quote]). by rewrite chars_app. Qed.
Ltac not_quoted := apply (bool_decide_unpack _); vm_compute; exact I.
(** Cuts a text at its quotes. *)
Ltac pieces :=
  rewrite !chars_app, !chars_quoted; cbn [app]; rewrite <- ?(assoc (++)); cbn [app];
  repeat (rewrite split_piece by (assumption || not_quoted));
  rewrite split_no_sep by not_quoted; cbn [split_chars].
Lemma loads_none key : is_b64_text key = true → loads (dumps (none_doc key)) = LJson (none_doc key).
Proof.
  intros [Hd Hq]%dumps_b64. unfold loads. rewrite none_text, Hd. pieces. by rewrite of_chars_chars.
Qed.
Lemma loads_scrypt salt wrapped : is_b64_text salt = true → is_b64_text wrapped = true →
  loads (dumps (scrypt_doc salt wrapped)) = LJson (scrypt_doc salt wrapped).
Proof.
  intros [Hd Hq]%dumps_b64 [Hd' Hq']%dumps_b64. unfold loads. rewrite scrypt_text, Hd, Hd'. pieces. by rewrite !of_chars_chars.
Qed.
Lemma roundtrip key nonce data : py_len key = KEY_LEN → py_len nonce = NONCE_LEN →
  ∃ c, encrypt key nonce data = Ok c ∧ decrypt key nonce c = Ok data.
Proof.
  intros Hk Hn. eexists. split; [done|]. unfold decrypt. rewrite Hn. cbn [Z.ltb Z.compare].
  change (NONCE_LEN <? 8) with false. cbn iota. rewrite <- str_app_assoc.
  rewrite (proj2 (startswith_spec _ _)) by eauto. f_equal. apply str_drop_app. done.
Qed.
Lemma raises key nonce c e : py_len key = KEY_LEN → py_len nonce = NONCE_LEN →
  decrypt key nonce c = Raise e → ∃ m, e = InvalidTag m.
Proof. intros Hk Hn. unfold decrypt. rewrite Hn. change (NONCE_LEN <? 8) with false. cbn iota. case_match; intros [= <-]; eauto. Qed.
Lemma kdf_length passphrase salt : ∃ k, kdf passphrase salt SCRYPT_N SCRYPT_R SCRYPT_P KEY_LEN
  (128 * SCRYPT_N * SCRYPT_R * SCRYPT_P * 2) = Ok k ∧ py_len k = KEY_LEN.
Proof.
  eexists. split; [done|]. unfold py_len, str_take. rewrite chars_of_chars, length_take, !chars_app, !length_app, chars_of_chars, length_replicate.
  change KEY_LEN with 32. lia.
Qed.
Lemma short_nonce key nonce c : py_len key = KEY_LEN → py_len nonce < 8 →
  decrypt key nonce c = Raise (ValueError "Nonce must be between 8 and 128 bytes").
Proof. intros _ Hn. unfold decrypt. by rewrite (proj2 (Z.ltb_lt _ _) Hn). Qed.
Definition ciphers : Ciphers := {|
  gcm_encrypt := encrypt; gcm_decrypt := decrypt; scrypt := kdf; scrypt_other := λ _ _ _, TypeError EmptyString; keyfile_loads := loads;
  gcm_roundtrip := roundtrip; gcm_decrypt_raises := raises; gcm_short_nonce := short_nonce; scrypt_ok := kdf_length;
  loads_none_doc := loads_none; loads_scrypt_doc := loads_scrypt |}.
End ToyCiphers.

(** ** The contract *)
Section contract.
Context {C : Ciphers}.

Lemma new_doc_scrypt e p doc : new_doc e (Some p) = Ok doc →
  ∃ w, doc = scrypt_doc (b64 (fresh_salt e)) (b64 (fresh_nonce e +:+ w)).
Proof.
  cbn. destruct (scrypt _ _ _ _ _ _ _); cbn; [|done]. destruct (gcm_encrypt _ _ _) as [w|]; cbn; [|done].
  intros [= <-]. by exists w.
Qed.
Lemma load_scrypt_raises salt raw p o x : scrypt_doc (b64 salt) (b64 raw) = JObj o → NONCE_LEN ≤ py_len raw →
  load_key o (Some p) = Raise x → ∃ m, x = SecretsError m.
Proof.
  intros Ho Hr. destruct (scrypt_ok (encode_utf8 p) salt) as (kek & Hkek & Hl). rewrite (load_scrypt_doc _ _ _ _ _ Ho Hkek).
  destruct (gcm_decrypt _ _ _) as [?|e'] eqn:Hd; cbn; [done|].
  apply gcm_decrypt_raises in Hd as [m ->]; [|done|by rewrite (py_len_take NONCE_LEN)]. cbn. intros [= <-]. eauto.
Qed.

(** C38: sealing. What [seal] wrote under the master key, [unseal] gives
    back; and whatever text is handed to [unseal] instead - not ASCII, not
    base64, cut short, tampered with, sealed under another key - it returns
    the bytes or raises [SecretsError], never another exception. *)
Theorem sealing_exact key : py_len key = KEY_LEN →
  (∀ nonce plaintext, py_len nonce = NONCE_LEN →
    ∃ token, seal key nonce plaintext = Ok token ∧ unseal key token = Ok plaintext) ∧
  (∀ token e, unseal key token = Raise e → ∃ m, e = SecretsError m).
Proof.
  intros Hk. split; [by intros; apply unseal_of_seal|]. intros token e He.
  destruct (unseal_error_kind key token e Hk He) as [-> | [-> | ->]]; eauto.
Qed.

(** C36: the key file. What [_create_keyfile] writes, [_load_key] reads back
    under the same passphrase or lack of one; with a passphrase where the
    file has none, or none where the file has one, it raises [SecretsError];
    and under any other passphrase it returns or raises [SecretsError],
    never another exception. *)
Theorem key_file_exact e passphrase : urandom e →
  ∃ o, new_doc e passphrase = Ok (JObj o) ∧ read_keyfile (dumps (JObj o)) = Ok o ∧
    load_key o passphrase = Ok (master_key e) ∧
    (∀ other, (is_Some passphrase ↔ ¬ is_Some other) → ∃ m, load_key o other = Raise (SecretsError m)) ∧
    ∀ other x, load_key o other = Raise x → ∃ m, x = SecretsError m.
Proof.
  intros He. destruct (load_created e passphrase He) as (doc & Hd & Hl).
  destruct (read_created _ _ _ Hd) as (o & -> & Hr). exists o. unfold load_text in Hl. rewrite Hr in Hl. cbn in Hl.
  split; [done|split; [done|split; [done|]]]. destruct passphrase as [p|].
  - destruct (new_doc_scrypt _ _ _ Hd) as (w & Hw). unfold scrypt_doc in Hw. injection Hw as ->. split; intros other; destruct other as [x|].
    + naive_solver.
    + rewrite load_key_scrypt by done. eauto.
    + intros x'. eapply load_scrypt_raises; [done|]. rewrite py_len_app, (proj2 (proj2 He)). pose proof (py_len_nonneg w). lia.
    + intros x'. rewrite load_key_scrypt by done. intros [= <-]. eauto.
  - injection Hd as <-. split; intros other; destruct other as [x|].
    + rewrite load_key_none by done. eauto.
    + naive_solver.
    + intros x'. rewrite load_key_none by done. intros [= <-]. eauto.
    + intros x'. rewrite Hl. done.
Qed.

(** A key file whose wrapped key is cut to less than eight bytes makes
    [_load_key] raise [ValueError]: only [unseal] looks at the length. *)
Theorem short_wrapped_key passphrase salt raw : py_len raw < 8 →
  load_key [("v", JInt 1); ("kdf", JStr "scrypt"); ("salt", JStr (b64 salt)); ("n", JInt SCRYPT_N); ("r", JInt SCRYPT_R);
            ("p", JInt SCRYPT_P); ("wrapped", JStr (b64 raw))] (Some passphrase) =
  Raise (ValueError "Nonce must be between 8 and 128 bytes").
Proof.
  intros Hr. destruct (scrypt_ok (encode_utf8 passphrase) salt) as (kek & Hkek & Hl).
  etransitivity; [exact (load_scrypt_doc salt raw passphrase kek _ eq_refl Hkek)|].
  rewrite gcm_short_nonce; [done|done|]. unfold py_len, str_take in *. rewrite chars_of_chars, length_take. lia.
Qed.
End contract.

(** ** Concrete checks *)
Module SecretsExamples.
#[local] Existing Instance ToyCiphers.ciphers.
Definition key32 : string := of_chars (replicate 32 "k"%char).
Definition nonce12 : string := of_chars (replicate 12 "n"%char).
Definition draw : Entropy := mkEntropy key32 (of_chars (replicate 16 "s"%char)) nonce12.
Lemma sealing_exact_witness : ∃ token, seal key32 nonce12 "a key" = Ok token ∧ unseal key32 token = Ok "a key".
Proof. apply (sealing_exact key32); reflexivity. Defined.
Example tokens_refused : map (λ t, is_ok (unseal key32 t)) ["bm5u"; "bm5"; "bm5ubm5ubm5ubm5u"] = [false; false; false].
Proof. vm_compute. reflexivity. Qed.
Lemma key_file_exact_witness : ∃ o, new_doc draw (Some "hunter2") = Ok (JObj o) ∧ load_key o (Some "hunter2") = Ok key32.
Proof.
  destruct (key_file_exact draw (Some "hunter2")) as (o & H1 & _ & H3 & _).
  - split; [|split]; reflexivity.
  - exists o. split; [exact H1|exact H3].
Defined.
(** [True] is a version 1, as [True == 1]. *)
Example boolean_version : load_key [("v", JBool true); ("kdf", JStr "none"); ("key", JStr (b64 key32))] None = Ok key32.
Proof. vm_compute. reflexivity. Qed.
Example key_files_refused : map (λ o, load_key o None)
    [[("v", JInt 2)]; [("v", JInt 1); ("kdf", JStr "none")]; [("v", JInt 1); ("kdf", JStr "none"); ("key", JNull)]] =
  [Raise (SecretsError "secret.key: unsupported version/kdf (v=2, kdf=None)");
   Raise (SecretsError "secret.key is corrupt or unreadable: 'key'");
   Raise (SecretsError "secret.key is corrupt or unreadable: 'NoneType' object has no attribute 'encode'")].
Proof. vm_compute. reflexivity. Qed.
End SecretsExamples.
