(* ===== verification/KeyFile.v ===== *)
(** * [cabin.secrets]: creating the key file

    Several processes that start at once must end up with the same master
    key.  [_create_keyfile] writes a temporary file and links it to the final
    name; here each of its system calls is one step, interleaved with those
    of other processes, any of which may fail or be killed at any point.  What
    the operating system keeps of a file after a power failure is not modelled:
    [fsync] has no effect on a [Dir]. *)

From S2P Require Import Prelude PyStr Json Secrets.
#[local] Open Scope Z_scope.


(** A directory: names, and the files they are links to. *)
Record Inode := mkInode { file_text : string; file_mode : Z }.
Record Dir := mkDir { names : gmap string nat; inodes : gmap nat Inode }.

(** Where a process that runs [SecretStore.open] is. *)
Inductive Phase :=
  | Checking                                        (* [key_path.exists()] *)
  | Generating                                      (* the master key and its document *)
  | MakingTemp (doc : json)                         (* [tempfile.mkstemp] *)
  | Writing (tmp : string) (i : nat) (rest : string)  (* through the descriptor *)
  | Chmodding (tmp : string)
  | Linking (tmp : string)
  | Syncing (tmp : string)                          (* [os.fsync] of the directory *)
  | Unlinking (tmp : string) (pending : option Exc)   (* the [finally] clause *)
  | Reading
  | Finished (r : Outcome string).

(** What the world decides in a step: whether the call fails, the name
    [mkstemp] draws, how much of the text reaches the file. *)
Record Choice := mkChoice { fails : bool; drawn : string; wrote : nat }.
(** [0o600] *)
Definition OWNER_ONLY : Z := 6 * 64.
Definition os_error : Exc := OSError "".

Section machine.
Context {C : Ciphers}.

Definition with_inode (d : Dir) (i : nat) (f : Inode) : Dir := mkDir (names d) (<[i := f]> (inodes d)).
Definition new_inode (d : Dir) : nat := fresh (dom (inodes d) : gset nat).

(** One system call of a process; [None] when the choice is not one. *)
Definition advance (passphrase : option string) (e : Entropy) (c : Choice) (d : Dir) (ph : Phase) : option (Dir * Phase) :=
  let failed := Some (d, Finished (Raise os_error)) in
  match ph with
  | Checking => if fails c then (if decide (wrote c = O) then failed else Some (d, Generating)) else  (* raised, or read as absent *)
      Some (d, match names d !! KEY_FILE_NAME with Some _ => Reading | None => Generating end)
  | Generating =>
      Some (d, match new_doc e passphrase with Ok doc => MakingTemp doc | Raise x => Finished (Raise x) end)
  | MakingTemp doc => if fails c then failed else
      if decide (names d !! drawn c = None ∧ startswith (drawn c) ".secret.key." = true ∧ endswith (drawn c) ".tmp" = true) then
        Some (mkDir (<[drawn c := new_inode d]> (names d)) (<[new_inode d := mkInode "" OWNER_ONLY]> (inodes d)),
              Writing (drawn c) (new_inode d) (dumps doc))
      else None
  | Writing t i rest => if fails c then Some (d, Unlinking t (Some os_error)) else
      if decide (rest = "") then Some (d, Chmodding t) else
      match wrote c, inodes d !! i with
      | S _, Some f => Some (with_inode d i (mkInode (file_text f +:+ str_take (wrote c) rest) (file_mode f)),
                             Writing t i (str_drop (wrote c) rest))
      | _, _ => None
      end
  | Chmodding t => if fails c then Some (d, Unlinking t (Some os_error)) else
      match names d !! t with
      | Some i => match inodes d !! i with
                  | Some f => Some (with_inode d i (mkInode (file_text f) OWNER_ONLY), Linking t)
                  | None => None
                  end
      | None => Some (d, Unlinking t (Some os_error))
      end
  | Linking t => if fails c then Some (d, Unlinking t (Some os_error)) else
      match names d !! KEY_FILE_NAME with
      | Some _ => Some (d, Syncing t)                      (* [FileExistsError], suppressed *)
      | None =>
          match names d !! t with
          | Some i => Some (mkDir (<[KEY_FILE_NAME := i]> (names d)) (inodes d), Syncing t)
          | None => Some (d, Unlinking t (Some os_error))
          end
      end
  | Syncing t => Some (d, Unlinking t (if fails c then Some os_error else None))
  | Unlinking t pending => if fails c then failed else
      Some (mkDir (delete t (names d)) (inodes d), match pending with Some x => Finished (Raise x) | None => Reading end)
  | Reading =>
      Some (d, Finished
        (if fails c then Raise (corrupt (exc_text os_error)) else
         match names d !! KEY_FILE_NAME ≫= λ i, inodes d !! i with
         | Some f => load_text (file_text f) passphrase
         | None => Raise (corrupt (exc_text os_error))
         end))
  | Finished _ => None
  end.

(** Processes of the same configuration, started and killed at any time. *)
Record Process := mkProcess { entropy : Entropy; phase : Phase }.
Record System := mkSystem { dir : Dir; procs : gmap nat Process }.
Inductive system_step (passphrase : option string) (faulty : bool) (s : System) : System → Prop :=
  | step_start n e :
      procs s !! n = None → urandom e →
      system_step passphrase faulty s (mkSystem (dir s) (<[n := mkProcess e Checking]> (procs s)))
  | step_advance n p c d ph :
      procs s !! n = Some p → (fails c = true → faulty = true) →
      advance passphrase (entropy p) c (dir s) (phase p) = Some (d, ph) →
      system_step passphrase faulty s (mkSystem d (<[n := mkProcess (entropy p) ph]> (procs s)))
  | step_kill n :
      system_step passphrase faulty s (mkSystem (dir s) (delete n (procs s))).
Definition reachable (passphrase : option string) (faulty : bool) (s0 : System) : System → Prop := rtc (system_step passphrase faulty) s0.
(** A data directory without a key file, before any process. *)
Definition first_start (s : System) : Prop :=
  procs s = ∅ ∧ names (dir s) !! KEY_FILE_NAME = None ∧
  ∀ n i, names (dir s) !! n = Some i → is_Some (inodes (dir s) !! i).
End machine.

(** ** The invariant *)
Section invariant.
Context {C : Ciphers} (passphrase : option string) (faulty : bool).

(** The text of the key file some draw leads to, and a file that holds one. *)
Definition key_text (text key : string) : Prop :=
  ∃ e doc, urandom e ∧ new_doc e passphrase = Ok doc ∧ text = dumps doc ∧ key = master_key e.
Definition complete (d : Dir) (i : nat) : Prop :=
  ∃ f key, inodes d !! i = Some f ∧ key_text (file_text f) key ∧ file_mode f = OWNER_ONLY.
(** The key file holds [key]. *)
Definition holds_key (d : Dir) (key : string) : Prop :=
  ∃ i f, names d !! KEY_FILE_NAME = Some i ∧ inodes d !! i = Some f ∧ key_text (file_text f) key ∧ file_mode f = OWNER_ONLY.
Definition temp_of (ph : Phase) : option string :=
  match ph with
  | Writing t _ _ | Chmodding t | Linking t | Syncing t | Unlinking t _ => Some t
  | _ => None
  end.
Definition alone (d : Dir) (t : string) (i : nat) : Prop := names d !! t = Some i ∧ ∀ n, names d !! n = Some i → n = t.
(** What a process knows of the directory. *)
Definition knows (d : Dir) (ph : Phase) : Prop :=
  match ph with
  | Checking | Generating => True
  | MakingTemp doc => ∃ key, key_text (dumps doc) key
  | Writing t i rest => alone d t i ∧ ∃ f key, inodes d !! i = Some f ∧ key_text (file_text f +:+ rest) key ∧ file_mode f = OWNER_ONLY
  | Chmodding t | Linking t => ∃ i, alone d t i ∧ complete d i
  | Syncing t | Unlinking t None => ∃ key, holds_key d key
  | Unlinking t (Some _) => faulty = true
  | Reading => ∃ key, holds_key d key
  | Finished (Ok key) => holds_key d key
  | Finished (Raise _) => faulty = true
  end.
Record dir_ok (d : Dir) : Prop := {
  key_file_complete : ∀ i, names d !! KEY_FILE_NAME = Some i → complete d i;
  names_live : ∀ n i, names d !! n = Some i → is_Some (inodes d !! i) }.
Definition temp_ok (d : Dir) (ph : Phase) : Prop := ∀ t, temp_of ph = Some t → t ≠ KEY_FILE_NAME ∧ is_Some (names d !! t).
Record inv (s : System) : Prop := {
  inv_dir : dir_ok (dir s);
  inv_knows : ∀ n p, procs s !! n = Some p → urandom (entropy p) ∧ knows (dir s) (phase p) ∧ temp_ok (dir s) (phase p);
  inv_temps : ∀ n m p q t, procs s !! n = Some p → procs s !! m = Some q →
    temp_of (phase p) = Some t → temp_of (phase q) = Some t → n = m }.

(** What a step of a process leaves of the directory to the others: every
    name but its own temporary one and a key file that was missing, and every
    file under such a name. *)
Record leaves (own : option string) (d d' : Dir) : Prop := {
  leaves_names : ∀ n, n ≠ KEY_FILE_NAME → own ≠ Some n → is_Some (names d !! n) → names d' !! n = names d !! n;
  leaves_key : ∀ i, names d !! KEY_FILE_NAME = Some i → names d' !! KEY_FILE_NAME = Some i;
  leaves_files : ∀ n i, names d !! n = Some i → own ≠ Some n → inodes d' !! i = inodes d !! i;
  leaves_alone : ∀ t i, t ≠ KEY_FILE_NAME → own ≠ Some t → alone d t i → alone d' t i }.

(** ** Effects on a directory *)
Lemma leaves_refl own d : leaves own d d.
Proof. by split. Qed.
Lemma holds_key_complete d : dir_ok d → is_Some (names d !! KEY_FILE_NAME) → ∃ key, holds_key d key.
Proof.
  intros [Hc _] [i Hi]. destruct (Hc i Hi) as (f & key & Hf & Hk & Hm). exists key. by exists i, f.
Qed.
Lemma holds_key_leaves own d d' key : own ≠ Some KEY_FILE_NAME → leaves own d d' → holds_key d key → holds_key d' key.
Proof.
  intros Hown Hl (i & f & Hi & Hf & Hrest). exists i, f.
  rewrite (leaves_key _ _ _ Hl _ Hi), (leaves_files _ _ _ Hl _ _ Hi Hown). done.
Qed.
Lemma complete_leaves own d d' t i : own ≠ Some t → leaves own d d' → names d !! t = Some i → complete d i → complete d' i.
Proof.
  intros Hown Hl Ht (f & key & Hf & Hrest). exists f, key. by rewrite (leaves_files _ _ _ Hl _ _ Ht Hown).
Qed.
(** The others keep what they know. *)
Lemma knows_leaves own d d' ph : own ≠ Some KEY_FILE_NAME → (∀ t, temp_of ph = Some t → own ≠ Some t) → leaves own d d' →
  temp_ok d ph → knows d ph → knows d' ph ∧ temp_ok d' ph.
Proof.
  intros Hown Hdis Hl Ht Hk. split.
  - destruct ph as [| |doc|t i rest|t|t|t|t [x|]| |[k|x]]; cbn in *; try done;
      try (destruct Hk as [key Hk]; exists key; by eapply holds_key_leaves);
      try by eapply holds_key_leaves.
    + destruct Hk as [Ha (f & key & Hf & Hrest)]. destruct (Ht t eq_refl) as [Hkey _]. split.
      * apply (leaves_alone _ _ _ Hl); auto.
      * exists f, key. rewrite (leaves_files _ _ _ Hl t) by (auto; apply Ha). done.
    + destruct Hk as (i & Ha & Hc). destruct (Ht t eq_refl) as [Hkey _]. exists i. split.
      * apply (leaves_alone _ _ _ Hl); auto.
      * eapply (complete_leaves _ _ _ t); eauto. apply Ha.
    + destruct Hk as (i & Ha & Hc). destruct (Ht t eq_refl) as [Hkey _]. exists i. split.
      * apply (leaves_alone _ _ _ Hl); auto.
      * eapply (complete_leaves _ _ _ t); eauto. apply Ha.
  - intros t Hph. destruct (Ht t Hph) as [Hkey Hs]. split; [done|].
    by rewrite (leaves_names _ _ _ Hl) by auto.
Qed.

Lemma new_inode_fresh d : inodes d !! new_inode d = None.
Proof. apply (not_elem_of_dom (D := gset nat)). unfold new_inode. apply (is_fresh (A := nat) (dom (inodes d) : gset nat)). Qed.
(** [mkstemp]: a new name for a new, empty file. *)
Lemma create_ok d t f : dir_ok d → names d !! t = None → t ≠ KEY_FILE_NAME →
  let d' := mkDir (<[t := new_inode d]> (names d)) (<[new_inode d := f]> (inodes d)) in
  dir_ok d' ∧ leaves None d d' ∧ alone d' t (new_inode d).
Proof.
  intros [Hc Hn] Ht Hkey d'.
  assert (Hfresh : inodes d !! new_inode d = None) by apply new_inode_fresh.
  assert (Hdead : ∀ n, names d !! n ≠ Some (new_inode d)).
  { intros n Hl. destruct (Hn n _ Hl) as [g Hg]. congruence. }
  assert (Hname : ∀ n, n ≠ t → names d' !! n = names d !! n) by (intros n Hne; cbn; by rewrite lookup_insert_ne).
  assert (Hnode : ∀ n i, names d !! n = Some i → inodes d' !! i = inodes d !! i).
  { intros n i Hl. cbn. rewrite lookup_insert_ne; [done|]. intros <-. by destruct (Hdead n). }
  split_and!.
  - split.
    + intros i. rewrite Hname by done. intros Hi. destruct (Hc i Hi) as (g & key & Hg & Hr).
      exists g, key. by rewrite (Hnode _ _ Hi).
    + intros n i. destruct (decide (n = t)) as [->|Hne].
      * cbn. rewrite lookup_insert_eq. intros [= <-]. by rewrite lookup_insert_eq.
      * rewrite Hname by done. intros Hl. rewrite (Hnode _ _ Hl). eauto.
  - split.
    + intros n _ _ [i Hl]. apply Hname. congruence.
    + intros i Hi. by rewrite Hname.
    + intros n i Hl _. eauto.
    + intros u i _ _ [Hu Ha]. split; [by rewrite Hname by congruence|]. intros n.
      destruct (decide (n = t)) as [->|Hne]; [cbn; rewrite lookup_insert_eq; intros [= <-]; by destruct (Hdead u)|].
      rewrite Hname by done. apply Ha.
  - split; cbn; [apply lookup_insert_eq|]. intros n. destruct (decide (n = t)) as [->|Hne]; [done|].
    rewrite lookup_insert_ne by done. intros Hl. by destruct (Hdead n).
Qed.
(** Writing to a file under the temporary name only. *)
Lemma with_inode_ok d t i f g : dir_ok d → t ≠ KEY_FILE_NAME → alone d t i → inodes d !! i = Some f →
  dir_ok (with_inode d i g) ∧ leaves (Some t) d (with_inode d i g) ∧ alone (with_inode d i g) t i.
Proof.
  intros [Hc Hn] Hkey [Ht Ha] Hf.
  assert (Hnode : ∀ n j, names d !! n = Some j → n ≠ t → inodes (with_inode d i g) !! j = inodes d !! j).
  { intros n j Hl Hne. cbn. rewrite lookup_insert_ne; [done|]. intros <-. by destruct Hne; apply Ha. }
  split_and!; [split|split|done].
  - intros j Hj. destruct (Hc j Hj) as (h & key & Hh & Hr). exists h, key. by rewrite (Hnode _ _ Hj).
  - intros n j Hl. cbn. destruct (decide (i = j)) as [->|Hne]; [by rewrite lookup_insert_eq|rewrite lookup_insert_ne by done; eauto].
  - done.
  - done.
  - intros n j Hl Hown. apply (Hnode n); congruence.
  - done.
Qed.
(** [os.link]: the key file appears, complete. *)
Lemma link_ok d t i : dir_ok d → t ≠ KEY_FILE_NAME → alone d t i → complete d i → names d !! KEY_FILE_NAME = None →
  let d' := mkDir (<[KEY_FILE_NAME := i]> (names d)) (inodes d) in
  dir_ok d' ∧ leaves (Some t) d d' ∧ names d' !! KEY_FILE_NAME = Some i ∧ names d' !! t = Some i.
Proof.
  intros [Hc Hn] Hkey [Ht Ha] Hcomp Hnone d'.
  assert (Hname : ∀ n, n ≠ KEY_FILE_NAME → names d' !! n = names d !! n) by (intros n Hne; cbn; by rewrite lookup_insert_ne).
  split_and!; [split|split| |].
  - intros j. cbn. rewrite lookup_insert_eq. by intros [= <-].
  - intros n j. destruct (decide (n = KEY_FILE_NAME)) as [->|Hne]; [cbn; rewrite lookup_insert_eq; intros [= <-]; eauto|].
    rewrite Hname by done. eauto.
  - intros n Hne _ _. by apply Hname.
  - intros j Hj. congruence.
  - done.
  - intros u j Hu Hown [Hl Hu']. split; [by rewrite Hname|]. intros n.
    destruct (decide (n = KEY_FILE_NAME)) as [->|Hne]; [|rewrite Hname by done; apply Hu'].
    cbn. rewrite lookup_insert_eq. intros [= ->]. destruct Hown. f_equal. by apply Hu'.
  - cbn. by rewrite lookup_insert_eq.
  - by rewrite Hname.
Qed.
(** [os.unlink] of a temporary name. *)
Lemma unlink_ok d t : dir_ok d → t ≠ KEY_FILE_NAME →
  let d' := mkDir (delete t (names d)) (inodes d) in dir_ok d' ∧ leaves (Some t) d d'.
Proof.
  intros [Hc Hn] Hkey d'.
  assert (Hname : ∀ n, n ≠ t → names d' !! n = names d !! n) by (intros n Hne; cbn; by rewrite lookup_delete_ne).
  assert (Hsub : ∀ n i, names d' !! n = Some i → names d !! n = Some i).
  { intros n i. cbn. rewrite lookup_delete_Some. tauto. }
  split; split.
  - intros i. rewrite Hname by done. apply Hc.
  - intros n i Hl. eauto.
  - intros n _ Hown _. apply Hname. congruence.
  - intros i. by rewrite Hname.
  - done.
  - intros u i _ Hown [Hu Ha]. split; [by rewrite Hname by congruence|]. eauto.
Qed.

(** ** Every system call keeps the invariant *)
Definition step_ok (d : Dir) (ph : Phase) (d' : Dir) (ph' : Phase) : Prop :=
  dir_ok d' ∧ leaves (temp_of ph) d d' ∧ knows d' ph' ∧ temp_ok d' ph' ∧
  ∀ t, temp_of ph' = Some t → temp_of ph = Some t ∨ names d !! t = None.
Lemma step_ok_same d ph ph' : dir_ok d → knows d ph' → temp_ok d ph → temp_of ph' = None ∨ temp_of ph' = temp_of ph → step_ok d ph d ph'.
Proof.
  intros Hd Hk Ht Hsame. split_and!; [done|apply leaves_refl|done|..].
  - intros t Hph. apply Ht. destruct Hsame; congruence.
  - intros t Hph. left. destruct Hsame; congruence.
Qed.
Lemma str_take_drop n s : str_take n s +:+ str_drop n s = s.
Proof. apply chars_inj. unfold str_take, str_drop. rewrite chars_app, !chars_of_chars. apply take_drop. Qed.

Lemma step_make_temp e c d doc d' ph' : dir_ok d → (fails c = true → faulty = true) → knows d (MakingTemp doc) →
  advance passphrase e c d (MakingTemp doc) = Some (d', ph') → step_ok d (MakingTemp doc) d' ph'.
Proof.
  intros Hd Hc Hk. cbn [advance]. destruct (fails c); [intros [= <- <-]; apply step_ok_same; cbn; auto; done|].
  destruct (decide _) as [(Hnew & Hs & He)|]; [|done]. intros [= <- <-].
  assert (Hkey : drawn c ≠ KEY_FILE_NAME) by (intros Heq; rewrite Heq in Hs; by vm_compute in Hs).
  destruct (create_ok d (drawn c) (mkInode "" OWNER_ONLY) Hd Hnew Hkey) as (Hd' & Hl & Ha).
  split_and!; try done.
  - split; [done|]. destruct Hk as [key Hk]. exists (mkInode "" OWNER_ONLY), key. cbn. by rewrite lookup_insert_eq.
  - intros t [= <-]. split; [done|]. destruct Ha as [Ha _]. eauto.
  - intros t [= <-]. by right.
Qed.
Lemma step_write e c d t i rest d' ph' : dir_ok d → (fails c = true → faulty = true) →
  knows d (Writing t i rest) → temp_ok d (Writing t i rest) →
  advance passphrase e c d (Writing t i rest) = Some (d', ph') → step_ok d (Writing t i rest) d' ph'.
Proof.
  intros Hd Hc [Ha (f & key & Hf & Hk & Hm)] Ht. cbn [advance].
  destruct (fails c); [intros [= <- <-]; apply step_ok_same; cbn; auto|].
  destruct (decide _) as [->|_].
  - intros [= <- <-]. rewrite str_app_nil in Hk. apply step_ok_same; cbn; auto. exists i. split; [done|]. by exists f, key.
  - destruct (wrote c) as [|k]; [done|]. rewrite Hf. intros [= <- <-]. destruct (Ht t eq_refl) as [Hkey _].
    edestruct (with_inode_ok d t i f) as (Hd' & Hl & Ha'); eauto. split; [done|split; [done|split; [|split]]].
    + split; [done|]. eexists _, key. cbn. rewrite lookup_insert_eq. split; [done|]. cbn. by rewrite str_app_assoc, str_take_drop.
    + intros u [= <-]. split; [done|]. destruct Ha as [Ha _]. eauto.
    + intros u [= <-]. by left.
Qed.
Lemma step_chmod e c d t d' ph' : dir_ok d → (fails c = true → faulty = true) →
  knows d (Chmodding t) → temp_ok d (Chmodding t) →
  advance passphrase e c d (Chmodding t) = Some (d', ph') → step_ok d (Chmodding t) d' ph'.
Proof.
  intros Hd Hc (i & Ha & f & key & Hf & Hk & Hm) Ht. cbn [advance].
  destruct (fails c); [intros [= <- <-]; apply step_ok_same; cbn; auto|].
  rewrite (proj1 Ha), Hf. intros [= <- <-]. destruct (Ht t eq_refl) as [Hkey _].
  edestruct (with_inode_ok d t i f) as (Hd' & Hl & Ha'); eauto. split; [done|split; [done|split; [|split]]].
  - exists i. split; [done|]. eexists _, key. cbn. by rewrite lookup_insert_eq.
  - intros u [= <-]. split; [done|]. destruct Ha as [Ha _]. eauto.
  - intros u [= <-]. by left.
Qed.
Lemma step_link e c d t d' ph' : dir_ok d → (fails c = true → faulty = true) →
  knows d (Linking t) → temp_ok d (Linking t) →
  advance passphrase e c d (Linking t) = Some (d', ph') → step_ok d (Linking t) d' ph'.
Proof.
  intros Hd Hc (i & Ha & Hcomp) Ht. cbn [advance].
  destruct (fails c); [intros [= <- <-]; apply step_ok_same; cbn; auto|]. destruct (Ht t eq_refl) as [Hkey _].
  destruct (names d !! KEY_FILE_NAME) as [j|] eqn:Hj.
  - intros [= <- <-]. apply step_ok_same; cbn; auto. apply holds_key_complete; eauto.
  - rewrite (proj1 Ha). intros [= <- <-].
    destruct (link_ok d t i Hd Hkey Ha Hcomp Hj) as (Hd' & Hl & Hi & Htmp). split_and!; try done.
    + apply holds_key_complete; eauto.
    + intros u [= <-]. eauto.
    + intros u [= <-]. by left.
Qed.
Lemma step_unlink e c d t pending d' ph' : dir_ok d → (fails c = true → faulty = true) →
  knows d (Unlinking t pending) → temp_ok d (Unlinking t pending) →
  advance passphrase e c d (Unlinking t pending) = Some (d', ph') → step_ok d (Unlinking t pending) d' ph'.
Proof.
  intros Hd Hc Hk Ht. cbn [advance]. destruct (fails c); [intros [= <- <-]; apply step_ok_same; cbn; auto|].
  destruct (Ht t eq_refl) as [Hkey _]. destruct (unlink_ok d t Hd Hkey) as [Hd' Hl].
  intros [= <- <-]. split_and!; try done.
  - destruct pending as [x|]; cbn in *; [done|]. destruct Hk as [key Hk]. exists key.
    apply (holds_key_leaves (Some t) d); [congruence|done..].
  - by destruct pending.
  - by destruct pending.
Qed.
Lemma key_text_loads text key : key_text text key → load_text text passphrase = Ok key.
Proof.
  intros (e & doc & He & Hdoc & -> & ->). destruct (load_created e passphrase He) as (doc' & Hdoc' & Hl). congruence.
Qed.
Lemma advance_ok e c d ph d' ph' : dir_ok d → urandom e → (fails c = true → faulty = true) → knows d ph → temp_ok d ph →
  advance passphrase e c d ph = Some (d', ph') → step_ok d ph d' ph'.
Proof.
  intros Hd He Hc Hk Ht. destruct ph as [| |doc|t i rest|t|t|t|t p| |r].
  - cbn. assert (Hnext : knows d match names d !! KEY_FILE_NAME with Some _ => Reading | None => Generating end).
    { destruct (names d !! KEY_FILE_NAME) eqn:Hn; cbn; [|done]. apply holds_key_complete; eauto. }
    destruct (fails c); [case_decide|]; intros [= <- <-]; apply step_ok_same; cbn; auto; by case_match; auto.
  - cbn. intros [= <- <-]. destruct (load_created e passphrase He) as (doc & Hdoc & _). rewrite Hdoc.
    apply step_ok_same; cbn; auto. by exists (master_key e), e, doc.
  - by apply step_make_temp.
  - by apply step_write.
  - by apply step_chmod.
  - by apply step_link.
  - cbn. intros [= <- <-]. apply step_ok_same; auto. cbn. by destruct (fails c); auto.
  - by apply step_unlink.
  - cbn. intros [= <- <-]. apply step_ok_same; cbn; auto. destruct (fails c); [by auto|].
    destruct Hk as (key & i & f & Hi & Hf & Hk & Hm). rewrite Hi. cbn. rewrite Hf, (key_text_loads _ _ Hk). by exists i, f.
  - done.
Qed.

Lemma first_start_inv s : first_start s → inv s.
Proof.
  intros (Hp & Hk & Hn). split.
  - split; [congruence|done].
  - intros n p. by rewrite Hp.
  - intros n m p q t. by rewrite Hp.
Qed.
Lemma inv_step s s' : system_step passphrase faulty s s' → inv s → inv s'.
Proof.
  intros Hstep [Hd Hk Ht]. destruct Hstep as [n e Hn He|n p c d ph Hn Hc Ha|n].
  - split; cbn; [done| |].
    + intros m p. rewrite lookup_insert_Some. intros [[-> <-]|[_ Hp]]; [|eauto]. by split_and!.
    + intros m m' p q t. rewrite !lookup_insert_Some. intros [[-> <-]|[_ Hp]] [[-> <-]|[_ Hq]]; cbn; try done. eauto.
  - destruct (Hk _ _ Hn) as (He & Hkp & Htp).
    destruct (advance_ok _ _ _ _ _ _ Hd He Hc Hkp Htp Ha) as (Hd' & Hl & Hk' & Ht' & Hnew). split; cbn; [done| |].
    + intros m q. rewrite lookup_insert_Some. intros [[-> <-]|[Hne Hq]]; [done|].
      destruct (Hk _ _ Hq) as (Heq & Hkq & Htq). split; [done|]. eapply (knows_leaves _ (dir s)); eauto.
      intros Heq'. by destruct (Htp _ Heq').
    + assert (Hother : ∀ m q t, n ≠ m → procs s !! m = Some q → temp_of (phase q) = Some t → temp_of ph ≠ Some t).
      { intros m q t Hne Hq Hqt Hpt. destruct (Hnew t Hpt) as [Hold|Hnone]; [by destruct Hne; eapply Ht|].
        destruct (Hk _ _ Hq) as (_ & _ & Htq). destruct (Htq t Hqt) as [_ [i Hi]]. congruence. }
      intros m m' p1 p2 t. rewrite !lookup_insert_Some.
      intros [[-> <-]|[Hne Hp]] [[-> <-]|[Hne' Hq]] H1 H2; [done|..]; cbn in *.
      * by destruct (Hother m' p2 t).
      * by destruct (Hother m p1 t).
      * eauto.
  - split; cbn; [done| |].
    + intros m p. rewrite lookup_delete_Some. intros [_ Hp]. eauto.
    + intros m m' p q t. rewrite !lookup_delete_Some. intros [_ Hp] [_ Hq]. eauto.
Qed.
Lemma inv_reachable s0 s : first_start s0 → reachable passphrase faulty s0 s → inv s.
Proof. 
  intros H0 H. unfold reachable in H.
  apply (rtc_ind_r inv s0) in H; eauto using first_start_inv, inv_step.
Qed.
Lemma holds_key_unique d k k' : holds_key d k → holds_key d k' → k = k'.
Proof.
  intros (i & f & Hi & Hf & Hk & _) (i' & f' & Hi' & Hf' & Hk' & _).
  assert (i = i') as <- by congruence. assert (f = f') as <- by congruence.
  apply key_text_loads in Hk, Hk'. congruence.
Qed.
End invariant.

(** ** Termination *)
Section progress.
Context {C : Ciphers} (passphrase : option string).

(** How many calls are left, at one byte per write. *)
Definition doc_length (e : Entropy) : nat :=
  match new_doc e passphrase with Ok doc => length (chars (dumps doc)) | Raise _ => O end.
Definition calls_left (e : Entropy) (ph : Phase) : nat :=
  match ph with
  | Checking => 10 + doc_length e
  | Generating => 9 + doc_length e
  | MakingTemp doc => 8 + length (chars (dumps doc))
  | Writing _ _ rest => 7 + length (chars rest)
  | Chmodding _ => 6 | Linking _ => 5 | Syncing _ => 4 | Unlinking _ _ => 3 | Reading => 2 | Finished _ => O
  end.
Lemma str_drop_shorter n s : s ≠ "" → (length (chars (str_drop (S n) s)) < length (chars s))%nat.
Proof. intros Hs. unfold str_drop. rewrite chars_of_chars. destruct s; [done|]. cbn. rewrite length_drop. unfold chars. lia. Qed.
Lemma advance_shrinks e c d ph d' ph' : advance passphrase e c d ph = Some (d', ph') →
  (calls_left e ph' < calls_left e ph)%nat.
Proof.
  unfold advance, calls_left, doc_length. intros H.
  destruct ph; repeat case_match; simplify_eq; try lia.
  match goal with H : ?r ≠ "" |- (_ + length (chars (str_drop (S ?k) _)) < _)%nat => pose proof (str_drop_shorter k r H) end. lia.
Qed.
Lemma names_bounded (X : gset string) : ∃ b, ∀ n, n ∈ X → (String.length n ≤ b)%nat.
Proof.
  induction X as [|x X _ [b IH]] using set_ind_L; [exists O; set_solver|].
  exists (String.length x + b)%nat. intros n [->%elem_of_singleton|Hn]%elem_of_union; [lia|]. specialize (IH n Hn). lia.
Qed.
Lemma temp_name_free (d : Dir) : ∃ t, names d !! t = None ∧ startswith t ".secret.key." = true ∧ endswith t ".tmp" = true.
Proof.
  destruct (names_bounded (dom (names d))) as [b Hb].
  exists (".secret.key." +:+ of_chars (replicate b "x"%char) +:+ ".tmp"). split_and!.
  - apply (not_elem_of_dom (D := gset string)). intros Hin. specialize (Hb _ Hin).
    assert (Hl : ∀ s, String.length s = length (chars s)) by (induction s; cbn; [done|by f_equal]).
    rewrite Hl, !chars_app, chars_of_chars, !length_app, length_replicate in Hb. cbn in Hb. lia.
  - rewrite startswith_spec. eauto.
  - rewrite endswith_spec. exists (".secret.key." +:+ of_chars (replicate b "x"%char)). by rewrite str_app_assoc.
Qed.
(** As long as no call fails there is a next step. *)
Lemma advance_enabled faulty e d ph : knows passphrase faulty d ph → (∀ r, ph ≠ Finished r) →
  ∃ c d' ph', fails c = false ∧ advance passphrase e c d ph = Some (d', ph').
Proof.
  intros Hk Hph. destruct (temp_name_free d) as (t & Hnew & Hs & He). exists (mkChoice false t 1).
  destruct ph as [| |doc|u i rest|u|u|u|u p| |r]; cbn [advance fails drawn wrote]; eauto 6.
  - rewrite decide_True by done. eauto.
  - case_decide; [by eauto|]. destruct Hk as [_ (f & key & Hf & _)]. rewrite Hf. eauto.
  - destruct Hk as (i & [Ht _] & f & key & Hf & _). rewrite Ht, Hf. eauto.
  - repeat case_match; eauto.
  - by destruct (Hph r).
Qed.
End progress.

(** ** An executable schedule *)
Inductive Happening := Start (n : nat) (e : Entropy) | Call (n : nat) (c : Choice) | Kill (n : nat).
Section schedule.
Context {C : Ciphers} (passphrase : option string).
#[local] Instance urandom_dec e : Decision (urandom e).
Proof. unfold urandom. apply _. Defined.
Definition happen (s : System) (h : Happening) : option System :=
  match h with
  | Start n e =>
      if decide (procs s !! n = None ∧ urandom e) then Some (mkSystem (dir s) (<[n := mkProcess e Checking]> (procs s))) else None
  | Call n c =>
      p ← procs s !! n; '(d, ph) ← advance passphrase (entropy p) c (dir s) (phase p);
      Some (mkSystem d (<[n := mkProcess (entropy p) ph]> (procs s)))
  | Kill n => Some (mkSystem (dir s) (delete n (procs s)))
  end.
Fixpoint happens (s : System) (l : list Happening) : option System :=
  match l with [] => Some s | h :: l => s ← happen s h; happens s l end.
Lemma happens_reachable l : ∀ s s', happens s l = Some s' → reachable passphrase true s s'.
Proof.
  induction l as [|h l IH]; intros s s'; cbn; [intros [= <-]; apply rtc_refl|].
  destruct (happen s h) as [s1|] eqn:Hh; cbn; [|done]. intros Hl. apply rtc_l with s1; [|by apply IH].
  destruct h as [n e|n c|n]; cbn in Hh.
  - destruct (decide _) as [[Hn He]|]; [|done]. injection Hh as <-. by constructor.
  - destruct (procs s !! n) as [p|] eqn:Hp; cbn in Hh; [|done].
    destruct (advance _ _ _ _ _) as [[d ph]|] eqn:Ha; cbn in Hh; [|done]. injection Hh as <-. by eapply step_advance.
  - injection Hh as <-. constructor.
Qed.
End schedule.

(** ** The contract *)
Section contract.
Context {C : Ciphers}.

(** C15: one master key. Processes of one configuration start in a directory
    without a key file, as many as there are, interleaved in any way, any of
    their system calls failing, any of them killed at any point. Every one
    that gets a store gets the same master key, the one the key file holds;
    and whenever the key file is there it is whole, readable by its owner
    only, and says the key some process drew. *)
Theorem one_master_key passphrase s0 s : first_start s0 → reachable passphrase true s0 s →
  (∀ n m p q key key', procs s !! n = Some p → procs s !! m = Some q →
    phase p = Finished (Ok key) → phase q = Finished (Ok key') → key = key') ∧
  (∀ n p key, procs s !! n = Some p → phase p = Finished (Ok key) → holds_key passphrase (dir s) key) ∧
  (∀ i, names (dir s) !! KEY_FILE_NAME = Some i → ∃ f e doc, inodes (dir s) !! i = Some f ∧ file_mode f = OWNER_ONLY ∧
    urandom e ∧ new_doc e passphrase = Ok doc ∧ file_text f = dumps doc ∧ load_text (file_text f) passphrase = Ok (master_key e)).
Proof.
  intros H0 H. apply (inv_reachable _ _ _ _ H0) in H as [Hd Hk _].
  assert (Hfin : ∀ n p key, procs s !! n = Some p → phase p = Finished (Ok key) → holds_key passphrase (dir s) key).
  { intros n p key Hp Hph. destruct (Hk _ _ Hp) as (_ & Hkp & _). by rewrite Hph in Hkp. }
  split_and!; [|done|].
  - intros n m p q key key' Hp Hq Hph Hqh. eauto using holds_key_unique.
  - intros i Hi. destruct (key_file_complete _ _ Hd i Hi) as (f & key & Hf & Ht & Hm).
    pose proof (key_text_loads _ _ _ Ht) as Hload. destruct Ht as (e & doc & He & Hdoc & Htext & ->). by exists f, e, doc.
Qed.

(** C39: starting ends, with a key. When no call fails, a process that has
    not finished can always make its next call, however the others
    interleave, every call it makes brings it nearer to the end, and a
    process that has finished has the master key. *)
Theorem start_terminates passphrase s0 s n p : first_start s0 → reachable passphrase false s0 s → procs s !! n = Some p →
  (∃ key, phase p = Finished (Ok key) ∧ holds_key passphrase (dir s) key) ∨
  (∃ c d ph, fails c = false ∧ advance passphrase (entropy p) c (dir s) (phase p) = Some (d, ph)) ∧
  (∀ c d ph, advance passphrase (entropy p) c (dir s) (phase p) = Some (d, ph) →
    (calls_left passphrase (entropy p) ph < calls_left passphrase (entropy p) (phase p))%nat).
Proof.
  intros H0 H Hp. apply (inv_reachable _ _ _ _ H0) in H as [_ Hk _]. destruct (Hk _ _ Hp) as (_ & Hkp & _).
  destruct (phase p) as [| | | | | | | | |[key|x]] eqn:Hph; try (right; split;
    [eapply advance_enabled; [exact Hkp|done]|intros c d ph; apply advance_shrinks]).
  left. eauto.
Qed.
End contract.

(** ** Concrete checks *)
Module KeyFileExamples.
#[local] Existing Instance ToyCiphers.ciphers.
Definition draw (c : ascii) : Entropy :=
  mkEntropy (of_chars (replicate 32 c)) (of_chars (replicate 16 c)) (of_chars (replicate 12 c)).
Definition empty : System := mkSystem (mkDir ∅ ∅) ∅.
Definition ok (name : string) : Choice := mkChoice false name 1000.
Definition call (n : nat) : Happening := Call n (ok (if decide (n = 1)%nat then ".secret.key.one.tmp" else ".secret.key.two.tmp")).
(** The second process looks before the first has linked and links after it;
    a third is killed in the middle of its writing. *)
Definition race : list Happening :=
  [Start 1 (draw "a"); Start 2 (draw "b"); Start 3 (draw "c"); call 1; call 2; Call 3 (ok ""); call 1; call 2; Call 3 (ok "");
   Call 3 (mkChoice false ".secret.key.x.tmp" 0); Call 3 (mkChoice false "" 7); Kill 3]
  ++ repeat (call 1) 3 ++ repeat (call 2) 3 ++ repeat (call 1) 5 ++ repeat (call 2) 5.
Definition final : System := default empty (happens (Some "hunter2") empty race).
Definition result (n : nat) : option Phase := phase <$> procs final !! n.
Example raced : result 1 = Some (Finished (Ok (of_chars (replicate 32 "a"%char)))) ∧ result 2 = result 1 ∧ result 3 = None ∧
  map fst (map_to_list (names (dir final))) = ["secret.key"; ".secret.key.x.tmp"].
Proof. vm_compute. repeat split. Qed.
Lemma empty_first : first_start empty.
Proof. repeat split. intros n i. cbn. by rewrite lookup_empty. Qed.
Lemma raced_reachable : reachable (Some "hunter2") true empty final.
Proof.
  assert (H : is_Some (happens (Some "hunter2") empty race)) by (vm_compute; eexists; reflexivity).
  destruct H as [s Hs]. unfold final. rewrite Hs. by apply (happens_reachable _ race).
Qed.
Lemma one_master_key_witness : ∃ p q key key', procs final !! 1%nat = Some p ∧ procs final !! 2%nat = Some q ∧
  phase p = Finished (Ok key) ∧ phase q = Finished (Ok key') ∧ key = key'.
Proof.
  assert (H : ∃ p q key key', procs final !! 1%nat = Some p ∧ procs final !! 2%nat = Some q ∧
    phase p = Finished (Ok key) ∧ phase q = Finished (Ok key')) by (vm_compute; do 4 eexists; repeat split).
  destruct H as (p & q & key & key' & Hp & Hq & Hph & Hqh). exists p, q, key, key'.
  pose proof (one_master_key (Some "hunter2") empty final empty_first raced_reachable) as [Hone _].
  repeat (split; [assumption|]). exact (Hone 1%nat 2%nat p q key key' Hp Hq Hph Hqh).
Defined.
(** A process at its first call. *)
Definition started : System := mkSystem (dir empty) (<[1%nat := mkProcess (draw "a") Checking]> (procs empty)).
Lemma start_terminates_witness : ∃ c d ph, fails c = false ∧
  advance (Some "hunter2") (draw "a") c (dir started) Checking = Some (d, ph).
Proof.
  assert (H : reachable (Some "hunter2") false empty started).
  { apply rtc_once. apply step_start; [reflexivity|split; [|split]; reflexivity]. }
  destruct (start_terminates (Some "hunter2") empty started 1 (mkProcess (draw "a") Checking) empty_first H eq_refl)
    as [(key & Hf & _)|[He _]]; [discriminate Hf|exact He].
Defined.
End KeyFileExamples.
