(* ===== verification/BaseUrl.v ===== *)
(** * [cabin.settings.validate_base_url] and the port check

    The public origin an operator configures: what is accepted, in which form
    it is stored, and that the form stored reads back as itself when the URLs
    of a certificate are built from it ([leaf.public_http_origin]). *)

From S2P Require Import Prelude PyStr IPAddr Url X509Lib X509 Leaf.
#[local] Open Scope Z_scope.

(** ** [urllib.parse.urlparse] *)
Definition uses_params : list string :=
  [""; "ftp"; "hdl"; "prospero"; "http"; "imap"; "https"; "shttp"; "rtsp"; "rtsps"; "rtspu"; "sip"; "sips"; "mms"; "sftp"; "tel"].
(** The first half of [_splitparams]: the last segment is cut at its first
    semicolon. *)
Definition without_params (l : list ascii) : list ascii :=
  let segment := after_last "/" l in
  take (length l - length segment) l ++ fst (fst (partition_chars ";" segment)).
(** [urlparse(url)], its [params] left out. *)
Definition urlparse (url : string) : Outcome SplitResult :=
  u ← urlsplit url;
  mret (if bool_decide (scheme u ∈ uses_params) && contains ";" (path u)
        then mkSplit (scheme u) (netloc u) (of_chars (without_params (chars (path u)))) (query u) (fragment u)
        else u).

(** ** [settings.py] *)
Definition validate_base_url (raw : string) : Outcome string :=
  let value := strip raw in
  if decide (value = "") then mret "" else
  _ ← raise_if (has_space value) (SettingError "the base URL must not contain whitespace");
  parsed ← urlparse value;
  _ ← raise_if (bool_decide (lower (scheme parsed) ∉ ["http"; "https"]))
        (SettingError "the base URL must be absolute and start with http:// or https://");
  _ ← raise_if (bool_decide (netloc parsed = "")) (SettingError "the base URL must include a host");
  _ ← raise_if (contains "@" (netloc parsed)) (SettingError "the base URL must not contain a username or password");
  _ ← raise_if (contains "\" (netloc parsed)) (SettingError "the base URL's host must not contain a backslash");
  let canonical := urlunsplit_full (lower (scheme parsed)) (lower (netloc parsed)) (path parsed) "" in
  _ ← raise_if (endswith canonical "/") (SettingError "the base URL must not end with a slash");
  mret canonical.

Definition validate_base_url_port_for_tls (base_url : string) (tls : bool) : Outcome unit :=
  if negb tls || bool_decide (base_url = "") then mret () else
  u ← urlparse base_url;
  port ← url_port u;
  match port with
  | Some port => raise_if (negb (port =? 443))
      (SettingError ("the base URL must not name a port other than 443 while TLS is on (got :" +:+ str_of_Z port +:+
        "): with TLS on, that port is cabin's TLS listener, and the CRL/CA-certificate URLs baked into new certificates would point at it instead of the plaintext PKI listener"))
  | None => mret ()
  end.

Example accepted : map validate_base_url ["  HTTPS://CA.Example.ORG:8443/Cabin  "; "http://h?q/#f/"; "https://h/a;b/c;d"; ""; "https://[::1]/x"] =
  map Ok ["https://ca.example.org:8443/Cabin"; "http://h"; "https://h/a;b/c"; ""; "https://[::1]/x"].
Proof. vm_compute. reflexivity. Qed.
Example refused : map (λ u, is_ok (validate_base_url u))
  ["https://h/"; "https://h/;p"; "ftp://h"; "https:/h"; "https://u@h"; "https://a b"; "https://h\@e"; "h"; "https://"] =
  [false; false; false; false; false; false; false; false; false].
Proof. vm_compute. reflexivity. Qed.
(** Two values the checks do not foresee: a bracket that is not closed leaves
    with the exception of [urlsplit], and a port that is no number passes. *)
Example escapes : validate_base_url "http://[" = Raise (ValueError "Invalid IPv6 URL").
Proof. vm_compute. reflexivity. Qed.
Example port_not_read : validate_base_url "https://h:80443" = Ok "https://h:80443" ∧
  validate_base_url "https://h:x" = Ok "https://h:x" ∧ public_http_origin "https://h:x" = Ok "http://h:x" ∧
  validate_base_url_port_for_tls "https://h:x" true = Raise (ValueError "Port could not be cast to integer value as 'x'").
Proof. vm_compute. repeat split. Qed.

(** ** Lemmas on [urlsplit] *)
Definition is_netloc (l : list ascii) : bool := forallb (λ c, negb (is_netloc_end c)) l.
(** A path as [urlsplit] returns it after a host: empty or absolute, no query
    and no fragment. *)
Definition is_path (l : list ascii) : bool :=
  match l with [] => true | c :: _ => (code c =? 47)%N end && forallb (λ c, negb ((code c =? 63)%N || (code c =? 35)%N)) l.
Definition no_space (l : list ascii) : bool := forallb (λ c, negb (is_space c)) l.

Lemma has_space_no_space s : has_space s = false ↔ no_space (chars s) = true.
Proof.
  unfold has_space, no_space. induction (chars s) as [|c l IH]; cbn; [done|].
  rewrite orb_false_iff, andb_true_iff, negb_true_iff. by rewrite IH.
Qed.
Lemma no_space_app l l' : no_space (l ++ l') = no_space l && no_space l'.
Proof. apply forallb_app. Qed.
Lemma forallb_sublist {A} (p : A → bool) l l' : l ⊆ l' → forallb p l' = true → forallb p l = true.
Proof. intros Hs. rewrite !forallb_elem. auto. Qed.
Lemma partition_chars_none c l : has_char c l = false → partition_chars c l = (l, false, []).
Proof.
  unfold has_char. induction l as [|d l IH]; cbn; [done|]. intros [Hd Hl]%orb_false_iff.
  rewrite bool_decide_eq_false in Hd. rewrite bool_decide_eq_false_2 by congruence. by rewrite IH.
Qed.
Lemma partition_chars_spec c l a f b : partition_chars c l = (a, f, b) → has_char c a = false ∧ a `prefix_of` l.
Proof.
  revert a f b. induction l as [|d l IH]; intros a f b; cbn; [by intros [= <- <- <-]|].
  case_bool_decide as Hd; [intros [= <- <- <-]; split; [done|apply prefix_nil]|].
  destruct (partition_chars c l) as [[a' f'] b'] eqn:Hp. intros [= <- <- <-]. destruct (IH _ _ _ eq_refl) as [Ha Hpre].
  split; [|by apply prefix_cons]. unfold has_char in *. cbn. by rewrite Ha, bool_decide_eq_false_2.
Qed.
Lemma split_netloc_spec l a b : split_netloc l = (a, b) →
  l = a ++ b ∧ is_netloc a = true ∧ match b with [] => True | c :: _ => is_netloc_end c = true end.
Proof.
  revert a b. induction l as [|c l IH]; intros a b; cbn; [by intros [= <- <-]|].
  destruct (is_netloc_end c) eqn:Hc; [by intros [= <- <-]|].
  destruct (split_netloc l) as [a' b']. intros [= <- <-]. destruct (IH _ _ eq_refl) as (-> & Ha & Hb).
  split_and!; [done| |done]. cbn. by rewrite Hc.
Qed.
Lemma split_netloc_app a b : is_netloc a = true → is_path b = true → split_netloc (a ++ b) = (a, b).
Proof.
  intros Ha Hb. induction a as [|c a IH]; cbn in *.
  - destruct b as [|c b]; [done|]. unfold is_path in Hb. apply andb_true_iff in Hb as [Hc _]. cbn.
    unfold is_netloc_end. by rewrite Hc.
  - apply andb_true_iff in Ha as [Hc Ha]. apply negb_true_iff in Hc. by rewrite Hc, IH.
Qed.
Lemma prefix_head {A} (a l : list A) : a `prefix_of` l → a = [] ∨ head a = head l.
Proof. intros [k ->]. destruct a; auto. Qed.
Lemma has_char_code c l : has_char c l = existsb (λ d, (code d =? code c)%N) l.
Proof.
  unfold has_char. induction l as [|d l IH]; cbn; [done|]. rewrite IH. f_equal. apply eq_true_iff_eq.
  rewrite bool_decide_eq_true, N.eqb_eq. split; [by intros ->|]. unfold code. intros He.
  by rewrite <- (ascii_N_embedding d), He, ascii_N_embedding.
Qed.
Lemma no_char {A} (p : A → bool) l : forallb (λ c, negb (p c)) l = negb (existsb p l).
Proof. induction l as [|c l IH]; cbn; [done|]. by rewrite IH, negb_orb. Qed.
Lemma is_path_chars l : is_path l = true ↔
  match l with [] => True | c :: _ => (code c =? 47)%N = true end ∧ has_char "?" l = false ∧ has_char "#" l = false.
Proof.
  unfold is_path. rewrite andb_true_iff, !has_char_code, no_char, negb_true_iff.
  assert (Hor : existsb (λ c, (code c =? 63)%N || (code c =? 35)%N) l = existsb (λ c, (code c =? 63)%N) l || existsb (λ c, (code c =? 35)%N) l).
  { induction l as [|c l IH]; cbn; [done|]. rewrite IH.
    destruct (code c =? 63)%N, (code c =? 35)%N, (existsb (λ c, (code c =? 63)%N) l), (existsb (λ c, (code c =? 35)%N) l); done. }
  rewrite Hor, orb_false_iff. by destruct l.
Qed.
Lemma has_char_prefix c a l : a `prefix_of` l → has_char c l = false → has_char c a = false.
Proof. intros [k ->]. unfold has_char. rewrite existsb_app. by intros [? _]%orb_false_iff. Qed.
Lemma clean_url_id c l : is_c0_or_space c = false → no_space (c :: l) = true → clean_url (c :: l) = c :: l.
Proof.
  intros Hc Hs. unfold clean_url. cbn [drop_while]. rewrite Hc.
  assert (Hb : ∀ d, is_space d = false → is_unsafe_byte d = false) by (intros [[] [] [] [] [] [] [] []]; by vm_compute).
  generalize dependent (c :: l). clear c l Hc. intros l Hs. induction l as [|d l IH]; [done|].
  cbn in *. apply andb_true_iff in Hs as [Hd Hs]. apply negb_true_iff in Hd. by rewrite (Hb d Hd), IH.
Qed.
Lemma no_space_clean l : no_space l = true → no_space (clean_url l) = true.
Proof.
  apply forallb_sublist. unfold clean_url. intros c. rewrite list_elem_of_In, List.filter_In. intros [Hc _]. revert Hc.
  rewrite <- list_elem_of_In. induction l as [|d l IH]; cbn; [done|]. case_match; [|done].
  intros Hc. apply elem_of_cons. auto.
Qed.
Lemma split_scheme_suffix l : ∃ k, l = k ++ snd (split_scheme l).
Proof.
  unfold split_scheme. destruct (partition_chars ":" l) as [[a f] b] eqn:Hp.
  assert (Hb : ∃ k, l = k ++ b).
  { clear -Hp. revert a f b Hp. induction l as [|d l IH]; intros a f b; cbn; [intros [= <- <- <-]; by exists []|].
    case_bool_decide; [intros [= <- <- <-]; by exists [d]|]. destruct (partition_chars ":" l) as [[a' f'] b'].
    intros [= <- <- <-]. destruct (IH _ _ _ eq_refl) as [k ->]. by exists (d :: k). }
  destruct a as [|c a]; [by exists []|]. case_match; [done|by exists []].
Qed.
Lemma has_space_parts (a b : list ascii) : no_space (a ++ b) = true → no_space a = true ∧ no_space b = true.
Proof. rewrite no_space_app. apply andb_true_iff. Qed.

(** What [urlsplit] takes apart ... *)
Lemma urlsplit_sound url u : no_space (chars url) = true → urlsplit url = Ok u → netloc u ≠ "" →
  is_netloc (chars (netloc u)) = true ∧ is_path (chars (path u)) = true ∧
  no_space (chars (netloc u)) = true ∧ no_space (chars (path u)) = true.
Proof.
  intros Hs%no_space_clean. unfold urlsplit. destruct (split_scheme_suffix (clean_url (chars url))) as [k Hk].
  destruct (split_scheme _) as [sch rest] eqn:Hsch. cbn [snd] in Hk. rewrite Hk in Hs. apply has_space_parts in Hs as [_ Hs].
  assert (Hcase : (∃ r, rest = ("/" :: "/" :: r)%char) ∨ (match rest with
    | "/"%char :: "/"%char :: r => let '(n, r) := split_netloc r in check_netloc n ≫= λ _, mret (n, r)
    | _ => mret ([], rest) end = Ok ([], rest))).
  { repeat case_match; eauto. }
  destruct Hcase as [[r ->]| ->]; [|cbn; repeat case_match; intros [= <-]; cbn; done].
  destruct (split_netloc r) as [n r'] eqn:Hr. apply split_netloc_spec in Hr as (-> & Hn & Hr').
  destruct (check_netloc n) as [[]|]; cbn; [|done].
  destruct (partition_chars "#" r') as [[a f] fr] eqn:H1. destruct (partition_chars "?" a) as [[p f'] q] eqn:H2.
  intros [= <-] _. cbn [netloc path]. rewrite !chars_of_chars.
  destruct (partition_chars_spec _ _ _ _ _ H1) as [Ha Hpa]. destruct (partition_chars_spec _ _ _ _ _ H2) as [Hp Hpp].
  cbn in Hs. apply has_space_parts in Hs as [Hsn Hsr]. split_and!; [done| |done|].
  - apply is_path_chars. split_and!; [|done|by eapply has_char_prefix].
    destruct p as [|c p]; [done|]. destruct (prefix_head _ _ Hpp) as [|Hh]; [done|]. destruct a as [|c' a]; [done|].
    injection Hh as ->. destruct (prefix_head _ _ Hpa) as [|Hh]; [done|]. destruct r' as [|c r']; [done|]. injection Hh as ->.
    unfold is_netloc_end in Hr'. rewrite has_char_code in Ha, Hp. cbn [existsb] in Ha, Hp.
    apply orb_false_iff in Ha as [Ha _]. apply orb_false_iff in Hp as [Hp _].
    change (code "#"%char) with 35%N in Ha. change (code "?"%char) with 63%N in Hp. rewrite Ha, Hp, !orb_false_r in Hr'. done.
  - destruct (transitivity Hpp Hpa) as [k' ->]. by apply has_space_parts in Hsr as [? _].
Qed.
(** ... and puts together again. *)
Lemma urlsplit_complete s n p : s ∈ ["http"; "https"] → n ≠ [] → is_netloc n = true → is_path p = true →
  no_space n = true → no_space p = true → 
  urlsplit (s +:+ "://" +:+ of_chars n +:+ of_chars p) = check_netloc n ≫= λ _, Ok (mkSplit s (of_chars n) (of_chars p) "" "").
Proof.
  intros Hs Hne Hn Hp Hsn Hsp. unfold urlsplit. rewrite !chars_app, !chars_of_chars.
  apply is_path_chars in Hp as Hpc. destruct Hpc as (_ & Hq & Hf).
  assert (Hall : no_space (n ++ p) = true) by by rewrite no_space_app, Hsn.
  rewrite !elem_of_cons, elem_of_nil in Hs. destruct Hs as [-> | [-> |[]]].
  all: change (chars "://") with (":" :: "/" :: ["/"])%char.
  1: change (chars "http") with ("h" :: ["t"; "t"; "p"])%char.
  2: change (chars "https") with ("h" :: ["t"; "t"; "p"; "s"])%char.
  all: cbn [app]; rewrite clean_url_id by (done || cbn; done).
  1: change (split_scheme _) with (chars "http", ("/" :: "/" :: n ++ p)%char).
  2: change (split_scheme _) with (chars "https", ("/" :: "/" :: n ++ p)%char).
  all: cbn iota beta; rewrite split_netloc_app by done; destruct (check_netloc n); cbn [mbind Outcome_bind mret Outcome_ret]; [|done];
    rewrite (partition_chars_none "#"), (partition_chars_none "?") by done; reflexivity.
Qed.

(** ** Lemmas on the path *)
Lemma after_last_spec c l : ((c ∉ l) ∧ after_last c l = l) ∨ (∃ x, l = x ++ c :: after_last c l ∧ (c ∉ after_last c l)).
Proof.
  induction l as [|d l IH]; [left; split; [apply not_elem_of_nil|done]|].
  unfold after_last in *. cbn [split_chars]. case_bool_decide as Hd.
  - subst d. right. destruct IH as [[Hc He]|(x & He & Hc)].
    + exists []. rewrite split_no_sep in * by done. by rewrite last_cons.
    + exists (c :: x). rewrite last_cons. pose proof (split_chars_nonnil c l) as Hn.
      apply last_is_Some in Hn as [w Hw]. rewrite Hw in *. cbn in *. by rewrite <- He.
  - destruct IH as [[Hc He]|(x & He & Hc)].
    + left. rewrite split_no_sep by done. split; [by rewrite not_elem_of_cons|done].
    + right. exists (d :: x). assert (Hin : c ∈ l) by (rewrite He; set_solver).
      destruct (split_chars c l) as [|w [|w' ws]] eqn:Hs.
      * by apply split_chars_nonnil in Hs.
      * exfalso. pose proof (split_chars_no_sep c l) as Hf. rewrite Hs, list.Forall_singleton in Hf.
        apply Hf. assert (Hl : l = w); [|by rewrite <- Hl].
        apply (split_chars_inj c). by rewrite Hs, split_no_sep.
      * cbn in *. by rewrite <- He.
Qed.
Lemma after_last_cut c x y : c ∉ y → after_last c (x ++ c :: y) = y.
Proof. intros Hy. unfold after_last. rewrite split_chars_app, (split_no_sep c y) by done. by rewrite last_snoc. Qed.
Lemma has_char_elem c l : has_char c l = false ↔ c ∉ l.
Proof.
  unfold has_char. induction l as [|d l IH]; cbn; [by split; intros; [apply not_elem_of_nil|]|].
  rewrite orb_false_iff, IH, bool_decide_eq_false, not_elem_of_cons. naive_solver.
Qed.
Lemma without_params_shape x y : "/"%char ∉ y → without_params (x ++ "/"%char :: y) = x ++ "/"%char :: fst (fst (partition_chars ";" y)).
Proof.
  intros Hy. unfold without_params. rewrite after_last_cut by done. rewrite length_app. cbn [length].
  replace (length x + S (length y) - length y)%nat with (length (x ++ ["/"%char])) by (rewrite length_app; cbn; lia).
  replace (x ++ "/"%char :: y) with ((x ++ ["/"%char]) ++ y) by by rewrite <- (assoc (++)).
  by rewrite take_app_length, <- (assoc (++)).
Qed.
(** What is left of an absolute path is a path with nothing more to cut. *)
Lemma without_params_ok l : is_path l = true → no_space l = true → l ≠ [] →
  is_path (without_params l) = true ∧ no_space (without_params l) = true ∧ without_params (without_params l) = without_params l.
Proof.
  intros Hp Hs Hne. destruct (after_last_spec "/" l) as [[Hno _]|(x & Hl & Hy)].
  - exfalso. destruct l as [|c l]; [done|]. apply is_path_chars in Hp as [Hc _]. apply N.eqb_eq in Hc.
    apply Hno. rewrite elem_of_cons. left. rewrite <- (ascii_N_embedding c). unfold code in Hc. by rewrite Hc.
  - remember (after_last "/" l) as y. clear Heqy. subst l. rewrite without_params_shape by done.
    destruct (partition_chars ";" y) as [[z f] w] eqn:Hz. cbn [fst]. destruct (partition_chars_spec _ _ _ _ _ Hz) as [Hsemi Hpre].
    assert (Hpre' : x ++ "/"%char :: z `prefix_of` x ++ "/"%char :: y) by by apply prefix_app, prefix_cons.
    split_and!.
    + apply is_path_chars. apply is_path_chars in Hp as (Hh & Hq & Hf). split_and!; [|by eapply has_char_prefix..].
      by destruct x.
    + destruct Hpre' as [k' Hk]. rewrite Hk in Hs. by apply has_space_parts in Hs as [? _].
    + assert (Hzy : "/"%char ∉ z) by (destruct Hpre as [k' ->]; set_solver).
      rewrite without_params_shape by done. by rewrite partition_chars_none.
Qed.

(** ** Lemmas on case *)
(** Lowering a character keeps it in or out of the characters that matter. *)
Lemma lower_char_keeps c : is_netloc_end (lower_char c) = is_netloc_end c ∧ is_space (lower_char c) = is_space c ∧
  bool_decide (lower_char c = "@"%char) = bool_decide (c = "@"%char) ∧ bool_decide (lower_char c = "\"%char) = bool_decide (c = "\"%char).
Proof. destruct c as [[] [] [] [] [] [] [] []]; vm_compute; repeat split. Qed.
Lemma existsb_map_same {A} (p : A → bool) (f : A → A) l : (∀ a, p (f a) = p a) → existsb p (map f l) = existsb p l.
Proof. intros Hf. induction l as [|a l IH]; cbn; [done|]. by rewrite Hf, IH. Qed.
Lemma lower_host n : is_netloc (chars n) = true → no_space (chars n) = true → n ≠ "" →
  is_netloc (chars (lower n)) = true ∧ no_space (chars (lower n)) = true ∧ lower n ≠ "" ∧
  contains "@" (lower n) = contains "@" n ∧ contains "\" (lower n) = contains "\" n.
Proof.
  unfold is_netloc, no_space, contains, lower. rewrite chars_of_chars, !no_char, !negb_true_iff. intros Hn Hs Hne.
  assert (Hk := lower_char_keeps). split_and!.
  - rewrite existsb_map_same; [done|]. apply Hk.
  - rewrite existsb_map_same; [done|]. apply Hk.
  - intros He. apply Hne. apply chars_inj. apply (f_equal chars) in He. rewrite chars_of_chars in He. by apply fmap_nil_inv in He.
  - rewrite existsb_map_same; [done|]. apply Hk.
  - rewrite existsb_map_same; [done|]. apply Hk.
Qed.
Lemma strip_id s : has_space s = false → strip s = s.
Proof.
  rewrite has_space_no_space. intros Hs. unfold strip, strip_chars.
  assert (Hd : ∀ l, no_space l = true → drop_while is_space l = l).
  { intros [|c l]; cbn; [done|]. intros [Hc _]%andb_true_iff. apply negb_true_iff in Hc. by rewrite Hc. }
  rewrite (Hd (chars s)) by done. rewrite Hd; [by rewrite rev_involutive, of_chars_chars|].
  eapply forallb_sublist; [|exact Hs]. intros c. rewrite !list_elem_of_In. by rewrite <- in_rev.
Qed.

(** ** Correctness *)
(** The canonical form: the parts of a stored base URL. *)
Record canonical (s n p : string) : Prop := {
  canonical_scheme : s ∈ ["http"; "https"];
  canonical_host : n ≠ "" ∧ is_netloc (chars n) = true ∧ lower n = n;
  canonical_no_userinfo : contains "@" n = false ∧ contains "\" n = false;
  canonical_path : is_path (chars p) = true;
  canonical_params : contains ";" p = true → without_params (chars p) = chars p;
  canonical_no_space : no_space (chars n) = true ∧ no_space (chars p) = true;
  canonical_no_slash : endswith (s +:+ "://" +:+ n +:+ p) "/" = false }.
Definition bracket_free (n : string) : bool := negb (contains "[" n) && negb (contains "]" n).

Lemma check_netloc_plain n : bracket_free n = true → check_netloc (chars n) = Ok ().
Proof.
  unfold bracket_free. intros [H1 H2]%andb_true_iff. apply negb_true_iff in H1, H2. unfold check_netloc.
  change (has_char "[" (chars n)) with (contains "[" n). change (has_char "]" (chars n)) with (contains "]" n). by rewrite H1, H2.
Qed.
Lemma urlsplit_canonical s n p : canonical s n p → bracket_free n = true →
  urlsplit (s +:+ "://" +:+ n +:+ p) = Ok (mkSplit s n p "" "").
Proof.
  intros [Hs (Hne & Hn & _) _ Hp _ [Hsn Hsp] _] Hb.
  pose proof (urlsplit_complete s (chars n) (chars p)) as H. rewrite !of_chars_chars in H.
  rewrite H, check_netloc_plain; try done. intros He. apply Hne. by apply chars_inj.
Qed.
Lemma urlunsplit_canonical s n p : is_path (chars p) = true → urlunsplit_full s n p "" = s +:+ "://" +:+ n +:+ p.
Proof.
  intros Hp%is_path_chars. unfold urlunsplit_full. rewrite decide_True by done.
  assert (Hs : (0 <? py_len p) && negb (startswith p "/") = false).
  { destruct p as [|c p]; [done|]. destruct Hp as [Hc _]. apply N.eqb_eq in Hc. apply andb_false_intro2, negb_false_iff, startswith_spec.
    exists p. cbn. f_equal. rewrite <- (ascii_N_embedding c). unfold code in Hc. by rewrite Hc. }
  rewrite Hs. by rewrite str_app_nil.
Qed.
Lemma urlparse_canonical s n p : canonical s n p → bracket_free n = true →
  urlparse (s +:+ "://" +:+ n +:+ p) = Ok (mkSplit s n p "" "").
Proof.
  intros Hc Hb. unfold urlparse. rewrite urlsplit_canonical by done. cbn [mbind Outcome_bind mret Outcome_ret scheme path netloc query fragment].
  destruct (contains ";" p) eqn:Hp; [|by rewrite andb_false_r].
  rewrite (canonical_params _ _ _ Hc Hp), of_chars_chars. by destruct (bool_decide _ && true).
Qed.
Lemma canonical_text s n p : canonical s n p → s +:+ "://" +:+ n +:+ p ≠ "" ∧ has_space (s +:+ "://" +:+ n +:+ p) = false.
Proof.
  intros [Hs _ _ _ _ [Hsn Hsp] _]. rewrite has_space_no_space, !chars_app, !no_space_app, Hsn, Hsp.
  rewrite !elem_of_cons, elem_of_nil in Hs. by destruct Hs as [-> | [-> |[]]].
Qed.
(** A stored value is accepted again, as it is. *)
Lemma validate_canonical s n p : canonical s n p → bracket_free n = true →
  validate_base_url (s +:+ "://" +:+ n +:+ p) = Ok (s +:+ "://" +:+ n +:+ p).
Proof.
  intros Hc Hb. destruct (canonical_text s n p Hc) as [Hne Hsp]. unfold validate_base_url.
  rewrite strip_id, decide_False, Hsp by done. cbn [raise_if mbind Outcome_bind mret Outcome_ret].
  rewrite urlparse_canonical by done. cbn [mbind Outcome_bind scheme netloc path query].
  destruct Hc as [Hs (Hn & _ & Hl) [Hu Hbs] Hp _ _ Hslash].
  assert (Hlow : lower s = s) by (rewrite !elem_of_cons, elem_of_nil in Hs; by destruct Hs as [-> | [-> |[]]]).
  rewrite Hlow, Hl, (bool_decide_eq_false_2 (s ∉ _)) by (intros H; by apply H).
  rewrite (bool_decide_eq_false_2 (n = "")), Hu, Hbs by done.
  cbn [raise_if mbind Outcome_bind mret Outcome_ret]. rewrite urlunsplit_canonical, Hslash by done. done.
Qed.
Lemma urlsplit_scheme url u : urlsplit url = Ok u → lower (scheme u) = scheme u.
Proof.
  unfold urlsplit. destruct (split_scheme _) as [sch rest].
  match goal with |- (?m ≫= _) = _ → _ => destruct m as [[n r]|]; cbn; [|done] end.
  destruct (partition_chars "#" r) as [[a f] fr]. destruct (partition_chars "?" a) as [[p f'] q].
  intros [= <-]. apply lower_idemp.
Qed.
Lemma urlparse_sound url u : no_space (chars url) = true → urlparse url = Ok u → netloc u ≠ "" → lower (scheme u) ∈ uses_params →
  is_netloc (chars (netloc u)) = true ∧ no_space (chars (netloc u)) = true ∧ is_path (chars (path u)) = true ∧
  no_space (chars (path u)) = true ∧ (contains ";" (path u) = true → without_params (chars (path u)) = chars (path u)).
Proof.
  intros Hsp. unfold urlparse. destruct (urlsplit url) as [u0|] eqn:Hu; [|done]. cbn [mbind Outcome_bind]. intros [= <-].
  destruct (contains ";" (path u0)) eqn:Hsemi.
  - case_bool_decide as Hin; cbn [andb netloc path scheme]; rewrite (urlsplit_scheme _ _ Hu); intros Hn Hs; [|done].
    destruct (urlsplit_sound _ _ Hsp Hu Hn) as (H1 & H2 & H3 & H4). rewrite chars_of_chars.
    destruct (without_params_ok (chars (path u0))) as (H5 & H6 & H7); [done|done|by destruct (path u0)|]. by split_and!.
  - rewrite andb_false_r. intros Hn _. destruct (urlsplit_sound _ _ Hsp Hu Hn) as (H1 & H2 & H3 & H4).
    split_and!; try done. congruence.
Qed.
(** Whatever is accepted is in canonical form. *)
Lemma validate_sound raw v : validate_base_url raw = Ok v → v ≠ "" → ∃ s n p, canonical s n p ∧ v = s +:+ "://" +:+ n +:+ p.
Proof.
  unfold validate_base_url. case_decide; [by intros [= <-]|].
  destruct (has_space (strip raw)) eqn:Hsp; [done|]. apply has_space_no_space in Hsp. cbn [raise_if mbind Outcome_bind mret Outcome_ret].
  destruct (urlparse (strip raw)) as [u|] eqn:Hu; [|done]. cbn [mbind Outcome_bind].
  destruct (bool_decide (lower _ ∉ _)) eqn:Hs; [done|]. apply bool_decide_eq_false in Hs.
  destruct (bool_decide (netloc u = "")) eqn:Hn; [done|]. apply bool_decide_eq_false in Hn. destruct (contains "@" (netloc u)) eqn:Hat; [done|].
  destruct (contains "\" (netloc u)) eqn:Hbs; [done|]. cbn [raise_if mbind Outcome_bind mret Outcome_ret].
  destruct (endswith _ "/") eqn:Hslash; [done|]. intros [= <-] _.
  assert (Hs' : lower (scheme u) ∈ ["http"; "https"]) by (destruct (decide (lower (scheme u) ∈ ["http"; "https"])); naive_solver).
  destruct (urlparse_sound _ _ Hsp Hu Hn) as (H1 & H2 & H3 & H4 & H5).
  { rewrite !elem_of_cons, elem_of_nil in Hs'. by destruct Hs' as [-> | [-> |[]]]; apply (bool_decide_unpack _); vm_compute. }
  destruct (lower_host _ H1 H2 Hn) as (L1 & L2 & L3 & L4 & L5). rewrite urlunsplit_canonical in Hslash |- * by done.
  exists (lower (scheme u)), (lower (netloc u)), (path u). split; [|done].
  split; rewrite ?L4, ?L5, ?lower_idemp; auto.
Qed.
(** The host of the URLs in a certificate. *)
Definition plain_host (n : string) : string := if endswith n ":443" then of_chars (take (length (chars n) - 4) (chars n)) else n.
Lemma public_http_origin_canonical s n p : canonical s n p → bracket_free n = true → plain_host n ≠ "" →
  public_http_origin (s +:+ "://" +:+ n +:+ p) = Ok ("http://" +:+ plain_host n +:+ p).
Proof.
  intros Hc Hb Hh. unfold public_http_origin. rewrite urlsplit_canonical by done. cbn [mbind Outcome_bind mret Outcome_ret netloc path].
  fold (plain_host n). f_equal. unfold urlunsplit_http. pose proof (urlunsplit_canonical "http" (plain_host n) p (canonical_path _ _ _ Hc)) as H.
  unfold urlunsplit_full in H. rewrite decide_True, str_app_nil in H by done.
  assert (Hl : (0 <? py_len (plain_host n)) = true) by (destruct (plain_host n); done). rewrite Hl. exact H.
Qed.

(** The base URL. What the settings form stores is empty or an absolute
    http or https URL in canonical form: lower-case scheme and host, a host
    without user information or backslash, an absolute path without a query,
    a fragment or a trailing slash, no white space anywhere.  A stored value
    without an IPv6 literal is accepted again unchanged, and the origin of
    the URLs in a certificate is that value with the scheme http and the
    port 443 dropped. *)
Theorem stored_base_url raw v : validate_base_url raw = Ok v →
  v = "" ∨ ∃ s n p, canonical s n p ∧ v = s +:+ "://" +:+ n +:+ p ∧
    (bracket_free n = true → validate_base_url v = Ok v ∧
      (plain_host n ≠ "" → public_http_origin v = Ok ("http://" +:+ plain_host n +:+ p))).
Proof.
  intros H. destruct (decide (v = "")) as [->|Hv]; [by left|right].
  destruct (validate_sound raw v H Hv) as (s & n & p & Hc & ->). exists s, n, p.
  split_and!; [done..|]. auto using validate_canonical, public_http_origin_canonical.
Qed.

(** ** Concrete checks *)
Module BaseUrlExamples.
Lemma stored_base_url_witness : ∃ s n p, canonical s n p ∧ "https://ca.lan:443/Cabin" = s +:+ "://" +:+ n +:+ p.
Proof.
  destruct (stored_base_url " HTTPS://CA.lan:443/Cabin?x" "https://ca.lan:443/Cabin") as [H|(s & n & p & Hc & He & _)].
  - vm_compute. reflexivity.
  - discriminate H.
  - exists s, n, p. split; [exact Hc|exact He].
Defined.
(** A host that is only a port is not missed by [if not parsed.netloc]. *)
Example no_host : validate_base_url "https://:443" = Ok "https://:443" ∧ public_http_origin "https://:443/pki" = Ok "http:///pki".
Proof. vm_compute. split; reflexivity. Qed.
End BaseUrlExamples.
