(* ===== verification/SettingsUi.v ===== *)
(** * [cabin.web.settings_ui]: the settings form

    What a form may say, how it is saved (one write and one event per changed
    key, none for the others) and when cabin's own certificate is looked at
    again at once.  The address of the MCP endpoint the page also shows is a
    text beside the base URL. *)

From S2P Require Import Url BaseUrl Prelude PyStr PyTime Json IPAddr Numbers X509Lib X509 Leaf Store Settings CaService Grants Identity Certs Crl AuditLog WebDeps WebUi AcmeServer Tls.
#[local] Open Scope Z_scope.

Definition MCP_ENABLED : string := "mcp_enabled".
Definition flag_text (b : bool) : string := if b then "true" else "false".

Record SettingsForm := mkSettingsForm {
  sf_base_url : string; sf_trust_proxy : string; sf_acme : string; sf_mcp : string; sf_private : string;
  sf_resolvers : string; sf_tls_issuer : string }.
(** An unticked checkbox sends nothing. *)
Definition ticked (s : string) : bool := negb (bool_decide (s = "")).
(** What the form asks for, checked. *)
Record Wanted := mkWanted {
  wn_base_url : string; wn_proxy : bool; wn_acme : bool; wn_mcp : bool; wn_private : bool; wn_resolvers : string;
  wn_tls_issuer : string }.
Record SettingsPage {X : X509Lib} {SS : SecretStore} := mkSettingsPage {
  sp_context : Context_; sp_base_url : string; sp_proxy : bool; sp_acme : bool; sp_mcp : bool; sp_mcp_url : option string;
  sp_private : bool; sp_resolvers : string; sp_tls : bool; sp_issuers : list CARow; sp_selected : option string;
  sp_error : option string; sp_status : Z }.
Arguments mkSettingsPage {X SS} _ _ _ _ _ _ _ _ _ _ _ _ _.
Inductive SettingsAnswer {X : X509Lib} {SS : SecretStore} := Saved | Shown (p : SettingsPage).
Arguments Shown {X SS} _.

Section settings_ui.
Context {X : X509Lib} {SS : SecretStore} {CR : Crypto} {SSL : SSLLib}.

Definition text_setting (key : string) (db : DB) : string := default "" (get_setting key db).
Definition flag_setting (key : string) (dflt : bool) (db : DB) : string := flag_text (get_flag key dflt db).
(** [mcp.server.endpoint_url] *)
Definition endpoint_url (db : DB) : option string :=
  match get_setting BASE_URL db with
  | Some base => if decide (base = "") then None else Some (base +:+ "/mcp")
  | None => None
  end.

(** ** The page *)
Definition tls_issuer_state (tls : bool) (db : DB) : bool * list CARow * option string :=
  if negb tls then (false, [], None) else
  let issuers := active_issuers db in
  let stored := text_setting TLS_ISSUER_ID db in
  (true, issuers, if bool_decide (stored ∈ map (λ r, id_text (ca_id r)) issuers) then Some stored else None).
Definition settings_form_page (user : UserRow) (row : SessionRow) (now : Z) (tls : bool) (base_url : string)
    (proxy acme mcp private : bool) (resolvers : string) (error : option string) (status : Z) : Tx DB SettingsAnswer :=
  state ← query (tls_issuer_state tls);
  cx ← base_context user row now;
  url ← query endpoint_url;
  let '(enabled, issuers, selected) := state in
  mret (Shown (mkSettingsPage cx base_url proxy acme mcp url private resolvers enabled issuers selected error status)).
Definition settings_page (cookie : option string) (tls : bool) (seen shown : Z) : Tx DB SettingsAnswer :=
  '(user, row, _) ← get_current_user cookie seen;
  user ← lift (require_admin user);
  now_ ← query (λ db, (text_setting BASE_URL db, get_flag TRUST_PROXY false db, get_flag ACME_ENABLED false db,
                       get_flag MCP_ENABLED false db, get_flag ALLOW_PRIVATE_VALIDATION_TARGETS true db, text_setting DNS_RESOLVERS db));
  let '(base_url, proxy, acme_on_, mcp_on_, private, resolvers) := now_ in
  settings_form_page user row shown tls base_url proxy acme_on_ mcp_on_ private resolvers None 200.

(** ** Checking *)
Definition bad_tls_issuer : Exc := SettingError "choose a valid, active issuer".
(** The port of a base URL while TLS is on: the check inlined in the handler. *)
Definition check_port (value : string) : Outcome unit :=
  u ← urlparse value;
  port ← url_port u;
  match port with
  | Some port => raise_if (negb (port =? 443))
      (SettingError ("the base URL must not name an explicit port (" +:+ str_of_Z port +:+
        ") while TLS is on -- the plaintext CRL/AIA listener runs on a different port, and certificates would carry an address nothing answers on"))
  | None => mret ()
  end.
Definition check_tls_issuer (choice : string) : Tx DB unit :=
  n ← lift (catch_pure (py_int choice) (λ e, match e with ValueError _ => true | _ => false end) (λ _, Raise bad_tls_issuer));
  row ← catch (get_ca n) (λ e, match e with ValueError _ | UnknownIssuerError _ => true | _ => false end) (λ _, mthrow bad_tls_issuer);
  raise_if (negb (is_active_issuer row)) bad_tls_issuer.
Definition check_settings (tls : bool) (f : SettingsForm) : Tx DB Wanted :=
  let choice := strip (sf_tls_issuer f) in
  value ← lift (validate_base_url (sf_base_url f));
  resolvers ← lift (validate_dns_resolvers (sf_resolvers f));
  _ ← raise_if (ticked (sf_acme f) && bool_decide (value = "")) (SettingError "set a base URL before enabling the ACME server");
  _ ← raise_if (ticked (sf_mcp f) && bool_decide (value = "")) (SettingError "set a base URL before enabling the MCP server");
  _ ← (if tls && negb (bool_decide (value = "")) then lift (check_port value) else mret ());
  _ ← (if tls && negb (bool_decide (choice = "")) then check_tls_issuer choice else mret ());
  mret (mkWanted value (ticked (sf_trust_proxy f)) (ticked (sf_acme f)) (ticked (sf_mcp f)) (ticked (sf_private f)) resolvers choice).

(** ** Saving *)
Definition change_says (key current value : string) : string :=
  "changed setting " +:+ key +:+ " from " +:+ py_repr current +:+ " to " +:+ py_repr value.
Definition save_setting (q : Post) (actor : Actor) (key current value : string) : Tx DB unit :=
  if decide (current = value) then mret () else
  _ ← set_setting key value;
  log q actor a_settings_changed (change_says key current value) (Some ("setting", Some key))
    (Some (setting_change_detail key (if decide (current = "") then None else Some current) (Some value))) (po_logged q).
(** A key, what is in effect for it, and what the form wants: the calls of
    [save_setting] in their order. *)
Definition Entry_ : Type := string * (DB → string) * string.
Definition save_entry (q : Post) (actor : Actor) (x : Entry_) : Tx DB unit :=
  let '(key, current, value) := x in
  now_ ← query current;
  save_setting q actor key now_ value.
Definition entries (tls : bool) (w : Wanted) : list Entry_ :=
  [(BASE_URL, text_setting BASE_URL, wn_base_url w);
   (TRUST_PROXY, flag_setting TRUST_PROXY false, flag_text (wn_proxy w));
   (ACME_ENABLED, flag_setting ACME_ENABLED false, flag_text (wn_acme w));
   (MCP_ENABLED, flag_setting MCP_ENABLED false, flag_text (wn_mcp w));
   (ALLOW_PRIVATE_VALIDATION_TARGETS, flag_setting ALLOW_PRIVATE_VALIDATION_TARGETS true, flag_text (wn_private w));
   (DNS_RESOLVERS, text_setting DNS_RESOLVERS, wn_resolvers w)] ++
  (if tls then [(TLS_ISSUER_ID, text_setting TLS_ISSUER_ID, wn_tls_issuer w)] else []).
Definition tls_concerned (tls : bool) (w : Wanted) (db : DB) : bool :=
  tls && (negb (bool_decide (text_setting BASE_URL db = wn_base_url w))
          || negb (bool_decide (text_setting TLS_ISSUER_ID db = wn_tls_issuer w))).
(** [w] is a turn of the manager, if there is one. *)
Definition settings_submit (q : Post) (tls : bool) (manager : option Turn) (f : SettingsForm) (shown : Z) : Act SettingsAnswer :=
  '(user, row) ← on_db (ui_write (po_cookie q) (po_csrf q) (po_seen q));
  checked ← on_db (WebUi.attempt (check_settings tls f));
  match checked with
  | Raise (SettingError m) =>
      on_db (settings_form_page user row shown tls (sf_base_url f) (ticked (sf_trust_proxy f)) (ticked (sf_acme f)) (ticked (sf_mcp f))
        (ticked (sf_private f)) (sf_resolvers f) (Some m) 400)
  | Raise e => mthrow e
  | Ok w =>
      concerned ← on_db (query (tls_concerned tls w));
      _ ← on_db (tx_for (save_entry q (user_actor user)) (entries tls w));
      _ ← (match concerned, manager with
           | true, Some turn => _ ← ensure_current turn; mret ()
           | _, _ => mret ()
           end);
      mret Saved
  end.
(** A request: a session of its own, closed at the end. *)
Definition settings_request (q : Post) (tls : bool) (manager : option Turn) (f : SettingsForm) (shown : Z) (t : Manager) (db : DB)
  : Outcome SettingsAnswer * (Manager * DB) :=
  let '(r, (t', s)) := settings_submit q tls manager f shown (t, fresh_session db) in (r, (t', close_session s)).
End settings_ui.

(** ** Correctness *)
Section theorems.
Context {X : X509Lib} {SS : SecretStore} {CR : Crypto} {SSL : SSLLib}.

Definition key_of (x : Entry_) : string := fst (fst x).
Definition current_of (x : Entry_) : DB → string := snd (fst x).
Definition value_of (x : Entry_) : string := snd x.
(** What is in effect for a key depends on its row only, and the value a form
    stores is in effect once it is stored. *)
Record entry_ok (x : Entry_) : Prop := {
  entry_reads : ∀ d d', settings d !! key_of x = settings d' !! key_of x → current_of x d = current_of x d';
  entry_writes : ∀ d, settings d !! key_of x = Some (value_of x) → current_of x d = value_of x }.
Lemma entries_ok tls w : Forall entry_ok (entries tls w) ∧ NoDup (map key_of (entries tls w)).
Proof.
  assert (Ht : ∀ k v, entry_ok (k, text_setting k, v)).
  { intros k v. split; cbn; unfold text_setting, get_setting, current_of, key_of, value_of; cbn; [by intros d d' ->|by intros d ->]. }
  assert (Hf : ∀ k b v, entry_ok (k, flag_setting k b, flag_text v)).
  { intros k b v. split; cbn; unfold flag_setting, get_flag, get_setting, current_of, key_of, value_of; cbn; [by intros d d' ->|intros d ->].
    by destruct v. }
  unfold entries. destruct tls; (split; [repeat constructor; (apply Ht || apply Hf)|by_decide]).
Qed.
Definition changing (l : list Entry_) (d : DB) : list Entry_ := List.filter (λ x, negb (bool_decide (current_of x d = value_of x))) l.
(** Events are added one by one. *)
Fixpoint appended (m : gmap Z AuditRow) (es : list AuditRow) (m' : gmap Z AuditRow) : Prop :=
  match es with
  | [] => m' = m
  | e :: es => m !! aud_id e = None ∧ appended (<[aud_id e := e]> m) es m'
  end.
(** The event of one changed setting, with its old and its new value. *)
Record change_event (actor : Actor) (d : DB) (x : Entry_) (e : AuditRow) : Prop := {
  ch_log : log_entry actor a_settings_changed (change_says (key_of x) (current_of x d) (value_of x)) e;
  ch_key : target_id e = Some (key_of x);
  ch_detail : aud_detail e = Some (setting_change_detail (key_of x)
    (if decide (current_of x d = "") then None else Some (current_of x d)) (Some (value_of x))) }.
Record saved (actor : Actor) (l : list Entry_) (d d' : DB) : Prop := {
  saved_values : ∀ x, x ∈ l → current_of x d' = value_of x;
  saved_idle : ∀ x, x ∈ l → current_of x d = value_of x → settings d' !! key_of x = settings d !! key_of x;
  saved_others : ∀ k, (k ∉ map key_of l) → settings d' !! k = settings d !! k;
  saved_events : ∃ es, appended (audit_events d) es (audit_events d') ∧ Forall2 (change_event actor d) (changing l d) es;
  saved_rest : d' = on_settings (λ _, settings d') (on_audit (λ _, audit_events d') d) }.
Lemma Forall2_in_l {A B} (P R : A → B → Prop) l k : Forall2 P l k → (∀ x y, x ∈ l → P x y → R x y) → Forall2 R l k.
Proof.
  induction 1 as [|x y l k Hxy Hl IH]; intros H; constructor; [apply H; [left|done]|]. apply IH. intros z w Hz. apply H. by right.
Qed.
Lemma wp_save_entries q actor l d (Q : Outcome unit → Session DB → Prop) : Forall entry_ok l → NoDup (map key_of l) →
  (∀ d', saved actor l d d' → Q (Ok ()) (fresh_session d')) → wp (tx_for (save_entry q actor) l) (fresh_session d) Q.
Proof.
  revert d Q. induction l as [|x l IH]; intros d Q Hok Hnd HQ; cbn [tx_for].
  { apply wp_ret, HQ. split; [by intros x ?%not_elem_of_nil..|done| |by destruct d]. by exists []. }
  apply Forall_cons in Hok as [Hx Hok]. cbn in Hnd. inversion Hnd as [|? ? Hk Hnd']; subst.
  assert (Hkeys : ∀ y, y ∈ l → key_of y ≠ key_of x).
  { intros y Hy He. apply Hk. rewrite <- He. by apply list_elem_of_fmap_2. }
  apply wp_bind. destruct x as [[k cur] v] eqn:Ex. unfold save_entry at 1. apply wp_bind, wp_query. cbn [work fresh_session]. unfold save_setting.
  assert (Hfor : ∀ d1, (∀ k', k' ≠ k → settings d1 !! k' = settings d !! k') → ∀ y, y ∈ l → current_of y d1 = current_of y d).
  { intros d1 Hd1 y Hy. rewrite list.Forall_forall in Hok. apply (entry_reads _ (Hok y Hy)), Hd1, (Hkeys y Hy). }
  assert (Hch : ∀ d1, (∀ k', k' ≠ k → settings d1 !! k' = settings d !! k') → changing l d1 = changing l d).
  { intros d1 Hd1. unfold changing. apply filter_ext_in. intros y Hy%list_elem_of_In. by rewrite (Hfor d1 Hd1 y Hy). }
  destruct (decide (cur d = v)) as [Hv|Hv].
  - apply wp_ret, IH; [done..|]. intros d' [H1 H2 H3 (es & He & Hes) H5]. apply HQ.
    assert (Hkd : settings d' !! k = settings d !! k) by by apply H3.
    split; [| | | |done].
    + intros y [->|Hy]%elem_of_cons; [|by apply H1]. rewrite <- Hv. by apply (entry_reads _ Hx).
    + intros y [->|Hy]%elem_of_cons; [done|by apply H2].
    + intros k' Hk'. apply H3. by intros ?; apply Hk'; right.
    + exists es. split; [done|]. unfold changing. cbn [List.filter current_of value_of fst snd]. by rewrite bool_decide_eq_true_2.
  - unfold set_setting. wp_run. apply wp_log_row. cbn [work]. intros from n. set (e := audit_row _ _ _ _ _). intros He. set (d1 := with_entry _ _).
    assert (Hd1 : ∀ k', k' ≠ k → settings d1 !! k' = settings d !! k') by (intros k' Hk'; cbn; by rewrite lookup_insert_ne).
    apply IH; [done..|]. intros d' [H1 H2 H3 (es & Hes & Hf) H5]. apply HQ.
    assert (Hkd : settings d' !! k = Some v) by (rewrite H3 by done; cbn; apply lookup_insert_eq).
    split.
    + intros y [->|Hy]%elem_of_cons; [by apply (entry_writes _ Hx)|by apply H1].
    + intros y [->|Hy]%elem_of_cons Hcur; [done|]. rewrite (H2 y Hy) by (by rewrite (Hfor d1)). apply Hd1, (Hkeys y Hy).
    + intros k' Hk'. cbn in Hk'; rewrite not_elem_of_cons in Hk'. destruct Hk' as [Hne Hk']. rewrite H3 by done. by apply Hd1.
    + exists (e :: es). split; [by split|]. unfold changing. cbn [List.filter current_of value_of fst snd].
      rewrite bool_decide_eq_false_2 by done. cbn [negb]. fold (changing l d). rewrite <- (Hch d1 Hd1). constructor; [by split|].
      apply (Forall2_in_l _ _ _ _ Hf). intros y e' Hy [Hl1 Hl2 Hl3].
      assert (Hy' : y ∈ l) by (unfold changing in Hy; rewrite list_elem_of_In, filter_In, <- list_elem_of_In in Hy; by destruct Hy).
      rewrite (Hfor d1 Hd1 y Hy') in *. by split.
    + rewrite H5. by destruct d.
Qed.

(** What a form that passes the checks asks for. *)
Record wanted_ok (tls : bool) (f : SettingsForm) (db : DB) (w : Wanted) : Prop := {
  wanted_base : validate_base_url (sf_base_url f) = Ok (wn_base_url w);
  wanted_resolvers : validate_dns_resolvers (sf_resolvers f) = Ok (wn_resolvers w);
  wanted_services : wn_acme w = true ∨ wn_mcp w = true → wn_base_url w ≠ "";
  wanted_port : tls = true → wn_base_url w ≠ "" → ∃ u, urlparse (wn_base_url w) = Ok u ∧ (url_port u = Ok None ∨ url_port u = Ok (Some 443));
  wanted_issuer : tls = true → wn_tls_issuer w ≠ "" →
    ∃ n row, py_int (wn_tls_issuer w) = Ok n ∧ cas db !! n = Some row ∧ is_active_issuer row = true;
  wanted_flags : wn_proxy w = ticked (sf_trust_proxy f) ∧ wn_acme w = ticked (sf_acme f) ∧ wn_mcp w = ticked (sf_mcp f) ∧
    wn_private w = ticked (sf_private f) ∧ wn_tls_issuer w = strip (sf_tls_issuer f) }.
Lemma check_port_ok value u : check_port value = Ok u → ∃ u, urlparse value = Ok u ∧ (url_port u = Ok None ∨ url_port u = Ok (Some 443)).
Proof.
  unfold check_port. intros (s & Hs & (p & Hp & H)%Outcome_bind_ok)%Outcome_bind_ok. exists s. split; [done|].
  destruct p as [p|]; [|by left]. right. apply raise_if_ok, negb_false_iff, Z.eqb_eq in H. by subst p.
Qed.
(** *** Why a form fails *)
(** An exception a reading of the form can end in: bad input, or a URL
    [urllib] cannot read. *)
Definition input_error (e : Exc) : Prop := ∃ m, e = SettingError m ∨ e = ValueError m.
Definition only_raises {A} (P : Exc → Prop) (m : Outcome A) : Prop := ∀ e, m = Raise e → P e.
Lemma only_raises_bind {A B} P (m : Outcome A) (f : A → Outcome B) : only_raises P m → (∀ a, only_raises P (f a)) → only_raises P (m ≫= f).
Proof. intros Hm Hf e. destruct m as [a|x]; cbn; [apply Hf|]. intros [= <-]. by apply Hm. Qed.
Lemma only_raises_ret {A} P (a : A) : only_raises P (mret a).
Proof. by intros e. Qed.
Lemma only_raises_if (P : Exc → Prop) (b : bool) e : P e → only_raises P (raise_if b e : Outcome unit).
Proof. intros He x. destruct b; [by intros [= <-]|done]. Qed.
Lemma only_raises_option {A} (P : Exc → Prop) (o : option A) e : P e → only_raises P (of_option o e).
Proof. intros He x. destruct o; [done|by intros [= <-]]. Qed.
Ltac only_raises_tac := repeat first
  [ assumption | apply only_raises_ret | apply only_raises_if; unfold input_error; by eauto | apply only_raises_option; unfold input_error; by eauto
  | apply only_raises_bind; [|intros ?]
  | match goal with |- only_raises _ (match ?x with _ => _ end) => destruct x end ].
Lemma urlparse_raises s : only_raises input_error (urlparse s).
Proof.
  unfold urlparse, urlsplit, check_netloc, check_bracketed_netloc, check_bracketed_host, ip_address, bad_ipv6_url, invalid_address. only_raises_tac.
Qed.
Lemma base_url_raises s : only_raises input_error (validate_base_url s).
Proof. unfold validate_base_url. case_decide; [by intros e|]. repeat (apply only_raises_bind; [first [apply urlparse_raises|only_raises_tac]|intros ?]). only_raises_tac. Qed.
Lemma check_port_raises s : only_raises input_error (check_port s).
Proof. unfold check_port, url_port. apply only_raises_bind; [apply urlparse_raises|intros u]. only_raises_tac. Qed.
Definition is_setting_error (e : Exc) : Prop := ∃ m, e = SettingError m.
Lemma resolvers_raise s : only_raises is_setting_error (validate_dns_resolvers s).
Proof.
  unfold validate_dns_resolvers. apply only_raises_bind; [|intros l; apply only_raises_bind; [apply only_raises_if; by eexists|intros _; apply only_raises_ret]].
  induction (split "," s) as [|x l IH]; cbn [resolver_addresses]; [apply only_raises_ret|]. case_decide; [done|].
  apply only_raises_bind; [|intros a; apply only_raises_bind; [done|intros l'; apply only_raises_ret]].
  intros e. unfold ip_address. destruct (address_of_chars _); [done|]. cbn. intros [= <-]. by eexists.
Qed.

(** The checks, in their order, and what each one raises. *)
Inductive check_fails (tls : bool) (f : SettingsForm) (db : DB) : Exc → Prop :=
  | fails_base e : validate_base_url (sf_base_url f) = Raise e → check_fails tls f db e
  | fails_resolvers e : validate_dns_resolvers (sf_resolvers f) = Raise e → check_fails tls f db e
  | fails_service server : validate_base_url (sf_base_url f) = Ok "" →
      (ticked (sf_acme f) = true ∧ server = "ACME") ∨ (ticked (sf_mcp f) = true ∧ server = "MCP") →
      check_fails tls f db (SettingError ("set a base URL before enabling the " +:+ server +:+ " server"))
  | fails_port value e : tls = true → validate_base_url (sf_base_url f) = Ok value → value ≠ "" → check_port value = Raise e →
      check_fails tls f db e
  | fails_issuer : tls = true → strip (sf_tls_issuer f) ≠ "" →
      (∀ n row, py_int (strip (sf_tls_issuer f)) = Ok n → cas db !! n = Some row → is_active_issuer row = false) →
      check_fails tls f db bad_tls_issuer.
(** A failed check that is not bad input to the form: [urllib] could not read
    the base URL, or its port. *)
Definition url_unread (tls : bool) (f : SettingsForm) (m : string) : Prop :=
  validate_base_url (sf_base_url f) = Raise (ValueError m) ∨
  tls = true ∧ ∃ value, validate_base_url (sf_base_url f) = Ok value ∧ value ≠ "" ∧ check_port value = Raise (ValueError m).
Lemma unread_or_refused tls f db e : check_fails tls f db e → is_setting_error e ∨ ∃ m, e = ValueError m ∧ url_unread tls f m.
Proof.
  intros [x H|x H|server H Hs|value x Ht Hv Hne H|Ht Hne H]; try (by left; eexists).
  - destruct (base_url_raises _ _ H) as [m [-> | ->]]; [by left; eexists|]. right. exists m. split; [done|by left].
  - left. by eapply resolvers_raise.
  - destruct (check_port_raises _ _ H) as [m [-> | ->]]; [by left; eexists|]. right. exists m. split; [done|]. right. split; [done|by exists value].
Qed.
Lemma py_int_raises s : only_raises (λ e, ∃ m, e = ValueError m) (py_int s).
Proof.
  unfold py_int. destruct (match strip_chars (chars s) with [] => _ | _ => _ end) as [sign body].
  repeat (apply only_raises_bind; [apply only_raises_if; by eexists|intros _]). apply only_raises_ret.
Qed.
Lemma wp_check_tls_issuer choice db (Q : Outcome unit → Session DB → Prop) :
  (∀ n row, py_int choice = Ok n → cas db !! n = Some row → is_active_issuer row = true → Q (Ok ()) (fresh_session db)) →
  ((∀ n row, py_int choice = Ok n → cas db !! n = Some row → is_active_issuer row = false) → Q (Raise bad_tls_issuer) (fresh_session db)) →
  wp (check_tls_issuer choice) (fresh_session db) Q.
Proof.
  intros Hok Hno. unfold check_tls_issuer. apply wp_bind, wp_lift.
  - intros n Hn. assert (py_int choice = Ok n) as Hn' by (unfold catch_pure in Hn; destruct (py_int choice); [done|by case_match]).
    apply wp_bind, wp_catch. unfold get_ca. wp_run.
    + apply Hno. intros n' row' Hn1 Hrow. assert (row' = c) as -> by (cbn [work fresh_session] in *; congruence). by apply negb_true_iff.
    + apply (Hok n c Hn'); [done|]. by apply negb_false_iff.
    + apply Hno. intros n' row' Hn1 Hrow. cbn [work fresh_session] in *. congruence.
  - intros e He. destruct (py_int choice) as [n|x] eqn:Hx; [done|]. destruct (py_int_raises _ _ Hx) as [m ->].
    injection He as <-. by apply Hno.
Qed.
Lemma wp_check_settings tls f db (Q : Outcome Wanted → Session DB → Prop) :
  (∀ w, wanted_ok tls f db w → Q (Ok w) (fresh_session db)) → (∀ e, check_fails tls f db e → Q (Raise e) (fresh_session db)) →
  wp (check_settings tls f) (fresh_session db) Q.
Proof.
  intros Hok Hno. unfold check_settings.
  apply wp_bind, wp_lift; [intros value Hv|intros e He; by apply Hno, fails_base].
  apply wp_bind, wp_lift; [intros resolvers Hr|intros e He; by apply Hno, fails_resolvers].
  apply wp_bind, wp_raise_if; [intros [Ha Hb%bool_decide_eq_true]%andb_true_iff; subst value; apply Hno, (fails_service _ _ _ "ACME"); by auto|intros Hacme].
  apply wp_bind, wp_raise_if; [intros [Ha Hb%bool_decide_eq_true]%andb_true_iff; subst value; apply Hno, (fails_service _ _ _ "MCP"); by auto|intros Hmcp].
  assert (Hsvc : ticked (sf_acme f) = true ∨ ticked (sf_mcp f) = true → value ≠ "").
  { intros [H|H] ->; [rewrite H in Hacme; discriminate Hacme|rewrite H in Hmcp; discriminate Hmcp]. }
  set (P := tls = true → value ≠ "" → ∃ u, urlparse value = Ok u ∧ (url_port u = Ok None ∨ url_port u = Ok (Some 443))).
  assert (Hport : P → wp (_ ← (if tls && negb (bool_decide (strip (sf_tls_issuer f) = "")) then check_tls_issuer (strip (sf_tls_issuer f)) else mret ());
      mret (mkWanted value (ticked (sf_trust_proxy f)) (ticked (sf_acme f)) (ticked (sf_mcp f)) (ticked (sf_private f)) resolvers
        (strip (sf_tls_issuer f)))) (fresh_session db) Q).
  { intros Hp. apply wp_bind. destruct (tls && _) eqn:E.
    - apply andb_true_iff in E as [Ht E%negb_true_iff%bool_decide_eq_false].
      apply wp_check_tls_issuer; [|intros Hx; by apply Hno, fails_issuer]. intros n row Hn Hrow Hact. apply wp_ret, Hok. split; try done.
      intros _ _. by exists n, row.
    - apply wp_ret, wp_ret, Hok. split; try done. cbn. intros -> Hne. exfalso. by rewrite bool_decide_eq_false_2 in E. }
  apply wp_bind. destruct (tls && negb (bool_decide (value = ""))) eqn:E.
  - apply andb_true_iff in E as [Ht E%negb_true_iff%bool_decide_eq_false].
    apply wp_lift; [|intros e He; by eapply Hno, fails_port]. intros u Hu%check_port_ok. apply Hport. intros _ _. exact Hu.
  - apply wp_ret, Hport. intros -> Hne. exfalso. by rewrite bool_decide_eq_false_2 in E.
Qed.

(** The form as it was sent: the texts, and a box for every box; the choice
    of issuer alone is the stored one. *)
Record as_sent (tls : bool) (f : SettingsForm) (d : DB) (p : SettingsPage) : Prop := {
  sent_texts : sp_base_url p = sf_base_url f ∧ sp_resolvers p = sf_resolvers f;
  sent_boxes : sp_proxy p = ticked (sf_trust_proxy f) ∧ sp_acme p = ticked (sf_acme f) ∧ sp_mcp p = ticked (sf_mcp f) ∧
    sp_private p = ticked (sf_private f);
  sent_issuer : (sp_tls p, sp_issuers p, sp_selected p) = tls_issuer_state tls d }.
(** What became of a form an admin sent, [d] being the database the guard
    leaves; and of any request to save the settings. *)
Definition settings_outcome (tls : bool) (manager : option Turn) (f : SettingsForm) (user : UserRow) (row : SessionRow) (t : Manager)
    (d : DB) (r : Outcome SettingsAnswer) (t' : Manager) (db' : DB) : Prop :=
  (∃ m p, check_fails tls f d (SettingError m) ∧ r = Ok (Shown p) ∧ sp_error p = Some m ∧ sp_status p = 400 ∧ as_sent tls f d p ∧
     t' = t ∧ db' = popped row d) ∨
  (∃ m, url_unread tls f m ∧ r = Raise (ValueError m) ∧ t' = t ∧ db' = d) ∨
  ∃ w d1, wanted_ok tls f d w ∧ saved (user_actor user) (entries tls w) d d1 ∧
    match tls_concerned tls w d, manager with
    | true, Some a_turn => ∃ looked, turn a_turn t d1 = (looked, (t', db')) ∧ r = match looked with Ok _ => Ok Saved | Raise e => Raise e end
    | _, _ => r = Ok Saved ∧ t' = t ∧ db' = d1
    end.
Definition settings_verdict (q : Post) (tls : bool) (manager : option Turn) (f : SettingsForm) (t : Manager) (db : DB)
    (r : Outcome SettingsAnswer) (t' : Manager) (db' : DB) : Prop :=
  (∃ e, r = Raise e ∧ t' = t ∧ form_refused ADMIN_ROLES (po_cookie q) (po_csrf q) (po_seen q) db e db') ∨
  ∃ user row, opens (po_cookie q) (po_seen q) db user row ∧ user_role user ∈ ADMIN_ROLES ∧ po_csrf q = Some (csrf_token row) ∧
    settings_outcome tls manager f user (seen_row (po_seen q) row) t (seen (po_seen q) row db) r t' db'.
Lemma wp_settings_form_page user row shown tls base_url p1 p2 p3 p4 resolvers m status db
    (Q : Outcome SettingsAnswer → Session DB → Prop) : is_Some (sessions db !! session_hash row) →
  (∀ cx url, let '(enabled, issuers, selected) := tls_issuer_state tls db in
     Q (Ok (Shown (mkSettingsPage cx base_url p1 p2 p3 url p4 resolvers enabled issuers selected m status))) (fresh_session (popped row db))) →
  wp (settings_form_page user row shown tls base_url p1 p2 p3 p4 resolvers m status) (fresh_session db) Q.
Proof.
  intros Hrow H. unfold settings_form_page. apply wp_bind, wp_query, wp_bind, wp_bind, wp_pop_flash; [done|]. cbn [work fresh_session].
  destruct (tls_issuer_state tls db) as [[enabled issuers] selected]. wp_run. apply H.
Qed.

(** C22: saving the settings.  Only an admin's session with its own token
    reaches the handler.  A form that fails a check changes nothing but the
    message already shown, and comes back with the reason and as it was sent,
    the choice of issuer aside, which is shown as stored; a base URL that
    [urllib] cannot read, or with TLS on its port, is an error instead, and
    changes nothing.  A form that passes puts what it asks for into effect,
    writes only the keys that change, and logs exactly one event for each of
    these, with the old and the new value, in the admin's name; ACME and MCP
    are on only with a base URL.  With TLS on, a changed base URL or issuer
    makes cabin look at its own certificate at once, on the settings just
    saved; should that look raise, the answer is what it raised. *)
Theorem settings_saved_exact q tls manager f shown t db r t' db' : identity_ok db →
  settings_request q tls manager f shown t db = (r, (t', db')) → settings_verdict q tls manager f t db r t' db'.
Proof.
  intros Hdb Hreq. unfold settings_request in Hreq.
  enough (awp (settings_submit q tls manager f shown) t (fresh_session db) (λ r t' s, settings_verdict q tls manager f t db r t' (durable s))) as Hw.
  { unfold awp in Hw. destruct (settings_submit _ _ _ _ _ _) as [r0 [t0 s0]]. by injection Hreq as <- <- <-. }
  clear r t' db' Hreq. unfold settings_submit. apply awp_bind, awp_db, wp_ui_guard; [done| |intros e d He; left; by exists e].
  intros user row Ho Hr Hc. set (row' := seen_row _ _). set (d := seen _ _ _). pose proof (seen_stored _ _ _ _ _ Hdb Ho) as Hrow.
  assert (Hend : ∀ r t' db', settings_outcome tls manager f user row' t d r t' db' → settings_verdict q tls manager f t db r t' db')
    by (intros r t' db' Hx; right; exists user, row; split_and!; [done..|exact Hx]).
  apply awp_bind, awp_db, wp_attempt, wp_check_settings.
  - intros w Hw. apply awp_bind, awp_query. cbn [work fresh_session].
    destruct (entries_ok tls w) as [Hok Hnd]. apply awp_bind, awp_db, wp_save_entries; [done..|]. intros d1 Hs. apply awp_bind.
    assert (Hplain : match tls_concerned tls w d, manager with true, Some _ => False | _, _ => True end →
      settings_verdict q tls manager f t db (Ok Saved) t d1).
    { intros Hm. apply Hend. right. right. exists w, d1. split_and!; [done..|]. fold d.
      destruct (tls_concerned tls w d); [destruct manager; [done|]|]; by split_and!. }
    destruct (tls_concerned tls w d) eqn:Hcon; [destruct manager as [a_turn|]|]; [|by apply awp_ret, awp_ret, Hplain..].
    apply awp_bind. unfold awp. destruct (ensure_current a_turn (t, fresh_session d1)) as [r0 [t0 s0]] eqn:E.
    assert (Ht : turn a_turn t d1 = (r0, (t0, durable s0))) by (unfold turn; by rewrite E).
    cbn [fst snd]. destruct r0 as [b|e]; cbn; apply Hend; right; right; exists w, d1; (split_and!; [done..|]); fold d; rewrite Hcon; by eexists.
  - intros e He. destruct (unread_or_refused _ _ _ _ He) as [[m ->]|(m & -> & Hm)]; [|apply awp_throw, Hend; right; left; by exists m].
    apply awp_db, wp_settings_form_page; [by eexists|]. intros cx url. destruct (tls_issuer_state tls d) as [[enabled issuers] selected] eqn:Hst.
    apply Hend. left. exists m. eexists. by split_and!.
Qed.
End theorems.

(** ** The form at work *)
Module SettingsUiExamples.
#[local] Existing Instance Toy.lib.
#[local] Existing Instance toy_secrets.
#[local] Existing Instance toy_crypto.
#[local] Existing Instance TlsExamples.toy_ssl.
Import Toy CaExamples IdentityExamples DepsExamples WebUiExamples TlsExamples.
#[local] Strategy 1000 [admin_made viewer_made root_logged_in after request settings_request turn].
(** A base URL, ACME on, the rest as it was. *)
Definition form : SettingsForm := mkSettingsForm " HTTPS://CA.lan " "" "on" "" "on" "" "".
Definition save_run : Outcome SettingsAnswer * (Manager * DB) := settings_request post false None form t2026 started root_logged_in.
Definition is_saved (r : Outcome SettingsAnswer) : bool := match r with Ok Saved => true | _ => false end.
Lemma settings_saved_exact_witness :
  is_saved (fst save_run) = true ∧ bool_decide (settings (snd (snd save_run)) !! BASE_URL = Some "https://ca.lan") = true ∧
  size (audit_events (snd (snd save_run))) = 2%nat ∧
  ∃ user row w, saved (user_actor user) (entries false w) (seen t2026 row root_logged_in) (snd (snd save_run)).
Proof.
  assert (H : is_saved (fst save_run) = true) by (vm_compute; reflexivity).
  split; [exact H|]. split; [vm_compute; reflexivity|]. split; [vm_compute; reflexivity|].
  assert (Hr : save_run = (fst save_run, (fst (snd save_run), snd (snd save_run))))
    by exact (eq_trans (surjective_pairing _) (f_equal (pair _) (surjective_pairing _))).
  destruct (settings_saved_exact (X:=lib) (SS:=toy_secrets) (CR:=toy_crypto) post false None form t2026 started root_logged_in
    _ _ _ root_logged_in_ok Hr) as [(e & He & _)|(user & row & _ & _ & _ & [(m & p & _ & Hp & _)|[(m & _ & He & _)|(w & d1 & _ & Hs & Hm)]])].
  - rewrite He in H. discriminate H.
  - rewrite Hp in H. discriminate H.
  - rewrite He in H. discriminate H.
  - exists user, row, w. unfold tls_concerned in Hm. cbn [andb] in Hm. destruct Hm as (_ & _ & Hd). rewrite Hd. exact Hs.
Defined.
(** A port that is no number passes the base URL's own check and leaves the
    port check as a [ValueError] nobody catches. *)
Example bad_port_is_not_caught :
  raised (fst (settings_request post true None (mkSettingsForm "https://h:x" "" "" "" "on" "" "") t2026 started root_logged_in)) =
  Some (ValueError "Port could not be cast to integer value as 'x'").
Proof. vm_compute. reflexivity. Qed.
End SettingsUiExamples.
