(* ===== verification/Mcp.v ===== *)
(** * [cabin.mcp]: the MCP server

    [mcp/auth.py] and [mcp/server.py]: CA, inventory and issuance as tools of an
    assistant.  A call passes the enablement gate, then the transport verifies
    the bearer token, then the tool runs; each of the three has a database
    session of its own, and other requests may commit in between.  Argument
    types, the JSON-RPC envelope and the masking of every error that is not a
    [ToolError] are FastMCP's; the sentence pydantic makes of a request outside
    its limits is the interface [Reports]. *)

From S2P Require Import Prelude PyStr PyTime Json IPAddr X509Lib X509 Leaf Store Settings CaService Grants Identity Certs Crl AuditLog WebDeps RestApi SettingsUi AcmeApi AcmeServer WebUi.
#[local] Open Scope Z_scope.

(** 1970-01-01, from which [timestamp()] counts. *)
Definition epoch : Z := days 719162.
Example epoch_text : isoformat epoch = "1970-01-01T00:00:00+00:00". Proof. vm_compute. reflexivity. Qed.
Definition UNAUTHENTICATED : string := "a valid API token is required: Authorization: Bearer <token>".
Definition role_refused (r : Role) : Exc :=
  ToolError ("this token's role is " +:+ role_text r +:+ ", which may only read: issuing certificates, " +:+
    "signing CSRs and revoking need a token with the admin or superadmin role").

(** What [model_validate] says of a request it refuses. *)
Class Reports {X : X509Lib} := { issue_report : IssueRequest → string; sign_report : SignRequest → string }.
Arguments Reports {X}.

(** [AccessToken], as far as cabin fills and reads it. *)
Record Access := mkAccess { client_id : string; expires_at : option Z; token_id_claim : Z }.
Record McpCAInfo := mkMcpCAInfo { mcp_issuers : list IssuerInfo; mcp_base_url : option string; directory_urls : list (Z * string) }.

Section mcp.
Context {X : X509Lib} {SS : SecretStore} {CR : Crypto} {RP : Reports}.

Definition is_enabled (db : DB) : bool :=
  get_flag MCP_ENABLED false db && match get_setting BASE_URL db with Some base => negb (bool_decide (base = "")) | None => false end.

(** ** [mcp/auth.py] *)
(** [_verify]; [int(timestamp())] of a naive UTC instant. *)
Definition verify (token : string) (seen : Z) : Tx DB (option Access) :=
  row ← verify_token token seen;
  mret ((λ r, mkAccess (id_text (token_id r)) ((λ e, Z.quot (e - epoch) (seconds 1)) <$> token_expires r) (token_id r)) <$> row).
Definition current_token (access : option Access) : Tx DB TokenRow :=
  a ← lift (of_option access (ToolError UNAUTHENTICATED));
  row ← query (λ db, tokens db !! token_id_claim a);
  lift (of_option row (ToolError UNAUTHENTICATED)).

(** ** Shared by the tools *)
Definition readable (e : Exc) : Exc :=
  match e with
  | IssueError m | NameConstraintError m | ValueError m | RevocationError m | CANotConfiguredError m | UnknownIssuerError m
  | IssuerRetiredError m | IssuerRequiredError m | IssuerForbiddenError m | NoGrantedIssuerError m => ToolError m
  | SecretsError _ => ToolError KEY_UNAVAILABLE
  | _ => e
  end.
Definition readable_errors {A} (m : Tx DB A) : Tx DB A := catch m (λ _, true) (λ e, mthrow (readable e)).
Definition checked (ok : bool) (report : string) : Outcome unit := raise_if (negb ok) (ToolError report).
Definition record_mcp (token : TokenRow) (action : AuditAction) (summary : string) (target : Z) (detail : gmap string json)
    (from : option string) (logged : Z) : Tx DB AuditRow :=
  record (token_actor token) action
    (mkEvent summary (Some ("certificate", Some (str_of_Z target))) (Some (<["via" := JStr "mcp"]> detail)) from) logged.
Definition writer (access : option Access) : Tx DB TokenRow :=
  token ← current_token access;
  _ ← raise_if (bool_decide (token_role token ∉ ADMIN_ROLES)) (role_refused (token_role token));
  mret token.

(** ** The tools *)
Definition directories (db : DB) (l : list IssuerInfo) : list (Z * string) :=
  omap (λ i, if decide (ii_kind i = Intermediate) then pair (ii_id i) <$> directory_url (ii_id i) db else None) l.
Definition tool_get_ca_info : Tx DB McpCAInfo :=
  readable_errors (
    info ← query ca_info; info ← lift info;
    dirs ← query (λ db, if get_flag ACME_ENABLED false db then directories db (issuers info) else []);
    mret (mkMcpCAInfo (issuers info) (base_url info) dirs)).
Definition tool_list_certificates (q : option string) (status : option CertStatus) (page now : Z) : Tx DB (Listing Summary) :=
  _ ← raise_if ((Z.of_nat MAX_QUERY_LENGTH <? py_len (default "" q)) || (page <? 1) || (MAX_PAGE <? page)) unprocessable;
  found ← query (list_certificates (default "" q) (match status with Some s => status_text s | None => "all" end) page PER_PAGE now);
  lift (certificate_list (fst found) (snd found) page now).
Definition no_such_certificate (n : Z) : Exc := ToolError ("no such certificate: " +:+ str_of_Z n).
Definition tool_get_certificate (certificate_id now : Z) : Tx DB PemView :=
  readable_errors (
    found ← query (get_certificate certificate_id);
    row ← lift (of_option found (no_such_certificate certificate_id));
    view ← query (certificate_pem row now None);
    lift view).
Definition tool_issue_certificate (access : option Access) (body : IssueRequest) (d : Draw) (created shown logged : Z)
    (from : option string) : Tx DB Detail :=
  token ← writer access;
  _ ← lift (checked (issue_request_ok body) (issue_report body));
  '(result, issued) ← readable_errors (
    result ← issue_and_store (token_principal token) (ir_profile body) (ir_subject_cn body) (ir_sans body) (ir_days body)
      (ir_key_type body) (ir_issuer body) mcp d created;
    view ← query (certificate_pem (issued_row result) shown (capped_from result));
    view ← lift view;
    key ← lift (key_pem (issued_row result));
    mret (result, mkDetail (pv_summary view) (pv_pem view) (pv_chain view) (pv_capped view) key None));
  let row := issued_row result in
  _ ← record_mcp token a_cert_issued (issued_summary row) (crt_id row) (certificate_detail row (Some (ir_key_type body))
      (if bool_decide (is_Some (capped_from result)) then Some (ir_days body) else None) (capped_from result)) from logged;
  mret issued.
Definition tool_sign_csr (access : option Access) (body : SignRequest) (d : Draw) (created shown logged : Z)
    (from : option string) : Tx DB PemView :=
  token ← writer access;
  _ ← lift (checked (sign_request_ok body) (sign_report body));
  '(result, signed) ← readable_errors (
    result ← sign_csr_and_store (token_principal token) (sr_csr body) (sr_profile body) (sr_days body)
      (if nonempty (sr_sans body) then Some (sr_sans body) else None) None false (sr_issuer body) mcp d created;
    view ← query (certificate_pem (issued_row result) shown (capped_from result));
    view ← lift view;
    mret (result, view));
  let row := issued_row result in
  _ ← record_mcp token a_cert_signed (signed_summary row) (crt_id row) (certificate_detail row None
      (if bool_decide (is_Some (capped_from result)) then Some (sr_days body) else None) (capped_from result)) from logged;
  mret signed.
Definition tool_revoke_certificate (access : option Access) (certificate_id : Z) (reason : RevocationReason) (now logged : Z)
    (from : option string) : Tx DB RevocationInfo :=
  token ← writer access;
  existing ← query (get_certificate certificate_id);
  let was_revoked := match existing with Some r => bool_decide (is_Some (revoked_at r)) | None => false end in
  row ← readable_errors (revoke_certificate certificate_id reason (token_principal token) now);
  _ ← (if was_revoked then mret () else
         _ ← record_mcp token a_cert_revoked (revoked_summary row reason) (crt_id row) (revocation_detail row reason) from logged;
         mret ());
  info ← query (revocation_info row);
  lift info.

(** ** One call *)
Inductive McpAnswer (A : Type) := NotFound | Unauthorized | Answered (r : Outcome A).
Arguments NotFound {A}.
Arguments Unauthorized {A}.
Arguments Answered {A} _.
(** The gate, the transport and the tool; [others1] and [others2] are what
    other requests commit in between. *)
Definition mcp_call {A} (bearer : option string) (tool : option Access → Tx DB A) (seen : Z) (others1 others2 : DB → DB) (db : DB)
  : McpAnswer A * DB :=
  if negb (is_enabled db) then (NotFound, db) else
  let db1 := others1 db in
  match bearer with
  | None => (Unauthorized, db1)
  | Some secret =>
      match request (verify secret seen) db1 with
      | (Ok (Some access), db2) => let '(r, db3) := request (tool (Some access)) (others2 db2) in (Answered r, db3)
      | (Ok None, db2) => (Unauthorized, db2)
      | (Raise e, db2) => (Answered (Raise e), db2)
      end
  end.
End mcp.
Arguments NotFound {A}.
Arguments Unauthorized {A}.
Arguments Answered {A} _.

(** ** Correctness *)
Section theorems.
Context {X : X509Lib} {SS : SecretStore} {CR : Crypto} {RP : Reports}.

Lemma wp_readable_errors {A} (m : Tx DB A) s (Q : Outcome A → Session DB → Prop) :
  wp m s (λ r s', match r with Ok a => Q (Ok a) s' | Raise e => Q (Raise (readable e)) s' end) → wp (readable_errors m) s Q.
Proof. intros H. apply wp_catch. eapply wp_mono; [exact H|]. by intros [a|e] s'. Qed.

(** The token behind a call, as its row is when the tool runs. *)
Definition caller (access : option Access) (db : DB) (token : TokenRow) : Prop :=
  ∃ a, access = Some a ∧ tokens db !! token_id_claim a = Some token.
Lemma wp_writer access s (Q : Outcome TokenRow → Session DB → Prop) :
  (∀ token, caller access (work s) token → token_role token ∈ ADMIN_ROLES → Q (Ok token) s) →
  (∀ m, Q (Raise (ToolError m)) s) → wp (writer access) s Q.
Proof.
  intros Hok Hno. unfold writer, current_token. wp_run; options; try apply Hno.
  - match goal with E : bool_decide _ = false |- _ => apply bool_decide_eq_false, dec_stable in E end. apply Hok; [by eexists|done].
Qed.
Lemma wp_checked ok report s (Q : Outcome unit → Session DB → Prop) :
  (ok = true → Q (Ok ()) s) → (ok = false → Q (Raise (ToolError report)) s) → wp (lift (checked ok report)) s Q.
Proof. unfold checked, wp. destruct ok; cbn; auto. Qed.

(** The event of a deed done over MCP. *)
Record mcp_entry (token : TokenRow) (action : AuditAction) (e : AuditRow) : Prop := {
  mcp_entry_token : token_entry token action e;
  mcp_entry_via : ∃ d, aud_detail e = Some d ∧ d !! "via" = Some (JStr "mcp") }.
Lemma wp_record_mcp token action summary target detail from logged s (Q : Outcome AuditRow → Session DB → Prop) :
  (∀ entry, mcp_entry token action entry → audit_events (work s) !! aud_id entry = None →
     let db := on_audit (λ m, <[aud_id entry := entry]> m) (work s) in Q (Ok entry) (mkSession db db)) →
  wp (record_mcp token action summary target detail from logged) s Q.
Proof.
  intros H. apply wp_record. intros row db Hfree. apply H; [|done]. split; [by apply token_entry_row|].
  eexists. split; [done|]. apply lookup_insert_eq.
Qed.

(** What an issuing tool that answers has done, starting from [db]. *)
Definition issued_over_mcp (token : TokenRow) (body : IssueRequest) (db : DB) (dt : Detail) (db' : DB) : Prop :=
  ∃ row cert ic ik key entry,
    issued_by db (token_principal token) (ir_issuer body) row cert ic ik ∧ crt_source row = mcp ∧
    dt_pem dt = crt_pem row ∧ sm_serial (dt_summary dt) = serial_hex row ∧
    dt_key dt = Some (PlainPem (private_pem key)) ∧ public_key key = cert_key cert ∧
    mcp_entry token a_cert_issued entry ∧ audit_events db !! aud_id entry = None ∧
    db' = on_audit (λ m, <[aud_id entry := entry]> m) (on_certs (λ m, <[crt_id row := row]> m) db).
Lemma tool_issue_wp access body d created shown logged from db : hierarchy_ok db → 0 ≤ d_serial d →
  wp (tool_issue_certificate access body d created shown logged from) (fresh_session db) (λ r s,
    match r with
    | Ok dt => ∃ token, caller access db token ∧ token_role token ∈ ADMIN_ROLES ∧ issue_request_ok body = true ∧
        issued_over_mcp token body db dt (durable s)
    | Raise _ => durable s = db
    end).
Proof.
  intros Hh Hser. unfold tool_issue_certificate. apply wp_bind, wp_writer; [|done]. cbn [work fresh_session]. intros token Hc Hrole.
  apply wp_bind, wp_checked; [|done]. intros Hok.
  apply wp_bind, wp_readable_errors, wp_bind, wp_issue_and_store; [done|done| |done].
  intros row cert ic ik capped Hby Hsrc _ (crl & aia & sk & _ & Hkey) _. cbn zeta. set (d2 := on_certs _ _).
  destruct (issued_shown _ _ _ _ _ _ _ shown capped Hh Hby) as (view & Hview & Hvp & Hvs & _).
  destruct (row_key _ _ (issued_describes _ _ _ _ _ _ _ Hby) _ Hkey) as (key & Hun & Hpub).
  apply wp_bind, wp_query. cbn [work issued_row Certs.capped_from]. change (certificate_pem row shown capped d2 = Ok view) in Hview.
  rewrite Hview. apply wp_bind, wp_lift; [|done]. intros ? [= <-]. unfold key_pem. rewrite Hkey, Hun. cbn [mbind Outcome_bind].
  apply wp_bind, wp_lift; [|done]. intros ? [= <-]. apply wp_ret. cbn [issued_row Certs.capped_from].
  apply wp_bind, wp_record_mcp. intros entry He Hfree. apply wp_ret. cbn [durable work] in *.
  exists token. split_and!; [done..|]. exists row, cert, ic, ik, key, entry. by split_and!.
Qed.

Lemma used_identity credentials now row db d : presents credentials now db row → used now row db d → identity_ok db → identity_ok d.
Proof.
  intros (x & _ & _ & Hi & _) [->| ->]; [done|]. intros Hdb.
  exact (identity_save_token db _ row (with_last_used now row) Hdb Hi eq_refl eq_refl).
Qed.
(** The transport lets a bearer through for a live token, and then knows its id. *)
Lemma verify_wp secret seen db : identity_ok db →
  wp (verify secret seen) (fresh_session db) (λ r s,
    match r with
    | Ok (Some a) => ∃ row, presents (Some secret) seen db row ∧ token_id_claim a = token_id row ∧ used seen row db (durable s)
    | Ok None => durable s = db ∧ ∀ row, ¬ presents (Some secret) seen db row
    | Raise _ => False
    end).
Proof.
  intros Hid. unfold verify. apply wp_bind. eapply wp_mono; [by apply verify_token_wp|].
  intros [[row'|]|e] s [-> Hv]; cbn in Hv; [|destruct Hv as [Hd Hnone]|done].
  - destruct Hv as (Hne & row & Hi & Hh & Ha & Hw). apply wp_ret. cbn [fmap option_fmap option_map]. exists row. split; [by exists secret|].
    destruct Hw as [(-> & -> & _)|(-> & -> & _)]; (split; [done|]); [by left|by right].
  - apply wp_ret. cbn [fmap option_fmap option_map]. split; [done|]. intros row (x & [= <-] & Hne & Hi & Hh & Ha). destruct Hnone as [|Hnone]; [done|]. by eapply Hnone.
Qed.
(** What a call comes to, whatever the tool. *)
Lemma mcp_call_spec {A} bearer (tool : option Access → Tx DB A) seen others1 others2 db ans db' : identity_ok (others1 db) →
  mcp_call bearer tool seen others1 others2 db = (ans, db') →
  match ans with
  | NotFound => is_enabled db = false ∧ db' = db
  | Unauthorized => is_enabled db = true ∧ db' = others1 db ∧ ∀ row, ¬ presents bearer seen (others1 db) row
  | Answered r => is_enabled db = true ∧ ∃ row d2 a, presents bearer seen (others1 db) row ∧ used seen row (others1 db) d2 ∧
      token_id_claim a = token_id row ∧ request (tool (Some a)) (others2 d2) = (r, db')
  end.
Proof.
  intros Hid. unfold mcp_call. destruct (is_enabled db); cbn [negb]; [|by intros [= <- <-]].
  destruct bearer as [secret|]; [|intros [= <- <-]; cbn; split_and!; [done..|]; by intros row (x & Hx & _)].
  destruct (request (verify secret seen) (others1 db)) as [r d2] eqn:Hv.
  pattern r, d2. eapply request_wp; [exact Hv|]. clear r d2 Hv. cbn beta.
  eapply wp_mono; [by apply verify_wp|]. intros [[a|]|e] s Hs; [|destruct Hs as [-> Hno]|done].
  - destruct Hs as (row & Hp & Ha & Hu). destruct (request (tool (Some a)) (others2 (durable s))) as [r d3] eqn:Hr.
    intros [= <- <-]. split; [done|]. by exists row, (durable s), a.
  - by intros [= <- <-].
Qed.

(** C29: issuing over MCP.  While MCP is off, or has no base URL, the answer is
    a 404 and nothing is read or written; without the secret of a token that
    is live when the transport looks it is a 401.  An answer of the tool means
    that the row of that same token was an admin's or superadmin's when the
    tool ran, whatever other requests committed in between, that the request
    was within the limits of the REST API, and that one certificate was issued
    with the grants of that row: through an active issuer, the one named if one
    is; with its own private key in the answer; with exactly one row and one
    log entry, in the token's name and marked as MCP's, added.  An error leaves
    what the other requests left. *)
Theorem mcp_issue_exact bearer body seen d created shown logged from others1 others2 db ans db' :
  (∀ x, system_ok x → system_ok (others1 x)) → (∀ x, system_ok x → system_ok (others2 x)) → system_ok db → 0 ≤ d_serial d →
  mcp_call bearer (λ a, tool_issue_certificate a body d created shown logged from) seen others1 others2 db = (ans, db') →
  match ans with
  | NotFound => is_enabled db = false ∧ db' = db
  | Unauthorized => is_enabled db = true ∧ db' = others1 db ∧ ∀ row, ¬ presents bearer seen (others1 db) row
  | Answered r => is_enabled db = true ∧ ∃ row d2, presents bearer seen (others1 db) row ∧ used seen row (others1 db) d2 ∧
      match r with
      | Ok dt => ∃ token, tokens (others2 d2) !! token_id row = Some token ∧ token_role token ∈ ADMIN_ROLES ∧
          issue_request_ok body = true ∧ issued_over_mcp token body (others2 d2) dt db'
      | Raise _ => db' = others2 d2
      end
  end.
Proof.
  intros H1 H2 Hok Hser Hcall. destruct (H1 _ Hok) as [Hh1 Hid1].
  apply mcp_call_spec in Hcall; [|done]. destruct ans as [| |r]; [done..|].
  destruct Hcall as (Hen & row & d2 & a & Hp & Hu & Ha & Hreq). split; [done|]. exists row, d2. split_and!; [done..|].
  assert (Hsys : system_ok (others2 d2)).
  { apply H2. split; [by eapply used_hierarchy|]. exact (used_identity _ _ _ _ _ Hp Hu Hid1). }
  pattern r, db'. eapply request_wp; [exact Hreq|]. eapply wp_mono; [apply tool_issue_wp; [apply Hsys|done]|].
  intros [dt|e] s Hs; [|done]. destruct Hs as (token & (a' & [= <-] & Ht) & Hrole & Hrok & Hiss).
  exists token. by rewrite <- Ha.
Qed.

(** Two front doors tell the same story: equal answers, or one failure in the
    words of each. *)
Definition same_story {A B} (same : A → B → Prop) (m : Outcome A) (r : Outcome B) : Prop :=
  match m, r with
  | Ok a, Ok b => same a b
  | Raise e, Raise e' => (∃ x, e = readable x ∧ e' = domain_error x) ∨
      ∃ n, e = no_such_certificate n ∧ e' = HTTPException 404 "no such certificate" []
  | _, _ => False
  end.
Definition same_certificate (v : PemView) (dt : Detail) : Prop :=
  dt_summary dt = pv_summary v ∧ dt_pem dt = pv_pem v ∧ dt_chain dt = pv_chain v ∧ dt_capped dt = pv_capped v.
Definition same_cas (m : McpCAInfo) (c : CAInfo) : Prop := mcp_issuers m = issuers c ∧ mcp_base_url m = base_url c.

Lemma tool_get_certificate_eq n now db : request (tool_get_certificate n now) db =
  (match certs db !! n with
   | Some row => match certificate_pem row now None db with Ok v => Ok v | Raise e => Raise (readable e) end
   | None => Raise (no_such_certificate n) end, db).
Proof.
  unfold tool_get_certificate, readable_errors, request, catch, get_certificate. rewrite Tx_bind_eq. unfold query at 1. cbn [work fresh_session].
  destruct (certs db !! n) as [row|]; [|done]. unfold of_option. rewrite Tx_bind_eq. unfold lift at 1. rewrite Tx_bind_eq. unfold query, lift.
  cbn [work fresh_session]. by destruct (certificate_pem row now None db).
Qed.
Lemma tool_get_ca_info_eq db : request tool_get_ca_info db =
  (match ca_info db with
   | Ok info => Ok (mkMcpCAInfo (issuers info) (base_url info) (if get_flag ACME_ENABLED false db then directories db (issuers info) else []))
   | Raise e => Raise (readable e) end, db).
Proof.
  unfold tool_get_ca_info, readable_errors, request, catch. rewrite Tx_bind_eq. unfold query at 1. rewrite Tx_bind_eq. unfold lift.
  cbn [work fresh_session]. by destruct (ca_info db).
Qed.

(** What an authenticated read of the REST API does. *)
Lemma api_read_then {A} credentials seen db token (f : TokenRow → Tx DB A) (Q : Outcome A → Prop) : identity_ok db →
  presents credentials seen db token →
  (∀ t d, token_of t token → used seen token db d → wp (f t) (fresh_session d) (λ r _, Q r)) →
  Q (fst (request (t ← require_api_read credentials seen; f t) db)).
Proof.
  intros Hid Hp H. apply (request_post _ _ (λ p, Q (fst p))). apply wp_bind. unfold require_api_read. apply wp_require_api_role; [done|..].
  - intros t row d Hp' Ht _ Hu. assert (row = token) as -> by (by eapply presents_unique). cbn. by apply H.
  - intros Hno. by apply Hno in Hp.
  - intros row d Hp' Hr. exfalso. apply Hr. destruct (token_role row); by_decide.
Qed.

(** MCP and REST describe the same certificates.  On every database, for
    every live token, listing within the limits, looking up a certificate and
    describing the CAs over MCP give field for field what the REST API gives
    to that token - the same page, the same certificate and chain, the same
    issuers - or fail together, each in its own words; no private key is in a
    lookup over MCP; and a reading tool writes nothing. *)
Theorem mcp_reads_as_rest credentials token seen now db q status page n : identity_ok db → inventory_ok db →
  presents credentials seen db token → py_len q ≤ Z.of_nat MAX_QUERY_LENGTH → 1 ≤ page ≤ MAX_PAGE →
  fst (request (tool_list_certificates (Some q) status page now) db) =
    fst (request (list_certificates_route credentials q status page seen now) db) ∧
  same_story same_certificate (fst (request (tool_get_certificate n now) db)) (fst (request (get_certificate_route credentials n seen now) db)) ∧
  same_story same_cas (fst (request tool_get_ca_info db)) (fst (request (get_ca_route credentials seen) db)) ∧
  snd (request (tool_list_certificates (Some q) status page now) db) = db ∧
  snd (request (tool_get_certificate n now) db) = db ∧ snd (request tool_get_ca_info db) = db.
Proof.
  intros Hid Hinv Hp Hq Hpage.
  assert (Hsame : ∀ d, used seen token db d → d = db ∨ ∃ f, d = on_tokens f db) by (intros d [->| ->]; eauto).
  assert (Hlim : (Z.of_nat MAX_QUERY_LENGTH <? py_len q) || (page <? 1) || (MAX_PAGE <? page) = false)
    by (rewrite !orb_false_iff; lia).
  split_and!.
  - apply (api_read_then credentials seen db token _ (λ r, _ = r)); [done..|]. intros t d _ Hu.
    unfold tool_list_certificates. change (default "" (Some q)) with q. rewrite Hlim. destruct (Hsame d Hu) as [->|[f ->]]; reflexivity.
  - apply (api_read_then credentials seen db token _ (same_story _ _)); [done..|]. intros t d _ Hu.
    rewrite tool_get_certificate_eq. cbn [fst]. apply wp_bind, wp_query. unfold get_certificate. cbn [work fresh_session].
    assert (certs d = certs db) as -> by (by destruct (Hsame d Hu) as [->|[f ->]]).
    destruct (certs db !! n) as [row|] eqn:Hrow; cbn [certificate_or_404 of_option]; [|right; by exists n].
    apply wp_bind, wp_lift; [|done]. intros ? [= <-]. apply wp_domain_errors, wp_bind, wp_query. unfold detail_of.
    assert (certificate_pem row now None (work (fresh_session d)) = certificate_pem row now None db) as ->
      by (by destruct (Hsame d Hu) as [->|[f ->]]).
    destruct (certificate_pem row now None db) as [v|e] eqn:Hview; [|left; by exists e]. cbn [mbind Outcome_bind].
    destruct (key_fields t row) as [[k err]|e] eqn:Hk; [by split_and!|].
    exfalso. unfold key_fields in Hk. destruct (bool_decide _); [done|]. destruct (cert_rows _ (inv_certs _ Hinv) n row Hrow) as [cert Hd].
    destruct (crt_key row) as [sk|] eqn:Hsk.
    + destruct (key_material_ok row cert sk Hd Hsk) as (key & Hm & _). congruence.
    + unfold key_material in Hk. by rewrite Hsk in Hk.
  - apply (api_read_then credentials seen db token _ (same_story _ _)); [done..|]. intros t d _ Hu.
    rewrite tool_get_ca_info_eq. cbn [fst]. apply wp_domain_errors, wp_bind, wp_query. cbn [work fresh_session].
    assert (ca_info d = ca_info db) as -> by (by destruct (Hsame d Hu) as [->|[f ->]]).
    destruct (ca_info db) as [info|e]; [done|left; by exists e].
  - unfold tool_list_certificates. change (default "" (Some q)) with q. by rewrite Hlim.
  - by rewrite tool_get_certificate_eq.
  - by rewrite tool_get_ca_info_eq.
Qed.
End theorems.

(** * Examples *)
Module McpExamples.
#[local] Existing Instance Toy.lib.
#[local] Existing Instance toy_secrets.
#[local] Existing Instance toy_crypto.
Import Toy CaExamples CertExamples CrlExamples RestApiExamples.
#[local] Instance toy_reports : Reports := {| issue_report _ := "days: out of range"; sign_report _ := "days: out of range" |}.
(** The REST example, with MCP switched on. *)
Definition switched_on : DB := on_settings (λ _, <[MCP_ENABLED := "true"]> {[BASE_URL := "https://ca.lan"]}) scripted.
#[local] Strategy 1000 [switched_on].
Lemma switched_on_system : system_ok switched_on.
Proof.
  split; [exact (hierarchy_same scripted switched_on eq_refl (inv_hierarchy _ scripted_inventory))|].
  refine (identity_same scripted switched_on _ scripted_identity). by repeat split.
Qed.
Lemma switched_on_inventory : inventory_ok switched_on.
Proof.
  destruct scripted_inventory as [H1 H2 H3]. split; [exact (hierarchy_same scripted switched_on eq_refl H1)| |exact H3].
  exact (certs_ok_same scripted switched_on eq_refl eq_refl H2).
Qed.
Definition assistant (bearer : option string) (body : IssueRequest) (others : DB → DB) (db : DB) : McpAnswer Detail * DB :=
  mcp_call bearer (λ a, tool_issue_certificate a body (draw 40) tomorrow tomorrow tomorrow None) tomorrow id others db.
Definition outcome {A} (r : McpAnswer A * DB) : option (Outcome A) := match fst r with Answered o => Some o | _ => None end.
Definition refused_with {A} (r : McpAnswer A * DB) : option Z :=
  match fst r with NotFound => Some 404 | Unauthorized => Some 401 | Answered _ => None end.
Definition answered_ok {A} (r : McpAnswer A * DB) : bool := match outcome r with Some o => is_ok o | None => false end.

(** Off, the endpoint is not there; the monitor is told why it may not; the
    script gets its certificate. *)
Lemma mcp_issue_exact_witness :
  refused_with (assistant script wanted id scripted) = Some 404 ∧
  (outcome (assistant monitor wanted id switched_on) ≫= raised) = Some (role_refused viewer) ∧
  refused_with (assistant (Some "cabin_token-77") wanted id switched_on) = Some 401 ∧
  ∃ dt db', assistant script wanted id switched_on = (Answered (Ok dt), db') ∧ is_Some (dt_key dt).
Proof.
  split_and!; [vm_compute; reflexivity..|].
  assert (H : answered_ok (assistant script wanted id switched_on) = true) by (vm_compute; reflexivity).
  assert (Hs : 0 ≤ d_serial (draw 40)) by (vm_compute; discriminate).
  pose proof (mcp_issue_exact (X:=lib) (SS:=toy_secrets) (CR:=toy_crypto) (RP:=toy_reports) script wanted tomorrow (draw 40) tomorrow
    tomorrow tomorrow None id id switched_on _ _ (λ x H, H) (λ x H, H) switched_on_system Hs (surjective_pairing _)) as Hx.
  change (mcp_call script _ tomorrow id id switched_on) with (assistant script wanted id switched_on) in Hx.
  destruct (assistant script wanted id switched_on) as [[| |[dt|e]] db']; [discriminate H|discriminate H| |discriminate H].
  cbn [fst snd] in Hx. destruct Hx as (_ & row & d2 & _ & _ & token & _ & _ & _ & Hiss).
  destruct Hiss as (r & cert & ic & ik & key & entry & _ & _ & _ & _ & Hk & _).
  exists dt, db'. split; [reflexivity|]. rewrite Hk. eexists. reflexivity.
Defined.
(** A token revoked after the transport looked still issues. *)
Example revoked_meanwhile :
  answered_ok (assistant script wanted (λ d, snd (request (revoke_token 1 tomorrow) d)) switched_on) = true ∧
  (tokens (snd (assistant script wanted (λ d, snd (request (revoke_token 1 tomorrow) d)) switched_on)) !! 1 ≫= token_revoked) = Some tomorrow.
Proof. split; vm_compute; reflexivity. Qed.
Definition script_row : TokenRow := default (mkToken 0 "" "" viewer 0 None None None) (tokens switched_on !! 1).
Lemma script_presents : presents script tomorrow switched_on script_row.
Proof. exists "cabin_token-9". split_and!; vm_compute; done. Qed.
(** The one certificate of the inventory, over both doors. *)
Lemma mcp_reads_as_rest_witness :
  is_ok (fst (request (tool_get_certificate 1 tomorrow) switched_on)) = true ∧
  is_ok (fst (request (tool_get_certificate 7 tomorrow) switched_on)) = false ∧
  is_ok (fst (request tool_get_ca_info switched_on)) = true ∧
  same_story same_certificate (fst (request (tool_get_certificate 1 tomorrow) switched_on))
    (fst (request (get_certificate_route script 1 tomorrow tomorrow) switched_on)).
Proof.
  split_and!; [vm_compute; reflexivity..|].
  assert (Hq : py_len "nas" ≤ Z.of_nat MAX_QUERY_LENGTH) by (vm_compute; discriminate).
  assert (Hp : 1 ≤ 1 ≤ MAX_PAGE) by (vm_compute; split; discriminate).
  exact (proj1 (proj2 (mcp_reads_as_rest (X:=lib) (SS:=toy_secrets) (CR:=toy_crypto) script script_row tomorrow tomorrow switched_on
    "nas" None 1 1 (proj2 switched_on_system) switched_on_inventory script_presents Hq Hp))).
Defined.
End McpExamples.
