(* ===== verification/CaPages.v ===== *)
(** * [cabin.web.ca_ui]: the pages about the hierarchies

    The list, the page of one hierarchy and the page of one row, as the data
    their templates are given, and which page a row is shown on.  Matching a
    path to a page is the framework's; the texts of dates are left out, the
    first-run note about TLS is in Dashboard.v. *)

From S2P Require Import Prelude PyStr PyTime Json IPAddr X509Lib X509 Leaf Store Settings CaService Grants Identity Certs AuditLog WebDeps WebUi AcmeApi AcmeServer.
#[local] Open Scope Z_scope.

(** [_page_of]'s three forms of path. *)
Inductive PageRef := HierarchyPage (root : Z) | IssuerPage (root issuer : Z) | CrossPage (root cross : Z).
#[export] Instance PageRef_eq_dec : EqDecision PageRef.
Proof. solve_decision. Defined.
Definition page_path (p : PageRef) : string :=
  match p with
  | HierarchyPage n => "/ca/" +:+ id_text n
  | IssuerPage r n => "/ca/" +:+ id_text r +:+ "/issuer/" +:+ id_text n
  | CrossPage r n => "/ca/" +:+ id_text r +:+ "/cross/" +:+ id_text n
  end.
Inductive Served := served_default | served_alternate | not_served.
(** What the templates are given. *)
Record CertInfo := mkCertInfo {
  ci_described : CertDescription; ci_kind : CAKind; ci_permitted_dns : list string; ci_permitted_ip : list string;
  ci_excluded_dns : list string; ci_excluded_ip : list string; ci_constrained : bool }.
Record RowView := mkRowView {
  rw_info : CertInfo; rw_id : Z; rw_name : string; rw_kind : CAKind; rw_status : CAStatus; rw_can_create : bool;
  rw_can_renew : bool; rw_can_retire : bool; rw_crl_url : option string; rw_ca_url : option string; rw_directory : option string }.
Record ChildView := mkChildView {
  cv_id : Z; cv_name : string; cv_kind : CAKind; cv_status : CAStatus; cv_not_after : Z; cv_href : PageRef }.
Record CrossView := mkCrossView { xv_child : ChildView; xv_signed_by : string; xv_served : Served }.
Record ChainView := mkChainView { chv_name : string; chv_id : Z; chv_via_cross : bool }.
Record Group := mkGroup {
  gr_root : RowView; gr_intermediates : list ChildView; gr_cross : list CrossView; gr_default : ChainView;
  gr_alternates : list ChainView; gr_candidates : list (Z * string) }.
Record RootView := mkRootView {
  rv_row : Z * string * CAStatus * Z; rv_intermediates : list ChildView; rv_cross_count : nat }.
Record IssuerView := mkIssuerView { iv_root : Z * string; iv_row : RowView; iv_served : option (Served * string) }.
Inductive OpenForm := open_intermediate | open_cross_sign.
#[export] Instance OpenForm_eq_dec : EqDecision OpenForm.
Proof. solve_decision. Defined.

Inductive CaAnswer :=
  | Redirect (location : string)
  | ListPage (cx : Context_) (l : list RootView)
  | NewPage (status : Z) (cx : Context_) (error : option string)
  | DetailPage (status : Z) (cx : Context_) (error : option string) (g : Group) (opened : option OpenForm)
  | RowPage (status : Z) (cx : Context_) (error : option string) (v : IssuerView)
  | ImportPage (status : Z) (cx : Context_) (error : option string)
  | CrossImportPage (status : Z) (cx : Context_) (error : option string).

Section pages.
Context {X : X509Lib} {SS : SecretStore} {CR : Crypto}.

Definition cert_info (row : CARow) : Outcome CertInfo :=
  cert ← load_cert (ca_cert row);
  constraints ← constraints_of cert;
  mret (mkCertInfo (describe_certificate cert) (ca_kind row) (permitted_dns constraints) (map str_network (permitted_ip constraints))
    (excluded_dns constraints) (map str_network (excluded_ip constraints)) (negb (is_empty constraints))).
Definition has_key (row : CARow) : bool := bool_decide (is_Some (ca_key row)).
Definition row_view (db : DB) (row : CARow) (parent_has_key acme_enabled : bool) : Outcome RowView :=
  let signing_key_available := if decide (ca_kind row = Root) then has_key row else parent_has_key in
  let is_intermediate := bool_decide (ca_kind row = Intermediate) in
  info ← cert_info row;
  crl_url ← (if is_intermediate then distribution_url (ca_id row) db else mret None);
  ca_url ← (if is_intermediate then ca_issuers_url (ca_id row) db else mret None);
  let active := bool_decide (ca_status row = Active) in
  mret (mkRowView info (ca_id row) (ca_name row) (ca_kind row) (ca_status row) (bool_decide (ca_kind row = Root) && has_key row)
    (signing_key_available && active) active crl_url ca_url
    (if is_intermediate && acme_enabled then directory_url (ca_id row) db else None)).
Definition page_of (row : CARow) : Outcome PageRef :=
  match ca_kind row with
  | Root => mret (HierarchyPage (ca_id row))
  | Intermediate => p ← of_option (parent_id row) (AssertionError ""); mret (IssuerPage p (ca_id row))
  | Cross => c ← of_option (cross_of_id row) (AssertionError ""); mret (CrossPage c (ca_id row))
  end.
Definition child_view (row : CARow) : Outcome ChildView :=
  cert ← load_cert (ca_cert row);
  href ← page_of row;
  mret (mkChildView (ca_id row) (ca_name row) (ca_kind row) (ca_status row) (desc_not_after (describe_certificate cert)) href).
Fixpoint cross_sign_candidates (rows : list CARow) (subject : CARow) (subject_cert : Cert) : Outcome (list (Z * string)) :=
  match rows with
  | [] => mret []
  | row :: rows =>
      if negb (bool_decide (ca_kind row = Root)) || bool_decide (ca_id row = ca_id subject) || negb (has_key row)
      then cross_sign_candidates rows subject subject_cert else
      issuer_cert ← load_cert (ca_cert row);
      error ← cross_path_length_error subject_cert issuer_cert;
      rest ← cross_sign_candidates rows subject subject_cert;
      mret (match error with None => (ca_id row, ca_name row) :: rest | Some _ => rest end)
  end.
Definition is_child (root : Z) (row : CARow) : bool := bool_decide (ca_kind row = Intermediate) && bool_decide (parent_id row = Some root).
Definition is_cross_of (root : Z) (row : CARow) : bool := bool_decide (ca_kind row = Cross) && bool_decide (cross_of_id row = Some root).
Definition served_as (s : ChainSet) (cross : CARow) : Served :=
  if bool_decide (via_cross_id (default_chain s) = Some (ca_id cross)) then served_default
  else if bool_decide (Some (ca_id cross) ∈ map via_cross_id (alternates s)) then served_alternate else not_served.
Definition signer_name (found : option CARow) : string := match found with Some s => ca_name s | None => "unknown" end.
Definition chain_view (c : Chain) : Outcome ChainView :=
  top ← of_option (last (chain_rows c)) (AssertionError "IndexError");
  mret (mkChainView (ca_name top) (ca_id top) (bool_decide (is_Some (via_cross_id c)))).
Definition overview (rows : list CARow) : Outcome (list RootView) :=
  children ← map_each (λ row, v ← child_view row; mret (parent_id row, v)) 
    (List.filter (λ r, bool_decide (ca_kind r = Intermediate) && bool_decide (is_Some (parent_id r))) rows);
  map_each (λ row,
    cert ← load_cert (ca_cert row);
    mret (mkRootView (ca_id row, ca_name row, ca_status row, desc_not_after (describe_certificate cert))
      (map snd (List.filter (λ c, bool_decide (fst c = Some (ca_id row))) children))
      (length (List.filter (is_cross_of (ca_id row)) rows))))
    (List.filter (λ r, bool_decide (ca_kind r = Root)) rows).
Definition group (db : DB) (rows : list CARow) (root : CARow) (now : Z) : Outcome Group :=
  chain_set ← chains_for db (ca_id root) now;
  cross ← map_each (λ c, v ← child_view c;
      mret (mkCrossView v (signer_name (parent_id c ≫= λ p, by_id rows !! p)) (served_as chain_set c)))
    (List.filter (is_cross_of (ca_id root)) rows);
  root_view ← row_view db root false false;
  intermediates ← map_each child_view (List.filter (is_child (ca_id root)) rows);
  default_ ← chain_view (default_chain chain_set);
  alternates_ ← map_each chain_view (alternates chain_set);
  subject_cert ← load_cert (ca_cert root);
  candidates ← cross_sign_candidates rows root subject_cert;
  mret (mkGroup root_view intermediates cross default_ alternates_ candidates).

(** ** The pages *)
Definition as_404 {A} (m : Tx DB A) : Tx DB A :=
  catch m (λ e, match e with UnknownIssuerError _ => true | _ => false end) (λ e, mthrow (HTTPException 404 (exc_text e) [])).
Definition named_by_its_root : Exc := HTTPException 404 "a hierarchy is named by its root, not by this id" [].
Definition kind_text (k : CAKind) : string := match k with Root => "root" | Intermediate => "intermediate" | Cross => "cross" end.
Definition load_root (n : Z) : Tx DB CARow :=
  root ← as_404 (get_ca n);
  _ ← raise_if (negb (bool_decide (ca_kind root = Root))) named_by_its_root;
  mret root.
Definition load_pair (root_id row_id : Z) (kind : CAKind) : Tx DB (CARow * CARow) :=
  root ← load_root root_id;
  row ← as_404 (get_ca row_id);
  _ ← raise_if (negb (bool_decide (ca_kind row = kind))) (HTTPException 404 ("this id does not name a " +:+ kind_text kind +:+ " certificate") []);
  let owner_id := if decide (kind = Intermediate) then parent_id row else cross_of_id row in
  _ ← raise_if (negb (bool_decide (owner_id = Some (ca_id root)))) (HTTPException 404 "this row does not belong to that hierarchy" []);
  mret (root, row).
Definition root_of (row : CARow) : Tx DB CARow :=
  match ca_kind row with
  | Root => mret row
  | Intermediate => p ← lift (of_option (parent_id row) (AssertionError "")); get_ca p
  | Cross => c ← lift (of_option (cross_of_id row) (AssertionError "")); get_ca c
  end.
(** Who is looking: the user, the session of the request, the clock. *)
Record Viewer := mkViewer { vw_user : UserRow; vw_row : SessionRow; vw_now : Z }.
Definition context (v : Viewer) : Tx DB Context_ := base_context (vw_user v) (vw_row v) (vw_now v).
Definition detail_page (v : Viewer) (root : CARow) (error : option string) (status : Z) (opened : option OpenForm) : Tx DB CaAnswer :=
  rows ← query (list_cas None None);
  cx ← context v;
  g ← query (λ db, group db rows root (vw_now v));
  g ← lift g;
  mret (DetailPage status cx error g opened).
Definition issuer_page (v : Viewer) (root row : CARow) (error : option string) (status : Z) : Tx DB CaAnswer :=
  parent_has_key ← (match parent_id row with Some p => r ← get_ca p; mret (has_key r) | None => mret false end);
  acme_enabled ← query (get_flag ACME_ENABLED false);
  view ← query (λ db, row_view db row parent_has_key acme_enabled);
  view ← lift view;
  served ← (if decide (ca_kind row = Cross) then
      chain_set ← query (λ db, chains_for db (ca_id root) (vw_now v));
      chain_set ← lift chain_set;
      signer ← (match parent_id row with Some p => r ← get_ca p; mret (Some r) | None => mret None end);
      mret (Some (served_as chain_set row, signer_name signer))
    else mret None);
  cx ← context v;
  mret (RowPage status cx error (mkIssuerView (ca_id root, ca_name root) view served)).
Definition new_page (v : Viewer) (error : option string) (status : Z) : Tx DB CaAnswer :=
  cx ← context v; mret (NewPage status cx error).
(** [get_current_user], any role. *)
Definition viewer_of (cookie : option string) (seen now : Z) : Tx DB Viewer :=
  '(user, row, _) ← get_current_user cookie seen;
  mret (mkViewer user row now).
Definition ca_page (cookie : option string) (seen now : Z) : Tx DB CaAnswer :=
  v ← viewer_of cookie seen now;
  rows ← query (list_cas None None);
  cx ← context v;
  l ← lift (overview rows);
  mret (ListPage cx l).
Definition ca_new_page (cookie : option string) (seen now : Z) : Tx DB CaAnswer :=
  v ← viewer_of cookie seen now;
  _ ← lift (require_admin (vw_user v));
  new_page v None 200.
Definition opened_by (add : string) : option OpenForm :=
  if decide (add = "intermediate") then Some open_intermediate else if decide (add = "cross-sign") then Some open_cross_sign else None.
Definition ca_detail (cookie : option string) (ca_id_ : Z) (add : string) (seen now : Z) : Tx DB CaAnswer :=
  v ← viewer_of cookie seen now;
  row ← load_root ca_id_;
  detail_page v row None 200 (opened_by add).
Definition ca_issuer_detail (cookie : option string) (root_id issuer_id seen now : Z) : Tx DB CaAnswer :=
  v ← viewer_of cookie seen now;
  '(root, row) ← load_pair root_id issuer_id Intermediate;
  issuer_page v root row None 200.
Definition ca_cross_detail (cookie : option string) (root_id cross_id seen now : Z) : Tx DB CaAnswer :=
  v ← viewer_of cookie seen now;
  '(root, row) ← load_pair root_id cross_id Cross;
  issuer_page v root row None 200.
(** The row a page is about. *)
Definition row_of_page (p : PageRef) : Tx DB CARow :=
  match p with
  | HierarchyPage n => load_root n
  | IssuerPage r n => '(_, row) ← load_pair r n Intermediate; mret row
  | CrossPage r n => '(_, row) ← load_pair r n Cross; mret row
  end.

(** ** Downloads *)
Definition no_such_ca : Exc := HTTPException 404 "no such CA" [].
Definition unknown_as {A} (e : Exc) (m : Tx DB A) : Tx DB A :=
  catch m (λ x, match x with UnknownIssuerError _ => true | _ => false end) (λ _, mthrow e).
Definition ca_cert_pem (cookie : option string) (n seen : Z) : Tx DB Pem :=
  _ ← get_current_user cookie seen;
  row ← unknown_as no_such_ca (get_ca n);
  mret (ca_cert row).
Definition ca_chain_pem (cookie : option string) (issuer_id : Z) (anchor : option Z) (seen now : Z) : Tx DB (list Pem) :=
  _ ← get_current_user cookie seen;
  chain_set ← unknown_as no_such_ca (s ← query (λ db, chains_for db issuer_id now); lift s);
  chain ← match anchor with
          | None => mret (chain_rows (default_chain chain_set))
          | Some a => found ← lift (of_option (by_anchor chain_set a) (HTTPException 404 "no such chain" [])); mret (chain_rows found)
          end;
  mret (map ca_cert chain).
End pages.

(** ** Correctness *)
Section theorems.
Context {X : X509Lib} {SS : SecretStore} {CR : Crypto}.

Lemma wp_as_404 {A} (m : Tx DB A) s (Q : Outcome A → Session DB → Prop) :
  wp m s (λ r s', match r with
    | Ok a => Q (Ok a) s'
    | Raise (UnknownIssuerError t) => Q (Raise (HTTPException 404 t [])) s'
    | Raise e => Q (Raise e) s' end) → wp (as_404 m) s Q.
Proof. intros H. apply wp_catch. eapply wp_mono; [exact H|]. intros [a|e] s'; [done|]. by destruct e. Qed.
Lemma get_ca_404 n s (Q : Outcome CARow → Session DB → Prop) :
  (∀ row, cas (work s) !! n = Some row → Q (Ok row) s) →
  (cas (work s) !! n = None → Q (Raise (HTTPException 404 ("no CA certificate with id " +:+ id_text n) [])) s) → wp (as_404 (get_ca n)) s Q.
Proof. intros H1 H2. apply wp_as_404. unfold get_ca. wp_run; [by apply H1|by apply H2]. Qed.
Definition is_404 (e : Exc) : Prop := ∃ m, e = HTTPException 404 m [].
Lemma wp_load_root n s (Q : Outcome CARow → Session DB → Prop) :
  (∀ row, cas (work s) !! n = Some row → ca_kind row = Root → Q (Ok row) s) →
  (∀ e, is_404 e → ¬ (∃ row, cas (work s) !! n = Some row ∧ ca_kind row = Root) → Q (Raise e) s) → wp (load_root n) s Q.
Proof.
  intros H1 H2. unfold load_root. apply wp_bind, get_ca_404.
  - intros row Hr. apply wp_bind, wp_raise_if; intros Hk.
    + apply H2; [by eexists|]. intros (r & Hr' & Hk'). assert (r = row) as -> by congruence. by rewrite bool_decide_eq_true_2 in Hk.
    + apply negb_false_iff, bool_decide_eq_true in Hk. apply wp_ret. by apply H1.
  - intros Hn. apply H2; [by eexists|]. intros (r & Hr & _). congruence.
Qed.
Definition owner (kind : CAKind) (row : CARow) : option Z := if decide (kind = Intermediate) then parent_id row else cross_of_id row.
Lemma wp_load_pair r n kind db (Q : Outcome (CARow * CARow) → Session DB → Prop) : hierarchy_ok db →
  (∀ root row, cas db !! r = Some root → ca_kind root = Root → cas db !! n = Some row → ca_kind row = kind → owner kind row = Some r →
     Q (Ok (root, row)) (fresh_session db)) →
  (∀ e, is_404 e → ¬ (∃ root row, cas db !! r = Some root ∧ ca_kind root = Root ∧ cas db !! n = Some row ∧ ca_kind row = kind ∧
      owner kind row = Some r) → Q (Raise e) (fresh_session db)) →
  wp (load_pair r n kind) (fresh_session db) Q.
Proof.
  intros Hdb H1 H2. unfold load_pair. apply wp_bind, wp_load_root; cbn [work fresh_session].
  2: { intros e He Hno. apply H2; [done|]. intros (root & row & Hr & Hk & _). apply Hno. by exists root. }
  intros root Hr Hkr. destruct (Hdb _ _ Hr) as [Hid _]. apply wp_bind, get_ca_404; cbn [work fresh_session].
  2: { intros Hn. apply H2; [by eexists|]. intros (? & row & _ & _ & Hn' & _). congruence. }
  intros row Hn. apply wp_bind, wp_raise_if; intros Hk.
  { apply H2; [by eexists|]. intros (? & row' & _ & _ & Hn' & Hk' & _). assert (row' = row) as -> by congruence.
    by rewrite bool_decide_eq_true_2 in Hk. }
  apply negb_false_iff, bool_decide_eq_true in Hk. fold (owner kind row). rewrite Hid. apply wp_bind, wp_raise_if; intros Ho.
  { apply H2; [by eexists|]. intros (? & row' & _ & _ & Hn' & _ & Ho'). assert (row' = row) as -> by congruence.
    by rewrite bool_decide_eq_true_2 in Ho. }
  apply negb_false_iff, bool_decide_eq_true in Ho. apply wp_ret. by apply H1.
Qed.
Lemma page_of_total db n row : hierarchy_ok db → cas db !! n = Some row → ∃ p, page_of row = Ok p.
Proof.
  intros Hdb Hn. destruct (Hdb _ _ Hn) as (_ & Hs & _). unfold row_shape, page_of in *. destruct (ca_kind row).
  - by eexists.
  - destruct Hs as (_ & p & -> & _). by eexists.
  - destruct Hs as (_ & p & c & _ & -> & _). by eexists.
Qed.

(** Every row has one page.  The page that [_page_of] names for a row -
    in the tables, and wherever an action goes back to - answers with that row;
    no other page does; a page that names no row, a row of another kind or of
    another hierarchy is a 404; and looking changes nothing. *)
Theorem one_page_per_row db p : hierarchy_ok db →
  snd (request (row_of_page p) db) = db ∧
  (∀ row, fst (request (row_of_page p) db) = Ok row ↔ (∃ n, cas db !! n = Some row) ∧ page_of row = Ok p) ∧
  (∀ e, fst (request (row_of_page p) db) = Raise e → is_404 e) ∧
  (∀ n row, cas db !! n = Some row → is_ok (page_of row) = true).
Proof.
  intros Hdb.
  assert (Hend : snd (request (row_of_page p) db) = db ∧
    match fst (request (row_of_page p) db) with
    | Ok row => (∃ n, cas db !! n = Some row) ∧ page_of row = Ok p
    | Raise e => is_404 e ∧ ∀ n row, cas db !! n = Some row → page_of row ≠ Ok p
    end).
  { apply (request_post _ _ (λ q, snd q = db ∧ match fst q with Ok _ => _ | Raise _ => _ end)). destruct p as [n|r n|r n]; cbn [row_of_page].
    - apply wp_load_root; cbn [work fresh_session fst snd durable].
      + intros row Hn Hk. split; [done|]. split; [by exists n|]. unfold page_of. rewrite Hk. by destruct (Hdb _ _ Hn) as [-> _].
      + intros e He Hno. split_and!; [done..|]. intros m row Hm Hp. apply Hno. destruct (Hdb _ _ Hm) as [Hid _]. unfold page_of in Hp.
        destruct (ca_kind row) eqn:Hk; inv_tx; try done. by exists row.
    - apply wp_bind, wp_load_pair; [done|..]; cbn [fst snd durable fresh_session].
      + intros root row _ _ Hn Hk Ho. apply wp_ret. cbn. split; [done|]. split; [by exists n|]. unfold page_of. rewrite Hk.
        unfold owner in Ho. rewrite decide_True in Ho by done. rewrite Ho. cbn. by destruct (Hdb _ _ Hn) as [-> _].
      + intros e He Hno. split_and!; [done..|]. intros m row Hm Hp. apply Hno. destruct (Hdb _ _ Hm) as (Hid & Hs & _).
        unfold page_of, row_shape in *. destruct (ca_kind row) eqn:Hk; inv_tx; try done.
        destruct Hs as (_ & q & Hq & _ & root & Hr & Hkr). assert (q = r) as -> by congruence. exists root, row. by split_and!.
    - apply wp_bind, wp_load_pair; [done|..]; cbn [fst snd durable fresh_session].
      + intros root row _ _ Hn Hk Ho. apply wp_ret. cbn. split; [done|]. split; [by exists n|]. unfold page_of. rewrite Hk.
        unfold owner in Ho. rewrite decide_False in Ho by done. rewrite Ho. cbn. by destruct (Hdb _ _ Hn) as [-> _].
      + intros e He Hno. split_and!; [done..|]. intros m row Hm Hp. apply Hno. destruct (Hdb _ _ Hm) as (Hid & Hs & _).
        unfold page_of, row_shape in *. destruct (ca_kind row) eqn:Hk; inv_tx; try done.
        destruct Hs as (_ & q & c & _ & Hc & _ & _ & _ & _ & root & Hr & Hkr). assert (c = r) as -> by congruence.
        exists root, row. by split_and!. }
  destruct Hend as [Hd Hr]. split_and!; [done| | |].
  - intros row. destruct (fst _) as [row'|e]; (split; [|]).
    + by intros [= <-].
    + intros [[n Hn] Hp]. destruct Hr as [[n' Hn'] Hp'].
      assert (ca_id row = ca_id row'); [|destruct (Hdb _ _ Hn) as [H1 _], (Hdb _ _ Hn') as [H2 _]; congruence].
      unfold page_of in *. destruct (ca_kind row), (ca_kind row'); inv_tx; congruence.
    + done.
    + intros [[n Hn] Hp]. destruct Hr as [_ Hr]. by apply (Hr n) in Hp.
  - intros e He. rewrite He in Hr. apply Hr.
  - intros n row Hn. destruct (page_of_total _ _ _ Hdb Hn) as [q ->]. done.
Qed.

(** An entry of a table is its row, and links to the page of that row. *)
Definition child_of (row : CARow) (c : ChildView) : Prop :=
  cv_id c = ca_id row ∧ cv_name c = ca_name row ∧ cv_status c = ca_status row ∧ page_of row = Ok (cv_href c).
Lemma child_view_ok row c : child_view row = Ok c → child_of row c.
Proof. unfold child_view. intros H. by inv_tx. Qed.
Lemma group_ok db rows root now g : group db rows root now = Ok g →
  Forall2 child_of (List.filter (is_child (ca_id root)) rows) (gr_intermediates g) ∧
  ∃ set, chains_for db (ca_id root) now = Ok set ∧
    Forall2 (λ row x, child_of row (xv_child x) ∧ xv_served x = served_as set row) (List.filter (is_cross_of (ca_id root)) rows) (gr_cross g).
Proof.
  unfold group. intros H.
  apply Outcome_bind_ok in H as (set & Hset & H). apply Outcome_bind_ok in H as (cross & Hcross & H).
  apply Outcome_bind_ok in H as (rv & Hrv & H). apply Outcome_bind_ok in H as (ints & Hints & H).
  inv_tx. cbn [gr_intermediates gr_cross]. apply map_each_ok in Hints, Hcross. split.
  - eapply Forall2_impl; [exact Hints|]. intros row c. apply child_view_ok.
  - exists set. split; [done|]. eapply Forall2_impl; [exact Hcross|]. intros row y Hy.
    apply Outcome_bind_ok in Hy as (v & Hv & [= <-]). split; [by apply child_view_ok|done].
Qed.
Lemma context_frame v m db : identity_ok db → is_Some (sessions db !! session_hash (vw_row v)) → cas db = m →
  wp (context v) (fresh_session db) (λ r s, s = fresh_session (durable s) ∧ cas (durable s) = m).
Proof.
  intros Hdb Hs Hm. unfold context, base_context. apply wp_bind, wp_pop_flash; [done|]. wp_run. split; [done|].
  cbn. unfold popped. by destruct (flash (vw_row v)).
Qed.

(** What [GET /ca/n] answered. *)
Definition hierarchy_shown (cookie : option string) (n : Z) (add : string) (at_ now : Z) (db : DB) (a : CaAnswer) (db' : DB) : Prop :=
  ∃ cx g root set, a = DetailPage 200 cx None g (opened_by add) ∧ cas db !! n = Some root ∧ ca_kind root = Root ∧ cas db' = cas db ∧
    (∃ user row, opens cookie at_ db user row) ∧ chains_for db' n now = Ok set ∧
    Forall2 child_of (List.filter (is_child n) (list_cas None None db)) (gr_intermediates g) ∧
    Forall2 (λ row x, child_of row (xv_child x) ∧
        (xv_served x = served_default ↔ via_cross_id (default_chain set) = Some (ca_id row)))
      (List.filter (is_cross_of n) (list_cas None None db)) (gr_cross g).
(** The page of a hierarchy shows all of it.  It answers any signed-in
    user, for the id of a root only; its two tables are exactly the
    intermediates under that root and the cross certificates for it, in the
    order of the list, each linking to its own page; a cross certificate is
    marked as served by default exactly when the default chain of the hierarchy
    goes through it; and nothing of the hierarchy changes. *)
Theorem hierarchy_page_complete cookie n add at_ now db a db' : identity_ok db → hierarchy_ok db →
  request (ca_detail cookie n add at_ now) db = (Ok a, db') → hierarchy_shown cookie n add at_ now db a db'.
Proof.
  intros Hid Hh Hreq.
  refine (request_wp _ _ (λ r d, ∀ a, r = Ok a → hierarchy_shown cookie n add at_ now db a d) _ _ Hreq _ a eq_refl). clear a db' Hreq.
  unfold ca_detail, viewer_of.
  apply wp_bind, wp_bind. eapply wp_mono; [by apply get_current_user_wp|].
  intros [[[user row'] touched]|e] s [-> Hv]; cbn in Hv; [|done].
  destruct Hv as (row & Ho & -> & -> & ->). pose proof (seen_stored _ _ _ _ _ Hid Ho) as Hst.
  assert (Hcas : cas (seen at_ row db) = cas db) by apply seen_users.
  apply wp_ret, wp_bind, wp_load_root; cbn [work fresh_session durable]; [|done]. intros root Hn Hk. rewrite Hcas in Hn.
  destruct (Hh _ _ Hn) as [Hrid _].
  unfold detail_page. apply wp_bind, wp_query. cbn [work fresh_session]. assert (list_cas None None (seen at_ row db) = list_cas None None db) as ->
    by (unfold list_cas; by rewrite Hcas).
  apply wp_bind. eapply wp_mono; [apply (context_frame _ (cas db)); [by apply seen_ok|by eexists|done]|].
  intros [cx|e] s1 [-> Hcas']; [|done]. apply wp_bind, wp_query, wp_bind, wp_lift; [|done]. intros g Hg. cbn [work fresh_session] in Hg.
  apply wp_ret. intros a [= <-]. apply group_ok in Hg as (Hc & set & Hset & Hx). rewrite Hrid in *.
  exists cx, g, root, set. cbn [durable fresh_session]. split_and!; try done; [by exists user, row|].
  eapply Forall2_impl; [exact Hx|]. cbn. intros r x [Hr ->]. split; [done|]. unfold served_as.
  case_bool_decide as E; [done|]. split; [|done]. by case_bool_decide.
Qed.
End theorems.

Module CaPagesExamples.
#[local] Existing Instance Toy.lib.
#[local] Existing Instance toy_secrets.
#[local] Existing Instance toy_crypto.
Import Toy CaExamples IdentityExamples DepsExamples.
(** Root 1 with intermediates 2 and 3, cross-signed by root 4 as row 5; the
    superadmin is signed in. *)
Definition signed_in : DB := on_cas (λ _, cas crossed) root_logged_in.
#[local] Strategy 1000 [signed_in crossed root_logged_in request].
Lemma signed_in_hierarchy : hierarchy_ok signed_in.
Proof. exact (hierarchy_same crossed signed_in eq_refl crossed_ok). Qed.
Lemma signed_in_identity : identity_ok signed_in.
Proof. refine (identity_same root_logged_in signed_in _ root_logged_in_ok). by repeat split. Qed.
Definition at_page (p : PageRef) : option Z := match fst (request (row_of_page p) signed_in) with Ok r => Some (ca_id r) | Raise _ => None end.
(** The cross certificate is at home under the root it is for, and not under
    the root that signed it. *)
Lemma one_page_per_row_witness :
  at_page (CrossPage 1 5) = Some 5 ∧ at_page (CrossPage 4 5) = None ∧ at_page (IssuerPage 1 3) = Some 3 ∧
  at_page (IssuerPage 1 5) = None ∧ at_page (HierarchyPage 2) = None ∧
  ∃ row, page_of row = Ok (CrossPage 1 5).
Proof.
  assert (H : at_page (CrossPage 1 5) = Some 5) by (vm_compute; reflexivity). split; [exact H|]. split_and!; [vm_compute; reflexivity..|].
  destruct (one_page_per_row (X:=lib) (SS:=toy_secrets) signed_in (CrossPage 1 5) signed_in_hierarchy) as (_ & Hrow & _).
  unfold at_page in H. destruct (fst (request (row_of_page (CrossPage 1 5)) signed_in)) as [row|e]; [|discriminate H].
  exists row. exact (proj2 (proj1 (Hrow row) eq_refl)).
Defined.
Definition opened_page : Outcome CaAnswer * DB := request (ca_detail (Some "token-7") 1 "cross-sign" t2026 t2026) signed_in.
Definition served_there (a : Outcome CaAnswer) : option (list Z * list (Z * bool)) :=
  match a with
  | Ok (DetailPage _ _ _ g _) => Some (map cv_id (gr_intermediates g),
      map (λ x, (cv_id (xv_child x), match xv_served x with served_default => true | _ => false end)) (gr_cross g))
  | _ => None
  end.
Lemma hierarchy_page_complete_witness :
  served_there (fst opened_page) = Some ([2; 3], [(5, true)]) ∧
  ∃ g, hierarchy_shown (Some "token-7") 1 "cross-sign" t2026 t2026 signed_in g (snd opened_page) ∧ fst opened_page = Ok g.
Proof.
  assert (H : served_there (fst opened_page) = Some ([2; 3], [(5, true)])) by (vm_compute; reflexivity). split; [exact H|].
  destruct (fst opened_page) as [g|e] eqn:Hg; [|discriminate H]. exists g. split; [|reflexivity].
  assert (Hr : opened_page = (Ok g, snd opened_page)) by exact (eq_trans (surjective_pairing _) (f_equal (λ x, (x, snd opened_page)) Hg)).
  exact (hierarchy_page_complete (X:=lib) (SS:=toy_secrets) (CR:=toy_crypto) (Some "token-7") 1 "cross-sign" t2026 t2026 signed_in g
    (snd opened_page) signed_in_identity signed_in_hierarchy Hr).
Defined.
End CaPagesExamples.
