(* ===== verification/CaUi.v ===== *)
(** * [cabin.web.ca_ui] and the imports of [cabin.web.transfer_ui]: changing the hierarchies

    The form posts: create a root, add an intermediate, cross-sign, renew,
    retire, and the two imports.  Each is the whole handler: its guard, what it
    checks of the form, the domain operation, the grant to whoever made an
    issuer, the event, the look at cabin's own certificate, the message and the
    page it goes back to.  The previews are in CaPreview.v and TransferUi.v. *)

From S2P Require Import Prelude PyStr PyTime Json IPAddr Numbers X509Lib X509 Leaf Store Settings CaService Grants Identity Certs Crl AuditLog WebDeps WebUi AcmeServer Tls Targets CaPages.
#[local] Open Scope Z_scope.

Definition MIN_YEARS : Z := 1.
Definition MAX_YEARS : Z := 50.
Definition MIN_PATH_LENGTH : Z := 1.
Definition MAX_PATH_LENGTH : Z := 4.
Definition MAX_NAME_BYTES : Z := 64.
Definition CONFIRM_RETIRE : string := "tick the confirmation box: retiring cannot be undone from here".

Definition name_error (name : string) : option string :=
  if decide (name = "") then Some "name must not be empty"
  else if MAX_NAME_BYTES <? py_len (encode_utf8 name) then Some "name must be at most 64 bytes long (UTF-8 encoded)" else None.
Definition year_bounds_error (value : Z) (field : string) : option string :=
  if negb ((MIN_YEARS <=? value) && (value <=? MAX_YEARS)) then Some (field +:+ " must be between 1 and 50") else None.
Definition years_error (root_years : Z) : option string := year_bounds_error root_years "root_years".
Definition path_length_error (path_length : Z) : option string :=
  if negb ((MIN_PATH_LENGTH <=? path_length) && (path_length <=? MAX_PATH_LENGTH)) then Some "path_length must be between 1 and 4" else None.
Definition key_type_error (key_type : string) : option string :=
  if bool_decide (key_type ∈ KEY_TYPES) then None else Some ("key_type must be one of: " +:+ join ", " KEY_TYPES).
Definition constraints_form_error (permitted_names excluded_names : string) : Outcome (option NameConstraintSpec * option string) :=
  match parse_name_constraints permitted_names excluded_names with
  | Ok spec => Ok (Some spec, None)
  | Raise (NameConstraintError m) => Ok (None, Some m)
  | Raise e => Raise e
  end.
(** [a or b]: the first of several texts that is there. *)
Fixpoint first_error (l : list (option string)) : option string :=
  match l with [] => None | Some m :: _ => Some m | None :: l => first_error l end.

Section ca_ui.
Context {X : X509Lib} {SS : SecretStore} {CR : Crypto} {SSL : SSLLib}.

Definition canonical_entries (spec : NameConstraintSpec) : list string * list string :=
  (permitted_dns spec ++ map str_network (permitted_ip spec), excluded_dns spec ++ map str_network (excluded_ip spec)).
Definition ca_subject (row : CARow) : Outcome string := info ← cert_info row; mret (desc_subject (ci_described info)).
(** [_refuse_retire_of_tls_issuer]; [tls]: whether cabin serves TLS. *)
Definition refuse_retire_of_tls_issuer (tls : bool) (n : Z) (row : CARow) : Tx DB unit :=
  if negb (bool_decide (ca_status row = Active)) || negb tls then mret () else
  stored ← query (λ db, default "" (get_setting TLS_ISSUER_ID db));
  if decide (stored = "") then mret () else
  match py_int stored with
  | Raise (ValueError _) => mret ()
  | Raise e => mthrow e
  | Ok bound_id =>
      targets ← retire_targets n;
      raise_if (bool_decide (bound_id ∈ targets))
        (RetireError ("retiring " +:+ py_repr (ca_name row) +:+ " would leave cabin's own TLS certificate with no " +:+
          "issuer to renew from; rebind under Settings first, then retire"))
  end.

(** ** The end of a form *)
Definition ca_target (n : Z) : option (string * option string) := Some ("ca_certificate", Some (id_text n)).
(** The TLS manager has its look, if there is one. *)
Definition look_at_tls (manager : option Turn) : Act unit :=
  match manager with Some w => _ ← ensure_current w; mret () | None => mret () end.
Definition finish (q : Post) (v : Viewer) (action : AuditAction) (summary : string) (n : Z) (detail : option (gmap string json))
    (manager : option Turn) (location : Outcome string) : Act CaAnswer :=
  _ ← on_db (log q (user_actor (vw_user v)) action summary (ca_target n) detail (po_logged q));
  _ ← look_at_tls manager;
  _ ← on_db (set_flash (vw_row v) summary);
  location ← on_db (lift location);
  mret (Redirect location).
Definition page_location (row : CARow) : Outcome string := page ← page_of row; mret (page_path page).
Definition ca_guard (q : Post) (now : Z) : Tx DB Viewer :=
  '(user, row) ← ui_write (po_cookie q) (po_csrf q) (po_seen q);
  mret (mkViewer user row now).
(** What a domain failure is shown as: the page again, a 404, a 400, or left
    alone. *)
Inductive Shown := OnThePage | As404 | As400 | Escapes.
Definition or_refuse {A} (m : Tx DB A) (shown : Exc → Shown) (page : string → Tx DB CaAnswer) (k : A → Act CaAnswer) : Act CaAnswer :=
  r ← on_db (WebUi.attempt m);
  match r with
  | Ok a => k a
  | Raise e => match shown e with
               | OnThePage => on_db (page (exc_text e))
               | As404 => mthrow (HTTPException 404 (exc_text e) [])
               | As400 => mthrow (HTTPException 400 (exc_text e) [])
               | Escapes => mthrow e
               end
  end.

(** ** The forms *)
Definition ca_create (q : Post) (manager : option Turn) (name key_type : string) (root_years path_length : Z) (d : Draw) (now : Z) : Act CaAnswer :=
  v ← on_db (ca_guard q now);
  let stripped_name := strip name in
  match first_error [name_error stripped_name; key_type_error key_type; years_error root_years; path_length_error path_length] with
  | Some m => on_db (new_page v (Some m) 400)
  | None =>
      root ← on_db (create_root stripped_name key_type root_years path_length d);
      subject ← on_db (lift (ca_subject root));
      finish q v a_ca_created ("created CA root " +:+ py_repr stripped_name) (ca_id root)
        (Some (<["name" := JStr stripped_name]> (<["key_type" := JStr key_type]> (<["root_years" := JInt root_years]>
          (<["path_length" := JInt path_length]> {["subject" := JStr subject]}))))) manager (Ok "/ca")
  end.
Definition intermediate_shown (e : Exc) : Shown :=
  match e with UnknownIssuerError _ => As404 | CANotConfiguredError _ | ValueError _ => OnThePage | _ => Escapes end.
Definition ca_create_intermediate (q : Post) (manager : option Turn) (root_id : Z) (name key_type : string) (years : Z)
    (permitted_names excluded_names : string) (d : Draw) (now : Z) : Act CaAnswer :=
  v ← on_db (ca_guard q now);
  root ← on_db (as_404 (get_ca root_id));
  let stripped_name := strip name in
  let form_error := first_error [name_error stripped_name; key_type_error key_type; year_bounds_error years "years"] in
  '(constraints, constraints_error) ← on_db (lift (constraints_form_error permitted_names excluded_names));
  let page m := detail_page v root (Some m) 400 (Some open_intermediate) in
  match first_error [form_error; constraints_error] with
  | Some m => on_db (page m)
  | None =>
      or_refuse (create_intermediate_under root_id stripped_name key_type years constraints d) intermediate_shown page (λ row,
      _ ← on_db (grant (user_principal (vw_user v)) (ca_id row));
      produced ← on_db (lift (load_cert (ca_cert row)));
      spec ← on_db (lift (constraints_of produced));
      let '(permitted, excluded) := canonical_entries spec in
      finish q v a_ca_created ("created intermediate " +:+ py_repr (ca_name row) +:+ " under root " +:+ id_text root_id) (ca_id row)
        (Some (<["name" := JStr stripped_name]> (<["key_type" := JStr key_type]> (<["years" := JInt years]>
          (<["root_id" := JInt root_id]> (<["granted_to" := JInt (user_id (vw_user v))]>
          (<["permitted" := JList (map JStr permitted)]> {["excluded" := JList (map JStr excluded)]})))))))
        manager (Ok ("/ca/" +:+ id_text root_id)))
  end.
Definition cross_shown (e : Exc) : Shown :=
  match e with UnknownIssuerError _ => As404 | ValueError _ | CANotConfiguredError _ | CrossSignError _ => OnThePage | _ => Escapes end.
Definition ca_cross_sign (q : Post) (n signing_root_id years : Z) (d : Draw) (now : Z) : Act CaAnswer :=
  v ← on_db (ca_guard q now);
  root ← on_db (as_404 (get_ca n));
  let page m := detail_page v root (Some m) 400 (Some open_cross_sign) in
  match year_bounds_error years "years" with
  | Some m => on_db (page m)
  | None =>
      or_refuse (cross_sign_root n signing_root_id years d) cross_shown page (λ row,
      produced ← on_db (lift (load_cert (ca_cert row)));
      finish q v a_ca_cross_signed ("cross-signed " +:+ py_repr (ca_name row) +:+ " with root " +:+ id_text signing_root_id) (ca_id row)
        (Some (<["signing_root_id" := JInt signing_root_id]> (<["subject_root_id" := JInt n]> (<["years" := JInt years]>
          {["not_after" := JStr (iso (not_valid_after produced))]})))) None (Ok ("/ca/" +:+ id_text n)))
  end.
Definition renew_shown (e : Exc) : Shown :=
  match e with UnknownIssuerError _ => As404 | CANotConfiguredError _ | RowRetiredError _ => As400 | _ => Escapes end.
Definition ca_renew (q : Post) (n years clock : Z) (d : Draw) (now : Z) : Act CaAnswer :=
  v ← on_db (ca_guard q now);
  match year_bounds_error years "years" with
  | Some m => mthrow (HTTPException 400 m [])
  | None =>
      or_refuse (renew_in_place n years clock d) renew_shown (λ m, mthrow (HTTPException 400 m [])) (λ row,
      finish q v a_ca_renewed ("renewed CA " +:+ py_repr (ca_name row)) (ca_id row) (Some {["years" := JInt years]}) None (page_location row))
  end.
Definition retire_shown (e : Exc) : Shown := match e with RetireError _ => As400 | _ => Escapes end.
Definition ca_retire (q : Post) (tls : bool) (n : Z) (confirm : string) (now : Z) : Act CaAnswer :=
  v ← on_db (ca_guard q now);
  row ← on_db (as_404 (get_ca n));
  if decide (confirm = "") then
    on_db (if decide (ca_kind row = Root) then detail_page v row (Some CONFIRM_RETIRE) 400 None
           else root ← root_of row; issuer_page v root row (Some CONFIRM_RETIRE) 400)
  else
    or_refuse (_ ← refuse_retire_of_tls_issuer tls n row; retire n) retire_shown (λ m, mthrow (HTTPException 400 m [])) (λ _,
    if decide (ca_status row = Active)
    then finish q v a_ca_retired ("retired CA " +:+ py_repr (ca_name row)) n None None (page_location row)
    else location ← on_db (lift (page_location row)); mret (Redirect location)).
Definition import_shown (e : Exc) : Shown := match e with CAImportError _ => OnThePage | _ => Escapes end.
Definition import_page (v : Viewer) (m : string) : Tx DB CaAnswer := cx ← context v; mret (ImportPage 400 cx (Some m)).
Definition ca_import (q : Post) (manager : option Turn) (cert_text key_text : Pem) (key_passphrase : string) (chain_text : Pem)
    (d : Draw) (now : Z) : Act CaAnswer :=
  v ← on_db (ca_guard q now);
  or_refuse (import_hierarchy cert_text key_text (if decide (key_passphrase = "") then None else Some key_passphrase) chain_text d)
    import_shown (import_page v) (λ hierarchy,
  let row := snd hierarchy in
  cert ← on_db (lift (load_cert (ca_cert row)));
  let subject := rfc4514_string (cert_subject cert) in
  _ ← on_db (grant (user_principal (vw_user v)) (ca_id row));
  finish q v a_ca_imported ("imported CA " +:+ subject) (ca_id row)
    (Some (<["subject" := JStr subject]> {["granted_to" := JInt (user_id (vw_user v))]})) manager (Ok "/ca")).
Definition cross_import_page (v : Viewer) (m : string) : Tx DB CaAnswer := cx ← context v; mret (CrossImportPage 400 cx (Some m)).
Definition or_null_id (o : option Z) : json := match o with Some n => JInt n | None => JNull end.
Definition ca_cross_import (q : Post) (cross_text issuer_text : Pem) (d : Draw) (now : Z) : Act CaAnswer :=
  v ← on_db (ca_guard q now);
  or_refuse (import_cross cross_text issuer_text d) import_shown (cross_import_page v) (λ row,
  cross ← on_db (lift (load_cert (ca_cert row)));
  signer ← on_db (lift (load_cert issuer_text));
  finish q v a_ca_cross_imported ("imported cross certificate for " +:+ py_repr (ca_name row)) (ca_id row)
    (Some (<["subject_root_id" := or_null_id (cross_of_id row)]> (<["signing_root_id" := or_null_id (parent_id row)]>
      (<["cross_fingerprint" := JStr (desc_fingerprint (describe_certificate cross))]>
      {["signing_fingerprint" := JStr (desc_fingerprint (describe_certificate signer))]})))) None (Ok "/ca")).

(** Which form, with what it says. *)
Inductive CaForm :=
  | form_create (name key_type : string) (years path_length : Z)
  | form_intermediate (root : Z) (name key_type : string) (years : Z) (permitted excluded : string)
  | form_cross_sign (n signing_root years : Z)
  | form_renew (n years : Z)
  | form_retire (n : Z) (confirm : string)
  | form_import (cert_text key_text : Pem) (passphrase : string) (chain_text : Pem)
  | form_cross_import (cross_text issuer_text : Pem).
Definition ca_route (q : Post) (tls : bool) (manager : option Turn) (f : CaForm) (clock : Z) (d : Draw) (now : Z) : Act CaAnswer :=
  match f with
  | form_create name kt years pl => ca_create q manager name kt years pl d now
  | form_intermediate r name kt years p x => ca_create_intermediate q manager r name kt years p x d now
  | form_cross_sign n s years => ca_cross_sign q n s years d now
  | form_renew n years => ca_renew q n years clock d now
  | form_retire n confirm => ca_retire q tls n confirm now
  | form_import c k p ch => ca_import q manager c k p ch d now
  | form_cross_import c i => ca_cross_import q c i d now
  end.
Definition ca_request (q : Post) (tls : bool) (manager : option Turn) (f : CaForm) (clock : Z) (d : Draw) (now : Z) (t : Manager) (db : DB)
  : Outcome CaAnswer * (Manager * DB) :=
  let '(r, (t', s)) := ca_route q tls manager f clock d now (t, fresh_session db) in (r, (t', close_session s)).
End ca_ui.

(** ** Correctness *)
Section theorems.
Context {X : X509Lib} {SS : SecretStore} {CR : Crypto} {SSL : SSLLib}.

(** *** The domain operations as one committed step *)
Definition one_step {A} (m : Tx DB A) (db : DB) (P : A → DB → Prop) : Prop :=
  wp m (fresh_session db) (λ r s, match r with Ok a => work s = durable s ∧ P a (durable s) | Raise _ => s = fresh_session db end).
Lemma wp_one_step {A} (m : Tx DB A) db P (Q : Outcome A → Session DB → Prop) : one_step m db P →
  (∀ a db1, request m db = (Ok a, db1) → P a db1 → Q (Ok a) (fresh_session db1)) →
  (∀ e, request m db = (Raise e, db) → Q (Raise e) (fresh_session db)) → wp m (fresh_session db) Q.
Proof.
  unfold one_step, wp, request, close_session. destruct (m (fresh_session db)) as [[a|e] [w d]]; cbn; [intros [-> HP] H _; by apply H|].
  intros [= -> ->] _ H. by apply H.
Qed.
(** A row of this kind, stored, whose certificate can be shown. *)
Record made (kind : CAKind) (row : CARow) (db : DB) : Prop := {
  made_kind : ca_kind row = kind;
  made_row : cas db !! ca_id row = Some row;
  made_cert : ∃ cert spec, load_cert (ca_cert row) = Ok cert ∧ constraints_of cert = Ok spec }.
Lemma constraints_total (c : Cert) exts : extensions (tbs c) = Ok exts → ∃ spec, constraints_of c = Ok spec.
Proof.
  intros He. unfold constraints_of, optional, catch_pure, extension_of. rewrite He. cbn [mbind Outcome_bind].
  destruct (find_extension sel_nc exts) as [[[p x] k]|]; cbn; by eexists.
Qed.
Lemma create_root_step name kt years pl d db : one_step (create_root name kt years pl d) db (made Root).
Proof.
  unfold create_root, one_step. wp_ca; try done. split; [done|].
  match goal with H : X509.create_root _ _ _ _ _ _ _ = Ok _ |- _ => rename H into Hc end.
  split; cbn; [done|apply lookup_insert_eq|]. unfold X509.create_root in Hc.
  apply Outcome_bind_ok in Hc as (k & _ & Hc). apply Outcome_bind_ok in Hc as (nm & _ & Hc).
  apply Outcome_bind_ok in Hc as (e & _ & Hc). apply Outcome_bind_ok in Hc as (made_cert & Hs%sign_with_ok & [= <- <-]).
  destruct (constraints_total made_cert _ (f_equal extensions Hs)) as [spec Hspec]. exists made_cert, spec. by rewrite load_cert_pem.
Qed.
Lemma create_intermediate_step r name kt years nc d db : one_step (create_intermediate_under r name kt years nc d) db (made Intermediate).
Proof.
  unfold create_intermediate_under, one_step. wp_ca; repeat case_match; wp_ca; try done. split; [done|].
  match goal with H : create_intermediate _ _ _ _ _ _ _ _ _ = Ok _ |- _ => apply create_intermediate_tbs in H as (ski & k & _ & _ & Ht) end.
  split; cbn; [done|apply lookup_insert_eq|].
  destruct (constraints_total _ _ (f_equal extensions Ht)) as [spec Hspec]. eexists _, spec. by rewrite load_cert_pem.
Qed.
Definition readable_row (row : CARow) (_ : DB) : Prop := is_ok (load_cert (ca_cert row)) = true.
Lemma cross_sign_step n s years d db : one_step (cross_sign_root n s years d) db readable_row.
Proof.
  unfold cross_sign_root, one_step, readable_row. wp_ca; repeat case_match; wp_ca; try done. split; [done|]. cbn. by rewrite load_cert_pem.
Qed.
Lemma renew_step n years clock d db : hierarchy_ok db → one_step (renew_in_place n years clock d) db (λ row _, is_ok (page_of row) = true ∧ ca_id row = n).
Proof.
  intros Hh. unfold renew_in_place, one_step. apply wp_bind, wp_get_ca; [|done]. cbn [work fresh_session]. intros row Hr.
  apply wp_bind, wp_raise_if; [done|]. intros _. apply wp_bind, wp_lift; [|done]. intros cert _.
  apply wp_bind, wp_readonly.
  { repeat (case_decide || case_match || apply readonly_bind || intros ?); try done; unfold get_ca;
      (apply readonly_bind; [done|]; intros o; by destruct o). }
  intros [[[pc pk] ey]|e] _; [|done]. apply wp_bind, wp_lift; [|done]. intros renewed _.
  apply wp_bind, wp_modify, wp_bind, wp_commit, wp_ret. split; [done|].
  destruct (page_of_total _ _ _ Hh Hr) as [p Hp]. destruct (Hh _ _ Hr) as [Hid _]. unfold page_of in *. cbn. by rewrite Hp.
Qed.
Lemma import_step c k p ch d db : one_step (import_hierarchy c k p ch d) db
  (λ rows db1, ca_kind (snd rows) = Intermediate ∧ cas db1 !! ca_id (snd rows) = Some (snd rows) ∧ readable_row (snd rows) db1).
Proof.
  unfold import_hierarchy, one_step, readable_row. wp_ca; repeat case_match; wp_ca; try done.
  split; [done|]. cbn. split_and!; [done|apply lookup_insert_eq|by rewrite load_cert_pem].
Qed.
Lemma import_cross_step c i d db : one_step (import_cross c i d) db (λ row db1, readable_row row db1 ∧ is_ok (load_cert i) = true).
Proof.
  unfold import_cross, one_step, readable_row. wp_ca; repeat case_match; wp_ca; try done; (split; [done|]); cbn; rewrite load_cert_pem; split; try done;
    match goal with H : reraise (load_cert i) _ _ = Ok _ |- _ => unfold reraise, catch_pure in H; destruct (load_cert i); [done|by case_match] end.
Qed.
(** Retiring what is retired is nothing. *)
Lemma retire_step n db : hierarchy_ok db → one_step (retire n) db (λ _ db1, ∀ row, cas db !! n = Some row → ca_status row = Retired → db1 = db).
Proof. intros Hdb. unfold one_step. apply wp_retire; [done..| |]; intros row Hr Hk; [done|]. intros _ db1. split; [done|].
  cbn in *. intros row' Hr' Hk'. assert (row' = row) as -> by congruence. congruence.
Qed.

Lemma is_ca_step {A} (m : Tx DB A) op db r db1 : run_op op = (m ≫= λ _, mret ()) → request m db = (r, db1) → ca_step db db1.
Proof. intros Hop Hm. exists op. by rewrite Hop, request_drop, Hm. Qed.
Lemma ca_step_frame db db1 : hierarchy_ok db → ca_step db db1 → hierarchy_ok db1 ∧ same_callers db db1.
Proof.
  intros Hh [op ->]. split; [by apply request_keeps; [apply run_op_keeps|]|]. by apply (request_keeps (same_callers db)); [apply ca_frame|].
Qed.
Lemma wp_grant user n db r (Q : Outcome bool → Session DB → Prop) : is_Some (users db !! user_id user) → cas db !! n = Some r →
  ca_kind r = Intermediate →
  (∀ b db1, request (grant (user_principal user) n) db = (Ok b, db1) → (user_id user, n) ∈ user_issuers db1 →
     cas db1 = cas db → users db1 = users db → sessions db1 = sessions db → Q (Ok b) (fresh_session db1)) →
  wp (grant (user_principal user) n) (fresh_session db) Q.
Proof.
  intros Hu Hr Hk HQ.
  assert (Hw : wp (grant (user_principal user) n) (fresh_session db) (λ o s, ∃ b, o = Ok b ∧ s = fresh_session (durable s) ∧
    (user_id user, n) ∈ user_issuers (durable s) ∧ cas (durable s) = cas db ∧ users (durable s) = users db ∧ sessions (durable s) = sessions db)).
  { unfold grant, require_intermediate. apply wp_bind, wp_raise_if; [done|]. intros _.
    apply wp_bind, wp_bind, wp_get_ca; cbn [work fresh_session]; [|congruence]. intros q Hq. assert (q = r) as -> by congruence.
    apply wp_raise_if; [intros H; guards; done|]. intros _. apply wp_bind, wp_lift; [|done]. intros i Hi. injection Hi as <-.
    apply wp_bind, wp_query. cbn [work fresh_session]. case_bool_decide as Hheld; [apply wp_ret; by exists false|].
    apply wp_bind, wp_query. cbn [work fresh_session]. assert (has_owner db (user_principal user) (user_id user) = true) as ->
      by by apply bool_decide_eq_true.
    apply wp_bind, wp_raise_if; [done|]. intros _. apply wp_bind, wp_modify, wp_bind, wp_commit, wp_ret. exists true. split_and!; try done.
    cbn. set_solver. }
  unfold wp in *. destruct (grant _ _ _) as [o s] eqn:E. cbn in *. destruct Hw as (b & -> & Hs & H1 & H2 & H3 & H4).
  rewrite Hs. apply HQ; try done. unfold request. by rewrite E.
Qed.

(** *** The look at cabin's own certificate *)
(** It adds to the log and leaves the hierarchy and the callers alone. *)
Definition tls_framed (db db' : DB) : Prop := audit_events db ⊆ audit_events db' ∧ cas db' = cas db ∧ same_callers db db'.
Lemma resolves_framed db i db1 : resolves db i db1 → tls_framed db db1.
Proof. intros Hr. by destruct (resolved_db _ _ _ Hr) as [->|(_ & r & _ & _ & ->)]. Qed.
Lemma own_made_framed w db cn sans target issuer cert bundle key row capped db' :
  own_made w db cn sans target issuer cert bundle key row capped db' → tls_framed db db'.
Proof. by destruct 1. Qed.
Lemma framed_trans a b c : tls_framed a b → tls_framed b c → tls_framed a c.
Proof. intros (H0 & H1 & H2 & H3 & H4 & H5 & H6) (K0 & K1 & K2 & K3 & K4 & K5 & K6). split; [by etrans|]. repeat split; congruence. Qed.
Lemma one_event_framed action a b : one_event action a b → tls_framed a b.
Proof. intros (e & _ & Hfree & ->). split; [by apply insert_subseteq|done]. Qed.
Lemma ensure_frame w t db : hierarchy_ok db → 0 ≤ d_serial (draw w) →
  awp (ensure_current w) t (fresh_session db) (λ _ _ s, s = fresh_session (durable s) ∧ tls_framed db (durable s)).
Proof.
  intros Hh Hser. apply awp_ensure; [done|..]; cbn [durable fresh_session].
  - intros e t1 db1 _ _ [->|[i Hi]]; (split; [done|]); [done|by eapply resolves_framed].
  - intros current t1 db1 _ _ Hr _. split; [done|]. by eapply resolves_framed.
  - intros c t1 issuer db1 cn sans ic Hcon _ _ _. split; [done|]. eapply resolves_framed, (con_issuer _ _ _ _ _ _ _ _ _ _ Hcon).
  - intros current t1 issuer db1 cn sans ic Hcon _. pose proof (con_issuer _ _ _ _ _ _ _ _ _ _ Hcon) as Hr.
    destruct (resolves_hierarchy _ _ _ Hr Hh) as (Hh1 & Hcas & _). pose proof (resolves_framed _ _ _ Hr) as Hf.
    apply awp_replace; [done|done| |..]; cbn [durable fresh_session].
    + intros row Hi. rewrite Hcas. by apply (resolved_row _ _ _ Hr).
    + intros cert bundle key row capped db2 t2 db3 Hmade Hrep. split; [done|]. apply (framed_trans _ db1), (framed_trans _ db2); [done|..].
      * by eapply own_made_framed.
      * exact (one_event_framed _ _ _ (replaced_log _ _ _ _ _ _ _ _ Hrep)).
    + intros t2 db2 [_ _ _ (m & _ & [[_ ->]|[_ Hev]])]; (split; [done|]); [done|]. apply (framed_trans _ db1); [done|]. by eapply one_event_framed.
    + done.
    + intros e cert bundle key row capped db2 t2 Hmade _. split; [done|]. apply (framed_trans _ db1); [done|]. by eapply own_made_framed.
Qed.
Lemma awp_turn w t db (Q : Outcome bool → Manager → Session DB → Prop) : hierarchy_ok db → 0 ≤ d_serial (draw w) →
  (∀ r t' db', turn w t db = (r, (t', db')) → tls_framed db db' → Q r t' (fresh_session db')) → awp (ensure_current w) t (fresh_session db) Q.
Proof.
  intros Hh Hser HQ. pose proof (ensure_frame w t db Hh Hser) as H. unfold awp, turn in *.
  destruct (ensure_current w (t, fresh_session db)) as [r [t' s]]. cbn in *. destruct H as [-> Hf]. by apply HQ.
Qed.

(** *** How a form ends *)
Definition turn_drawn (manager : option Turn) : Prop := match manager with Some w => 0 ≤ d_serial (draw w) | None => True end.
(** What follows a domain operation that left [db]: the event, the look at
    the certificate, the message and the redirect. *)
Definition finished (user : UserRow) (row : SessionRow) (manager : option Turn) (action : AuditAction) (says : string) (n : Z) (location : string)
    (t : Manager) (db : DB) (r : Outcome CaAnswer) (t' : Manager) (db' : DB) : Prop :=
  ∃ entry, log_entry (user_actor user) action says entry ∧ target_id entry = Some (id_text n) ∧ audit_events db !! aud_id entry = None ∧
    match manager with
    | None => r = Ok (Redirect location) ∧ t' = t ∧ db' = told row says (with_entry entry db)
    | Some w => ∃ looked db3, turn w t (with_entry entry db) = (looked, (t', db3)) ∧
        cas db3 = cas db ∧ audit_events (with_entry entry db) ⊆ audit_events db3 ∧
        match looked with
        | Ok _ => r = Ok (Redirect location) ∧ db' = told row says db3
        | Raise e => r = Raise e ∧ db' = db3
        end
    end.
Lemma awp_finish q v action says n detail manager location t db (Q : Outcome CaAnswer → Manager → Session DB → Prop) :
  hierarchy_ok db → turn_drawn manager → is_Some (sessions db !! session_hash (vw_row v)) →
  (∀ r t' db', finished (vw_user v) (vw_row v) manager action says n location t db r t' db' → Q r t' (fresh_session db')) →
  awp (finish q v action says n detail manager (Ok location)) t (fresh_session db) Q.
Proof.
  intros Hh Hw Hs HQ. unfold finish. apply awp_bind, awp_db, wp_log_row. cbn [work fresh_session]. intros from k.
  set (entry := audit_row _ _ _ _ _). intros Hfree.
  assert (He : log_entry (user_actor (vw_user v)) action says entry ∧ target_id entry = Some (id_text n)) by done. destruct He as [He Ht].
  apply awp_bind. unfold look_at_tls. destruct manager as [w|].
  - apply awp_bind, awp_turn; [by apply (hierarchy_same db)|done|]. intros looked t' db3 Hturn (Hlog & Hcas & _ & Hsess & _).
    destruct looked as [b|e].
    + apply awp_ret, awp_bind, awp_db, wp_set_flash; [cbn [work fresh_session]; by rewrite Hsess|].
      apply awp_bind, awp_db, wp_lift; [|done]. intros ? [= <-]. apply awp_ret, HQ. exists entry. split_and!; [done..|].
      exists (Ok b), db3. by split_and!.
    + apply HQ. exists entry. split_and!; [done..|]. exists (Raise e), db3. by split_and!.
  - apply awp_ret, awp_bind, awp_db, wp_set_flash; [done|]. apply awp_bind, awp_db, wp_lift; [|done]. intros ? [= <-].
    apply awp_ret, HQ. exists entry. by split_and!.
Qed.
Lemma awp_or_refuse {A} (m : Tx DB A) shown page k t s (Q : Outcome CaAnswer → Manager → Session DB → Prop) :
  wp m s (λ r s', match r with
    | Ok a => awp (k a) t s' Q
    | Raise e => match shown e with
                 | OnThePage => wp (page (exc_text e)) s' (λ r s, Q r t s)
                 | As404 => Q (Raise (HTTPException 404 (exc_text e) [])) t s'
                 | As400 => Q (Raise (HTTPException 400 (exc_text e) [])) t s'
                 | Escapes => Q (Raise e) t s'
                 end
    end) → awp (or_refuse m shown page k) t s Q.
Proof.
  intros H. unfold or_refuse. apply awp_bind, awp_db, wp_attempt. eapply wp_mono; [exact H|]. intros [a|e] s' Hs; [done|].
  destruct (shown e); [by apply awp_db|done..].
Qed.

(** *** What a form comes to *)
Definition in_years (n : Z) : Prop := MIN_YEARS ≤ n ≤ MAX_YEARS.
Definition good_name (name : string) : Prop := strip name ≠ "" ∧ py_len (encode_utf8 (strip name)) ≤ MAX_NAME_BYTES.
Definition form_ok (f : CaForm) : Prop :=
  match f with
  | form_create name kt years pl => good_name name ∧ kt ∈ KEY_TYPES ∧ in_years years ∧ MIN_PATH_LENGTH ≤ pl ≤ MAX_PATH_LENGTH
  | form_intermediate _ name kt years _ _ => good_name name ∧ kt ∈ KEY_TYPES ∧ in_years years
  | form_cross_sign _ _ years | form_renew _ years => in_years years
  | form_retire _ confirm => confirm ≠ ""
  | form_import _ _ _ _ | form_cross_import _ _ => True
  end.
(** The domain operation of the form ran on [db], was committed as [db1] and
    is about [row]; whoever made an issuer holds it. *)
Definition ca_did (f : CaForm) (user : UserRow) (clock : Z) (d : Draw) (db : DB) (row : CARow) (db1 : DB) : Prop :=
  match f with
  | form_create name kt years pl => request (create_root (strip name) kt years pl d) db = (Ok row, db1)
  | form_intermediate r name kt years p x => ∃ spec db0 b, parse_name_constraints p x = Ok spec ∧
      request (create_intermediate_under r (strip name) kt years (Some spec) d) db = (Ok row, db0) ∧
      request (grant (user_principal user) (ca_id row)) db0 = (Ok b, db1) ∧ (user_id user, ca_id row) ∈ user_issuers db1
  | form_cross_sign n s years => request (cross_sign_root n s years d) db = (Ok row, db1)
  | form_renew n years => request (renew_in_place n years clock d) db = (Ok row, db1)
  | form_retire n _ => cas db !! n = Some row ∧ request (retire n) db = (Ok tt, db1)
  | form_import c k pass ch => ∃ root db0 b,
      request (import_hierarchy c k (if decide (pass = "") then None else Some pass) ch d) db = (Ok (root, row), db0) ∧
      request (grant (user_principal user) (ca_id row)) db0 = (Ok b, db1) ∧ (user_id user, ca_id row) ∈ user_issuers db1
  | form_cross_import c i => request (import_cross c i d) db = (Ok row, db1)
  end.
Definition form_location (f : CaForm) (row : CARow) (location : string) : Prop :=
  match f with
  | form_create _ _ _ _ | form_import _ _ _ _ | form_cross_import _ _ => location = "/ca"
  | form_intermediate n _ _ _ _ _ | form_cross_sign n _ _ => location = "/ca/" +:+ id_text n
  | form_renew _ _ | form_retire _ _ => ∃ p, page_of row = Ok p ∧ location = page_path p
  end.
Definition form_action (f : CaForm) : AuditAction :=
  match f with
  | form_create _ _ _ _ | form_intermediate _ _ _ _ _ _ => a_ca_created
  | form_cross_sign _ _ _ => a_ca_cross_signed | form_renew _ _ => a_ca_renewed | form_retire _ _ => a_ca_retired
  | form_import _ _ _ _ => a_ca_imported | form_cross_import _ _ => a_ca_cross_imported
  end.
Definition form_says (f : CaForm) (row : CARow) : string :=
  match f with
  | form_create name _ _ _ => "created CA root " +:+ py_repr (strip name)
  | form_intermediate n _ _ _ _ _ => "created intermediate " +:+ py_repr (ca_name row) +:+ " under root " +:+ id_text n
  | form_cross_sign _ s _ => "cross-signed " +:+ py_repr (ca_name row) +:+ " with root " +:+ id_text s
  | form_renew _ _ => "renewed CA " +:+ py_repr (ca_name row)
  | form_retire _ _ => "retired CA " +:+ py_repr (ca_name row)
  | form_import _ _ _ _ => "imported CA " +:+ match load_cert (ca_cert row) with Ok c => rfc4514_string (cert_subject c) | Raise _ => "" end
  | form_cross_import _ _ => "imported cross certificate for " +:+ py_repr (ca_name row)
  end.
(** The forms after which cabin looks at its own certificate. *)
Definition form_looks (f : CaForm) : bool :=
  match f with form_create _ _ _ _ | form_intermediate _ _ _ _ _ _ | form_import _ _ _ _ => true | _ => false end.
(** With TLS on, the issuer cabin's own certificate is bound to is spared. *)
Definition bound_issuer (db : DB) (n : Z) : Prop := py_int (default "" (get_setting TLS_ISSUER_ID db)) = Ok n.
Definition tls_spared (tls : bool) (f : CaForm) (db : DB) : Prop :=
  match f with
  | form_retire n _ => ∀ row b, tls = true → cas db !! n = Some row → ca_status row = Active → bound_issuer db b → b ∉ retired_set db row
  | _ => True
  end.
Definition answer_status (a : CaAnswer) : option Z :=
  match a with
  | Redirect _ => None
  | ListPage _ _ => Some 200
  | NewPage n _ _ | DetailPage n _ _ _ _ | RowPage n _ _ _ | ImportPage n _ _ | CrossImportPage n _ _ => Some n
  end.
(** A form that was not carried out: the page again, or an error. *)
Definition turned_down (row : SessionRow) (db : DB) (r : Outcome CaAnswer) (db' : DB) : Prop :=
  match r with
  | Ok a => answer_status a = Some 400 ∧ db' = popped row db
  | Raise _ => db' = db ∨ db' = popped row db
  end.
Definition ca_outcome (f : CaForm) (user : UserRow) (row : SessionRow) (tls : bool) (manager : option Turn) (clock : Z) (d : Draw)
    (t : Manager) (db : DB) (r : Outcome CaAnswer) (t' : Manager) (db' : DB) : Prop :=
  (t' = t ∧ turned_down row db r db') ∨
  form_ok f ∧ tls_spared tls f db ∧ ∃ crow db1 location, ca_did f user clock d db crow db1 ∧ form_location f crow location ∧
    match f, ca_status crow with
    | form_retire _ _, Retired => r = Ok (Redirect location) ∧ t' = t ∧ db' = db ∧ db1 = db
    | _, _ => finished user row (if form_looks f then manager else None) (form_action f) (form_says f crow) (ca_id crow) location t db1 r t' db'
    end.

Lemma wp_detail_page v root error status opened db (Q : Outcome CaAnswer → Session DB → Prop) :
  is_Some (sessions db !! session_hash (vw_row v)) →
  (∀ a s, answer_status a = Some status → durable s = popped (vw_row v) db → Q (Ok a) s) →
  (∀ e s, durable s = popped (vw_row v) db → Q (Raise e) s) → wp (detail_page v root error status opened) (fresh_session db) Q.
Proof.
  intros Hs Hok Hno. unfold detail_page, context, base_context. apply wp_bind, wp_query, wp_bind, wp_bind, wp_pop_flash; [done|].
  apply wp_bind, wp_query, wp_ret, wp_bind, wp_query, wp_bind, wp_lift; [|intros e _; by apply Hno]. intros g _. by apply wp_ret, Hok.
Qed.
Lemma wp_issuer_page v root row error status db (Q : Outcome CaAnswer → Session DB → Prop) :
  is_Some (sessions db !! session_hash (vw_row v)) →
  (∀ a s, answer_status a = Some status → durable s = popped (vw_row v) db → Q (Ok a) s) →
  (∀ e s, durable s = db → Q (Raise e) s) → wp (issuer_page v root row error status) (fresh_session db) Q.
Proof.
  intros Hs Hok Hno. unfold issuer_page. apply wp_bind, wp_readonly.
  { destruct (parent_id row) as [p|]; [|done]. apply readonly_bind; [|done]. unfold get_ca. apply readonly_bind; [done|]. by intros []. }
  intros [key|e] _; [|by apply Hno]. apply wp_bind, wp_query, wp_bind, wp_query, wp_bind, wp_lift; [|intros e _; by apply Hno]. intros view _.
  apply wp_bind, wp_readonly.
  { case_decide; [|done]. repeat (apply readonly_bind; [done|]; intros ?). apply readonly_bind; [|done].
    destruct (parent_id row) as [p|]; [|done]. apply readonly_bind; [|done]. unfold get_ca. apply readonly_bind; [done|]. by intros []. }
  intros [served|e] _; [|by apply Hno]. unfold context, base_context. apply wp_bind, wp_bind, wp_pop_flash; [done|].
  apply wp_bind, wp_query, wp_ret, wp_ret. by apply Hok.
Qed.

Definition ca_verdict (q : Post) (f : CaForm) (tls : bool) (manager : option Turn) (clock : Z) (d : Draw) (t : Manager) (db : DB)
    (r : Outcome CaAnswer) (t' : Manager) (db' : DB) : Prop :=
  (∃ e, r = Raise e ∧ t' = t ∧ form_refused ADMIN_ROLES (po_cookie q) (po_csrf q) (po_seen q) db e db') ∨
  ∃ user row, opens (po_cookie q) (po_seen q) db user row ∧ user_role user ∈ ADMIN_ROLES ∧ po_csrf q = Some (csrf_token row) ∧
    ca_outcome f user (seen_row (po_seen q) row) tls manager clock d t (seen (po_seen q) row db) r t' db'.
Lemma awp_guarded q f tls manager clock d now (k : Viewer → Act CaAnswer) t db : identity_ok db → hierarchy_ok db →
  (∀ user row d0, hierarchy_ok d0 → is_Some (users d0 !! user_id user) → is_Some (sessions d0 !! session_hash row) →
     awp (k (mkViewer user row now)) t (fresh_session d0) (λ r t' s, ca_outcome f user row tls manager clock d t d0 r t' (durable s))) →
  awp (v ← on_db (ca_guard q now); k v) t (fresh_session db) (λ r t' s, ca_verdict q f tls manager clock d t db r t' (durable s)).
Proof.
  intros Hid Hh Hk. apply awp_bind, awp_db. unfold ca_guard. apply wp_bind, wp_ui_guard; [done| |intros e d0 He; left; by exists e].
  intros user row Ho Hr Hc. apply wp_ret. pose proof (seen_stored _ _ _ _ _ Hid Ho) as Hst.
  destruct (seen_users (po_seen q) row db) as (Hus & _ & Hcas & _).
  eapply awp_mono; [apply Hk|].
  - by apply (hierarchy_same db).
  - destruct Ho as (tok & _ & _ & _ & Hu). rewrite Hus. rewrite (user_keys _ Hid _ _ Hu). by eexists.
  - by eexists.
  - intros r t' s Hx. right. exists user, row. by split_and!.
Qed.

Section forms.
Context (q : Post) (tls : bool) (manager : option Turn) (clock : Z) (d : Draw) (now : Z) (t : Manager) (user : UserRow) (row : SessionRow) (db : DB).
Context (Hh : hierarchy_ok db) (Hu : is_Some (users db !! user_id user)) (Hs : is_Some (sessions db !! session_hash row)) (Hw : turn_drawn manager).
#[local] Abbreviation v := (mkViewer user row now).
#[local] Abbreviation outcome f := (λ r t' s, ca_outcome f user row tls manager clock d t db r t' (durable s)).

Lemma down f r s : turned_down row db r (durable s) → outcome f r t s.
Proof. intros H. left. by split. Qed.
Lemma down_raise f e s : durable s = db → outcome f (Raise e) t s.
Proof. intros H. apply down. by left. Qed.
(** What is left after an operation of the CA service. *)
Lemma after_ca_step db1 : ca_step db db1 → hierarchy_ok db1 ∧ is_Some (users db1 !! user_id user) ∧ is_Some (sessions db1 !! session_hash row).
Proof using All. intros Hstep. destruct (ca_step_frame db db1 Hh Hstep) as (H1 & H2 & H3 & _). by rewrite H2, H3. Qed.
Lemma after_step {A} (m : Tx DB A) op a db1 : run_op op = (m ≫= λ _, mret ()) → request m db = (Ok a, db1) →
  hierarchy_ok db1 ∧ is_Some (users db1 !! user_id user) ∧ is_Some (sessions db1 !! session_hash row).
Proof using All. intros Hop Hm. eapply after_ca_step, is_ca_step; [exact Hop|exact Hm]. Qed.
Lemma first_error_none l : first_error l = None → Forall (λ o, o = None) l.
Proof. induction l as [|[m|] l IH]; cbn; [constructor|done|]. intros H. constructor; auto. Qed.
Lemma name_error_none name : name_error (strip name) = None → good_name name.
Proof. unfold name_error, good_name. case_decide; [done|]. destruct (_ <? _) eqn:E; [done|]. intros _. split; [done|lia]. Qed.
Lemma key_type_error_none kt : key_type_error kt = None → kt ∈ KEY_TYPES.
Proof. unfold key_type_error. by case_bool_decide. Qed.
Lemma years_none n field : year_bounds_error n field = None → in_years n.
Proof. unfold year_bounds_error, in_years. destruct (_ && _) eqn:E; [|done]. intros _. apply andb_true_iff in E as [H1 H2]. lia. Qed.

Lemma awp_create name kt years pl :
  awp (match first_error [name_error (strip name); key_type_error kt; years_error years; path_length_error pl] with
    | Some m => on_db (new_page v (Some m) 400)
    | None =>
        root ← on_db (create_root (strip name) kt years pl d);
        subject ← on_db (lift (ca_subject root));
        finish q v a_ca_created ("created CA root " +:+ py_repr (strip name)) (ca_id root)
          (Some (<["name" := JStr (strip name)]> (<["key_type" := JStr kt]> (<["root_years" := JInt years]>
            (<["path_length" := JInt pl]> {["subject" := JStr subject]}))))) manager (Ok "/ca")
    end) t (fresh_session db) (outcome (form_create name kt years pl)).
Proof using All.
  destruct (first_error _) as [m|] eqn:He.
  { apply awp_db. unfold new_page, context, base_context. apply wp_bind, wp_bind, wp_pop_flash; [done|].
    apply wp_bind, wp_query, wp_ret, wp_ret. by apply down. }
  apply first_error_none in He. inversion_clear He as [|? ? H1 He']. inversion_clear He' as [|? ? H2 He]. inversion_clear He as [|? ? H3 He'].
  inversion_clear He' as [|? ? H4 _].
  apply awp_bind, awp_db. eapply wp_one_step; [apply create_root_step| |intros e _; by apply down_raise].
  intros root db1 Hreq Hm. destruct (after_step _ (inl (op_create_root (strip name) kt years pl d)) _ _ eq_refl Hreq) as (Hh1 & _ & Hs1).
  destruct (made_cert _ _ _ Hm) as (cert & spec & Hc & Hspec). apply awp_bind, awp_db. unfold ca_subject, cert_info. rewrite Hc.
  cbn [mbind Outcome_bind]. rewrite Hspec. apply wp_lift; [|done]. intros subject _.
  apply awp_finish; [done..|]. intros r t' db' Hf. right. split.
  { cbn. split_and!; [by apply name_error_none|by apply key_type_error_none|by eapply years_none| |];
      unfold path_length_error in H4; (destruct (_ && _) eqn:E; [|done]); lia. }
  split; [done|]. by exists root, db1, "/ca".
Qed.

(** Two 404s and the page again: what precedes the operation of a form about
    one row. *)
Lemma awp_about n f (k : CARow → Act CaAnswer) :
  (∀ r, cas db !! n = Some r → awp (k r) t (fresh_session db) (outcome f)) →
  awp (r ← on_db (as_404 (get_ca n)); k r) t (fresh_session db) (outcome f).
Proof. intros H. apply awp_bind, awp_db, get_ca_404; [by apply H|]. intros _. by apply down_raise. Qed.
Lemma wp_detail root error opened f :
  wp (detail_page v root error 400 opened) (fresh_session db) (λ r s, ca_outcome f user row tls manager clock d t db r t (durable s)).
Proof using Hs.
  apply wp_detail_page; [done|..].
  - intros a s Ha Hd. apply down. by split.
  - intros e s Hd. apply down. by right.
Qed.
Lemma awp_detail root error opened f : awp (on_db (detail_page v root error 400 opened)) t (fresh_session db) (outcome f).
Proof using Hs. apply awp_db, wp_detail. Qed.
Lemma awp_cross_sign n s years :
  awp (root ← on_db (as_404 (get_ca n));
       let page m := detail_page v root (Some m) 400 (Some open_cross_sign) in
       match year_bounds_error years "years" with
       | Some m => on_db (page m)
       | None => or_refuse (cross_sign_root n s years d) cross_shown page (λ crow,
           produced ← on_db (lift (load_cert (ca_cert crow)));
           finish q v a_ca_cross_signed ("cross-signed " +:+ py_repr (ca_name crow) +:+ " with root " +:+ id_text s) (ca_id crow)
             (Some (<["signing_root_id" := JInt s]> (<["subject_root_id" := JInt n]> (<["years" := JInt years]>
               {["not_after" := JStr (iso (not_valid_after produced))]})))) None (Ok ("/ca/" +:+ id_text n)))
       end) t (fresh_session db) (outcome (form_cross_sign n s years)).
Proof using All.
  apply awp_about. intros root _. cbn zeta. destruct (year_bounds_error years "years") as [m|] eqn:Hy; [apply awp_detail|].
  apply awp_or_refuse. eapply wp_one_step; [apply cross_sign_step|..].
  - intros crow db1 Hreq Hm. destruct (after_step _ (inl (op_cross_sign n s years d)) _ _ eq_refl Hreq) as (Hh1 & _ & Hs1).
    unfold readable_row in Hm. destruct (load_cert (ca_cert crow)) as [cert|] eqn:Hc; [|done].
    apply awp_bind, awp_db, wp_lift; [|done]. intros ? [= <-]. apply awp_finish; [done..|].
    intros r t' db' Hf. right. split; [by eapply years_none|]. split; [done|]. by exists crow, db1, ("/ca/" +:+ id_text n).
  - intros e _. destruct e; try (by apply down_raise); apply wp_detail.
Qed.
(** The domain operation, then the grant to whoever asked. *)
Lemma wp_grant_made crow db0 (Q : Outcome bool → Session DB → Prop) : is_Some (users db0 !! user_id user) → is_Some (sessions db0 !! session_hash row) →
  hierarchy_ok db0 → cas db0 !! ca_id crow = Some crow → ca_kind crow = Intermediate →
  (∀ b db1, request (grant (user_principal user) (ca_id crow)) db0 = (Ok b, db1) → (user_id user, ca_id crow) ∈ user_issuers db1 →
     hierarchy_ok db1 → is_Some (sessions db1 !! session_hash row) → Q (Ok b) (fresh_session db1)) →
  wp (grant (user_principal user) (ca_id crow)) (fresh_session db0) Q.
Proof.
  intros Hu0 Hs0 Hh0 Hr Hk HQ. eapply wp_grant; [done..|]. intros b db1 Hreq Hin Hcas _ Hsess. apply HQ; [done..| |by rewrite Hsess].
  by apply (hierarchy_same db0).
Qed.
Lemma awp_intermediate n name kt years p x :
  awp (root ← on_db (as_404 (get_ca n));
       let form_error := first_error [name_error (strip name); key_type_error kt; year_bounds_error years "years"] in
       '(constraints, constraints_error) ← on_db (lift (constraints_form_error p x));
       let page m := detail_page v root (Some m) 400 (Some open_intermediate) in
       match first_error [form_error; constraints_error] with
       | Some m => on_db (page m)
       | None =>
           or_refuse (create_intermediate_under n (strip name) kt years constraints d) intermediate_shown page (λ crow,
           _ ← on_db (grant (user_principal user) (ca_id crow));
           produced ← on_db (lift (load_cert (ca_cert crow)));
           spec ← on_db (lift (constraints_of produced));
           let '(permitted, excluded) := canonical_entries spec in
           finish q v a_ca_created ("created intermediate " +:+ py_repr (ca_name crow) +:+ " under root " +:+ id_text n) (ca_id crow)
             (Some (<["name" := JStr (strip name)]> (<["key_type" := JStr kt]> (<["years" := JInt years]>
               (<["root_id" := JInt n]> (<["granted_to" := JInt (user_id user)]>
               (<["permitted" := JList (map JStr permitted)]> {["excluded" := JList (map JStr excluded)]})))))))
             manager (Ok ("/ca/" +:+ id_text n)))
       end) t (fresh_session db) (outcome (form_intermediate n name kt years p x)).
Proof using All.
  apply awp_about. intros root _. cbn zeta. apply awp_bind, awp_db, wp_lift; [|intros e _; by apply down_raise].
  intros [constraints cerr] Hc. destruct (first_error [_; cerr]) as [m|] eqn:He; [apply awp_detail|].
  apply first_error_none in He. inversion_clear He as [|? ? H0 He']. inversion_clear He' as [|? ? Hce _]. subst cerr.
  change (first_error [name_error (strip name); key_type_error kt; year_bounds_error years "years"] = None) in H0.
  apply first_error_none in H0. inversion_clear H0 as [|? ? H1 He']. inversion_clear He' as [|? ? H2 He]. inversion_clear He as [|? ? H3 _].
  assert (∃ spec, parse_name_constraints p x = Ok spec ∧ constraints = Some spec) as (spec & Hp & ->).
  { unfold constraints_form_error in Hc. destruct (parse_name_constraints p x) as [spec|[]]; try done. injection Hc as <-. by exists spec. }
  apply awp_or_refuse. eapply wp_one_step; [apply create_intermediate_step|..].
  - intros crow db0 Hreq Hm. destruct (after_step _ (inl (op_create_intermediate n (strip name) kt years (Some spec) d)) _ _ eq_refl Hreq) as (Hh1 & Hu1 & Hs1).
    destruct (made_cert _ _ _ Hm) as (cert & nc & Hcert & Hnc). apply awp_bind, awp_db, wp_grant_made; [done..|apply Hm|apply Hm|].
    intros b db1 Hg Hin Hh2 Hs2. apply awp_bind, awp_db, wp_lift; [|by rewrite Hcert]. intros ? Hc'. assert (a = cert) as -> by congruence.
    apply awp_bind, awp_db, wp_lift; [|by rewrite Hnc]. intros spec' _. try destruct (canonical_entries spec') as [permitted excluded].
    apply awp_finish; [done..|]. intros r t' db' Hf. right. split; [split_and!; [by apply name_error_none|by apply key_type_error_none|by eapply years_none..]|].
    split; [done|]. exists crow, db1, ("/ca/" +:+ id_text n). split; [by exists spec, db0, b|]. by split.
  - intros e _. destruct e; try (by apply down_raise); apply wp_detail.
Qed.
Lemma awp_renew n years :
  awp (match year_bounds_error years "years" with
       | Some m => mthrow (HTTPException 400 m [])
       | None =>
           or_refuse (renew_in_place n years clock d) renew_shown (λ m, mthrow (HTTPException 400 m [])) (λ crow,
           finish q v a_ca_renewed ("renewed CA " +:+ py_repr (ca_name crow)) (ca_id crow) (Some {["years" := JInt years]}) None (page_location crow))
       end) t (fresh_session db) (outcome (form_renew n years)).
Proof using All.
  destruct (year_bounds_error years "years") as [m|] eqn:Hy; [by apply down_raise|].
  apply awp_or_refuse. eapply wp_one_step; [by apply renew_step|..].
  - intros crow db1 Hreq [Hp _]. destruct (after_step _ (inl (op_renew n years clock d)) _ _ eq_refl Hreq) as (Hh1 & _ & Hs1).
    unfold page_location. destruct (page_of crow) as [p|] eqn:Hpage; [|done]. cbn [mbind Outcome_bind].
    apply awp_finish; [done..|]. intros r t' db' Hf. right. split; [by eapply years_none|]. split; [done|].
    exists crow, db1, (page_path p). split; [done|]. split; [by exists p|done].
  - intros e _. destruct e; by apply down_raise.
Qed.
Lemma wp_refuse_retire n crow confirm (Q : Outcome unit → Session DB → Prop) : cas db !! n = Some crow →
  (tls_spared tls (form_retire n confirm) db → Q (Ok ()) (fresh_session db)) → (∀ e, Q (Raise e) (fresh_session db)) →
  wp (refuse_retire_of_tls_issuer tls n crow) (fresh_session db) Q.
Proof.
  intros Hr Hok Hno. unfold refuse_retire_of_tls_issuer. destruct (_ || _) eqn:E.
  { apply wp_ret, Hok. intros row' b -> Hr' Hact. assert (row' = crow) as -> by congruence. rewrite bool_decide_eq_true_2 in E by done. done. }
  apply wp_bind, wp_query. cbn [work fresh_session]. destruct (decide (default "" (get_setting TLS_ISSUER_ID db) = "")) as [Hempty|_].
  { apply wp_ret, Hok. intros row' b _ _ _ Hb. unfold bound_issuer in Hb. by rewrite Hempty in Hb. }
  destruct (py_int _) as [bound_id|e] eqn:Hb.
  - apply wp_bind, wp_retire_targets; cbn [work fresh_session]; [|congruence]. intros r Hr'. assert (r = crow) as -> by congruence.
    apply wp_raise_if; [done|]. intros Hin%bool_decide_eq_false. apply Hok. intros row' b _ Hrow' _ Hb'. unfold bound_issuer in Hb'.
    assert (row' = crow) as -> by congruence. by assert (b = bound_id) as -> by congruence.
  - destruct e; try apply Hno. apply wp_ret, Hok. intros row' b _ _ _ Hb'. unfold bound_issuer in Hb'. congruence.
Qed.
Lemma wp_issuer root crow error f :
  wp (issuer_page v root crow error 400) (fresh_session db) (λ r s, ca_outcome f user row tls manager clock d t db r t (durable s)).
Proof using Hs.
  apply wp_issuer_page; [done|..].
  - intros a s Ha Hd. apply down. by split.
  - intros e s Hd. apply down. by left.
Qed.
Lemma awp_retire n confirm :
  awp (crow ← on_db (as_404 (get_ca n));
       if decide (confirm = "") then
         on_db (if decide (ca_kind crow = Root) then detail_page v crow (Some CONFIRM_RETIRE) 400 None
                else root ← root_of crow; issuer_page v root crow (Some CONFIRM_RETIRE) 400)
       else
         or_refuse (_ ← refuse_retire_of_tls_issuer tls n crow; retire n) retire_shown (λ m, mthrow (HTTPException 400 m [])) (λ _,
         if decide (ca_status crow = Active)
         then finish q v a_ca_retired ("retired CA " +:+ py_repr (ca_name crow)) n None None (page_location crow)
         else location ← on_db (lift (page_location crow)); mret (Redirect location))) t (fresh_session db) (outcome (form_retire n confirm)).
Proof using All.
  apply awp_about. intros crow Hr. destruct (page_of_total _ _ _ Hh Hr) as [p Hp]. destruct (Hh _ _ Hr) as [Hid _].
  case_decide as Hconf; [case_decide|]; [apply awp_detail|..].
  { apply awp_db, wp_bind, wp_readonly; [|intros [root|e] _; [apply wp_issuer|by apply down_raise]].
    unfold root_of, get_ca. repeat (case_match || apply readonly_bind || intros ?); try done; by destruct (_ : option _). }
  assert (Hloc : page_location crow = Ok (page_path p)) by (unfold page_location; by rewrite Hp).
  assert (Hraise : ∀ e, match retire_shown e with
      | OnThePage => wp (mthrow (HTTPException 400 (exc_text e) [])) (fresh_session db) (λ r s, outcome (form_retire n confirm) r t s)
      | As404 => outcome (form_retire n confirm) (Raise (HTTPException 404 (exc_text e) [])) t (fresh_session db)
      | As400 => outcome (form_retire n confirm) (Raise (HTTPException 400 (exc_text e) [])) t (fresh_session db)
      | Escapes => outcome (form_retire n confirm) (Raise e) t (fresh_session db)
      end) by (intros e; destruct e; by apply down_raise).
  apply awp_or_refuse, wp_bind, (wp_refuse_retire n crow confirm); [done| |exact Hraise]. intros Hspared.
  eapply wp_one_step; [by apply retire_step| |intros e _; apply Hraise]. intros [] db1 Hreq Hidle.
  destruct (after_ca_step db1) as (Hh1 & _ & Hs1). { exists (inl (op_retire n)). cbn [run_op]. by rewrite Hreq. }
  rewrite Hloc. case_decide as Hact.
  - apply awp_finish; [done..|]. intros r t' db' Hf. right. split; [done|]. split; [done|]. exists crow, db1, (page_path p). split; [done|].
    split; [by exists p|]. rewrite Hact, Hid. done.
  - apply awp_bind, awp_db, wp_lift; [|done]. intros ? [= <-]. apply awp_ret. right. split; [done|]. split; [done|].
    exists crow, db1, (page_path p). split; [done|]. split; [by exists p|]. destruct (ca_status crow) eqn:Hst; [done|].
    assert (db1 = db) as -> by by eapply Hidle. done.
Qed.
Lemma wp_import_again (page : Context_ → CaAnswer) f : (∀ cx, answer_status (page cx) = Some 400) →
  wp (cx ← context v; mret (page cx)) (fresh_session db) (λ r s, ca_outcome f user row tls manager clock d t db r t (durable s)).
Proof using Hs.
  intros Hp. unfold context, base_context. apply wp_bind, wp_bind, wp_pop_flash; [done|]. apply wp_bind, wp_query, wp_ret, wp_ret. by apply down.
Qed.
Lemma awp_import c k pass ch :
  awp (or_refuse (import_hierarchy c k (if decide (pass = "") then None else Some pass) ch d) import_shown (import_page v) (λ hierarchy,
       let crow := snd hierarchy in
       cert ← on_db (lift (load_cert (ca_cert crow)));
       let subject := rfc4514_string (cert_subject cert) in
       _ ← on_db (grant (user_principal user) (ca_id crow));
       finish q v a_ca_imported ("imported CA " +:+ subject) (ca_id crow)
         (Some (<["subject" := JStr subject]> {["granted_to" := JInt (user_id user)]})) manager (Ok "/ca")))
    t (fresh_session db) (outcome (form_import c k pass ch)).
Proof using All.
  apply awp_or_refuse. eapply wp_one_step; [apply import_step|..].
  - intros [root crow] db0 Hreq (Hk & Hr & Hc). cbn [snd] in *. unfold readable_row in Hc.
    destruct (after_step _ (inr (op_import c k (if decide (pass = "") then None else Some pass) ch d)) _ _ eq_refl Hreq) as (Hh1 & Hu1 & Hs1).
    destruct (load_cert (ca_cert crow)) as [cert|] eqn:Hcert; [|done]. apply awp_bind, awp_db, wp_lift; [|done]. intros ? [= <-].
    apply awp_bind, awp_db, wp_grant_made; [done..|]. intros b db1 Hg Hin Hh2 Hs2.
    apply awp_finish; [done..|]. intros r t' db' Hf. right. split; [done|]. split; [done|]. exists crow, db1, "/ca".
    split; [by exists root, db0, b|]. split; [done|]. cbn [form_says]. by rewrite Hcert.
  - intros e _. destruct e; try (by apply down_raise); by apply wp_import_again.
Qed.
Lemma awp_cross_import c i :
  awp (or_refuse (import_cross c i d) import_shown (cross_import_page v) (λ crow,
       cross ← on_db (lift (load_cert (ca_cert crow)));
       signer ← on_db (lift (load_cert i));
       finish q v a_ca_cross_imported ("imported cross certificate for " +:+ py_repr (ca_name crow)) (ca_id crow)
         (Some (<["subject_root_id" := or_null_id (cross_of_id crow)]> (<["signing_root_id" := or_null_id (parent_id crow)]>
           (<["cross_fingerprint" := JStr (desc_fingerprint (describe_certificate cross))]>
           {["signing_fingerprint" := JStr (desc_fingerprint (describe_certificate signer))]})))) None (Ok "/ca")))
    t (fresh_session db) (outcome (form_cross_import c i)).
Proof using All.
  apply awp_or_refuse. eapply wp_one_step; [apply import_cross_step|..].
  - intros crow db1 Hreq [Hc Hi]. unfold readable_row in Hc.
    destruct (after_step _ (inr (op_import_cross c i d)) _ _ eq_refl Hreq) as (Hh1 & _ & Hs1).
    destruct (load_cert (ca_cert crow)) as [cross|]; [|done]. destruct (load_cert i) as [signer|]; [|done].
    apply awp_bind, awp_db, wp_lift; [|done]. intros ? _. apply awp_bind, awp_db, wp_lift; [|done]. intros ? _.
    apply awp_finish; [done..|]. intros r t' db' Hf. right. split; [done|]. split; [done|]. by exists crow, db1, "/ca".
  - intros e _. destruct e; try (by apply down_raise); by apply wp_import_again.
Qed.
End forms.

End theorems.

Module CaUiExamples.
#[local] Existing Instance Toy.lib.
#[local] Existing Instance toy_secrets.
#[local] Existing Instance toy_crypto.
#[local] Existing Instance TlsExamples.toy_ssl.
Import Toy CaExamples IdentityExamples DepsExamples WebUiExamples TlsExamples CaPagesExamples.
#[local] Strategy 1000 [signed_in crossed root_logged_in request ca_request turn].
Definition own_look : Turn := at_ "cabin" 40 t2026.
Definition posting (f : CaForm) (db : DB) : Outcome CaAnswer * (Manager * DB) :=
  CaUi.ca_request post true (Some own_look) f t2026 (draw 30) t2026 started db.
Definition location_of (r : Outcome CaAnswer) : option string := match r with Ok (Redirect l) => Some l | _ => None end.
Definition status_of (r : Outcome CaAnswer) : option Z := match r with Ok a => answer_status a | Raise (HTTPException n _ _) => Some n | Raise _ => None end.
Definition issuer_form : CaForm := form_intermediate 1 " CA 3 " "ecdsa-p256" 10 "lan" "".
Definition issuer_made : Outcome CaAnswer * (Manager * DB) := posting issuer_form signed_in.
#[local] Strategy 1000 [CaUi.ca_request].
#[local] Strategy 500 [issuer_made].
(** Cabin's own certificate is bound to issuer 2. *)
Definition bound : DB := on_settings (λ _, {[TLS_ISSUER_ID := "2"]}) signed_in.
#[local] Strategy 1000 [bound].

(** A key file that is no text: the root is made, logged and kept, and the
    answer is the error of the look at cabin's own certificate. *)
Definition damaged : Manager := mkManager (mkFiles (crt (files (fst (snd issuer_made)))) (Some NotUtf8)) None None (Some None).
Definition made_with_damaged_key : Outcome CaAnswer * (Manager * DB) :=
  CaUi.ca_request post true (Some own_look) (form_create "Another root" "ecdsa-p256" 20 1) t2026 (draw 30) t2026 damaged signed_in.
Example root_made_and_an_error :
  fst made_with_damaged_key = Raise (ValueError "'utf-8' codec can't decode byte") ∧
  bool_decide (size (cas (snd (snd made_with_damaged_key))) = S (size (cas signed_in))) = true.
Proof. split; vm_compute; reflexivity. Qed.
(** Retiring what is retired says nothing and records nothing. *)
Definition twice : Outcome CaAnswer * (Manager * DB) := posting (form_retire 3 "on") (snd (snd (posting (form_retire 3 "on") signed_in))).
Example retired_once :
  location_of (fst twice) = Some "/ca/1/issuer/3" ∧
  bool_decide (size (audit_events (snd (snd twice))) = S (size (audit_events signed_in))) = true.
Proof. split; vm_compute; reflexivity. Qed.
End CaUiExamples.
