(* ===== verification/CertsUi.v ===== *)
(** * [cabin.web.certs_ui] and [cabin.web.certs_download_ui]: certificates in the browser

    The inventory, the two issuance forms with their previews, the page of a
    certificate with its revocation, and the downloads, each as the whole
    handler and as the data its template is given.  The texts of dates, what
    a rejected form is filled in with again and the pager's links are left out. *)

From S2P Require Import Prelude PyStr PyTime Json IPAddr X509Lib X509 Leaf Store Settings CaService Grants Identity Certs Crl AuditLog WebDeps WebUi Targets Tls CaPages.
#[local] Open Scope Z_scope.

Definition NO_CA_YET : string := "no CA yet: create or import one under CA before issuing certificates".
Definition NO_ACTIVE_ISSUER : string := "this CA hierarchy has no active issuer yet: add an intermediate under its own page".
Definition NO_GRANT : string := "no issuer is granted to you: ask a superadmin to grant one under Users".
Definition VERDICT_PERMITTED : string := "Every name is inside what this issuer permits.".
Definition VERDICT_UNCONSTRAINED : string := "This issuer sets no name constraints, so any name it is asked for is permitted.".
Definition CONFIRM_REVOKE : string := "tick the confirmation box: revoking a certificate cannot be undone".
Definition UNKNOWN_REASON (reason : string) : string := "unknown revocation reason: " +:+ py_repr reason.
Definition SERIAL_CHARS : nat := 8.
Definition SAN_PREVIEW : nat := 3.
Definition STATUS_FILTERS : list string := ["all"; "valid"; "expiring"; "expired"; "revoked"].
Definition MIN_P12_PASSWORD : Z := 8.
Definition P12_UNSUPPORTED : string := "this key type cannot be stored in a PKCS#12 bundle".
Definition parse_reason (s : string) : option RevocationReason :=
  List.find (λ r, bool_decide (reason_text r = s)) [unspecified; key_compromise; superseded; cessation_of_operation; affiliation_changed].

(** [pkcs12.serialize_key_and_certificates]: the name, the key, its
    certificate, the rest of the chain and the password. *)
Class P12Lib {X : X509Lib} := {
  P12 : Type;
  serialize_p12 : string → PrivKey → Cert → list Cert → string → Outcome P12 }.

(** ** What the templates are given *)
Record NoIssuer := mkNoIssuer { ni_message : string; ni_href : option string; ni_link : option string }.
(** The panel of the issuance form: a name with the reason it is refused for. *)
Record IssuePreview := mkIssuePreview {
  pw_issuer : option string; pw_names : list (string * option string); pw_verdict : option string; pw_refused : bool;
  pw_expires : option string; pw_capped : option string; pw_chain : option (list string) }.
Record SignPreview := mkSignPreview {
  sp_subject : option string; sp_sans : list string; sp_key : option string; sp_error : option string }.
Inductive Preview := panel_issue (days : Z) (p : IssuePreview) | panel_sign (p : SignPreview).
Inductive FormKind := new_form | sign_form.
#[export] Instance FormKind_eq_dec : EqDecision FormKind.
Proof. solve_decision. Defined.
Record CertLine := mkCertLine {
  cl_id : Z; cl_cn : string; cl_profile : string; cl_source : CertSource; cl_has_key : bool; cl_not_after : Z;
  cl_status : CertStatus; cl_sans : list string; cl_sans_more : nat; cl_serial : string }.
Record CertsList := mkCertsList {
  li_lines : list CertLine; li_query : string; li_status : string; li_page : Z; li_pages : Z; li_total : nat;
  li_prev : option Z; li_next : option Z; li_can_issue : bool }.

Section answers.
Context {X : X509Lib} {SS : SecretStore}.
Record FormView := mkFormView {
  fv_kind : FormKind; fv_error : option string; fv_href : option string; fv_link : option string; fv_issuers : list CARow;
  fv_select : bool; fv_preview : option Preview }.
Record CertView := mkCertView {
  cw_row : CertRow; cw_key : option (Plain Pem); cw_key_error : option string; cw_can_download : bool; cw_revoked : option Z;
  cw_can_revoke : bool; cw_error : option string; cw_days : option Z; cw_capped : option Z }.
Inductive CertsAnswer :=
  | To (location : string)
  | Listed (cx : Context_) (l : CertsList)
  | Form (status : Z) (cx : Context_) (v : FormView)
  | Shown (status : Z) (cx : Context_) (v : CertView)
  | Fragment (p : Preview).
End answers.

(** [_pending_capped]: the certificates whose validity was cut, with what was
    asked for, until their page is next shown. *)
#[local] Abbreviation Pending := (gmap Z (Z * Z)).
Definition remember_capped (cert_id days : Z) (capped_from : option Z) (p : Pending) : Pending :=
  match capped_from with None => p | Some t => <[cert_id := (days, t)]> p end.
Definition take_capped (cert_id : Z) (p : Pending) : option Z * option Z * Pending :=
  (fst <$> p !! cert_id, snd <$> p !! cert_id, delete cert_id p).

Section certs_ui.
Context {X : X509Lib} {SS : SecretStore} {CR : Crypto}.

Definition no_issuer_message (db : DB) : NoIssuer :=
  if negb (nonempty (list_cas None None db)) then mkNoIssuer NO_CA_YET (Some "/ca/new") (Some "Create a CA")
  else if negb (nonempty (active_issuers db)) then
    mkNoIssuer NO_ACTIVE_ISSUER ((λ r, "/ca/" +:+ id_text (ca_id r)) <$> head (list_cas None (Some Root) db)) (Some "Add an intermediate")
  else mkNoIssuer NO_GRANT None None.
Definition issuer_options (p : Principal) : Tx DB (list CARow) := l ← query (λ db, granted_issuers db p); lift l.
Definition form_page (v : Viewer) (kind : FormKind) (error : option string) (issuers : list CARow) (status : Z)
    (href link : option string) (preview : option Preview) : Tx DB CertsAnswer :=
  cx ← context v;
  mret (Form status cx (mkFormView kind error href link issuers (bool_decide (1 < length issuers)%nat) preview)).
(** The form with the reason there is no issuer to choose. *)
Definition no_issuer_page (v : Viewer) (kind : FormKind) (issuers : list CARow) (status : Z) : Tx DB CertsAnswer :=
  m ← query no_issuer_message;
  form_page v kind (Some (ni_message m)) issuers status (ni_href m) (ni_link m) None.
(** [GET /certs/new] and [GET /certs/sign]. *)
Definition certs_form (kind : FormKind) (cookie : option string) (seen now : Z) : Tx DB CertsAnswer :=
  v ← viewer_of cookie seen now;
  _ ← lift (require_admin (vw_user v));
  issuers ← issuer_options (user_principal (vw_user v));
  if nonempty issuers then form_page v kind None issuers 200 None None None else no_issuer_page v kind issuers 200.

(** ** The inventory *)
Definition cert_row (row : CertRow) (now : Z) : Outcome CertLine :=
  not_after ← not_after_dt row;
  revoked ← revoked_at_dt row;
  let sans := crt_sans row in
  mret (mkCertLine (crt_id row) (subject_cn row) (crt_profile row) (crt_source row) (bool_decide (is_Some (crt_key row))) not_after
    (certificate_status not_after now revoked) (take SAN_PREVIEW sans) (length sans - SAN_PREVIEW) (str_take SERIAL_CHARS (serial_hex row))).
Definition certs_list (cookie : option string) (q status : string) (page seen now : Z) : Tx DB CertsAnswer :=
  v ← viewer_of cookie seen now;
  let term := str_take MAX_QUERY_LENGTH (strip q) in
  let active := if decide (status ∈ STATUS_FILTERS) then status else "all" in
  let page := Z.max page 1 in
  '(rows, total) ← query (list_certificates term active page PER_PAGE now);
  let pages := Z.max 1 ((Z.of_nat total + Z.of_nat PER_PAGE - 1) / Z.of_nat PER_PAGE) in
  cx ← context v;
  lines ← lift (map_each (λ r, cert_row r now) rows);
  mret (Listed cx (mkCertsList lines term active page pages total
    (if 1 <? page then Some (Z.min (page - 1) pages) else None) (if page <? pages then Some (page + 1) else None)
    (bool_decide (user_role (vw_user v) ∈ ADMIN_ROLES)))).

(** ** Issuing and signing *)
Definition certs_guard (q : Post) (now : Z) : Tx DB Viewer :=
  '(user, row) ← ui_write (po_cookie q) (po_csrf q) (po_seen q);
  mret (mkViewer user row now).
(** A domain failure as a page: bad input, no CA, not granted. *)
Definition issuance_refused (v : Viewer) (kind : FormKind) (issuers : list CARow) (e : Exc) : Tx DB CertsAnswer :=
  match e with
  | IssueError m | NameConstraintError m => form_page v kind (Some m) issuers 400 None None None
  | CANotConfiguredError _ => no_issuer_page v kind issuers 400
  | IssuerForbiddenError m | NoGrantedIssuerError m => form_page v kind (Some m) issuers 403 None None None
  | IssuerRequiredError m | IssuerRetiredError m | UnknownIssuerError m => form_page v kind (Some m) issuers 400 None None None
  | e => mthrow e
  end.
Definition certificate_target (row : CertRow) : option (string * option string) := Some ("certificate", Some (id_text (crt_id row))).
(** [flash] is a write to the row of the session and does not fail, so what
    [_remember_capped] keeps is part of the result. *)
Definition certs_issue (q : Post) (cn sans profile key_type : string) (days : Z) (issuer_id : option Z) (d : Draw) (created now : Z)
    (pending : Pending) : Tx DB (CertsAnswer * Pending) :=
  v ← certs_guard q now;
  let principal := user_principal (vw_user v) in
  issuers ← issuer_options principal;
  r ← WebUi.attempt (p ← lift (parse_profile profile); names ← lift (parse_san_lines sans);
    issue_and_store principal p cn names days key_type issuer_id ui d created);
  match r with
  | Raise e => a ← issuance_refused v new_form issuers e; mret (a, pending)
  | Ok issued =>
      let row := issued_row issued in
      let capped := capped_from issued in
      let summary := issued_summary row in
      _ ← log q (user_actor (vw_user v)) a_cert_issued summary (certificate_target row)
        (Some (certificate_detail row (Some key_type) (if bool_decide (is_Some capped) then Some days else None) capped)) (po_logged q);
      _ ← set_flash (vw_row v) summary;
      mret (To ("/certs/" +:+ id_text (crt_id row)), remember_capped (crt_id row) days capped pending)
  end.
Definition certs_sign (q : Post) (csr_pem : Pem) (profile : string) (days : Z) (sans_override : string) (issuer_id : option Z)
    (d : Draw) (created now : Z) (pending : Pending) : Tx DB (CertsAnswer * Pending) :=
  v ← certs_guard q now;
  let principal := user_principal (vw_user v) in
  issuers ← issuer_options principal;
  r ← WebUi.attempt (p ← lift (parse_profile profile); names ← lift (parse_san_lines sans_override);
    sign_csr_and_store principal csr_pem p days (Some names) None false issuer_id ui d created);
  match r with
  | Raise e => a ← issuance_refused v sign_form issuers e; mret (a, pending)
  | Ok issued =>
      let row := issued_row issued in
      let capped := capped_from issued in
      let summary := signed_summary row in
      _ ← log q (user_actor (vw_user v)) a_cert_signed summary (certificate_target row)
        (Some (certificate_detail row None (if bool_decide (is_Some capped) then Some days else None) capped)) (po_logged q);
      _ ← set_flash (vw_row v) summary;
      mret (To ("/certs/" +:+ id_text (crt_id row)), remember_capped (crt_id row) days capped pending)
  end.

(** ** Previews *)
Definition blank_issue_preview : IssuePreview := mkIssuePreview None [] None false None None None.
(** The message of a refusal by the name constraints; any other exception is
    let through. *)
Definition constraint_refusal (m : Outcome unit) : Outcome (option string) :=
  match m with Ok _ => Ok None | Raise (NameConstraintError t) => Ok (Some t) | Raise e => Raise e end.
Definition issuer_error (e : Exc) : bool :=
  match e with CANotConfiguredError _ | IssuerRequiredError _ | IssuerRetiredError _ | UnknownIssuerError _ => true | _ => false end.
Definition or_none (s : string) : option string := if decide (s = "") then None else Some s.
(** The part after the issuer is known. *)
Definition preview_under (issuer : CARow) (subject_cn sans : string) (days now : Z) : Outcome (option (list string) → IssuePreview) :=
  issuer_cert ← load_cert (ca_cert issuer);
  let cn := or_none (strip subject_cn) in
  '(resolved, failed) ← match (names ← parse_san_lines sans; resolve_sans names [] cn) with
                        | Ok l => Ok (l, None)
                        | Raise (IssueError m) | Raise (NameConstraintError m) => Ok ([], Some m)
                        | Raise e => Raise e
                        end;
  names ← map_each (λ name, note ← constraint_refusal (check_name_constraints issuer_cert None [name]); mret (name, note)) resolved;
  '(verdict, refused) ← (if nonempty resolved then
      r ← constraint_refusal (check_name_constraints issuer_cert cn resolved);
      match r with
      | Some m => mret (Some m, true)
      | None => c ← constraints_of issuer_cert; mret (Some (if is_empty c then VERDICT_UNCONSTRAINED else VERDICT_PERMITTED), bool_decide (is_Some failed))
      end
    else mret (failed, bool_decide (is_Some failed)));
  '(not_after, capped) ← match clamp_validity issuer_cert days (floor_second now) with
                         | Ok (t, c) => Ok (Some t, c)
                         | Raise (IssueError _) | Raise (NameConstraintError _) => Ok (None, None)
                         | Raise e => Raise e
                         end;
  mret (mkIssuePreview (Some (ca_name issuer)) names verdict refused (isoformat <$> not_after) (isoformat <$> capped)).
Definition issue_preview (principal : Principal) (subject_cn sans : string) (issuer_id : option Z) (days now chained : Z) : Tx DB IssuePreview :=
  r ← WebUi.attempt (resolve_granted_issuer principal issuer_id);
  match r with
  | Raise e => if issuer_error e then mret blank_issue_preview else mthrow e
  | Ok issuer =>
      p ← lift (preview_under issuer subject_cn sans days now);
      chain ← query (λ db, chain_for db (ca_id issuer) chained);
      chain ← lift chain;
      mret (p (Some (map ca_name chain)))
  end.
Definition certs_issue_preview (q : Post) (htmx : bool) (subject_cn sans : string) (days : Z) (issuer_id : option Z) (now chained shown : Z)
  : Tx DB CertsAnswer :=
  v ← certs_guard q shown;
  let principal := user_principal (vw_user v) in
  issuers ← issuer_options principal;
  r ← WebUi.attempt (issue_preview principal subject_cn sans issuer_id days now chained);
  match r with
  | Raise (IssuerForbiddenError m) | Raise (NoGrantedIssuerError m) => form_page v new_form (Some m) issuers 403 None None None
  | Raise e => mthrow e
  | Ok p => if htmx : bool then mret (Fragment (panel_issue days p))
            else form_page v new_form None issuers 200 None None (Some (panel_issue days p))
  end.
(** The paste, [None] when it is blank. *)
Definition sign_preview (csr_pem : option Pem) : Outcome SignPreview :=
  match csr_pem with
  | None => mret (mkSignPreview None [] None None)
  | Some pem =>
      match load_csr pem with
      | Raise (ValueError m) => mret (mkSignPreview None [] None (Some ("not a valid CSR PEM: " +:+ m)))
      | Raise e => mthrow e
      | Ok csr =>
          sans ← match csr_extensions csr with
                 | Ok exts => mret (match find_extension sel_san exts with Some (names, _) => san_strings names | None => [] end)
                 | Raise (ValueError _) | Raise (ExtensionNotFound _) => mret []
                 | Raise e => mthrow e
                 end;
          mret (mkSignPreview (Some (rfc4514_string (csr_subject csr))) sans (Some (key_type_label (csr_key csr))) None)
      end
  end.
Definition certs_sign_preview (q : Post) (htmx : bool) (csr_pem : option Pem) (issuer_id : option Z) (shown : Z) : Tx DB CertsAnswer :=
  v ← certs_guard q shown;
  let principal := user_principal (vw_user v) in
  issuers ← issuer_options principal;
  r ← WebUi.attempt (resolve_granted_issuer principal issuer_id);
  match r with
  | Raise (IssuerForbiddenError m) | Raise (NoGrantedIssuerError m) => form_page v sign_form (Some m) issuers 403 None None None
  | r =>
      _ ← lift (match r with Raise e => raise_if (negb (issuer_error e)) e | Ok _ => mret () end);
      p ← lift (sign_preview csr_pem);
      if htmx : bool then mret (Fragment (panel_sign p)) else form_page v sign_form None issuers 200 None None (Some (panel_sign p))
  end.

(** ** One certificate *)
Definition cert_page (v : Viewer) (row : CertRow) (error : option string) (status : Z) (days_requested capped : option Z) : Tx DB CertsAnswer :=
  cx ← context v;
  let is_admin := bool_decide (user_role (vw_user v) ∈ ADMIN_ROLES) in
  '(key, key_error) ← lift (if is_admin then key_material row else mret (None, None));
  revoked ← lift (revoked_at_dt row);
  mret (Shown status cx (mkCertView row key key_error (is_admin && bool_decide (is_Some (crt_key row))) revoked
    (is_admin && negb (bool_decide (is_Some revoked))) error days_requested capped)).
(** What was pending is taken before the certificate is looked up. *)
Definition cert_detail (cookie : option string) (cert_id seen now : Z) (pending : Pending) : Tx DB (Outcome CertsAnswer * Pending) :=
  v ← viewer_of cookie seen now;
  let '(days_requested, capped, rest) := take_capped cert_id pending in
  a ← WebUi.attempt (found ← query (get_certificate cert_id);
    row ← lift (certificate_or_404 found);
    cert_page v row None 200 days_requested capped);
  mret (a, rest).
Definition cert_revoke (q : Post) (cert_id : Z) (reason confirm : string) (revoking now : Z) : Tx DB CertsAnswer :=
  v ← certs_guard q now;
  found ← query (get_certificate cert_id);
  row ← lift (certificate_or_404 found);
  let was_revoked := bool_decide (is_Some (revoked_at row)) in
  if decide (confirm = "") then cert_page v row (Some CONFIRM_REVOKE) 400 None None else
  match parse_reason reason with
  | None => cert_page v row (Some (UNKNOWN_REASON reason)) 400 None None
  | Some parsed =>
      r ← WebUi.attempt (revoke_certificate cert_id parsed (user_principal (vw_user v)) revoking);
      match r with
      | Raise (CANotConfiguredError _) => m ← query no_issuer_message; cert_page v row (Some (ni_message m)) 400 None None
      | Raise (IssuerForbiddenError m) => cert_page v row (Some m) 403 None None
      | Raise e => mthrow e
      | Ok row =>
          _ ← (if was_revoked then mret () else
            let summary := revoked_summary row parsed in
            _ ← log q (user_actor (vw_user v)) a_cert_revoked summary (certificate_target row) (Some (revocation_detail row parsed)) (po_logged q);
            set_flash (vw_row v) summary);
          mret (To ("/certs/" +:+ id_text cert_id))
      end
  end.
End certs_ui.

(** ** Downloads *)
Section downloads.
Context {X : X509Lib} {SS : SecretStore} {CR : Crypto} {P : P12Lib}.

Definition unknown_anchor : Exc := HTTPException 404 "no such chain for this certificate" [].
Definition no_key : Exc := HTTPException 404 "no private key is stored for this certificate" [].
Definition the_certificate (cert_id : Z) : Tx DB CertRow := found ← query (get_certificate cert_id); lift (certificate_or_404 found).
Definition chain_set (row : CertRow) (now : Z) : Tx DB ChainSet :=
  unknown_as (HTTPException 404 "no CA configured" []) (s ← query (λ db, chains_for db (crt_issuer row) now); lift s).
Definition certs_of (c : Chain) : Outcome (list Cert) := map_each (λ ca, load_cert (ca_cert ca)) (chain_rows c).
Definition unsealed_key (row : CertRow) : Outcome (Plain Pem) :=
  '(pem, error) ← key_material row;
  _ ← raise_if (bool_decide (is_Some error)) (HTTPException 409 (default "" error) []);
  of_option pem no_key.
Definition download_cert_pem (cookie : option string) (cert_id seen : Z) : Tx DB Pem :=
  _ ← get_current_user cookie seen;
  row ← the_certificate cert_id;
  mret (crt_pem row).
Definition download_chain_pem (cookie : option string) (cert_id : Z) (anchor : option Z) (seen now : Z) : Tx DB (list Pem) :=
  _ ← get_current_user cookie seen;
  row ← the_certificate cert_id;
  s ← chain_set row now;
  chain ← match anchor with
          | None => mret (default_chain s)
          | Some a => lift (of_option (by_anchor s a) unknown_anchor)
          end;
  certs ← lift (certs_of chain);
  mret (crt_pem row :: map cert_pem certs).
Definition admin_only (cookie : option string) (seen : Z) : Tx DB UserRow :=
  '(user, _, _) ← get_current_user cookie seen;
  lift (require_admin user).
Definition download_key_pem (cookie : option string) (cert_id seen : Z) : Tx DB (Plain Pem) :=
  _ ← admin_only cookie seen;
  row ← the_certificate cert_id;
  lift (unsealed_key row).
Definition short_password : Exc := HTTPException 400 "the bundle password must be at least 8 characters" [].
Definition load_plain (p : Plain Pem) : Outcome PrivKey :=
  match p with PlainPem pem => load_private_key pem None | PlainBytes _ => Raise (ValueError "Could not deserialize key data") end.
Definition p12_or_400 {A} (m : Tx DB A) : Tx DB A :=
  catch m (λ e, match e with TypeError _ | ValueError _ => true | _ => false end) (λ _, mthrow (HTTPException 400 P12_UNSUPPORTED [])).
Definition download_bundle_p12 (q : Post) (cert_id : Z) (password : string) (now : Z) : Tx DB P12 :=
  _ ← ui_write (po_cookie q) (po_csrf q) (po_seen q);
  row ← the_certificate cert_id;
  _ ← raise_if (py_len password <? MIN_P12_PASSWORD) short_password;
  pem ← lift (unsealed_key row);
  key ← lift (load_plain pem);
  p12_or_400 (cert ← lift (load_cert (crt_pem row));
    s ← chain_set row now;
    cas ← lift (certs_of (default_chain s));
    lift (serialize_p12 (encode_utf8 (subject_cn row)) key cert cas (encode_utf8 password))).
End downloads.

(** ** Correctness *)
Section theorems.
Context {X : X509Lib} {SS : SecretStore} {CR : Crypto}.

Lemma wp_assoc {A B C} (m : Tx DB A) (k : A → Tx DB B) (h : B → Tx DB C) s (Q : Outcome C → Session DB → Prop) :
  wp (x ← m; y ← k x; h y) s Q → wp (y ← (x ← m; k x); h y) s Q.
Proof. unfold wp, mbind, Tx_bind. by destruct (m s) as [[x|e] s']. Qed.
Lemma seen_inventory at_ row db : inventory_ok db → inventory_ok (seen at_ row db).
Proof.
  intros [H1 H2 H3]. unfold seen. destruct (_ <? _); [|done]. by split; [apply (hierarchy_same db)|apply (certs_ok_same db)|].
Qed.

(** *** The forms *)
Inductive CertForm :=
  | form_issue (cn sans profile key_type : string) (days : Z) (issuer : option Z)
  | form_sign (csr : Pem) (profile : string) (days : Z) (sans : string) (issuer : option Z)
  | form_revoke (n : Z) (reason confirm : string).
Definition certs_route (q : Post) (f : CertForm) (d : Draw) (at_ now : Z) (pending : gmap Z (Z * Z)) : Tx DB (CertsAnswer * gmap Z (Z * Z)) :=
  match f with
  | form_issue cn sans p kt n i => certs_issue q cn sans p kt n i d at_ now pending
  | form_sign csr p n sans i => certs_sign q csr p n sans i d at_ now pending
  | form_revoke n reason confirm => a ← cert_revoke q n reason confirm at_ now; mret (a, pending)
  end.
Definition form_action (f : CertForm) : AuditAction :=
  match f with form_issue _ _ _ _ _ _ => a_cert_issued | form_sign _ _ _ _ _ => a_cert_signed | form_revoke _ _ _ => a_cert_revoked end.
(** What the form brought about: from [db] to [db1], a line of the inventory,
    what the log says of it, and the date its validity was cut from. *)
Definition cert_did (f : CertForm) (user : UserRow) (d : Draw) (at_ : Z) (db : DB) (row : CertRow) (capped : option Z) (says : string) (db1 : DB) : Prop :=
  match f with
  | form_issue cn sans profile kt n i => ∃ p names cert ic ik key, parse_profile profile = Ok p ∧ parse_san_lines sans = Ok names ∧
      issued_by db (user_principal user) i row cert ic ik ∧ crt_source row = ui ∧ crt_profile row = profile_text p ∧
      (∃ nonce, crt_key row = Some (sealed_key nonce key)) ∧ public_key key = cert_key cert ∧ clamped ic n (d_now d) cert capped ∧
      says = issued_summary row ∧ db1 = on_certs (λ m, <[crt_id row := row]> m) db
  | form_sign csr profile n sans i => ∃ p names cert ic ik info, parse_profile profile = Ok p ∧ parse_san_lines sans = Ok names ∧
      issued_by db (user_principal user) i row cert ic ik ∧ crt_source row = ui ∧ crt_profile row = profile_text p ∧
      crt_key row = None ∧ load_csr csr = Ok info ∧ cert_key cert = csr_key info ∧ clamped ic n (d_now d) cert capped ∧
      says = signed_summary row ∧ db1 = on_certs (λ m, <[crt_id row := row]> m) db
  | form_revoke n reason confirm => ∃ old parsed crl, certs db !! n = Some old ∧ confirm ≠ "" ∧ parse_reason reason = Some parsed ∧
      permitted_use db (user_principal user) (crt_issuer old) ∧ revoked_at old = None ∧ row = revoked_row (isoformat at_) parsed old ∧
      capped = None ∧ fresh_crl (on_certs (λ m, <[n := row]> m) db) (crt_issuer old) at_ crl ∧
      says = revoked_summary row parsed ∧ db1 = on_crls (λ m, <[crt_issuer old := crl]> m) (on_certs (λ m, <[n := row]> m) db)
  end.
(** Revoking again what is revoked. *)
Definition cert_idle (f : CertForm) (user : UserRow) (db : DB) : Prop :=
  match f with
  | form_revoke n reason confirm => ∃ old, certs db !! n = Some old ∧ confirm ≠ "" ∧ is_Some (parse_reason reason) ∧
      permitted_use db (user_principal user) (crt_issuer old) ∧ is_Some (revoked_at old)
  | _ => False
  end.
Definition cert_location (f : CertForm) (made : Z) : string :=
  "/certs/" +:+ id_text (match f with form_revoke n _ _ => n | _ => made end).
Definition form_days (f : CertForm) : Z := match f with form_issue _ _ _ _ n _ | form_sign _ _ n _ _ => n | form_revoke _ _ _ => 0 end.
Definition page_status (a : CertsAnswer) : option Z :=
  match a with Form n _ _ | Shown n _ _ => Some n | _ => None end.
Definition turned_down (row : SessionRow) (db : DB) (pending : gmap Z (Z * Z)) (r : Outcome (CertsAnswer * gmap Z (Z * Z))) (db' : DB) : Prop :=
  match r with
  | Ok (a, pending') => (page_status a = Some 400 ∨ page_status a = Some 403) ∧ pending' = pending ∧ db' = popped row db
  | Raise _ => db' = db ∨ db' = popped row db
  end.
Definition cert_outcome (f : CertForm) (user : UserRow) (row : SessionRow) (d : Draw) (at_ : Z) (pending : gmap Z (Z * Z)) (db : DB)
    (r : Outcome (CertsAnswer * gmap Z (Z * Z))) (db' : DB) : Prop :=
  turned_down row db pending r db' ∨
  (cert_idle f user db ∧ (∃ n, r = Ok (To (cert_location f n), pending)) ∧ db' = db) ∨
  ∃ crow capped says db1 entry, cert_did f user d at_ db crow capped says db1 ∧
    log_entry (user_actor user) (form_action f) says entry ∧ target_id entry = Some (id_text (crt_id crow)) ∧
    audit_events db !! aud_id entry = None ∧ db' = told row says (with_entry entry db1) ∧
    r = Ok (To (cert_location f (crt_id crow)), remember_capped (crt_id crow) (form_days f) capped pending).

Section forms.
Context (q : Post) (d : Draw) (at_ now : Z) (pending : gmap Z (Z * Z)) (user : UserRow) (row : SessionRow) (db : DB).
Context (Hi : inventory_ok db) (Hs : is_Some (sessions db !! session_hash row)) (Ht : in_datetime at_).
#[local] Abbreviation v := (mkViewer user row now).
#[local] Abbreviation outcome f := (λ r s, cert_outcome f user row d at_ pending db r (durable s)).

Lemma down_page f a s : page_status a = Some 400 ∨ page_status a = Some 403 → durable s = popped row db → outcome f (Ok (a, pending)) s.
Proof. intros H1 H2. left. by split_and!. Qed.
Lemma turned_down_raise f e s : durable s = db → outcome f (Raise e) s.
Proof. intros H. left. by left. Qed.
Lemma wp_form_page kind error issuers status href link preview (Q : Outcome CertsAnswer → Session DB → Prop) :
  (∀ a s, page_status a = Some status → durable s = popped row db → Q (Ok a) s) →
  wp (form_page v kind error issuers status href link preview) (fresh_session db) Q.
Proof using Hs.
  intros H. unfold form_page, context, base_context. apply wp_bind, wp_bind, wp_pop_flash; [done|]. apply wp_bind, wp_query, wp_ret, wp_ret. by apply H.
Qed.
Lemma wp_cert_page crow error status (Q : Outcome CertsAnswer → Session DB → Prop) :
  (∀ a s, page_status a = Some status → durable s = popped row db → Q (Ok a) s) →
  (∀ e s, durable s = popped row db → Q (Raise e) s) →
  wp (cert_page v crow error status None None) (fresh_session db) Q.
Proof using Hs.
  intros H Hno. unfold cert_page, context, base_context. apply wp_bind, wp_bind, wp_pop_flash; [done|]. apply wp_bind, wp_query, wp_ret.
  apply wp_bind, wp_lift; [|intros e _; by apply Hno]. intros [key err] _. apply wp_bind, wp_lift; [|intros e _; by apply Hno].
  intros revoked _. by apply wp_ret, H.
Qed.
Lemma wp_issuance_page kind issuers e (Q : Outcome CertsAnswer → Session DB → Prop) :
  (∀ a s, page_status a = Some 400 ∨ page_status a = Some 403 → durable s = popped row db → Q (Ok a) s) →
  (∀ e, Q (Raise e) (fresh_session db)) → wp (issuance_refused v kind issuers e) (fresh_session db) Q.
Proof using Hs.
  intros H Hno.
  assert (Hpage : ∀ m st href link, st = 400 ∨ st = 403 → wp (form_page v kind (Some m) issuers st href link None) (fresh_session db) Q).
  { intros m st href link Hst. apply wp_form_page. intros a s Ha Hd. apply H; [|done]. destruct Hst as [-> | ->]; auto. }
  unfold issuance_refused, no_issuer_page.
  destruct e; first [apply Hpage; by auto|apply wp_bind, wp_query, Hpage; by auto|by apply wp_throw].
Qed.
Lemma wp_refused_issuance kind issuers e f :
  wp (a ← issuance_refused v kind issuers e; mret (a, pending)) (fresh_session db) (outcome f).
Proof using Hs.
  apply wp_bind, wp_issuance_page; [|intros e'; by apply turned_down_raise]. intros a s Ha Hd. by apply wp_ret, down_page.
Qed.
(** The log, the message and the redirect. *)
Lemma wp_told action says target detail (k : CertsAnswer * gmap Z (Z * Z)) db1 (Q : Outcome (CertsAnswer * gmap Z (Z * Z)) → Session DB → Prop) :
  sessions db1 = sessions db → audit_events db1 = audit_events db →
  (∀ entry, log_entry (user_actor user) action says entry → target_id entry = target ≫= snd → audit_events db !! aud_id entry = None →
     Q (Ok k) (fresh_session (told row says (with_entry entry db1)))) →
  wp (_ ← log q (user_actor user) action says target detail (po_logged q); _ ← set_flash row says; mret k) (fresh_session db1) Q.
Proof using Hs.
  intros H1 H2 HQ. apply wp_bind, wp_log_row. cbn [work fresh_session]. intros from n. set (entry := audit_row _ _ _ _ _). rewrite H2. intros Hfree.
  apply wp_bind, wp_set_flash; [cbn; by rewrite H1|]. by apply wp_ret, HQ.
Qed.
Lemma wp_issue_form cn sans profile kt n i : 0 ≤ d_serial d →
  wp (issuers ← issuer_options (user_principal user);
      r ← WebUi.attempt (p ← lift (parse_profile profile); names ← lift (parse_san_lines sans);
        issue_and_store (user_principal user) p cn names n kt i ui d at_);
      match r with
      | Raise e => a ← issuance_refused v new_form issuers e; mret (a, pending)
      | Ok issued =>
          let crow := issued_row issued in
          let capped := capped_from issued in
          let summary := issued_summary crow in
          _ ← log q (user_actor user) a_cert_issued summary (certificate_target crow)
            (Some (certificate_detail crow (Some kt) (if bool_decide (is_Some capped) then Some n else None) capped)) (po_logged q);
          _ ← set_flash row summary;
          mret (To ("/certs/" +:+ id_text (crt_id crow)), remember_capped (crt_id crow) n capped pending)
      end) (fresh_session db) (outcome (form_issue cn sans profile kt n i)).
Proof using Hi Hs.
  intros Hser. unfold issuer_options. apply wp_bind, wp_bind, wp_query, wp_lift; [|intros e _; by apply turned_down_raise]. intros issuers _.
  apply wp_bind, wp_attempt, wp_bind, wp_lift; [|intros e _; apply wp_refused_issuance]. intros p Hp.
  apply wp_bind, wp_lift; [|intros e _; apply wp_refused_issuance]. intros names Hn.
  apply wp_issue_and_store; [apply Hi|done| |intros e; apply wp_refused_issuance].
  intros crow cert ic ik capped Hby Hsrc Hprof (crl & aia & sk & Hclamp%issue_certificate_clamped & Hkey) _. cbn [issued_row capped_from work fresh_session].
  assert (Hsk : public_key sk = cert_key cert).
  { destruct (row_key _ _ (issued_describes _ _ _ _ _ _ _ Hby) _ Hkey) as (k' & Hu & Hp'). unfold sealed_key in Hu. rewrite unseal_seal in Hu.
    assert (load_private_key (private_pem sk) None = load_private_key (private_pem k') None) as Heq by congruence.
    rewrite !load_private_pem in Heq. congruence. }
  apply wp_told; [done..|]. intros entry He Htar Hfree. right. right. exists crow, capped. do 3 eexists.
  split; [|split; [exact He|by split_and!]]. exists p, names, cert, ic, ik, sk. split_and!; try done. by eexists.
Qed.
Lemma wp_sign_form csr profile n sans i : 0 ≤ d_serial d →
  wp (issuers ← issuer_options (user_principal user);
      r ← WebUi.attempt (p ← lift (parse_profile profile); names ← lift (parse_san_lines sans);
        sign_csr_and_store (user_principal user) csr p n (Some names) None false i ui d at_);
      match r with
      | Raise e => a ← issuance_refused v sign_form issuers e; mret (a, pending)
      | Ok issued =>
          let crow := issued_row issued in
          let capped := capped_from issued in
          let summary := signed_summary crow in
          _ ← log q (user_actor user) a_cert_signed summary (certificate_target crow)
            (Some (certificate_detail crow None (if bool_decide (is_Some capped) then Some n else None) capped)) (po_logged q);
          _ ← set_flash row summary;
          mret (To ("/certs/" +:+ id_text (crt_id crow)), remember_capped (crt_id crow) n capped pending)
      end) (fresh_session db) (outcome (form_sign csr profile n sans i)).
Proof using Hi Hs.
  intros Hser. unfold issuer_options. apply wp_bind, wp_bind, wp_query, wp_lift; [|intros e _; by apply turned_down_raise]. intros issuers _.
  apply wp_bind, wp_attempt, wp_bind, wp_lift; [|intros e _; apply wp_refused_issuance]. intros p Hp.
  apply wp_bind, wp_lift; [|intros e _; apply wp_refused_issuance]. intros names Hn.
  apply wp_sign_csr_and_store; [apply Hi|done| |intros e; apply wp_refused_issuance].
  intros crow cert ic ik capped Hby Hsrc Hprof Hkey (info & cn' & resolved & Hcsr & _ & Hl & Hclamp). cbn [issued_row capped_from work fresh_session].
  apply wp_told; [done..|]. intros entry He Htar Hfree. right. right. exists crow, capped. do 3 eexists.
  split; [|split; [exact He|by split_and!]]. exists p, names, cert, ic, ik, info. split_and!; try done. by apply Hl.
Qed.
Lemma wp_revoke_form n reason confirm :
  wp (a ← (found ← query (get_certificate n);
      crow ← lift (certificate_or_404 found);
      let was_revoked := bool_decide (is_Some (revoked_at crow)) in
      if decide (confirm = "") then cert_page v crow (Some CONFIRM_REVOKE) 400 None None else
      match parse_reason reason with
      | None => cert_page v crow (Some (UNKNOWN_REASON reason)) 400 None None
      | Some parsed =>
          r ← WebUi.attempt (revoke_certificate n parsed (user_principal user) at_);
          match r with
          | Raise (CANotConfiguredError _) => m ← query no_issuer_message; cert_page v crow (Some (ni_message m)) 400 None None
          | Raise (IssuerForbiddenError m) => cert_page v crow (Some m) 403 None None
          | Raise e => mthrow e
          | Ok crow =>
              _ ← (if was_revoked then mret () else
                let summary := revoked_summary crow parsed in
                _ ← log q (user_actor user) a_cert_revoked summary (certificate_target crow) (Some (revocation_detail crow parsed)) (po_logged q);
                set_flash row summary);
              mret (To ("/certs/" +:+ id_text n))
          end
      end); mret (a, pending)) (fresh_session db) (outcome (form_revoke n reason confirm)).
Proof using Hi Hs Ht.
  set (f := form_revoke n reason confirm).
  assert (Hpage : ∀ crow m st, st = 400 ∨ st = 403 → wp (cert_page v crow m st None None) (fresh_session db)
      (λ r s, match r with Ok a => outcome f (Ok (a, pending)) s | Raise e => outcome f (Raise e) s end)).
  { intros crow m st Hst. apply wp_cert_page.
    - intros a s Ha Hd. apply down_page; [|done]. destruct Hst as [-> | ->]; auto.
    - intros e s Hd. left. by right. }
  apply wp_bind. refine (wp_mono _ _ (λ r s, match r with Ok a => outcome f (Ok (a, pending)) s | Raise e => outcome f (Raise e) s end) _ _ _).
  2: { intros [a|e] s H; [by apply wp_ret|done]. }
  apply wp_bind, wp_query, wp_bind, wp_lift; [|intros e _; by apply turned_down_raise]. cbn [work fresh_session]. intros crow Hc.
  assert (Hrow : certs db !! n = Some crow).
  { unfold certificate_or_404, get_certificate in Hc. destruct (certs db !! n); [|done]. by injection Hc as ->. }
  case_decide as Hconf; [apply Hpage; auto|]. destruct (parse_reason reason) as [parsed|] eqn:Hpr; [|apply Hpage; auto].
  apply wp_bind, wp_attempt, wp_revoke; [done|done|done|..]; cbn [work durable fresh_session].
  - intros r Hr Hperm Hrev. assert (r = crow) as -> by congruence. rewrite bool_decide_eq_true_2 by done.
    apply wp_bind, wp_ret, wp_ret. right. left. split; [by exists crow|]. split; [by exists 0|done].
  - intros r crl Hr Hperm Hrev Hcrl _. assert (r = crow) as -> by congruence. set (r' := revoked_row _ _ crow) in *.
    rewrite bool_decide_eq_false_2 by (rewrite Hrev; by intros []).
    apply wp_bind, wp_bind, wp_log_row. cbn [work]. intros from k. set (entry := audit_row _ _ _ _ _). intros Hfree.
    apply wp_set_flash; [done|]. apply wp_ret. right. right. exists r', None. do 2 eexists. exists entry.
    split; [by exists crow, parsed, crl|]. split; [by split|]. by split_and!.
  - intros e _ _. destruct e; try (by apply wp_throw, turned_down_raise); [|apply Hpage; auto]. apply wp_bind, wp_query, Hpage; auto.
Qed.
End forms.

Definition certs_verdict (q : Post) (f : CertForm) (d : Draw) (at_ : Z) (pending : gmap Z (Z * Z)) (db : DB)
    (r : Outcome (CertsAnswer * gmap Z (Z * Z))) (db' : DB) : Prop :=
  (∃ e, r = Raise e ∧ form_refused ADMIN_ROLES (po_cookie q) (po_csrf q) (po_seen q) db e db') ∨
  ∃ user row, opens (po_cookie q) (po_seen q) db user row ∧ user_role user ∈ ADMIN_ROLES ∧ po_csrf q = Some (csrf_token row) ∧
    cert_outcome f user (seen_row (po_seen q) row) d at_ pending (seen (po_seen q) row db) r db'.
(** C20: the forms about certificates.  A refused post changes nothing.  The
    two issuance forms make one certificate, as the user who sent them: through
    an active issuer granted to that user, with the key cabin made or the key of
    the request, valid for the days asked for or until the issuer ends; revoking
    asks for the box and for a reason cabin knows, marks the row and publishes a
    new list, and is done once.  One event names the user, the next page says
    what it says, and what was asked for is kept for the certificate's page
    exactly when the issuer's end cut it.  What is turned down is the form again
    with a 400 or 403, or an error, and changes nothing but the message already
    shown. *)
Theorem certs_forms_exact q f d at_ now pending db r db' : identity_ok db → inventory_ok db → in_datetime at_ → 0 ≤ d_serial d →
  request (certs_route q f d at_ now pending) db = (r, db') → certs_verdict q f d at_ pending db r db'.
Proof.
  intros Hid Hi Hat Hser Hreq. pattern r, db'. eapply request_wp; [exact Hreq|]. clear r db' Hreq. cbn beta.
  assert (Hg : ∀ k : Viewer → Tx DB (CertsAnswer * gmap Z (Z * Z)),
    (∀ user row d0, inventory_ok d0 → is_Some (sessions d0 !! session_hash row) →
       wp (k (mkViewer user row now)) (fresh_session d0) (λ r s, cert_outcome f user row d at_ pending d0 r (durable s))) →
    wp (v ← certs_guard q now; k v) (fresh_session db) (λ r s, certs_verdict q f d at_ pending db r (durable s))).
  { intros k Hk. apply wp_bind. unfold certs_guard. apply wp_bind, wp_ui_guard; [done| |intros e d0 He; left; by exists e].
    intros user row Ho Hr Hc. apply wp_ret. eapply wp_mono; [apply Hk|].
    - by apply seen_inventory.
    - eexists. by eapply seen_stored.
    - intros r s Hx. right. exists user, row. by split_and!. }
  destruct f; cbn [certs_route].
  - apply Hg. intros. by apply wp_issue_form.
  - apply Hg. intros. by apply wp_sign_form.
  - unfold cert_revoke. apply wp_assoc, Hg. intros. by apply wp_revoke_form.
Qed.

(** *** The preview *)
(** The names of an issuance, in the order the signer settles them: read,
    normalized, completed from the common name, checked. *)
Definition naming (issuer_cert : Cert) (cn sans : string) : Outcome (list string) :=
  names ← parse_san_lines sans;
  explicit ← map_each normalize_san names;
  resolved ← resolve_sans explicit [] (Some cn);
  _ ← check_name_constraints issuer_cert (Some cn) resolved;
  mret resolved.
Lemma parsed_normal sans names : parse_san_lines sans = Ok names → map_each normalize_san names = Ok names.
Proof.
  unfold parse_san_lines. intros H. apply Outcome_bind_ok in H as (l & Hl & [= <-]). apply map_each_ok in Hl. apply map_each_ok.
  apply Forall_Forall2_diag, Forall_forall. intros x Hx. rewrite elem_of_dedup in Hx.
  apply list_elem_of_lookup in Hx as [k Hk]. destruct (Forall2_lookup_r _ _ _ _ _ Hl Hk) as (y & _ & Hy). by eapply normalize_san_idempotent.
Qed.
Lemma resolved_some explicit csr cn l : resolve_sans explicit csr cn = Ok l → nonempty l = true.
Proof.
  unfold resolve_sans. intros H. apply Outcome_bind_ok in H as (chosen & Hc & H). apply Outcome_bind_ok in H as (_ & _ & [= <-]).
  apply nonempty_true. intros Hd%dedup_nil_inv. subst chosen. destruct (py_or explicit csr); [|done]. apply Outcome_bind_ok in Hc as (? & _ & Hc). done.
Qed.
Lemma each_allowed ic cn l name : check_name_constraints ic cn l = Ok () → name ∈ l → check_name_constraints ic None [name] = Ok ().
Proof.
  unfold check_name_constraints. destruct (optional _) as [[[[p x] k]|]|]; [|done..]. cbn [mbind Outcome_bind]. rewrite for_each_ok.
  intros H Hn. assert (He : check_name (default [] p) (default [] x) name = Ok ()).
  { rewrite Forall_forall in H. apply H. unfold constrained_names. destruct (existsb _ _); [done|]. destruct cn; [|done].
    destruct (is_hostname _); [|done]. apply elem_of_app. by left. }
  unfold constrained_names. assert ((if existsb (λ s, startswith s "DNS:") [name] then [name] else [name]) = [name]) as -> by by destruct (existsb _ _).
  cbn. by rewrite He.
Qed.
Lemma valid_cn_some cn c : validate_cn cn = Ok c → or_none (strip cn) = Some c.
Proof.
  intros H. pose proof (validate_cn_strip _ _ H) as ->. unfold validate_cn in H. cbn zeta in H. unfold or_none.
  apply Outcome_bind_ok in H as (u & Hr & _). apply raise_if_ok in Hr. case_decide; [|done]. by rewrite bool_decide_eq_true_2 in Hr.
Qed.
Lemma preview_names issuer ic cn c sans n now f chain : load_cert (ca_cert issuer) = Ok ic → validate_cn cn = Ok c →
  preview_under issuer cn sans n now = Ok f →
  pw_issuer (f chain) = Some (ca_name issuer) ∧
  match naming ic c sans with
  | Ok l => pw_refused (f chain) = false ∧ map fst (pw_names (f chain)) = l ∧ Forall (λ x, snd x = None) (pw_names (f chain))
  | Raise e => ∃ m, (e = IssueError m ∨ e = NameConstraintError m) ∧ pw_refused (f chain) = true ∧ pw_verdict (f chain) = Some m
  end.
Proof.
  intros Hic Hc. unfold preview_under, naming. rewrite Hic, (valid_cn_some _ _ Hc). cbn [mbind Outcome_bind].
  destruct (parse_san_lines sans) as [names|e] eqn:Hp; cbn [mbind Outcome_bind].
  - rewrite (parsed_normal _ _ Hp). cbn [mbind Outcome_bind].
    destruct (resolve_sans names [] (Some c)) as [l|e] eqn:Hr; cbn [mbind Outcome_bind].
    + rewrite (resolved_some _ _ _ _ Hr). intros H. apply Outcome_bind_ok in H as (marks & Hm & H).
      apply Outcome_bind_ok in H as ([v0 rf] & Hv & H). apply Outcome_bind_ok in H as ([t0 c0] & _ & [= <-]). cbn [pw_issuer pw_refused pw_names pw_verdict].
      split; [done|]. apply map_each_ok in Hm.
      assert (Hfst : map fst marks = l).
      { clear -Hm. induction Hm as [|x y l k Hxy _ IH]; [done|]. cbn. rewrite IH. f_equal. apply Outcome_bind_ok in Hxy as (? & _ & [= <-]). done. }
      destruct (check_name_constraints ic (Some c) l) as [[]|e] eqn:Hk; cbn [constraint_refusal mbind Outcome_bind] in Hv.
      * apply Outcome_bind_ok in Hv as (? & _ & [= _ <-]). split_and!; [done..|]. apply Forall_forall. intros y Hy%list_elem_of_lookup.
        destruct Hy as [k Hy]. destruct (Forall2_lookup_r _ _ _ _ _ Hm Hy) as (z & Hz & Hxy).
        rewrite (each_allowed _ _ _ z Hk) in Hxy by by eapply list_elem_of_lookup_2. cbn in Hxy. by injection Hxy as <-.
      * destruct e; try done. injection Hv as <- <-. exists msg. auto.
    + destruct e; try done; cbn; intros H; apply Outcome_bind_ok in H as ([t0 c0] & _ & [= <-]); (split; [done|]); exists msg; auto.
  - destruct e; try done; cbn; intros H; apply Outcome_bind_ok in H as ([t0 c0] & _ & [= <-]); (split; [done|]); exists msg; auto.
Qed.
Definition whole_second (t : Z) : Prop := floor_second t = t.
Lemma floor_days t n : floor_second (t + days n) = floor_second t + days n.
Proof. unfold floor_second, days, day, hour, minute, second. Z.to_euclidean_division_equations. lia. Qed.
(** The same second, the same end. *)
Lemma clamp_floor ic n t now end_ capped : clamp_validity ic n t = Ok (end_, capped) → floor_second t = floor_second now →
  whole_second (not_valid_after ic) → ∃ c, clamp_validity ic n (floor_second now) = Ok (floor_second end_, c).
Proof.
  unfold clamp_validity, whole_second. intros H Hnow Hw. rewrite <- Hnow. apply Outcome_bind_ok in H as (req & Hreq & H).
  apply add_days_ok in Hreq as (-> & Hn & Hin). apply Outcome_bind_ok in H as (u & Hr & [= <- _]). apply raise_if_ok in Hr.
  assert (Hadd : add_days (floor_second t) n = Ok (floor_second t + days n)).
  { apply add_days_ok. split_and!; [done..|]. rewrite <- floor_days. by apply in_datetime_floor. }
  rewrite Hadd. cbn [mbind Outcome_bind]. rewrite <- floor_days.
  assert (Hmin : Z.min (floor_second (t + days n)) (not_valid_after ic) = floor_second (Z.min (t + days n) (not_valid_after ic))).
  { destruct (Z.le_ge_cases (t + days n) (not_valid_after ic)) as [Hle|Hle]; pose proof (floor_second_mono _ _ Hle) as Hf; rewrite Hw in Hf.
    - by rewrite !Z.min_l.
    - by rewrite !Z.min_r. }
  rewrite Hmin. assert (Hlt : floor_second t < floor_second (Z.min (t + days n) (not_valid_after ic))).
  { cbn zeta in Hr. apply Z.leb_gt in Hr. rewrite <- Hmin, floor_days. pose proof (floor_second_le t). match goal with Hf : floor_second t ≤ _ < _ |- _ => clear -Hr Hf end.
    unfold days, day, hour, minute, second in *. lia. }
  assert ((floor_second (Z.min (t + days n) (not_valid_after ic)) <=? floor_second t) = false) as -> by lia. cbn. by eexists.
Qed.
Lemma preview_expiry issuer ic cn sans n t now f chain end_ capped : load_cert (ca_cert issuer) = Ok ic →
  preview_under issuer cn sans n now = Ok f → clamp_validity ic n t = Ok (end_, capped) → floor_second t = floor_second now →
  whole_second (not_valid_after ic) → pw_expires (f chain) = Some (isoformat (floor_second end_)).
Proof.
  intros Hic H Hc Hnow Hw. destruct (clamp_floor _ _ _ _ _ _ Hc Hnow Hw) as [c0 Hc0]. unfold preview_under in H. rewrite Hic in H.
  cbn [mbind Outcome_bind] in H. rewrite Hc0 in H. apply Outcome_bind_ok in H as ([l failed] & _ & H). apply Outcome_bind_ok in H as (marks & _ & H).
  by apply Outcome_bind_ok in H as ([v0 rf] & _ & [= <-]).
Qed.
(** What the signer settled on. *)
Lemma issued_names ic ik profile cn names n kt crl aia t serial seed cert key capped sans :
  issue_certificate ic ik profile cn names n kt crl aia t serial seed = Ok (cert, key, capped) → parse_san_lines sans = Ok names →
  ∃ c l gns, validate_cn cn = Ok c ∧ naming ic c sans = Ok l ∧ Forall2 (λ s g, general_name s = Ok g) l gns ∧ cert_sans cert = Ok (san_strings gns).
Proof.
  unfold issue_certificate. intros H Hp. apply Outcome_bind_ok in H as (c & Hc & H). apply Outcome_bind_ok in H as (u1 & _ & H).
  apply Outcome_bind_ok in H as (u2 & _ & H). apply Outcome_bind_ok in H as (explicit & He & H). apply Outcome_bind_ok in H as (l & Hl & H).
  apply Outcome_bind_ok in H as (k & _ & H). apply Outcome_bind_ok in H as ([cert' capped'] & Hb & [= -> -> ->]).
  exists c, l. pose proof (build_leaf_sound _ _ _ _ _ _ _ _ _ _ _ _ _ Hb) as (Hleaf & _ & _).
  destruct (leaf_sans _ _ _ _ _ _ _ Hleaf) as (gns & Hg & Hgns). exists gns. split_and!; [done| |done|unfold cert_sans; by rewrite Hg].
  unfold naming. rewrite Hp. cbn [mbind Outcome_bind]. rewrite He. cbn [mbind Outcome_bind]. rewrite Hl. cbn [mbind Outcome_bind].
  unfold build_leaf in Hb. apply Outcome_bind_ok in Hb as ([e0 c0] & _ & Hb). apply Outcome_bind_ok in Hb as (u & Hck & _). by rewrite Hck.
Qed.
(** Issuing under an issuer that was found, read from the end. *)
Lemma issue_under issuer p profile cn names n kt iid d created db issued s' : hierarchy_ok db → 
  resolve_granted_issuer p iid (fresh_session db) = (Ok issuer, fresh_session db) →
  issue_and_store p profile cn names n kt iid ui d created (fresh_session db) = (Ok issued, s') →
  ∃ ic ik cert key crl aia, load_cert (ca_cert issuer) = Ok ic ∧ public_key ik = cert_key ic ∧
    issue_certificate ic ik profile cn names n kt crl aia (d_now d) (d_serial d) (d_seed d) = Ok (cert, key, capped_from issued) ∧
    cert_sans cert = Ok (crt_sans (issued_row issued)) ∧ crt_pem (issued_row issued) = cert_pem cert ∧
    crt_not_after (issued_row issued) = isoformat (not_valid_after cert) ∧ crt_issuer (issued_row issued) = ca_id issuer.
Proof.
  intros Hh Hres Hrun.
  assert (Hca : cas db !! ca_id issuer = Some issuer).
  { pose proof (wp_resolve_granted p iid (fresh_session db) (λ r _, ∀ i, r = Ok i → cas db !! ca_id i = Some i) Hh) as Hw.
    unfold wp in Hw. rewrite Hres in Hw. apply Hw; [by intros ? ? _ _ _ i [= <-]|done|done]. }
  assert (Hw : wp (issue_and_store p profile cn names n kt iid ui d created) (fresh_session db) (λ r _, ∀ issued, r = Ok issued →
    ∃ ic ik cert key crl aia, load_cert (ca_cert issuer) = Ok ic ∧ public_key ik = cert_key ic ∧
    issue_certificate ic ik profile cn names n kt crl aia (d_now d) (d_serial d) (d_seed d) = Ok (cert, key, capped_from issued) ∧
    cert_sans cert = Ok (crt_sans (issued_row issued)) ∧ crt_pem (issued_row issued) = cert_pem cert ∧
    crt_not_after (issued_row issued) = isoformat (not_valid_after cert) ∧ crt_issuer (issued_row issued) = ca_id issuer)).
  2: { unfold wp in Hw. rewrite Hrun in Hw. by apply Hw. }
  clear Hrun. unfold issue_and_store. apply wp_bind. unfold wp at 1. rewrite Hres. cbn [fst snd].
  apply wp_bind, wp_signing_credentials; [done| |done]. cbn [work fresh_session]. intros ca ic ik Hca' Hic Hik. assert (ca = issuer) as -> by congruence.
  wp_run; try done. apply wp_store; [|done]. intros k _ row _ db1. wp_run. intros issued0 [= <-]. cbn [issued_row capped_from].
  eexists ic, ik, _, _, _, _. split_and!; try done.
Qed.
Definition preview_in (a : CertsAnswer) : option IssuePreview :=
  match a with
  | Fragment (panel_issue _ p) => Some p
  | Form _ _ v => match fv_preview v with Some (panel_issue _ p) => Some p | _ => None end
  | _ => None
  end.
(** The guard is the same whatever the clock of the page. *)
Lemma guard_once q db : identity_ok db →
  (∃ user row d0, (∀ now, certs_guard q now (fresh_session db) = (Ok (mkViewer user row now), fresh_session d0)) ∧
     cas d0 = cas db ∧ (inventory_ok db → inventory_ok d0) ∧ is_Some (sessions d0 !! session_hash row)) ∨
  (∀ now, ∃ e s, certs_guard q now (fresh_session db) = (Raise e, s)).
Proof.
  intros Hid. unfold certs_guard.
  assert (Hw : wp (ui_write (po_cookie q) (po_csrf q) (po_seen q)) (fresh_session db) (λ r s, match r with
    | Ok (user, row) => ∃ d0, s = fresh_session d0 ∧ cas d0 = cas db ∧ (inventory_ok db → inventory_ok d0) ∧ is_Some (sessions d0 !! session_hash row)
    | Raise _ => True end)).
  { apply wp_ui_guard; [done| |done]. intros user row Ho Hr Hc. eexists. split; [done|].
    destruct (seen_users (po_seen q) row db) as (_ & _ & Hcas & _). split_and!; [done|apply seen_inventory|eexists; by eapply seen_stored]. }
  unfold wp, mbind, Tx_bind in *. destruct (ui_write _ _ _ _) as [[[user row]|e] s]; cbn in Hw.
  - destruct Hw as (d0 & -> & Hcas & Hinv & Hs). left. by exists user, row, d0.
  - right. intros now. by exists e, s.
Qed.
Lemma resolve_run p iid d0 : hierarchy_ok d0 → ∃ r, resolve_granted_issuer p iid (fresh_session d0) = (r, fresh_session d0).
Proof. intros Hh. destruct (resolve_granted_issuer_spec p iid (fresh_session d0) Hh) as (r & Hr & _). by exists r. Qed.
(** Where a preview comes from. *)
Definition previewed (p : Principal) (cn sans : string) (n : Z) (iid : option Z) (now : Z) (d0 : DB) (w : IssuePreview) : Prop :=
  (w = blank_issue_preview ∧ ∃ e, resolve_granted_issuer p iid (fresh_session d0) = (Raise e, fresh_session d0)) ∨
  ∃ issuer f chain, resolve_granted_issuer p iid (fresh_session d0) = (Ok issuer, fresh_session d0) ∧
    preview_under issuer cn sans n now = Ok f ∧ w = f chain.
Lemma wp_issue_preview p cn sans n iid now chained d0 : hierarchy_ok d0 →
  wp (issue_preview p cn sans iid n now chained) (fresh_session d0) (λ r s, s = fresh_session d0 ∧ ∀ w, r = Ok w → previewed p cn sans n iid now d0 w).
Proof.
  intros Hh. destruct (resolve_run p iid d0 Hh) as [r Hr]. unfold issue_preview. apply wp_bind, wp_attempt. unfold wp at 1. rewrite Hr. cbn [fst snd].
  destruct r as [issuer|e].
  - apply wp_bind, wp_lift; [|done]. intros f Hf. apply wp_bind, wp_query, wp_bind, wp_lift; [|done]. intros chain _.
    apply wp_ret. split; [done|]. intros w [= <-]. right. by exists issuer, f, (Some (map ca_name chain)).
  - destruct (issuer_error e); [apply wp_ret|apply wp_throw]; (split; [done|]); [|done]. intros w [= <-]. left. split; [done|]. by exists e.
Qed.
(** What the preview said of the certificate that was made. *)
Definition kept (w : IssuePreview) (db db' : DB) (location : string) : Prop :=
  ∃ row cert issuer names, location = "/certs/" +:+ id_text (crt_id row) ∧ certs db' !! crt_id row = Some row ∧ crt_pem row = cert_pem cert ∧
    cas db !! crt_issuer row = Some issuer ∧ pw_issuer w = Some (ca_name issuer) ∧ pw_refused w = false ∧
    Forall (λ x, snd x = None) (pw_names w) ∧ Forall2 (λ x g, general_name (fst x) = Ok g) (pw_names w) names ∧
    crt_sans row = san_strings names ∧ pw_expires w = Some (crt_not_after row).
Definition whole_seconds (db : DB) : Prop :=
  ∀ i r c, cas db !! i = Some r → load_cert (ca_cert r) = Ok c → whole_second (not_valid_after c).
(** The preview's word on the names is the signer's. *)
Definition signers_word (w : IssuePreview) (cn sans : string) (db : DB) : Prop :=
  ∀ c, validate_cn cn = Ok c → is_Some (pw_issuer w) → ∃ i issuer ic, cas db !! i = Some issuer ∧ load_cert (ca_cert issuer) = Ok ic ∧
    pw_issuer w = Some (ca_name issuer) ∧
    match naming ic c sans with
    | Ok l => pw_refused w = false ∧ map fst (pw_names w) = l ∧ Forall (λ x, snd x = None) (pw_names w)
    | Raise e => ∃ m, (e = IssueError m ∨ e = NameConstraintError m) ∧ pw_refused w = true ∧ pw_verdict w = Some m
    end.
Lemma resolved_stored p iid d0 issuer s : hierarchy_ok d0 → resolve_granted_issuer p iid (fresh_session d0) = (Ok issuer, s) →
  cas d0 !! ca_id issuer = Some issuer.
Proof.
  intros Hh Hres. pose proof (wp_resolve_granted p iid (fresh_session d0) (λ r _, ∀ i, r = Ok i → cas d0 !! ca_id i = Some i) Hh) as Hw.
  unfold wp in Hw. rewrite Hres in Hw. apply Hw; [by intros ? ? _ _ _ i [= <-]|done|done].
Qed.
Lemma preview_route_wp htmx cn sans n iid now chained shown user row d0 : hierarchy_ok d0 → is_Some (sessions d0 !! session_hash row) →
  wp (issuers ← issuer_options (user_principal user);
      r ← WebUi.attempt (issue_preview (user_principal user) cn sans iid n now chained);
      match r with
      | Raise (IssuerForbiddenError m) | Raise (NoGrantedIssuerError m) =>
          form_page (mkViewer user row shown) new_form (Some m) issuers 403 None None None
      | Raise e => mthrow e
      | Ok p => if htmx : bool then mret (Fragment (panel_issue n p))
                else form_page (mkViewer user row shown) new_form None issuers 200 None None (Some (panel_issue n p))
      end) (fresh_session d0) (λ r _, ∀ a w, r = Ok a → preview_in a = Some w → previewed (user_principal user) cn sans n iid now d0 w).
Proof.
  intros Hh Hs. unfold issuer_options. apply wp_bind, wp_bind, wp_query, wp_lift; [|done]. intros issuers _. apply wp_bind, wp_attempt.
  assert (Hpage : ∀ e st w0, wp (form_page (mkViewer user row shown) new_form e issuers st None None w0) (fresh_session d0)
    (λ r _, ∀ a w, r = Ok a → preview_in a = Some w → ∃ n', w0 = Some (panel_issue n' w))).
  { intros e st w0. unfold form_page, context, base_context. apply wp_bind, wp_bind, wp_pop_flash; [done|]. apply wp_bind, wp_query, wp_ret, wp_ret.
    intros a w [= <-]. cbn. destruct w0 as [[]|]; try done. intros [= ->]. by eexists. }
  eapply wp_mono; [by apply wp_issue_preview|]. intros [w0|e] s [-> Hw0]; cbn in Hw0.
  - destruct htmx; [apply wp_ret; intros a w [= <-] [= <-]; by apply Hw0|]. eapply wp_mono; [apply Hpage|]. intros r s H a w Ha Hw.
    destruct (H a w Ha Hw) as [n' [= _ ->]]. by apply Hw0.
  - destruct e; try done; (eapply wp_mono; [apply Hpage|]; intros r s H a w Ha Hw; by destruct (H a w Ha Hw)).
Qed.
Lemma issue_route_wp (q : Post) cn sans profile kt n iid d created pending now user row d0 : inventory_ok d0 → is_Some (sessions d0 !! session_hash row) →
  0 ≤ d_serial d →
  wp (issuers ← issuer_options (user_principal user);
      r ← WebUi.attempt (p ← lift (parse_profile profile); names ← lift (parse_san_lines sans);
        issue_and_store (user_principal user) p cn names n kt iid ui d created);
      match r with
      | Raise e => a ← issuance_refused (mkViewer user row now) new_form issuers e; mret (a, pending)
      | Ok issued =>
          let crow := issued_row issued in
          let capped := capped_from issued in
          let summary := issued_summary crow in
          _ ← log q (user_actor user) a_cert_issued summary (certificate_target crow)
            (Some (certificate_detail crow (Some kt) (if bool_decide (is_Some capped) then Some n else None) capped)) (po_logged q);
          _ ← set_flash row summary;
          mret (To ("/certs/" +:+ id_text (crt_id crow)), remember_capped (crt_id crow) n capped pending)
      end) (fresh_session d0) (λ r s, ∀ l k, r = Ok (To l, k) → ∃ p names issued s1, parse_san_lines sans = Ok names ∧
        issue_and_store (user_principal user) p cn names n kt iid ui d created (fresh_session d0) = (Ok issued, s1) ∧
        l = "/certs/" +:+ id_text (crt_id (issued_row issued)) ∧ certs (durable s) !! crt_id (issued_row issued) = Some (issued_row issued)).
Proof.
  intros Hi Hs Hser.
  assert (Href : ∀ issuers e (Q : Outcome (CertsAnswer * gmap Z (Z * Z)) → Session DB → Prop), (∀ r s, (∀ l k, r ≠ Ok (To l, k)) → Q r s) →
    wp (a ← issuance_refused (mkViewer user row now) new_form issuers e; mret (a, pending)) (fresh_session d0) Q).
  { intros issuers e Q HQ. apply wp_bind, wp_issuance_page; [done| |intros e'; by apply HQ].
    intros a s Ha _. apply wp_ret, HQ. intros l k [= -> _]. by destruct Ha. }
  unfold issuer_options. apply wp_bind, wp_bind, wp_query, wp_lift; [|done]. intros issuers _.
  apply wp_bind, wp_attempt, wp_bind, wp_lift; [|intros e _; apply Href; intros r s Hr l k Hk; by apply Hr in Hk]. intros p _.
  apply wp_bind, wp_lift; [|intros e _; apply Href; intros r s Hr l k Hk; by apply Hr in Hk]. intros names Hn.
  pose proof (wp_issue_and_store (user_principal user) p cn names n kt iid ui d created (fresh_session d0)
    (λ r s, match r with Ok issued => s = fresh_session (on_certs (λ m, <[crt_id (issued_row issued) := issued_row issued]> m) d0) | Raise _ => s = fresh_session d0 end)
    (inv_hierarchy _ Hi) Hser) as Hw.
  specialize (Hw (λ _ _ _ _ _ _ _ _ _ _, eq_refl) (λ _, eq_refl)). unfold wp in Hw |- * at 1.
  destruct (issue_and_store _ _ _ _ _ _ _ _ _ _ _) as [[issued|e] s1] eqn:Hrun; cbn [fst snd] in *; subst s1.
  - eapply wp_told; [exact Hs|done..|]. intros entry _ _ _ l k [= <- _].
    exists p, names, issued. eexists. split_and!; try done. apply lookup_insert_eq.
  - apply Href. intros r s Hr l k Hk. by apply Hr in Hk.
Qed.
Lemma after_guard {A} q now (k : Viewer → Tx DB A) db v d0 r db' : certs_guard q now (fresh_session db) = (Ok v, fresh_session d0) →
  request (v ← certs_guard q now; k v) db = (r, db') → ∃ s', k v (fresh_session d0) = (r, s') ∧ durable s' = db'.
Proof.
  unfold request, mbind, Tx_bind. intros ->. destruct (k v (fresh_session d0)) as [r0 s0]. intros [= -> <-]. by exists s0.
Qed.
(** C21: the preview keeps its word.  When the form is posted as it was
    previewed, on the database the preview saw, in which CA certificates end on
    whole seconds, in the same second and with a serial number that is not
    negative, the certificate it makes, if it makes one, is the one the panel
    announced: by that issuer, with those names, each marked permitted and none
    refused, until that second.  And for a common name the form accepts, under
    the issuer the panel names, what the panel says of the names is what the
    signer's own reading, completion and check of them say: the names when
    they pass, the very message when not. *)
Theorem preview_keeps_its_word q htmx cn sans profile kt n iid now chained shown d created posted pending db a w db1 r db2 :
  identity_ok db → inventory_ok db → whole_seconds db → 0 ≤ d_serial d → floor_second (d_now d) = floor_second now →
  request (certs_issue_preview q htmx cn sans n iid now chained shown) db = (Ok a, db1) → preview_in a = Some w →
  request (certs_issue q cn sans profile kt n iid d created posted pending) db = (r, db2) →
  signers_word w cn sans db ∧ match r with Ok (To l, _) => kept w db db2 l | _ => True end.
Proof.
  intros Hid Hinv Hsec Hser Hnow Hp Hw Hi.
  destruct (guard_once q db Hid) as [(user & row & d0 & Hg & Hcas & Hinv0 & Hs)|Hno].
  2: { unfold request, certs_issue_preview, mbind, Tx_bind in Hp. destruct (Hno shown) as (e & s & He). by rewrite He in Hp. }
  specialize (Hinv0 Hinv). pose proof (inv_hierarchy _ Hinv0) as Hh0.
  destruct (after_guard _ _ _ _ _ _ _ _ (Hg shown) Hp) as (s1 & Hrun1 & _).
  destruct (after_guard _ _ _ _ _ _ _ _ (Hg posted) Hi) as (s2 & Hrun2 & <-). cbn [vw_user vw_row] in Hrun1, Hrun2.
  pose proof (wp_of_run _ _ _ _ _ (preview_route_wp htmx cn sans n iid now chained shown user row d0 Hh0 Hs) Hrun1 a w eq_refl Hw) as Hpre.
  pose proof (wp_of_run _ _ _ _ _ (issue_route_wp q cn sans profile kt n iid d created pending posted user row d0 Hinv0 Hs Hser) Hrun2) as Hmade.
  clear Hp Hi Hw Hrun1 Hrun2 Hg. split.
  - destruct Hpre as [[-> _]|(issuer & f & chain & Hres & Hf & ->)]; intros c Hc Hsome; [by destruct Hsome|].
    pose proof (resolved_stored _ _ _ _ _ Hh0 Hres) as Hrow. destruct (Hh0 _ _ Hrow) as (_ & _ & ic & Hic & _).
    destruct (preview_names _ _ _ _ _ _ _ _ chain Hic Hc Hf) as [Hname Hx]. exists (ca_id issuer), issuer, ic. rewrite <- Hcas. by split_and!.
  - destruct r as [[[l| | | |] k]|e]; try done. destruct (Hmade l k eq_refl) as (p & names & issued & s' & Hparse & Hrun & -> & Hstored).
    destruct Hpre as [[_ [e He]]|(issuer & f & chain & Hres & Hf & ->)].
    { unfold issue_and_store, mbind, Tx_bind in Hrun. rewrite He in Hrun. done. }
    destruct (issue_under _ _ _ _ _ _ _ _ _ _ _ _ _ Hh0 Hres Hrun) as (ic & ik & cert & key & crl & aia & Hic & Hik & Hiss & Hsans & Hpem & Hend & Hby).
    pose proof (resolved_stored _ _ _ _ _ Hh0 Hres) as Hrow.
    destruct (issued_names _ _ _ _ _ _ _ _ _ _ _ _ _ _ _ _ Hiss Hparse) as (c & resolved & gns & Hc & Hnaming & Hgns & Hgs).
    destruct (preview_names _ _ _ _ _ _ _ _ chain Hic Hc Hf) as [Hname Hx]. rewrite Hnaming in Hx. destruct Hx as (Hrf & Hnames & Hmarks).
    destruct (issue_certificate_says _ _ _ _ _ _ _ _ _ _ _ _ _ _ _ Hiss Hik) as (_ & _ & end_ & Hclamp & Hna).
    rewrite Hcas in Hrow. exists (issued_row issued), cert, issuer, gns. split_and!; try done; [by rewrite Hby| |congruence|].
    + rewrite <- Hnames in Hgns. by apply Forall2_fmap_l in Hgns.
    + rewrite Hend, Hna. eapply preview_expiry; [done..|]. by apply (Hsec _ _ _ Hrow).
Qed.
End theorems.

Module CertsUiExamples.
#[local] Existing Instance Toy.lib.
#[local] Existing Instance toy_secrets.
#[local] Existing Instance toy_crypto.
Import Toy CaExamples IdentityExamples DepsExamples WebUiExamples CaPagesExamples.
#[local] Strategy 1000 [signed_in crossed root_logged_in request].
Lemma signed_in_inventory : inventory_ok signed_in.
Proof.
  eapply inventory_same; [apply empty_inventory| |apply signed_in_hierarchy|by intros i q Hq].
  assert (H1 : Nat.eqb (size (certs signed_in)) 0 = true) by (vm_compute; reflexivity).
  assert (H2 : Nat.eqb (size (crls signed_in)) 0 = true) by (vm_compute; reflexivity).
  apply Nat.eqb_eq, map_size_empty_iff in H1, H2. by split.
Qed.
Definition wanted (cn sans : string) (n : Z) : CertForm := form_issue cn sans "server" "ecdsa-p256" n (Some 3).
Definition posting (f : CertForm) (db : DB) : Outcome (CertsAnswer * gmap Z (Z * Z)) * DB :=
  request (certs_route post f (draw 50) t2026 t2026 ∅) db.
Definition status_of (r : Outcome (CertsAnswer * gmap Z (Z * Z))) : option Z := match r with Ok (a, _) => page_status a | Raise _ => None end.
Definition location_of (r : Outcome (CertsAnswer * gmap Z (Z * Z))) : option string := match r with Ok (To l, _) => Some l | _ => None end.
Definition error_of (r : Outcome (CertsAnswer * gmap Z (Z * Z))) : option string := match r with Ok (Form _ _ v, _) => fv_error v | _ => None end.
Definition preview_run (cn sans : string) (n : Z) : Outcome CertsAnswer * DB :=
  request (certs_issue_preview post true cn sans n (Some 3) t2026 t2026 t2026) signed_in.
Definition issued_run : Outcome (CertsAnswer * gmap Z (Z * Z)) * DB := posting (wanted "nas.lan" "" 90) signed_in.
#[local] Strategy 900 [posting].
#[local] Strategy 500 [issued_run].
Lemma draw_50 : 0 ≤ d_serial (draw 50).
Proof. vm_compute. discriminate. Qed.
(** Issued and shown; a name outside the issuer's constraints, an issuer that
    is not there and a revocation without its box are turned down; revoking
    twice is done once. *)
Lemma certs_forms_exact_witness :
  location_of (fst issued_run) = Some "/certs/1" ∧
  error_of (fst (posting (wanted "nas.lan" "nas.example" 90) signed_in)) =
    Some "nas.example is not permitted by this CA's name constraints (permitted DNS: lan)" ∧
  status_of (fst (posting (form_issue "nas.lan" "" "server" "ecdsa-p256" 90 (Some 9)) signed_in)) = Some 400 ∧
  status_of (fst (posting (form_revoke 1 "superseded" "") (snd issued_run))) = Some 400 ∧
  status_of (fst (posting (form_revoke 1 "boredom" "on") (snd issued_run))) = Some 400 ∧
  location_of (fst (posting (form_revoke 1 "superseded" "on") (snd issued_run))) = Some "/certs/1" ∧
  bool_decide (size (audit_events (snd (posting (form_revoke 1 "superseded" "on") (snd (posting (form_revoke 1 "superseded" "on") (snd issued_run)))))) =
    S (size (audit_events (snd issued_run)))) = true ∧
  ∃ user row crow capped says db1, cert_did (wanted "nas.lan" "" 90) user (draw 50) t2026 (seen t2026 row signed_in) crow capped says db1.
Proof.
  assert (H : location_of (fst issued_run) = Some "/certs/1") by (vm_compute; reflexivity). split; [exact H|].
  split_and!; [vm_compute; reflexivity..|].
  assert (Hat : in_datetime t2026) by by_decide.
  assert (Hr : request (certs_route post (wanted "nas.lan" "" 90) (draw 50) t2026 t2026 ∅) signed_in = (fst issued_run, snd issued_run))
    by exact (surjective_pairing _).
  destruct (certs_forms_exact (X:=lib) (SS:=toy_secrets) (CR:=toy_crypto) post (wanted "nas.lan" "" 90) (draw 50) t2026 t2026 ∅ signed_in
    _ _ signed_in_identity signed_in_inventory Hat draw_50 Hr) as [(e & He & _)|(user & row & _ & _ & _ & [Hd|[[Hidle _]|Hx]])].
  - rewrite He in H. discriminate H.
  - destruct (fst issued_run) as [[a k]|e]; [|discriminate H]. destruct a; try discriminate H. destruct Hd as [[Hd|Hd] _]; discriminate Hd.
  - destruct Hidle.
  - destruct Hx as (crow & capped & says & db1 & entry & Hdid & _). exists user, row, crow, capped, says, db1. exact Hdid.
Defined.
Definition panel (cn sans : string) (n : Z) : option IssuePreview :=
  match fst (preview_run cn sans n) with Ok a => preview_in a | Raise _ => None end.
Definition the_panel : CertsAnswer := match fst (preview_run "nas.lan" "" 90) with Ok a => a | Raise _ => To "" end.
Definition the_preview : IssuePreview := default blank_issue_preview (preview_in the_panel).
#[local] Strategy 500 [the_panel the_preview].
Lemma all_whole_seconds : whole_seconds signed_in.
Proof.
  intros i r c Hr Hc. assert (H : forallb (λ x : Z * CARow, match load_cert (ca_cert (snd x)) with
    | Ok c => floor_second (not_valid_after c) =? not_valid_after c | Raise _ => true end) (map_to_list (cas signed_in)) = true) by (vm_compute; reflexivity).
  pose proof (TlsExamples.forallb_rows _ _ H i r Hr) as Hp. cbn [snd] in Hp. rewrite Hc in Hp. by apply Z.eqb_eq in Hp.
Qed.
(** The panel permits the name it completed from the common name, and the
    certificate has it; a name outside is marked and refused, as the post is. *)
Lemma preview_keeps_its_word_witness :
  (pw_refused <$> panel "nas.lan" "" 90) = Some false ∧ (pw_refused <$> panel "nas.lan" "nas.example" 90) = Some true ∧
  (pw_verdict <$> panel "nas.lan" "nas.example" 90) = Some (error_of (fst (posting (wanted "nas.lan" "nas.example" 90) signed_in))) ∧
  kept the_preview signed_in (snd issued_run) "/certs/1".
Proof.
  split_and!; [vm_compute; reflexivity..|].
  assert (H : location_of (fst issued_run) = Some "/certs/1") by (vm_compute; reflexivity).
  assert (Ha : request (certs_issue_preview post true "nas.lan" "" 90 (Some 3) t2026 t2026 t2026) signed_in = (Ok the_panel, snd (preview_run "nas.lan" "" 90))).
  { assert (Ho : is_ok (fst (preview_run "nas.lan" "" 90)) = true) by (vm_compute; reflexivity).
    change (request _ signed_in) with (preview_run "nas.lan" "" 90). unfold the_panel.
    destruct (preview_run "nas.lan" "" 90) as [[a|e] db1]; [reflexivity|discriminate Ho]. }
  assert (Hw : preview_in the_panel = Some the_preview).
  { assert (Hs : bool_decide (is_Some (preview_in the_panel)) = true) by (vm_compute; reflexivity).
    unfold the_preview. destruct (preview_in the_panel); [reflexivity|discriminate Hs]. }
  assert (Hr : request (certs_issue post "nas.lan" "" "server" "ecdsa-p256" 90 (Some 3) (draw 50) t2026 t2026 ∅) signed_in = (fst issued_run, snd issued_run))
    by exact (surjective_pairing _).
  destruct (preview_keeps_its_word (X:=lib) (SS:=toy_secrets) (CR:=toy_crypto) post true "nas.lan" "" "server" "ecdsa-p256" 90 (Some 3)
    t2026 t2026 t2026 (draw 50) t2026 t2026 ∅ signed_in the_panel the_preview (snd (preview_run "nas.lan" "" 90)) (fst issued_run) (snd issued_run)
    signed_in_identity signed_in_inventory all_whole_seconds draw_50 eq_refl Ha Hw Hr) as [_ Hx].
  destruct (fst issued_run) as [[[l| | | |] k]|e]; [|discriminate H..].
  assert (Hl : Some l = Some "/certs/1") by exact H. injection Hl as Hl. rewrite <- Hl. exact Hx.
Defined.
(** A validity the form refuses has an expiry on the panel, and one too large
    for a date is an error of the server. *)
Example expiry_of_a_refused_request :
  (panel "nas.lan" "" 3651 ≫= pw_expires) = Some "2035-12-30T00:00:00+00:00" ∧
  error_of (fst (posting (wanted "nas.lan" "" 3651) signed_in)) = Some "days must be between 1 and 3650" ∧
  raised (fst (preview_run "nas.lan" "" 10000000000)) = Some (OverflowError "days out of range for timedelta").
Proof. split_and!; vm_compute; reflexivity. Qed.
End CertsUiExamples.
