(* ===== verification/CaPreview.v ===== *)
(** * The preview of a new root ([_create_preview], [ca_create_preview] of
    [cabin.web.ca_ui])

    What the panel beside the form of [POST /ca/create] says while it is being
    filled in, and that the root the form then makes is the one it spoke of. *)

From S2P Require Import Prelude PyStr PyTime Json IPAddr X509Lib X509 Leaf Store Settings CaService Grants Identity Certs Crl AuditLog WebDeps WebUi Tls CaPages CaUi CertsUi.
#[local] Open Scope Z_scope.

Definition NO_ISSUERS_YET : string := "None yet: a root is created on its own, and an issuer is added on this hierarchy's own page.".
Record CreatePreview := mkCreatePreview {
  cp_root : option string; cp_expires : option string; cp_issuers : string; cp_key : string; cp_path_length : Z }.
(** The panel alone for htmx, the page with the panel in it for everyone else. *)
Inductive CreatePanel := panel_alone (p : CreatePreview) | panel_in_page (status : Z) (cx : Context_) (p : CreatePreview).
Definition panel_of (a : CreatePanel) : CreatePreview := match a with panel_alone p | panel_in_page _ _ p => p end.

Section previews.
Context {X : X509Lib} {SS : SecretStore} {CR : Crypto}.

Definition create_preview (name key_type : string) (root_years path_length now : Z) : Outcome CreatePreview :=
  expires ← (if (MIN_YEARS <=? root_years) && (root_years <=? MAX_YEARS)
             then e ← add_days (floor_second now) (DAYS_PER_YEAR * root_years); mret (Some (isoformat e)) else mret None);
  mret (mkCreatePreview (or_none (strip name)) expires NO_ISSUERS_YET key_type path_length).
Definition ca_create_preview (q : Post) (htmx : bool) (name key_type : string) (root_years path_length now shown : Z) : Tx DB CreatePanel :=
  v ← ca_guard q shown;
  p ← lift (create_preview name key_type root_years path_length now);
  if htmx then mret (panel_alone p) else cx ← context v; mret (panel_in_page 200 cx p).

(** ** Correctness *)
Lemma create_root_says cn kt years pl now serial seed cert key : X509.create_root cn kt years pl now serial seed = Ok (cert, key) →
  cert_subject cert = [[cn_attribute cn]] ∧ not_valid_after cert = floor_second (now + days (DAYS_PER_YEAR * years)) ∧
  extension_of sel_bc cert = Ok (true, Some pl, true).
Proof.
  unfold X509.create_root. intros H. apply Outcome_bind_ok in H as (k & _ & H). apply Outcome_bind_ok in H as (nm & ->%cn_name_ok & H).
  apply Outcome_bind_ok in H as (e & (-> & _)%add_days_ok & H). apply Outcome_bind_ok in H as (c & Hs%sign_with_ok & [= -> ->]).
  unfold cert_subject, not_valid_after. rewrite Hs. split_and!; [done..|]. by rewrite (signed_extension _ _ _ _ Hs eq_refl).
Qed.
Lemma create_root_made name kt years pl d db row db' : request (CaService.create_root name kt years pl d) db = (Ok row, db') →
  ca_name row = name ∧ ∃ cert key, load_cert (ca_cert row) = Ok cert ∧ X509.create_root name kt years pl (d_now d) (d_serial d) (d_seed d) = Ok (cert, key).
Proof.
  intros Hreq. refine (request_wp _ _ (λ r _, ∀ row, r = Ok row → ca_name row = name ∧ ∃ cert key, load_cert (ca_cert row) = Ok cert ∧
    X509.create_root name kt years pl (d_now d) (d_serial d) (d_seed d) = Ok (cert, key)) _ _ Hreq _ row eq_refl).
  unfold CaService.create_root. apply wp_bind, wp_lift; [|by intros e _ ? ?]. intros [cert key] Hc. wp_ca; try done. intros r [= <-].
  split; [done|]. exists cert, key. cbn [ca_cert]. by rewrite load_cert_pem.
Qed.
(** What the panel of a form says is true of the root that form makes. *)
Definition root_foretold (p : CreatePreview) (row : CARow) : Prop := ∃ cert, load_cert (ca_cert row) = Ok cert ∧
  cp_root p = Some (ca_name row) ∧ cert_subject cert = [[cn_attribute (default "" (cp_root p))]] ∧
  cp_expires p = Some (isoformat (not_valid_after cert)) ∧ extension_of sel_bc cert = Ok (true, Some (cp_path_length p), true).
Definition fillable (name key_type : string) (root_years path_length : Z) : Prop :=
  first_error [name_error (strip name); key_type_error key_type; years_error root_years; path_length_error path_length] = None.
Lemma preview_foretells name kt years pl now p d db row db' : create_preview name kt years pl now = Ok p → fillable name kt years pl →
  floor_second (d_now d) = floor_second now → request (CaService.create_root (strip name) kt years pl d) db = (Ok row, db') → root_foretold p row.
Proof.
  intros Hp Hf Hnow Hreq. destruct (create_root_made _ _ _ _ _ _ _ _ Hreq) as (Hname & cert & key & Hc & Hmade).
  destruct (create_root_says _ _ _ _ _ _ _ _ _ Hmade) as (Hsub & Hna & Hbc). unfold fillable, first_error in Hf.
  destruct (name_error _) eqn:Hne; [done|]. destruct (key_type_error _); [done|]. destruct (years_error _) eqn:Hy; [done|]. clear Hf.
  assert (Hstrip : strip name ≠ "") by (unfold name_error in Hne; by case_decide).
  unfold years_error, year_bounds_error in Hy. unfold create_preview, or_none in Hp. rewrite decide_False in Hp by done.
  destruct ((MIN_YEARS <=? years) && (years <=? MAX_YEARS)); [|done]. cbn [negb] in Hy.
  apply Outcome_bind_ok in Hp as (x & Hx & [= <-]). apply Outcome_bind_ok in Hx as (e & (-> & _)%add_days_ok & [= <-]).
  exists cert. split_and!; cbn [cp_root cp_expires cp_path_length default]; [done|by rewrite Hname|done| |done].
  rewrite Hna, floor_days. congruence.
Qed.
(** Fifty years from now there is still a date. *)
Definition fifty_years_left (now : Z) : Prop := in_datetime (floor_second now) ∧ in_datetime (floor_second now + days (DAYS_PER_YEAR * MAX_YEARS)).
Lemma create_preview_total name kt years pl now : fifty_years_left now → ∃ p, create_preview name kt years pl now = Ok p ∧
  cp_key p = kt ∧ cp_path_length p = pl ∧ (years_error years = None ↔ is_Some (cp_expires p)).
Proof.
  intros [H0 H50]. unfold create_preview, years_error, year_bounds_error.
  destruct ((MIN_YEARS <=? years) && (years <=? MAX_YEARS)) eqn:Hy; cbn [negb].
  - assert (He : add_days (floor_second now) (DAYS_PER_YEAR * years) = Ok (floor_second now + days (DAYS_PER_YEAR * years))).
    { apply andb_prop in Hy as [H1%Z.leb_le H2%Z.leb_le]. apply add_days_ok. unfold MIN_YEARS, MAX_YEARS, DAYS_PER_YEAR, in_datetime, days, day, hour, minute, second in *.
      split_and!; [done|lia..]. }
    rewrite He. cbn. eexists. split_and!; [done..|]. by split; [eexists|].
  - cbn. eexists. split_and!; [done..|]. split; [done|by intros [? ?]].
Qed.
(** The panel beside the form of a new root keeps its word.  It is shown to
    whoever may send the form and to nobody else, with or without JavaScript,
    and touches neither the hierarchy nor the log; it gives an expiry exactly
    for the years the form accepts; and if the form then makes a root within
    that second, the root has the name, the common name, the path length and,
    to the second, the end the panel said. *)
Theorem created_as_previewed q htmx name kt years pl now shown db r db1 : identity_ok db → fifty_years_left now →
  request (ca_create_preview q htmx name kt years pl now shown) db = (r, db1) →
  match r with
  | Ok a => (∃ user row, opens (po_cookie q) (po_seen q) db user row ∧ user_role user ∈ ADMIN_ROLES ∧ po_csrf q = Some (csrf_token row)) ∧
      cas db1 = cas db ∧ audit_events db1 = audit_events db ∧ (is_Some (cp_expires (panel_of a)) ↔ years_error years = None) ∧
      ∀ d row db2 db3, fillable name kt years pl → floor_second (d_now d) = floor_second now →
        request (CaService.create_root (strip name) kt years pl d) db2 = (Ok row, db3) → root_foretold (panel_of a) row
  | Raise e => form_refused ADMIN_ROLES (po_cookie q) (po_csrf q) (po_seen q) db e db1
  end.
Proof.
  intros Hid Hclock Hreq. pattern r, db1. eapply request_wp; [exact Hreq|]. clear r db1 Hreq. cbn beta.
  destruct (create_preview_total name kt years pl now Hclock) as (p & Hp & _ & _ & He).
  assert (Hsays : ∀ d row db2 db3, fillable name kt years pl → floor_second (d_now d) = floor_second now →
    request (CaService.create_root (strip name) kt years pl d) db2 = (Ok row, db3) → root_foretold p row)
    by (intros; by eapply preview_foretells).
  unfold ca_create_preview, ca_guard. apply wp_bind, wp_bind, wp_ui_guard; [done| |done].
  intros user row Ho Hr Hc. apply wp_ret. rewrite Hp. apply wp_bind, wp_lift; [intros ? [= <-]|done].
  destruct (seen_users (po_seen q) row db) as (_ & _ & Hcas & Haud). destruct htmx.
  - apply wp_ret. cbn [panel_of]. split; [by exists user, row|]. split_and!; [done..|by symmetry|done].
  - unfold context, base_context. apply wp_bind, wp_bind, wp_pop_flash; [eexists; by eapply seen_stored|]. apply wp_bind, wp_query, wp_ret, wp_ret.
    cbn [panel_of]. split; [by exists user, row|]. unfold popped. split_and!; [by destruct (flash _)|by destruct (flash _)|by symmetry|done].
Qed.
End previews.

Module CaPreviewExamples.
#[local] Existing Instance Toy.lib.
#[local] Existing Instance toy_secrets.
#[local] Existing Instance toy_crypto.
Import Toy CaExamples IdentityExamples DepsExamples WebUiExamples CaPagesExamples CertsUiExamples.
#[local] Strategy 1000 [signed_in crossed root_logged_in request].
Definition shown_panel (name : string) (years : Z) : Outcome CreatePanel * DB :=
  request (ca_create_preview post true name "ecdsa-p256" years 2 (t2026 + 1) t2026) signed_in.
Definition made_root : Outcome CARow * DB := request (CaService.create_root "New root" "ecdsa-p256" 20 2 (draw 60)) signed_in.
Lemma created_as_previewed_witness :
  (match fst (shown_panel " New root " 20) with Ok a => cp_expires (panel_of a) | Raise _ => None end) = Some "2045-12-27T00:00:00+00:00" ∧
  (match fst (shown_panel " New root " 51) with Ok a => Some (cp_expires (panel_of a)) | Raise _ => None end) = Some None ∧
  ∃ a row, fst (shown_panel " New root " 20) = Ok a ∧ fst made_root = Ok row ∧ root_foretold (panel_of a) row.
Proof.
  split; [vm_compute; reflexivity|]. split; [vm_compute; reflexivity|].
  assert (H : is_ok (fst (shown_panel " New root " 20)) = true) by (vm_compute; reflexivity).
  assert (H2 : is_ok (fst made_root) = true) by (vm_compute; reflexivity).
  assert (Hclock : fifty_years_left (t2026 + 1)) by (split; split; by vm_compute).
  pose proof (created_as_previewed (X:=lib) (SS:=toy_secrets) (CR:=toy_crypto) post true " New root " "ecdsa-p256" 20 2 (t2026 + 1) t2026 signed_in _ _
    signed_in_identity Hclock (surjective_pairing _)) as Hx. fold (shown_panel " New root " 20) in Hx.
  destruct (fst (shown_panel " New root " 20)) as [a|e]; [|discriminate H]. assert (Hm : made_root = (fst made_root, snd made_root)) by exact (surjective_pairing _).
  destruct (fst made_root) as [row|e]; [|discriminate H2].
  exists a, row. split; [reflexivity|]. split; [reflexivity|]. destruct Hx as (_ & _ & _ & _ & Hx).
  exact (Hx (draw 60) row signed_in (snd made_root) ltac:(vm_compute; reflexivity) ltac:(vm_compute; reflexivity) Hm).
Defined.
End CaPreviewExamples.
