(* ===== verification/CrlUi.v ===== *)
(** * [cabin.web.crl_ui]: what anyone may fetch

    The revocation list of an issuer and the certificate of a CA row, the two
    addresses a certificate names.  No session is asked for.  A list whose
    issuer's key cannot be used is served as it was last signed. *)

From S2P Require Import Prelude PyStr PyTime IPAddr X509Lib X509 Leaf Store Settings CaService Grants Identity Certs Crl WebDeps WebUi CaPages.
#[local] Open Scope Z_scope.

Definition CACHE_CONTROL : string := "public, max-age=" +:+ str_of_Z (CRL_MAX_AGE / second).
Definition KEY_UNAVAILABLE : string := "the CA private key could not be decrypted, so no CRL can be signed".
Definition unknown_issuer : Exc := HTTPException 404 "unknown issuer" [].
Definition not_an_intermediate : Exc := HTTPException 404 "not an intermediate" [].
Inductive Encoding := in_der | in_pem.
Record CrlAnswer {X : X509Lib} := mkCrlAnswer { ca_encoding : Encoding; ca_crl : Crl; ca_cache : string }.
Arguments mkCrlAnswer {X} _ _ _.

Section crl_ui.
Context {X : X509Lib} {SS : SecretStore}.

Definition intermediate_or_404 (issuer_id : Z) : Tx DB CARow :=
  row ← unknown_as unknown_issuer (get_ca issuer_id);
  _ ← raise_if (negb (bool_decide (ca_kind row = Intermediate))) not_an_intermediate;
  mret row.
Definition key_unusable (e : Exc) : bool := match e with CANotConfiguredError _ | SecretsError _ => true | _ => false end.
Definition last_signed (issuer_id : Z) : Tx DB CrlRow :=
  stale ← query (stored_crl issuer_id);
  lift (of_option stale (HTTPException 500 KEY_UNAVAILABLE [])).
Definition current_der (issuer_id now : Z) : Tx DB Crl :=
  _ ← intermediate_or_404 issuer_id;
  row ← catch (current_crl issuer_id now) key_unusable (λ _, last_signed issuer_id);
  mret (crl_der row).
(** [crl_der] and [crl_pem]; a stored list is DER, which loads. *)
Definition crl_route (e : Encoding) (issuer_id now : Z) : Tx DB CrlAnswer :=
  der ← current_der issuer_id now;
  mret (mkCrlAnswer e der CACHE_CONTROL).
Definition ca_cer (n : Z) : Tx DB Cert :=
  row ← unknown_as (HTTPException 404 "unknown CA" []) (get_ca n);
  lift (load_cert (ca_cert row)).

(** ** Correctness *)
(** The inventory and the stored lists, whatever the master key opens. *)
Record on_record (db : DB) : Prop := {
  rec_lines : lines_readable db;
  rec_issuers : ∀ i r, certs db !! i = Some r → ∃ q, cas db !! crt_issuer r = Some q ∧ ca_kind q = Intermediate;
  rec_published : published db }.
Lemma inventory_on_record db : inventory_ok db → on_record db.
Proof. intros [_ Hc Hp]. split; [by apply certs_readable|by apply Hc|done]. Qed.
Definition names_revoked (db : DB) (n : Z) (c : Crl) : Prop := ∀ i r, certs db !! i = Some r → crt_issuer r = n →
  is_Some (revoked_at r) → ∃ e, e ∈ crl_entries (crl_info c) ∧ entry_of r e.
Definition none_revoked (db : DB) (n : Z) : Prop := ∀ i r, certs db !! i = Some r → crt_issuer r = n → revoked_at r = None.
Lemma stored_names db n s : published db → crls db !! n = Some s → names_revoked db n (crl_der s).
Proof. intros Hp Hs i r Hi <- Hrev. destruct (Hp i r Hi Hrev) as (c & e & Hc & He & Hof). exists e. assert (c = s) as -> by congruence. done. Qed.
Lemma unpublished_none db n : published db → crls db !! n = None → none_revoked db n.
Proof.
  intros Hp Hs i r Hi <-. destruct (revoked_at r) eqn:E; [|done]. destruct (Hp i r Hi) as (c & e & Hc & _); [by rewrite E|congruence].
Qed.

Lemma wp_get_or e n s (Q : Outcome CARow → Session DB → Prop) : (∀ r, cas (work s) !! n = Some r → Q (Ok r) s) →
  (cas (work s) !! n = None → Q (Raise e) s) → wp (unknown_as e (get_ca n)) s Q.
Proof. intros H1 H2. apply wp_catch, wp_get_ca; [done|]. intros H. by apply wp_throw, H2. Qed.

(** Where an answer's list comes from. *)
Inductive list_source (db : DB) (n now : Z) : Crl → DB → Prop :=
  | list_current s : crls db !! n = Some s → now + CRL_MAX_AGE < state_next_update s → list_source db n now (crl_der s) db
  | list_signed s : listed_crl db n now s → list_source db n now (crl_der s) (on_crls (λ m, <[n := s]> m) db)
  | list_stale s e : crls db !! n = Some s → fst (request (current_crl n now) db) = Raise e → key_unusable e = true →
      list_source db n now (crl_der s) db.
Inductive crl_refusal (db : DB) (n now : Z) : Exc → Prop :=
  | no_such_row : cas db !! n = None → crl_refusal db n now unknown_issuer
  | no_issuer q : cas db !! n = Some q → ca_kind q ≠ Intermediate → crl_refusal db n now not_an_intermediate
  | never_signed e : crls db !! n = None → fst (request (current_crl n now) db) = Raise e → key_unusable e = true →
      crl_refusal db n now (HTTPException 500 KEY_UNAVAILABLE []).
(** C24: every list cabin serves is complete.  Without a session, for any id
    and at any time, whatever has become of the keys: a list that is answered
    is that of an intermediate and names every certificate of it the inventory
    calls revoked, with its date and reason.  It is the stored one while that
    outlives the cache time, one signed now, or, when the key cannot be used,
    the last one signed.  What is refused for want of a row or of a list has
    nothing to hide: no certificate of that id is revoked.  Only the signing
    itself can fail otherwise, and what is refused changes nothing. *)
Theorem served_lists_complete enc n now db r db' : on_record db → request (crl_route enc n now) db = (r, db') →
  match r with
  | Ok a => ca_encoding a = enc ∧ ca_cache a = CACHE_CONTROL ∧ (∃ q, cas db !! n = Some q ∧ ca_kind q = Intermediate) ∧
      names_revoked db n (ca_crl a) ∧ list_source db n now (ca_crl a) db'
  | Raise e => db' = db ∧ ((crl_refusal db n now e ∧ none_revoked db n) ∨
      (key_unusable e = false ∧ fst (request (current_crl n now) db) = Raise e))
  end.
Proof.
  intros [Hl Hi Hp] Hreq. pattern r, db'. eapply request_wp; [exact Hreq|]. clear r db' Hreq. cbn beta.
  assert (Hnone : ∀ q, cas db !! n = q → (∀ r, q = Some r → ca_kind r ≠ Intermediate) → none_revoked db n).
  { intros q <- Hq i r Hir <-. destruct (Hi i r Hir) as (q & Hc & Hk). by apply Hq in Hc. }
  unfold crl_route, current_der, intermediate_or_404. apply wp_bind, wp_bind, wp_bind.
  apply wp_get_or; cbn [work fresh_session]; [intros q Hq|intros Hq].
  2: { split; [done|]. left. split; [by constructor|by apply (Hnone _ Hq)]. }
  apply wp_bind, wp_raise_if.
  { intros Hk%negb_true_iff%bool_decide_eq_false. split; [done|]. left. split; [by econstructor|]. apply (Hnone _ Hq). by intros ? [= <-]. }
  intros Hk%negb_false_iff%bool_decide_eq_true. apply wp_ret, wp_bind, wp_catch.
  unfold wp at 1. destruct (current_crl n now (fresh_session db)) as [r s] eqn:E. cbn [fst snd].
  assert (He : fst (request (current_crl n now) db) = r) by (unfold request; by rewrite E).
  pose proof (wp_of_run _ _ _ _ _ (current_crl_lists n now db Hl) E) as Hw. destruct r as [row|e].
  - apply wp_ret, wp_ret. cbn [ca_encoding ca_cache ca_crl]. split_and!; [done|done|by exists q|..].
    + destruct Hw as [(_ & Hs & _)|(_ & Hs)]; [by eapply stored_names|]. intros i r Hir Hn Hr. by eapply lists_revoked_elem; [apply Hs|..].
    + destruct Hw as [(-> & Hs & Ht)|(-> & Hs)]; [by apply list_current|by apply list_signed].
  - subst s. destruct (key_unusable e) eqn:Hu.
    + unfold last_signed, stored_crl. apply wp_bind, wp_query, wp_lift; cbn [work fresh_session]; intros x Hx.
      * apply of_option_ok in Hx. apply wp_ret, wp_ret. cbn [ca_encoding ca_cache ca_crl]. split_and!; [done|done|by exists q|by eapply stored_names|by eapply list_stale].
      * apply of_option_raised in Hx as [Hx ->]. split; [done|]. left. split; [by econstructor|by apply unpublished_none].
    + split; [done|]. by right.
Qed.
End crl_ui.

(** ** A list outlives its key *)
Module CrlUiExamples.
#[local] Existing Instance Toy.lib.
#[local] Existing Instance toy_secrets.
#[local] Existing Instance toy_crypto.
Import Toy CaExamples CertExamples CrlExamples.
#[local] Strategy 1000 [one_root two_cas two_roots crossed with_nas revoked_nas after request].
(** The key of issuer 2 is lost. *)
Definition without_key (r : CARow) : CARow := mkCA (ca_id r) (ca_kind r) (ca_name r) (parent_id r) (cross_of_id r) (ca_status r) (ca_cert r) None.
Definition keyless : DB := on_cas (alter without_key 2) revoked_nas.
#[local] Strategy 900 [keyless].
Lemma revoked_nas_inventory : inventory_ok revoked_nas.
Proof.
  refine (proj1 (any_step_ok with_nas revoked_nas with_nas_inventory (or_intror _))).
  exists (op_revoke 1 key_compromise SYSTEM_PRINCIPAL tomorrow). split; [by_decide|]. symmetry. exact (request_drop _ _).
Qed.
Lemma record_of_keyless f (db : DB) : on_record db →
  (∀ i r, certs db !! i = Some r → ∃ q, f (cas db) !! crt_issuer r = Some q ∧ ca_kind q = Intermediate) → on_record (on_cas f db).
Proof. intros [H1 _ H3] H. split; [exact H1|exact H|exact H3]. Qed.
Lemma keyless_on_record : on_record keyless.
Proof.
  pose proof (inventory_on_record _ revoked_nas_inventory) as Hr. apply record_of_keyless; [exact Hr|]. destruct Hr as [_ H2 _].
  intros i r Hi. destruct (H2 i r Hi) as (q & Hq & Hk). destruct (decide (crt_issuer r = 2)) as [He|Hne].
  - exists (without_key q). split; [|exact Hk]. rewrite He in *. by rewrite lookup_alter_eq, Hq.
  - exists q. split; [|exact Hk]. by rewrite lookup_alter_ne.
Qed.
Definition fetched (n now : Z) (db : DB) : Outcome CrlAnswer * DB := request (crl_route in_der n now) db.
#[local] Strategy 800 [fetched].
Definition says (r : Outcome CrlAnswer) : option (string * Z * list Z) :=
  match r with
  | Ok a => Some (ca_cache a, next_update (crl_info (ca_crl a)), map entry_serial (crl_entries (crl_info (ca_crl a))))
  | Raise _ => None
  end.
(** A root has no list; the list of an issuer names what it revoked, and is
    served, past its end, when its key is lost. *)
Lemma served_lists_complete_witness :
  raised (fst (fetched 1 tomorrow revoked_nas)) = Some not_an_intermediate ∧
  raised (fst (fetched 9 tomorrow revoked_nas)) = Some unknown_issuer ∧
  (snd <$> says (fst (fetched 2 tomorrow revoked_nas))) = Some [30] ∧
  (∃ a, fst (fetched 2 (tomorrow + days 30) keyless) = Ok a ∧ names_revoked keyless 2 (ca_crl a)).
Proof.
  split_and!; [vm_compute; reflexivity..|].
  assert (H : is_ok (fst (fetched 2 (tomorrow + days 30) keyless)) = true) by (vm_compute; reflexivity).
  assert (Hr : request (crl_route in_der 2 (tomorrow + days 30)) keyless = (fst (fetched 2 (tomorrow + days 30) keyless), snd (fetched 2 (tomorrow + days 30) keyless)))
    by exact (surjective_pairing _).
  pose proof (served_lists_complete (X:=lib) (SS:=toy_secrets) in_der 2 (tomorrow + days 30) keyless _ _ keyless_on_record Hr) as Hx.
  destruct (fst (fetched 2 (tomorrow + days 30) keyless)) as [a|e]; [|discriminate H].
  exists a. destruct Hx as (_ & _ & _ & Hx & _). split; [reflexivity|exact Hx].
Defined.
(** What the comment on the cache header excludes: an hour of caching for a
    list that ended weeks ago. *)
Example cached_past_its_end :
  says (fst (fetched 2 (tomorrow + days 30) keyless)) = Some ("public, max-age=3600", floor_second (tomorrow + days 7), [30]).
Proof. vm_compute. reflexivity. Qed.
End CrlUiExamples.
