(* ===== verification/Csv.v ===== *)
(** * Comma-separated text

    [csv.writer] with its default dialect: fields are quoted when they have
    to be, and a record ends with a carriage return and a line feed.  [read_csv]
    is RFC 4180, the reference for what a reader of the file makes of it. *)

From S2P Require Import Prelude PyStr.
#[local] Open Scope Z_scope.

Definition QUOTE : ascii := char_of 34.
Definition COMMA : ascii := ","%char.
Definition CR : ascii := char_of 13.
Definition LF : ascii := char_of 10.
(** What makes [csv.writer] quote a field. *)
Definition is_special (c : ascii) : bool := bool_decide (c = COMMA ∨ c = QUOTE ∨ c = CR ∨ c = LF).
Definition double_quotes (l : list ascii) : list ascii := concat (map (λ c, if decide (c = QUOTE) then [QUOTE; QUOTE] else [c]) l).
Definition csv_field (l : list ascii) : list ascii :=
  if existsb is_special l then QUOTE :: double_quotes l ++ [QUOTE] else l.
Fixpoint csv_fields (fields : list (list ascii)) : list ascii :=
  match fields with
  | [] => []
  | [f] => csv_field f
  | f :: rest => csv_field f ++ COMMA :: csv_fields rest
  end.
(** [writer.writerow]; a record of one empty field is written quoted. *)
Definition csv_record (fields : list (list ascii)) : list ascii :=
  match fields with [[]] => [QUOTE; QUOTE] | _ => csv_fields fields end ++ [CR; LF].
Definition write_csv (rows : list (list string)) : string := of_chars (concat (map (λ row, csv_record (map chars row)) rows)).

(** ** The reader *)
Inductive Place := at_field | in_field (read : list ascii) | in_quotes (read : list ascii) | after_quote (read : list ascii).
Fixpoint read_csv (p : Place) (row : list (list ascii)) (s : list ascii) : option (list (list (list ascii))) :=
  match s with
  | [] => match p, row with at_field, [] => Some [] | _, _ => None end
  | c :: s' =>
      let ends read :=
        if decide (c = COMMA) then read_csv at_field (rev read :: row) s'
        else if decide (c = CR) then
          match s' with
          | d :: s'' => if decide (d = LF) then rows ← read_csv at_field [] s''; Some (rev (rev read :: row) :: rows) else None
          | [] => None
          end
        else None in
      match p with
      | in_quotes read => if decide (c = QUOTE) then read_csv (after_quote read) row s' else read_csv (in_quotes (c :: read)) row s'
      | after_quote read => if decide (c = QUOTE) then read_csv (in_quotes (QUOTE :: read)) row s' else ends read
      | at_field => if decide (c = QUOTE) then read_csv (in_quotes []) row s'
                    else if is_special c then ends [] else read_csv (in_field [c]) row s'
      | in_field read => if is_special c then ends read else read_csv (in_field (c :: read)) row s'
      end
  end.
Definition parse_csv (s : string) : option (list (list string)) := map (map of_chars) <$> read_csv at_field [] (chars s).

Example csv_sample : write_csv [["a"; ""]; ["b,c"; of_chars ["d"%char; QUOTE; CR]]] =
  of_chars (chars "a," ++ [CR; LF; QUOTE] ++ chars "b,c" ++ [QUOTE; COMMA; QUOTE; "d"%char; QUOTE; QUOTE; CR; QUOTE; CR; LF]).
Proof. vm_compute. reflexivity. Qed.

(** ** What is written is read back *)
(** Where the reader is after a field, and before what ends it. *)
Definition field_read (f : list ascii) (p : Place) : Prop :=
  match p with at_field => f = [] | in_field read | after_quote read => rev read = f | in_quotes _ => False end.
Lemma plain_not_special l : existsb is_special l = false → Forall (λ c, is_special c = false) l.
Proof. induction l as [|c l IH]; [done|]. cbn. rewrite orb_false_iff. intros [H1 H2]. auto. Qed.
Lemma special_quote : is_special QUOTE = true.
Proof. done. Qed.
Lemma read_plain l read row s : Forall (λ c, is_special c = false) l → read_csv (in_field read) row (l ++ s) = read_csv (in_field (rev l ++ read)) row s.
Proof.
  intros H. revert read. induction H as [|c l Hc _ IH]; intros read; [done|].
  change ((c :: l) ++ s) with (c :: (l ++ s)). cbn [read_csv]. rewrite Hc, IH. cbn [rev]. by rewrite <- app_assoc.
Qed.
Lemma read_quoted l read row s : read_csv (in_quotes read) row (double_quotes l ++ QUOTE :: s) = read_csv (after_quote (rev l ++ read)) row s.
Proof.
  revert read. induction l as [|c l IH]; intros read; [by cbn; rewrite decide_True|].
  unfold double_quotes in *. cbn [map concat rev]. rewrite <- !app_assoc. destruct (decide (c = QUOTE)) as [->|Hc].
  - cbn [app read_csv]. rewrite !decide_True by done. by rewrite IH.
  - cbn [app read_csv]. rewrite decide_False by done. by rewrite IH.
Qed.
Lemma read_field f row s : ∃ p, field_read f p ∧ read_csv at_field row (csv_field f ++ s) = read_csv p row s.
Proof.
  unfold csv_field. destruct (existsb is_special f) eqn:E.
  - exists (after_quote (rev f)). split; [apply rev_involutive|]. cbn [app read_csv]. rewrite decide_True by done.
    rewrite <- app_assoc. cbn [app]. by rewrite read_quoted, app_nil_r.
  - apply plain_not_special in E. destruct f as [|c f]; [by exists at_field|]. exists (in_field (rev f ++ [c])).
    inversion_clear E as [|? ? Hc Hf]. split; [by cbn; rewrite rev_app_distr, rev_involutive|].
    cbn [app read_csv]. rewrite decide_False by (intros ->; by rewrite special_quote in Hc). rewrite Hc. by rewrite read_plain.
Qed.
Lemma read_comma f row s : read_csv at_field row (csv_field f ++ COMMA :: s) = read_csv at_field (f :: row) s.
Proof.
  destruct (read_field f row (COMMA :: s)) as (p & Hp & ->). destruct p; cbn in Hp; [subst f|..|done|]; cbn; by rewrite ?Hp.
Qed.
Lemma read_crlf f row s : read_csv at_field row (csv_field f ++ CR :: LF :: s) =
  (rows ← read_csv at_field [] s; Some (rev (f :: row) :: rows)).
Proof.
  destruct (read_field f row (CR :: LF :: s)) as (p & Hp & ->). destruct p; cbn in Hp; [subst f|..|done|]; cbn [read_csv is_special];
    rewrite ?decide_False by done; rewrite ?bool_decide_eq_true_2 by auto; rewrite ?decide_True by done; by rewrite ?Hp.
Qed.
Lemma read_fields fields row s : fields ≠ [] →
  read_csv at_field row (csv_fields fields ++ CR :: LF :: s) = (rows ← read_csv at_field [] s; Some ((rev row ++ fields) :: rows)).
Proof.
  revert row. induction fields as [|f rest IH]; intros row Hne; [done|]. destruct rest as [|g rest].
  - cbn [csv_fields]. rewrite read_crlf. cbn [rev]. done.
  - cbn [csv_fields]. rewrite <- app_assoc. cbn [app]. rewrite read_comma, IH by done. cbn [rev]. by rewrite <- app_assoc.
Qed.
Lemma read_record fields s : fields ≠ [] →
  read_csv at_field [] (csv_record fields ++ s) = (rows ← read_csv at_field [] s; Some (fields :: rows)).
Proof.
  intros Hne. unfold csv_record. destruct fields as [|[|c f] rest]; [done| |].
  - destruct rest; [done|]. rewrite <- app_assoc. by apply (read_fields _ []).
  - rewrite <- app_assoc. by apply (read_fields _ []).
Qed.
(** Whatever the fields hold, a reader of the text finds them. *)
Theorem csv_roundtrip rows : Forall (λ r, r ≠ []) rows → parse_csv (write_csv rows) = Some rows.
Proof.
  intros H. unfold parse_csv, write_csv. rewrite chars_of_chars.
  assert (Hr : read_csv at_field [] (concat (map (λ row, csv_record (map chars row)) rows)) = Some (map (map chars) rows)).
  { induction H as [|row rows Hrow _ IH]; [done|]. cbn [map concat]. rewrite read_record by (by destruct row). by rewrite IH. }
  rewrite Hr. cbn. f_equal. rewrite map_map. rewrite <- (map_id rows) at 2. apply map_ext. intros row.
  rewrite map_map. rewrite <- (map_id row) at 2. apply map_ext. intros s. apply of_chars_chars.
Qed.
