(* ===== verification/TransferUi.v ===== *)
(** * [cabin.web.transfer_ui]: what moves into cabin and out of it

    The trust bundle, the export of a CA's private key, the export of the
    inventory and the preview of an import; the two imports themselves are in
    [CaUi.v].  File names, the pills' links and what a rejected form is filled in
    with again are left out. *)

From S2P Require Import Prelude PyStr PyTime Json IPAddr X509Lib X509 Leaf Store Settings CaService Grants Identity Certs Crl AuditLog WebDeps WebUi Targets Csv RestApi Tls CaPages CertsUi.
#[local] Open Scope Z_scope.

(** ** What the templates are given *)
Record RootLine := mkRootLine { rl_id : Z; rl_name : string; rl_status : CAStatus; rl_intermediates : nat }.
Record KeyLine := mkKeyLine { kl_id : Z; kl_name : string; kl_kind : CAKind; kl_exportable : bool }.
Record ImportPreview := mkImportPreview {
  ip_subject : option string; ip_parent : option string; ip_key : option string; ip_error : option string }.
Inductive TransferAnswer :=
  | TrustBundlePage (cx : Context_) (roots : list RootLine)
  | KeyPage (status : Z) (cx : Context_) (error : option string) (rows : list (KeyLine * list KeyLine)) (exportable : list KeyLine)
  | InventoryPage (cx : Context_) (query status : string) (total : nat)
  | PreviewFragment (p : ImportPreview)
  | PreviewPage (cx : Context_) (p : ImportPreview).
(** The export of a key: a page, or the file. *)
Inductive KeyExport {X : X509Lib} {P : P12Lib} := ExportRefused (a : TransferAnswer) | Exported (bundle : P12).

Section transfer_ui.
Context {X : X509Lib} {SS : SecretStore} {CR : Crypto}.

(** ** The trust bundle *)
Definition is_root (r : CARow) : bool := bool_decide (ca_kind r = Root).
Definition is_intermediate (r : CARow) : bool := bool_decide (ca_kind r = Intermediate).
Definition is_active (r : CARow) : bool := bool_decide (ca_status r = Active).
Definition root_rows (db : DB) : list RootLine :=
  let rows := list_cas None None db in
  map (λ r, mkRootLine (ca_id r) (ca_name r) (ca_status r)
         (length (List.filter (λ c, is_intermediate c && bool_decide (parent_id c = Some (ca_id r))) rows)))
    (List.filter is_root rows).
(** [sorted(_, key=lambda r: r.id)] *)
Definition by_id_order (a b : CARow) : Prop := ca_id a ≤ ca_id b.
#[export] Instance by_id_order_dec : RelDecision by_id_order.
Proof. intros a b. unfold by_id_order. apply _. Defined.
(** The route has looked the root up. *)
Definition trust_bundle_rows (root_id : option Z) (db : DB) : Outcome (list CARow) :=
  let rows := list_cas None None db in
  match root_id with
  | None => mret (List.filter (λ r, is_root r && is_active r) rows)
  | Some n =>
      root ← of_option (List.find (λ r, bool_decide (ca_id r = n)) rows) (AssertionError "StopIteration");
      mret (root :: merge_sort by_id_order
        (List.filter (λ r, is_intermediate r && bool_decide (parent_id r = Some n) && is_active r) rows))
  end.
Definition trust_bundle_page (cookie : option string) (seen now : Z) : Tx DB TransferAnswer :=
  v ← viewer_of cookie seen now;
  cx ← context v;
  roots ← query root_rows;
  mret (TrustBundlePage cx roots).
Definition trust_bundle_pem (cookie : option string) (ca : option Z) (seen : Z) : Tx DB (list Pem) :=
  _ ← get_current_user cookie seen;
  _ ← (match ca with
       | None => mret ()
       | Some n =>
           root ← as_404 (get_ca n);
           raise_if (negb (is_root root)) named_by_its_root
       end);
  rows ← query (trust_bundle_rows ca);
  rows ← lift rows;
  mret (map ca_cert rows).

(** ** The export of a CA's key *)
Definition exportable (row : CARow) : bool := bool_decide (is_Some (ca_key row)).
Definition key_line (row : CARow) : KeyLine := mkKeyLine (ca_id row) (ca_name row) (ca_kind row) (exportable row).
Definition grouped_rows (rows : list CARow) : list (KeyLine * list KeyLine) :=
  map (λ row, (key_line row, if is_root row then map key_line (List.filter (λ c, is_intermediate c && bool_decide (parent_id c = Some (ca_id row))) rows)
                             else []))
    (List.filter (λ r, negb (is_intermediate r)) rows).
Definition ca_key_page (v : Viewer) (error : option string) (status : Z) : Tx DB TransferAnswer :=
  rows ← query (list_cas None None);
  cx ← context v;
  mret (KeyPage status cx error (grouped_rows rows) (map key_line (List.filter exportable rows))).
Definition ca_key_form (cookie : option string) (seen now : Z) : Tx DB TransferAnswer :=
  v ← viewer_of cookie seen now;
  _ ← lift (require_superadmin (vw_user v));
  ca_key_page v None 200.
Definition too_short : string := "the bundle password must be at least " +:+ str_of_Z MIN_P12_PASSWORD +:+ " characters".
Definition key_not_available (n : Z) : string := "CA certificate " +:+ id_text n +:+ "'s private key is not available".
Definition exported_summary (row : CARow) : string := "exported CA key for " +:+ py_repr (ca_name row).
Definition exported_detail (row : CARow) (cert : Cert) : gmap string json :=
  <["kind" := JStr (kind_text (ca_kind row))]> (<["subject" := JStr (rfc4514_string (cert_subject cert))]>
    {["fingerprint" := JStr (desc_fingerprint (describe_certificate cert))]}).
Definition own_chain (n now : Z) (db : DB) : Outcome (list Cert) :=
  s ← chains_for db n now;
  c ← CaService.self_signed s;
  map_each (λ r, load_cert (ca_cert r)) (tail (chain_rows c)).
Definition ca_key_export {P : P12Lib} (q : Post) (n : Z) (password : string) (now chained : Z) : Tx DB KeyExport :=
  '(user, row) ← superadmin_post q;
  let refused := λ m, a ← ca_key_page (mkViewer user row now) (Some m) 400; mret (ExportRefused a) in
  if py_len password <? MIN_P12_PASSWORD then refused too_short else
  ca ← as_404 (get_ca n);
  if negb (exportable ca) then refused (key_not_available n) else
  '(cert, key) ← catch (signing_credentials n) is_secrets_error (λ e, mthrow (HTTPException 409 (exc_text e) []));
  others ← query (own_chain n chained);
  others ← lift others;
  bundle ← WebUi.attempt (lift (serialize_p12 (encode_utf8 (ca_name ca)) key cert others (encode_utf8 password)));
  match bundle with
  | Raise (TypeError _ | ValueError _) => refused P12_UNSUPPORTED
  | Raise e => mthrow e
  | Ok bundle =>
      _ ← log q (user_actor user) a_ca_key_exported (exported_summary ca) (Some ("ca_certificate", Some (id_text (ca_id ca))))
            (Some (exported_detail ca cert)) (po_logged q);
      mret (Exported bundle)
  end.

(** ** The preview of an import; a paste is [None] when it is blank *)
Definition import_preview (cert_text chain_text : option Pem) : Outcome ImportPreview :=
  '(subject, key, error) ← match cert_text with
    | None => mret (None, None, None)
    | Some text =>
        match load_cert text with
        | Raise (ValueError m) => mret (None, None, Some ("the signing CA certificate does not parse: " +:+ m))
        | Raise e => mthrow e
        | Ok cert => mret (Some (rfc4514_string (cert_subject cert)), Some (key_type_label (cert_key cert)), None)
        end
    end;
  '(parent, error) ← match chain_text with
    | None => mret (None, error)
    | Some text =>
        match load_cert text with
        | Raise (ValueError m) => mret (None, Some (default ("the parent/root certificate does not parse: " +:+ m) error))
        | Raise e => mthrow e
        | Ok cert => mret (Some (rfc4514_string (cert_subject cert)), error)
        end
    end;
  mret (mkImportPreview subject parent key error).
Definition ca_import_preview (q : Post) (htmx : bool) (cert_text chain_text : option Pem) (now : Z) : Tx DB TransferAnswer :=
  v ← certs_guard q now;
  p ← lift (import_preview cert_text chain_text);
  if htmx : bool then mret (PreviewFragment p) else cx ← context v; mret (PreviewPage cx p).

(** ** The export of the inventory *)
Definition FIELDS : list string :=
  ["id"; "serial_hex"; "subject_cn"; "sans"; "profile"; "not_before"; "not_after"; "status"; "has_key"; "revoked_at"; "revocation_reason"].
Definition normalize_filters (q status : string) : string * string :=
  (str_take MAX_QUERY_LENGTH (strip q), if decide (status ∈ STATUS_FILTERS) then status else "all").
Definition inventory_rows (q status : string) (now : Z) (db : DB) : list CertRow :=
  let '(term, active) := normalize_filters q status in export_certificates term active now db.
Definition csv_row (f : Summary) : list string :=
  [str_of_Z (sm_id f); sm_serial f; sm_cn f; join " " (sm_sans f); sm_profile f; iso (sm_not_before f); iso (sm_not_after f);
   status_text (sm_status f); if sm_has_key f then "true" else "false"; default "" (iso <$> sm_revoked_at f);
   default "" (reason_text <$> sm_reason f)].
Definition json_item (f : Summary) : json :=
  JObj [("id", JInt (sm_id f)); ("serial_hex", JStr (sm_serial f)); ("subject_cn", JStr (sm_cn f)); ("sans", JList (map JStr (sm_sans f)));
        ("profile", JStr (sm_profile f)); ("not_before", JStr (iso (sm_not_before f))); ("not_after", JStr (iso (sm_not_after f)));
        ("status", JStr (status_text (sm_status f))); ("has_key", JBool (sm_has_key f)); ("revoked_at", or_null (iso <$> sm_revoked_at f));
        ("revocation_reason", or_null (reason_text <$> sm_reason f))].
Definition exported_rows (q status : string) (now : Z) (db : DB) : Outcome (list Summary) :=
  map_each (λ r, certificate_fields r now) (inventory_rows q status now db).
Definition inventory_page (cookie : option string) (q status : string) (seen now : Z) : Tx DB TransferAnswer :=
  v ← viewer_of cookie seen now;
  let '(term, active) := normalize_filters q status in
  rows ← query (inventory_rows q status now);
  cx ← context v;
  mret (InventoryPage cx term active (length rows)).
Definition inventory_csv (cookie : option string) (q status : string) (seen now : Z) : Tx DB string :=
  _ ← get_current_user cookie seen;
  rows ← query (exported_rows q status now);
  rows ← lift rows;
  mret (encode_utf8 (write_csv (FIELDS :: map csv_row rows))).
Definition inventory_json (cookie : option string) (q status : string) (seen now : Z) : Tx DB string :=
  _ ← get_current_user cookie seen;
  let '(term, active) := normalize_filters q status in
  rows ← query (exported_rows q status now);
  rows ← lift rows;
  mret (encode_utf8 (dumps (JObj [("generated_at", JStr (iso now)); ("filter", JObj [("q", JStr term); ("status", JStr active)]);
    ("total", JInt (Z.of_nat (length rows))); ("items", JList (map json_item rows))]))).
End transfer_ui.

(** ** Correctness *)
Section theorems.
Context {X : X509Lib} {SS : SecretStore} {CR : Crypto}.

(** What a trust bundle holds. *)
Lemma elem_of_list_cas db r : hierarchy_ok db → r ∈ list_cas None None db ↔ cas db !! ca_id r = Some r.
Proof.
  intros Hh. unfold list_cas. rewrite elem_of_rows_where. split; [|by eauto].
  intros [_ [i Hi]]. destruct (Hh i r Hi) as [-> _]. done.
Qed.
Lemma wp_signed_in {A} cookie at_ db (k : UserRow * SessionRow * bool → Tx DB A) (Q : Outcome A → Session DB → Prop) : identity_ok db →
  (∀ user row touched, opens cookie at_ db user row → wp (k (user, seen_row at_ row, touched)) (fresh_session (seen at_ row db)) Q) →
  ((∀ user row, ¬ opens cookie at_ db user row) → Q (Raise (AuthRedirect (if decide (users db = ∅) then "/setup" else "/login"))) (fresh_session db)) →
  wp (x ← get_current_user cookie at_; k x) (fresh_session db) Q.
Proof.
  intros Hid Hok Hno. apply wp_bind. eapply wp_mono; [by apply get_current_user_wp|].
  intros [[[user row'] touched]|e] s [-> Hv]; cbn in Hv; [|destruct Hv as (-> & H & ->); by apply Hno].
  destruct Hv as (row & Ho & -> & -> & ->). by apply Hok.
Qed.
Definition in_bundle (ca : option Z) (db : DB) (r : CARow) : Prop := cas db !! ca_id r = Some r ∧
  match ca with
  | None => ca_kind r = Root ∧ ca_status r = Active
  | Some n => (ca_id r = n ∧ ca_kind r = Root) ∨ (ca_kind r = Intermediate ∧ parent_id r = Some n ∧ ca_status r = Active)
  end.
(** The trust bundle is the certificates of the active roots, or of one
    hierarchy, its root whatever its status and its active intermediates; no
    cross certificate is ever in it.  Any signed-in user may have it, and the
    only ids refused are those that name no root. *)
Theorem trust_bundle_exact cookie ca at_ db r db' : identity_ok db → hierarchy_ok db →
  request (trust_bundle_pem cookie ca at_) db = (r, db') →
  match r with
  | Ok pems => ∃ user row rows, opens cookie at_ db user row ∧ db' = seen at_ row db ∧ pems = map ca_cert rows ∧
      ∀ r, r ∈ rows ↔ in_bundle ca db r
  | Raise e => (db' = db ∧ ∀ user row, ¬ opens cookie at_ db user row) ∨
      ∃ n, ca = Some n ∧ (∃ user row, opens cookie at_ db user row ∧ db' = seen at_ row db) ∧ ∀ r, cas db !! n = Some r → ca_kind r ≠ Root
  end.
Proof.
  intros Hid Hh Hreq. pattern r, db'. eapply request_wp; [exact Hreq|]. clear r db' Hreq. cbn beta.
  unfold trust_bundle_pem. apply wp_signed_in; [done| |intros H; left; by split].
  intros user row touched Ho. set (d := seen at_ row db). assert (Hcas : cas d = cas db) by apply seen_users.
  assert (Hd : hierarchy_ok d) by by apply (hierarchy_same db).
  assert (Hmem : ∀ r, r ∈ list_cas None None d ↔ cas db !! ca_id r = Some r) by (intros r; rewrite <- Hcas; by apply elem_of_list_cas).
  destruct ca as [n|].
  - apply wp_bind, wp_bind. unfold as_404. apply wp_catch, wp_get_ca; cbn [work fresh_session]; rewrite Hcas; [intros root Hn|intros Hn].
    2: { apply wp_throw. right. exists n. split_and!; [done|by exists user, row|]. intros r Hr. congruence. }
    apply wp_raise_if.
    { intros Hk%negb_true_iff%bool_decide_eq_false. right. exists n. split_and!; [done|by exists user, row|]. intros r Hr. by replace r with root by congruence. }
    intros Hk%negb_false_iff%bool_decide_eq_true. destruct (Hh n root Hn) as [Hrid _].
    apply wp_bind, wp_query. unfold trust_bundle_rows. cbn [work fresh_session].
    destruct (List.find (λ r, bool_decide (ca_id r = n)) (list_cas None None d)) as [x|] eqn:Hf.
    2: { eapply List.find_none in Hf; [|apply list_elem_of_In; apply Hmem; by rewrite Hrid]. by apply bool_decide_eq_false in Hf. }
    apply List.find_some in Hf as [Hx%list_elem_of_In%Hmem Hxn%bool_decide_eq_true]. assert (x = root) as -> by congruence.
    cbn [of_option mbind Outcome_bind]. apply wp_bind, wp_lift; [intros rows [= <-]|done]. apply wp_ret.
    exists user, row. eexists. split_and!; [done..|]. intros r. rewrite elem_of_cons, merge_sort_Permutation, list_elem_of_In, filter_In, <- list_elem_of_In, Hmem.
    unfold in_bundle, is_intermediate, is_active. rewrite !andb_true_iff, !bool_decide_eq_true. split.
    + intros [->|(H & (H1 & H2) & H3)]; [|auto 6]. split; [by rewrite Hrid|auto].
    + intros [H [[H1 H2]|(H1 & H2 & H3)]]; [left; congruence|auto 6].
  - apply wp_bind, wp_ret, wp_bind, wp_query, wp_bind, wp_lift; [intros rows [= <-]|done]. apply wp_ret.
    exists user, row. eexists. split_and!; [done..|]. intros r. cbn [work fresh_session].
    rewrite list_elem_of_In, filter_In, <- list_elem_of_In, Hmem. unfold in_bundle, is_root, is_active.
    rewrite !andb_true_iff, !bool_decide_eq_true. tauto.
Qed.

(** *** The file of a key *)
Section key_export.
Context {P : P12Lib}.
Definition superadmin_sent (q : Post) (db : DB) (user : UserRow) (row : SessionRow) : Prop :=
  opens (po_cookie q) (po_seen q) db user row ∧ user_role user = superadmin ∧ po_csrf q = Some (csrf_token row).
(** What is in it: the row's own key, its certificate, and the certificates of
    the walk from its parent to the root. *)
Record key_file (db : DB) (n : Z) (password : string) (ca : CARow) (cert : Cert) (bundle : P12) : Prop := {
  kf_row : cas db !! n = Some ca;
  kf_stored : is_Some (ca_key ca);
  kf_cert : load_cert (ca_cert ca) = Ok cert;
  kf_password : MIN_P12_PASSWORD ≤ py_len password;
  kf_bundle : ∃ key rest others, public_key key = cert_key cert ∧ parent_walk db n = Ok (ca :: rest) ∧
    Forall2 (λ r c, load_cert (ca_cert r) = Ok c) rest others ∧
    serialize_p12 (encode_utf8 (ca_name ca)) key cert others (encode_utf8 password) = Ok bundle }.
Definition page_400 (a : TransferAnswer) : Prop := match a with KeyPage n _ e _ _ => n = 400 ∧ is_Some e | _ => False end.
Lemma wp_key_refused user row now m db (Q : Outcome KeyExport → Session DB → Prop) : is_Some (sessions db !! session_hash row) →
  (∀ a, page_400 a → Q (Ok (ExportRefused a)) (fresh_session (popped row db))) →
  wp (a ← ca_key_page (mkViewer user row now) (Some m) 400; mret (ExportRefused a)) (fresh_session db) Q.
Proof.
  intros Hs HQ. unfold ca_key_page, context, base_context. apply wp_bind, wp_bind, wp_query, wp_bind, wp_bind, wp_pop_flash; [done|].
  apply wp_bind, wp_query, wp_ret, wp_ret, wp_ret, HQ. by split.
Qed.
Lemma own_chain_ok n chained db ca others : hierarchy_ok db → cas db !! n = Some ca → own_chain n chained db = Ok others →
  ∃ rest, parent_walk db n = Ok (ca :: rest) ∧ Forall2 (λ r c, load_cert (ca_cert r) = Ok c) rest others.
Proof.
  intros Hh Hn H. destruct (chains_for_selects db n chained ca Hh Hn) as (cs & base & top & Hcs & Hw & _ & Hself & _).
  unfold own_chain in H. rewrite Hcs in H. cbn [mbind Outcome_bind] in H. rewrite Hself in H. cbn [mbind Outcome_bind chain_rows] in H.
  pose proof (parent_walk_terminates db n Hh) as Ht. rewrite Hn in Ht. destruct Ht as (rows & _ & Hw' & Hhd & _).
  assert (rows = base) as -> by congruence. destruct base as [|x rest]; [done|]. injection Hhd as ->. exists rest. split; [done|]. by apply map_each_ok.
Qed.
(** C33: a CA's private key leaves cabin only as a file a superadmin asked
    for, and never unseen.  The form must come from a superadmin's session,
    with that session's own token and a password of at least eight characters,
    and name a row whose key cabin holds; the file then is the row's own key,
    its certificate and its own line up to the root, never a cross certificate;
    and exactly one event, naming the superadmin and the row, goes with it.
    Whatever else is answered, no file is and nothing is logged. *)
Theorem ca_key_export_exact q n password now chained db r db' : identity_ok db → hierarchy_ok db →
  request (ca_key_export q n password now chained) db = (r, db') →
  match r with
  | Ok (Exported bundle) => ∃ user row ca cert entry, superadmin_sent q db user row ∧ key_file db n password ca cert bundle ∧
      log_entry (user_actor user) a_ca_key_exported (exported_summary ca) entry ∧ target_id entry = Some (id_text n) ∧
      aud_detail entry = Some (exported_detail ca cert) ∧ audit_events db !! aud_id entry = None ∧
      db' = with_entry entry (seen (po_seen q) row db)
  | Ok (ExportRefused a) => page_400 a ∧ ∃ user row, superadmin_sent q db user row ∧
      db' = popped (seen_row (po_seen q) row) (seen (po_seen q) row db)
  | Raise e => form_refused [superadmin] (po_cookie q) (po_csrf q) (po_seen q) db e db' ∨
      ∃ user row, superadmin_sent q db user row ∧ db' = seen (po_seen q) row db
  end.
Proof.
  intros Hid Hh Hreq. pattern r, db'. eapply request_wp; [exact Hreq|]. clear r db' Hreq. cbn beta.
  unfold ca_key_export, superadmin_post, require_superadmin. apply wp_bind, wp_ui_guard; [done| |intros e d He; by left].
  intros user row Ho Hr%list_elem_of_singleton Hc. assert (Hsent : superadmin_sent q db user row) by by split_and!.
  set (d := seen _ _ _). destruct (seen_users (po_seen q) row db) as (_ & _ & Hcas & Haud). fold d in Hcas, Haud.
  assert (Hs : is_Some (sessions d !! session_hash (seen_row (po_seen q) row))) by (eexists; by eapply seen_stored).
  assert (Hd : hierarchy_ok d) by by apply (hierarchy_same db).
  assert (Hpage : ∀ m, wp (a ← ca_key_page (mkViewer user (seen_row (po_seen q) row) now) (Some m) 400; mret (ExportRefused a)) (fresh_session d)
    (λ r s, match r with
     | Ok (ExportRefused a) => page_400 a ∧ ∃ user row, superadmin_sent q db user row ∧ durable s = popped (seen_row (po_seen q) row) (seen (po_seen q) row db)
     | _ => False end)).
  { intros m. apply wp_key_refused; [done|]. intros a Ha. split; [done|]. by exists user, row. }
  assert (Hraise : ∃ user row, superadmin_sent q db user row ∧ d = seen (po_seen q) row db) by by exists user, row.
  cbv zeta. destruct (Z.ltb_spec (py_len password) MIN_P12_PASSWORD) as [|Hlen].
  { eapply wp_mono; [apply Hpage|]. by intros [[]|] s. }
  apply wp_bind. unfold as_404. apply wp_catch, wp_get_ca; cbn [work fresh_session]; rewrite Hcas; [intros ca Hn|intros _; apply wp_throw; by right].
  destruct (exportable ca) eqn:Hk; cbn [negb]; [|eapply wp_mono; [apply Hpage|]; by intros [[]|] s]. apply bool_decide_eq_true in Hk.
  apply wp_bind, wp_catch, wp_signing_credentials; cbn [work fresh_session]; [done| |].
  2: { intros e. destruct (is_secrets_error e); [apply wp_throw|]; by right. }
  intros ca' cert key Hn' Hcert Hkey. rewrite Hcas in Hn'. assert (ca' = ca) as -> by congruence.
  apply wp_bind, wp_query, wp_bind, wp_lift; cbn [work fresh_session]; [intros others Ho'|intros e _; by right].
  apply own_chain_ok with (ca := ca) in Ho' as (rest & Hw & Hcerts); [|done|by rewrite Hcas].
  apply wp_bind, wp_attempt, wp_lift; [intros bundle Hb|intros e _; destruct e; first [by apply wp_throw; right|eapply wp_mono; [apply Hpage|]; by intros [[]|] s]].
  apply wp_bind, wp_log_row. cbn [work fresh_session]. rewrite Haud. intros from k. set (entry := audit_row _ _ _ _ _). intros Hfree. apply wp_ret.
  destruct (Hh n ca Hn) as [Hcid _].
  exists user, row, ca, cert, entry. split_and!; try done; [|by subst entry; cbn; rewrite Hcid].
  split; try done. exists key, rest, others. split_and!; try done. unfold parent_walk in *. by rewrite <- Hcas.
Qed.
End key_export.

(** *** The inventory as a file *)
Lemma exported_rows_ok q status now db : inventory_ok db → ∃ rows, exported_rows q status now db = Ok rows ∧
  Forall2 (λ r f, certificate_fields r now = Ok f) (inventory_rows q status now db) rows.
Proof.
  intros [_ Hc _]. apply map_each_total. intros r Hr. unfold inventory_rows, normalize_filters, export_certificates in Hr.
  rewrite merge_sort_Permutation, elem_of_rows_where in Hr. destruct Hr as (_ & i & Hi).
  destruct (cert_rows _ Hc i r Hi) as [cert Hd]. destruct (certificate_fields_ok r cert now Hd (cert_revocations _ Hc i r Hi)) as (t & _ & Hf).
  by eexists.
Qed.
(** What a cell of the CSV file shows of a value of the JSON file. *)
Definition cell (j : json) : string :=
  match j with
  | JStr s => s | JInt n => str_of_Z n | JBool b => if b then "true" else "false"
  | JList l => join " " (omap (λ x, match x with JStr s => Some s | _ => None end) l) | _ => ""
  end.
Definition members (j : json) : list (string * json) := match j with JObj l => l | _ => [] end.
Lemma texts_of l : omap (λ x, match x with JStr s => Some s | _ => None end) (map JStr l) = l.
Proof. induction l as [|x l IH]; [done|]. cbn. f_equal. exact IH. Qed.
Lemma row_shows_item f : zip FIELDS (csv_row f) = map (λ m, (m.1, cell m.2)) (members (json_item f)).
Proof.
  unfold csv_row, json_item. cbn [members map fst snd cell FIELDS zip zip_with]. rewrite texts_of.
  by destruct (sm_revoked_at f), (sm_reason f).
Qed.
(** C35: the exported inventory is the inventory.  Any signed-in user gets the
    file, whatever the filters; it never fails; and a reader of CSV finds in it
    the header and then exactly one line for each certificate of the filtered
    inventory, newest first, in which each cell shows, under its header, the
    member of that name of the JSON export of the certificate, whatever commas,
    quotes or line ends the names carry. *)
Theorem inventory_csv_reads_back cookie q status at_ now db r db' : identity_ok db → inventory_ok db →
  request (inventory_csv cookie q status at_ now) db = (r, db') →
  match r with
  | Ok file => (∃ user row, opens cookie at_ db user row ∧ db' = seen at_ row db) ∧
      ∃ text lines, file = encode_utf8 text ∧ parse_csv text = Some (FIELDS :: lines) ∧
        Forall2 (λ r line, ∃ f, certificate_fields r now = Ok f ∧ length line = length FIELDS ∧
            zip FIELDS line = map (λ m, (m.1, cell m.2)) (members (json_item f))) (inventory_rows q status now db) lines
  | Raise e => db' = db ∧ ∀ user row, ¬ opens cookie at_ db user row
  end.
Proof.
  intros Hid Hi Hreq. pattern r, db'. eapply request_wp; [exact Hreq|]. clear r db' Hreq. cbn beta.
  unfold inventory_csv. apply wp_signed_in; [done| |intros H; by split]. intros user row touched Ho.
  destruct (exported_rows_ok q status now (seen at_ row db)) as (rows & Hrows & Hf); [by apply seen_inventory|].
  assert (Hsame : inventory_rows q status now (seen at_ row db) = inventory_rows q status now db).
  { unfold inventory_rows, normalize_filters, export_certificates, seen. by destruct (_ <? _). }
  rewrite Hsame in Hf. apply wp_bind, wp_query, wp_bind. cbn [work fresh_session]. rewrite Hrows. apply wp_lift; [intros rows' [= <-]|done].
  apply wp_ret. split; [by exists user, row|]. exists (write_csv (FIELDS :: map csv_row rows)), (map csv_row rows). split_and!; [done| |].
  - apply csv_roundtrip. constructor; [done|]. apply Forall_forall. by intros line (f & -> & _)%list_elem_of_fmap.
  - apply Forall2_fmap_r. eapply Forall2_impl; [exact Hf|]. intros x f Hx. exists f. split_and!; [done|done|apply row_shows_item].
Qed.
End theorems.

(** ** Two files *)
Module TransferUiExamples.
#[local] Existing Instance Toy.lib.
#[local] Existing Instance toy_secrets.
#[local] Existing Instance toy_crypto.
Import Toy CaExamples CertExamples CrlExamples IdentityExamples DepsExamples WebUiExamples CaPagesExamples.
#[local] Strategy 1000 [signed_in crossed root_logged_in with_nas two_roots request].
#[local] Instance toy_p12 : P12Lib (X := lib) := {|
  P12 := string * @PrivKey lib * @Cert lib * list (@Cert lib) * string;
  serialize_p12 := λ name key cert cas password, Ok (name, key, cert, cas, password) |}.
Definition key_run (n : Z) (password : string) : Outcome KeyExport * DB := request (ca_key_export post n password t2026 t2026) signed_in.
#[local] Strategy 900 [key_run].
Definition exported_with (r : Outcome KeyExport) : option nat :=
  match r with Ok (Exported (_, _, _, others, _)) => Some (length others) | _ => None end.
Definition refused_with (r : Outcome KeyExport) : option string :=
  match r with Ok (ExportRefused (KeyPage _ _ e _ _)) => e | _ => None end.
(** Intermediate 2 leaves with its root, and not with the cross certificate
    its leaves are served with; a cross certificate has no key to export. *)
Lemma ca_key_export_exact_witness :
  exported_with (fst (key_run 2 "long enough")) = Some 1%nat ∧
  refused_with (fst (key_run 2 "short")) = Some "the bundle password must be at least 8 characters" ∧
  refused_with (fst (key_run 5 "long enough")) = Some "CA certificate 5's private key is not available" ∧
  raised (fst (key_run 9 "long enough")) = Some (HTTPException 404 "no CA certificate with id 9" []) ∧
  ∃ ca cert bundle, key_file signed_in 2 "long enough" ca cert bundle.
Proof.
  assert (H : exported_with (fst (key_run 2 "long enough")) = Some 1%nat) by (vm_compute; reflexivity). split; [exact H|].
  split_and!; [vm_compute; reflexivity..|].
  assert (Hr : request (ca_key_export post 2 "long enough" t2026 t2026) signed_in = (fst (key_run 2 "long enough"), snd (key_run 2 "long enough")))
    by exact (surjective_pairing _).
  pose proof (ca_key_export_exact (X:=lib) (SS:=toy_secrets) (CR:=toy_crypto) (P:=toy_p12) post 2 "long enough" t2026 t2026 signed_in _ _
    signed_in_identity signed_in_hierarchy Hr) as Hx.
  destruct (fst (key_run 2 "long enough")) as [[a|bundle]|e]; [discriminate H| |discriminate H].
  destruct Hx as (user & row & ca & cert & entry & _ & Hx & _). exists ca, cert, bundle. exact Hx.
Defined.

(** The inventory with one certificate, and the superadmin signed in. *)
Definition listed : DB := on_certs (λ _, certs with_nas) (on_cas (λ _, cas with_nas) root_logged_in).
#[local] Strategy 900 [listed].
Lemma listed_identity : identity_ok listed.
Proof. refine (identity_same root_logged_in listed _ root_logged_in_ok). by repeat split. Qed.
Lemma listed_inventory : inventory_ok listed.
Proof.
  pose proof with_nas_inventory as [Hh Hc _]. split; [exact (hierarchy_same with_nas listed eq_refl Hh)|exact (certs_ok_same with_nas listed eq_refl eq_refl Hc)|].
  assert (H : forallb (λ x : Z * CertRow, match revoked_at (snd x) with None => true | Some _ => false end) (map_to_list (certs listed)) = true) by (vm_compute; reflexivity).
  intros i r Hi [s Hs]. pose proof (TlsExamples.forallb_rows _ _ H i r Hi) as Hn. cbn [snd] in Hn. rewrite Hs in Hn. discriminate Hn.
Qed.
Definition csv_run : Outcome string * DB := request (inventory_csv (Some "token-7") "" "valid" t2026 t2026) listed.
#[local] Strategy 800 [csv_run].
Definition cells (r : Outcome string) : option (list (list string)) := match r with Ok file => parse_csv file | Raise _ => None end.
Lemma inventory_csv_reads_back_witness :
  cells (fst csv_run) = Some [FIELDS; ["1"; "1e"; "nas.lan"; "DNS:nas IP:192.0.2.7"; "server"; "2025-12-31T23:55:00+00:00"; "2026-04-01T00:00:00+00:00";
    "valid"; "true"; ""; ""]] ∧
  ∃ file text lines, fst csv_run = Ok file ∧ parse_csv text = Some (FIELDS :: lines).
Proof.
  assert (H : is_ok (fst csv_run) = true) by (vm_compute; reflexivity). split; [vm_compute; reflexivity|].
  assert (Hr : request (inventory_csv (Some "token-7") "" "valid" t2026 t2026) listed = (fst csv_run, snd csv_run)) by exact (surjective_pairing _).
  pose proof (inventory_csv_reads_back (X:=lib) (SS:=toy_secrets) (CR:=toy_crypto) (Some "token-7") "" "valid" t2026 t2026 listed _ _
    listed_identity listed_inventory Hr) as Hx.
  destruct (fst csv_run) as [file|e]; [|discriminate H].
  destruct Hx as (_ & text & lines & _ & Ht & _). exists file, text, lines. exact (conj eq_refl Ht).
Defined.
End TransferUiExamples.
