(* ===== verification/AcmeUi.v ===== *)
(** * [cabin.web.acme_ui]: the operator's side of ACME

    The two switches, the keys for external accounts and the addresses to
    hand to a client.  The secret of a key is in one answer only, that of the
    request that minted it.  The texts of a line's dates are left out. *)

From S2P Require Import Url BaseUrl Prelude PyStr PyTime Json IPAddr Numbers X509Lib X509 Leaf Store Settings CaService Grants Identity Certs Crl AuditLog AcmeNames AcmeService Base64 Jws Eab AcmeApi WebDeps WebUi AcmeServer Tls SettingsUi CaPages CertsUi.
#[local] Open Scope Z_scope.

Definition NO_BASE_URL : string := "set a base URL under Settings before enabling the ACME server".
Definition NO_GRANTED_ISSUER : string := "no issuer is granted to you: ask a superadmin to grant one under Users".
Definition KID_PLACEHOLDER : string := "<key id>".
Definition HMAC_PLACEHOLDER : string := "<hmac key>".
Definition DIRECTORY_PLACEHOLDER : string := "<the new key's own directory URL>".

(** ** The page *)
Record IssuerLine := mkIssuerLine { il_id : Z; il_name : string; il_status : CAStatus; il_directory : option string }.
Record EabLine := mkEabLine {
  el_id : string; el_label : string; el_account : option string; el_status : string; el_can_revoke : bool; el_issuer : Z;
  el_issuer_name : string }.
Record AcmePage {X : X509Lib} {SS : SecretStore} := mkAcmePage {
  ap_context : Context_; ap_enabled : bool; ap_require_eab : bool; ap_issuers : list IssuerLine; ap_base_url : string;
  ap_keys : list EabLine; ap_options : list CARow; ap_no_granted : option string; ap_secret : option string;
  ap_secret_key : option string; ap_error : option string; ap_directory : option string; ap_kid : string; ap_hmac : string }.
Arguments mkAcmePage {X SS} _ _ _ _ _ _ _ _ _ _ _ _ _ _.
Inductive AcmeAnswer {X : X509Lib} {SS : SecretStore} := ToAcme | AcmeShown (status : Z) (p : AcmePage).
Arguments AcmeShown {X SS} _ _.

Section acme_ui.
Context {X : X509Lib} {SS : SecretStore} {CR : Crypto}.

(** Active ones first, each group in the order of the ids. *)
Definition issuer_lines (db : DB) : list IssuerLine :=
  let intermediates := list_cas None (Some Intermediate) db in
  let active := λ r, bool_decide (ca_status r = Active) in
  map (λ r, mkIssuerLine (ca_id r) (ca_name r) (ca_status r) (directory_url (ca_id r) db))
    (List.filter active intermediates ++ List.filter (λ r, negb (active r)) intermediates).
Definition text_or (o : option string) (s : string) : string := match o with Some t => if decide (t = "") then s else t | None => s end.
Definition given (o : option string) : bool := match o with Some t => negb (bool_decide (t = "")) | None => false end.
Definition eab_line (names : gmap Z CARow) (row : EabRow) : EabLine :=
  mkEabLine (eab_id row) (eab_label row) (bound_account_id row)
    (if given (eab_revoked_at row) then "revoked" else if given (bound_account_id row) then "bound" else "unused")
    (bool_decide (eab_revoked_at row = None)) (eab_issuer row)
    (default ("#" +:+ id_text (eab_issuer row)) (ca_name <$> names !! eab_issuer row)).
(** [made] is a key just minted, with its secret. *)
Definition acme_form_page (v : Viewer) (enabled require_eab : option bool) (error : option string) (made : option (EabRow * string)) (status : Z)
  : Tx DB AcmeAnswer :=
  keys ← query list_keys;
  names ← query (λ db, by_id (list_cas None (Some Intermediate) db));
  options ← query (λ db, granted_issuers db (user_principal (vw_user v)));
  options ← lift options;
  cx ← context v;
  let secret := snd <$> made in
  let key_id := eab_id ∘ fst <$> made in
  query (λ db, AcmeShown status (mkAcmePage cx (default (get_flag ACME_ENABLED false db) enabled)
    (default (get_flag ACME_REQUIRE_EAB false db) require_eab) (issuer_lines db) (text_setting BASE_URL db) (map (eab_line names) keys) options
    (if nonempty options then None else Some NO_GRANTED_ISSUER) secret key_id error
    (match made with Some (row, _) => directory_url (eab_issuer row) db | None => Some DIRECTORY_PLACEHOLDER end)
    (text_or key_id KID_PLACEHOLDER) (text_or secret HMAC_PLACEHOLDER))).
Definition acme_page (cookie : option string) (seen now : Z) : Tx DB AcmeAnswer :=
  v ← viewer_of cookie seen now;
  _ ← lift (require_admin (vw_user v));
  acme_form_page v None None None None 200.

(** ** The forms *)
Definition switches (wants_acme wants_eab : bool) : list Entry_ :=
  [(ACME_ENABLED, flag_setting ACME_ENABLED false, flag_text wants_acme);
   (ACME_REQUIRE_EAB, flag_setting ACME_REQUIRE_EAB false, flag_text wants_eab)].
Definition acme_settings (q : Post) (acme_enabled acme_require_eab : string) (now : Z) : Tx DB AcmeAnswer :=
  v ← certs_guard q now;
  let wants_acme := ticked acme_enabled in
  let wants_eab := ticked acme_require_eab in
  base ← query (text_setting BASE_URL);
  if wants_acme && bool_decide (base = "") then acme_form_page v (Some wants_acme) (Some wants_eab) (Some NO_BASE_URL) None 400 else
  _ ← tx_for (save_entry q (user_actor (vw_user v))) (switches wants_acme wants_eab);
  mret ToAcme.
Definition eab_target (row : EabRow) : option (string * option string) := Some ("acme_eab_key", Some (eab_id row)).
Definition minted_summary (row : EabRow) : string := "created ACME external account key " +:+ py_repr (eab_label row).
Definition minted_detail (row : EabRow) (issuer : Z) : gmap string json :=
  <["key_id" := JStr (eab_id row)]> (<["label" := JStr (eab_label row)]> {["issuer_id" := JInt issuer]}).
Definition gone_summary (row : EabRow) : string := "revoked ACME external account key " +:+ py_repr (eab_label row).
Definition gone_detail (row : EabRow) : gmap string json := <["key_id" := JStr (eab_id row)]> {["label" := JStr (eab_label row)]}.
(** What a key is minted from: the random bytes of its secret, and the draws
    for its id and for sealing it. *)
Record Mint := mkMint { mt_secret : string; mt_id : Z; mt_nonce : Z; mt_now : Z }.
Definition create_eab_key (q : Post) (the_label : string) (issuer_id : Z) (d : Mint) (now : Z) : Tx DB AcmeAnswer :=
  v ← certs_guard q now;
  r ← WebUi.attempt (resolve_granted_issuer (user_principal (vw_user v)) (Some issuer_id));
  match r with
  | Raise (IssuerForbiddenError m) | Raise (NoGrantedIssuerError m) => acme_form_page v None None (Some m) None 403
  | Raise (UnknownIssuerError m) | Raise (IssuerRetiredError m) => acme_form_page v None None (Some m) None 400
  | Raise e => mthrow e
  | Ok issuer =>
      '(row, secret) ← create_key the_label (ca_id issuer) (mt_secret d) (mt_id d) (mt_nonce d) (mt_now d);
      _ ← log q (user_actor (vw_user v)) a_acme_eab_key_created (minted_summary row) (eab_target row) (Some (minted_detail row (ca_id issuer))) (po_logged q);
      acme_form_page v None None None (Some (row, secret)) 200
  end.
Definition revoke_eab_key (q : Post) (key_id : string) (revoked now : Z) : Tx DB AcmeAnswer :=
  v ← certs_guard q now;
  row ← query (get_key key_id);
  done_ ← revoke_key row revoked;
  _ ← (match done_ : bool, row with
       | true, Some row =>
           _ ← log q (user_actor (vw_user v)) a_acme_eab_key_revoked (gone_summary row) (eab_target row) (Some (gone_detail row)) (po_logged q);
           set_flash (vw_row v) (gone_summary row)
       | _, _ => mret ()
       end);
  mret ToAcme.
End acme_ui.

(** ** Correctness *)
Section theorems.
Context {X : X509Lib} {SS : SecretStore} {CR : Crypto}.

Lemma switches_ok a b : Forall entry_ok (switches a b) ∧ NoDup (map key_of (switches a b)).
Proof.
  split; [|by_decide]. assert (H : ∀ k v, entry_ok (k, flag_setting k false, flag_text v)); [|repeat constructor; apply H].
  intros k v. split; unfold flag_setting, get_flag, get_setting, current_of, key_of, value_of; cbn; [by intros d d' ->|intros d ->]. by destruct v.
Qed.
Inductive AcmeForm := form_switches (enabled eab : string) | form_mint (the_label : string) (issuer : Z) | form_revoke_key (key_id : string).
Definition acme_route (q : Post) (f : AcmeForm) (d : Mint) (at_ now : Z) : Tx DB AcmeAnswer :=
  match f with
  | form_switches a e => acme_settings q a e now
  | form_mint l n => create_eab_key q l n d now
  | form_revoke_key k => revoke_eab_key q k at_ now
  end.
(** The form again, with the reason and no secret. *)
Definition refused_page (a : AcmeAnswer) : Prop :=
  match a with AcmeShown n p => (n = 400 ∨ n = 403) ∧ is_Some (ap_error p) ∧ ap_secret p = None | ToAcme => False end.
Definition new_key (the_label : string) (n : Z) (d : Mint) : EabRow :=
  mkEab (token_urlsafe (mt_id d)) (seal (mt_nonce d) (PlainBytes (mt_secret d))) (str_take EAB_MAX_LABEL_LENGTH (strip the_label))
    (iso (mt_now d)) None None None n.
(** What the form did to [db]. *)
Definition acme_did (f : AcmeForm) (m : Mint) (at_ : Z) (user : UserRow) (row : SessionRow) (db : DB) (a : AcmeAnswer) (db' : DB) : Prop :=
  match f with
  | form_switches enabled eab => a = ToAcme ∧ saved (user_actor user) (switches (ticked enabled) (ticked eab)) db db' ∧
      (ticked enabled = true → text_setting BASE_URL db ≠ "")
  | form_mint l n => ∃ issuer p entry, a = AcmeShown 200 p ∧ cas db !! n = Some issuer ∧ is_active_issuer issuer = true ∧
      permitted_use db (user_principal user) n ∧ eab_keys db !! eab_id (new_key l n m) = None ∧
      ap_secret p = Some (b64encode (mt_secret m)) ∧ ap_secret_key p = Some (eab_id (new_key l n m)) ∧
      ap_directory p = directory_url n db ∧
      log_entry (user_actor user) a_acme_eab_key_created (minted_summary (new_key l n m)) entry ∧
      aud_detail entry = Some (minted_detail (new_key l n m) n) ∧ audit_events db !! aud_id entry = None ∧
      db' = popped row (with_entry entry (on_eab_keys (λ t, <[eab_id (new_key l n m) := new_key l n m]> t) db))
  | form_revoke_key k => a = ToAcme ∧
      ((db' = db ∧ ∀ key, eab_keys db !! k = Some key → is_Some (eab_revoked_at key)) ∨
       ∃ key entry, eab_keys db !! k = Some key ∧ eab_revoked_at key = None ∧
         log_entry (user_actor user) a_acme_eab_key_revoked (gone_summary key) entry ∧ audit_events db !! aud_id entry = None ∧
         db' = told row (gone_summary key) (with_entry entry (on_eab_keys (alter (with_revoked (iso at_)) k) db)))
  end.

Lemma wp_acme_page user row now en eab error made status db (Q : Outcome AcmeAnswer → Session DB → Prop) : hierarchy_ok db →
  is_Some (sessions db !! session_hash row) →
  (∀ p, ap_error p = error → ap_secret p = snd <$> made → ap_secret_key p = eab_id ∘ fst <$> made →
     (∀ k s, made = Some (k, s) → ap_directory p = directory_url (eab_issuer k) db) →
     Q (Ok (AcmeShown status p)) (fresh_session (popped row db))) →
  wp (acme_form_page (mkViewer user row now) en eab error made status) (fresh_session db) Q.
Proof.
  intros Hh Hs HQ. unfold acme_form_page, context, base_context. apply wp_bind, wp_query, wp_bind, wp_query, wp_bind, wp_query.
  destruct (granted_issuers_ok db (user_principal user) Hh) as (l & Hl & _). cbn [work fresh_session vw_user]. rewrite Hl.
  apply wp_bind, wp_lift; [intros options [= <-]|done]. apply wp_bind, wp_bind, wp_pop_flash; [done|]. apply wp_bind, wp_query, wp_ret, wp_query.
  cbn [work fresh_session]. apply HQ; try done. intros k s ->. cbn [ap_directory].
  cbn [vw_row]. unfold directory_url, popped. by destruct (flash row).
Qed.
Lemma wp_create_key l n m db (Q : Outcome (EabRow * string) → Session DB → Prop) :
  (eab_keys db !! eab_id (new_key l n m) = None →
     Q (Ok (new_key l n m, b64encode (mt_secret m))) (fresh_session (on_eab_keys (λ t, <[eab_id (new_key l n m) := new_key l n m]> t) db))) →
  (∀ e, Q (Raise e) (fresh_session db)) → wp (create_key l n (mt_secret m) (mt_id m) (mt_nonce m) (mt_now m)) (fresh_session db) Q.
Proof.
  intros HQ Hno. unfold create_key, add_eab, fresh_session. wp_run; try apply Hno. apply HQ.
  match goal with H : bool_decide (is_Some _) = false |- _ => by apply bool_decide_eq_false, eq_None_not_Some in H end.
Qed.
Definition acme_verdict (q : Post) (f : AcmeForm) (m : Mint) (at_ : Z) (db : DB) (r : Outcome AcmeAnswer) (db' : DB) : Prop :=
  (∃ e, r = Raise e ∧ form_refused ADMIN_ROLES (po_cookie q) (po_csrf q) (po_seen q) db e db') ∨
  ∃ user row, opens (po_cookie q) (po_seen q) db user row ∧ user_role user ∈ ADMIN_ROLES ∧ po_csrf q = Some (csrf_token row) ∧
    let d := seen (po_seen q) row db in let row' := seen_row (po_seen q) row in
    (∃ a, r = Ok a ∧ refused_page a ∧ db' = popped row' d) ∨ (∃ e, r = Raise e ∧ db' = d) ∨
    ∃ a, r = Ok a ∧ acme_did f m at_ user row' d a db'.
Section forms.
Context (q : Post) (m : Mint) (at_ now : Z) (user : UserRow) (row : SessionRow) (db : DB).
Context (Hh : hierarchy_ok db) (He : eabs_ok db) (Hs : is_Some (sessions db !! session_hash row)).
#[local] Abbreviation v := (mkViewer user row now).
#[local] Abbreviation ends f := (λ r s, (∃ a, r = Ok a ∧ refused_page a ∧ durable s = popped row db) ∨ (∃ e, r = Raise e ∧ durable s = db) ∨
  ∃ a, r = Ok a ∧ acme_did f m at_ user row db a (durable s)).
Lemma acme_refused f en eab error status : status = 400 ∨ status = 403 →
  wp (acme_form_page v en eab (Some error) None status) (fresh_session db) (ends f).
Proof using Hh Hs.
  intros Hst. apply wp_acme_page; [done..|]. intros p Hp Hsec _ _. left. eexists. split; [done|]. split; [|done].
  split_and!; [done|by rewrite Hp|done].
Qed.
Lemma acme_raised f e : ends f (Raise e) (fresh_session db).
Proof. right. left. by exists e. Qed.
Lemma wp_switches enabled eab :
  wp (base ← query (text_setting BASE_URL);
      if ticked enabled && bool_decide (base = "") then acme_form_page v (Some (ticked enabled)) (Some (ticked eab)) (Some NO_BASE_URL) None 400 else
      _ ← tx_for (save_entry q (user_actor user)) (switches (ticked enabled) (ticked eab));
      mret ToAcme) (fresh_session db) (ends (form_switches enabled eab)).
Proof using Hh Hs.
  apply wp_bind, wp_query. cbn [work fresh_session]. destruct (ticked enabled && _) eqn:E; [apply acme_refused; auto|].
  destruct (switches_ok (ticked enabled) (ticked eab)) as [H1 H2]. apply wp_bind, wp_save_entries; [done..|]. intros d' Hsv. apply wp_ret.
  right. right. exists ToAcme. split; [done|]. split_and!; [done|done|]. intros Ht. rewrite Ht in E. by apply bool_decide_eq_false in E.
Qed.
Lemma wp_minted l n :
  wp (r ← WebUi.attempt (resolve_granted_issuer (user_principal user) (Some n));
      match r with
      | Raise (IssuerForbiddenError m) | Raise (NoGrantedIssuerError m) => acme_form_page v None None (Some m) None 403
      | Raise (UnknownIssuerError m) | Raise (IssuerRetiredError m) => acme_form_page v None None (Some m) None 400
      | Raise e => mthrow e
      | Ok issuer =>
          '(key, secret) ← create_key l (ca_id issuer) (mt_secret m) (mt_id m) (mt_nonce m) (mt_now m);
          _ ← log q (user_actor user) a_acme_eab_key_created (minted_summary key) (eab_target key) (Some (minted_detail key (ca_id issuer))) (po_logged q);
          acme_form_page v None None None (Some (key, secret)) 200
      end) (fresh_session db) (ends (form_mint l n)).
Proof using Hh Hs.
  apply wp_bind, wp_attempt, wp_resolve_granted; [done| |].
  2: { intros e. destruct e; first [apply acme_refused; by auto|by apply wp_throw, acme_raised]. }
  cbn [work fresh_session]. intros issuer Hc Hact Hperm Hn. specialize (Hn n eq_refl). rewrite Hn in *.
  apply wp_bind, wp_create_key; [|intros e; apply acme_raised]. intros Hfree. set (d1 := on_eab_keys _ db).
  apply wp_bind, wp_log_row. cbn [work fresh_session]. intros from k. set (entry := audit_row _ _ _ _ _). intros Hfa.
  apply wp_acme_page; [by apply (hierarchy_same db)|done|]. intros p _ Hsec Hid Hdir. right. right. eexists. split; [done|].
  exists issuer, p, entry. split_and!; try done. by rewrite (Hdir _ _ eq_refl).
Qed.
Lemma wp_gone k :
  wp (key ← query (get_key k);
      done_ ← revoke_key key at_;
      _ ← (match done_ : bool, key with
           | true, Some key =>
               _ ← log q (user_actor user) a_acme_eab_key_revoked (gone_summary key) (eab_target key) (Some (gone_detail key)) (po_logged q);
               set_flash row (gone_summary key)
           | _, _ => mret ()
           end);
      mret ToAcme) (fresh_session db) (ends (form_revoke_key k)).
Proof using He Hs.
  apply wp_bind, wp_query. unfold get_key. cbn [work fresh_session].
  assert (Hidle : ∀ s : Session DB, durable s = db → (∀ key, eab_keys db !! k = Some key → is_Some (eab_revoked_at key)) →
    ends (form_revoke_key k) (Ok ToAcme) s).
  { intros s Hd Hk. right. right. exists ToAcme. split; [done|]. split; [done|]. by left. }
  destruct (eab_keys db !! k) as [key|] eqn:Hk; [|apply wp_bind, wp_ret, wp_bind, wp_ret, wp_ret, Hidle; by rewrite ?Hk].
  pose proof (eab_named _ He _ _ Hk) as Hid. unfold revoke_key. rewrite Hid. destruct (bool_decide (is_Some (eab_revoked_at key))) eqn:Hrev.
  { apply bool_decide_eq_true in Hrev. apply wp_bind, wp_ret, wp_bind, wp_ret, wp_ret, Hidle; [done|]. by intros ? [= <-]. }
  apply bool_decide_eq_false, eq_None_not_Some in Hrev. apply wp_bind, wp_bind, wp_query. cbn [work fresh_session]. rewrite Hk.
  apply wp_bind, wp_raise_if; [by intros Hx%bool_decide_eq_true|]. intros _. apply wp_bind, wp_modify, wp_bind, wp_commit, wp_ret.
  apply wp_bind, wp_bind, wp_log_row. cbn [work]. intros from x. set (entry := audit_row _ _ _ _ _). intros Hfa.
  apply wp_set_flash; [done|]. apply wp_ret. right. right. exists ToAcme. split; [done|]. split; [done|]. right. by exists key, entry.
Qed.
End forms.

(** The ACME page's forms.  Only an admin's session with its own token
    reaches a handler.  ACME is switched on only with a base URL, and exactly
    the switches that change are written, each with one event.  A key is minted
    for an active issuer granted to the admin and for no other: it is stored
    sealed, its secret is on the page of this very answer and nowhere else, and
    the event names the key without it.  Revoking is done once, with one event;
    for an unknown or a revoked key it is nothing.  What is turned down is the
    page with the reason, and changes nothing but the message it shows. *)
Theorem acme_forms_exact q f m at_ now db r db' : identity_ok db → hierarchy_ok db → eabs_ok db →
  request (acme_route q f m at_ now) db = (r, db') → acme_verdict q f m at_ db r db'.
Proof.
  intros Hid Hh He Hreq. pattern r, db'. eapply request_wp; [exact Hreq|]. clear r db' Hreq. cbn beta.
  assert (Hg : ∀ k : Viewer → Tx DB AcmeAnswer,
    (∀ user row d0, hierarchy_ok d0 → eabs_ok d0 → is_Some (sessions d0 !! session_hash row) →
       wp (k (mkViewer user row now)) (fresh_session d0) (λ r s, (∃ a, r = Ok a ∧ refused_page a ∧ durable s = popped row d0) ∨
         (∃ e, r = Raise e ∧ durable s = d0) ∨ ∃ a, r = Ok a ∧ acme_did f m at_ user row d0 a (durable s))) →
    wp (v ← certs_guard q now; k v) (fresh_session db) (λ r s, acme_verdict q f m at_ db r (durable s))).
  { intros k Hk. apply wp_bind. unfold certs_guard. apply wp_bind, wp_ui_guard; [done| |intros e d0 Hr; left; by exists e].
    intros user row Ho Hr Hc. apply wp_ret. eapply wp_mono; [apply Hk|].
    - apply (hierarchy_same db); [apply seen_users|done].
    - eapply eab_same; [|done]. unfold seen. by destruct (_ <? _).
    - eexists. by eapply seen_stored.
    - intros r s Hx. right. exists user, row. by split_and!. }
  destruct f; cbn [acme_route]; apply Hg; intros; [by apply wp_switches|by apply wp_minted|by apply wp_gone].
Qed.
End theorems.

(** ** A key is minted, shown once and revoked once *)
Module AcmeUiExamples.
#[local] Existing Instance Toy.lib.
#[local] Existing Instance toy_secrets.
#[local] Existing Instance toy_crypto.
Import Toy CaExamples IdentityExamples DepsExamples WebUiExamples CaPagesExamples.
#[local] Strategy 1000 [signed_in crossed root_logged_in request].
Definition draws : Mint := mkMint "secret" 500 7 t2026.
Definition sent (f : AcmeForm) (db : DB) : Outcome AcmeAnswer * DB := request (acme_route post f draws t2026 t2026) db.
Definition minted_run : Outcome AcmeAnswer * DB := sent (form_mint " laptop " 3) signed_in.
#[local] Strategy 900 [sent].
#[local] Strategy 800 [minted_run].
Definition status_of (r : Outcome AcmeAnswer) : option Z := match r with Ok (AcmeShown n _) => Some n | _ => None end.
Definition secret_of (r : Outcome AcmeAnswer) : option string := match r with Ok (AcmeShown _ p) => ap_secret p | _ => None end.
Definition events (db : DB) : nat := size (audit_events db).
Lemma signed_in_eabs : eabs_ok signed_in.
Proof.
  assert (H : Nat.eqb (size (eab_keys signed_in)) 0 = true) by (vm_compute; reflexivity). apply Nat.eqb_eq, map_size_empty_iff in H.
  split; intros *; rewrite H; intros Hk; inversion Hk.
Qed.
Lemma acme_forms_exact_witness :
  secret_of (fst minted_run) = Some (b64encode "secret") ∧
  status_of (fst (sent (form_mint "laptop" 1) signed_in)) = Some 400 ∧
  status_of (fst (sent (form_switches "on" "") signed_in)) = Some 400 ∧
  Nat.eqb (events (snd (sent (form_revoke_key "token-500") (snd minted_run)))) (S (events (snd minted_run))) = true ∧
  Nat.eqb (events (snd (sent (form_revoke_key "token-500") (snd (sent (form_revoke_key "token-500") (snd minted_run)))))) (S (events (snd minted_run))) = true ∧
  Nat.eqb (events (snd (sent (form_switches "" "on") signed_in))) (S (events signed_in)) = true ∧
  ∃ user row a, acme_did (form_mint " laptop " 3) draws t2026 user (seen_row t2026 row) (seen t2026 row signed_in) a (snd minted_run).
Proof.
  assert (H : secret_of (fst minted_run) = Some (b64encode "secret")) by (vm_compute; reflexivity). split; [exact H|].
  split_and!; [vm_compute; reflexivity..|].
  assert (Hr : request (acme_route post (form_mint " laptop " 3) draws t2026 t2026) signed_in = (fst minted_run, snd minted_run))
    by exact (surjective_pairing _).
  destruct (acme_forms_exact (X:=lib) (SS:=toy_secrets) (CR:=toy_crypto) post (form_mint " laptop " 3) draws t2026 t2026 signed_in
    _ _ signed_in_identity signed_in_hierarchy signed_in_eabs Hr) as [(e & He & _)|(user & row & Ho & _ & _ & [(a & Ha & Hp & _)|[(e & He & _)|(a & Ha & Hd)]])].
  - rewrite He in H. discriminate H.
  - destruct (fst minted_run) as [[|n p]|e]; [discriminate H| |discriminate H]. injection Ha as <-. destruct Hp as (_ & _ & Hp). cbn in H. rewrite Hp in H. discriminate H.
  - rewrite He in H. discriminate H.
  - exists user, row, a. exact Hd.
Defined.
End AcmeUiExamples.
