(* ===== verification/AuditUi.v ===== *)
(** * [cabin.web.audit_ui]: the log viewer

    One page of the log, newest first, with its filters and its pager; the
    texts of dates and the links' query strings are left out. *)

From S2P Require Import Prelude PyStr PyTime Json IPAddr X509Lib X509 Leaf Store Settings CaService Grants Identity Certs Crl AuditLog WebDeps WebUi Csv RestApi CaPages CertsUi TransferUi.
#[local] Open Scope Z_scope.

Definition ACTIONS : list AuditAction :=
  [a_login_success; a_login_failed; a_logout; a_user_created; a_user_role_changed; a_user_password_reset; a_user_deleted; a_ca_created;
   a_ca_imported; a_ca_renewed; a_ca_retired; a_ca_cross_signed; a_ca_cross_imported; a_ca_key_exported; a_settings_changed; a_cert_issued;
   a_cert_signed; a_cert_revoked; a_token_created; a_token_revoked; a_user_issuers_changed; a_token_issuers_changed; a_acme_account_created;
   a_acme_account_deactivated; a_acme_order_created; a_acme_challenge_validated; a_acme_challenge_failed; a_acme_certificate_issued;
   a_acme_certificate_revoked; a_acme_eab_key_created; a_acme_eab_key_revoked; a_tls_certificate_issued; a_tls_certificate_failed].
Definition ACTION_FILTERS : list string := "all" :: map action_text ACTIONS.
Definition ACTOR_KIND_FILTERS : list string := "all" :: map AuditLog.kind_text [k_user; k_token; k_system; k_acme].

Record EventLine := mkEventLine {
  ev_at : Z; ev_kind : ActorKind; ev_label : string; ev_action : AuditAction; ev_summary : string; ev_ip : string;
  ev_cert : option string }.
Record AuditPage := mkAuditPage {
  au_context : Context_; au_lines : list EventLine; au_query : string; au_action : string; au_kind : string; au_page : Z; au_pages : Z;
  au_total : nat; au_prev : option Z; au_next : option Z }.

Section audit_ui.
Context {X : X509Lib} {SS : SecretStore} {CR : Crypto}.

Definition event_line (e : AuditRow) : Outcome EventLine :=
  at_ ← fromisoformat (occurred_at e);
  mret (mkEventLine at_ (actor_kind e) (actor_label e) (aud_action e) (aud_summary e) (default "" (aud_ip e))
    (if decide (target_type e = Some "certificate") then target_id e else None)).
(** A filter that is none is "all". *)
Definition known_filter (choice : string) (l : list string) : string := if decide (choice ∈ l) then choice else "all".
Definition audit_page (cookie : option string) (q action actor : string) (page seen now : Z) : Tx DB AuditPage :=
  v ← viewer_of cookie seen now;
  let term := str_take AUDIT_MAX_QUERY_LENGTH (strip q) in
  let active_action := known_filter action ACTION_FILTERS in
  let active_kind := known_filter actor ACTOR_KIND_FILTERS in
  let page := Z.max page 1 in
  '(rows, total) ← query (list_events term active_action active_kind page AUDIT_PER_PAGE);
  let pages := Z.max 1 ((Z.of_nat total + Z.of_nat AUDIT_PER_PAGE - 1) / Z.of_nat AUDIT_PER_PAGE) in
  cx ← context v;
  lines ← lift (map_each event_line rows);
  mret (mkAuditPage cx lines term active_action active_kind (Z.min page pages) pages total
    (if 1 <? page then Some (Z.min (page - 1) pages) else None) (if page <? pages then Some (page + 1) else None)).

(** ** Correctness *)
(** Every action there is can be chosen, and known to the form. *)
Lemma every_action a : a ∈ ACTIONS.
Proof. apply list_elem_of_In. by destruct a; repeat (left; done) || right. Qed.
Lemma every_filter a : known_filter (action_text a) ACTION_FILTERS = action_text a.
Proof. unfold known_filter. rewrite decide_True; [done|]. right. apply list_elem_of_fmap_2, every_action. Qed.
(** [record] is the only writer, and it writes a date. *)
Definition events_dated (db : DB) : Prop := ∀ i e, audit_events db !! i = Some e → ∃ t, fromisoformat (occurred_at e) = Ok t.
Definition matching (q action actor : string) (db : DB) : list AuditRow :=
  merge_sort latest_first (rows_where (audit_events db) (audit_filters (str_take AUDIT_MAX_QUERY_LENGTH (strip q))
    (known_filter action ACTION_FILTERS) (known_filter actor ACTOR_KIND_FILTERS))).
(** The rows of a page, and those behind it. *)
Definition on_page (page : Z) (l : list AuditRow) : list AuditRow := take AUDIT_PER_PAGE (drop (Z.to_nat (page - 1) * AUDIT_PER_PAGE) l).
Definition after_page (page : Z) (l : list AuditRow) : list AuditRow := drop (Z.to_nat page * AUDIT_PER_PAGE) l.
(** The log can be read to its end.  Any signed-in user is answered, whatever
    the filters; a page in range shows its fifty of the matching events, newest
    first, each as it was recorded; it links to a next page exactly while
    events are left behind it, and what that page shows begins with them. *)
Theorem log_read_to_its_end cookie q action actor page at_ now db r db' : identity_ok db → events_dated db → 1 ≤ page ≤ AUDIT_MAX_PAGE →
  request (audit_page cookie q action actor page at_ now) db = (r, db') →
  match r with
  | Ok p => (∃ user row, opens cookie at_ db user row) ∧ let all := matching q action actor db in
      Forall2 (λ e line, event_line e = Ok line) (on_page page all) (au_lines p) ∧ au_total p = length all ∧
      au_next p = (if decide (after_page page all = []) then None else Some (page + 1)) ∧
      on_page (page + 1) all = take AUDIT_PER_PAGE (after_page page all)
  | Raise e => db' = db ∧ ∀ user row, ¬ opens cookie at_ db user row
  end.
Proof.
  intros Hid Hdated Hpage Hreq. pattern r, db'. eapply request_wp; [exact Hreq|]. clear r db' Hreq. cbn beta.
  unfold audit_page, viewer_of. apply wp_bind, wp_signed_in; [done| |intros H; by split].
  intros user row touched Ho. apply wp_ret. set (d := seen at_ row db).
  assert (Haud : audit_events d = audit_events db) by apply seen_users.
  assert (Hp1 : Z.max page 1 = page) by lia. assert (Hp2 : Z.min page AUDIT_MAX_PAGE = page) by (apply Z.min_l; lia).
  unfold list_events. cbv zeta. rewrite !Hp1, Hp2.
  apply wp_bind, wp_query. cbn [work fresh_session]. rewrite Haud. cbv zeta.
  change (merge_sort latest_first _) with (matching q action actor db). set (all := matching q action actor db).
  assert (Hlen : length (rows_where (audit_events db) (audit_filters (str_take AUDIT_MAX_QUERY_LENGTH (strip q))
    (known_filter action ACTION_FILTERS) (known_filter actor ACTOR_KIND_FILTERS))) = length all)
    by (unfold all, matching; by rewrite merge_sort_Permutation).
  rewrite Hlen. unfold context, base_context. apply wp_bind, wp_bind, wp_pop_flash; [eexists; by eapply seen_stored|].
  apply wp_bind, wp_query, wp_ret.
  assert (Hoff : Z.to_nat ((page - 1) * Z.of_nat AUDIT_PER_PAGE) = (Z.to_nat (page - 1) * AUDIT_PER_PAGE)%nat) by (unfold AUDIT_PER_PAGE; lia). rewrite Hoff.
  destruct (map_each_total event_line (λ e line, event_line e = Ok line) (on_page page all)) as (lines & Hl & Hlines).
  { intros e He. assert (Hin : e ∈ all) by (unfold on_page in He; eapply elem_of_sublist; [exact He|]; etrans; [apply sublist_take|apply sublist_drop]).
    unfold all, matching in Hin. rewrite merge_sort_Permutation, elem_of_rows_where in Hin. destruct Hin as (_ & i & Hi).
    destruct (Hdated i e Hi) as [t Ht]. unfold event_line. rewrite Ht. by eexists. }
  fold (on_page page all). rewrite Hl. apply wp_bind, wp_lift; [intros ? [= <-]|done]. apply wp_ret.
  split; [by exists user, row|]. cbn [au_lines au_total au_next]. split_and!; [done|done| |].
  - unfold after_page. assert (Hnil : drop (Z.to_nat page * AUDIT_PER_PAGE) all = [] ↔ (length all ≤ Z.to_nat page * AUDIT_PER_PAGE)%nat).
    { rewrite <- length_zero_iff_nil, length_drop. lia. }
    assert (Hpages : page < Z.max 1 ((Z.of_nat (length all) + Z.of_nat AUDIT_PER_PAGE - 1) / Z.of_nat AUDIT_PER_PAGE) ↔
      ¬ (length all ≤ Z.to_nat page * AUDIT_PER_PAGE)%nat).
    { unfold AUDIT_PER_PAGE. Z.to_euclidean_division_equations. lia. }
    destruct (Z.ltb_spec page (Z.max 1 ((Z.of_nat (length all) + Z.of_nat AUDIT_PER_PAGE - 1) / Z.of_nat AUDIT_PER_PAGE))) as [Hlt|Hge].
    + rewrite decide_False; [done|]. intros E%Hnil. by apply Hpages in Hlt.
    + rewrite decide_True; [done|]. apply Hnil, dec_stable. intros Hn%Hpages. lia.
  - unfold on_page, after_page. do 2 f_equal. unfold AUDIT_PER_PAGE. lia.
Qed.
End audit_ui.

(** ** A page of the log *)
Module AuditUiExamples.
#[local] Existing Instance Toy.lib.
#[local] Existing Instance toy_secrets.
#[local] Existing Instance toy_crypto.
Import Toy CaExamples IdentityExamples DepsExamples WebUiExamples CaPagesExamples CertsUiExamples.
#[local] Strategy 1000 [signed_in crossed root_logged_in request issued_run].
Definition viewed (q : string) : Outcome AuditPage := fst (request (audit_page (Some "token-7") q "nonsense" "user" 1 t2026 t2026) (snd issued_run)).
(** An unknown filter shows everything; the search is in the summaries too. *)
Example log_page :
  (match viewed "NAS" with Ok p => Some (map ev_summary (au_lines p), map ev_cert (au_lines p), au_next p) | Raise _ => None end) =
    Some (["issued certificate for 'nas.lan'"], [Some "1"], None).
Proof. vm_compute. reflexivity. Qed.
End AuditUiExamples.
