(* ===== verification/Dashboard.v ===== *)
(** * The dashboard, the pages before sign-in and the notes about TLS
    ([cabin.web.ui], and [_tls_self_signed] of [cabin.web.ca_ui])

    The tiles of [GET /], with every clock the page reads as an argument of its
    own, the empty setup and sign-in pages, and which certificate of cabin's
    own a page tells its reader about.  Rendering is left out. *)

From S2P Require Import Prelude PyStr PyTime Json IPAddr X509Lib X509 Leaf Store Settings CaService Grants Identity Certs Crl AuditLog WebDeps WebUi Tls AcmeServer SettingsUi CaPages CertsUi RestApi TransferUi AuditUi.
#[local] Open Scope Z_scope.

Definition EXPIRING_SHOWN : nat := 10.
Definition RECENT_EVENTS : nat := 5.
Definition days_until (moment now : Z) : Z := (moment - now) / day.

(** What the clock says each time the page reads it: [ck_page] is the one that
    is taken for every figure, [ck_menu] is read by [base_context], [ck_chain]
    by the choice of a chain, and [ck_row] for each certificate listed. *)
Record Clocks := mkClocks { ck_page : Z; ck_menu : Z; ck_chain : Z; ck_row : nat → Z }.
Record Banner := mkBanner { bn_mode : TlsMode; bn_root_cer : option string }.
Record CrlState := mkCrlState { cs_number : Z; cs_generated : string; cs_next_update : string; cs_stale : bool }.
Record CrlLine := mkCrlLine { cl_issuer : string; cl_state : option CrlState; cl_url : option string }.
Record ExpiringLine := mkExpiringLine { xl_id : Z; xl_cn : string; xl_sans : nat; xl_not_after : string; xl_days : Z }.
Record RecentEvent := mkRecentEvent { re_at : string; re_actor : string; re_action : AuditAction; re_summary : string }.
Record Services := mkServices { svc_base_url : string; svc_acme : bool; svc_mcp : bool }.
Record Body {X : X509Lib} {SS : SecretStore} := mkBody {
  bd_no_issuer : list CARow; bd_expiring : list ExpiringLine; bd_more : bool; bd_counts : list (string * nat);
  bd_authorities : list (CAExpiry * list CAExpiry); bd_crls : list CrlLine; bd_events : list RecentEvent; bd_services : option Services }.
Arguments mkBody {X SS} _ _ _ _ _ _ _ _.
Record DashboardPage {X : X509Lib} {SS : SecretStore} := mkDashboard { da_context : Context_; da_banner : option Banner; da_body : option Body }.
Arguments mkDashboard {X SS} _ _ _.
(** [_anon_context] *)
Record AnonPage := mkAnonPage { an_error : option string; an_tls_self_signed : bool }.

Section dashboard.
Context {X : X509Lib} {SS : SecretStore} {CR : Crypto}.

(** [app.state.tls] is [None] with TLS off. *)
Definition tls_mode (tls : option Manager) : option TlsMode := tls ≫= mode.
Definition tls_self_signed (tls : option Manager) : bool := bool_decide (tls_mode tls = Some Tls.self_signed).
Definition anon_context (tls : option Manager) (error : option string) : AnonPage := mkAnonPage error (tls_self_signed tls).
Definition setup_form (tls : option Manager) : Tx DB AnonPage :=
  n ← query count_users;
  _ ← raise_if (bool_decide (0 < n)%nat) not_found;
  mret (anon_context tls None).
Definition login_form (tls : option Manager) : Tx DB AnonPage :=
  _ ← redirect_if_no_users;
  mret (anon_context tls None).

Definition system_cert (db : DB) : option CertRow := last (rows_where (certs db) (λ r, bool_decide (crt_source r = system))).
Definition tls_banner (tls : option Manager) (now : Z) (db : DB) : Outcome (option Banner) :=
  match tls_mode tls with
  | None => mret None
  | Some Tls.self_signed => mret (Some (mkBanner Tls.self_signed None))
  | Some ca_issued =>
      match system_cert db with
      | None => mret (Some (mkBanner ca_issued None))
      | Some row =>
          s ← chains_for db (crt_issuer row) now;
          c ← CaService.self_signed s;
          n ← of_option (anchor_id c) (AssertionError "");
          mret (Some (mkBanner ca_issued (Some ("/ca/" +:+ id_text n +:+ ".cer"))))
      end
  end.

Definition crl_state (now : Z) (s : CrlRow) : CrlState :=
  mkCrlState (crl_number s) (iso (generated_at s)) (iso (state_next_update s)) (state_next_update s <=? now).
Definition crl_line (db : DB) (now : Z) (row : CARow) : Outcome CrlLine :=
  url ← distribution_url (ca_id row) db;
  mret (mkCrlLine (ca_name row) (crl_state now <$> stored_crl (ca_id row) db) url).
Definition expiring_line (c : Clocks) (x : nat * CertRow) : Outcome ExpiringLine :=
  let '(i, row) := x in
  not_after ← not_after_dt row;
  mret (mkExpiringLine (crt_id row) (subject_cn row) (length (crt_sans row)) (crt_not_after row) (days_until not_after (ck_row c i))).
Definition recent_event (e : AuditRow) : RecentEvent := mkRecentEvent (occurred_at e) (actor_label e) (aud_action e) (aud_summary e).
Definition services (db : DB) : Services :=
  mkServices (text_setting BASE_URL db) (get_flag ACME_ENABLED false db) (get_flag MCP_ENABLED false db).
Definition with_active_issuer (db : DB) : list Z := omap parent_id (active_issuers db).
Definition no_issuer_roots (rows : list CARow) (db : DB) : list CARow :=
  List.filter (λ r, bool_decide (ca_kind r = Root) && bool_decide (ca_id r ∉ with_active_issuer db)) rows.
Definition numbered {A} (l : list A) : list (nat * A) := imap pair l.
Definition body (c : Clocks) (rows : list CARow) (sees_settings : bool) (db : DB) : Outcome Body :=
  let expiring := expiring_soon (ck_page c) EXPIRING_SHOWN db in
  let counts := status_counts (ck_page c) db in
  let events := fst (list_events "" "all" "all" 1 RECENT_EVENTS db) in
  crls ← map_each (crl_line db (ck_page c)) (List.filter (λ r, bool_decide (ca_kind r = Intermediate)) rows);
  lines ← map_each (expiring_line c) (numbered expiring);
  tops ← authorities rows (ck_page c);
  mret (mkBody (no_issuer_roots rows db) lines (length expiring <? count_status (ck_page c) db st_expiring)%nat counts tops crls
    (map recent_event events) (if sees_settings then Some (services db) else None)).
Definition dashboard (tls : option Manager) (cookie : option string) (seen : Z) (c : Clocks) : Tx DB DashboardPage :=
  v ← viewer_of cookie seen (ck_menu c);
  rows ← query (list_cas None None);
  cx ← context v;
  banner ← query (tls_banner tls (ck_chain c));
  banner ← lift banner;
  if negb (nonempty rows) then mret (mkDashboard cx banner None) else
  b ← query (body c rows (nav_settings (cx_nav cx)));
  b ← lift b;
  mret (mkDashboard cx banner (Some b)).
End dashboard.

(** ** The order of the certificates about to expire *)
Lemma str_le_antisym a b : str_le a b → str_le b a → a = b.
Proof.
  unfold str_le, str_leb. rewrite (String.compare_antisym a b). intros H1 H2. symmetry. apply String.compare_eq_iff.
  by destruct (String.compare b a).
Qed.
Lemma str_ltb_not a b : str_ltb a b = true ↔ ¬ str_le b a.
Proof. unfold str_ltb, str_le, str_leb. rewrite (String.compare_antisym b a). destruct (String.compare a b); cbn; split; (done || (intros H; by destruct H)). Qed.
Section expiry_order.
Context {X : X509Lib} {SS : SecretStore}.
Lemma expires_first_alt (a b : CertRow) : expires_first a b ↔
  str_le (crt_not_after a) (crt_not_after b) ∧ (crt_not_after a = crt_not_after b → crt_id a ≤ crt_id b).
Proof.
  unfold expires_first. rewrite str_ltb_not. split.
  - intros [H|[-> H]]; [|split; [by destruct (base.total str_le (crt_not_after b) (crt_not_after b))|done]].
    destruct (base.total str_le (crt_not_after a) (crt_not_after b)) as [Hl|Hl]; [|done]. split; [done|]. intros He. by rewrite He in *.
  - intros [Hl Hi]. destruct (decide (crt_not_after a = crt_not_after b)) as [He|Hn]; [by right; auto|]. left. intros Hg. by apply Hn, str_le_antisym.
Qed.
#[export] Instance expires_first_total : Total (@expires_first X SS).
Proof.
  intros a b. rewrite !expires_first_alt. destruct (decide (crt_not_after a = crt_not_after b)) as [->|Hn].
  - destruct (base.total str_le (crt_not_after b) (crt_not_after b)), (Z.le_ge_cases (crt_id a) (crt_id b)); auto.
  - destruct (base.total str_le (crt_not_after a) (crt_not_after b)); [left|right]; (split; [done|congruence]).
Qed.
#[export] Instance expires_first_trans : Transitive (@expires_first X SS).
Proof.
  intros a b c. rewrite !expires_first_alt. intros [Hab Hi] [Hbc Hj]. split; [by etrans|]. intros He. rewrite He in Hab.
  pose proof (str_le_antisym _ _ Hab Hbc) as Hcb. assert (crt_not_after a = crt_not_after b) by congruence. assert (crt_id a ≤ crt_id b) by auto.
  assert (crt_id b ≤ crt_id c) by auto. lia.
Qed.
Lemma expiring_split now n db : let found := rows_where (certs db) (filters "" (status_text st_expiring) now) in
  ∃ rest, expiring_soon now n db ++ rest ≡ₚ found ∧ StronglySorted expires_first (expiring_soon now n db) ∧
    (length (expiring_soon now n db) ≤ n)%nat ∧ (rest ≠ [] → length (expiring_soon now n db) = n) ∧
    ∀ r r', r ∈ expiring_soon now n db → r' ∈ rest → expires_first r r'.
Proof.
  cbn zeta. set (found := rows_where _ _). exists (drop n (merge_sort expires_first found)). unfold expiring_soon. fold found.
  set (sorted := merge_sort expires_first found).
  assert (Hs : StronglySorted expires_first (take n sorted ++ drop n sorted)) by (rewrite take_drop; apply StronglySorted_merge_sort; apply _).
  split_and!.
  - rewrite take_drop. apply merge_sort_Permutation.
  - by eapply StronglySorted_app_1_l.
  - rewrite length_take. lia.
  - intros Hr. rewrite length_take, Nat.min_l; [done|]. destruct (Nat.le_gt_cases n (length sorted)) as [|Hl]; [done|]. by rewrite drop_ge in Hr by lia.
  - intros r r' Hr Hr'. by eapply (StronglySorted_app_1_elem_of expires_first).
Qed.
End expiry_order.

(** ** Correctness *)
Section theorems.
Context {X : X509Lib} {SS : SecretStore} {CR : Crypto}.

Definition listed (c : Clocks) (r : CertRow) (x : ExpiringLine) : Prop :=
  xl_id x = crt_id r ∧ xl_cn x = subject_cn r ∧ xl_not_after x = crt_not_after r ∧
  ∃ t i, not_after_dt r = Ok t ∧ xl_days x = days_until t (ck_row c i).
Definition crl_told (db : DB) (now : Z) (r : CARow) (l : CrlLine) : Prop :=
  cl_issuer l = ca_name r ∧ cl_state l = crl_state now <$> crls db !! ca_id r.
(** A root under which nothing can be issued. *)
Definition bare_root (db : DB) (n : Z) : Prop :=
  (∃ r, cas db !! n = Some r ∧ ca_kind r = Root) ∧
  ∀ i r, cas db !! i = Some r → ca_kind r = Intermediate → ca_status r = Active → parent_id r ≠ Some n.
(** Listed before: it ends no later. *)
Definition no_later (r r' : CertRow) : Prop := str_le (crt_not_after r) (crt_not_after r').
Lemma expires_no_later r r' : expires_first r r' → no_later r r'.
Proof. by intros [H _]%expires_first_alt. Qed.
Lemma sorted_no_later l : StronglySorted expires_first l → StronglySorted no_later l.
Proof. induction 1 as [|r l _ IH Hf]; constructor; [done|]. eapply Forall_impl; [exact Hf|]. apply expires_no_later. Qed.
Definition expiring_told (db : DB) (c : Clocks) (b : Body) : Prop :=
  ∃ shown rest, shown ++ rest ≡ₚ rows_where (certs db) (filters "" (status_text st_expiring) (ck_page c)) ∧
    Forall2 (listed c) shown (bd_expiring b) ∧ StronglySorted no_later shown ∧ (∀ r r', r ∈ shown → r' ∈ rest → no_later r r') ∧
    (length shown ≤ EXPIRING_SHOWN)%nat ∧ (bd_more b = true ↔ rest ≠ []) ∧ (rest ≠ [] → length shown = EXPIRING_SHOWN).
Record body_tells (db : DB) (c : Clocks) (role : Role) (b : Body) : Prop := {
  bt_counts : map fst (bd_counts b) = map status_text [st_valid; st_expiring; st_expired; st_revoked] ∧
    list_sum (map snd (bd_counts b)) = size (certs db);
  bt_expiring : expiring_told db c b;
  bt_crls : Forall2 (crl_told db (ck_page c)) (List.filter is_intermediate (list_cas None None db)) (bd_crls b);
  bt_bare : ∀ n, n ∈ map ca_id (bd_no_issuer b) ↔ bare_root db n;
  bt_authorities : concat (map (λ '(top, issuers), top :: issuers) (bd_authorities b)) ≡ₚ map (expiry_of (ck_page c)) (list_cas None None db);
  bt_services : is_Some (bd_services b) ↔ role ∈ ADMIN_ROLES }.
Lemma nav_settings_admin role : nav_settings (nav role) = true ↔ role ∈ ADMIN_ROLES.
Proof. apply bool_decide_eq_true. Qed.
Lemma no_issuer_exact db n : hierarchy_ok db → n ∈ map ca_id (no_issuer_roots (list_cas None None db) db) ↔ bare_root db n.
Proof.
  intros Hh. assert (Hact : ∀ m, m ∈ with_active_issuer db ↔ ∃ i r, cas db !! i = Some r ∧ ca_kind r = Intermediate ∧ ca_status r = Active ∧ parent_id r = Some m).
  { intros m. unfold with_active_issuer, active_issuers. rewrite list_elem_of_omap. split.
    - intros (r & (Ha & i & Hi)%elem_of_rows_where & Hp). unfold is_active_issuer in Ha. apply andb_prop in Ha as [Hk%bool_decide_eq_true Hs%bool_decide_eq_true].
      by exists i, r.
    - intros (i & r & Hi & Hk & Hs & Hp). exists r. split; [|done]. apply elem_of_rows_where. split; [|by eexists].
      unfold is_active_issuer. by rewrite !bool_decide_eq_true_2. }
  unfold no_issuer_roots, bare_root. rewrite list_elem_of_fmap. split.
  - intros (r & -> & Hr). apply list_elem_of_In, filter_In in Hr as [Hr Hb]. apply list_elem_of_In, elem_of_list_cas in Hr; [|done].
    apply andb_prop in Hb as [Hk%bool_decide_eq_true Hn%bool_decide_eq_true]. split; [by exists r|].
    intros i q Hq Hkq Hs Hp. apply Hn, Hact. by exists i, q.
  - intros ((r & Hr & Hk) & Hno). destruct (Hh n r Hr) as [Hid _]. exists r. split; [done|]. apply list_elem_of_In, filter_In. split.
    + apply list_elem_of_In, elem_of_list_cas; [done|]. by rewrite Hid.
    + rewrite !bool_decide_eq_true_2; [done| |done]. rewrite Hact. intros (i & q & Hq & Hkq & Hs & Hp). rewrite Hid in Hp. by eapply Hno.
Qed.
Lemma lines_ok db c l : certs_ok db → (∀ x, x ∈ l → ∃ i, certs db !! i = Some x) →
  ∃ lines, map_each (expiring_line c) (numbered l) = Ok lines ∧ Forall2 (listed c) l lines.
Proof.
  intros Hc Hin. destruct (map_each_total (expiring_line c) (λ x line, listed c x.2 line) (numbered l)) as (lines & Hl & Hf).
  - intros [i r] Hx. unfold numbered in Hx. apply elem_of_lookup_imap in Hx as (k & x & [= -> ->] & Hk%list_elem_of_lookup_2).
    destruct (Hin x Hk) as [j Hj]. destruct (cert_rows _ Hc j x Hj) as [cert Hd].
    assert (Ht : not_after_dt x = Ok (not_valid_after cert)).
    { unfold not_after_dt. rewrite (row_end _ _ Hd). by apply fromisoformat_isoformat, (row_dates _ _ Hd). }
    unfold expiring_line. rewrite Ht. eexists. split; [reflexivity|]. split_and!; [done..|]. by eexists _, k.
  - exists lines. split; [done|]. replace l with (map snd (numbered l)); [by apply Forall2_fmap_l|].
    unfold numbered. change (@map) with (fun A B => @fmap list _ A B). rewrite fmap_imap. apply list_eq. intros i. rewrite list_lookup_imap. by destruct (l !! i).
Qed.
Lemma body_ok db c role : inventory_ok db → (∀ path, is_ok (pki_url path db) = true) → in_datetime (ck_page c) → in_datetime (ck_page c + EXPIRING_WINDOW) →
  ∃ b, body c (list_cas None None db) (nav_settings (nav role)) db = Ok b ∧ body_tells db c role b.
Proof.
  intros [Hh Hc _] Hurl Hnow Hwin. destruct (authorities_complete db (ck_page c) Hh) as (tops & Htops & Hall & _).
  destruct (map_each_total (crl_line db (ck_page c)) (crl_told db (ck_page c)) (List.filter is_intermediate (list_cas None None db))) as (crls & Hcrls & Hcf).
  { intros r _. unfold crl_line, distribution_url. specialize (Hurl ("/crl/" +:+ id_text (ca_id r))). destruct (pki_url _ db) as [u|e]; [|done].
    eexists. split; [reflexivity|]. by split. }
  destruct (expiring_split (ck_page c) EXPIRING_SHOWN db) as (rest & Hperm & Hsorted & Hlen & Hfull & Hord). set (shown := expiring_soon _ _ _) in *.
  destruct (lines_ok db c shown) as (lines & Hl & Hlf); [done| |].
  { intros x Hx. assert (Hin : x ∈ shown ++ rest) by (apply elem_of_app; by left). rewrite Hperm in Hin. by apply elem_of_rows_where in Hin as [_ ?]. }
  unfold body. fold shown. unfold is_intermediate in Hcrls. rewrite Hcrls. cbn [mbind Outcome_bind]. rewrite Hl. cbn [mbind Outcome_bind]. rewrite Htops.
  cbn [mbind Outcome_bind]. eexists. split; [reflexivity|]. split; cbn [bd_counts bd_expiring bd_more bd_crls bd_no_issuer bd_authorities bd_services].
  - split; [done|]. destruct (status_filters_partition db (ck_page c) Hc Hnow Hwin) as [_ <-]. cbn. lia.
  - unfold expiring_told. cbn [bd_expiring bd_more]. exists shown, rest.
    split_and!; [done|done|by apply sorted_no_later|by intros r r' Hr Hr'; apply expires_no_later, Hord|done| |done].
    unfold count_status. rewrite <- Hperm, length_app, Nat.ltb_lt. destruct rest; cbn; split; (done || lia).
  - done.
  - intros n. by apply no_issuer_exact.
  - done.
  - rewrite <- nav_settings_admin. destruct (nav_settings _); by split.
Qed.
(** The banner: which certificate cabin shows a browser, and the root to
    install. *)
Definition banner_tells (db : DB) (tls : option Manager) (b : option Banner) : Prop :=
  match tls_mode tls with
  | None => b = None
  | Some Tls.self_signed => b = Some (mkBanner Tls.self_signed None)
  | Some ca_issued => match system_cert db with
      | None => b = Some (mkBanner ca_issued None)
      | Some row => ∃ walk top, parent_walk db (crt_issuer row) = Ok walk ∧ last walk = Some top ∧ ca_kind top = Root ∧
          b = Some (mkBanner ca_issued (Some ("/ca/" +:+ id_text (ca_id top) +:+ ".cer")))
      end
  end.
Lemma banner_ok db tls now : inventory_ok db → ∃ b, tls_banner tls now db = Ok b ∧ banner_tells db tls b.
Proof.
  intros [Hh Hc _]. unfold tls_banner, banner_tells. destruct (tls_mode tls) as [[]|]; [by eexists| |by eexists].
  destruct (system_cert db) as [row|] eqn:Hs; [|by eexists].
  assert (Hrow : ∃ i, certs db !! i = Some row).
  { unfold system_cert in Hs. apply last_Some_elem_of, elem_of_rows_where in Hs. apply Hs. }
  destruct Hrow as [i Hi]. destruct (cert_issuers _ Hc i row Hi) as (q & Hq & _).
  destruct (chains_for_selects db (crt_issuer row) now q Hh Hq) as (cs & base & top & -> & Hw & Hl & Hself & _). cbn [mbind Outcome_bind]. rewrite Hself.
  cbn [mbind Outcome_bind]. unfold anchor_id. cbn [chain_rows]. rewrite Hl. eexists. split; [reflexivity|]. exists base, top. split_and!; [done..| |done].
  pose proof (parent_walk_terminates db (crt_issuer row) Hh) as Ht. rewrite Hq in Ht. destruct Ht as (rows & t & Hw' & _ & Hl' & Hk & _). congruence.
Qed.
(** A page changes nothing but the session of whoever asked for it. *)
Definition visited (at_ : Z) (row : SessionRow) (db : DB) : DB := popped (seen_row at_ row) (seen at_ row db).
Lemma visited_same {A} (f : DB → A) at_ row db : (∀ g, f (on_sessions g db) = f db) → (∀ g h, f (on_sessions g (on_sessions h db)) = f db) →
  f (visited at_ row db) = f db ∧ f (seen at_ row db) = f db.
Proof. intros H1 H2. unfold visited, popped, seen. destruct (flash _), (_ <? _); by rewrite ?H1, ?H2. Qed.
Lemma list_cas_nonempty db : nonempty (list_cas None None db) = false ↔ cas db = ∅.
Proof.
  unfold list_cas. split.
  - intros H. apply map_empty. intros i. destruct (cas db !! i) as [r|] eqn:E; [|done]. exfalso.
    assert (Hin : r ∈ rows_where (cas db) (λ r, is_status None r && is_kind None r)) by (apply elem_of_rows_where; split; [done|by eexists]).
    destruct (rows_where _ _); [by apply not_elem_of_nil in Hin|done].
  - intros ->. by vm_compute.
Qed.
(** C23: the dashboard leaves nothing out.  While the stored base URL can be
    read and the clock is within dates, it answers anyone who is signed in,
    from the first CA on with every tile: the four counts add up to the
    inventory; the certificates about to expire are listed soonest first, all
    of them or the ten that end soonest, and it says so exactly when some are
    left out; every intermediate has a line with the list it last signed, or
    none; a root is named as one to act on exactly when no active issuer hangs
    under it; every CA certificate's expiry is there once; and the services are
    shown to the roles that may see the settings.  The banner sends to the root
    at the top of cabin's own certificate's line. *)
Theorem dashboard_complete tls cookie at_ c db r db' : identity_ok db → inventory_ok db → (∀ path, is_ok (pki_url path db) = true) →
  in_datetime (ck_page c) → in_datetime (ck_page c + EXPIRING_WINDOW) → request (dashboard tls cookie at_ c) db = (r, db') →
  match r with
  | Ok p => ∃ user row, opens cookie at_ db user row ∧ cx_user (da_context p) = user ∧ db' = visited at_ row db ∧ banner_tells db tls (da_banner p) ∧
      match da_body p with None => cas db = ∅ | Some b => cas db ≠ ∅ ∧ body_tells db c (user_role user) b end
  | Raise e => db' = db ∧ ∀ user row, ¬ opens cookie at_ db user row
  end.
Proof.
  intros Hid Hinv Hurl Hnow Hwin Hreq. pattern r, db'. eapply request_wp; [exact Hreq|]. clear r db' Hreq. cbn beta.
  unfold dashboard, viewer_of. apply wp_bind, wp_signed_in; [done| |intros H; by split]. intros user row touched Ho. apply wp_ret.
  apply wp_bind, wp_query. cbn [work fresh_session]. destruct (visited_same (list_cas None None) at_ row db) as [_ ->]; [done..|].
  set (rows := list_cas None None db). unfold context, base_context.
  apply wp_bind, wp_bind, wp_pop_flash; [eexists; by eapply seen_stored|]. apply wp_bind, wp_query, wp_ret. cbn [vw_user vw_row vw_now cx_nav]. fold (visited at_ row db).
  apply wp_bind, wp_query. cbn [work fresh_session]. destruct (visited_same (tls_banner tls (ck_chain c)) at_ row db) as [-> _]; [done..|].
  destruct (banner_ok db tls (ck_chain c) Hinv) as (bn & -> & Hbn). apply wp_bind, wp_lift; [intros ? [= <-]|done].
  destruct (nonempty rows) eqn:Hrows; cbn [negb].
  - apply wp_bind, wp_query. cbn [work fresh_session cx_nav]. destruct (visited_same (body c rows (nav_settings (nav (user_role user)))) at_ row db) as [-> _]; [done..|].
    destruct (body_ok db c (user_role user) Hinv Hurl Hnow Hwin) as (b & Hb & Htells). fold rows in Hb. rewrite Hb.
    apply wp_bind, wp_lift; [intros ? [= <-]|done]. apply wp_ret. exists user, row. split_and!; try done. cbn [da_body]. split; [|done].
    intros He%list_cas_nonempty. fold rows in He. congruence.
  - apply wp_ret. exists user, row. split_and!; try done. by apply list_cas_nonempty.
Qed.
End theorems.

Module DashboardExamples.
#[local] Existing Instance Toy.lib.
#[local] Existing Instance toy_secrets.
#[local] Existing Instance toy_crypto.
Import Toy CaExamples IdentityExamples DepsExamples WebUiExamples CaPagesExamples CertsUiExamples TransferUiExamples.
#[local] Strategy 1000 [signed_in crossed root_logged_in request issued_run listed].
(** Seventy days into the certificate, twenty before its end. *)
Definition looking_at (rows_clock : Z) : Clocks := mkClocks (t2026 + days 70) t2026 t2026 (λ _, rows_clock).
Definition opened (c : Clocks) : Outcome DashboardPage * DB := request (dashboard None (Some "token-7") t2026 c) listed.
Definition body_shown (c : Clocks) : option Body := match fst (opened c) with Ok p => da_body p | Raise _ => None end.
Lemma listed_urls path : is_ok (pki_url path listed) = true.
Proof.
  unfold pki_url. assert (H : get_setting BASE_URL listed = None) by (vm_compute; reflexivity). by rewrite H.
Qed.
Definition page_70 : Clocks := looking_at (t2026 + days 70).
Lemma dashboard_complete_witness :
  (bd_counts <$> body_shown page_70) = Some [("valid", 0%nat); ("expiring", 1%nat); ("expired", 0%nat); ("revoked", 0%nat)] ∧
  ((λ b, map xl_days (bd_expiring b)) <$> body_shown page_70) = Some [20] ∧
  ((λ b, map ca_name (bd_no_issuer b)) <$> body_shown page_70) = Some ["Old root"] ∧
  ∃ p b, fst (opened page_70) = Ok p ∧ da_body p = Some b ∧ body_tells listed page_70 superadmin b.
Proof.
  split; [vm_compute; reflexivity|]. split; [vm_compute; reflexivity|]. split; [vm_compute; reflexivity|].
  assert (H : is_ok (fst (opened page_70)) = true) by (vm_compute; reflexivity).
  assert (Hb : (match fst (opened page_70) with Ok p => match da_body p with Some _ => true | None => false end | Raise _ => false end) = true)
    by (vm_compute; reflexivity).
  assert (Hu : (match fst (opened page_70) with Ok p => bool_decide (user_role (cx_user (da_context p)) = superadmin) | Raise _ => false end) = true)
    by (vm_compute; reflexivity).
  assert (Hr : request (dashboard None (Some "token-7") t2026 page_70) listed = (fst (opened page_70), snd (opened page_70))) by exact (surjective_pairing _).
  pose proof (dashboard_complete (X:=lib) (SS:=toy_secrets) (CR:=toy_crypto) None (Some "token-7") t2026 page_70 listed _ _
    listed_identity listed_inventory listed_urls ltac:(by_decide) ltac:(by_decide) Hr) as Hx.
  destruct (fst (opened page_70)) as [p|e]; [|discriminate H]. destruct Hx as (user & row & _ & Hcx & _ & _ & Hx).
  destruct (da_body p) as [b|] eqn:E; [|discriminate Hb]. exists p, b. split; [reflexivity|]. split; [exact E|].
  apply bool_decide_eq_true in Hu. rewrite Hcx in Hu. rewrite <- Hu. exact (proj2 Hx).
Defined.
(** One page, two clocks: a certificate counted as about to expire whose line
    says that it ended yesterday. *)
Example straddling_a_tick :
  ((λ b, (bd_counts b !! 1%nat, map xl_days (bd_expiring b))) <$> body_shown (mkClocks (t2026 + days 90 - second) t2026 t2026 (λ _, t2026 + days 90 + second)))
    = Some (Some ("expiring", 1%nat), [-1]).
Proof. vm_compute. reflexivity. Qed.
End DashboardExamples.
