(* ===== verification/Startup.v ===== *)
(** * [cabin.config], [cabin.server] and the refusals of [cabin.app]

    What a process is started with, when it refuses to start, how its servers
    and its renewal loop are kept together, and which refusals are answered
    with a page.  argparse and uvicorn itself are left out: a flag is what was
    given, and what a server does is a step of its own. *)

From S2P Require Import Prelude PyStr PyTime Json Numbers IPAddr X509Lib X509 Leaf Store Settings CaService Grants Identity Certs WebDeps WebUi CaPages.
#[local] Open Scope Z_scope.

(** ** [Config.load] *)
Definition DEFAULT_PORT : Z := 8080.
Definition DEFAULT_DATA_DIR : string := "data".
Definition DEFAULT_HTTP_PORT : Z := 8081.
Record Config := mkConfig {
  cfg_port : Z; cfg_data_dir : string; cfg_db_url : string; cfg_passphrase : option string; cfg_cookie_secure : bool; cfg_tls : bool;
  cfg_http_port : Z }.
Definition parse_port (raw : string) : Outcome Z :=
  port ← catch_pure (py_int raw) (λ e, match e with ValueError _ => true | _ => false end)
           (λ _, Raise (ConfigError ("invalid port: " +:+ py_repr raw)));
  _ ← raise_if (negb ((1 <=? port) && (port <=? 65535))) (ConfigError ("port out of range: " +:+ str_of_Z port));
  mret port.
(** [str(Path(s))] of a POSIX path: empty parts and single dots go. *)
Definition path_text (s : string) : string :=
  let root := if startswith s "//" && negb (startswith s "///") then "//" else if startswith s "/" then "/" else "" in
  let parts := List.filter (λ p, negb (bool_decide (p = "" ∨ p = "."))) (split "/" s) in
  if decide (root +:+ join "/" parts = "") then "." else root +:+ join "/" parts.
(** [a or b] of texts. *)
Definition or_text (o : option string) (s : string) : string := match o with Some t => if decide (t = "") then s else t | None => s end.
Definition is_on (o : option string) : bool := bool_decide (lower (strip (default "" o)) ∈ ["true"; "1"]).
Definition same_ports (http_port port : Z) : Exc :=
  ConfigError ("CABIN_HTTP_PORT (" +:+ str_of_Z http_port +:+ ") must not equal PORT (" +:+ str_of_Z port +:+ ") when CABIN_TLS is on -- "
    +:+ "the TLS listener and the plaintext PKI listener would be indistinguishable").
Definition http_port_ignored : string := "CABIN_HTTP_PORT is set but CABIN_TLS is off; ignoring it".
Definition cookie_overridden (raw : string) : string := "COOKIE_SECURE=" +:+ py_repr raw +:+ " is overridden to true because CABIN_TLS is on".
(** The flags that were given, and the warnings besides the configuration. *)
Definition load_config (port_flag data_dir_flag : option string) (env : gmap string string) : Outcome (Config * list string) :=
  port ← parse_port (or_text port_flag (or_text (env !! "PORT") (str_of_Z DEFAULT_PORT)));
  let data_dir := path_text (or_text data_dir_flag (or_text (env !! "DATA_DIR") DEFAULT_DATA_DIR)) in
  let db_url := or_text (env !! "CABIN_DB_URL") ("sqlite:///" +:+ data_dir +:+ "/cabin.db") in
  let passphrase := match env !! "CABIN_MASTER_PASSPHRASE" with Some p => if decide (p = "") then None else Some p | None => None end in
  let cookie_requested := is_on (env !! "COOKIE_SECURE") in
  let tls := is_on (env !! "CABIN_TLS") in
  http_port ← parse_port (or_text (env !! "CABIN_HTTP_PORT") (str_of_Z DEFAULT_HTTP_PORT));
  _ ← raise_if (tls && (http_port =? port)) (same_ports http_port port);
  let ignored := if negb tls && bool_decide (is_Some (env !! "CABIN_HTTP_PORT")) then [http_port_ignored] else [] in
  let overridden := match env !! "COOKIE_SECURE" with Some raw => if tls && negb cookie_requested then [cookie_overridden raw] else [] | None => [] end in
  mret (mkConfig port data_dir db_url passphrase (cookie_requested || tls) tls http_port, ignored ++ overridden).
(** [_refuse_multi_worker_with_tls], and what [main] makes of a refusal. *)
Definition many_workers (raw : string) : Exc :=
  SystemExit ("cabin: WEB_CONCURRENCY=" +:+ raw +:+ " is not supported while CABIN_TLS is on -- a live certificate swap mutates one worker "
    +:+ "process's SSLContext in place, so with more than one worker the swap would silently reach only one of them; unset "
    +:+ "WEB_CONCURRENCY or turn CABIN_TLS off").
Definition refuse_multi_worker_with_tls (config : Config) (env : gmap string string) : Outcome unit :=
  match env !! "WEB_CONCURRENCY" with
  | None => mret ()
  | Some raw => if negb (cfg_tls config) then mret () else n ← py_int raw; raise_if (1 <? n) (many_workers raw)
  end.
(** What the operating system answers: who the process is, the error of
    making a directory, if any, and whether it may be written to and entered. *)
Record Host := mkHost { h_uid : Z; h_gid : Z; h_mkdir : string → option string; h_access : string → bool }.
Definition process_ids (h : Host) : string := str_of_Z (h_uid h) +:+ ":" +:+ str_of_Z (h_gid h).
Definition ensure_data_dir_writable (h : Host) (data_dir : string) : Outcome unit :=
  let ids := "uid " +:+ process_ids h in
  let fix_ := "chown -R " +:+ process_ids h +:+ " <the host directory mounted there>" in
  match h_mkdir h data_dir with
  | Some strerror => Raise (ConfigError ("data directory " +:+ data_dir +:+ " cannot be created as " +:+ ids +:+ " (" +:+ strerror
      +:+ "); create it or fix its ownership: " +:+ fix_))
  | None => raise_if (negb (h_access h data_dir))
      (ConfigError ("data directory " +:+ data_dir +:+ " is not writable by " +:+ ids +:+ "; fix its ownership: " +:+ fix_))
  end.
Definition main (port_flag data_dir_flag : option string) (env : gmap string string) (h : Host) : Outcome Config :=
  config ← catch_pure ('(config, _) ← load_config port_flag data_dir_flag env; _ ← ensure_data_dir_writable h (cfg_data_dir config); mret config)
             (λ e, match e with ConfigError _ => true | _ => false end) (λ e, Raise (SystemExit ("cabin: " +:+ exc_text e)));
  _ ← refuse_multi_worker_with_tls config env;
  mret config.

Lemma parse_port_ok raw n : parse_port raw = Ok n ↔ py_int raw = Ok n ∧ 1 ≤ n ≤ 65535.
Proof.
  unfold parse_port, catch_pure. destruct (py_int raw) as [k|[]]; cbn; try (split; [done|by intros [? _]]).
  destruct (Z.leb_spec 1 k), (Z.leb_spec k 65535); cbn; split; try (intros [= <-]; (done || lia)); (try by intros [[= <-] ?]; lia); intros [[= <-] ?]; done.
Qed.
(** What cabin runs with.  A flag goes before the environment and that
    before the default; both ports are ports; with TLS on the two listeners
    have ports of their own, one worker serves, and the cookie is secure
    whatever was asked for; without TLS it is secure exactly when asked. *)
Theorem configuration_sound port_flag data_dir_flag env h config : main port_flag data_dir_flag env h = Ok config →
  (1 ≤ cfg_port config ≤ 65535) ∧ (1 ≤ cfg_http_port config ≤ 65535) ∧
  py_int (or_text port_flag (or_text (env !! "PORT") "8080")) = Ok (cfg_port config) ∧
  cfg_tls config = is_on (env !! "CABIN_TLS") ∧ h_mkdir h (cfg_data_dir config) = None ∧ h_access h (cfg_data_dir config) = true ∧
  (cfg_tls config = true → cfg_http_port config ≠ cfg_port config ∧ cfg_cookie_secure config = true ∧
     ∀ raw, env !! "WEB_CONCURRENCY" = Some raw → ∃ n, py_int raw = Ok n ∧ n ≤ 1) ∧
  (cfg_tls config = false → cfg_cookie_secure config = is_on (env !! "COOKIE_SECURE")).
Proof.
  unfold main. intros H. apply Outcome_bind_ok in H as (c & H & H2). apply Outcome_bind_ok in H2 as ([] & Hw & [= ->]).
  unfold catch_pure in H. case_match eqn:Hl; [injection H as ->|by case_match]. apply Outcome_bind_ok in Hl as ([c ws] & Hl & H).
  apply Outcome_bind_ok in H as ([] & Hwr & [= ->]). unfold ensure_data_dir_writable in Hwr.
  destruct (h_mkdir h _) eqn:Hmk; [done|]. apply raise_if_ok, negb_false_iff in Hwr. unfold load_config in Hl.
  apply Outcome_bind_ok in Hl as (port & Hp%parse_port_ok & Hl). apply Outcome_bind_ok in Hl as (http & Hh%parse_port_ok & Hl).
  apply Outcome_bind_ok in Hl as ([] & Hne%raise_if_ok & [= <- <-]). cbn [cfg_port cfg_http_port cfg_tls cfg_cookie_secure cfg_data_dir] in *.
  destruct Hp as [Hp ?], Hh as [_ ?]. do 6 (split; [done|]). split.
  - intros Ht. rewrite Ht in *. split_and!; [intros ->; by rewrite Z.eqb_refl in Hne|by rewrite orb_true_r|]. intros raw Hraw.
    unfold refuse_multi_worker_with_tls in Hw. rewrite Hraw in Hw. cbn [cfg_tls negb] in Hw.
    apply Outcome_bind_ok in Hw as (n & Hn & Hle%raise_if_ok). exists n. split; [done|]. by apply Z.ltb_ge.
  - intros ->. by rewrite orb_false_r.
Qed.
Definition a_host : Host := mkHost 1000 1000 (λ _, None) (λ _, true).
(** The warning says a port is ignored that stops cabin from starting. *)
Example ignored_port_is_read : load_config None None {["CABIN_HTTP_PORT" := "off"]} = Raise (ConfigError "invalid port: 'off'") ∧
  (match load_config None None {["CABIN_HTTP_PORT" := "9000"]} with Ok (_, warnings) => warnings | Raise _ => [] end) = [http_port_ignored].
Proof. split; vm_compute; reflexivity. Qed.
(** A directory of someone else's is one sentence, with what to do. *)
Example not_writable : raised (main None None {["DATA_DIR" := "/data/"]} (mkHost 99 100 (λ _, None) (λ _, false))) =
  Some (SystemExit ("cabin: data directory /data is not writable by uid 99:100; fix its ownership: chown -R 99:100 "
    +:+ "<the host directory mounted there>")).
Proof. vm_compute. reflexivity. Qed.
(** And an empty WEB_CONCURRENCY is a traceback. *)
Example empty_concurrency : is_ok (main None None {["CABIN_TLS" := "1"; "WEB_CONCURRENCY" := ""]} a_host) = false ∧
  raised (main None None {["CABIN_TLS" := "1"; "WEB_CONCURRENCY" := ""]} a_host) = Some (ValueError "invalid literal for int() with base 10: ''").
Proof. split; vm_compute; reflexivity. Qed.

(** ** [server._serve]: one ends, all end *)
(** The tasks in the order they are created; what a task is, besides that it
    runs, is uvicorn's. *)
Inductive Task := main_listener | public_listener | renewal.
#[export] Instance Task_eq_dec : EqDecision Task.
Proof. solve_decision. Defined.
(** How a task ended; [None] while it runs. *)
Record TaskState := mkTask { tk_task : Task; tk_told : bool; tk_end : option (Outcome unit) }.
Inductive Phase := waiting_for_start | watching | stopping | over (result : Outcome unit).
(** [sv_started] is the [started] of the main server. *)
Record Supervisor := mkSupervisor { sv_phase : Phase; sv_started : bool; sv_tasks : list TaskState }.
Definition running (t : TaskState) : Prop := tk_end t = None.
Definition task_ended (t : TaskState) : Prop := is_Some (tk_end t).
Definition fresh_task (k : Task) : TaskState := mkTask k false None.
Definition told_to_stop (t : TaskState) : TaskState := mkTask (tk_task t) true (tk_end t).
Definition ended_with (r : Outcome unit) (t : TaskState) : TaskState := mkTask (tk_task t) (tk_told t) (Some r).
(** [task.result()] of each in order: the first exception. *)
Definition first_failure (l : list TaskState) : Outcome unit :=
  match omap (λ t, match tk_end t with Some (Raise e) => Some e | _ => None end) l with e :: _ => Raise e | [] => Ok () end.
Definition serve_from (tls : bool) : Supervisor :=
  mkSupervisor (if tls then waiting_for_start else watching) false [fresh_task main_listener].
(** What the tasks do by themselves: the main server starts, and any task ends,
    for whatever reason, told to or not. *)
Inductive task_step (s : Supervisor) : Supervisor → Prop :=
  | main_starts i t : sv_tasks s !! i = Some t → tk_task t = main_listener → running t →
      task_step s (mkSupervisor (sv_phase s) true (sv_tasks s))
  | a_task_ends i t r : sv_tasks s !! i = Some t → running t →
      task_step s (mkSupervisor (sv_phase s) (sv_started s) (<[i := ended_with r t]> (sv_tasks s))).
(** What [_serve] does between two awaits. *)
Inductive serve_step (s : Supervisor) : Supervisor → Prop :=
  | seen_started : sv_phase s = waiting_for_start → sv_started s = true →
      serve_step s (mkSupervisor watching true (sv_tasks s ++ [fresh_task public_listener; fresh_task renewal]))
  | never_started : sv_phase s = waiting_for_start → sv_started s = false → Exists task_ended (sv_tasks s) →
      serve_step s (mkSupervisor watching false (sv_tasks s))
  | seen_an_end : sv_phase s = watching → Exists task_ended (sv_tasks s) →
      serve_step s (mkSupervisor stopping (sv_started s) (map told_to_stop (sv_tasks s)))
  | all_ended : sv_phase s = stopping → Forall task_ended (sv_tasks s) →
      serve_step s (mkSupervisor (over (first_failure (sv_tasks s))) (sv_started s) (sv_tasks s)).
Definition sv_step (s s' : Supervisor) : Prop := task_step s s' ∨ serve_step s s'.
Record supervised (s : Supervisor) : Prop := {
  sup_main : ∃ t, head (sv_tasks s) = Some t ∧ tk_task t = main_listener;
  sup_after_start : ∀ t, t ∈ sv_tasks s → tk_task t ≠ main_listener → sv_started s = true;
  sup_told : match sv_phase s with stopping | over _ => Forall (λ t, tk_told t = true) (sv_tasks s) | _ => True end;
  sup_over : ∀ r, sv_phase s = over r → Forall task_ended (sv_tasks s) ∧ r = first_failure (sv_tasks s);
  sup_waiting : sv_phase s = waiting_for_start → ∃ t, sv_tasks s = [t] }.
Lemma running_or_ended t : running t ∨ task_ended t.
Proof. unfold running, task_ended. destruct (tk_end t); [right; by eexists|by left]. Qed.
Lemma supervised_start tls : supervised (serve_from tls).
Proof.
  split; cbn; [by eexists|by intros t ->%list_elem_of_singleton|by destruct tls|by destruct tls|by eexists].
Qed.
Lemma supervised_task s s' : supervised s → task_step s s' → supervised s'.
Proof.
  intros [(m & Hm & Hk) Ha Ht Ho Hw] [i t Hi Hmain Hr|i t r Hi Hr]; split; cbn; eauto.
  - destruct (sv_tasks s) as [|x l]; [done|]. injection Hm as ->. destruct i; cbn in *; [injection Hi as ->; by eexists|by eexists].
  - intros x [j Hj]%list_elem_of_lookup Hx. apply list_lookup_insert_Some in Hj as [(<- & <- & _)|[_ Hj]].
    + apply (Ha t); [by eapply list_elem_of_lookup_2|done].
    + apply (Ha x); [by eapply list_elem_of_lookup_2|done].
  - destruct (sv_phase s); try done; (apply Forall_insert; [done|]); exact (Forall_lookup_1 _ _ _ _ Ht Hi).
  - intros r' Hp. destruct (Ho r' Hp) as [Hall _]. eapply Forall_lookup_1 in Hall; [|exact Hi]. unfold running in Hr. unfold task_ended in Hall. rewrite Hr in Hall. by destruct Hall.
  - intros Hp. destruct (Hw Hp) as [x Hx]. rewrite Hx in *. destruct i; by eexists.
Qed.
Lemma supervised_serve s s' : supervised s → serve_step s s' → supervised s'.
Proof.
  intros [(m & Hm & Hk) Ha Ht Ho Hw] [Hp Hs|Hp Hs He|Hp He|Hp He]; split; cbn; try done; eauto.
  - destruct (sv_tasks s); [done|]. by exists m.
  - exists (told_to_stop m). destruct (sv_tasks s); [done|]. injection Hm as ->. by split.
  - intros t (x & -> & Hx)%list_elem_of_fmap Hne. by apply (Ha x).
  - apply Forall_fmap, Forall_forall. by intros x _.
  - by rewrite Hp in Ht.
  - by intros r [= <-].
Qed.
(** Nothing outlives anything.  However the two listeners and the renewal
    loop come and go: the plaintext listener and the renewal loop never run
    before the main server has started; as long as not everything has ended
    and been reported there is something to do, or all that runs runs well, or
    every task that still runs has been told to stop; and what [_serve] ends
    with is the first exception a task ended with, after every task has ended. *)
Theorem none_outlives_another tls s : rtc sv_step (serve_from tls) s →
  (∀ t, t ∈ sv_tasks s → tk_task t ≠ main_listener → sv_started s = true) ∧
  match sv_phase s with
  | over r => Forall task_ended (sv_tasks s) ∧ r = first_failure (sv_tasks s)
  | stopping => Forall (λ t, tk_told t = true) (sv_tasks s) ∧ ((∃ s', serve_step s s') ∨ Exists running (sv_tasks s))
  | _ => (∃ s', serve_step s s') ∨ Forall running (sv_tasks s)
  end.
Proof.
  intros H. assert (Hs : supervised s).
  { refine (rtc_ind_r (R := sv_step) supervised (serve_from tls) (supervised_start tls) _ s H).
    intros s1 s2 _ [Hx|Hx] IH; [by eapply supervised_task|by eapply supervised_serve]. }
  destruct Hs as [_ Ha Ht Ho Hw]. split; [done|].
  assert (Hall : Forall running (sv_tasks s) ∨ Exists task_ended (sv_tasks s)).
  { destruct (decide (Exists task_ended (sv_tasks s))) as [He|He]; [by right|]. left. apply not_Exists_Forall in He; [|apply _].
    eapply Forall_impl; [exact He|]. intros t Hn. by destruct (running_or_ended t). }
  destruct (sv_phase s) as [| | |r] eqn:Hp.
  - destruct Hall as [Hall|He]; [by right|]. left. destruct (sv_started s) eqn:E; eexists; [by apply seen_started|by apply never_started].
  - destruct Hall as [Hall|He]; [by right|]. left. eexists. by apply seen_an_end.
  - split; [done|]. destruct (decide (Forall task_ended (sv_tasks s))) as [He|He]; [left; eexists; by apply all_ended|]. right.
    apply not_Forall_Exists in He; [|apply _]. eapply Exists_impl; [exact He|]. intros t Hn. by destruct (running_or_ended t).
  - by apply Ho.
Qed.

(** ** The refusals of [create_app] *)
Inductive Handled := redirected (location : string) | not_permitted_page (cx : Context_) (csrf_mismatch : bool) | plain_answer (status : Z) (detail : string).
Section handlers.
Context {X : X509Lib} {SS : SecretStore} {CR : Crypto}.

Definition CSRF_DETAIL : string := "csrf token mismatch".
(** In a session of its own: the request's is closed. *)
Definition not_permitted (cookie : option string) (detail : string) (at_ now : Z) : Tx DB (option (Context_ * bool)) :=
  row ← query (λ db, match cookie with Some token => if decide (token = "") then None else get_session token at_ db | None => None end);
  match row with
  | None => mret None
  | Some row =>
      user ← query (λ db, users db !! session_user row);
      match user with
      | None => mret None
      | Some user => cx ← base_context user row now; mret (Some (cx, bool_decide (detail = CSRF_DETAIL)))
      end
  end.
(** [ui]: the endpoint is one of the interface's. *)
Definition handle_exception (ui : bool) (cookie : option string) (e : Exc) (at_ now : Z) : Tx DB Handled :=
  match e with
  | AuthRedirect location => mret (redirected location)
  | HTTPException status detail _ =>
      page ← (if (status =? 403) && ui then not_permitted cookie detail at_ now else mret None);
      mret (match page with Some (cx, mismatch) => not_permitted_page cx mismatch | None => plain_answer status detail end)
  | e => mthrow e
  end.

(** The session found again after it was seen is the same user's. *)
Lemma same_session token seen_at at_ db row row' : identity_ok db → get_session token seen_at db = Some row →
  get_session token at_ (seen seen_at row db) = Some row' → session_user row' = session_user row.
Proof.
  intros Hid Hs E. pose proof (get_session_stored _ _ _ _ Hid Hs) as Hst. pose proof (get_session_stored _ _ _ _ (seen_ok _ _ _ Hid) E) as Hst'.
  assert (Hh : session_hash row' = session_hash row).
  { unfold get_session in E, Hs. destruct (sessions db !! hash_token token) as [x|] eqn:Ex; [|done].
    destruct (sessions (seen _ _ _) !! hash_token token) as [y|] eqn:Ey; [|done]. destruct (session_expires x <? _); [done|].
    destruct (session_expires y <? _); [done|]. injection Hs as <-. injection E as <-.
    rewrite (session_keys _ Hid _ _ Ex). by apply (session_keys _ (seen_ok seen_at x _ Hid)). }
  rewrite Hh in Hst'. unfold seen in Hst'. destruct (_ <? _); cbn in Hst'.
  - rewrite lookup_alter_eq, Hst in Hst'. by injection Hst' as <-.
  - congruence.
Qed.

(** Everyone is told what to do about a refusal.  A form that is not let in
    sends whoever has no session to sign in; everyone else, while the session
    lasts, gets a page of their own, in which a form that lost its token is
    told apart from a role that may not send it. *)
Theorem refusals_are_explained cookie csrf seen_at at_ now db e db1 r db2 : identity_ok db →
  request (ui_write cookie csrf seen_at) db = (Raise e, db1) → request (handle_exception true cookie e at_ now) db1 = (r, db2) →
  ((∀ user row, ¬ opens cookie seen_at db user row) ∧ r = Ok (redirected (if decide (users db = ∅) then "/setup" else "/login")) ∧ db2 = db) ∨
  ∃ user row token, opens cookie seen_at db user row ∧ cookie = Some token ∧ db1 = seen seen_at row db ∧
    match get_session token at_ db1 with
    | Some row' => (∃ cx, r = Ok (not_permitted_page cx (bool_decide (user_role user ∈ ADMIN_ROLES))) ∧ cx_user cx = user) ∧ db2 = popped row' db1
    | None => r = Ok (plain_answer 403 (if bool_decide (user_role user ∈ ADMIN_ROLES) then CSRF_DETAIL else "forbidden for this role")) ∧ db2 = db1
    end.
Proof.
  intros Hid H1 H2. assert (Hr : form_refused ADMIN_ROLES cookie csrf seen_at db e db1).
  { refine (request_wp _ _ (λ r d, ∀ e, r = Raise e → form_refused ADMIN_ROLES cookie csrf seen_at db e d) _ _ H1 _ e eq_refl).
    apply wp_ui_guard; [done|done|]. intros e' d Hd. by intros ? [= <-]. }
  clear H1. destruct Hr as [(-> & Hno & ->)|(user & row & Ho & -> & Hc)].
  { left. injection H2 as <- <-. by split_and!. }
  right. destruct Ho as (token & -> & Hne & Hs & Hu). exists user, row, token. split; [by exists token|]. split; [done|]. split; [done|].
  assert (He : e = HTTPException 403 (if bool_decide (user_role user ∈ ADMIN_ROLES) then CSRF_DETAIL else "forbidden for this role") []).
  { destruct Hc as [[Hn ->]|(Hn & _ & ->)]; [by rewrite bool_decide_eq_false_2|by rewrite bool_decide_eq_true_2]. }
  subst e. clear Hc. set (d := seen seen_at row db) in *. assert (Hd : identity_ok d) by by apply seen_ok.
  pattern r, db2. eapply request_wp; [exact H2|]. clear r db2 H2. cbn beta.
  unfold handle_exception, not_permitted. change ((403 =? 403) && true) with true. cbv iota.
  destruct (get_session token at_ d) as [row'|] eqn:E.
  2: { apply wp_bind, wp_bind, wp_query. cbn [work fresh_session]. rewrite decide_False by done. rewrite E. by apply wp_ret, wp_ret. }
  apply wp_bind, wp_bind, wp_query. cbn [work fresh_session]. rewrite decide_False by done. rewrite E. pose proof (get_session_stored _ _ _ _ Hd E) as Hst.
  assert (Huser : users d !! session_user row' = Some user).
  { rewrite (same_session _ _ _ _ _ _ Hid Hs E). unfold d. by destruct (seen_users seen_at row db) as (-> & _). }
  apply wp_bind, wp_query. cbn [work fresh_session]. rewrite Huser. unfold base_context. apply wp_bind, wp_bind, wp_pop_flash; [by eexists|].
  apply wp_bind, wp_query, wp_ret, wp_ret, wp_ret. split; [|done].
  eexists. split; [do 2 f_equal|done]. by destruct (bool_decide (user_role user ∈ ADMIN_ROLES)).
Qed.
End handlers.

(** ** The session's cookie ([deps.set_session_cookie] and the middleware
    [_refresh_session_cookie]) *)
Definition SESSION_COOKIE : string := "cabin_session".
(** The arguments of Starlette's [set_cookie]. *)
Record Cookie := mkCookie { ck_key : string; ck_value : string; ck_httponly : bool; ck_samesite : string; ck_secure : bool; ck_max_age : Z; ck_path : string }.
Definition session_cookie (config : Config) (token : string) : Cookie :=
  mkCookie SESSION_COOKIE token true "lax" (cfg_cookie_secure config) (SESSION_LIFETIME / second) "/".
(** [p in s] of two byte strings. *)
Fixpoint occurs (p s : list ascii) : bool :=
  bool_decide (take (length p) s = p) || match s with [] => false | _ :: s => occurs p s end.
Section cookie.
(** The value of the header Starlette writes for a cookie. *)
Context (set_cookie : Cookie → string).
Definition set_session_cookie (config : Config) (token : string) (headers : list (string * string)) : list (string * string) :=
  headers ++ [("set-cookie", set_cookie (session_cookie config token))].
Definition names_session (h : string * string) : bool := bool_decide (lower h.1 = "set-cookie") && occurs (chars SESSION_COOKIE) (chars h.2).
(** [refreshed]: the token whose expiry [get_current_user] moved on. *)
Definition refresh_session_cookie (config : Config) (refreshed : option string) (headers : list (string * string)) : list (string * string) :=
  match refreshed with
  | None => headers
  | Some token => if existsb names_session headers then headers else set_session_cookie config token headers
  end.

(** A browser whose session was prolonged hears of it, once: what a route
    itself did with the cookie, deleting it included, stands; otherwise exactly
    one header is added, for the whole lifetime of the session, out of the
    reach of scripts, and under TLS only ever sent over TLS. *)
Theorem cookie_follows_session config token headers : (∀ c, occurs (chars (ck_key c)) (chars (set_cookie c)) = true) →
  (Exists (λ h, names_session h = true) headers → refresh_session_cookie config (Some token) headers = headers) ∧
  (Forall (λ h, names_session h = false) headers →
     ∃ h, refresh_session_cookie config (Some token) headers = headers ++ [h] ∧ names_session h = true ∧
       h.2 = set_cookie (session_cookie config token)) ∧
  refresh_session_cookie config None headers = headers.
Proof.
  intros Hkey. unfold refresh_session_cookie. split_and!; [| |done].
  - intros (h & Hh & Hn)%Exists_exists. rewrite (proj2 (existsb_exists _ _)); [done|]. exists h. split; [by apply list_elem_of_In|done].
  - intros Hall. assert (existsb names_session headers = false) as ->.
    { apply not_true_is_false. intros (h & Hh%list_elem_of_In & Hn)%existsb_exists. rewrite Forall_forall in Hall. specialize (Hall h Hh). congruence. }
    exists ("set-cookie", set_cookie (session_cookie config token)). split_and!; [done| |done]. unfold names_session. cbn [fst snd].
    apply andb_true_intro. split; [by apply bool_decide_eq_true_2; vm_compute|exact (Hkey (session_cookie config token))].
Qed.
End cookie.
Example session_cookie_lasts config : ck_max_age (session_cookie config "t") = 86400.
Proof. vm_compute. reflexivity. Qed.
