(* ===== verification/JsBase64.v ===== *)
(** * base64 as the Swagger UI bundle computes it

    The page of [/docs] runs [web/static/swagger-ui-bundle.js].  Its module
    67526 encodes and decodes base64: [byteLength], [toByteArray] and
    [fromByteArray] with their helpers [getLens] and [encodeChunk].  A string is
    the list of its UTF-16 units, a number is a [Z], the bit operators go
    through [ToInt32], and reading past an array's end gives [undefined]. *)

From S2P Require Import Prelude PyStr Base64.
#[local] Open Scope Z_scope.

(** ** JavaScript *)
Definition to_int32 (z : Z) : Z := (z + 2 ^ 31) `mod` 2 ^ 32 - 2 ^ 31.
Definition js_shl (x n : Z) : Z := to_int32 (Z.shiftl (to_int32 x) (Z.land n 31)).
Definition js_shr (x n : Z) : Z := Z.shiftr (to_int32 x) (Z.land n 31).
Definition js_and (x y : Z) : Z := Z.land (to_int32 x) (to_int32 y).
Definition js_or (x y : Z) : Z := Z.lor (to_int32 x) (to_int32 y).
(** [undefined] under a bit operator. *)
Definition num (v : option Z) : Z := default 0 v.
(** [a[i]], and [s.charCodeAt(i)] with [None] for [NaN]. *)
Definition at_ {A} (a : list A) (i : Z) : option A := if i <? 0 then None else a !! Z.to_nat i.
(** [for (i = from; i < bound; i += step) body], with the [i] it leaves. *)
Fixpoint iterate {S} (n : nat) (i step : Z) (body : Z → S → S) (st : S) : Z * S :=
  match n with
  | O => (i, st)
  | Datatypes.S n => iterate n (i + step) step body (body i st)
  end.
Definition for_ {S} (from bound step : Z) (body : Z → S → S) (st : S) : Z * S :=
  iterate (Z.to_nat ((bound - from + step - 1) / step)) from step body st.
(** A store into a [Uint8Array]: modulo 256, and nothing past the end. *)
Definition u8_set (a : list Z) (j v : Z) : list Z := if j <? 0 then a else <[Z.to_nat j := v `mod` 256]> a.
Inductive JsError := Error (message : string) | RangeError.
Definition js_result (A : Type) : Type := JsError + A.
Definition units (s : string) : list Z := (λ c, Z.of_N (code c)) <$> chars s.

(** ** The module *)
Definition alphabet : list Z := units "ABCDEFGHIJKLMNOPQRSTUVWXYZabcdefghijklmnopqrstuvwxyz0123456789+/".
(** [i[k]] as a string is joined to it. *)
Definition i_at (k : Z) : list Z := match at_ alphabet k with Some c => [c] | None => units "undefined" end.
(** [a[code]]: the alphabet's, then the two of base64url. *)
Definition a_at (c : option Z) : option Z :=
  match c with
  | None => None
  | Some c => if c =? 45 then Some 62 else if c =? 95 then Some 63
              else (λ p, Z.of_nat (fst p)) <$> list_find (c =.) alphabet
  end.
Definition index_of (s : list Z) (c : Z) : Z := match list_find (c =.) s with Some (i, _) => Z.of_nat i | None => -1 end.
Definition pad_unit : Z := 61.

Definition getLens (s : list Z) : js_result (Z * Z) :=
  let o := Z.of_nat (length s) in
  if 0 <? o `mod` 4 then inl (Error "Invalid string. Length must be a multiple of 4") else
  let i := index_of s pad_unit in
  let i := if i =? -1 then o else i in
  inr (i, if i =? o then 0 else 4 - i `mod` 4).
Definition byteLength (s : list Z) : js_result Z :=
  match getLens s with inl e => inl e | inr (i, a) => inr (3 * (i + a) / 4 - a) end.

Section decode.
Context (s : list Z).
Definition sextet_at (i : Z) : Z := num (a_at (at_ s i)).
Definition decode4 (i : Z) (st : list Z * Z) : list Z * Z :=
  let '(C, j) := st in
  let o := js_or (js_or (js_or (js_shl (sextet_at i) 18) (js_shl (sextet_at (i + 1)) 12)) (js_shl (sextet_at (i + 2)) 6)) (sextet_at (i + 3)) in
  let C := u8_set C j (js_and (js_shr o 16) 255) in
  let C := u8_set C (j + 1) (js_and (js_shr o 8) 255) in
  (u8_set C (j + 2) (js_and 255 o), j + 3).
Definition decode_tail (x i : Z) (st : list Z * Z) : list Z :=
  let '(C, j) := st in
  let '(C, j) := if x =? 2 then
      let o := js_or (js_shl (sextet_at i) 2) (js_shr (sextet_at (i + 1)) 4) in (u8_set C j (js_and 255 o), j + 1)
    else (C, j) in
  if x =? 1 then
    let o := js_or (js_or (js_shl (sextet_at i) 10) (js_shl (sextet_at (i + 1)) 4)) (js_shr (sextet_at (i + 2)) 2) in
    u8_set (u8_set C j (js_and (js_shr o 8) 255)) (j + 1) (js_and 255 o)
  else C.
Definition decode_from (x L i : Z) (st : list Z * Z) : list Z :=
  let '(i, st) := for_ i L 4 decode4 st in decode_tail x i st.
Definition toByteArray : js_result (list Z) :=
  match getLens s with
  | inl e => inl e
  | inr (w, x) =>
      let n := 3 * (w + x) / 4 - x in
      if n <? 0 then inl RangeError
      else inr (decode_from x (if 0 <? x then w - 4 else w) 0 (replicate (Z.to_nat n) 0, 0))
  end.
End decode.

Section encode.
Context (s : list Z).
Definition elt (i : Z) : Z := num (at_ s i).
Definition encode3 (x : Z) (w : list (list Z)) : list (list Z) :=
  let u := js_and (js_shl (elt x) 16) 16711680 + js_and (js_shl (elt (x + 1)) 8) 65280 + js_and 255 (elt (x + 2)) in
  w ++ [i_at (js_and (js_shr u 18) 63) ++ i_at (js_and (js_shr u 12) 63) ++ i_at (js_and (js_shr u 6) 63) ++ i_at (js_and 63 u)].
Definition encodeChunk (o a : Z) : list Z := concat (snd (for_ o a 3 encode3 [])).
Definition chunk_bytes : Z := 16383.
Definition fromByteArray : list Z :=
  let a := Z.of_nat (length s) in
  let u := a `mod` 3 in
  let C := a - u in
  let chunks := snd (for_ 0 C chunk_bytes
    (λ x chunks, chunks ++ [encodeChunk x (if C <? x + chunk_bytes then C else x + chunk_bytes)]) []) in
  concat (chunks ++
    if u =? 1 then let o := elt (a - 1) in [i_at (js_shr o 2) ++ i_at (js_and (js_shl o 4) 63) ++ [pad_unit; pad_unit]]
    else if u =? 2 then
      let o := js_shl (elt (a - 2)) 8 + elt (a - 1) in
      [i_at (js_shr o 10) ++ i_at (js_and (js_shr o 4) 63) ++ i_at (js_and (js_shl o 2) 63) ++ [pad_unit]]
    else []).
End encode.

(** ** The reference *)
(** base64 of RFC 4648, three bytes at a time, by arithmetic. *)
Definition digit (k : Z) : Z := default 0 (alphabet !! Z.to_nat k).
Fixpoint rfc4648 (l : list Z) : list Z :=
  match l with
  | [] => []
  | [a] => [digit (a / 4); digit (a `mod` 4 * 16); pad_unit; pad_unit]
  | [a; b] => [digit (a / 4); digit (a `mod` 4 * 16 + b / 16); digit (b `mod` 16 * 4); pad_unit]
  | a :: b :: c :: l =>
      digit (a / 4) :: digit (a `mod` 4 * 16 + b / 16) :: digit (b `mod` 16 * 4 + c / 64) :: digit (c `mod` 64) :: rfc4648 l
  end.
Definition byte (b : Z) : Prop := 0 ≤ b < 256.

(** ** Lemmas *)
Lemma for_eq {S} i bound step (body : Z → S → S) st : 0 < step →
  for_ i bound step body st = if i <? bound then for_ (i + step) bound step body (body i st) else (i, st).
Proof.
  intros Hs. unfold for_. destruct (Z.ltb_spec i bound).
  - replace (Z.to_nat ((bound - i + step - 1) / step)) with (Datatypes.S (Z.to_nat ((bound - (i + step) + step - 1) / step))); [done|].
    replace (bound - i + step - 1) with (bound - (i + step) + step - 1 + 1 * step) by lia.
    rewrite Z.div_add by lia. assert (0 ≤ (bound - (i + step) + step - 1) / step) by (apply Z.div_pos; lia). lia.
  - replace (Z.to_nat ((bound - i + step - 1) / step)) with O; [done|].
    assert ((bound - i + step - 1) / step < 1) by (apply Z.div_lt_upper_bound; lia). lia.
Qed.
(** The loop rule. *)
Lemma for_inv {S} (I : Z → S → Prop) i bound step body st : 0 < step → I i st →
  (∀ i st, i < bound → I i st → I (i + step) (body i st)) →
  let r := for_ i bound step body st in I (fst r) (snd r) ∧ bound ≤ fst r.
Proof.
  intros Hs Hi Hbody. remember (Z.to_nat (bound - i)) as n eqn:Hn. revert i st Hi Hn.
  induction n as [n IH] using lt_wf_ind. intros i st Hi Hn. rewrite for_eq by done.
  destruct (Z.ltb_spec i bound); [|by split].
  apply (IH (Z.to_nat (bound - (i + step)))); [lia|by apply Hbody|done].
Qed.

Lemma to_int32_small x : - 2 ^ 31 ≤ x < 2 ^ 31 → to_int32 x = x.
Proof. intros Hx. unfold to_int32. rewrite Z.mod_small; lia. Qed.
Lemma shift_count n : 0 ≤ n < 32 → Z.land n 31 = n.
Proof. intros Hn. change 31 with (Z.ones 5). rewrite Z.land_ones, Z.mod_small; lia. Qed.
Lemma js_shl_small x n : 0 ≤ n < 32 → 0 ≤ x < 2 ^ 31 → x * 2 ^ n < 2 ^ 31 → js_shl x n = x * 2 ^ n.
Proof.
  intros Hn Hx Hlt. unfold js_shl. rewrite (to_int32_small x), shift_count by lia.
  rewrite Z.shiftl_mul_pow2, to_int32_small; nia.
Qed.
Lemma js_shr_small x n : 0 ≤ n < 32 → 0 ≤ x < 2 ^ 31 → js_shr x n = x / 2 ^ n.
Proof.
  intros Hn Hx. unfold js_shr. rewrite (to_int32_small x), shift_count by lia. apply Z.shiftr_div_pow2. lia.
Qed.
Lemma js_and_ones x n : 0 ≤ n < 31 → 0 ≤ x < 2 ^ 31 → js_and x (2 ^ n - 1) = x `mod` 2 ^ n.
Proof.
  intros Hn Hx. assert (2 ^ n < 2 ^ 31) by (apply Z.pow_lt_mono_r; lia). unfold js_and. rewrite !to_int32_small by lia.
  rewrite <- Z.land_ones, Z.ones_equiv by lia. reflexivity.
Qed.
Lemma js_and_63 x : 0 ≤ x < 2 ^ 31 → js_and x 63 = x `mod` 64.
Proof. apply (js_and_ones x 6). lia. Qed.
Lemma js_and_255 x : 0 ≤ x < 2 ^ 31 → js_and x 255 = x `mod` 256.
Proof. apply (js_and_ones x 8). lia. Qed.
Lemma js_and_comm x y : js_and x y = js_and y x.
Proof. apply Z.land_comm. Qed.
Lemma js_or_add x y n : 0 ≤ n < 31 → 0 ≤ x * 2 ^ n < 2 ^ 31 → 0 ≤ y < 2 ^ n → js_or (x * 2 ^ n) y = x * 2 ^ n + y.
Proof.
  intros Hn Hx Hy. assert (2 ^ n < 2 ^ 31) by (apply Z.pow_lt_mono_r; lia). unfold js_or. rewrite !to_int32_small by lia.
  rewrite <- Z.shiftl_mul_pow2 by lia. apply Z.bits_inj'. intros k Hk. rewrite Z.lor_spec.
  assert (Hand : Z.land (Z.shiftl x n) y = 0).
  { apply Z.bits_inj'. intros m Hm. rewrite Z.land_spec, Z.bits_0. destruct (Z.lt_ge_cases m n).
    - by rewrite Z.shiftl_spec_low.
    - rewrite <- (Z.mod_small y (2 ^ n)), Z.mod_pow2_bits_high by lia. apply andb_false_r. }
  rewrite Z.add_nocarry_lxor, Z.lxor_spec by done. assert (Hb := f_equal (λ z, Z.testbit z k) Hand).
  cbn in Hb. rewrite Z.land_spec, Z.bits_0 in Hb. by destruct (Z.testbit _ k), (Z.testbit y k).
Qed.
Lemma js_or_small x y n z : 0 ≤ n < 31 → x = z * 2 ^ n → 0 ≤ x < 2 ^ 31 → 0 ≤ y < 2 ^ n → js_or x y = x + y.
Proof. intros Hn -> Hx Hy. by apply js_or_add. Qed.
(** [js]: the 32-bit operators on numbers small enough, as arithmetic. *)
Ltac js_arith := unfold byte in *; Z.to_euclidean_division_equations; lia.
(** [js_digits]: lists of digits, digit by digit. *)
Ltac js_digits :=
  repeat match goal with |- _ :: _ = _ :: _ => apply (f_equal2 cons) end;
  first [reflexivity|apply (f_equal digit); js_arith].
Lemma below n (P : Z → Prop) `{!∀ k, Decision (P k)} : forallb (λ k, bool_decide (P (Z.of_nat k))) (seq 0 n) = true →
  ∀ k, 0 ≤ k < Z.of_nat n → P k.
Proof.
  intros Hall k Hk. rewrite forallb_elem in Hall. specialize (Hall (Z.to_nat k)). rewrite Z2Nat.id in Hall by lia.
  apply (bool_decide_eq_true_1 _), Hall, elem_of_seq. lia.
Qed.
Lemma digits k : 0 ≤ k < 64 → i_at k = [digit k] ∧ a_at (Some (digit k)) = Some k ∧ digit k ≠ pad_unit.
Proof.
  revert k. apply (below 64 (λ k, i_at k = [digit k] ∧ a_at (Some (digit k)) = Some k ∧ digit k ≠ pad_unit)).
  vm_compute. reflexivity.
Qed.
Lemma i_at_digit k : 0 ≤ k < 64 → i_at k = [digit k].
Proof. intros Hk. by destruct (digits k Hk). Qed.
Lemma digit_a_at k : 0 ≤ k < 64 → a_at (Some (digit k)) = Some k.
Proof. intros Hk. by destruct (digits k Hk) as (_ & ? & _). Qed.
Lemma digit_no_pad k : 0 ≤ k < 64 → digit k ≠ pad_unit.
Proof. intros Hk. by destruct (digits k Hk) as (_ & _ & ?). Qed.
Lemma high_bytes a : byte a → js_and (js_shl a 16) 16711680 = a * 65536 ∧ js_and (js_shl a 8) 65280 = a * 256 ∧ js_and 255 a = a.
Proof.
  revert a. apply (below 256 (λ a, js_and (js_shl a 16) 16711680 = a * 65536 ∧ js_and (js_shl a 8) 65280 = a * 256 ∧ js_and 255 a = a)).
  vm_compute. reflexivity.
Qed.

(** *** The encoder *)
Lemma encode_group a b c : byte a → byte b → byte c →
  let u := a * 65536 + b * 256 + c in
  i_at (js_and (js_shr u 18) 63) ++ i_at (js_and (js_shr u 12) 63) ++ i_at (js_and (js_shr u 6) 63) ++ i_at (js_and 63 u) =
  [digit (a / 4); digit (a `mod` 4 * 16 + b / 16); digit (b `mod` 16 * 4 + c / 64); digit (c `mod` 64)].
Proof.
  intros Ha Hb Hc u. assert (Hu : 0 ≤ u < 2 ^ 24) by (unfold byte in *; lia).
  rewrite (js_and_comm 63), !js_shr_small by lia.
  rewrite !js_and_63 by js_arith.
  rewrite !i_at_digit by (apply Z.mod_pos_bound; lia). subst u. cbn [app].
  js_digits.
Qed.
Lemma thirds_add n m : (n `mod` 3 = 0)%nat → (m `mod` 3 = 0)%nat → ((n + m) `mod` 3 = 0)%nat.
Proof. intros Hn Hm. by rewrite Nat.Div0.add_mod, Hn, Hm. Qed.
Lemma thirds_below n : ((n - n `mod` 3) `mod` 3 = 0)%nat.
Proof. rewrite (Nat.div_mod_eq n 3) at 1. rewrite Nat.add_sub, Nat.mul_comm. by apply Nat.Div0.mod_mul. Qed.
Lemma rfc4648_app l m : (length l `mod` 3 = 0)%nat → rfc4648 (l ++ m) = rfc4648 l ++ rfc4648 m.
Proof.
  induction l as [|a|a b|a b c l IH] using triples_ind; intros Hl; [done|by cbn in Hl..|].
  cbn [rfc4648 app]. rewrite IH; [done|]. cbn [length] in Hl. revert Hl. 
  replace (S (S (S (length l)))) with (length l + 1 * 3)%nat by lia. by rewrite Nat.Div0.mod_add.
Qed.
Lemma take_three (l : list Z) n : (n + 3 ≤ length l)%nat →
  ∃ a b c, l !! n = Some a ∧ l !! S n = Some b ∧ l !! S (S n) = Some c ∧ take (3 + n) l = take n l ++ [a; b; c].
Proof.
  intros Hn. destruct (lookup_lt_is_Some_2 l n) as [a Ha]; [lia|]. destruct (lookup_lt_is_Some_2 l (S n)) as [b Hb]; [lia|].
  destruct (lookup_lt_is_Some_2 l (S (S n))) as [c Hc]; [lia|]. exists a, b, c. split_and!; [done..|].
  cbn [Nat.add]. by rewrite (take_S_r _ _ _ Hc), (take_S_r _ _ _ Hb), (take_S_r _ _ _ Ha), <- !app_assoc.
Qed.
Lemma elt_nat s x n : s !! n = Some x → elt s (Z.of_nat n) = x.
Proof. intros Hx. unfold elt, at_. destruct (Z.ltb_spec (Z.of_nat n) 0); [lia|]. by rewrite Nat2Z.id, Hx. Qed.
Lemma encode3_spec s n w : Forall byte s → (n `mod` 3 = 0)%nat → (n + 3 ≤ length s)%nat →
  rfc4648 (take (3 + n) s) = rfc4648 (take n s) ++ concat (drop (length w) (encode3 s (Z.of_nat n) w)) ∧
  encode3 s (Z.of_nat n) w = w ++ drop (length w) (encode3 s (Z.of_nat n) w).
Proof.
  intros Hs Hmod Hn. destruct (take_three s n Hn) as (a & b & c & Ha & Hb & Hc & ->).
  rewrite Forall_lookup in Hs. pose proof (Hs _ _ Ha) as Ba. pose proof (Hs _ _ Hb) as Bb. pose proof (Hs _ _ Hc) as Bc.
  unfold encode3. rewrite drop_app_length. split; [|done].
  rewrite rfc4648_app by (rewrite length_take_le; lia). f_equal. cbn [concat]. rewrite app_nil_r.
  replace (Z.of_nat n + 1) with (Z.of_nat (S n)) by lia. replace (Z.of_nat n + 2) with (Z.of_nat (S (S n))) by lia.
  rewrite (elt_nat _ _ _ Ha), (elt_nat _ _ _ Hb), (elt_nat _ _ _ Hc).
  destruct (high_bytes a Ba) as (-> & _ & _). destruct (high_bytes b Bb) as (_ & -> & _). destruct (high_bytes c Bc) as (_ & _ & ->).
  by rewrite encode_group.
Qed.
Lemma encodeChunk_spec s o a : Forall byte s → (o `mod` 3 = 0)%nat → (a `mod` 3 = 0)%nat → (o ≤ a ≤ length s)%nat →
  rfc4648 (take a s) = rfc4648 (take o s) ++ encodeChunk s (Z.of_nat o) (Z.of_nat a).
Proof.
  intros Hs Ho Ha Hle. unfold encodeChunk.
  set (I := λ (x : Z) (w : list (list Z)), ∃ n : nat, x = Z.of_nat n ∧ (n `mod` 3 = 0)%nat ∧ (n ≤ a)%nat ∧
    rfc4648 (take n s) = rfc4648 (take o s) ++ concat w).
  destruct (for_inv I (Z.of_nat o) (Z.of_nat a) 3 (encode3 s) []) as [(n & Hx & Hmod & Hn & Hr) Hend]; [lia|..].
  - exists o. split_and!; [done|done|lia|by rewrite app_nil_r].
  - intros x w Hx (n & -> & Hmod & Hn & Hr). exists (3 + n)%nat.
    assert (n + 3 ≤ a)%nat by (pose proof (Nat.div_mod_eq n 3); pose proof (Nat.div_mod_eq a 3); lia).
    destruct (encode3_spec s n w) as [He Heq]; [done|done|lia|]. split_and!; [lia| |lia|].
    + by apply (thirds_add 3).
    + rewrite He, Hr, Heq, concat_app, drop_app_length. by rewrite <- app_assoc.
  - rewrite Hx in Hend. assert (n = a) as -> by lia. exact Hr.
Qed.
Lemma chunk_thirds : ∃ W : nat, Z.of_nat W = chunk_bytes ∧ (W `mod` 3 = 0)%nat.
Proof. exists (Z.to_nat chunk_bytes). split; [done|]. apply Nat2Z.inj. by rewrite Nat2Z.inj_mod, Z2Nat.id. Qed.
Lemma chunks_spec s : Forall byte s → let C := (length s - length s `mod` 3)%nat in
  concat (snd (for_ 0 (Z.of_nat C) chunk_bytes (λ x chunks,
    chunks ++ [encodeChunk s x (if Z.of_nat C <? x + chunk_bytes then Z.of_nat C else x + chunk_bytes)]) [])) = rfc4648 (take C s).
Proof.
  intros Hs C. assert (HC : (C `mod` 3 = 0)%nat) by apply thirds_below.
  set (I := λ (x : Z) (chunks : list (list Z)), ∃ n : nat, x = Z.of_nat n ∧ (n `mod` 3 = 0)%nat ∧
    concat chunks = rfc4648 (take (n `min` C) s)).
  match goal with |- concat (snd (for_ ?i ?b ?st ?f ?w)) = _ =>
    destruct (for_inv I i b st f w) as [(n & Hx & Hmod & Hr) Hend]; [done|by exists O| |] end.
  - intros x chunks Hx (n & -> & Hmod & Hr). destruct chunk_thirds as (W & HW & HW3).
    exists (n + W)%nat. split_and!; [lia|by apply thirds_add|].
    rewrite concat_app, Hr. cbn [concat]. rewrite app_nil_r, (Nat.min_l n) by lia. rewrite <- HW.
    replace (if Z.of_nat C <? Z.of_nat n + Z.of_nat W then Z.of_nat C else Z.of_nat n + Z.of_nat W) with (Z.of_nat ((n + W) `min` C))
      by (destruct (Z.ltb_spec (Z.of_nat C) (Z.of_nat n + Z.of_nat W)); lia).
    symmetry. apply encodeChunk_spec; [done|done| |unfold C in *; lia].
    destruct (Nat.min_spec (n + W) C) as [[_ ->]|[_ ->]]; [by apply thirds_add|done].
  - rewrite Hr. rewrite Hx in Hend. by rewrite Nat.min_r by lia.
Qed.
Lemma fromByteArray_rfc s : Forall byte s → fromByteArray s = rfc4648 s.
Proof.
  intros Hs. unfold fromByteArray. rewrite concat_app.
  set (C := (length s - length s `mod` 3)%nat).
  assert (Hu : Z.of_nat (length s) `mod` 3 = Z.of_nat (length s `mod` 3)) by by rewrite Nat2Z.inj_mod.
  assert (HC : Z.of_nat (length s) - Z.of_nat (length s) `mod` 3 = Z.of_nat C)
    by (rewrite Hu; unfold C; pose proof (Nat.Div0.mod_le (length s) 3); lia).
  pose proof (chunks_spec s Hs) as Hchunks. cbn zeta in Hchunks. fold C in Hchunks. rewrite HC, Hchunks. 
  replace (rfc4648 s) with (rfc4648 (take C s ++ drop C s)) by by rewrite take_drop.
  rewrite rfc4648_app by (rewrite length_take_le by (unfold C; lia); apply thirds_below).
  f_equal. rewrite Hu.
  assert (Hlen : length (drop C s) = (length s `mod` 3)%nat) by (rewrite length_drop; unfold C; pose proof (Nat.Div0.mod_le (length s) 3); lia).
  assert (Hat : ∀ k x, drop C s !! k = Some x → elt s (Z.of_nat (C + k)) = x) by (intros k x Hk; apply elt_nat; by rewrite <- lookup_drop).
  assert (Hb : Forall byte (drop C s)) by by apply Forall_drop.
  pose proof (Nat.mod_upper_bound (length s) 3 ltac:(lia)) as Hlt.
  destruct (drop C s) as [|a [|b [|c l]]] eqn:Hd; cbn [length] in Hlen; [..|lia].
  - by rewrite <- Hlen.
  - rewrite <- Hlen. change (Z.of_nat 1 =? 1) with true. cbv iota.
    replace (Z.of_nat (length s) - 1) with (Z.of_nat (C + 0)) by (unfold C; lia).
    rewrite (Hat 0%nat a eq_refl). apply Forall_cons in Hb as [Ha _]. cbn [concat rfc4648]. unfold byte in Ha.
    rewrite js_shl_small, js_shr_small, js_and_63 by lia. rewrite !i_at_digit by js_arith. cbn [app].
    js_digits.
  - rewrite <- Hlen. change (Z.of_nat 2 =? 1) with false. change (Z.of_nat 2 =? 2) with true. cbv iota.
    replace (Z.of_nat (length s) - 1) with (Z.of_nat (C + 1)) by (unfold C; lia).
    replace (Z.of_nat (length s) - 2) with (Z.of_nat (C + 0)) by (unfold C; lia).
    rewrite (Hat 0%nat a eq_refl), (Hat 1%nat b eq_refl). apply Forall_cons in Hb as [Ha Hb]. apply Forall_cons in Hb as [Hb _].
    unfold byte in *. cbn [concat rfc4648]. rewrite (js_shl_small a) by lia.
    rewrite !js_shr_small, js_shl_small, !js_and_63 by js_arith. rewrite !i_at_digit by js_arith. cbn [app].
    js_digits.
Qed.

(** *** The decoder *)
Lemma sextet_at_nat s n k : 0 ≤ k < 64 → s !! n = Some (digit k) → sextet_at s (Z.of_nat n) = k.
Proof.
  intros Hk Hn. unfold sextet_at, at_. destruct (Z.ltb_spec (Z.of_nat n) 0); [lia|]. by rewrite Nat2Z.id, Hn, digit_a_at.
Qed.
(** The digits a loop pass reads, behind what it has read before. *)
Lemma sextet_behind pre rest k i : 0 ≤ k < 64 → rest !! i = Some (digit k) →
  sextet_at (pre ++ rest) (Z.of_nat (length pre) + Z.of_nat i) = k.
Proof.
  intros Hk Hi. rewrite <- Nat2Z.inj_add. apply sextet_at_nat; [done|].
  rewrite lookup_app_r by lia. by replace (length pre + i - length pre)%nat with i by lia.
Qed.
Lemma sextet_here pre rest k : 0 ≤ k < 64 → rest !! 0%nat = Some (digit k) → sextet_at (pre ++ rest) (Z.of_nat (length pre)) = k.
Proof. intros Hk Hi. rewrite <- (sextet_behind pre rest k 0) by done. by rewrite Z.add_0_r. Qed.
Lemma u8_set_app out x zs v i : byte v → i = Z.of_nat (length out) → u8_set (out ++ x :: zs) i v = out ++ v :: zs.
Proof.
  intros Hv ->. unfold u8_set. destruct (Z.ltb_spec (Z.of_nat (length out)) 0); [lia|].
  rewrite Nat2Z.id, insert_app_r_alt, Nat.sub_diag, Z.mod_small by done || lia. done.
Qed.
Lemma snoc_app (l : list Z) x k : l ++ x :: k = (l ++ [x]) ++ k.
Proof. by rewrite <- app_assoc. Qed.
Lemma join4 k1 k2 k3 k4 : 0 ≤ k1 < 64 → 0 ≤ k2 < 64 → 0 ≤ k3 < 64 → 0 ≤ k4 < 64 →
  js_or (js_or (js_or (js_shl k1 18) (js_shl k2 12)) (js_shl k3 6)) k4 = k1 * 262144 + k2 * 4096 + k3 * 64 + k4.
Proof.
  intros H1 H2 H3 H4. rewrite !js_shl_small by lia.
  rewrite (js_or_small (k1 * 2 ^ 18) _ 18 k1) by lia.
  rewrite (js_or_small (k1 * 2 ^ 18 + k2 * 2 ^ 12) _ 12 (k1 * 2 ^ 6 + k2)) by lia.
  rewrite (js_or_small (k1 * 2 ^ 18 + k2 * 2 ^ 12 + k3 * 2 ^ 6) _ 6 (k1 * 2 ^ 12 + k2 * 2 ^ 6 + k3)) by lia. lia.
Qed.
Lemma join3 k1 k2 k3 : 0 ≤ k1 < 64 → 0 ≤ k2 < 64 → 0 ≤ k3 < 64 →
  js_or (js_or (js_shl k1 10) (js_shl k2 4)) (js_shr k3 2) = k1 * 1024 + k2 * 16 + k3 / 4.
Proof.
  intros H1 H2 H3. rewrite !js_shl_small, js_shr_small by lia.
  rewrite (js_or_small (k1 * 2 ^ 10) _ 10 k1) by lia.
  rewrite (js_or_small (k1 * 2 ^ 10 + k2 * 2 ^ 4) _ 4 (k1 * 2 ^ 6 + k2)) by js_arith. js_arith.
Qed.
Lemma decode4_group pre rest a b c out zs : byte a → byte b → byte c →
  decode4 (pre ++ digit (a / 4) :: digit (a `mod` 4 * 16 + b / 16) :: digit (b `mod` 16 * 4 + c / 64) :: digit (c `mod` 64) :: rest)
    (Z.of_nat (length pre)) (out ++ 0 :: 0 :: 0 :: zs, Z.of_nat (length out)) = (out ++ a :: b :: c :: zs, Z.of_nat (length out) + 3).
Proof.
  intros Ha Hb Hc. unfold decode4.
  rewrite (sextet_here _ _ (a / 4)), (sextet_behind _ _ (a `mod` 4 * 16 + b / 16) 1), (sextet_behind _ _ (b `mod` 16 * 4 + c / 64) 2),
    (sextet_behind _ _ (c `mod` 64) 3) by done || js_arith.
  rewrite join4 by js_arith. rewrite (js_and_comm 255), !js_shr_small, !js_and_255 by js_arith.
  rewrite (u8_set_app out) by js_arith || done.
  match goal with |- context [out ++ ?x :: 0 :: 0 :: zs] => replace x with a by js_arith end.
  rewrite (snoc_app out a (0 :: 0 :: zs)), (u8_set_app (out ++ [a])) by (rewrite ?length_app; cbn; js_arith || lia).
  match goal with |- context [(out ++ [a]) ++ ?x :: 0 :: zs] => replace x with b by js_arith end.
  rewrite (snoc_app (out ++ [a]) b (0 :: zs)), (u8_set_app ((out ++ [a]) ++ [b]))
    by (rewrite ?length_app; cbn; js_arith || lia).
  rewrite <- !app_assoc. cbn [app]. repeat f_equal. js_arith.
Qed.

(** How many padding units an encoding ends in, and what its whole groups take. *)
Fixpoint pads (l : list Z) : Z :=
  match l with [] => 0 | [_] => 2 | [_; _] => 1 | _ :: _ :: _ :: l => pads l end.
Definition groups_end (l : list Z) : Z := Z.of_nat (length (rfc4648 l)) - (if 0 <? pads l then 4 else 0).
Lemma pads_range l : 0 ≤ pads l ≤ 2.
Proof. induction l as [|a|a b|a b c l IH] using triples_ind; cbn; lia. Qed.
Lemma rfc4648_length l : 3 * Z.of_nat (length (rfc4648 l)) = 4 * (Z.of_nat (length l) + pads l).
Proof. induction l as [|a|a b|a b c l IH] using triples_ind; cbn [rfc4648 length pads]; lia. Qed.
Lemma groups_end_nonneg l : 0 ≤ groups_end l.
Proof.
  unfold groups_end. pose proof (rfc4648_length l). pose proof (pads_range l).
  destruct (Z.ltb_spec 0 (pads l)); [|lia]. destruct l; cbn in *; lia.
Qed.
Lemma groups_end_triple a b c l : groups_end (a :: b :: c :: l) = 4 + groups_end l.
Proof. unfold groups_end. cbn [rfc4648 length pads]. destruct (0 <? pads l); lia. Qed.
Lemma index_of_next s c x : x ≠ c → index_of (x :: s) c = if index_of s c =? -1 then -1 else index_of s c + 1.
Proof.
  intros Hx. unfold index_of. cbn [list_find]. rewrite decide_False by congruence.
  destruct (list_find _ s) as [[i y]|]; cbn; [|done]. destruct (Z.eqb_spec (Z.of_nat i) (-1)); lia.
Qed.
Lemma index_of_here s c : index_of (c :: s) c = 0.
Proof. unfold index_of. cbn [list_find]. by rewrite decide_True. Qed.
Lemma rfc4648_index l : Forall byte l →
  index_of (rfc4648 l) pad_unit = if pads l =? 0 then -1 else Z.of_nat (length (rfc4648 l)) - pads l.
Proof.
  induction l as [|a|a b|a b c l IH] using triples_ind; intros Hl; rewrite ?Forall_cons in Hl; destruct_and?; [done|..].
  - cbn [rfc4648]. rewrite !index_of_next, index_of_here by (apply digit_no_pad; js_arith). done.
  - cbn [rfc4648]. rewrite !index_of_next, index_of_here by (apply digit_no_pad; js_arith). done.
  - cbn [rfc4648 pads length]. rewrite !index_of_next, IH by (done || apply digit_no_pad; js_arith).
    pose proof (rfc4648_length l). pose proof (pads_range l).
    destruct (Z.eqb_spec (pads l) 0); [done|].
    repeat match goal with |- context [?x =? -1] =>
      lazymatch x with context [Z.eqb] => fail | _ => rewrite (proj2 (Z.eqb_neq x (-1))) by lia end end.
    lia.
Qed.
Lemma decode_from_rfc l : ∀ pre out L, Forall byte l →
  groups_end l - 4 < L - Z.of_nat (length pre) ≤ groups_end l →
  decode_from (pre ++ rfc4648 l) (pads l) L (Z.of_nat (length pre)) (out ++ replicate (length l) 0, Z.of_nat (length out)) = out ++ l.
Proof.
  induction l as [|a|a b|a b c l IH] using triples_ind; intros pre out L Hl [HL1 HL2]; rewrite ?Forall_cons in Hl; destruct_and?;
    unfold decode_from; rewrite for_eq by done.
  - unfold groups_end in HL1, HL2; cbn in HL1, HL2. rewrite (proj2 (Z.ltb_ge _ _)) by lia. done.
  - unfold groups_end in HL1, HL2; cbn in HL1, HL2. rewrite (proj2 (Z.ltb_ge _ _)) by lia. cbn [rfc4648 pads length replicate]. unfold decode_tail. cbn [Z.eqb Pos.eqb].
    rewrite (sextet_here _ _ (a / 4)), (sextet_behind _ _ (a `mod` 4 * 16) 1) by done || js_arith.
    rewrite js_shl_small, js_shr_small, (js_or_small _ _ 2 (a / 4)) by js_arith. rewrite js_and_comm, js_and_255 by js_arith.
    rewrite u8_set_app by js_arith || done. repeat f_equal. js_arith.
  - unfold groups_end in HL1, HL2; cbn in HL1, HL2. rewrite (proj2 (Z.ltb_ge _ _)) by lia. cbn [rfc4648 pads length replicate]. unfold decode_tail. cbn [Z.eqb Pos.eqb].
    rewrite (sextet_here _ _ (a / 4)), (sextet_behind _ _ (a `mod` 4 * 16 + b / 16) 1), (sextet_behind _ _ (b `mod` 16 * 4) 2) by done || js_arith.
    rewrite join3 by js_arith. rewrite js_shr_small, (js_and_comm 255), !js_and_255 by js_arith.
    rewrite u8_set_app by js_arith || done. rewrite (snoc_app out _ [0]), u8_set_app by (rewrite ?length_app; cbn; js_arith || lia).
    rewrite <- app_assoc. cbn [app]. f_equal. f_equal; [js_arith|f_equal; js_arith].
  - rewrite groups_end_triple in HL1, HL2. pose proof (groups_end_nonneg l). rewrite (proj2 (Z.ltb_lt _ _)) by lia.
    cbn [rfc4648 pads length replicate]. rewrite decode4_group by done.
    rewrite (snoc_app pre), (snoc_app (pre ++ _)), (snoc_app ((pre ++ _) ++ _)), (snoc_app (((pre ++ _) ++ _) ++ _)).
    rewrite (snoc_app out _ (b :: _)), (snoc_app (out ++ _) _ (c :: _)), (snoc_app ((out ++ _) ++ _)).
    match goal with |- context [for_ (Z.of_nat (length pre) + 4) _ _ (decode4 (?p ++ _))] =>
      replace (Z.of_nat (length pre) + 4) with (Z.of_nat (length p)) by (rewrite !length_app; cbn; lia) end.
    match goal with |- context [(?o ++ replicate _ _, Z.of_nat (length out) + 3)] =>
      replace (Z.of_nat (length out) + 3) with (Z.of_nat (length o)) by (rewrite !length_app; cbn; lia) end.
    etrans; [apply IH; [done|rewrite !length_app; cbn; lia]|by rewrite <- !app_assoc].
Qed.
Lemma getLens_rfc l : Forall byte l →
  getLens (rfc4648 l) = inr (Z.of_nat (length (rfc4648 l)) - pads l, pads l).
Proof.
  intros Hl. unfold getLens. rewrite (rfc4648_index l Hl). pose proof (rfc4648_length l) as Hlen. pose proof (pads_range l) as Hp.
  rewrite (proj2 (Z.ltb_ge _ _)) by js_arith. destruct (Z.eqb_spec (pads l) 0) as [->|Hne].
  - cbn [Z.eqb Pos.eqb]. rewrite Z.eqb_refl. f_equal. f_equal. lia.
  - rewrite (proj2 (Z.eqb_neq _ (-1))) by lia. rewrite (proj2 (Z.eqb_neq _ _)) by lia. f_equal. f_equal. js_arith.
Qed.
Lemma toByteArray_rfc l : Forall byte l → toByteArray (rfc4648 l) = inr l.
Proof.
  intros Hl. unfold toByteArray. rewrite (getLens_rfc l Hl). pose proof (rfc4648_length l) as Hlen.
  replace (3 * (Z.of_nat (length (rfc4648 l)) - pads l + pads l) / 4 - pads l) with (Z.of_nat (length l)) by js_arith.
  rewrite (proj2 (Z.ltb_ge _ _)), Nat2Z.id by lia. f_equal.
  apply (decode_from_rfc l [] []); [done|]. cbn [length Z.of_nat]. unfold groups_end. pose proof (pads_range l).
  destruct (Z.ltb_spec 0 (pads l)); lia.
Qed.

(** A typed array keeps its length and holds bytes, whatever is stored. *)
Lemma u8_set_keeps C j v n : length C = n ∧ Forall byte C → length (u8_set C j v) = n ∧ Forall byte (u8_set C j v).
Proof.
  intros [Hn HC]. unfold u8_set. destruct (j <? 0); [done|]. rewrite length_insert. split; [done|].
  apply Forall_insert; [done|]. apply Z.mod_pos_bound. lia.
Qed.
Lemma decode_from_keeps s x L i C n : length C = n ∧ Forall byte C →
  length (decode_from s x L i (C, 0)) = n ∧ Forall byte (decode_from s x L i (C, 0)).
Proof.
  intros HC. unfold decode_from.
  destruct (for_inv (λ _ st, length (fst st) = n ∧ Forall byte (fst st)) i L 4 (decode4 s) (C, 0)) as [H _]; [done|done| |].
  - intros k [D j] _ HD. cbn [decode4 fst] in *. by repeat apply u8_set_keeps.
  - destruct (for_ _ _ _ _ _) as [k [D j]]. cbn [fst snd] in H. unfold decode_tail. repeat case_match; simplify_eq; by repeat apply u8_set_keeps.
Qed.
Lemma index_of_range s c : index_of s c = -1 ∨ 0 ≤ index_of s c < Z.of_nat (length s).
Proof.
  unfold index_of. destruct (list_find _ s) as [[i x]|] eqn:E; [right|by left].
  apply list_find_Some in E as [Hi _]. apply lookup_lt_Some in Hi. lia.
Qed.
Lemma index_of_zero s c : index_of s c = 0 ↔ head s = Some c.
Proof.
  destruct s as [|x s]; [done|]. cbn [head]. destruct (decide (x = c)) as [->|Hne]; [by rewrite index_of_here|].
  rewrite index_of_next by done. split; [|congruence]. destruct (index_of_range s c) as [->|?]; [done|]. case_match; lia.
Qed.

(** ** Correctness *)

(** C40: the bundle's base64 is RFC 4648's, and it reads its own back.  Coding
    16383 bytes at a time with 32-bit operators gives what the arithmetic
    definition gives on the whole list; [toByteArray] gives the bytes back,
    and [byteLength] how many. *)
Theorem js_base64_roundtrip l : Forall byte l →
  fromByteArray l = rfc4648 l ∧ toByteArray (fromByteArray l) = inr l ∧ byteLength (fromByteArray l) = inr (Z.of_nat (length l)).
Proof.
  intros Hl. rewrite (fromByteArray_rfc l Hl). split_and!; [done|by apply toByteArray_rfc|].
  unfold byteLength. rewrite (getLens_rfc l Hl). f_equal. pose proof (rfc4648_length l). js_arith.
Qed.

(** What [toByteArray] does with any string at all, characters outside the
    alphabet included.  A length that is no multiple of four is an error, of
    [byteLength] too; padding in first place makes the size negative, which
    [byteLength] reports and [Uint8Array] refuses; anything else decodes, to
    as many bytes as [byteLength] says. *)
Theorem toByteArray_exact s :
  if decide (Z.of_nat (length s) `mod` 4 ≠ 0) then
    ∃ m, toByteArray s = inl (Error m) ∧ byteLength s = inl (Error m)
  else if decide (head s = Some pad_unit) then toByteArray s = inl RangeError ∧ byteLength s = inr (-1)
  else ∃ C, toByteArray s = inr C ∧ byteLength s = inr (Z.of_nat (length C)) ∧ Forall byte C.
Proof.
  unfold toByteArray, byteLength, getLens. set (o := Z.of_nat (length s)).
  pose proof (Z.mod_pos_bound o 4 ltac:(lia)) as Hmod. destruct (decide _) as [Ho|Ho].
  { rewrite (proj2 (Z.ltb_lt _ _)) by lia. by eexists. }
  rewrite (proj2 (Z.ltb_ge _ _)) by lia. assert (Ho4 : o = 4 * (o / 4)) by js_arith.
  destruct (decide _) as [Hp|Hp].
  { pose proof Hp as Hz. apply index_of_zero in Hz. destruct s as [|x s]; [done|].
    assert (0 < o) by (subst o; cbn [length]; lia). rewrite Hz. change (0 =? -1) with false. cbv iota. rewrite (proj2 (Z.eqb_neq 0 o)) by lia. done. }
  rewrite <- index_of_zero in Hp. set (i := if index_of s pad_unit =? -1 then o else index_of s pad_unit).
  assert (Hi : 0 ≤ i ≤ o ∧ (i = 0 → o = 0)).
  { subst i. destruct (index_of_range s pad_unit) as [->|?]; [cbn; lia|]. case_match; lia. }
  set (x := if i =? o then 0 else 4 - i `mod` 4).
  assert (Hn : 0 ≤ 3 * (i + x) / 4 - x) by (subst x; destruct (Z.eqb_spec i o); js_arith).
  rewrite (proj2 (Z.ltb_ge _ _)) by lia. eexists. split; [done|].
  edestruct decode_from_keeps as [Hlen Hb]; [|rewrite Hlen; split; [|exact Hb]].
  - split; [reflexivity|]. apply Forall_replicate. done.
  - rewrite length_replicate, Z2Nat.id by lia. done.
Qed.

Module JsBase64Examples.
Definition hi : list Z := units "cabin".
Example hi_encoded : fromByteArray hi = units "Y2FiaW4=".
Proof. vm_compute. reflexivity. Qed.
(** It takes base64url as well. *)
Example either_alphabet : toByteArray (units "_-8=") = toByteArray (units "/+8=").
Proof. vm_compute. reflexivity. Qed.
(** Anything outside either alphabet counts as a zero. *)
Example anything_goes : toByteArray (units "!!!!") = toByteArray (units "AAAA").
Proof. vm_compute. reflexivity. Qed.
Lemma js_base64_roundtrip_witness : Forall byte hi ∧ toByteArray (fromByteArray hi) = inr hi.
Proof.
  assert (H : Forall byte hi) by (repeat constructor; done).
  split; [exact H|]. exact (proj1 (proj2 (js_base64_roundtrip hi H))).
Defined.
End JsBase64Examples.
